(* ===== verification/_CoqProject ===== *)
-Q . S2P
Prelude.v
Text.v
External.v
Values.v
PaymentRequest.v
NotificationPromo.v
BrowserStates.v
FirstUserActionRecorder.v
WebThread.v
WebThreadPosts.v
OfflineExternal.v
PageDisplayState.v
NavigationItem.v
SessionController.v
NavigationManager.v
WebStateList.v
WebStateListObservers.v
SerializableUserData.v
WebStateListSerialization.v
URLDownloader.v
OfflineUrlUtils.v
ReadingListDownloadService.v
PageInfoModel.v
RequestTrackerStore.v
CookieCache.v
SyncSetupService.v
CertificatePolicies.v
CertificateVerification.v
SessionStorage.v
SessionRestart.v
ReadingListRemoverHelper.v
OmahaResponseParser.v
OmahaService.v
ContextualSearchDelegate.v
HttpCacheHelper.v
BrowsingDataRemover.v
CRLSetFetcher.v
CookieCreationTimeManager.v
CookieStoreIOS.v
ProtocolHandlerUtil.v
ProtocolHandlerProxy.v
HttpProtocolHandler.v
URLDataSource.v
URLDataManagerIOS.v
