(* ===== verification/Prelude.v ===== *)
(** * Chromium for iOS: a verification development

    The program is the iOS port of Chromium: an application
    ([src/chrome]) on a web layer ([src/web]) that wraps WKWebView.  This
    library models the parts that hold the browser's own logic and state and
    proves them correct: the navigation history of a tab and its archive, the
    list of tabs of a window with its archive, the offline pages of the reading list, the
    named threads, the verification of certificates, payment requests, the
    HTTP requests of the system, the data sources of the web UI, the cookie
    store, the setup of sync, the cache of browser states, promos, the first
    user action, the page information, the pings to the update server, the
    requests of contextual search, the removal of browsing data and the set of
    revoked certificates.

    ** Parts and files

    - [Prelude] (this file): checked computations [chk], vectors indexed by
      [int], searches, counted loops, the order of strings, the type [int],
      assignment to a field.  [Text]: find and replace on strings.
    - [External], [OfflineExternal]: code the sources call and that is not in
      the repository (page transitions, URLs, the embedder, files, the reading
      list model), as classes with a concrete instance for the examples.
      Laws about them that a theorem needs are hypotheses of that theorem.
    - [PageDisplayState]: [web/public/web_state/page_display_state.mm], the
      scroll and zoom state of a page, on IEEE doubles, and its archive.
    - [NavigationItem]: [web/navigation/navigation_item_impl.mm] and the types
      it holds, URL rewriting ([web/browser_url_rewriter_impl.mm]), and
      [web/navigation/time_smoother.cc].
    - [SessionController]: [web/navigation/crw_session_controller.mm].  Items
      are objects: a session holds a heap of items and lists of their
      addresses, and the invariant says who owns which.
    - [NavigationManager]: [web/navigation/navigation_manager_impl.mm] on top
      of the session controller.  One step is a [nav_request]; a history is
      a sequence of them.
    - [WebStateList]: [chrome/browser/web_state_list/web_state_list.mm] with
      its order controller.  One step is a [request]; the notifications sent
      are a log in the state.
    - [WebStateListObservers]: what the log means to the Objective-C bridge,
      the metrics observer and the fast enumeration helper.
    - [SerializableUserData], [WebStateListSerialization]: user data of a
      WebState, the archive of a window
      ([chrome/browser/sessions/session_window_ios.mm]) and the saving and
      restoring of a tab list with its opener relation.
    - [URLDownloader], [ReadingListDownloadService], [OfflineUrlUtils]:
      [chrome/browser/reading_list].  The downloader is a queue of tasks whose
      work is done on another thread, by a distiller or by the network; the
      closures and callbacks under way are part of its state, a [request] is
      a call of the client and an [answer] whatever comes back.  The service
      decides when entries are downloaded and records the results.
    - [WebThread], [WebThreadPosts]: [web/web_thread_impl.cc].  The first has
      the table of named threads and each function as a whole; the second
      takes a post apart into its accesses to shared memory and interleaves
      any number of posts with threads that start and stop.
    - [Values]: [base::Value] and [PrefService], classes with laws and a
      concrete instance, used by the next three.
    - [PaymentRequest]: [web/payments/payment_request.cc], the dictionaries
      of the PaymentRequest API read and written.
    - [NotificationPromo]: [chrome/browser/notification_promo.cc], a promo
      and the counts of its views in the local state.
    - [BrowserStates]: [chrome/browser/browser_state], the cache of what is
      known of browser states, in step with a dictionary of the local state,
      its metrics, and the manager that creates browser states and fills it.
    - [FirstUserActionRecorder]: [chrome/browser/metrics], a state machine
      over user actions and a timer, with the closures it has posted.
    - [PageInfoModel]: [chrome/browser/ui/omnibox/page_info_model.cc], the
      sections of the page information bubble.
    - [RequestTrackerStore]: [web/net/request_tracker_data_memoizing_store.h],
      objects shared by request trackers; four maps that refine a catalogue.
    - [CookieCache]: [net/cookies/cookie_cache.cc], on [std::set] and
      [std::set_difference].
    - [CookieCreationTimeManager], [CookieStoreIOS]: [net/cookies], the store
      of the network stack on top of the cookies of the system, with the
      unique times its backing store requires, its subscribers and its delayed
      flush; it uses [CookieCache].  An [event] is a call, a change of the
      system's cookies or its notification.
    - [ProtocolHandlerUtil], [ProtocolHandlerProxy], [HttpProtocolHandler]:
      [net], a request of the system served by the network stack: responses
      and headers, the proxy that passes calls on to the thread of the client,
      which can pause and stop it, and the core on the network thread.  An
      [event] is a call of the system, the network, the tracker or the stream
      of a body, or one task that runs; [enabled] says when it may come.
    - [SyncSetupService]: [chrome/browser/sync/sync_setup_service.cc], choices
      that wait for a commit, on a sync service that is a parameter.
    - [CertificatePolicies], [CertificateVerification]: [web/net], what the
      user accepted for a certificate and a host, and the decision about a
      certificate the system rejects, made by closures on four threads; an
      [event] is a call or one closure that runs.
    - [SessionStorage], [SessionRestart]: what a tab keeps between two runs of
      the browser ([web/public/crw_session_storage.mm],
      [crw_navigation_item_storage.mm], the archives of certificates and the
      builders of [web/navigation]).  The first has the storage objects and
      their archives, the second the life of a tab: a [tab_event] is a
      navigation, an accepted certificate or a restart.
    - [ReadingListRemoverHelper]: [chrome/browser/reading_list], deleting the
      reading list once it is loaded, the download service as an observer of
      the model, and the WebStates the distiller keeps.
    - [OmahaResponseParser], [OmahaService]: [chrome/browser/omaha], the
      parser of the update server's answers, a state machine over the tags,
      and the service that pings the server, over restarts of the browser: an
      [event] is an answer, a timer, time that passes or a new process.
    - [ContextualSearchDelegate]: [chrome/browser/ui/contextual_search], one
      request at a time and at most one a second, with the tasks that wait.
    - [HttpCacheHelper]: counting ([chrome/browser/browsing_data]) and
      clearing ([net/http_cache_helper.cc]) the HTTP cache, whose backend
      completes at once or later.
    - [BrowsingDataRemover]: [chrome/browser/browsing_data], the remover of
      the data of a browser state, with the closures that come back to it in
      any order, and the helper that runs one removal after the other; it uses
      [HttpCacheHelper].
    - [CRLSetFetcher]: [chrome/browser/net/crl_set_fetcher.cc], full sets and
      deltas installed, saved and read back, by tasks on three threads.
    - [URLDataSource], [URLDataManagerIOS]: [web/webui], the data of the pages
      of the browser itself.  The first has the interface of a source and its
      two implementations; the second the jobs, the backend and the manager,
      for any source: a [World] has the objects of both threads with their
      reference counts and the tasks posted to each thread.

    The tab list owns WebStates, each of which has a navigation manager with
    one session controller; the serialization reads the tab list and the user
    data; the archive of a tab has its history, its user data and the
    certificates of its session, which go back to the policies after a
    restart; the download service drives the downloader and uses the same disk;
    promos and the cache of browser states write the same kind of preferences;
    the page information is that of the SSL status of a navigation item, whose
    security style comes from the verification of certificates.

    ** Conventions

    A translated function keeps its name in the source.  A function that can
    fail a DCHECK, dereference null or index out of range returns [chk];
    [Fault] is that outcome, also for a loop that does not end.  An [int] is
    a [Z]; where the source can overflow ([GetIndexForOffset], the indices of
    the serialized opener relation, the size in megabytes of a browser
    state's directory, [GetSmoothedTime] being 64-bit and far from the
    limit), the wrap-around is written out or bounded by a hypothesis.  Loops
    whose end is not structural take fuel: the length of the list for closing
    all WebStates and for going forward, the index for going back, the length
    of the text for replacements; a theorem of each shows that it is enough.
    A post to a thread is a sequence of steps without fuel: [remaining]
    decreases at each, from at most 30.  The two functions that enable sync
    call each other, to a given depth: they end within the depth 2 or at no
    depth, by [SetSyncEnabled_spec] and [changes_wait_for_commit].
    Counting the cache takes 3 [rounds], a removal of browsing data at most
    [kMostToRun], 20, closures, unless it waits for ever for a cache that was
    cleared at once; the theorems show that these are enough.  The loop that gives data
    to the client has as fuel the number of reads, enough by [read_all_spec].
    The tasks of the web UI run out within [load] steps, which
    [every_web_ui_request_ends] shows; a process is assumed to make less than
    [INT_MAX] requests to it, the number of a request being an [int].
    Histories are sequences of requests or events; where threads run
    concurrently, an event is one step of one of them.  Where a theorem is
    about every history, what the outside may do is not restricted to what the
    code copes with: the theorem names the events that fail a check or after
    which something never ends ([client_calls_in_order], [removals_finish],
    [omaha_keeps_going], [downloads_finish], [changes_wait_for_commit]).  A reading of the
    clock advances it by a number of microseconds that the history chooses.

    ** Theorems

    - Invariants of every reachable state: [history_stays_well_formed],
      [step_preserves_wf], [cache_agrees_with_prefs],
      [downloader_one_at_a_time], [downloader_never_faults],
      [unlocked_post_is_safe], [accepted_only_by_user],
      [changes_wait_for_commit], [one_action_is_recorded],
      [GetTitleForDisplay_fresh], [metrics_balance],
      [completions_run_once], [callback_means_removed],
      [install_id_is_kept], [sets_in_use_advance], [all_cookies_are_read],
      [one_cookie_is_deleted], [client_calls_in_order],
      [web_ui_serves_answers], [sources_die_on_ui_thread].
    - What operations do: [commit_new_navigation], [copy_state_merges],
      [RemoveItemAtIndex_spec], [active_web_state_stable],
      [AppendWebState_position], [close_active_selects_neighbour],
      [opened_by_search_spec], [requests_edit_queue], [PostTaskHelper_spec],
      [GetBrowserState_once], [sync_cleans_and_schedules],
      [IsOfflineURLValid_spec], [smoothed_times_increase],
      [legacy_keys_migrate], [old_prefs_migrate], [page_info_icon],
      [updates_report_changes], [SetDataTypeEnabled_spec],
      [GetPingContent_document], [RemoveImpl_adds], [response_headers_spec].
    - Bounds: [views_are_limited], [QueryPolicy_spec], [pings_are_spaced],
      [requests_are_spaced].
    - Agreement of two ways to the same answer, and refinement of an abstract
      specification: [back_offset_is_backward_item], [images_are_localized],
      [enumerate_all], [CurrentlyOn_agrees], [PaymentRequest_eq_spec],
      [PaymentRequest_FromDictionaryValue_spec], [first_action_decides],
      [store_keeps_promise], [parse_answer_spec], [subscribers_follow_store],
      [request_carries_body].
    - Termination and liveness: [CloseAllWebStates_spec],
      [SetSyncEnabled_spec], [downloads_finish], [attempts_are_bounded],
      [offline_entry_is_rescheduled], [allowed_certificate_is_accepted],
      [omaha_keeps_going], [latest_post_is_served], [count_cache_spec],
      [removals_finish], [changes_are_flushed], [every_load_ends],
      [every_web_ui_request_ends], [accepted_certificates_survive].
    - Round trips: [web_state_list_roundtrip], [session_window_roundtrip],
      [user_data_roundtrip], [display_state_roundtrip],
      [MoveWebStateAt_roundtrip], [offline_url_roundtrip],
      [promo_prefs_roundtrip], [PaymentResponse_written],
      [tab_survives_restart],
      [update_survives_restart]; totality on
      foreign archives: [initWithCoder_total].
    - Behaviour that is not what the code means to do, or that its callers
      must avoid: [repeated_desktop_navigation_faults],
      [close_active_with_child_selects_first],
      [replace_missed_by_enumeration], [empty_image_url_never_ends],
      [CancelTask_blocks_queue], [existing_page_counts_as_failure],
      [foreign_post_faults], [dotted_browser_state_comes_back],
      [rethrown_action_outlives_recorder], [numbers_are_reused],
      [endless_start], [signed_out_never_returns], [second_request_faults], [stale_block],
      [event_then_url_faults], [clock_set_back_delays_ping], [first_retry_age], [restart_skips_backoff],
      [cancel_blocks_requests], [uninitialized_flag_blocks],
      [failure_has_random_offsets], [direct_start_breaks_pace],
      [synchronous_doom_loses_callback], [synchronous_doom_never_ends],
      [merged_period_is_lost], [reentrant_removal_faults],
      [downgrade_after_restart], [delete_null_dated_deletes_all],
      [failed_read_faults], [no_default_type], [single_type_is_cut],
      [unreadable_type_is_no_type], [replaced_source_answers_nobody],
      [early_failure_is_lost], [accepted_certificates_are_lost],
      [broken_certificate_faults], [previous_index_not_adjusted],
      [wrong_previous_index_faults].

    ** Not modelled

    Views, view controllers and coordinators, the web controller around
    WKWebView, application startup, factories of services, bindings to
    components and Foundation, tests, resources and build scripts; the
    subscribers to removals of browsing data; in [cookie_store_ios.mm] what
    only its subclass without synchronization uses, what nothing calls, and
    metrics.  The update of the
    SSL status of an item ([web/net]) and the reading list's observer of page
    loads act on the web view; the web main loop starts and stops parts that
    are not modelled. *)

(** ** Prelude

    Shared vocabulary of the development: the checked-computation monad in
    which the translated code runs, C++ vectors indexed by [int], and the
    list lemmas and tactics the components share. *)
From stdpp Require Export base option list gmap strings.
From Stdlib Require Export ZArith Lia.

Declare Scope ios_scope.
Delimit Scope ios_scope with ios.
#[global] Open Scope Z_scope.

(** ** Checked computations

    A translated function returns [chk A].  [Fault] is the outcome of a run
    in which a [DCHECK]/[CHECK] of the code fails, a null pointer is
    dereferenced or a vector is indexed out of range: the process stops (in
    a build with checks enabled) and no result exists. *)
Inductive chk (A : Type) : Type :=
| Ok (a : A)
| Fault.
Arguments Ok {A} _.
Arguments Fault {A}.

#[export] Instance chk_ret : MRet chk := fun A a => Ok a.
#[export] Instance chk_bind : MBind chk := fun A B f m =>
  match m with Ok a => f a | Fault => Fault end.

Definition dcheck (b : bool) : chk unit := if b then Ok tt else Fault.

Definition deref {A} (p : option A) : chk A :=
  match p with Some a => Ok a | None => Fault end.

Definition is_ok {A} (m : chk A) : Prop := exists a, m = Ok a.

(** The result of a run that is known to succeed, for the examples. *)
Definition from_ok {A} (default : A) (m : chk A) : A :=
  match m with Ok a => a | Fault => default end.

Definition okb {A} (m : chk A) : bool :=
  match m with Ok _ => true | Fault => false end.

Lemma okb_run {A} (default : A) (m : chk A) : okb m = true -> m = Ok (from_ok default m).
Proof. by destruct m. Qed.

Lemma bind_Ok {A B} (f : A -> chk B) (a : A) : (Ok a ≫= f) = f a.
Proof. reflexivity. Qed.

Lemma bind_Ok_inv {A B} (f : A -> chk B) (m : chk A) (b : B) :
  (m ≫= f) = Ok b -> exists a, m = Ok a /\ f a = Ok b.
Proof. destruct m; simpl; [eauto | discriminate]. Qed.

Lemma dcheck_true (b : bool) : b = true -> dcheck b = Ok tt.
Proof. by intros ->. Qed.

Lemma dcheck_Ok (b : bool) (u : unit) : dcheck b = Ok u <-> b = true.
Proof. by destruct b, u. Qed.

Create HintDb ios.
Create Rewrite HintDb ios_rw.
#[export] Hint Rewrite @bind_Ok : ios_rw.
#[export] Hint Resolve dcheck_true : ios.

(** [chk_inv H] opens a successful run [H : (m ≫= f) = Ok b] into the runs of
    its parts. *)
Ltac chk_inv H :=
  lazymatch type of H with
  | mbind _ _ = Ok _ =>
      let a := fresh "a" in let H1 := fresh "Hrun" in let H2 := fresh "Hrun" in
      apply bind_Ok_inv in H as (a & H1 & H2); chk_inv H2
  | dcheck _ = Ok _ => apply dcheck_Ok in H
  | _ => idtac
  end.

(** A passed check as a proposition. *)
Ltac test_true H :=
  first [ apply Z.leb_le in H | apply Z.ltb_lt in H | apply Z.eqb_eq in H
        | apply bool_decide_eq_true in H | idtac ].

(** [run_inv H] opens a successful run completely: parts, checks, results. *)
Ltac run_inv H :=
  lazymatch type of H with
  | mbind _ _ = Ok _ =>
      let a := fresh "a" in let H1 := fresh "Hrun" in let H2 := fresh "Hrun" in
      apply bind_Ok_inv in H as (a & H1 & H2); cbv beta zeta in H2;
      run_inv H1; run_inv H2
  | (let '(_, _) := ?p in _) = Ok _ =>
      let x := fresh "x" in let y := fresh "y" in let E := fresh "Hpair" in
      destruct p as [x y] eqn:E; cbv beta zeta in H; run_inv H
  | dcheck _ = Ok _ => apply dcheck_Ok in H; test_true H
  | mret _ = Ok _ => injection H; clear H; intros; subst; try discriminate
  | Ok _ = Ok _ => injection H; clear H; intros; subst; try discriminate
  | _ => idtac
  end.

(** The same, with a case for every branch taken. *)
Ltac run_all H :=
  lazymatch type of H with
  | mbind _ _ = Ok _ =>
      let a := fresh "a" in let H1 := fresh "Hrun" in let H2 := fresh "Hrun" in
      apply bind_Ok_inv in H as (a & H1 & H2); cbv beta zeta in H2;
      run_all H1; run_all H2
  | dcheck _ = Ok _ => apply dcheck_Ok in H; test_true H
  | mret _ = Ok _ => injection H; clear H; intros; subst; try discriminate
  | Ok _ = Ok _ => injection H; clear H; intros; subst; try discriminate
  | Fault = Ok _ => discriminate H
  | match ?x with _ => _ end = Ok _ =>
      let E := fresh "Hcase" in destruct x eqn:E; cbv beta zeta in H; run_all H
  | _ => idtac
  end.

(** Splits every test of the goal; closes the arithmetic ones. *)
Ltac case_bool :=
  repeat match goal with
  | |- context [Z.eqb ?a ?b] => destruct (Z.eqb_spec a b); try lia
  | |- context [Z.leb ?a ?b] => destruct (Z.leb_spec a b); try lia
  | |- context [Z.ltb ?a ?b] => destruct (Z.ltb_spec a b); try lia
  end.

(** Proves a closed decidable proposition by evaluation. *)
Ltac decide_closed := refine (bool_decide_unpack _ _); vm_compute; exact I.

(** Proves a closed equation, inequality or conjunction of such by evaluation,
    without looking at the hypotheses. *)
Ltac evaluate :=
  vm_compute; repeat split; first [reflexivity | let H := fresh in intros H; discriminate H].

(** ** C++ vectors indexed by a signed integer *)

Section vectors.
Context {A : Type}.
Implicit Types (l : list A) (i : Z).

Definition vsize l : Z := Z.of_nat (length l).

(** [v[i]]: out of range is undefined behaviour, a [Fault]. *)
Definition vget l i : chk A :=
  if 0 <=? i then deref (l !! Z.to_nat i) else Fault.

(** [v[i] = x] *)
Definition vset i (x : A) l : list A :=
  if 0 <=? i then <[Z.to_nat i := x]> l else l.

(** [v.erase(v.begin() + i)] for an index in range. *)
Definition verase i l : list A := delete (Z.to_nat i) l.

(** [v.insert(v.begin() + i, x)] for [0 <= i <= v.size()]. *)
Definition vinsert i (x : A) l : list A :=
  take (Z.to_nat i) l ++ x :: drop (Z.to_nat i) l.

Lemma vsize_nonneg l : 0 <= vsize l.
Proof. unfold vsize. lia. Qed.

Lemma vget_Ok l i x :
  vget l i = Ok x <-> 0 <= i /\ l !! Z.to_nat i = Some x.
Proof.
  unfold vget, deref. case_bool.
  - destruct (l !! Z.to_nat i) as [y|]; split;
      [intros [= ->]; done | by intros [_ [= ->]] | done | by intros []].
  - split; [discriminate | lia].
Qed.

Lemma vget_in_range l i : 0 <= i < vsize l -> exists x, vget l i = Ok x.
Proof.
  unfold vsize. intros Hi.
  destruct (lookup_lt_is_Some_2 l (Z.to_nat i)) as [x Hx]; [lia |].
  exists x. apply vget_Ok. split; [lia | done].
Qed.

Lemma vget_range l i x : vget l i = Ok x -> 0 <= i < vsize l.
Proof.
  intros [? Hx]%vget_Ok. apply lookup_lt_Some in Hx. unfold vsize. lia.
Qed.

Lemma vsize_verase l i :
  0 <= i < vsize l -> vsize (verase i l) = vsize l - 1.
Proof.
  unfold vsize, verase. intros Hi.
  rewrite length_delete by (apply lookup_lt_is_Some; lia). lia.
Qed.

Lemma vsize_vinsert l i x : vsize (vinsert i x l) = vsize l + 1.
Proof.
  unfold vsize, vinsert. rewrite length_app. simpl.
  rewrite length_take, length_drop. lia.
Qed.

Lemma vinsert_Permutation l i x : vinsert i x l ≡ₚ x :: l.
Proof.
  unfold vinsert. rewrite <- Permutation_middle.
  by rewrite take_drop.
Qed.

Lemma verase_Permutation l i x :
  vget l i = Ok x -> l ≡ₚ x :: verase i l.
Proof.
  intros [_ Hx]%vget_Ok. unfold verase. by apply delete_Permutation.
Qed.

Lemma vget_vinsert_eq l i x :
  0 <= i <= vsize l -> vget (vinsert i x l) i = Ok x.
Proof.
  unfold vsize, vinsert. intros Hi. apply vget_Ok. split; [lia |].
  rewrite lookup_app_r; rewrite length_take; [| lia].
  replace (_ - _)%nat with 0%nat by lia. done.
Qed.

Lemma vget_vinsert_lt l i j x :
  0 <= j < i -> i <= vsize l -> vget (vinsert i x l) j = vget l j.
Proof.
  unfold vsize, vinsert, vget. intros Hj Hi. case_bool.
  rewrite lookup_app_l; [| rewrite length_take; lia].
  rewrite lookup_take_lt; [done | lia].
Qed.

Lemma vget_vinsert_ge l i j x :
  0 <= i <= j -> i <= vsize l -> vget (vinsert i x l) (j + 1) = vget l j.
Proof.
  unfold vsize, vinsert, vget. intros Hj Hi. case_bool.
  rewrite lookup_app_r; rewrite length_take; [| lia].
  replace (_ - _)%nat with (S (Z.to_nat j - Z.to_nat i)) by lia.
  simpl. rewrite lookup_drop. do 2 f_equal. lia.
Qed.

Lemma vget_verase_lt l i j :
  0 <= j < i -> vget (verase i l) j = vget l j.
Proof.
  unfold vget, verase. intros Hj. case_bool.
  rewrite list_lookup_delete_lt; [done | lia].
Qed.

Lemma vget_verase_ge l i j :
  0 <= i <= j -> vget (verase i l) j = vget l (j + 1).
Proof.
  unfold vget, verase. intros Hj. case_bool.
  rewrite list_lookup_delete_ge; [| lia]. do 2 f_equal. lia.
Qed.

Lemma vset_in_range l i x : 0 <= i -> vset i x l = <[Z.to_nat i := x]> l.
Proof. unfold vset. case_bool. done. Qed.

Lemma vsize_vset l i x : vsize (vset i x l) = vsize l.
Proof. unfold vsize, vset. case_bool; by rewrite ?length_insert. Qed.

Lemma vget_vset_eq l i x : 0 <= i < vsize l -> vget (vset i x l) i = Ok x.
Proof.
  unfold vsize. intros Hi. rewrite vset_in_range by lia. apply vget_Ok.
  split; [lia |]. apply list_lookup_insert_eq. lia.
Qed.

Lemma vget_vset_ne l i j x : i <> j -> vget (vset i x l) j = vget l j.
Proof.
  intros Hij. unfold vget, vset. case_bool; try done.
  rewrite list_lookup_insert_ne; [done | lia].
Qed.
End vectors.

#[export] Hint Resolve vsize_nonneg : ios.
#[export] Hint Rewrite @vsize_vinsert @vsize_vset : ios_rw.

(** ** First match and longest matching prefix *)

Section search.
Context {A : Type} (P : A -> bool).

(** Position of the first element that satisfies [P]. *)
Fixpoint find_index (l : list A) : option nat :=
  match l with
  | [] => None
  | x :: l' => if P x then Some O else S <$> find_index l'
  end.

(** Length of the longest prefix whose elements satisfy [P]. *)
Fixpoint prefix_len (l : list A) : nat :=
  match l with
  | [] => O
  | x :: l' => if P x then S (prefix_len l') else O
  end.

Lemma find_index_Some l k :
  find_index l = Some k <->
  (exists x, l !! k = Some x /\ P x = true) /\
  (forall j x, (j < k)%nat -> l !! j = Some x -> P x = false).
Proof.
  revert k. induction l as [| y l IH]; intros k; simpl.
  - split; [discriminate | intros [(x & Hx & _) _]; discriminate].
  - destruct (P y) eqn:Hy.
    + split.
      * intros [= <-]. split; [by exists y | lia].
      * intros [_ Hmin]. destruct k; [done |].
        specialize (Hmin O y ltac:(lia) eq_refl). congruence.
    + rewrite fmap_Some. split.
      * intros (k' & Hk' & ->). apply IH in Hk' as [Hex Hmin].
        split; [done |]. intros [| j] x Hj Hx; simpl in Hx.
        { congruence. }
        { apply (Hmin j x); [lia | done]. }
      * intros [(x & Hx & HPx) Hmin]. destruct k as [| k]; simpl in Hx.
        { congruence. }
        exists k. split; [| done]. apply IH. split; [by exists x |].
        intros j z Hj Hz. apply (Hmin (S j) z); [lia | done].
Qed.

Lemma find_index_None l :
  find_index l = None <-> (forall k x, l !! k = Some x -> P x = false).
Proof.
  induction l as [| y l IH]; simpl.
  - split; [done |]. done.
  - destruct (P y) eqn:Hy.
    + split; [discriminate |]. intros Hall.
      specialize (Hall O y eq_refl). congruence.
    + rewrite fmap_None, IH. split.
      * intros Hall [| k] x Hx; simpl in Hx; [congruence | eauto].
      * intros Hall k x Hx. by apply (Hall (S k)).
Qed.

Lemma find_index_lt l k : find_index l = Some k -> (k < length l)%nat.
Proof.
  intros [(x & Hx & _) _]%find_index_Some. by eapply lookup_lt_Some.
Qed.

Lemma prefix_len_le l : (prefix_len l <= length l)%nat.
Proof. induction l; simpl; [lia |]. destruct (P _); lia. Qed.

Lemma prefix_len_spec l j x :
  (j < prefix_len l)%nat -> l !! j = Some x -> P x = true.
Proof.
  revert j. induction l as [| y l IH]; intros j; simpl; [lia |].
  destruct (P y) eqn:Hy; [| lia].
  destruct j as [| j]; simpl; [congruence |]. intros Hj. apply IH. lia.
Qed.

Lemma prefix_len_stop l x : l !! prefix_len l = Some x -> P x = false.
Proof.
  induction l as [| y l IH]; simpl; [done |].
  destruct (P y) eqn:Hy; simpl; [done | congruence].
Qed.
End search.

Lemma fmap_verase {A B} (f : A -> B) (l : list A) (i : Z) :
  f <$> verase i l = verase i (f <$> l).
Proof.
  unfold verase. generalize (Z.to_nat i) as n. intros n. revert l.
  induction n as [| n IH]; intros [| x l]; simpl; try done.
  by rewrite <- IH.
Qed.

Lemma fmap_vinsert {A B} (f : A -> B) (l : list A) (i : Z) (x : A) :
  f <$> vinsert i x l = vinsert i (f x) (f <$> l).
Proof. unfold vinsert. by rewrite fmap_app, fmap_cons, fmap_take, fmap_drop. Qed.

Lemma vget_fmap {A B} (f : A -> B) (l : list A) (i : Z) (x : A) :
  vget l i = Ok x -> vget (f <$> l) i = Ok (f x).
Proof.
  intros [Hi Hx]%vget_Ok. apply vget_Ok. split; [done |].
  by rewrite list_lookup_fmap, Hx.
Qed.

Lemma vsize_fmap {A B} (f : A -> B) (l : list A) : vsize (f <$> l) = vsize l.
Proof. unfold vsize. by rewrite length_fmap. Qed.

#[export] Hint Rewrite @vsize_fmap : ios_rw.

Lemma vset_Permutation {A} (l : list A) (i : Z) (x : A) :
  0 <= i < vsize l -> vset i x l ≡ₚ x :: verase i l.
Proof.
  unfold vsize. intros Hi. rewrite vset_in_range by lia. unfold verase.
  rewrite insert_take_drop by lia. rewrite delete_take_drop.
  by rewrite <- Permutation_middle.
Qed.

Lemma verase_vinsert {A} (l : list A) (i : Z) (x : A) :
  0 <= i <= vsize l -> verase i (vinsert i x l) = l.
Proof.
  unfold vsize, verase, vinsert. intros Hi.
  replace (Z.to_nat i) with (length (take (Z.to_nat i) l)) at 1
    by (rewrite length_take; lia).
  rewrite delete_middle. apply take_drop.
Qed.

Lemma vinsert_verase {A} (l : list A) (i : Z) (x : A) :
  vget l i = Ok x -> vinsert i x (verase i l) = l.
Proof.
  intros [Hi Hx]%vget_Ok. unfold vinsert, verase.
  pose proof (lookup_lt_Some _ _ _ Hx) as Hlt.
  rewrite delete_take_drop.
  rewrite take_app_le by (rewrite length_take; lia).
  rewrite take_take, Nat.min_id.
  rewrite drop_app_ge by (rewrite length_take; lia).
  rewrite length_take, drop_drop.
  replace (S (Z.to_nat i) + _)%nat with (S (Z.to_nat i)) by lia.
  by apply take_drop_middle.
Qed.

(** Erasing the last element. *)
Lemma verase_last {A} (l : list A) (x : A) :
  verase (vsize (l ++ [x]) - 1) (l ++ [x]) = l.
Proof.
  unfold verase, vsize. rewrite length_app. simpl.
  replace (Z.to_nat _) with (length l) by lia.
  rewrite delete_middle. apply app_nil_r.
Qed.

Lemma vget_last {A} (l : list A) (x : A) :
  vget (l ++ [x]) (vsize (l ++ [x]) - 1) = Ok x.
Proof.
  unfold vsize. rewrite length_app. simpl. apply vget_Ok. split; [lia |].
  replace (Z.to_nat _) with (length l) by lia. apply list_lookup_middle. lia.
Qed.

(** ** Counted loops

    [for (int i = index; i < index + n; ++i) body(i)] *)
Fixpoint for_indices {S : Type} (n : nat) (index : Z) (body : Z -> S -> chk S)
    (st : S) : chk S :=
  match n with
  | O => mret st
  | Datatypes.S n =>
      st ← body index st; for_indices n (index + 1) body st
  end.

(** Loop rule: an invariant indexed by the loop counter. *)
Lemma for_indices_Ok {S : Type} (Inv : Z -> S -> Prop) body n index (st : S) :
  Inv index st ->
  (forall i st, index <= i < index + Z.of_nat n -> Inv i st ->
     exists st', body i st = Ok st' /\ Inv (i + 1) st') ->
  exists st', for_indices n index body st = Ok st' /\ Inv (index + Z.of_nat n) st'.
Proof.
  revert index st. induction n as [| n IH]; intros index st Hinv Hstep.
  - exists st. split; [done |]. by rewrite Z.add_0_r.
  - destruct (Hstep index st) as (st1 & H1 & Hinv1); [lia | done |].
    simpl. rewrite H1. simpl.
    destruct (IH (index + 1) st1 Hinv1) as (st2 & H2 & Hinv2).
    { intros i st0 Hi. apply Hstep. lia. }
    exists st2. split; [done |].
    by replace (index + Z.of_nat (Datatypes.S n))
      with (index + 1 + Z.of_nat n) by lia.
Qed.

(** ** The order of strings *)
Definition string_lt (s1 s2 : string) : Prop := String.compare s1 s2 = Lt.

Lemma string_lt_trans s1 s2 s3 : string_lt s1 s2 -> string_lt s2 s3 -> string_lt s1 s3.
Proof.
  unfold string_lt. revert s2 s3.
  induction s1 as [| c1 s1 IH]; intros [| c2 s2] [| c3 s3]; simpl; try done.
  unfold Ascii.compare.
  destruct (N.compare_spec (Ascii.N_of_ascii c1) (Ascii.N_of_ascii c2)) as [H12 | H12 | H12]; try done;
    destruct (N.compare_spec (Ascii.N_of_ascii c2) (Ascii.N_of_ascii c3)) as [H23 | H23 | H23]; try done;
    destruct (N.compare_spec (Ascii.N_of_ascii c1) (Ascii.N_of_ascii c3)) as [H13 | H13 | H13]; try done;
    try lia.
  apply IH.
Qed.

Lemma string_lt_irrefl s : ~ string_lt s s.
Proof.
  unfold string_lt. induction s as [| c s IH]; [done |]. simpl. unfold Ascii.compare.
  by rewrite N.compare_refl.
Qed.

Lemma string_ltb_lt s1 s2 : String.ltb s1 s2 = true <-> string_lt s1 s2.
Proof. unfold String.ltb, string_lt. by destruct (String.compare s1 s2). Qed.

Lemma string_lt_total s1 s2 : string_lt s1 s2 \/ s1 = s2 \/ string_lt s2 s1.
Proof.
  unfold string_lt. destruct (String.compare s1 s2) eqn:Hc; [| by left |].
  - right. left. by apply String.compare_eq_iff.
  - right. right. by rewrite String.compare_antisym, Hc.
Qed.

(** ** The type [int]: 32 bits *)
Definition INT_MIN : Z := -2147483648.
Definition INT_MAX : Z := 2147483647.
#[global] Arguments INT_MIN : simpl never.
#[global] Arguments INT_MAX : simpl never.

(** The [int] with the same low 32 bits. *)
Definition wrap32 (x : Z) : Z := (x + 2 ^ 31) mod 2 ^ 32 - 2 ^ 31.

Lemma wrap32_small x : INT_MIN <= x <= INT_MAX -> wrap32 x = x.
Proof.
  unfold INT_MIN, INT_MAX, wrap32. intros Hx. rewrite Z.mod_small by lia. lia.
Qed.

(** ** Assignment to a field of a struct

    [s <| f := v |>] is [s] with the field [f] replaced.  The list of fields
    of a record is declared once, by an instance of [Fields]. *)
Class Fields (R : Type) := rebuild : R -> R.

Class FieldSetter {R T : Type} (field : R -> T) := set_field : (T -> T) -> R -> R.

Ltac head_of t := lazymatch t with ?f _ => head_of f | _ => t end.

Ltac unfold_head t := let h := head_of t in eval cbv beta delta [h] in t.

Ltac derive_setter field :=
  let R := lazymatch type of field with ?R -> _ => R end in
  let builder := eval cbv beta delta [rebuild] in (@rebuild R _) in
  let builder := unfold_head builder in
  lazymatch eval pattern field in builder with
  | ?abstracted _ =>
      let setter := eval cbv beta in
        (fun update => abstracted (fun r => update (field r))) in
      exact setter
  end.

#[export] Hint Extern 0 (FieldSetter ?field) => derive_setter field
  : typeclass_instances.

Notation "s <| f := v |>" := (set_field (field := f) (fun _ => v) s)
  (at level 12, f at next level, left associativity,
   format "s  <| f  :=  v |>") : ios_scope.
#[global] Open Scope ios_scope.
