(* ===== verification/Text.v ===== *)
(** * std::string as a sequence of characters

    [find], [replace] and the loop that replaces every occurrence of a word,
    as the code writes it, with the description of its result that does not
    mention positions. *)
From S2P Require Import Prelude.

Abbreviation text := (list Ascii.ascii).

Definition text_of (s : string) : text := String.list_ascii_of_string s.

#[export] Instance ascii_list_eq_dec : EqDecision text := _.

(** [s] starts with [pattern]. *)
Fixpoint starts_with (pattern s : text) : bool :=
  match pattern, s with
  | [], _ => true
  | a :: pattern, b :: s => bool_decide (a = b) && starts_with pattern s
  | _ :: _, [] => false
  end.

Fixpoint find_first (pattern s : text) : option nat :=
  if starts_with pattern s then Some O
  else match s with
       | [] => None
       | _ :: s => S <$> find_first pattern s
       end.

(** [s.find(pattern, pos)], [None] for [npos]. *)
Definition find (s pattern : text) (pos : nat) : option nat :=
  if (pos <=? length s)%nat then Nat.add pos <$> find_first pattern (drop pos s)
  else None.

(** [s.replace(pos, count, by)] for [pos <= s.size()]. *)
Definition replace (s : text) (pos count : nat) (by_ : text) : text :=
  take pos s ++ by_ ++ drop (pos + count) s.

(** [while (pos != npos) { s.replace(pos, size, by); pos = s.find(pattern, pos + by.size()); }]
    [None] when the fuel runs out. *)
Fixpoint replace_loop (fuel : nat) (pattern by_ s : text) (pos : option nat)
    : option text :=
  match pos with
  | None => Some s
  | Some p =>
      match fuel with
      | O => None
      | S fuel =>
          let s := replace s p (length pattern) by_ in
          replace_loop fuel pattern by_ s (find s pattern (p + length by_))
      end
  end.

(** The text in which the occurrences of [pattern], taken from the left and
    without overlap, are replaced. *)
Inductive replaced (pattern by_ : text) : text -> text -> Prop :=
| replaced_none s : find_first pattern s = None -> replaced pattern by_ s s
| replaced_next s k t :
    find_first pattern s = Some k ->
    replaced pattern by_ (drop (k + length pattern) s) t ->
    replaced pattern by_ s (take k s ++ by_ ++ t).

Section lemmas.
Implicit Types (pattern s t : text) (k : nat).

Lemma starts_with_spec pattern s :
  starts_with pattern s = true <-> exists t, s = pattern ++ t.
Proof.
  revert s. induction pattern as [| a pattern IH]; intros [| b s]; simpl.
  - split; [by exists [] | done].
  - split; [by exists (b :: s) | done].
  - split; [done | by intros (t & Ht)].
  - rewrite andb_true_iff, bool_decide_eq_true, IH. split.
    + intros [-> (t & ->)]. by exists t.
    + intros (t & [= -> ->]). split; [done | by exists t].
Qed.

Lemma find_first_Some pattern s k :
  find_first pattern s = Some k ->
  s = take k s ++ pattern ++ drop (k + length pattern) s /\
  (k + length pattern <= length s)%nat.
Proof.
  revert k. induction s as [| b s IH]; intros k; simpl;
    destruct (starts_with pattern _) eqn:Hs; try discriminate.
  1, 2: intros [= <-]; apply starts_with_spec in Hs as (t & Ht);
    change (0 + length pattern)%nat with (length pattern).
  - symmetry in Ht. apply app_eq_nil in Ht as [-> ->]. done.
  - change (S (length s)) with (length (b :: s)).
    rewrite Ht, drop_app_length, length_app. split; [done | lia].
  - intros (k' & Hk & ->)%fmap_Some. apply IH in Hk as [Hk Hlen]. simpl.
    split; [by f_equal | lia].
Qed.

(** An earlier position is not an occurrence. *)
Lemma find_first_minimal pattern s k j :
  find_first pattern s = Some k -> (j < k)%nat ->
  starts_with pattern (drop j s) = false.
Proof.
  revert k j. induction s as [| b s IH]; intros k j; simpl;
    destruct (starts_with pattern _) eqn:Hs; try discriminate.
  1, 2: intros [= <-]; lia.
  intros (k' & Hk & ->)%fmap_Some Hj. destruct j as [| j]; simpl; [done |].
  apply (IH k'); [done | lia].
Qed.

Lemma find_first_nil s : find_first [] s = Some O.
Proof. by destruct s. Qed.

Lemma find_prefix pre s pattern :
  find (pre ++ s) pattern (length pre)
  = Nat.add (length pre) <$> find_first pattern s.
Proof.
  unfold find. rewrite length_app, drop_app_length.
  by destruct (Nat.leb_spec (length pre) (length pre + length s)); [| lia].
Qed.

Lemma find_0 s pattern : find s pattern 0 = find_first pattern s.
Proof. rewrite (find_prefix [] s). simpl. by destruct (find_first _ _). Qed.

Lemma replace_prefix pre s k n by_ :
  replace (pre ++ s) (length pre + k) n by_
  = (pre ++ take k s ++ by_) ++ drop (k + n) s.
Proof.
  unfold replace. rewrite take_app_add, <- Nat.add_assoc, drop_app_add.
  by rewrite <- !app_assoc.
Qed.

(** The loop, started behind [pre], replaces the occurrences in the rest. *)
Lemma replace_loop_replaced pattern by_ n : forall pre s,
  pattern <> [] -> (length s <= n)%nat ->
  exists t, replaced pattern by_ s t /\
    replace_loop n pattern by_ (pre ++ s) (Nat.add (length pre) <$> find_first pattern s)
    = Some (pre ++ t).
Proof.
  induction n as [| n IH]; intros pre s Hp Hn.
  all: destruct (find_first pattern s) as [k |] eqn:Hk;
    [| exists s; split; [by apply replaced_none | done]].
  all: destruct (find_first_Some _ _ _ Hk) as [_ Hlen].
  all: assert (0 < length pattern)%nat by (destruct pattern; [done | simpl; lia]).
  { lia. }
  simpl. rewrite replace_prefix.
  replace (length pre + k + length by_)%nat
    with (length (pre ++ take k s ++ by_))
    by (rewrite !length_app, length_take; lia).
  rewrite find_prefix.
  destruct (IH (pre ++ take k s ++ by_) (drop (k + length pattern) s)) as (t & Ht & Hrun).
  { done. }
  { rewrite length_drop. lia. }
  exists (take k s ++ by_ ++ t). split; [by eapply replaced_next |].
  rewrite Hrun. by rewrite <- !app_assoc.
Qed.

Lemma replace_loop_total pattern by_ s :
  pattern <> [] ->
  exists t, replaced pattern by_ s t /\
    replace_loop (length s) pattern by_ s (find s pattern 0) = Some t.
Proof.
  intros Hp. destruct (replace_loop_replaced pattern by_ (length s) [] s Hp)
    as (t & Ht & Hrun); [done |].
  exists t. split; [done |]. rewrite find_0. simpl in Hrun. rewrite <- Hrun.
  by destruct (find_first pattern s).
Qed.

(** An empty pattern is found at once after each replacement. *)
Lemma replace_loop_empty by_ fuel s p :
  (p <= length s)%nat -> replace_loop fuel [] by_ s (Some p) = None.
Proof.
  revert s p. induction fuel as [| fuel IH]; intros s p Hp; simpl; [done |].
  set (s' := replace s p 0 by_).
  assert (length s' = length s + length by_)%nat as Hlen.
  { unfold s', replace. rewrite !length_app, length_take, length_drop. lia. }
  unfold find. destruct (Nat.leb_spec (p + length by_) (length s')); [| lia].
  rewrite find_first_nil. simpl. apply IH. lia.
Qed.

Lemma replaced_deterministic pattern by_ s t1 t2 :
  replaced pattern by_ s t1 -> replaced pattern by_ s t2 -> t1 = t2.
Proof.
  intros H1. revert t2. induction H1 as [s Hn | s k t Hk _ IH]; intros t2 H2;
    inversion H2 as [? Hn' | ? k' t' Hk' Ht']; subst; try congruence.
  rewrite Hk in Hk'. injection Hk' as <-. do 2 f_equal. by apply IH.
Qed.

Lemma replaced_absent pattern by_ s t :
  replaced pattern by_ s t -> find_first pattern s = None -> t = s.
Proof. intros Ht Hn. eapply replaced_deterministic; [done | by apply replaced_none]. Qed.
End lemmas.

Definition cat_example : text := text_of "cat".
Example replace_cats :
  replace_loop 20 cat_example (text_of "do") (text_of "a cat, a catcat") (Some 2%nat)
  = Some (text_of "a do, a dodo").
Proof. reflexivity. Qed.
