(* ===== verification/External.v ===== *)
(** * External code

    The code the sources call and that is not part of the repository, as
    classes whose fields are the parameters of the models: page transitions
    of [ui/base], URLs and the embedder.  Each class has a concrete
    instance on which the witnesses run. *)
From S2P Require Import Prelude.

(** ** [ui/base/page_transition_types.h] *)
Class PageTransitionApi := {
  PageTransition : Type;
  PAGE_TRANSITION_LINK : PageTransition;
  PAGE_TRANSITION_FORM_SUBMIT : PageTransition;
  PAGE_TRANSITION_RELOAD : PageTransition;
  PAGE_TRANSITION_CLIENT_REDIRECT : PageTransition;
(** [PageTransitionCoreTypeIs(lhs, rhs)] *)
PageTransitionCoreTypeIs : PageTransition -> PageTransition -> bool;
(** [transition & PAGE_TRANSITION_IS_REDIRECT_MASK], also what
    [PageTransitionIsRedirect] tests. *)
PageTransitionIsRedirect : PageTransition -> bool;
}.

(** A concrete page transition: a core type and the redirect qualifier. *)
Module ConcreteTransition.
Record transition := mk { core : Z; redirect : bool }.

#[export] Instance api : PageTransitionApi := {|
  PageTransition := transition;
  PAGE_TRANSITION_LINK := mk 0 false;
  PAGE_TRANSITION_FORM_SUBMIT := mk 7 false;
  PAGE_TRANSITION_RELOAD := mk 8 false;
  PAGE_TRANSITION_CLIENT_REDIRECT := mk 0 true;
  PageTransitionCoreTypeIs a b := core a =? core b;
  PageTransitionIsRedirect a := redirect a;
|}.
End ConcreteTransition.

(** ** [url/gurl.h] *)
Class GurlApi := {
  GURL : Type;
  GURL_eq_dec : EqDecision GURL;
(** [GURL()] *)
GURL_empty : GURL;
is_empty : GURL -> bool;
is_valid : GURL -> bool;
has_ref : GURL -> bool;
EqualsIgnoringRef : GURL -> GURL -> bool;
GetOrigin : GURL -> GURL;
SchemeIsFile : GURL -> bool;
is_empty_spec : forall u, is_empty u = true <-> u = GURL_empty;
}.
#[export] Existing Instance GURL_eq_dec.

(** [operator==] of [GURL]. *)
Definition same_url `{GurlApi} (a b : GURL) : bool := bool_decide (a = b).

Lemma same_url_spec `{GurlApi} a b : same_url a b = true <-> a = b.
Proof. apply bool_decide_eq_true. Qed.

(** ** The embedder: [web::GetWebClient()] *)
Class WebClientApi `{GurlApi} := {
  IsAppSpecificURL : GURL -> bool;
}.

(** A concrete URL: a scheme, what follows it, and a fragment.  The scheme
    "chrome" is the embedder's own. *)
Module ConcreteUrl.
Record url := mk_url {
  scheme : string;
  host : string;
  path : string;
  fragment : option string;
}.

#[export] Instance url_eq_dec : EqDecision url.
Proof. solve_decision. Defined.

Definition empty_url : url := mk_url "" "" "" None.

#[export, refine] Instance gurl : GurlApi := {|
  GURL := url;
  GURL_eq_dec := url_eq_dec;
  GURL_empty := empty_url;
  is_empty u := bool_decide (u = empty_url);
  is_valid u := negb (String.eqb (scheme u) "");
  has_ref u := match fragment u with Some _ => true | None => false end;
  EqualsIgnoringRef u v :=
    bool_decide (mk_url (scheme u) (host u) (path u) None
                 = mk_url (scheme v) (host v) (path v) None);
  GetOrigin u := mk_url (scheme u) (host u) "" None;
  SchemeIsFile u := String.eqb (scheme u) "file";
|}.
Proof. intros u. apply bool_decide_eq_true. Defined.

#[export] Instance client : WebClientApi :=
  {| IsAppSpecificURL u := String.eqb (scheme u) "chrome" |}.
End ConcreteUrl.
