(* ===== verification/Values.v ===== *)
(** * base::Value

    The dictionaries, lists and scalar values of [base/values.h], which the
    sources read and write and which are not part of the repository: a class,
    its laws, and a concrete instance.  Most of its functions take a path
    whose components are separated by dots; those "without path expansion"
    take a key. *)
From S2P Require Import Prelude Text.
From Stdlib Require Import Ascii.

Class ValuesApi := {
  Value : Type;
  DictionaryValue : Type;
  ListValue : Type;
(** A floating point number. *)
double : Type;
(** Values of each type; [as_t v] is [None] when [v] has another type. *)
of_string : string -> Value;
as_string : Value -> option string;
of_bool : bool -> Value;
as_bool : Value -> option bool;
of_int : Z -> Value;
as_int : Value -> option Z;
of_double : double -> Value;
as_double : Value -> option double;
of_dictionary : DictionaryValue -> Value;
as_dictionary : Value -> option DictionaryValue;
of_list : ListValue -> Value;
as_list : Value -> option ListValue;
(** Dictionaries: by path, and by key without path expansion. *)
empty_dictionary : DictionaryValue;
FindPath : DictionaryValue -> string -> option Value;
SetPath : string -> Value -> DictionaryValue -> DictionaryValue;
RemovePath : string -> DictionaryValue -> DictionaryValue;
FindKey : DictionaryValue -> string -> option Value;
SetKey : string -> Value -> DictionaryValue -> DictionaryValue;
(** The keys in the order of [DictionaryValue::Iterator]. *)
Keys : DictionaryValue -> list string;
(** [d1.MergeDictionary(d2)] *)
MergeDictionary : DictionaryValue -> DictionaryValue -> DictionaryValue;
(** Lists. *)
list_elements : ListValue -> list Value;
}.

Section accessors.
Context `{ValuesApi}.
Implicit Types (d : DictionaryValue) (path : string).

Definition GetString d path : option string := FindPath d path ≫= as_string.
Definition GetBoolean d path : option bool := FindPath d path ≫= as_bool.
Definition GetInteger d path : option Z := FindPath d path ≫= as_int.
Definition GetDouble d path : option double := FindPath d path ≫= as_double.
Definition GetDictionary d path : option DictionaryValue :=
  FindPath d path ≫= as_dictionary.
Definition GetList d path : option ListValue := FindPath d path ≫= as_list.
Definition SetString path (s : string) d := SetPath path (of_string s) d.
Definition SetBoolean path (b : bool) d := SetPath path (of_bool b) d.
Definition SetInteger path (n : Z) d := SetPath path (of_int n) d.
Definition SetDouble path (x : double) d := SetPath path (of_double x) d.
Definition SetDictionary path (v : DictionaryValue) d :=
  SetPath path (of_dictionary v) d.
(** [list.GetDictionary(i, &d)] *)
Definition GetDictionaryAt (l : ListValue) (i : nat) : option DictionaryValue :=
  list_elements l !! i ≫= as_dictionary.
Definition GetSize (l : ListValue) : nat := length (list_elements l).
(** [d.empty()] *)
Definition dictionary_empty d : bool := match Keys d with [] => true | _ => false end.
End accessors.

(** [GetString(path, &out)] and the like write [out] only on success. *)
Definition or_keep {A} (found : option A) (out : A) : A := default out found.

(** A key that is a path of one component. *)
Fixpoint no_dot (s : string) : bool :=
  match s with
  | EmptyString => true
  | String c s => negb (Ascii.eqb c "."%char) && no_dot s
  end.

(** The documented behaviour the code relies on: each type is read back, a
    dictionary is a map from keys, paths of one component are keys, and
    removing a longer path leaves the key spelled like it alone, and no other key
    appears, disappears or stops being one of a dictionary. *)
Record value_laws `{ValuesApi} : Prop := {
  string_back s : as_string (of_string s) = Some s;
  bool_back b : as_bool (of_bool b) = Some b;
  int_back n : as_int (of_int n) = Some n;
  double_back x : as_double (of_double x) = Some x;
  dictionary_back d : as_dictionary (of_dictionary d) = Some d;
  list_back l : as_list (of_list l) = Some l;
  find_key_empty k : FindKey empty_dictionary k = None;
  find_set_key k v d : FindKey (SetKey k v d) k = Some v;
  find_set_key_ne k k' v d : k <> k' -> FindKey (SetKey k v d) k' = FindKey d k';
  find_path_key d k : no_dot k = true -> FindPath d k = FindKey d k;
  set_path_key k v d : no_dot k = true -> SetPath k v d = SetKey k v d;
  remove_path k d : no_dot k = true -> FindKey (RemovePath k d) k = None;
  remove_path_ne k k' d :
    no_dot k = true -> k <> k' -> FindKey (RemovePath k d) k' = FindKey d k';
  remove_dotted k d : no_dot k = false -> FindKey (RemovePath k d) k = FindKey d k;
  remove_dotted_found k k' d :
    no_dot k = false -> is_Some (FindKey (RemovePath k d) k') <-> is_Some (FindKey d k');
  remove_dotted_dictionary k k' d :
    no_dot k = false -> is_Some (FindKey d k' ≫= as_dictionary) ->
    is_Some (FindKey (RemovePath k d) k' ≫= as_dictionary);
  keys_found d k : k ∈ Keys d <-> is_Some (FindKey d k);
  keys_distinct d : NoDup (Keys d);
  find_merged_empty d k :
    FindKey (MergeDictionary empty_dictionary d) k = FindKey d k;
}.

Section laws.
Context `{ValuesApi} (Hlaws : value_laws).
Implicit Types (d : DictionaryValue) (k : string).

Lemma find_set_path k v d :
  no_dot k = true -> FindPath (SetPath k v d) k = Some v.
Proof.
  intros Hk. rewrite (set_path_key Hlaws), (find_path_key Hlaws) by done.
  apply (find_set_key Hlaws).
Qed.

Lemma find_set_path_ne k k' v d :
  no_dot k = true -> no_dot k' = true -> k <> k' ->
  FindPath (SetPath k v d) k' = FindPath d k'.
Proof.
  intros Hk Hk' Hne. rewrite (set_path_key Hlaws), !(find_path_key Hlaws) by done.
  by apply (find_set_key_ne Hlaws).
Qed.

Lemma find_path_empty k : no_dot k = true -> FindPath empty_dictionary k = None.
Proof.
  intros Hk. rewrite (find_path_key Hlaws) by done. apply (find_key_empty Hlaws).
Qed.

Lemma GetString_set k s d : no_dot k = true -> GetString (SetString k s d) k = Some s.
Proof.
  intros Hk. unfold GetString, SetString. rewrite find_set_path by done.
  apply (string_back Hlaws).
Qed.

Lemma GetBoolean_set k b d : no_dot k = true -> GetBoolean (SetBoolean k b d) k = Some b.
Proof.
  intros Hk. unfold GetBoolean, SetBoolean. rewrite find_set_path by done.
  apply (bool_back Hlaws).
Qed.

Lemma GetInteger_set k n d : no_dot k = true -> GetInteger (SetInteger k n d) k = Some n.
Proof.
  intros Hk. unfold GetInteger, SetInteger. rewrite find_set_path by done.
  apply (int_back Hlaws).
Qed.

Lemma GetDouble_set k x d : no_dot k = true -> GetDouble (SetDouble k x d) k = Some x.
Proof.
  intros Hk. unfold GetDouble, SetDouble. rewrite find_set_path by done.
  apply (double_back Hlaws).
Qed.

Lemma GetDictionary_set k v d :
  no_dot k = true -> GetDictionary (SetDictionary k v d) k = Some v.
Proof.
  intros Hk. unfold GetDictionary, SetDictionary. rewrite find_set_path by done.
  apply (dictionary_back Hlaws).
Qed.

Lemma set_not_empty k v d : dictionary_empty (SetKey k v d) = false.
Proof.
  unfold dictionary_empty.
  assert (k ∈ Keys (SetKey k v d)) as Hin.
  { apply (keys_found Hlaws). rewrite (find_set_key Hlaws). by eexists. }
  destruct (Keys _); [by apply elem_of_nil in Hin | done].
Qed.
End laws.

(** Reads a key through writes of other keys. *)
Ltac read_values Hlaws :=
  repeat first
    [ rewrite (find_set_path Hlaws) by reflexivity
    | rewrite (find_set_path_ne Hlaws) by (reflexivity || discriminate)
    | rewrite (find_path_empty Hlaws) by reflexivity
    | rewrite (string_back Hlaws) | rewrite (bool_back Hlaws)
    | rewrite (int_back Hlaws) | rewrite (double_back Hlaws)
    | rewrite (dictionary_back Hlaws) | rewrite (list_back Hlaws) ].

(** ** A concrete instance: association lists *)
Module ConcreteValues.
Inductive value :=
| VString (s : string)
| VBool (b : bool)
| VInt (n : Z)
| VDouble (x : Z)
| VDictionary (d : list (string * value))
| VList (l : list value).

Abbreviation dictionary := (list (string * value)).

Fixpoint find_key (d : dictionary) (k : string) : option value :=
  match d with
  | [] => None
  | (k', v) :: d => if String.eqb k' k then Some v else find_key d k
  end.

Definition set_key (k : string) (v : value) (d : dictionary) : dictionary := (k, v) :: d.

Definition remove_key (k : string) (d : dictionary) : dictionary :=
  filter (fun e => e.1 <> k) d.

(** The components of a path. *)
Fixpoint components (s : string) : string * list string :=
  match s with
  | EmptyString => (EmptyString, [])
  | String c s =>
      let '(k, ks) := components s in
      if Ascii.eqb c "."%char then (EmptyString, k :: ks) else (String c k, ks)
  end.

Definition sub_dictionary (d : dictionary) (k : string) : option dictionary :=
  match find_key d k with Some (VDictionary d') => Some d' | _ => None end.

Fixpoint find_path (k : string) (ks : list string) (d : dictionary) : option value :=
  match ks with
  | [] => find_key d k
  | k' :: ks => match sub_dictionary d k with
                | Some d' => find_path k' ks d'
                | None => None
                end
  end.

Fixpoint set_path (k : string) (ks : list string) (v : value) (d : dictionary)
    : dictionary :=
  match ks with
  | [] => set_key k v d
  | k' :: ks =>
      set_key k (VDictionary (set_path k' ks v (default [] (sub_dictionary d k)))) d
  end.

Fixpoint remove_path_of (k : string) (ks : list string) (d : dictionary) : dictionary :=
  match ks with
  | [] => remove_key k d
  | k' :: ks => match sub_dictionary d k with
                | Some d' => set_key k (VDictionary (remove_path_of k' ks d')) d
                | None => d
                end
  end.

Definition on_path {A} (f : string -> list string -> A) (path : string) : A :=
  let '(k, ks) := components path in f k ks.

#[export] Instance values : ValuesApi := {|
  Value := value;
  DictionaryValue := dictionary;
  ListValue := list value;
  double := Z;
  of_string := VString;
  as_string v := match v with VString s => Some s | _ => None end;
  of_bool := VBool;
  as_bool v := match v with VBool b => Some b | _ => None end;
  of_int := VInt;
  as_int v := match v with VInt n => Some n | _ => None end;
  of_double := VDouble;
  as_double v := match v with VDouble x => Some x | VInt n => Some n | _ => None end;
  of_dictionary := VDictionary;
  as_dictionary v := match v with VDictionary d => Some d | _ => None end;
  of_list := VList;
  as_list v := match v with VList l => Some l | _ => None end;
  empty_dictionary := [];
  FindPath d path := on_path (fun k ks => find_path k ks d) path;
  SetPath path v d := on_path (fun k ks => set_path k ks v d) path;
  RemovePath path d := on_path (fun k ks => remove_path_of k ks d) path;
  FindKey := find_key;
  SetKey := set_key;
  Keys d := remove_dups d.*1;
  MergeDictionary d1 d2 := d2 ++ d1;
  list_elements l := l;
|}.

Lemma components_no_dot s : no_dot s = true -> components s = (s, []).
Proof.
  induction s as [| c s IH]; simpl; [done |].
  intros [Hc Hs]%andb_true_iff. rewrite IH by done.
  by rewrite (proj1 (negb_true_iff _) Hc).
Qed.

Lemma components_length s : (String.length (components s).1 <= String.length s)%nat.
Proof.
  induction s as [| c s IH]; simpl; [done |].
  destruct (components s) as [k ks]. simpl in IH.
  destruct (Ascii.eqb c "."%char); simpl; lia.
Qed.

Lemma components_dotted s :
  no_dot s = false -> exists k k' ks, components s = (k, k' :: ks) /\ k <> s.
Proof.
  induction s as [| c s IH]; simpl; [done |].
  destruct (Ascii.eqb c "."%char) eqn:Hc; simpl.
  - intros _. destruct (components s) as [k ks]. by exists "", k, ks.
  - intros Hs. destruct (IH Hs) as (k & k' & ks & Heq & Hne). rewrite Heq.
    exists (String c k), k', ks. split; [done |]. congruence.
Qed.

Lemma find_remove_key k d : find_key (remove_key k d) k = None.
Proof.
  induction d as [| [k' v] d IH]; [done |]. unfold remove_key in *.
  rewrite filter_cons. case_decide as Hk; simpl; [| done].
  simpl in Hk. by rewrite (proj2 (String.eqb_neq _ _)).
Qed.

Lemma find_remove_key_ne k k' d : k <> k' -> find_key (remove_key k d) k' = find_key d k'.
Proof.
  intros Hne. induction d as [| [k0 v] d IH]; [done |]. unfold remove_key in *.
  rewrite filter_cons. case_decide as Hk; simpl.
  - by rewrite IH.
  - simpl in Hk. rewrite (proj2 (String.eqb_neq k0 k')); [done |].
    destruct (decide (k0 = k)); [congruence | done].
Qed.

Lemma elem_of_keys d k : k ∈ d.*1 <-> is_Some (find_key d k).
Proof.
  induction d as [| [k' v] d IH]; simpl.
  - split; [by intros []%elem_of_nil | by intros []].
  - rewrite elem_of_cons, IH. destruct (String.eqb_spec k' k) as [-> | Hne].
    + split; [by eexists | by left].
    + split; [by intros [-> | ?] | by right].
Qed.

Lemma concrete_laws : value_laws.
Proof.
  split; try done.
  - intros k v d. simpl. by rewrite String.eqb_refl.
  - intros k k' v d Hne. simpl. by rewrite (proj2 (String.eqb_neq k k')).
  - intros d k Hk. simpl. unfold on_path. by rewrite components_no_dot.
  - intros k v d Hk. simpl. unfold on_path. by rewrite components_no_dot.
  - intros k d Hk. simpl. unfold on_path. rewrite components_no_dot by done.
    apply find_remove_key.
  - intros k k' d Hk Hne. simpl. unfold on_path. rewrite components_no_dot by done.
    by apply find_remove_key_ne.
  - intros k d Hk. simpl. unfold on_path.
    destruct (components_dotted k Hk) as (k0 & k1 & ks & -> & Hne). simpl.
    destruct (sub_dictionary d k0); [| done]. simpl.
    by rewrite (proj2 (String.eqb_neq k0 k)).
  - intros k k' d Hk. simpl. unfold on_path.
    destruct (components_dotted k Hk) as (k0 & k1 & ks & -> & _). simpl.
    unfold sub_dictionary. destruct (find_key d k0) as [[] |] eqn:Hd; try done. simpl.
    destruct (String.eqb_spec k0 k') as [<- |]; [| done]. rewrite Hd. split; by eexists.
  - intros k k' d Hk. simpl. unfold on_path.
    destruct (components_dotted k Hk) as (k0 & k1 & ks & -> & _). simpl.
    destruct (sub_dictionary d k0); [| done]. simpl.
    destruct (String.eqb_spec k0 k') as [<- |]; [by eexists | done].
  - intros d k. simpl. rewrite elem_of_remove_dups. apply elem_of_keys.
  - intros d. apply NoDup_remove_dups.
  - intros d k. simpl. by rewrite app_nil_r.
Qed.
End ConcreteValues.

(** ** Preferences

    The dictionaries a [PrefService] holds under registered names; the
    pointer [GetDictionary] returns may be null. *)
Class PrefsApi `{ValuesApi} := {
  PrefService : Type;
  GetDictionary_pref : PrefService -> string -> option DictionaryValue;
  Set_pref : string -> DictionaryValue -> PrefService -> PrefService;
  ClearPref : string -> PrefService -> PrefService;
}.

Record prefs_laws `{PrefsApi} : Prop := {
  get_set_pref name d prefs : GetDictionary_pref (Set_pref name d prefs) name = Some d;
  get_cleared name prefs :
    GetDictionary_pref (ClearPref name prefs) name = Some empty_dictionary;
}.

Module ConcretePrefs.
Import ConcreteValues.

#[export] Instance prefs : PrefsApi := {|
  PrefService := list (string * dictionary);
  GetDictionary_pref p name := Some (default [] (snd <$> list_find (fun e => e.1 = name) p
                                                   ≫= fun e => Some e.2));
  Set_pref name d p := (name, d) :: p;
  ClearPref name p := (name, []) :: p;
|}.

Lemma concrete_prefs_laws : prefs_laws.
Proof. split; intros; simpl; rewrite decide_True by done; done. Qed.
End ConcretePrefs.
