(* ===== verification/PaymentRequest.v ===== *)
(** * Payment requests

    [web/public/payments/payment_request.h] and
    [web/payments/payment_request.cc]: the objects of the PaymentRequest API,
    read from the dictionaries a page sends and written to the dictionary it
    gets back.

    A [FromDictionaryValue] member is a [reader]: it takes the object it is
    called on and returns the object it leaves and whether it succeeded; it
    may fail half-way.  UTF-16 strings are represented by their UTF-8 text. *)
From S2P Require Import Prelude Values.

(** ** Code outside of the repository: [components/payments/core] *)
Class PaymentsApi `{ValuesApi} := {
  PaymentShippingType : Type;
  PaymentShippingType_eq_dec : EqDecision PaymentShippingType;
  SHIPPING : PaymentShippingType;
  DELIVERY : PaymentShippingType;
  PICKUP : PaymentShippingType;
  PaymentAddress : Type;
  PaymentAddress_new : PaymentAddress;
  PaymentAddress_eq : PaymentAddress -> PaymentAddress -> bool;
  PaymentAddress_ToDictionaryValue : PaymentAddress -> DictionaryValue;
  PaymentMethodData : Type;
  PaymentMethodData_new : PaymentMethodData;
  PaymentMethodData_eq : PaymentMethodData -> PaymentMethodData -> bool;
  PaymentMethodData_FromDictionaryValue :
    DictionaryValue -> PaymentMethodData -> PaymentMethodData * bool;
  BasicCardResponse : Type;
  BasicCardResponse_new : BasicCardResponse;
  BasicCardResponse_eq : BasicCardResponse -> BasicCardResponse -> bool;
  BasicCardResponse_ToDictionaryValue : BasicCardResponse -> DictionaryValue;
}.

#[export] Existing Instance PaymentShippingType_eq_dec.

(** ** Readers *)
Definition reader (S : Type) : Type := S -> S * bool.

(** [if (!first) return false; second] *)
Definition and_then {S} (first second : reader S) : reader S := fun s =>
  let '(s, ok) := first s in if ok then second s else (s, false).

Declare Scope reader_scope.
Infix "&>" := and_then (at level 60, right associativity) : reader_scope.
#[local] Open Scope reader_scope.

Definition done_true {S} : reader S := fun s => (s, true).

Definition assign {S} (f : S -> S) : reader S := fun s => (f s, true).

(** [if (!value.Get(key, &this->field)) return false;] *)
Definition required {S A} (found : option A) (store : A -> S -> S) : reader S :=
  fun s => match found with Some a => (store a s, true) | None => (s, false) end.

(** [value.Get(key, &this->field);] *)
Definition optional {S A} (found : option A) (store : A -> S -> S) : reader S :=
  fun s => match found with Some a => (store a s, true) | None => (s, true) end.

(** [if (!value.GetDictionary(key, &d)) return false;
     if (!this->field.FromDictionaryValue( *d)) return false;] *)
Definition required_member {S T} (found : option T) {M}
    (read : T -> reader M) (get : S -> M) (store : M -> S -> S) : reader S := fun s =>
  match found with
  | Some d => let '(m, ok) := read d (get s) in (store m s, ok)
  | None => (s, false)
  end.

(** [if (value.GetList(key, &list)) loop] and the like *)
Definition when_found {S A} (found : option A) (body : A -> reader S) : reader S :=
  match found with Some a => body a | None => done_true end.

Section payments.
Context `{ValuesApi, !PaymentsApi}.
Implicit Types (value : DictionaryValue).

(** The loops over the dictionaries of a list, from the [i]-th of [n]. *)
Fixpoint each_dictionary {S M} (read : DictionaryValue -> reader M) (new : M)
    (push_back : M -> S -> S) (list : ListValue) (n i : nat) : reader S :=
  match n with
  | O => done_true
  | Datatypes.S n =>
      (fun s => match GetDictionaryAt list i with
                | Some d => let '(m, ok) := read d new in
                            if ok then (push_back m s, true) else (s, false)
                | None => (s, false)
                end)
      &> each_dictionary read new push_back list n (Datatypes.S i)
  end.

Definition for_each_dictionary {S M} (read : DictionaryValue -> reader M) (new : M)
    (push_back : M -> S -> S) (list : ListValue) : reader S :=
  each_dictionary read new push_back list (GetSize list) 0.

(** [std::vector::operator==] *)
Fixpoint vector_eq {A} (eq : A -> A -> bool) (l1 l2 : list A) : bool :=
  match l1, l2 with
  | [], [] => true
  | a1 :: l1, a2 :: l2 => eq a1 a2 && vector_eq eq l1 l2
  | _, _ => false
  end.

(** ** Names in dictionaries *)
Definition kPaymentCurrencyAmountCurrencySystemISO4217 : string := "urn:iso:std:iso:4217".
Definition kPaymentCurrencyAmountCurrencySystem : string := "currencySystem".
Definition kPaymentCurrencyAmountCurrency : string := "currency".
Definition kPaymentCurrencyAmountValue : string := "value".
Definition kPaymentDetailsDisplayItems : string := "displayItems".
Definition kPaymentDetailsError : string := "error".
Definition kPaymentDetailsShippingOptions : string := "shippingOptions".
Definition kPaymentDetailsTotal : string := "total".
Definition kPaymentItemAmount : string := "amount".
Definition kPaymentItemLabel : string := "label".
Definition kPaymentItemPending : string := "pending".
Definition kPaymentOptionsRequestPayerEmail : string := "requestPayerEmail".
Definition kPaymentOptionsRequestPayerName : string := "requestPayerName".
Definition kPaymentOptionsRequestPayerPhone : string := "requestPayerPhone".
Definition kPaymentOptionsRequestShipping : string := "requestShipping".
Definition kPaymentOptionsShippingTypeDelivery : string := "delivery".
Definition kPaymentOptionsShippingTypePickup : string := "pickup".
Definition kPaymentOptionsShippingType : string := "shippingType".
Definition kPaymentRequestDetails : string := "details".
Definition kPaymentRequestId : string := "paymentRequestID".
Definition kPaymentRequestMethodData : string := "methodData".
Definition kPaymentRequestOptions : string := "options".
Definition kPaymentResponseDetails : string := "details".
Definition kPaymentResponseMethodName : string := "methodName".
Definition kPaymentResponsePayerEmail : string := "payerEmail".
Definition kPaymentResponsePayerName : string := "payerName".
Definition kPaymentResponsePayerPhone : string := "payerPhone".
Definition kPaymentResponseShippingAddress : string := "shippingAddress".
Definition kPaymentResponseShippingOption : string := "shippingOption".
Definition kPaymentShippingOptionAmount : string := "amount".
Definition kPaymentShippingOptionId : string := "id".
Definition kPaymentShippingOptionLabel : string := "label".
Definition kPaymentShippingOptionSelected : string := "selected".

(** ** PaymentCurrencyAmount *)
Record PaymentCurrencyAmount := {
  currency : string;
  amount_value : string;
  currency_system : string;
}.

#[export] Instance amount_fields : Fields PaymentCurrencyAmount := fun a =>
  {| currency := currency a; amount_value := amount_value a;
     currency_system := currency_system a |}.

Definition PaymentCurrencyAmount_new : PaymentCurrencyAmount :=
  {| currency := ""; amount_value := "";
     currency_system := kPaymentCurrencyAmountCurrencySystemISO4217 |}.

Definition PaymentCurrencyAmount_eq (this other : PaymentCurrencyAmount) : bool :=
  String.eqb (currency this) (currency other) &&
  String.eqb (amount_value this) (amount_value other).

Definition PaymentCurrencyAmount_ne (this other : PaymentCurrencyAmount) : bool :=
  negb (PaymentCurrencyAmount_eq this other).

Definition PaymentCurrencyAmount_FromDictionaryValue value
    : reader PaymentCurrencyAmount :=
  required (GetString value kPaymentCurrencyAmountCurrency)
    (fun x s => s <| currency := x |>) &>
  required (GetString value kPaymentCurrencyAmountValue)
    (fun x s => s <| amount_value := x |>) &>
  optional (GetString value kPaymentCurrencyAmountCurrencySystem)
    (fun x s => s <| currency_system := x |>) &>
  done_true.

(** ** PaymentItem *)
Record PaymentItem := {
  item_label : string;
  item_amount : PaymentCurrencyAmount;
  pending : bool;
}.

#[export] Instance item_fields : Fields PaymentItem := fun i =>
  {| item_label := item_label i; item_amount := item_amount i; pending := pending i |}.

Definition PaymentItem_new : PaymentItem :=
  {| item_label := ""; item_amount := PaymentCurrencyAmount_new; pending := false |}.

Definition PaymentItem_eq (this other : PaymentItem) : bool :=
  String.eqb (item_label this) (item_label other) &&
  PaymentCurrencyAmount_eq (item_amount this) (item_amount other) &&
  Bool.eqb (pending this) (pending other).

Definition PaymentItem_ne (this other : PaymentItem) : bool :=
  negb (PaymentItem_eq this other).

Definition PaymentItem_FromDictionaryValue value : reader PaymentItem :=
  required (GetString value kPaymentItemLabel) (fun x s => s <| item_label := x |>) &>
  required_member (GetDictionary value kPaymentItemAmount)
    PaymentCurrencyAmount_FromDictionaryValue
    item_amount (fun a s => s <| item_amount := a |>) &>
  optional (GetBoolean value kPaymentItemPending) (fun x s => s <| pending := x |>) &>
  done_true.

(** ** PaymentShippingOption *)
Record PaymentShippingOption := {
  option_id : string;
  option_label : string;
  option_amount : PaymentCurrencyAmount;
  selected : bool;
}.

#[export] Instance option_fields : Fields PaymentShippingOption := fun o =>
  {| option_id := option_id o; option_label := option_label o;
     option_amount := option_amount o; selected := selected o |}.

Definition PaymentShippingOption_new : PaymentShippingOption :=
  {| option_id := ""; option_label := ""; option_amount := PaymentCurrencyAmount_new;
     selected := false |}.

Definition PaymentShippingOption_eq (this other : PaymentShippingOption) : bool :=
  String.eqb (option_id this) (option_id other) &&
  String.eqb (option_label this) (option_label other) &&
  PaymentCurrencyAmount_eq (option_amount this) (option_amount other) &&
  Bool.eqb (selected this) (selected other).

Definition PaymentShippingOption_ne (this other : PaymentShippingOption) : bool :=
  negb (PaymentShippingOption_eq this other).

Definition PaymentShippingOption_FromDictionaryValue value
    : reader PaymentShippingOption :=
  required (GetString value kPaymentShippingOptionId)
    (fun x s => s <| option_id := x |>) &>
  required (GetString value kPaymentShippingOptionLabel)
    (fun x s => s <| option_label := x |>) &>
  required_member (GetDictionary value kPaymentShippingOptionAmount)
    PaymentCurrencyAmount_FromDictionaryValue
    option_amount (fun a s => s <| option_amount := a |>) &>
  optional (GetBoolean value kPaymentShippingOptionSelected)
    (fun x s => s <| selected := x |>) &>
  done_true.

(** ** PaymentDetailsModifier *)
Record PaymentDetailsModifier := {
  supported_methods : list string;
  modifier_total : PaymentItem;
  additional_display_items : list PaymentItem;
}.

Definition PaymentDetailsModifier_new : PaymentDetailsModifier :=
  {| supported_methods := []; modifier_total := PaymentItem_new;
     additional_display_items := [] |}.

Definition PaymentDetailsModifier_eq (this other : PaymentDetailsModifier) : bool :=
  vector_eq String.eqb (supported_methods this) (supported_methods other) &&
  PaymentItem_eq (modifier_total this) (modifier_total other) &&
  vector_eq PaymentItem_eq (additional_display_items this)
    (additional_display_items other).

Definition PaymentDetailsModifier_ne (this other : PaymentDetailsModifier) : bool :=
  negb (PaymentDetailsModifier_eq this other).

(** ** PaymentDetails *)
Record PaymentDetails := {
  total : PaymentItem;
  display_items : list PaymentItem;
  shipping_options : list PaymentShippingOption;
  modifiers : list PaymentDetailsModifier;
  error : string;
}.

#[export] Instance details_fields : Fields PaymentDetails := fun d =>
  {| total := total d; display_items := display_items d;
     shipping_options := shipping_options d; modifiers := modifiers d;
     error := error d |}.

Definition PaymentDetails_new : PaymentDetails :=
  {| total := PaymentItem_new; display_items := []; shipping_options := [];
     modifiers := []; error := "" |}.

Definition PaymentDetails_eq (this other : PaymentDetails) : bool :=
  PaymentItem_eq (total this) (total other) &&
  vector_eq PaymentItem_eq (display_items this) (display_items other) &&
  vector_eq PaymentShippingOption_eq (shipping_options this) (shipping_options other) &&
  vector_eq PaymentDetailsModifier_eq (modifiers this) (modifiers other) &&
  String.eqb (error this) (error other).

Definition PaymentDetails_ne (this other : PaymentDetails) : bool :=
  negb (PaymentDetails_eq this other).

Definition PaymentDetails_FromDictionaryValue value : reader PaymentDetails :=
  assign (fun s => s <| display_items := [] |>) &>
  assign (fun s => s <| shipping_options := [] |>) &>
  assign (fun s => s <| modifiers := [] |>) &>
  required_member (GetDictionary value kPaymentDetailsTotal)
    PaymentItem_FromDictionaryValue total (fun i s => s <| total := i |>) &>
  when_found (GetList value kPaymentDetailsDisplayItems)
    (for_each_dictionary PaymentItem_FromDictionaryValue PaymentItem_new
       (fun i s => s <| display_items := display_items s ++ [i] |>)) &>
  when_found (GetList value kPaymentDetailsShippingOptions)
    (for_each_dictionary PaymentShippingOption_FromDictionaryValue
       PaymentShippingOption_new
       (fun o s => s <| shipping_options := shipping_options s ++ [o] |>)) &>
  optional (GetString value kPaymentDetailsError) (fun x s => s <| error := x |>) &>
  done_true.

(** ** PaymentOptions *)
Record PaymentOptions := {
  request_payer_name : bool;
  request_payer_email : bool;
  request_payer_phone : bool;
  request_shipping : bool;
  shipping_type : PaymentShippingType;
}.

#[export] Instance options_fields : Fields PaymentOptions := fun o =>
  {| request_payer_name := request_payer_name o;
     request_payer_email := request_payer_email o;
     request_payer_phone := request_payer_phone o;
     request_shipping := request_shipping o; shipping_type := shipping_type o |}.

Definition PaymentOptions_new : PaymentOptions :=
  {| request_payer_name := false; request_payer_email := false;
     request_payer_phone := false; request_shipping := false;
     shipping_type := SHIPPING |}.

Definition PaymentOptions_eq (this other : PaymentOptions) : bool :=
  Bool.eqb (request_payer_name this) (request_payer_name other) &&
  Bool.eqb (request_payer_email this) (request_payer_email other) &&
  Bool.eqb (request_payer_phone this) (request_payer_phone other) &&
  Bool.eqb (request_shipping this) (request_shipping other) &&
  bool_decide (shipping_type this = shipping_type other).

Definition PaymentOptions_ne (this other : PaymentOptions) : bool :=
  negb (PaymentOptions_eq this other).

Definition shipping_type_of (name : string) : PaymentShippingType :=
  if String.eqb name kPaymentOptionsShippingTypeDelivery then DELIVERY
  else if String.eqb name kPaymentOptionsShippingTypePickup then PICKUP
  else SHIPPING.

Definition PaymentOptions_FromDictionaryValue value : reader PaymentOptions :=
  optional (GetBoolean value kPaymentOptionsRequestPayerName)
    (fun x s => s <| request_payer_name := x |>) &>
  optional (GetBoolean value kPaymentOptionsRequestPayerEmail)
    (fun x s => s <| request_payer_email := x |>) &>
  optional (GetBoolean value kPaymentOptionsRequestPayerPhone)
    (fun x s => s <| request_payer_phone := x |>) &>
  optional (GetBoolean value kPaymentOptionsRequestShipping)
    (fun x s => s <| request_shipping := x |>) &>
  assign (fun s =>
    let name := or_keep (GetString value kPaymentOptionsShippingType) "" in
    s <| shipping_type := shipping_type_of name |>) &>
  done_true.

(** ** PaymentRequest *)
Record PaymentRequest := {
  request_id : string;
  shipping_address : PaymentAddress;
  shipping_option : string;
  method_data : list PaymentMethodData;
  details : PaymentDetails;
  options : PaymentOptions;
}.

#[export] Instance request_fields : Fields PaymentRequest := fun r =>
  {| request_id := request_id r; shipping_address := shipping_address r;
     shipping_option := shipping_option r; method_data := method_data r;
     details := details r; options := options r |}.

Definition PaymentRequest_new : PaymentRequest :=
  {| request_id := ""; shipping_address := PaymentAddress_new; shipping_option := "";
     method_data := []; details := PaymentDetails_new; options := PaymentOptions_new |}.

Definition PaymentRequest_eq (this other : PaymentRequest) : bool :=
  String.eqb (request_id this) (request_id other) &&
  PaymentAddress_eq (shipping_address this) (shipping_address other) &&
  String.eqb (shipping_option this) (shipping_option other) &&
  vector_eq PaymentMethodData_eq (method_data this) (method_data other) &&
  PaymentDetails_eq (details this) (details other) &&
  PaymentOptions_eq (options this) (options other).

Definition PaymentRequest_ne (this other : PaymentRequest) : bool :=
  negb (PaymentRequest_eq this other).

Definition PaymentRequest_FromDictionaryValue value : reader PaymentRequest :=
  assign (fun s => s <| method_data := [] |>) &>
  (fun s =>
     match GetList value kPaymentRequestMethodData with
     | None => (s, false)
     | Some method_data_list =>
         if (GetSize method_data_list =? 0)%nat then (s, false)
         else
           for_each_dictionary PaymentMethodData_FromDictionaryValue
             PaymentMethodData_new
             (fun m s => s <| method_data := method_data s ++ [m] |>)
             method_data_list s
     end) &>
  required_member (GetDictionary value kPaymentRequestDetails)
    PaymentDetails_FromDictionaryValue details (fun d s => s <| details := d |>) &>
  when_found (GetDictionary value kPaymentRequestOptions)
    (fun payment_options =>
       required_member (Some payment_options) PaymentOptions_FromDictionaryValue
         options (fun o s => s <| options := o |>)) &>
  done_true.

(** ** PaymentResponse *)
Record PaymentResponse := {
  response_id : string;
  method_name : string;
  response_details : BasicCardResponse;
  response_address : PaymentAddress;
  response_option : string;
  payer_name : string;
  payer_email : string;
  payer_phone : string;
}.

Definition PaymentResponse_new : PaymentResponse :=
  {| response_id := ""; method_name := ""; response_details := BasicCardResponse_new;
     response_address := PaymentAddress_new; response_option := ""; payer_name := "";
     payer_email := ""; payer_phone := "" |}.

Definition PaymentResponse_eq (this other : PaymentResponse) : bool :=
  String.eqb (response_id this) (response_id other) &&
  String.eqb (method_name this) (method_name other) &&
  BasicCardResponse_eq (response_details this) (response_details other) &&
  PaymentAddress_eq (response_address this) (response_address other) &&
  String.eqb (response_option this) (response_option other) &&
  String.eqb (payer_name this) (payer_name other) &&
  String.eqb (payer_email this) (payer_email other) &&
  String.eqb (payer_phone this) (payer_phone other).

Definition PaymentResponse_ne (this other : PaymentResponse) : bool :=
  negb (PaymentResponse_eq this other).

(** [if (!s.empty()) result->SetString(key, s);] *)
Definition set_unless_empty (key s : string) (result : DictionaryValue) :=
  if String.eqb s "" then result else SetString key s result.

Definition PaymentResponse_ToDictionaryValue (this : PaymentResponse)
    : DictionaryValue :=
  let result := empty_dictionary in
  let result := SetString kPaymentRequestId (response_id this) result in
  let result := SetString kPaymentResponseMethodName (method_name this) result in
  let result := SetDictionary kPaymentResponseDetails
                  (BasicCardResponse_ToDictionaryValue (response_details this)) result in
  let address := PaymentAddress_ToDictionaryValue (response_address this) in
  let result :=
    if negb (dictionary_empty address)
    then SetDictionary kPaymentResponseShippingAddress address result
    else result in
  let result := set_unless_empty kPaymentResponseShippingOption
                  (response_option this) result in
  let result := set_unless_empty kPaymentResponsePayerName (payer_name this) result in
  let result := set_unless_empty kPaymentResponsePayerEmail (payer_email this) result in
  let result := set_unless_empty kPaymentResponsePayerPhone (payer_phone this) result in
  result.

(** ** What a successful reader does *)
Definition reads {S} (r : reader S) (present : Prop) (result : S -> S) : Prop :=
  forall s s', r s = (s', true) <-> present /\ s' = result s.

Lemma reads_done {S} : reads (@done_true S) True (fun s => s).
Proof. intros s s'. unfold done_true. split; [by intros [= ->] | by intros [_ ->]]. Qed.

Lemma reads_assign {S} (f : S -> S) : reads (assign f) True f.
Proof. intros s s'. unfold assign. split; [by intros [= <-] | by intros [_ ->]]. Qed.

Lemma reads_required {S A} (found : option A) (store : A -> S -> S) :
  reads (required found store) (is_Some found)
    (fun s => match found with Some a => store a s | None => s end).
Proof.
  intros s s'. unfold required. destruct found; split;
    [by intros [= <-] | by intros [_ ->] | done | by intros [[] _]].
Qed.

Lemma reads_optional {S A} (found : option A) (store : A -> S -> S) :
  reads (optional found store) True
    (fun s => match found with Some a => store a s | None => s end).
Proof.
  intros s s'. unfold optional.
  destruct found; (split; [by intros [= <-] | by intros [_ ->]]).
Qed.

Lemma reads_and_then {S} (r1 r2 : reader S) p1 p2 f1 f2 :
  reads r1 p1 f1 -> reads r2 p2 f2 ->
  reads (r1 &> r2) (p1 /\ p2) (fun s => f2 (f1 s)).
Proof.
  intros H1 H2 s s'. unfold and_then. destruct (r1 s) as [s1 [|]] eqn:Hr1.
  - apply H1 in Hr1 as [Hp1 ->]. rewrite (H2 _ _). naive_solver.
  - split; [done |]. intros [[Hp1 _] _].
    assert (r1 s = (f1 s, true)) by (by apply H1). congruence.
Qed.

Lemma reads_member {S T M} (found : option T) (read : T -> reader M) get
    (store : M -> S -> S) p f :
  (forall d, reads (read d) (p d) (f d)) ->
  reads (required_member found read get store) (exists d, found = Some d /\ p d)
    (fun s => match found with Some d => store (f d (get s)) s | None => s end).
Proof.
  intros Hread s s'. unfold required_member. destruct found as [d |];
    [| by split; [| intros [(? & ? & _) _]]].
  destruct (read d (get s)) as [m ok] eqn:Hr. split.
  - intros [= <- ->]. apply (Hread d) in Hr as [Hp ->]. eauto.
  - intros [(d' & [= <-] & Hp) ->].
    assert (read d (get s) = (f d (get s), true)) by (by apply (Hread d)). congruence.
Qed.

Lemma reads_when_found {S A} (found : option A) (body : A -> reader S) p f :
  (forall a, reads (body a) (p a) (f a)) ->
  reads (when_found found body) (forall a, found = Some a -> p a)
    (fun s => match found with Some a => f a s | None => s end).
Proof.
  intros Hbody. destruct found as [a |]; simpl.
  - intros s s'. rewrite (Hbody a s s'). naive_solver.
  - intros s s'. rewrite (reads_done s s'). naive_solver.
Qed.

Definition all_dictionaries (P : DictionaryValue -> Prop) (l : ListValue) : Prop :=
  Forall (fun v => exists d, as_dictionary v = Some d /\ P d) (list_elements l).

Definition dictionaries (l : ListValue) : list DictionaryValue :=
  omap as_dictionary (list_elements l).

Lemma reads_each {S M} (read : DictionaryValue -> reader M) (new : M)
    (push : M -> S -> S) l p f n i :
  (forall d m, read d new = (m, true) <-> p d /\ m = f d) ->
  n = length (drop i (list_elements l)) ->
  reads (each_dictionary read new push l n i)
    (Forall (fun v => exists d, as_dictionary v = Some d /\ p d)
       (drop i (list_elements l)))
    (fun s => foldl (fun s d => push (f d) s) s
                (omap as_dictionary (drop i (list_elements l)))).
Proof.
  intros Hread. revert i. induction n as [| n IH]; intros i Hn; simpl.
  - symmetry in Hn. apply nil_length_inv in Hn. rewrite Hn. intros s s'.
    rewrite (reads_done s s'). simpl. by rewrite Forall_nil.
  - destruct (list_elements l !! i) as [v |] eqn:Hv; cycle 1.
    { apply lookup_ge_None in Hv. rewrite length_drop in Hn. lia. }
    pose proof (drop_S _ _ _ Hv) as Hd. rewrite Hd in Hn |- *.
    intros s s'. rewrite Forall_cons. unfold and_then, GetDictionaryAt. rewrite Hv.
    simpl. destruct (as_dictionary v) as [d |] eqn:Hdv; cycle 1.
    { split; [done |]. intros [[(d & ? & _) _] _]. congruence. }
    destruct (read d new) as [m [|]] eqn:Hr; cycle 1.
    { split; [done |]. intros [[(d' & [= <-] & Hp) _] _].
      assert (read d new = (f d, true)) by (by apply Hread). congruence. }
    apply Hread in Hr as [Hp ->]. injection Hn as Hn.
    rewrite (IH (Datatypes.S i) Hn (push (f d) s) s'). naive_solver.
Qed.

Lemma reads_list {S M} (read : DictionaryValue -> reader M) (new : M)
    (push : M -> S -> S) l p f :
  (forall d m, read d new = (m, true) <-> p d /\ m = f d) ->
  reads (for_each_dictionary read new push l) (all_dictionaries p l)
    (fun s => foldl (fun s d => push (f d) s) s (dictionaries l)).
Proof. intros Hread. by apply (reads_each read new push l p f _ 0). Qed.

(** ** What the dictionaries hold

    The values that must be there, and what an object is after reading them.
    The modifiers of the details and the identifier of the request are documented
    as properties that are read; they are not. *)
Definition amount_present value : Prop :=
  is_Some (GetString value kPaymentCurrencyAmountCurrency) /\
  is_Some (GetString value kPaymentCurrencyAmountValue).

Definition amount_of value (a : PaymentCurrencyAmount) : PaymentCurrencyAmount :=
  {| currency := or_keep (GetString value kPaymentCurrencyAmountCurrency) (currency a);
     amount_value := or_keep (GetString value kPaymentCurrencyAmountValue) (amount_value a);
     currency_system :=
       or_keep (GetString value kPaymentCurrencyAmountCurrencySystem)
         (currency_system a) |}.

Definition item_present value : Prop :=
  is_Some (GetString value kPaymentItemLabel) /\
  exists a, GetDictionary value kPaymentItemAmount = Some a /\ amount_present a.

Definition member {M} (found : option DictionaryValue)
    (make : DictionaryValue -> M -> M) (m : M) : M :=
  match found with Some d => make d m | None => m end.

Definition item_of value (i : PaymentItem) : PaymentItem :=
  {| item_label := or_keep (GetString value kPaymentItemLabel) (item_label i);
     item_amount := member (GetDictionary value kPaymentItemAmount) amount_of
                      (item_amount i);
     pending := or_keep (GetBoolean value kPaymentItemPending) (pending i) |}.

Definition option_present value : Prop :=
  is_Some (GetString value kPaymentShippingOptionId) /\
  is_Some (GetString value kPaymentShippingOptionLabel) /\
  exists a, GetDictionary value kPaymentShippingOptionAmount = Some a /\
            amount_present a.

Definition option_of value (o : PaymentShippingOption) : PaymentShippingOption :=
  {| option_id := or_keep (GetString value kPaymentShippingOptionId) (option_id o);
     option_label := or_keep (GetString value kPaymentShippingOptionLabel) (option_label o);
     option_amount := member (GetDictionary value kPaymentShippingOptionAmount)
                        amount_of (option_amount o);
     selected := or_keep (GetBoolean value kPaymentShippingOptionSelected) (selected o) |}.

Definition details_present value : Prop :=
  (exists d, GetDictionary value kPaymentDetailsTotal = Some d /\ item_present d) /\
  (forall l, GetList value kPaymentDetailsDisplayItems = Some l ->
     all_dictionaries item_present l) /\
  (forall l, GetList value kPaymentDetailsShippingOptions = Some l ->
     all_dictionaries option_present l).

Definition list_of {M} (found : option ListValue) (make : DictionaryValue -> M) : list M :=
  match found with Some l => make <$> dictionaries l | None => [] end.

(** The modifiers are emptied whatever the dictionary holds. *)
Definition details_of value (x : PaymentDetails) : PaymentDetails :=
  {| total := member (GetDictionary value kPaymentDetailsTotal) item_of (total x);
     display_items := list_of (GetList value kPaymentDetailsDisplayItems)
                        (fun d => item_of d PaymentItem_new);
     shipping_options := list_of (GetList value kPaymentDetailsShippingOptions)
                           (fun d => option_of d PaymentShippingOption_new);
     modifiers := [];
     error := or_keep (GetString value kPaymentDetailsError) (error x) |}.

Definition options_of value (o : PaymentOptions) : PaymentOptions :=
  {| request_payer_name :=
       or_keep (GetBoolean value kPaymentOptionsRequestPayerName) (request_payer_name o);
     request_payer_email :=
       or_keep (GetBoolean value kPaymentOptionsRequestPayerEmail)
         (request_payer_email o);
     request_payer_phone :=
       or_keep (GetBoolean value kPaymentOptionsRequestPayerPhone)
         (request_payer_phone o);
     request_shipping :=
       or_keep (GetBoolean value kPaymentOptionsRequestShipping) (request_shipping o);
     shipping_type :=
       match GetString value kPaymentOptionsShippingType with
       | Some name => shipping_type_of name
       | None => SHIPPING
       end |}.

Definition method_present value : Prop :=
  (PaymentMethodData_FromDictionaryValue value PaymentMethodData_new).2 = true.

Definition method_of value : PaymentMethodData :=
  (PaymentMethodData_FromDictionaryValue value PaymentMethodData_new).1.

Definition request_present value : Prop :=
  (exists l, GetList value kPaymentRequestMethodData = Some l /\
     list_elements l <> [] /\ all_dictionaries method_present l) /\
  (exists d, GetDictionary value kPaymentRequestDetails = Some d /\ details_present d).

Definition request_of value (r : PaymentRequest) : PaymentRequest :=
  {| request_id := request_id r; shipping_address := shipping_address r;
     shipping_option := shipping_option r;
     method_data := list_of (GetList value kPaymentRequestMethodData) method_of;
     details := member (GetDictionary value kPaymentRequestDetails) details_of (details r);
     options := member (GetDictionary value kPaymentRequestOptions) options_of
                  (options r) |}.

(** Rewrites a sequence of readers with what each does. *)
#[local] Create HintDb readers.

Ltac read_steps :=
  repeat first
    [ solve [eauto with readers nocore]
    | refine (reads_and_then _ _ _ _ _ _ _ _)
    | apply reads_done | apply reads_assign | apply reads_required
    | apply reads_optional | apply reads_member; intros
    | apply reads_when_found; intros ].

Lemma reads_equiv {S} (r : reader S) p p' f f' :
  reads r p f -> (p <-> p') -> (p' -> forall s, f s = f' s) -> reads r p' f'.
Proof.
  intros Hr Hp Hf s s'. rewrite (Hr s s'), Hp. split; intros [Hp' ->]; (split; [done |]);
    [by apply Hf | by rewrite Hf].
Qed.

Lemma PaymentCurrencyAmount_reads value :
  reads (PaymentCurrencyAmount_FromDictionaryValue value) (amount_present value)
    (amount_of value).
Proof.
  eapply reads_equiv; [unfold PaymentCurrencyAmount_FromDictionaryValue; read_steps | |].
  - unfold amount_present. tauto.
  - intros [[c Hc] [v Hv]] s. unfold amount_of. rewrite Hc, Hv.
    by destruct (GetString value kPaymentCurrencyAmountCurrencySystem), s.
Qed.

#[local] Hint Resolve PaymentCurrencyAmount_reads : readers.

Lemma PaymentItem_reads value :
  reads (PaymentItem_FromDictionaryValue value) (item_present value) (item_of value).
Proof.
  eapply reads_equiv; [unfold PaymentItem_FromDictionaryValue; read_steps | |].
  - unfold item_present. tauto.
  - intros [[c Hc] (d & Hd & _)] s. unfold item_of. rewrite Hc, Hd.
    by destruct (GetBoolean value kPaymentItemPending), s.
Qed.

Lemma PaymentShippingOption_reads value :
  reads (PaymentShippingOption_FromDictionaryValue value) (option_present value)
    (option_of value).
Proof.
  eapply reads_equiv; [unfold PaymentShippingOption_FromDictionaryValue; read_steps | |].
  - unfold option_present. tauto.
  - intros ([c Hc] & [l Hl] & (d & Hd & _)) s. unfold option_of. rewrite Hc, Hl, Hd.
    by destruct (GetBoolean value kPaymentShippingOptionSelected), s.
Qed.

#[local] Hint Resolve PaymentItem_reads : readers.

Lemma foldl_push {S M} (get : S -> list M) (set : list M -> S -> S)
    (Hget : forall l s, get (set l s) = l) (Hset : forall l l' s, set l (set l' s) = set l s)
    (Hid : forall s, set (get s) s = s) (f : DictionaryValue -> M) ds s :
  foldl (fun s d => set (get s ++ [f d]) s) s ds = set (get s ++ (f <$> ds)) s.
Proof.
  revert s. induction ds as [| d ds IH]; intros s; simpl.
  - by rewrite app_nil_r.
  - rewrite IH, Hget, Hset. by rewrite <- app_assoc.
Qed.

Lemma PaymentDetails_reads value :
  reads (PaymentDetails_FromDictionaryValue value) (details_present value)
    (details_of value).
Proof.
  eapply reads_equiv; [unfold PaymentDetails_FromDictionaryValue; read_steps | |].
  - apply reads_list. intros d m. apply PaymentItem_reads.
  - apply reads_list. intros d m. apply PaymentShippingOption_reads.
  - unfold details_present. tauto.
  - intros ((d & Hd & _) & _ & _) s. unfold details_of, list_of. rewrite Hd. simpl.
    destruct (GetList value kPaymentDetailsDisplayItems),
      (GetList value kPaymentDetailsShippingOptions),
      (GetString value kPaymentDetailsError); simpl;
    rewrite ?(foldl_push display_items (fun l s => s <| display_items := l |>)) by (by intros []);
    rewrite ?(foldl_push shipping_options (fun l s => s <| shipping_options := l |>)) by (by intros []);
    by destruct s.
Qed.

Lemma PaymentOptions_reads value :
  reads (PaymentOptions_FromDictionaryValue value) True (options_of value).
Proof.
  eapply reads_equiv; [unfold PaymentOptions_FromDictionaryValue; read_steps | |].
  - tauto.
  - intros _ s. unfold options_of, or_keep.
    destruct (GetBoolean value kPaymentOptionsRequestPayerName),
      (GetBoolean value kPaymentOptionsRequestPayerEmail),
      (GetBoolean value kPaymentOptionsRequestPayerPhone),
      (GetBoolean value kPaymentOptionsRequestShipping),
      (GetString value kPaymentOptionsShippingType), s; reflexivity.
Qed.

#[local] Hint Resolve PaymentDetails_reads PaymentOptions_reads : readers.

Lemma method_read d m :
  PaymentMethodData_FromDictionaryValue d PaymentMethodData_new = (m, true) <->
  method_present d /\ m = method_of d.
Proof.
  unfold method_present, method_of.
  destruct (PaymentMethodData_FromDictionaryValue d _) as [m' ok]. simpl.
  split; [by intros [= -> ->] | by intros [-> ->]].
Qed.

Lemma PaymentMethodData_reads value :
  reads (fun s : PaymentRequest =>
     match GetList value kPaymentRequestMethodData with
     | None => (s, false)
     | Some method_data_list =>
         if (GetSize method_data_list =? 0)%nat then (s, false)
         else
           for_each_dictionary PaymentMethodData_FromDictionaryValue
             PaymentMethodData_new
             (fun m s => s <| method_data := method_data s ++ [m] |>)
             method_data_list s
     end)
    (exists l, GetList value kPaymentRequestMethodData = Some l /\
       list_elements l <> [] /\ all_dictionaries method_present l)
    (fun s => s <| method_data :=
       method_data s ++ list_of (GetList value kPaymentRequestMethodData) method_of |>).
Proof.
  intros s s'. destruct (GetList value kPaymentRequestMethodData) as [l |]; cycle 1.
  { split; [done |]. by intros [(? & ? & _) _]. }
  unfold GetSize. destruct (length (list_elements l) =? 0)%nat eqn:Hsize.
  { apply Nat.eqb_eq, nil_length_inv in Hsize. split; [done |].
    by intros [(? & [= <-] & ? & _) _]. }
  apply Nat.eqb_neq in Hsize.
  assert (list_elements l <> []) by (intros Hnil; by rewrite Hnil in Hsize).
  rewrite (reads_list _ _ _ _ method_present method_of method_read s s').
  rewrite (foldl_push method_data (fun l s => s <| method_data := l |>))
    by (by intros []).
  simpl. naive_solver.
Qed.

#[local] Hint Resolve PaymentMethodData_reads : readers.

(** C29. Reading a PaymentRequest succeeds exactly on the dictionaries that
    hold what is required (at least one payment method, all readable, and
    details with a total, whose items and shipping options are complete).  The
    object then holds the payment methods, the total, the items, the shipping
    options, the error and the options of the dictionary; optional values that
    are missing keep what the object had, but for the shipping type of options
    that are there, which is then the default.  Nothing else of the dictionary is read: the modifiers are
    emptied, although the header says they are populated, and the identifier of
    the request and the choices of the user are those the object had. *)
Theorem PaymentRequest_FromDictionaryValue_spec value r r' :
  (PaymentRequest_FromDictionaryValue value r = (r', true) <->
   request_present value /\ r' = request_of value r) /\
  (PaymentRequest_FromDictionaryValue value r = (r', true) ->
   modifiers (details r') = [] /\ request_id r' = request_id r /\
   shipping_address r' = shipping_address r /\ shipping_option r' = shipping_option r).
Proof.
  assert (Hspec : reads (PaymentRequest_FromDictionaryValue value)
                    (request_present value) (request_of value)).
  { eapply reads_equiv;
      [unfold PaymentRequest_FromDictionaryValue;
       repeat (refine (reads_and_then _ _ _ _ _ _ _ _);
               [first [apply reads_assign | apply PaymentMethodData_reads
                      | apply reads_member, PaymentDetails_reads
                      | apply reads_when_found; intros;
                        apply reads_member, PaymentOptions_reads] |]);
       apply reads_done | |].
    - unfold request_present. split; [| naive_solver].
      intros (_ & Hm & Hd & _). tauto.
    - intros ((l & Hl & _) & (d & Hd & _)) s. unfold request_of. rewrite Hl, Hd. simpl.
      by destruct (GetDictionary value kPaymentRequestOptions), s. }
  split; [apply Hspec |]. intros Hrun.
  apply Hspec in Hrun as [(_ & d & Hd & _) ->]. unfold request_of. by rewrite Hd.
Qed.

(** ** Equality *)
Section equality.
Context {A B : Type}.

(** [eq] compares what [f] keeps. *)
Definition compares (eq : A -> A -> bool) (f : A -> B) : Prop :=
  forall a b, eq a b = true <-> f a = f b.
End equality.

Lemma vector_eq_compares {A B} (eq : A -> A -> bool) (f : A -> B) :
  compares eq f -> compares (vector_eq eq) (fmap f).
Proof.
  intros Heq l1. induction l1 as [| a l1 IH]; intros [| b l2]; [done .. |].
  rewrite !fmap_cons. cbn [vector_eq]. rewrite andb_true_iff, (Heq a b), (IH l2).
  split; [by intros [-> ->] | by intros [= -> ->]].
Qed.

Lemma string_compares : compares String.eqb (fun s : string => s).
Proof. intros a b. apply String.eqb_eq. Qed.

(** What the comparison of amounts looks at. *)
Definition forget_system (a : PaymentCurrencyAmount) : PaymentCurrencyAmount :=
  {| currency := currency a; amount_value := amount_value a; currency_system := "" |}.

Definition forget_item (i : PaymentItem) : PaymentItem :=
  {| item_label := item_label i; item_amount := forget_system (item_amount i);
     pending := pending i |}.

Definition forget_option (o : PaymentShippingOption) : PaymentShippingOption :=
  {| option_id := option_id o; option_label := option_label o;
     option_amount := forget_system (option_amount o); selected := selected o |}.

Definition forget_modifier (m : PaymentDetailsModifier) : PaymentDetailsModifier :=
  {| supported_methods := supported_methods m;
     modifier_total := forget_item (modifier_total m);
     additional_display_items := forget_item <$> additional_display_items m |}.

Definition forget_details (d : PaymentDetails) : PaymentDetails :=
  {| total := forget_item (total d); display_items := forget_item <$> display_items d;
     shipping_options := forget_option <$> shipping_options d;
     modifiers := forget_modifier <$> modifiers d; error := error d |}.

Definition forget_systems (r : PaymentRequest) : PaymentRequest :=
  {| request_id := request_id r; shipping_address := shipping_address r;
     shipping_option := shipping_option r; method_data := method_data r;
     details := forget_details (details r); options := options r |}.

(** Turns a conjunction of comparisons into equations. *)
Ltac compare_fields :=
  rewrite ?andb_true_iff, ?String.eqb_eq, ?Bool.eqb_true_iff, ?bool_decide_eq_true.

(** The converse direction, field by field. *)
Ltac by_fields H := split_and!; first
  [ exact (f_equal currency H) | exact (f_equal amount_value H)
  | exact (f_equal item_label H) | exact (f_equal item_amount H)
  | exact (f_equal pending H) | exact (f_equal option_id H)
  | exact (f_equal option_label H) | exact (f_equal option_amount H)
  | exact (f_equal selected H) | exact (f_equal supported_methods H)
  | exact (f_equal modifier_total H) | exact (f_equal additional_display_items H)
  | exact (f_equal total H) | exact (f_equal display_items H)
  | exact (f_equal shipping_options H) | exact (f_equal modifiers H)
  | exact (f_equal error H) | exact (f_equal request_id H)
  | exact (f_equal shipping_address H) | exact (f_equal shipping_option H)
  | exact (f_equal method_data H) | exact (f_equal details H)
  | exact (f_equal options H) ].

Ltac same_fields :=
  split; [intros; destruct_and?; f_equal; assumption | intros Heq; by_fields Heq].

Lemma amount_compares : compares PaymentCurrencyAmount_eq forget_system.
Proof.
  intros [] []. unfold PaymentCurrencyAmount_eq, forget_system. simpl.
  compare_fields. naive_solver.
Qed.

Lemma item_compares : compares PaymentItem_eq forget_item.
Proof.
  intros a b. unfold PaymentItem_eq, forget_item. compare_fields.
  rewrite (amount_compares _ _). same_fields.
Qed.

Lemma option_compares : compares PaymentShippingOption_eq forget_option.
Proof.
  intros a b. unfold PaymentShippingOption_eq, forget_option. compare_fields.
  rewrite (amount_compares _ _). same_fields.
Qed.

Lemma modifier_compares : compares PaymentDetailsModifier_eq forget_modifier.
Proof.
  intros a b. unfold PaymentDetailsModifier_eq, forget_modifier. compare_fields.
  rewrite (vector_eq_compares _ _ string_compares _ _),
    (vector_eq_compares _ _ item_compares _ _), (item_compares _ _), !list_fmap_id.
  same_fields.
Qed.

Lemma details_compare : compares PaymentDetails_eq forget_details.
Proof.
  intros a b. unfold PaymentDetails_eq, forget_details. compare_fields.
  rewrite (vector_eq_compares _ _ option_compares _ _),
    (vector_eq_compares _ _ modifier_compares _ _),
    (vector_eq_compares _ _ item_compares _ _), (item_compares _ _).
  same_fields.
Qed.

Lemma options_compare : compares PaymentOptions_eq (fun o => o).
Proof.
  intros [] []. unfold PaymentOptions_eq. simpl. compare_fields. naive_solver.
Qed.

(** The comparisons of the payments library are equality. *)
Record payments_laws : Prop := {
  address_compares : compares PaymentAddress_eq (fun a => a);
  method_compares : compares PaymentMethodData_eq (fun m => m);
  card_compares : compares BasicCardResponse_eq (fun c => c);
}.

(** Two payment requests are equal when all their fields are, the
    currency systems of their amounts excepted: [operator==] ignores them
    everywhere (in the total, the items, the shipping options and the
    modifiers). *)
Lemma PaymentRequest_eq_spec (Hlaws : payments_laws) r1 r2 :
  PaymentRequest_eq r1 r2 = true <-> forget_systems r1 = forget_systems r2.
Proof.
  unfold PaymentRequest_eq, forget_systems. compare_fields.
  rewrite (address_compares Hlaws _ _),
    (vector_eq_compares _ _ (method_compares Hlaws) _ _), (details_compare _ _),
    (options_compare _ _), !list_fmap_id.
  same_fields.
Qed.

(** ** What the page gets back *)

Lemma set_unless_empty_same (Hlaws : value_laws) key s d :
  no_dot key = true -> FindPath d key = None ->
  or_keep (GetString (set_unless_empty key s d) key) "" = s.
Proof.
  intros Hkey Hnone. unfold set_unless_empty. destruct (String.eqb_spec s "") as [-> |].
  - unfold GetString. by rewrite Hnone.
  - by rewrite (GetString_set Hlaws).
Qed.

Lemma set_unless_empty_other (Hlaws : value_laws) key key' s d :
  no_dot key = true -> no_dot key' = true -> key <> key' ->
  FindPath (set_unless_empty key s d) key' = FindPath d key'.
Proof.
  intros. unfold set_unless_empty. case_match; [done |].
  by apply (find_set_path_ne Hlaws).
Qed.

Definition response_prefix (this : PaymentResponse) : DictionaryValue :=
  let result := empty_dictionary in
  let result := SetString kPaymentRequestId (response_id this) result in
  let result := SetString kPaymentResponseMethodName (method_name this) result in
  let result := SetDictionary kPaymentResponseDetails
                  (BasicCardResponse_ToDictionaryValue (response_details this)) result in
  let address := PaymentAddress_ToDictionaryValue (response_address this) in
  if negb (dictionary_empty address)
  then SetDictionary kPaymentResponseShippingAddress address result
  else result.

(** Skips the writes of other keys. *)
Ltac read_response Hlaws :=
  unfold GetString, GetDictionary;
  repeat (rewrite (set_unless_empty_other Hlaws) by (reflexivity || discriminate));
  unfold response_prefix; cbv zeta;
  try match goal with
      | |- context [dictionary_empty ?a] => destruct (dictionary_empty a)
      end;
  unfold SetString, SetDictionary; cbn [negb];
  read_values Hlaws; cbn [mbind option_bind]; read_values Hlaws; try reflexivity.

Lemma prefix_lacks (Hlaws : value_laws) this key :
  In key [kPaymentResponseShippingOption; kPaymentResponsePayerName;
          kPaymentResponsePayerEmail; kPaymentResponsePayerPhone] ->
  no_dot key = true /\ FindPath (response_prefix this) key = None.
Proof.
  intros Hin. repeat (destruct Hin as [<- | Hin]; [split; [done | by read_response Hlaws] |]).
  destruct Hin.
Qed.

(** The text under a key written last, or followed by writes of other keys. *)
Lemma text_written (Hlaws : value_laws) this key s d :
  In key [kPaymentResponseShippingOption; kPaymentResponsePayerName;
          kPaymentResponsePayerEmail; kPaymentResponsePayerPhone] ->
  FindPath d key = FindPath (response_prefix this) key ->
  or_keep (GetString (set_unless_empty key s d) key) "" = s.
Proof.
  intros [Hdot Hnone]%(prefix_lacks Hlaws this) Hd.
  apply (set_unless_empty_same Hlaws); [done | by rewrite Hd].
Qed.

Lemma GetString_other (Hlaws : value_laws) key key' s d :
  no_dot key = true -> no_dot key' = true -> key <> key' ->
  GetString (set_unless_empty key s d) key' = GetString d key'.
Proof. intros. unfold GetString. by rewrite (set_unless_empty_other Hlaws). Qed.

(** Every field of a response is read back from the dictionary made of
    it; an empty string and an empty address are those that are absent. *)
Lemma PaymentResponse_written (Hlaws : value_laws) this :
  let result := PaymentResponse_ToDictionaryValue this in
  let address := PaymentAddress_ToDictionaryValue (response_address this) in
  let text key := or_keep (GetString result key) "" in
  GetString result kPaymentRequestId = Some (response_id this) /\
  GetString result kPaymentResponseMethodName = Some (method_name this) /\
  GetDictionary result kPaymentResponseDetails =
    Some (BasicCardResponse_ToDictionaryValue (response_details this)) /\
  GetDictionary result kPaymentResponseShippingAddress =
    (if dictionary_empty address then None else Some address) /\
  text kPaymentResponseShippingOption = response_option this /\
  text kPaymentResponsePayerName = payer_name this /\
  text kPaymentResponsePayerEmail = payer_email this /\
  text kPaymentResponsePayerPhone = payer_phone this.
Proof.
  unfold PaymentResponse_ToDictionaryValue. fold (response_prefix this). cbv zeta.
  split_and!; [by read_response Hlaws .. | | | |].
  all: repeat (rewrite (GetString_other Hlaws) by (reflexivity || discriminate)).
  all: apply (text_written Hlaws this); [simpl; tauto |].
  all: by repeat (rewrite (set_unless_empty_other Hlaws)
                    by (reflexivity || discriminate)).
Qed.
End payments.

(** ** Concrete runs *)
Module ConcretePayments.
Import ConcreteValues.

Inductive shipping := shipping_SHIPPING | shipping_DELIVERY | shipping_PICKUP.

#[export] Instance shipping_eq_dec : EqDecision shipping.
Proof. solve_decision. Defined.

(** Addresses, methods and card responses of one string each. *)
#[export] Instance payments : PaymentsApi := {|
  PaymentShippingType := shipping;
  SHIPPING := shipping_SHIPPING;
  DELIVERY := shipping_DELIVERY;
  PICKUP := shipping_PICKUP;
  PaymentAddress := string;
  PaymentAddress_new := "";
  PaymentAddress_eq := String.eqb;
  PaymentAddress_ToDictionaryValue a :=
    if String.eqb a "" then [] else [("city", VString a)];
  PaymentMethodData := string;
  PaymentMethodData_new := "";
  PaymentMethodData_eq := String.eqb;
  PaymentMethodData_FromDictionaryValue d m :=
    match find_key d "supportedMethods" with
    | Some (VString s) => (s, true)
    | _ => (m, false)
    end;
  BasicCardResponse := string;
  BasicCardResponse_new := "";
  BasicCardResponse_eq := String.eqb;
  BasicCardResponse_ToDictionaryValue c := [("cardNumber", VString c)];
|}.

Lemma payments_hold : payments_laws.
Proof. split; intros a b; apply String.eqb_eq. Qed.

Definition amount (system : list (string * value)) : value :=
  VDictionary ([("currency", VString "USD"); ("value", VString "5.00")] ++ system).

Definition page_request (system : list (string * value)) : dictionary :=
  [("methodData", VList [VDictionary [("supportedMethods", VString "visa")]]);
   ("details",
    VDictionary
      [("total", VDictionary [("label", VString "Total"); ("amount", amount system)]);
       ("displayItems",
        VList [VDictionary [("label", VString "Tax"); ("amount", amount []);
                            ("pending", VBool true)]]);
       ("shippingOptions",
        VList [VDictionary [("id", VString "1"); ("label", VString "Ship");
                            ("amount", amount [])]])]);
   ("options", VDictionary [("shippingType", VString "pickup")])].

Definition parsed (system : list (string * value)) : PaymentRequest :=
  (PaymentRequest_FromDictionaryValue (page_request system : DictionaryValue)
     PaymentRequest_new).1.

(** A complete request is read; without a label of its total it is refused,
    and an element of a list that is no dictionary makes the request fail
    after the elements before it were stored. *)
Example a_request_is_read :
  (PaymentRequest_FromDictionaryValue (page_request [] : DictionaryValue)
     PaymentRequest_new).2 = true /\
  shipping_type (options (parsed [])) = PICKUP /\
  pending <$> display_items (details (parsed [])) = [true].
Proof. vm_compute. auto. Qed.

Example a_late_failure_leaves_items :
  let '(d, ok) :=
    PaymentDetails_FromDictionaryValue
      ([("total", VDictionary [("label", VString "Total"); ("amount", amount [])]);
        ("displayItems",
         VList [VDictionary [("label", VString "Tax"); ("amount", amount [])];
                VString "x"])] : DictionaryValue) PaymentDetails_new in
  ok = false /\ item_label <$> display_items d = ["Tax"].
Proof. vm_compute. auto. Qed.

Lemma PaymentRequest_eq_spec_witness :
  let other := parsed [("currencySystem", VString "urn:iso:std:iso:1")] in
  parsed [] <> other /\
  (PaymentRequest_eq (parsed []) other = true <->
   forget_systems (parsed []) = forget_systems other).
Proof.
  split; [vm_compute; intros H; discriminate H |].
  exact (PaymentRequest_eq_spec payments_hold _ _).
Defined.

(** Requests whose totals are in different currency systems are equal. *)
Lemma currency_systems_ignored :
  PaymentRequest_eq (parsed [])
    (parsed [("currencySystem", VString "urn:iso:std:iso:1")]) = true.
Proof. reflexivity. Qed.

Definition response : PaymentResponse :=
  {| response_id := "r1"; method_name := "visa"; response_details := "4111";
     response_address := ""; response_option := "1"; payer_name := "";
     payer_email := "a@b.c"; payer_phone := "" |}.

Lemma PaymentResponse_written_witness :
  or_keep (GetString (PaymentResponse_ToDictionaryValue response)
             kPaymentResponsePayerEmail) "" = "a@b.c".
Proof.
  destruct (PaymentResponse_written concrete_laws response)
    as (_ & _ & _ & _ & _ & _ & Hemail & _).
  exact Hemail.
Defined.
End ConcretePayments.
