(* ===== verification/NotificationPromo.v ===== *)
(** * Notification promos

    [chrome/browser/notification_promo.h] and [.cc]: the promotion of the new
    tab page, configured by a field trial or by JSON, whose views are counted
    in the local state.

    An object shares the preferences with the objects made after it, so the
    operations that write them take and return the [PrefService]. *)
From S2P Require Import Prelude Values.
From Stdlib Require Import Ascii.

(** ** Code outside of the repository: times and printing of numbers *)
Class PromoApi `{ValuesApi} := {
  Time : Type;
  Time_FromString : string -> option Time;
  ToDoubleT : Time -> double;
  FromDoubleT : double -> Time;
  Time_lt : Time -> Time -> bool;
(** [time + TimeDelta::FromSeconds(s)] *)
plus_seconds : Time -> Z -> Time;
zero : double;
is_zero : double -> bool;
IntToString : Z -> string;
StringToInt : string -> option Z;
}.

(** The characters of a printed integer. *)
Fixpoint int_chars (s : string) : bool :=
  match s with
  | EmptyString => true
  | String c s =>
      (Ascii.eqb c "-" || ((48 <=? N_of_ascii c) && (N_of_ascii c <=? 57))%N) && int_chars s
  end.

Record promo_laws `{PromoApi} : Prop := {
  int_printed n : int_chars (IntToString n) = true;
  int_injective m n : IntToString m = IntToString n -> m = n;
}.

Section promos.
Context `{ValuesApi, !PrefsApi, !PromoApi}.

Definition kNTPPromoFinchExperiment : string := "IOSNTPPromotion".
Definition kPrefPromoObject : string := "ios.ntppromo".
Definition kPrefPromoID : string := "id".
Definition kPrefPromoFirstViewTime : string := "first_view_time".
Definition kPrefPromoViews : string := "views".
Definition kPrefPromoClosed : string := "closed".

Record NotificationPromo := {
  promo_text_ : string;
  promo_payload_ : DictionaryValue;
  start_ : double;
  end_ : double;
  promo_id_ : Z;
  max_views_ : Z;
  max_seconds_ : Z;
  first_view_time_ : double;
  views_ : Z;
  closed_ : bool;
}.

#[export] Instance promo_fields : Fields NotificationPromo := fun n =>
  {| promo_text_ := promo_text_ n; promo_payload_ := promo_payload_ n;
     start_ := start_ n; end_ := end_ n; promo_id_ := promo_id_ n;
     max_views_ := max_views_ n; max_seconds_ := max_seconds_ n;
     first_view_time_ := first_view_time_ n; views_ := views_ n; closed_ := closed_ n |}.

Implicit Types (n : NotificationPromo) (prefs : PrefService) (now : Time).

Definition NotificationPromo_new : NotificationPromo :=
  {| promo_text_ := ""; promo_payload_ := empty_dictionary; start_ := zero; end_ := zero;
     promo_id_ := -1; max_views_ := 0; max_seconds_ := 0; first_view_time_ := zero;
     views_ := 0; closed_ := false |}.

(** ** Configuration *)
Definition IsPayloadParam (param_name : string) : bool :=
  negb (String.eqb param_name "start") && negb (String.eqb param_name "end") &&
  negb (String.eqb param_name "promo_text") && negb (String.eqb param_name "max_views") &&
  negb (String.eqb param_name "max_seconds") && negb (String.eqb param_name "promo_id").

(** [promo.GetString(key, &time_str) && Time::FromString(time_str, &time)] *)
Definition time_of (promo : DictionaryValue) (key : string) : option double :=
  time_str ← GetString promo key;
  time ← Time_FromString time_str;
  mret (ToDoubleT time).

Definition InitFromJson (promo : DictionaryValue) n : NotificationPromo :=
  let n := n <| start_ := or_keep (time_of promo "start") (start_ n) |> in
  let n := n <| end_ := or_keep (time_of promo "end") (end_ n) |> in
  let n := n <| promo_text_ := or_keep (GetString promo "promo_text") (promo_text_ n) |> in
  let n := n <| promo_payload_ :=
                  or_keep (GetDictionary promo "payload") (promo_payload_ n) |> in
  let n := n <| max_views_ := or_keep (GetInteger promo "max_views") (max_views_ n) |> in
  let n := n <| max_seconds_ :=
                  or_keep (GetInteger promo "max_seconds") (max_seconds_ n) |> in
  n <| promo_id_ := or_keep (GetInteger promo "promo_id") (promo_id_ n) |>.

(** [json_or_payload.SetInteger] or [SetString] *)
Definition set_param (name text : string) (d : DictionaryValue) : DictionaryValue :=
  match StringToInt text with
  | Some converted_number => SetInteger name converted_number d
  | None => SetString name text d
  end.

Fixpoint params_loop (params : list (string * string))
    (json payload : DictionaryValue) : DictionaryValue * DictionaryValue :=
  match params with
  | [] => (json, payload)
  | (name, text) :: params =>
      if IsPayloadParam name then params_loop params json (set_param name text payload)
      else params_loop params (set_param name text json) payload
  end.

(** [params] is what [GetVariationParams(kNTPPromoFinchExperiment)] finds, in
    the order of the map; [None] when it returns false. *)
Definition InitFromVariations (params : option (list (string * string))) n
    : NotificationPromo :=
  match params with
  | None => n
  | Some params =>
      let '(json, payload) := params_loop params empty_dictionary empty_dictionary in
      InitFromJson (SetDictionary "payload" payload json) n
  end.

(** ** Storage *)
Definition MigrateUserPrefs prefs : PrefService := ClearPref kPrefPromoObject prefs.

Definition saved_promo (first_view_time : double) (views : Z) (closed : bool)
    : DictionaryValue :=
  let ntp_promo := empty_dictionary in
  let ntp_promo := SetDouble kPrefPromoFirstViewTime first_view_time ntp_promo in
  let ntp_promo := SetInteger kPrefPromoViews views ntp_promo in
  SetBoolean kPrefPromoClosed closed ntp_promo.

(** A null [GetDictionary] would be dereferenced by [MergeDictionary]. *)
Definition WritePrefs (promo_id : Z) (first_view_time : double) (views : Z)
    (closed : bool) prefs : chk PrefService :=
  let ntp_promo := saved_promo first_view_time views closed in
  stored ← deref (GetDictionary_pref prefs kPrefPromoObject);
  let promo_dict := MergeDictionary empty_dictionary stored in
  let promo_dict := SetDictionary (IntToString promo_id) ntp_promo promo_dict in
  mret (Set_pref kPrefPromoObject promo_dict prefs).

Definition WritePrefs_own n prefs : chk PrefService :=
  WritePrefs (promo_id_ n) (first_view_time_ n) (views_ n) (closed_ n) prefs.

Definition MigrateOldPrefs prefs : chk PrefService :=
  match GetDictionary_pref prefs kPrefPromoObject with
  | None => mret prefs
  | Some promo_dict =>
      match GetList promo_dict "mobile_ntp_whats_new_promo" with
      | None => mret prefs
      | Some promo_list =>
          match GetDictionaryAt promo_list 0 with
          | None => mret (MigrateUserPrefs prefs)
          | Some ntp_promo =>
              let promo_id := or_keep (GetInteger ntp_promo kPrefPromoID) (-1) in
              if promo_id =? -1 then mret (MigrateUserPrefs prefs)
              else
                let first_view_time :=
                  or_keep (GetDouble ntp_promo kPrefPromoFirstViewTime) zero in
                let views := or_keep (GetInteger ntp_promo kPrefPromoViews) 0 in
                let closed := or_keep (GetBoolean ntp_promo kPrefPromoClosed) false in
                let prefs := MigrateUserPrefs prefs in
                WritePrefs promo_id first_view_time views closed prefs
          end
      end
  end.

Definition read_saved (ntp_promo : DictionaryValue) n : NotificationPromo :=
  let n := n <| first_view_time_ :=
    or_keep (GetDouble ntp_promo kPrefPromoFirstViewTime) (first_view_time_ n) |> in
  let n := n <| views_ := or_keep (GetInteger ntp_promo kPrefPromoViews) (views_ n) |> in
  n <| closed_ := or_keep (GetBoolean ntp_promo kPrefPromoClosed) (closed_ n) |>.

Definition InitFromPrefs prefs n : chk (PrefService * NotificationPromo) :=
  prefs ← MigrateOldPrefs prefs;
  if promo_id_ n =? -1 then mret (prefs, n)
  else
    match GetDictionary_pref prefs kPrefPromoObject with
    | None => mret (prefs, n)
    | Some promo_dict =>
        match GetDictionary promo_dict (IntToString (promo_id_ n)) with
        | None => mret (prefs, n)
        | Some ntp_promo => mret (prefs, read_saved ntp_promo n)
        end
    end.

(** ** Display *)
Definition StartTime n : double := start_ n.
Definition EndTime n : double := end_ n.

Definition ExceedsMaxViews n : bool :=
  if max_views_ n =? 0 then false else max_views_ n <=? views_ n.

Definition ExceedsMaxSeconds now n : bool :=
  if (max_seconds_ n =? 0) || is_zero (first_view_time_ n) then false
  else
    let last_view_time := plus_seconds (FromDoubleT (first_view_time_ n)) (max_seconds_ n) in
    Time_lt last_view_time now.

Definition CanShow now n : bool :=
  negb (closed_ n) && negb (String.eqb (promo_text_ n) "") && negb (ExceedsMaxViews n) &&
  negb (ExceedsMaxSeconds now n) && Time_lt (FromDoubleT (StartTime n)) now &&
  Time_lt now (FromDoubleT (EndTime n)).

Definition HandleClosed n prefs : chk PrefService :=
  if negb (closed_ n)
  then WritePrefs (promo_id_ n) (first_view_time_ n) (views_ n) true prefs
  else mret prefs.

(** [views_ + 1] must fit an [int]. *)
Definition HandleViewed now n prefs : chk PrefService :=
  _ ← dcheck (views_ n <? INT_MAX);
  let views := views_ n + 1 in
  let first_view_time :=
    if is_zero (first_view_time_ n) then ToDoubleT now else first_view_time_ n in
  WritePrefs (promo_id_ n) first_view_time views (closed_ n) prefs.

(** ** What is stored *)
Lemma int_chars_no_dot s : int_chars s = true -> no_dot s = true.
Proof.
  induction s as [| c s IH]; simpl; [done |].
  intros [Hc Hs]%andb_true_iff. rewrite (IH Hs), andb_true_r.
  destruct (Ascii.eqb_spec c "."%char) as [-> |]; [by vm_compute in Hc | done].
Qed.

Context (Hvalues : value_laws) (Hprefs : prefs_laws) (Hpromo : promo_laws).

Lemma printed_no_dot id : no_dot (IntToString id) = true.
Proof. apply int_chars_no_dot, (int_printed Hpromo). Qed.

Lemma printed_not_old id : IntToString id <> "mobile_ntp_whats_new_promo"%string.
Proof. intros Heq. pose proof (int_printed Hpromo id) as Hc. by rewrite Heq in Hc. Qed.

(** Registered preferences in the new structure. *)
Definition ready prefs : Prop :=
  exists d, GetDictionary_pref prefs kPrefPromoObject = Some d /\
            GetList d "mobile_ntp_whats_new_promo" = None.

Definition saved prefs (id : Z) : option DictionaryValue :=
  d ← GetDictionary_pref prefs kPrefPromoObject;
  GetDictionary d (IntToString id).

Lemma merged_path d k :
  no_dot k = true -> FindPath (MergeDictionary empty_dictionary d) k = FindPath d k.
Proof.
  intros Hk. rewrite !(find_path_key Hvalues) by done. apply (find_merged_empty Hvalues).
Qed.

Lemma WritePrefs_spec id t v c prefs :
  ready prefs ->
  exists prefs', WritePrefs id t v c prefs = Ok prefs' /\ ready prefs' /\
    saved prefs' id = Some (saved_promo t v c) /\
    (forall id', id' <> id -> saved prefs' id' = saved prefs id').
Proof.
  intros (d & Hd & Hold). unfold WritePrefs. rewrite Hd. simpl.
  eexists. split; [done |]. unfold ready, saved. rewrite (get_set_pref Hprefs), Hd. simpl.
  split_and!.
  - eexists. split; [done |]. unfold GetList, SetDictionary.
    rewrite (find_set_path_ne Hvalues), merged_path; [done | done | | done |].
    + apply printed_no_dot.
    + apply printed_not_old.
  - apply (GetDictionary_set Hvalues), printed_no_dot.
  - intros id' Hne. unfold GetDictionary, SetDictionary.
    rewrite (find_set_path_ne Hvalues), merged_path; [done | apply printed_no_dot.. |].
    intros Heq%(int_injective Hpromo). congruence.
Qed.

Lemma read_saved_promo t v c n :
  read_saved (saved_promo t v c) n =
  n <| first_view_time_ := t |> <| views_ := v |> <| closed_ := c |>.
Proof.
  unfold read_saved, saved_promo, GetDouble, GetInteger, GetBoolean, SetDouble,
    SetInteger, SetBoolean.
  read_values Hvalues. simpl. read_values Hvalues. by destruct n.
Qed.

Lemma MigrateOldPrefs_ready prefs : ready prefs -> MigrateOldPrefs prefs = Ok prefs.
Proof. intros (d & Hd & Hold). unfold MigrateOldPrefs. by rewrite Hd, Hold. Qed.

Lemma InitFromPrefs_ready prefs n :
  ready prefs -> promo_id_ n <> -1 ->
  InitFromPrefs prefs n =
  Ok (prefs, match saved prefs (promo_id_ n) with
             | Some ntp_promo => read_saved ntp_promo n
             | None => n
             end).
Proof.
  intros Hready Hid. unfold InitFromPrefs. rewrite MigrateOldPrefs_ready by done. simpl.
  rewrite (proj2 (Z.eqb_neq _ _) Hid). unfold saved.
  destruct Hready as (d & -> & _). simpl. by destruct (GetDictionary d _).
Qed.

(** What an object writes to the preferences is read back by the next
    object for the same promo, and the data of the other promos is kept. *)
Lemma promo_prefs_roundtrip n n' prefs :
  ready prefs -> promo_id_ n <> -1 -> promo_id_ n' = promo_id_ n ->
  exists prefs', WritePrefs_own n prefs = Ok prefs' /\
    InitFromPrefs prefs' n' =
      Ok (prefs', n' <| first_view_time_ := first_view_time_ n |>
                     <| views_ := views_ n |> <| closed_ := closed_ n |>) /\
    forall id, id <> promo_id_ n -> saved prefs' id = saved prefs id.
Proof.
  intros Hready Hid Hsame.
  destruct (WritePrefs_spec (promo_id_ n) (first_view_time_ n) (views_ n) (closed_ n)
              prefs Hready) as (prefs' & Hw & Hready' & Hsaved & Hother).
  exists prefs'. split; [done |]. split; [| done].
  rewrite InitFromPrefs_ready by (done || congruence).
  by rewrite Hsame, Hsaved, read_saved_promo.
Qed.

(** Data in the structure of older versions (a list of promos, of which
    the first is kept) is moved to the new structure and read from there: a
    missing time, count or flag is zero, and nothing of the old structure is
    left. *)
Lemma old_prefs_migrate d l old n prefs :
  GetDictionary_pref prefs kPrefPromoObject = Some d ->
  GetList d "mobile_ntp_whats_new_promo" = Some l ->
  GetDictionaryAt l 0 = Some old ->
  GetInteger old kPrefPromoID = Some (promo_id_ n) -> promo_id_ n <> -1 ->
  exists prefs', ready prefs' /\
    InitFromPrefs prefs n =
      Ok (prefs',
          n <| first_view_time_ := or_keep (GetDouble old kPrefPromoFirstViewTime) zero |>
            <| views_ := or_keep (GetInteger old kPrefPromoViews) 0 |>
            <| closed_ := or_keep (GetBoolean old kPrefPromoClosed) false |>) /\
    forall id, id <> promo_id_ n -> saved prefs' id = None.
Proof.
  intros Hd Hl Hold Hid Hne.
  assert (ready (MigrateUserPrefs prefs)) as Hcleared.
  { exists empty_dictionary. unfold MigrateUserPrefs. rewrite (get_cleared Hprefs).
    split; [done |]. unfold GetList. by rewrite (find_path_empty Hvalues). }
  destruct (WritePrefs_spec (promo_id_ n) (or_keep (GetDouble old kPrefPromoFirstViewTime) zero)
      (or_keep (GetInteger old kPrefPromoViews) 0)
      (or_keep (GetBoolean old kPrefPromoClosed) false) _ Hcleared)
    as (prefs' & Hw & Hready & Hsaved & Hother).
  exists prefs'. split; [done |]. split.
  - assert (MigrateOldPrefs prefs = Ok prefs') as Hm.
    { unfold MigrateOldPrefs. rewrite Hd, Hl, Hold, Hid. simpl.
      by rewrite (proj2 (Z.eqb_neq _ _) Hne). }
    unfold InitFromPrefs. rewrite Hm. simpl. rewrite (proj2 (Z.eqb_neq _ _) Hne).
    unfold saved in Hsaved. destruct (GetDictionary_pref prefs' _) as [d' |]; [| done].
    simpl in Hsaved. by rewrite Hsaved, read_saved_promo.
  - intros id Hidn. rewrite Hother by done. unfold saved, MigrateUserPrefs.
    rewrite (get_cleared Hprefs). simpl. unfold GetDictionary.
    by rewrite (find_path_empty Hvalues) by apply printed_no_dot.
Qed.

(** ** Showing a promo again and again

    What the clients do each time the promo may be displayed: a new object,
    configured as [c], reads the preferences and is viewed if it can show. *)
Definition display c now prefs : chk (PrefService * bool) :=
  '(prefs, n) ← InitFromPrefs prefs c;
  if CanShow now n then prefs ← HandleViewed now n prefs; mret (prefs, true)
  else mret (prefs, false).

Fixpoint displays c (nows : list Time) prefs : chk (PrefService * Z) :=
  match nows with
  | [] => mret (prefs, 0)
  | now :: nows =>
      '(prefs, shown) ← display c now prefs;
      '(prefs, views) ← displays c nows prefs;
      mret (prefs, if (shown : bool) then views + 1 else views)
  end.

(** The number of views the preferences hold. *)
Definition views_in prefs c : Z :=
  match saved prefs (promo_id_ c) with
  | Some ntp_promo => or_keep (GetInteger ntp_promo kPrefPromoViews) (views_ c)
  | None => views_ c
  end.

Lemma display_run c now prefs :
  ready prefs -> promo_id_ c <> -1 -> 0 < max_views_ c <= INT_MAX ->
  exists prefs' shown, display c now prefs = Ok (prefs', shown) /\ ready prefs' /\
    views_in prefs' c = views_in prefs c + (if shown then 1 else 0) /\
    (shown = true -> views_in prefs c < max_views_ c).
Proof.
  intros Hready Hid Hmax. unfold display. rewrite InitFromPrefs_ready by done. simpl.
  set (n := match saved prefs _ with Some _ => _ | None => _ end).
  assert (Hn : promo_id_ n = promo_id_ c /\ max_views_ n = max_views_ c /\
               views_ n = views_in prefs c).
  { subst n. unfold views_in. by destruct (saved prefs (promo_id_ c)). }
  destruct Hn as (Hidn & Hmaxn & Hviews).
  destruct (CanShow now n) eqn:Hshow; cycle 1.
  { exists prefs, false. split; [done |]. split; [done |]. split; [lia | done]. }
  assert (Hlt : views_ n < max_views_ c).
  { unfold CanShow, ExceedsMaxViews in Hshow. rewrite Hmaxn in Hshow.
    rewrite (proj2 (Z.eqb_neq (max_views_ c) 0)) in Hshow by lia.
    rewrite !andb_true_iff, !negb_true_iff in Hshow. destruct Hshow as [[[[_ Hle] _] _] _].
    apply Z.leb_gt in Hle. lia. }
  unfold HandleViewed. rewrite dcheck_true by (apply Z.ltb_lt; lia). rewrite bind_Ok.
  destruct (WritePrefs_spec (promo_id_ n)
      (if is_zero (first_view_time_ n) then ToDoubleT now else first_view_time_ n)
      (views_ n + 1) (closed_ n) prefs Hready) as (prefs' & Hw & Hready' & Hsaved & _).
  rewrite Hw. exists prefs', true. split; [done |]. split; [done |].
  split; [| intros _; lia]. unfold views_in at 1. rewrite <- Hidn, Hsaved.
  pose proof (f_equal views_ (read_saved_promo
    (if is_zero (first_view_time_ n) then ToDoubleT now else first_view_time_ n)
    (views_ n + 1) (closed_ n) c)) as Hread. simpl in Hread. rewrite Hread. lia.
Qed.

(** However often it is displayed, and at whatever times, a promo limited
    to [max_views] views is shown at most as often as the limit leaves after
    the views already stored; the stored count is exact, and it does not
    overflow. *)
Lemma views_are_limited c nows prefs :
  ready prefs -> promo_id_ c <> -1 -> 0 < max_views_ c <= INT_MAX ->
  exists prefs' views, displays c nows prefs = Ok (prefs', views) /\
    views_in prefs' c = views_in prefs c + views /\
    0 <= views <= Z.max 0 (max_views_ c - views_in prefs c).
Proof.
  intros Hready Hid Hmax. revert prefs Hready.
  induction nows as [| now nows IH]; intros prefs Hready; simpl.
  - exists prefs, 0. split; [done |]. lia.
  - destruct (display_run c now prefs Hready Hid Hmax)
      as (prefs1 & shown & Hd & Hready1 & Hviews & Hlt).
    rewrite Hd. simpl. destruct (IH prefs1 Hready1) as (prefs2 & views & Hds & Hv & Hle).
    rewrite Hds. simpl. exists prefs2, (if shown then views + 1 else views).
    split; [done |]. destruct shown; [specialize (Hlt eq_refl) |]; lia.
Qed.

(** A promo that was closed is not shown by any later object. *)
Lemma closed_promo_stays_closed n n' now prefs :
  ready prefs -> promo_id_ n <> -1 -> promo_id_ n' = promo_id_ n -> closed_ n = false ->
  exists prefs' r, HandleClosed n prefs = Ok prefs' /\
    InitFromPrefs prefs' n' = Ok (prefs', r) /\ CanShow now r = false.
Proof.
  intros Hready Hid Hsame Hopen. unfold HandleClosed. rewrite Hopen. simpl.
  destruct (WritePrefs_spec (promo_id_ n) (first_view_time_ n) (views_ n) true
              prefs Hready) as (prefs' & Hw & Hready' & Hsaved & _).
  eexists prefs', _. split; [done |]. split.
  - apply InitFromPrefs_ready; [done | congruence].
  - rewrite Hsame, Hsaved, read_saved_promo. done.
Qed.

(** The object itself still takes the promo for open: viewed once more, it
    writes it back as open. *)
Lemma viewed_after_closed_reopens n now prefs :
  ready prefs -> promo_id_ n <> -1 -> closed_ n = false -> views_ n < INT_MAX ->
  exists prefs' prefs'' r, HandleClosed n prefs = Ok prefs' /\
    HandleViewed now n prefs' = Ok prefs'' /\
    saved prefs'' (promo_id_ n) = Some r /\ GetBoolean r kPrefPromoClosed = Some false.
Proof.
  intros Hready Hid Hopen Hmax. unfold HandleClosed, HandleViewed. rewrite Hopen. simpl.
  destruct (WritePrefs_spec (promo_id_ n) (first_view_time_ n) (views_ n) true
              prefs Hready) as (prefs' & Hw & Hready' & _).
  rewrite dcheck_true by (apply Z.ltb_lt; lia).
  destruct (WritePrefs_spec (promo_id_ n)
      (if is_zero (first_view_time_ n) then ToDoubleT now else first_view_time_ n)
      (views_ n + 1) false prefs' Hready') as (prefs'' & Hw' & _ & Hsaved & _).
  exists prefs', prefs''. eexists. split; [done |]. split; [done |]. split; [done |].
  unfold saved_promo. by apply (GetBoolean_set Hvalues).
Qed.
End promos.

(** ** Concrete runs *)
Module ConcretePromos.
Import ConcreteValues ConcretePrefs.

(** Times are numbers of seconds, printed in unary after the sign. *)
#[export] Instance promo_api : PromoApi := {|
  Time := Z;
  Time_FromString _ := None;
  ToDoubleT t := t;
  FromDoubleT t := t;
  Time_lt := Z.ltb;
  plus_seconds t s := t + s;
  zero := 0;
  is_zero t := t =? 0;
  IntToString n := (if n <? 0 then "-" else "0") +:+
    String.string_of_list_ascii (replicate (Z.to_nat (Z.abs n)) "1"%char);
  StringToInt _ := None;
|}.

Lemma concrete_promo_laws : promo_laws.
Proof.
  assert (Hlen : forall k k', String.string_of_list_ascii (replicate k "1"%char) =
                  String.string_of_list_ascii (replicate k' "1"%char) -> k = k').
  { induction k as [| k IH]; intros [| k']; simpl; try done. intros [= ?]. f_equal. auto. }
  split.
  - intros n. simpl. assert (int_chars (String.string_of_list_ascii
      (replicate (Z.to_nat (Z.abs n)) "1"%char)) = true) as Hd.
    { generalize (Z.to_nat (Z.abs n)). intros k. by induction k. }
    by destruct (n <? 0).
  - intros m n. simpl. destruct (Z.ltb_spec m 0), (Z.ltb_spec n 0); simpl;
      intros [= Heq%Hlen]; lia.
Qed.

Definition configured : NotificationPromo :=
  NotificationPromo_new <| promo_text_ := "hello" |> <| promo_id_ := 4 |>
    <| max_views_ := 2 |> <| end_ := (1000 : double) |>.

Lemma configured_id : promo_id_ configured <> -1.
Proof. vm_compute. discriminate. Qed.

Definition viewed : NotificationPromo := configured <| views_ := 3 |>.

Lemma viewed_id : promo_id_ viewed <> -1.
Proof. vm_compute. discriminate. Qed.

Definition no_prefs : PrefService := [].

Lemma no_prefs_ready : ready no_prefs.
Proof. by exists empty_dictionary. Qed.

Lemma promo_prefs_roundtrip_witness :
  exists prefs', WritePrefs_own viewed no_prefs = Ok prefs' /\
    exists r, InitFromPrefs prefs' configured = Ok (prefs', r) /\ views_ r = 3.
Proof.
  destruct (promo_prefs_roundtrip concrete_laws concrete_prefs_laws concrete_promo_laws
              viewed configured no_prefs no_prefs_ready
              viewed_id eq_refl) as (prefs' & Hw & Hr & _).
  exists prefs'. split; [exact Hw |]. eexists. split; [exact Hr | reflexivity].
Defined.

Definition old_promo : dictionary := [("id", VInt 4); ("views", VInt 1)].
Definition old_prefs : PrefService :=
  [("ios.ntppromo"%string,
    [("mobile_ntp_whats_new_promo", VList [VDictionary old_promo])])].

Lemma old_prefs_migrate_witness :
  exists prefs' r, InitFromPrefs old_prefs configured = Ok (prefs', r) /\ views_ r = 1.
Proof.
  destruct (old_prefs_migrate concrete_laws concrete_prefs_laws concrete_promo_laws
              [("mobile_ntp_whats_new_promo", VList [VDictionary old_promo])]
              [VDictionary old_promo] old_promo configured old_prefs
              eq_refl eq_refl eq_refl eq_refl configured_id) as (prefs' & _ & Hr & _).
  eexists prefs', _. split; [exact Hr | reflexivity].
Defined.

Definition three_times : list Time := [10; 20; 30].

Lemma views_are_limited_witness :
  exists prefs' views, displays configured three_times no_prefs = Ok (prefs', views) /\
    views <= 2.
Proof.
  destruct (views_are_limited concrete_laws concrete_prefs_laws concrete_promo_laws
              configured three_times no_prefs no_prefs_ready configured_id
              ltac:(evaluate))
    as (prefs' & views & Hrun & _ & _ & Hle).
  exists prefs', views. split; [exact Hrun | exact Hle].
Defined.

(** Three occasions, two views. *)
Example shown_twice :
  (from_ok (no_prefs, 0) (displays configured three_times no_prefs)).2 = 2.
Proof. reflexivity. Qed.
End ConcretePromos.
