(* ===== verification/BrowserStates.v ===== *)
(** * The cache of browser states

    [chrome/browser/browser_state/browser_state_info_cache.cc], what
    [browser_state_metrics.cc] counts in it, and the manager of browser states
    ([chrome_browser_state_manager_impl.cc]) that fills it.

    The cache is in step with a dictionary of the local state: operations take
    and return the [PrefService].  Paths, browser states and accounts are
    parameters. *)
From S2P Require Import Prelude Values.
From Stdlib Require Import Ascii Sorted.

(** ** Code outside of the repository *)
Class PathApi := {
  FilePath : Type;
  FilePath_eq_dec : EqDecision FilePath;
(** [operator<], the order of [std::map] *)
FilePath_lt : FilePath -> FilePath -> bool;
DirName : FilePath -> FilePath;
(** [path.BaseName().MaybeAsASCII()], empty when it is not ASCII *)
BaseNameAsASCII : FilePath -> string;
AppendASCII : FilePath -> string -> FilePath;
}.
#[export] Existing Instance FilePath_eq_dec.

(** A path is its directory and its last component. *)
Record path_laws `{PathApi} : Prop := {
  path_of_name p :
    BaseNameAsASCII p <> ""%string -> AppendASCII (DirName p) (BaseNameAsASCII p) = p;
}.

(** ** Keys in order *)

(** [v.insert(std::upper_bound(v.begin(), v.end(), key), key)] *)
Fixpoint insert_upper_bound (key : string) (keys : list string) : list string :=
  match keys with
  | [] => [key]
  | k :: keys' =>
      if String.ltb key k then key :: keys else k :: insert_upper_bound key keys'
  end.

(** [v.erase(std::find(v.begin(), v.end(), key))] *)
Fixpoint erase_found (key : string) (keys : list string) : chk (list string) :=
  match keys with
  | [] => Fault
  | k :: keys => if String.eqb k key then mret keys
                 else keys ← erase_found key keys; mret (k :: keys)
  end.

Section cache.
Context `{ValuesApi, !PrefsApi, !PathApi}.

Definition kGAIAIdKey : string := "gaia_id".
Definition kIsAuthErrorKey : string := "is_auth_error".
Definition kUserNameKey : string := "user_name".
Definition kBrowserStateInfoCache : string := "profile.info_cache".

Inductive cache_event :=
| OnBrowserStateAdded (path : FilePath)
| OnBrowserStateWasRemoved (path : FilePath).

(** [notified] is the log of the calls of the observers. *)
Record BrowserStateInfoCache := {
  sorted_keys_ : list string;
  user_data_dir_ : FilePath;
  observer_list_ : list nat;
  notified : list (nat * cache_event);
}.

#[export] Instance cache_fields : Fields BrowserStateInfoCache := fun c =>
  {| sorted_keys_ := sorted_keys_ c; user_data_dir_ := user_data_dir_ c;
     observer_list_ := observer_list_ c; notified := notified c |}.

Implicit Types (c : BrowserStateInfoCache) (prefs : PrefService) (path : FilePath)
  (index : Z).

(** [DictionaryPrefUpdate(prefs_, kBrowserStateInfoCache).Get()] and the
    commit of its changes. *)
Definition cache_of prefs : DictionaryValue :=
  default empty_dictionary (GetDictionary_pref prefs kBrowserStateInfoCache).

Definition update_cache (f : DictionaryValue -> DictionaryValue) prefs : PrefService :=
  Set_pref kBrowserStateInfoCache (f (cache_of prefs)) prefs.

Definition notify (e : cache_event) c : BrowserStateInfoCache :=
  c <| notified := notified c ++ ((fun o => (o, e)) <$> observer_list_ c) |>.

Definition CacheKeyFromBrowserStatePath path c : chk string :=
  _ ← dcheck (bool_decide (user_data_dir_ c = DirName path));
  mret (BaseNameAsASCII path).

Definition AddBrowserStateCacheKey (key : string) c : BrowserStateInfoCache :=
  c <| sorted_keys_ := insert_upper_bound key (sorted_keys_ c) |>.

Definition BrowserStateInfoCache_new prefs (user_data_dir : FilePath)
    : BrowserStateInfoCache :=
  foldl (fun c key => AddBrowserStateCacheKey key c)
    {| sorted_keys_ := []; user_data_dir_ := user_data_dir; observer_list_ := [];
       notified := [] |}
    (Keys (cache_of prefs)).

Definition AddObserver (o : nat) c : chk BrowserStateInfoCache :=
  _ ← dcheck (negb (bool_decide (o ∈ observer_list_ c)));
  mret (c <| observer_list_ := observer_list_ c ++ [o] |>).

Definition RemoveObserver (o : nat) c : BrowserStateInfoCache :=
  c <| observer_list_ := filter (fun x => x <> o) (observer_list_ c) |>.

Definition new_info (gaia_id user_name : string) : DictionaryValue :=
  SetString kUserNameKey user_name (SetString kGAIAIdKey gaia_id empty_dictionary).

Definition AddBrowserState path (gaia_id user_name : string) prefs c
    : chk (PrefService * BrowserStateInfoCache) :=
  key ← CacheKeyFromBrowserStatePath path c;
  let info := new_info gaia_id user_name in
  let prefs := update_cache (SetKey key (of_dictionary info)) prefs in
  let c := AddBrowserStateCacheKey key c in
  mret (prefs, notify (OnBrowserStateAdded path) c).

Definition GetNumberOfBrowserStates c : Z := vsize (sorted_keys_ c).

(** [None] is [std::string::npos]. *)
Definition GetIndexOfBrowserStateWithPath path c : chk (option Z) :=
  if negb (bool_decide (DirName path = user_data_dir_ c)) then mret None
  else
    search_key ← CacheKeyFromBrowserStatePath path c;
    mret (Z.of_nat <$> find_index (fun key => String.eqb key search_key)
                         (sorted_keys_ c)).

Definition RemoveBrowserState path prefs c : chk (PrefService * BrowserStateInfoCache) :=
  browser_state_index ← GetIndexOfBrowserStateWithPath path c;
  match browser_state_index with
  | None => Fault
  | Some _ =>
      key ← CacheKeyFromBrowserStatePath path c;
      let prefs := update_cache (RemovePath key) prefs in
      keys ← erase_found key (sorted_keys_ c);
      let c := c <| sorted_keys_ := keys |> in
      mret (prefs, notify (OnBrowserStateWasRemoved path) c)
  end.

(** The callers dereference the pointer, null when there is no dictionary. *)
Definition GetInfoForBrowserStateAtIndex index prefs c : chk DictionaryValue :=
  _ ← dcheck (index <? GetNumberOfBrowserStates c);
  cache ← deref (GetDictionary_pref prefs kBrowserStateInfoCache);
  key ← vget (sorted_keys_ c) index;
  deref (FindKey cache key ≫= as_dictionary).

Definition SetInfoForBrowserStateAtIndex index (info : DictionaryValue) prefs c
    : chk PrefService :=
  key ← vget (sorted_keys_ c) index;
  mret (update_cache (SetKey key (of_dictionary info)) prefs).

Definition GetUserNameOfBrowserStateAtIndex index prefs c : chk string :=
  info ← GetInfoForBrowserStateAtIndex index prefs c;
  mret (or_keep (GetString info kUserNameKey) ""%string).

Definition GetPathOfBrowserStateAtIndex index c : chk FilePath :=
  key ← vget (sorted_keys_ c) index;
  mret (AppendASCII (user_data_dir_ c) key).

Definition GetGAIAIdOfBrowserStateAtIndex index prefs c : chk string :=
  info ← GetInfoForBrowserStateAtIndex index prefs c;
  mret (or_keep (GetString info kGAIAIdKey) ""%string).

Definition BrowserStateIsAuthenticatedAtIndex index prefs c : chk bool :=
  gaia_id ← GetGAIAIdOfBrowserStateAtIndex index prefs c;
  if negb (String.eqb gaia_id "") then mret true
  else
    user_name ← GetUserNameOfBrowserStateAtIndex index prefs c;
    mret (negb (String.eqb user_name "")).

Definition BrowserStateIsAuthErrorAtIndex index prefs c : chk bool :=
  info ← GetInfoForBrowserStateAtIndex index prefs c;
  mret (or_keep (GetBoolean info kIsAuthErrorKey) false).

Definition SetAuthInfoOfBrowserStateAtIndex index (gaia_id user_name : string) prefs c
    : chk PrefService :=
  old_gaia_id ← GetGAIAIdOfBrowserStateAtIndex index prefs c;
  old_user_name ← GetUserNameOfBrowserStateAtIndex index prefs c;
  if String.eqb gaia_id old_gaia_id && String.eqb user_name old_user_name then mret prefs
  else
    info ← GetInfoForBrowserStateAtIndex index prefs c;
    let info := SetString kGAIAIdKey gaia_id info in
    let info := SetString kUserNameKey user_name info in
    SetInfoForBrowserStateAtIndex index info prefs c.

Definition SetBrowserStateIsAuthErrorAtIndex index (value : bool) prefs c
    : chk PrefService :=
  old_value ← BrowserStateIsAuthErrorAtIndex index prefs c;
  if Bool.eqb value old_value then mret prefs
  else
    info ← GetInfoForBrowserStateAtIndex index prefs c;
    SetInfoForBrowserStateAtIndex index (SetBoolean kIsAuthErrorKey value info) prefs c.

Definition GetUserDataDir c : FilePath := user_data_dir_ c.

(** ** browser_state_metrics.cc *)
Record Counts := { total : Z; signedin : Z; auth_errors : Z }.

Definition count_one (prefs : PrefService) c (i : Z) (counts : Counts) : chk Counts :=
  authenticated ← BrowserStateIsAuthenticatedAtIndex i prefs c;
  if (authenticated : bool) then
    auth_error ← BrowserStateIsAuthErrorAtIndex i prefs c;
    mret {| total := total counts; signedin := signedin counts + 1;
            auth_errors := if (auth_error : bool) then auth_errors counts + 1
                           else auth_errors counts |}
  else mret counts.

Definition CountBrowserStateInformation prefs c (counts : Counts) : chk (Counts * bool) :=
  let number_of_browser_states := GetNumberOfBrowserStates c in
  let counts := {| total := number_of_browser_states; signedin := signedin counts;
                   auth_errors := auth_errors counts |} in
  if number_of_browser_states =? 0 then mret (counts, false)
  else
    counts ← for_indices (Z.to_nat number_of_browser_states) 0 (count_one prefs c) counts;
    mret (counts, true).
End cache.

(** ** The manager *)
Class BrowserStateApi `{PathApi} := {
  (** [ChromeBrowserStateImpl] and the object its constructor makes *)
  ChromeBrowserState : Type;
  ChromeBrowserState_new : FilePath -> ChromeBrowserState;
  IsOffTheRecord : ChromeBrowserState -> bool;
  GetStatePath : ChromeBrowserState -> FilePath;
  GetOriginalChromeBrowserState : ChromeBrowserState -> ChromeBrowserState;
(** the off the record browser state, when there is one, and whether a
    browser state has an active state manager *)
OffTheRecordChromeBrowserState : ChromeBrowserState -> option ChromeBrowserState;
HasActiveStateManager : ChromeBrowserState -> bool;
(** GAIA id and email of the account signed in *)
account_info : ChromeBrowserState -> string * string;
(** the sizes of the files of a directory that match a pattern *)
file_sizes : FilePath -> string -> list Z;
}.

Record state_laws `{BrowserStateApi} : Prop := {
  new_state_path p : GetStatePath (ChromeBrowserState_new p) = p;
  new_on_the_record p : IsOffTheRecord (ChromeBrowserState_new p) = false;
}.

Section manager.
Context `{ValuesApi, !PrefsApi, !PathApi, !BrowserStateApi}.

Definition kIOSChromeInitialBrowserState : string := "Default".

Definition ComputeFilesSize (directory : FilePath) (pattern : string) : Z :=
  foldl Z.add 0 (file_sizes directory pattern).

Definition kBytesInOneMB : Z := 1024 * 1024.

(** The histograms recorded, in order: name and value. *)
Definition BrowserStateSizeTask (path : FilePath) : list (string * Z) :=
  (fun '(histogram, pattern) =>
     let size := ComputeFilesSize path pattern in
     let size_MB := wrap32 (Z.quot size kBytesInOneMB) in
     (histogram, size_MB)) <$>
  [ ("Profile.TotalSize", "*"); ("Profile.HistorySize", "History");
    ("Profile.TotalHistorySize", "History*"); ("Profile.CookiesSize", "Cookies");
    ("Profile.BookmarksSize", "Bookmarks"); ("Profile.FaviconsSize", "Favicons");
    ("Profile.TopSitesSize", "Top Sites"); ("Profile.VisitedLinksSize", "Visited Links");
    ("Profile.WebDataSize", "Web Data"); ("Profile.ExtensionSize", "Extension*") ]%string.

Inductive manager_effect :=
| InitForServices (state : ChromeBrowserState)
| PostSizeTask (path : FilePath) (seconds : Z)
| LogCounts (counts : Counts)
| SetActive (state : ChromeBrowserState) (active : bool).

(** [browser_states_] in the order of the map. *)
Record Manager := {
  browser_states_ : list (FilePath * ChromeBrowserState);
  browser_state_info_cache_ : option BrowserStateInfoCache;
  local_state : PrefService;
  effects : list manager_effect;
}.

#[export] Instance manager_fields : Fields Manager := fun m =>
  {| browser_states_ := browser_states_ m;
     browser_state_info_cache_ := browser_state_info_cache_ m;
     local_state := local_state m; effects := effects m |}.

Implicit Types (m : Manager) (path user_data_dir : FilePath).

Definition emit (e : manager_effect) m : Manager := m <| effects := effects m ++ [e] |>.

Definition Manager_new (prefs : PrefService) : Manager :=
  {| browser_states_ := []; browser_state_info_cache_ := None; local_state := prefs;
     effects := [] |}.

(** [browser_states_.find] and [.insert] *)
Definition find_state path m : option ChromeBrowserState :=
  snd <$> (snd <$> list_find (fun e => e.1 = path) (browser_states_ m)).

Fixpoint map_insert path (state : ChromeBrowserState)
    (map : list (FilePath * ChromeBrowserState)) :=
  match map with
  | [] => [(path, state)]
  | e :: map' => if FilePath_lt path e.1 then (path, state) :: map
                 else e :: map_insert path state map'
  end.

(** [user_data_dir] is [GetUserDataDir()] of the anonymous namespace. *)
Definition GetBrowserStateInfoCache user_data_dir m : Manager * BrowserStateInfoCache :=
  match browser_state_info_cache_ m with
  | Some cache => (m, cache)
  | None =>
      let cache := BrowserStateInfoCache_new (local_state m) user_data_dir in
      (m <| browser_state_info_cache_ := Some cache |>, cache)
  end.

Definition AddBrowserStateToCache user_data_dir (browser_state : ChromeBrowserState) m
    : chk Manager :=
  _ ← dcheck (negb (IsOffTheRecord browser_state));
  let '(m, cache) := GetBrowserStateInfoCache user_data_dir m in
  if negb (bool_decide (DirName (GetStatePath browser_state) = GetUserDataDir cache))
  then mret m
  else
    let '(gaia, username) := account_info browser_state in
    browser_state_index ←
      GetIndexOfBrowserStateWithPath (GetStatePath browser_state) cache;
    match browser_state_index with
    | Some index =>
        prefs ← SetAuthInfoOfBrowserStateAtIndex index gaia username (local_state m) cache;
        mret (m <| local_state := prefs |>)
    | None =>
        '(prefs, cache) ←
          AddBrowserState (GetStatePath browser_state) gaia username (local_state m) cache;
        mret (m <| local_state := prefs |> <| browser_state_info_cache_ := Some cache |>)
    end.

Definition LogNumberOfBrowserStates user_data_dir m : chk Manager :=
  let '(m, cache) := GetBrowserStateInfoCache user_data_dir m in
  '(counts, _) ← CountBrowserStateInformation (local_state m) cache
                   {| total := 0; signedin := 0; auth_errors := 0 |};
  mret (emit (LogCounts counts) m).

Definition DoFinalInit user_data_dir (browser_state : ChromeBrowserState) m : chk Manager :=
  let m := emit (InitForServices browser_state) m in
  m ← AddBrowserStateToCache user_data_dir browser_state m;
  let path := GetStatePath (GetOriginalChromeBrowserState browser_state) in
  let m := emit (PostSizeTask path 112) m in
  LogNumberOfBrowserStates user_data_dir m.

Definition GetBrowserState user_data_dir path m : chk (Manager * ChromeBrowserState) :=
  match find_state path m with
  | Some browser_state => mret (m, browser_state)
  | None =>
      let browser_state_impl := ChromeBrowserState_new path in
      _ ← dcheck (negb (IsOffTheRecord browser_state_impl));
      let m := m <| browser_states_ :=
                      map_insert path browser_state_impl (browser_states_ m) |> in
      m ← DoFinalInit user_data_dir browser_state_impl m;
      mret (m, browser_state_impl)
  end.

(** [last_used] is the preference [kBrowserStateLastUsed]. *)
Definition GetLastUsedBrowserStateDir user_data_dir (last_used : string) : FilePath :=
  let name := if String.eqb last_used "" then kIOSChromeInitialBrowserState
              else last_used in
  AppendASCII user_data_dir name.

Definition GetLastUsedBrowserState user_data_dir (last_used : string) m
    : chk (Manager * ChromeBrowserState) :=
  GetBrowserState user_data_dir (GetLastUsedBrowserStateDir user_data_dir last_used) m.

Definition GetLoadedBrowserStates m : list ChromeBrowserState := (browser_states_ m).*2.

Definition deactivate (state : ChromeBrowserState) m : Manager :=
  let m := emit (SetActive state false) m in
  match OffTheRecordChromeBrowserState state with
  | None => m
  | Some otr_browser_state =>
      if negb (HasActiveStateManager otr_browser_state) then m
      else emit (SetActive otr_browser_state false) m
  end.

(** The destructor. *)
Definition Manager_delete m : Manager :=
  foldl (fun m state => deactivate state m) m (GetLoadedBrowserStates m).
End manager.

(** ** The keys: distinct and in order *)
Abbreviation sorted := (StronglySorted string_lt).

Lemma sorted_nodup keys : sorted keys -> NoDup keys.
Proof.
  induction 1 as [| k keys Hs IH Hall]; constructor; [| done].
  intros Hin. rewrite Forall_forall in Hall. by apply (string_lt_irrefl k), Hall.
Qed.

Lemma elem_of_insert key keys k :
  k ∈ insert_upper_bound key keys <-> k = key \/ k ∈ keys.
Proof.
  induction keys as [| k' keys IH]; simpl.
  - by rewrite elem_of_cons.
  - destruct (String.ltb key k'); rewrite !elem_of_cons; [done |]. rewrite IH. tauto.
Qed.

Lemma insert_sorted key keys :
  key ∉ keys -> sorted keys -> sorted (insert_upper_bound key keys).
Proof.
  intros Hnew Hs. induction Hs as [| k keys Hs IH Hall]; simpl.
  - by repeat constructor.
  - apply not_elem_of_cons in Hnew as [Hne Hnew].
    destruct (String.ltb key k) eqn:Hlt.
    + apply string_ltb_lt in Hlt. constructor; [by constructor |].
      constructor; [done |]. eapply Forall_impl; [done |].
      intros k' Hk'. by eapply string_lt_trans.
    + constructor; [by apply IH |]. apply Forall_forall. intros k' [-> | Hin]%elem_of_insert.
      * unfold string_lt, String.ltb in *. rewrite String.compare_antisym.
        destruct (String.compare key k) eqn:Hc; [| done | done].
        apply String.compare_eq_iff in Hc. congruence.
      * rewrite Forall_forall in Hall. by apply Hall.
Qed.

Lemma erase_found_spec key keys :
  sorted keys -> key ∈ keys ->
  exists keys', erase_found key keys = Ok keys' /\ sorted keys' /\
    forall k, k ∈ keys' <-> k ∈ keys /\ k <> key.
Proof.
  intros Hs Hin. induction Hs as [| k keys Hs IH Hall]; [by apply elem_of_nil in Hin |].
  pose proof (sorted_nodup (k :: keys) ltac:(by constructor)) as Hnd.
  apply NoDup_cons in Hnd as [Hk _]. simpl.
  destruct (String.eqb_spec k key) as [-> | Hne].
  - exists keys. split; [done |]. split; [done |]. intros k'. rewrite elem_of_cons.
    split; [intros Hin'; split; [by right |] | by intros [[-> | ?] ?]].
    intros ->. by apply Hk.
  - apply elem_of_cons in Hin as [-> | Hin]; [done |].
    destruct (IH Hin) as (keys' & Hrun & Hs' & Hspec). rewrite Hrun. simpl.
    exists (k :: keys'). split; [done |]. split.
    + constructor; [done |]. apply Forall_forall. intros k' Hk'%Hspec.
      rewrite Forall_forall in Hall. by apply Hall, Hk'.
    + intros k'. rewrite !elem_of_cons, Hspec. split; [| tauto].
      intros [-> | ?]; [| tauto]. by split; [left |].
Qed.

(** ** The invariant of the cache *)
Section cache_invariant.
Context `{ValuesApi, !PrefsApi, !PathApi} (Hvalues : value_laws) (Hprefs : prefs_laws).
Implicit Types (c : BrowserStateInfoCache) (prefs : PrefService) (gone : list string).

(** A registered preference with a dictionary for each browser state. *)
Definition stored_ok prefs : Prop :=
  is_Some (GetDictionary_pref prefs kBrowserStateInfoCache) /\
  forall k v, FindKey (cache_of prefs) k = Some v -> is_Some (as_dictionary v).

(** The keys in the cache are in order and are those of the local state, but for
    [left_behind], which are in the local state only. *)
Record cache_ok (left_behind : list string) prefs c : Prop := {
  cache_stored : stored_ok prefs;
  cache_sorted : sorted (sorted_keys_ c);
  cache_agrees k :
    is_Some (FindKey (cache_of prefs) k) <-> k ∈ sorted_keys_ c \/ k ∈ left_behind;
  cache_apart k : k ∈ left_behind -> k ∉ sorted_keys_ c /\ no_dot k = false;
}.

Lemma add_keys_dir ks c :
  user_data_dir_ (foldl (fun c key => AddBrowserStateCacheKey key c) c ks) =
  user_data_dir_ c.
Proof. revert c. induction ks as [| k ks IH]; intros c; simpl; [done |]. by rewrite IH. Qed.

Lemma new_user_data_dir prefs dir :
  user_data_dir_ (BrowserStateInfoCache_new prefs dir) = dir.
Proof. apply add_keys_dir. Qed.

Lemma new_cache_keys prefs dir :
  sorted (sorted_keys_ (BrowserStateInfoCache_new prefs dir)) /\
  forall k, k ∈ sorted_keys_ (BrowserStateInfoCache_new prefs dir) <->
            is_Some (FindKey (cache_of prefs) k).
Proof.
  unfold BrowserStateInfoCache_new.
  set (c0 := {| sorted_keys_ := []; user_data_dir_ := dir; observer_list_ := []; notified := [] |}).
  assert (Hgen : forall ks c, NoDup ks -> (forall k, k ∈ ks -> k ∉ sorted_keys_ c) ->
    sorted (sorted_keys_ c) ->
    let c' := foldl (fun c key => AddBrowserStateCacheKey key c) c ks in
    sorted (sorted_keys_ c') /\
    forall k, k ∈ sorted_keys_ c' <-> k ∈ ks \/ k ∈ sorted_keys_ c).
  { induction ks as [| k ks IH]; intros c Hnd Hnew Hs; simpl.
    - split; [done |]. intros k. by rewrite elem_of_nil; tauto.
    - apply NoDup_cons in Hnd as [Hk Hnd].
      destruct (IH (AddBrowserStateCacheKey k c) Hnd) as [Hs' Hin'].
      + intros k' Hk'. simpl. rewrite elem_of_insert. intros [-> | Hold]; [done |].
        by apply (Hnew k'); [right |].
      + simpl. apply insert_sorted; [apply Hnew; by left | done].
      + split; [exact Hs' |]. intros k'. rewrite Hin'. simpl.
        rewrite elem_of_insert, elem_of_cons. tauto. }
  destruct (Hgen (Keys (cache_of prefs)) c0) as [Hs Hin].
  - apply (keys_distinct Hvalues).
  - intros k _. apply not_elem_of_nil.
  - constructor.
  - split; [done |]. intros k. rewrite Hin, (keys_found Hvalues).
    simpl. rewrite elem_of_nil. tauto.
Qed.

Lemma new_cache_ok prefs dir :
  stored_ok prefs -> cache_ok [] prefs (BrowserStateInfoCache_new prefs dir).
Proof.
  intros Hstored. destruct (new_cache_keys prefs dir) as [Hs Hk].
  split; [done | done | | by intros k ?%elem_of_nil].
  intros k. rewrite Hk, elem_of_nil. tauto.
Qed.

Lemma cache_of_update f prefs : cache_of (update_cache f prefs) = f (cache_of prefs).
Proof. unfold cache_of at 1, update_cache. by rewrite (get_set_pref Hprefs). Qed.

Lemma stored_update f prefs :
  (forall k v, FindKey (f (cache_of prefs)) k = Some v -> is_Some (as_dictionary v)) ->
  stored_ok (update_cache f prefs).
Proof.
  intros Hf. split; [| by rewrite cache_of_update].
  unfold update_cache. rewrite (get_set_pref Hprefs). by eexists.
Qed.

Lemma set_key_found key (info : DictionaryValue) d k v :
  FindKey (SetKey key (of_dictionary info) d) k = Some v ->
  (k = key /\ as_dictionary v = Some info) \/ (k <> key /\ FindKey d k = Some v).
Proof.
  destruct (decide (k = key)) as [-> | Hne].
  - rewrite (find_set_key Hvalues). intros [= <-]. left. split; [done |].
    apply (dictionary_back Hvalues).
  - rewrite (find_set_key_ne Hvalues) by done. by right.
Qed.

Lemma stored_set_key key (info : DictionaryValue) prefs :
  stored_ok prefs -> stored_ok (update_cache (SetKey key (of_dictionary info)) prefs).
Proof.
  intros [_ Hd]. apply stored_update. intros k v [[_ Hv] | [_ Hv]]%set_key_found; eauto.
Qed.

Lemma FindKey_is_Some key (info : DictionaryValue) d k :
  is_Some (FindKey (SetKey key (of_dictionary info) d) k) <->
  k = key \/ is_Some (FindKey d k).
Proof.
  destruct (decide (k = key)) as [-> | Hne].
  - rewrite (find_set_key Hvalues). naive_solver.
  - rewrite (find_set_key_ne Hvalues) by done. naive_solver.
Qed.

(** The dictionary of the browser state at an index. *)
Lemma info_at gone prefs c index :
  cache_ok gone prefs c -> 0 <= index < GetNumberOfBrowserStates c ->
  exists key v info, vget (sorted_keys_ c) index = Ok key /\
    FindKey (cache_of prefs) key = Some v /\ as_dictionary v = Some info /\
    GetInfoForBrowserStateAtIndex index prefs c = Ok info.
Proof.
  intros Hok Hindex. destruct (vget_in_range _ _ Hindex) as [key Hkey].
  assert (key ∈ sorted_keys_ c) as Hin.
  { apply vget_Ok in Hkey as [_ Hkey]. by eapply list_elem_of_lookup_2. }
  assert (Hf : is_Some (FindKey (cache_of prefs) key)) by (apply (cache_agrees _ _ _ Hok); by left).
  destruct Hf as [v Hv].
  destruct (proj2 (cache_stored _ _ _ Hok) key v Hv) as [info Hinfo].
  exists key, v, info. split_and!; try done.
  unfold GetInfoForBrowserStateAtIndex.
  rewrite dcheck_true by (apply Z.ltb_lt; lia). rewrite bind_Ok.
  unfold cache_of in Hv. destruct (proj1 (cache_stored _ _ _ Hok)) as [d Hd].
  rewrite Hd in Hv |- *. simpl in Hv |- *. rewrite Hkey. simpl. rewrite Hv. simpl.
  by rewrite Hinfo.
Qed.

Lemma set_info_ok gone prefs c index info :
  cache_ok gone prefs c -> 0 <= index < GetNumberOfBrowserStates c ->
  exists prefs', SetInfoForBrowserStateAtIndex index info prefs c = Ok prefs' /\
    cache_ok gone prefs' c /\ GetInfoForBrowserStateAtIndex index prefs' c = Ok info.
Proof.
  intros Hok Hindex. destruct (info_at gone prefs c index Hok Hindex) as (key & v & old & Hkey & Hv & _).
  unfold SetInfoForBrowserStateAtIndex. rewrite Hkey, bind_Ok.
  set (prefs' := update_cache _ prefs).
  assert (Hok' : cache_ok gone prefs' c).
  { split; [by apply stored_set_key, (cache_stored _ _ _ Hok) | apply (cache_sorted _ _ _ Hok) | |
      apply (cache_apart _ _ _ Hok)].
    intros k. subst prefs'. rewrite cache_of_update, FindKey_is_Some, <- (cache_agrees _ _ _ Hok).
    split; [intros [-> |]; [by eexists | done] | by right]. }
  exists prefs'. split; [done |]. split; [done |].
  destruct (info_at gone prefs' c index Hok' Hindex) as (key' & v' & info' & Hkey' & Hv' & Hi' & Hget).
  assert (key' = key) as -> by congruence.
  subst prefs'. rewrite cache_of_update, (find_set_key Hvalues) in Hv'.
  injection Hv' as <-. rewrite (dictionary_back Hvalues) in Hi'. by injection Hi' as <-.
Qed.

Lemma index_found path c :
  DirName path = user_data_dir_ c ->
  GetIndexOfBrowserStateWithPath path c =
  Ok (Z.of_nat <$> find_index (fun key => String.eqb key (BaseNameAsASCII path))
                    (sorted_keys_ c)).
Proof.
  intros Hdir. unfold GetIndexOfBrowserStateWithPath, CacheKeyFromBrowserStatePath.
  rewrite bool_decide_eq_true_2 by done. simpl.
  by rewrite bool_decide_eq_true_2 by done.
Qed.

Lemma index_in_range path c i :
  GetIndexOfBrowserStateWithPath path c = Ok (Some i) ->
  DirName path = user_data_dir_ c /\ 0 <= i < GetNumberOfBrowserStates c /\
  vget (sorted_keys_ c) i = Ok (BaseNameAsASCII path).
Proof.
  intros Hi. assert (DirName path = user_data_dir_ c) as Hdir.
  { unfold GetIndexOfBrowserStateWithPath in Hi. by case_bool_decide. }
  rewrite index_found in Hi by done.
  destruct (find_index _ _) as [n |] eqn:Hn; simplify_eq/=.
  apply find_index_Some in Hn as [(k & Hk & Heq) _]. apply String.eqb_eq in Heq as ->.
  assert (vget (sorted_keys_ c) (Z.of_nat n) = Ok (BaseNameAsASCII path)) as Hget.
  { apply vget_Ok. rewrite Nat2Z.id. split; [lia | done]. }
  split; [done |]. split; [by eapply vget_range | done].
Qed.

Lemma index_of_key path c :
  DirName path = user_data_dir_ c ->
  BaseNameAsASCII path ∈ sorted_keys_ c ->
  exists i, GetIndexOfBrowserStateWithPath path c = Ok (Some i).
Proof.
  intros Hdir Hin. rewrite index_found by done.
  destruct (find_index _ _) eqn:Hn; [by eexists |].
  apply list_elem_of_lookup_1 in Hin as [j Hj].
  pose proof (proj1 (find_index_None _ _) Hn j _ Hj) as Hne.
  simpl in Hne. by rewrite String.eqb_refl in Hne.
Qed.

Lemma index_not_found path c :
  DirName path = user_data_dir_ c ->
  GetIndexOfBrowserStateWithPath path c = Ok None -> BaseNameAsASCII path ∉ sorted_keys_ c.
Proof.
  intros Hdir Hnone Hin. destruct (index_of_key path c Hdir Hin). congruence.
Qed.

Lemma AddBrowserState_ok gone path gaia user prefs c :
  cache_ok gone prefs c -> DirName path = user_data_dir_ c ->
  GetIndexOfBrowserStateWithPath path c = Ok None ->
  exists prefs' c' i, AddBrowserState path gaia user prefs c = Ok (prefs', c') /\
    cache_ok (filter (fun k => k <> BaseNameAsASCII path) gone) prefs' c' /\
    user_data_dir_ c' = user_data_dir_ c /\
    GetIndexOfBrowserStateWithPath path c' = Ok (Some i) /\
    GetInfoForBrowserStateAtIndex i prefs' c' = Ok (new_info gaia user).
Proof.
  intros Hok Hdir Hnone. pose proof (index_not_found path c Hdir Hnone) as Hnew.
  unfold AddBrowserState, CacheKeyFromBrowserStatePath.
  rewrite dcheck_true by (by apply bool_decide_eq_true_2). rewrite !bind_Ok.
  set (key := BaseNameAsASCII path) in *. set (prefs' := update_cache _ prefs).
  set (c' := notify _ _).
  assert (Hok' : cache_ok (filter (fun k => k <> key) gone) prefs' c').
  { split; simpl.
    - by apply stored_set_key, (cache_stored _ _ _ Hok).
    - by apply insert_sorted, (cache_sorted _ _ _ Hok).
    - intros k. subst prefs'.
      rewrite elem_of_insert, cache_of_update, FindKey_is_Some, (cache_agrees _ _ _ Hok),
        list_elem_of_filter. destruct (decide (k = key)); tauto.
    - intros k [Hk Hin]%list_elem_of_filter. rewrite elem_of_insert.
      destruct (cache_apart _ _ _ Hok k Hin). tauto. }
  destruct (index_of_key path c') as [i Hi]; [done | simpl; apply elem_of_insert; by left |].
  exists prefs', c', i. split_and!; try done.
  destruct (index_in_range _ _ _ Hi) as (_ & Hrange & Hkey).
  destruct (info_at _ prefs' c' i Hok' Hrange) as (key' & v & info & Hkey' & Hv & Hinfo & Hget).
  assert (key' = key) as -> by (subst key; congruence).
  subst prefs'. rewrite cache_of_update, (find_set_key Hvalues) in Hv. injection Hv as <-.
  rewrite (dictionary_back Hvalues) in Hinfo. by injection Hinfo as <-.
Qed.

(** What is left behind after the removal of a browser state: its key, when it
    has a dot. *)
Definition left_after_removal key (gone : list string) : list string :=
  if no_dot key then gone else key :: gone.

Lemma removed_path_ok key prefs :
  stored_ok prefs ->
  let prefs' := update_cache (RemovePath key) prefs in
  stored_ok prefs' /\
  forall k, is_Some (FindKey (cache_of prefs') k) <->
    is_Some (FindKey (cache_of prefs) k) /\ (k = key -> no_dot key = false).
Proof.
  intros Hstored. cbv zeta. rewrite cache_of_update. destruct (no_dot key) eqn:Hdot.
  - assert (Hfind : forall k, FindKey (RemovePath key (cache_of prefs)) k =
              if decide (k = key) then None else FindKey (cache_of prefs) k).
    { intros k. destruct (decide (k = key)) as [-> | Hne]; [by apply (remove_path Hvalues) |].
      by apply (remove_path_ne Hvalues). }
    split.
    + apply stored_update. intros k v. rewrite Hfind. case_decide; [done |]. apply Hstored.
    + intros k. rewrite Hfind. case_decide; [| tauto].
      split; [by intros [] | intros [_ Hk]; by specialize (Hk ltac:(done))].
  - split.
    + apply stored_update. intros k v Hv.
      assert (Hd : is_Some (FindKey (cache_of prefs) k ≫= as_dictionary)).
      { destruct (proj1 (remove_dotted_found Hvalues key k (cache_of prefs) Hdot)) as [v' Hv'];
          [by eexists |]. rewrite Hv'. by apply (proj2 Hstored k). }
      apply (remove_dotted_dictionary Hvalues key k _ Hdot) in Hd. by rewrite Hv in Hd.
    + intros k. rewrite (remove_dotted_found Hvalues) by done. tauto.
Qed.

Lemma RemoveBrowserState_ok gone path prefs c i :
  cache_ok gone prefs c -> GetIndexOfBrowserStateWithPath path c = Ok (Some i) ->
  exists prefs' c', RemoveBrowserState path prefs c = Ok (prefs', c') /\
    cache_ok (left_after_removal (BaseNameAsASCII path) gone) prefs' c' /\
    GetIndexOfBrowserStateWithPath path c' = Ok None.
Proof.
  intros Hok Hi. destruct (index_in_range _ _ _ Hi) as (Hdir & Hrange & Hkey).
  assert (BaseNameAsASCII path ∈ sorted_keys_ c) as Hin.
  { apply vget_Ok in Hkey as [_ Hkey]. by eapply list_elem_of_lookup_2. }
  destruct (erase_found_spec _ _ (cache_sorted _ _ _ Hok) Hin) as (keys' & Herase & Hs & Hspec).
  unfold RemoveBrowserState, CacheKeyFromBrowserStatePath. rewrite Hi, bind_Ok.
  rewrite dcheck_true by (by apply bool_decide_eq_true_2).
  rewrite !bind_Ok, Herase, bind_Ok.
  set (key := BaseNameAsASCII path) in *.
  destruct (removed_path_ok key prefs (cache_stored _ _ _ Hok)) as [Hstored Hfind].
  set (prefs' := update_cache _ prefs) in *. set (c' := notify _ _).
  exists prefs', c'. split; [done |]. split.
  - unfold left_after_removal. split; simpl; [done | done | |]; intros k.
    + rewrite Hfind, Hspec, (cache_agrees _ _ _ Hok).
      destruct (no_dot key) eqn:Hdot; rewrite ?elem_of_cons.
      * split.
        -- intros [[?|?] Hk]; [left | by right]. split; [done |]. intros ->. by specialize (Hk eq_refl).
        -- intros [[Hk Hne] | Hk]; [by split; [left | intros ->] |]. split; [by right |].
           intros ->. by destruct (cache_apart _ _ _ Hok key Hk).
      * split; [| intros [[? ?] | [-> | ?]]; split; tauto].
        intros [[?|?] _]; [| tauto]. destruct (decide (k = key)); tauto.
    + rewrite Hspec. destruct (no_dot key) eqn:Hdot; rewrite ?elem_of_cons.
      * intros Hk. destruct (cache_apart _ _ _ Hok k Hk). tauto.
      * intros [-> | Hk]; [tauto |]. destruct (cache_apart _ _ _ Hok k Hk). tauto.
  - rewrite index_found by done. simpl. destruct (find_index _ _) eqn:Hn; [| done].
    apply find_index_Some in Hn as [(k & Hk & Heq) _]. apply String.eqb_eq in Heq as ->.
    apply list_elem_of_lookup_2, Hspec in Hk as [_ []]. done.
Qed.

Lemma gaia_run index prefs c info :
  GetInfoForBrowserStateAtIndex index prefs c = Ok info ->
  GetGAIAIdOfBrowserStateAtIndex index prefs c = Ok (or_keep (GetString info kGAIAIdKey) "") /\
  GetUserNameOfBrowserStateAtIndex index prefs c =
    Ok (or_keep (GetString info kUserNameKey) "") /\
  BrowserStateIsAuthErrorAtIndex index prefs c =
    Ok (or_keep (GetBoolean info kIsAuthErrorKey) false).
Proof.
  intros Hinfo. unfold GetGAIAIdOfBrowserStateAtIndex, GetUserNameOfBrowserStateAtIndex,
    BrowserStateIsAuthErrorAtIndex. by rewrite Hinfo.
Qed.

(** After a setter, the browser state has the account it was given. *)
Definition has_account index (gaia user : string) prefs c : Prop :=
  GetGAIAIdOfBrowserStateAtIndex index prefs c = Ok gaia /\
  GetUserNameOfBrowserStateAtIndex index prefs c = Ok user.

Lemma new_info_account index gaia user prefs c :
  GetInfoForBrowserStateAtIndex index prefs c = Ok (new_info gaia user) ->
  has_account index gaia user prefs c.
Proof.
  intros (Hg & Hu & _)%gaia_run. unfold has_account, new_info in *. rewrite Hg, Hu.
  unfold GetString, SetString. by read_values Hvalues; simpl; read_values Hvalues.
Qed.

Lemma SetAuthInfo_ok gone index gaia user prefs c :
  cache_ok gone prefs c -> 0 <= index < GetNumberOfBrowserStates c ->
  exists prefs', SetAuthInfoOfBrowserStateAtIndex index gaia user prefs c = Ok prefs' /\
    cache_ok gone prefs' c /\ has_account index gaia user prefs' c.
Proof.
  intros Hok Hindex.
  destruct (info_at gone prefs c index Hok Hindex) as (key & v & info & _ & _ & _ & Hinfo).
  destruct (gaia_run _ _ _ _ Hinfo) as (Hg & Hu & _).
  unfold SetAuthInfoOfBrowserStateAtIndex. rewrite Hg, Hu, !bind_Ok.
  destruct (String.eqb_spec gaia (or_keep (GetString info kGAIAIdKey) "")) as [-> |],
    (String.eqb_spec user (or_keep (GetString info kUserNameKey) "")) as [-> |]; simpl;
    [by exists prefs |..]; rewrite Hinfo, bind_Ok;
    match goal with |- context [SetInfoForBrowserStateAtIndex _ ?i _ _] =>
      destruct (set_info_ok gone prefs c index i Hok Hindex) as (prefs' & Hrun & Hok' & Hget) end;
    exists prefs'; (split; [done |]; split; [done |]);
    apply gaia_run in Hget as (Hg' & Hu' & _); unfold has_account; rewrite Hg', Hu';
    unfold GetString, SetString; by read_values Hvalues; simpl; read_values Hvalues.
Qed.

Lemma SetAuthError_ok gone index value prefs c :
  cache_ok gone prefs c -> 0 <= index < GetNumberOfBrowserStates c ->
  exists prefs', SetBrowserStateIsAuthErrorAtIndex index value prefs c = Ok prefs' /\
    cache_ok gone prefs' c /\ BrowserStateIsAuthErrorAtIndex index prefs' c = Ok value.
Proof.
  intros Hok Hindex.
  destruct (info_at gone prefs c index Hok Hindex) as (key & v & info & _ & _ & _ & Hinfo).
  destruct (gaia_run _ _ _ _ Hinfo) as (_ & _ & He).
  unfold SetBrowserStateIsAuthErrorAtIndex. rewrite He, bind_Ok.
  destruct (Bool.eqb value _) eqn:Heq.
  - apply Bool.eqb_prop in Heq as ->. by exists prefs.
  - rewrite Hinfo, bind_Ok.
    destruct (set_info_ok gone prefs c index (SetBoolean kIsAuthErrorKey value info) Hok Hindex)
      as (prefs' & Hrun & Hok' & Hget).
    exists prefs'. split; [done |]. split; [done |].
    apply gaia_run in Hget as (_ & _ & ->). by rewrite (GetBoolean_set Hvalues).
Qed.

(** ** Histories *)
Inductive cache_request :=
| QAdd (path : FilePath) (gaia user : string)
| QRemove (path : FilePath)
| QSetAuth (index : Z) (gaia user : string)
| QSetError (index : Z) (value : bool)
| QAddObserver (o : nat)
| QRemoveObserver (o : nat).

Definition cache_step (q : cache_request) prefs c : chk (PrefService * BrowserStateInfoCache) :=
  match q with
  | QAdd path gaia user => AddBrowserState path gaia user prefs c
  | QRemove path => RemoveBrowserState path prefs c
  | QSetAuth index gaia user =>
      prefs ← SetAuthInfoOfBrowserStateAtIndex index gaia user prefs c; mret (prefs, c)
  | QSetError index value =>
      prefs ← SetBrowserStateIsAuthErrorAtIndex index value prefs c; mret (prefs, c)
  | QAddObserver o => c ← AddObserver o c; mret (prefs, c)
  | QRemoveObserver o => mret (prefs, RemoveObserver o c)
  end.

(** What the callers must respect: a browser state is added once, from the
    directory of the cache, and removed when it is there; an index is one of the
    cache, and an observer is added once. *)
Definition cache_request_ok (q : cache_request) c : Prop :=
  match q with
  | QAdd path _ _ => DirName path = user_data_dir_ c /\
      GetIndexOfBrowserStateWithPath path c = Ok None
  | QRemove path => exists i, GetIndexOfBrowserStateWithPath path c = Ok (Some i)
  | QSetAuth index _ _ | QSetError index _ => 0 <= index < GetNumberOfBrowserStates c
  | QAddObserver o => o ∉ observer_list_ c
  | QRemoveObserver _ => True
  end.

(** The keys that are left behind in the local state by a request: those of the
    browser states that were removed and have a dot in their name, until they are
    added again. *)
Definition left_behind (q : cache_request) (gone : list string) : list string :=
  match q with
  | QAdd path _ _ => filter (fun k => k <> BaseNameAsASCII path) gone
  | QRemove path => left_after_removal (BaseNameAsASCII path) gone
  | _ => gone
  end.

Inductive cache_history : list string -> PrefService -> BrowserStateInfoCache -> Prop :=
| history_new prefs dir : stored_ok prefs ->
    cache_history [] prefs (BrowserStateInfoCache_new prefs dir)
| history_step gone prefs c q prefs' c' : cache_history gone prefs c ->
    cache_request_ok q c -> cache_step q prefs c = Ok (prefs', c') ->
    cache_history (left_behind q gone) prefs' c'.

Lemma cache_step_ok gone q prefs c :
  cache_ok gone prefs c -> cache_request_ok q c ->
  exists prefs' c', cache_step q prefs c = Ok (prefs', c') /\ cache_ok (left_behind q gone) prefs' c'.
Proof.
  intros Hok Hq. destruct q as [path gaia user | path | index gaia user | index value | o | o];
    cbn [cache_step cache_request_ok left_behind] in *.
  - destruct Hq as [Hdir Hnone].
    destruct (AddBrowserState_ok gone path gaia user prefs c Hok Hdir Hnone)
      as (prefs' & c' & _ & Hrun & Hok' & _). eauto.
  - destruct Hq as [i Hi].
    destruct (RemoveBrowserState_ok gone path prefs c i Hok Hi) as (prefs' & c' & Hrun & Hok' & _).
    eauto.
  - destruct (SetAuthInfo_ok gone index gaia user prefs c Hok Hq) as (prefs' & -> & Hok' & _).
    simpl. eauto.
  - destruct (SetAuthError_ok gone index value prefs c Hok Hq) as (prefs' & -> & Hok' & _).
    simpl. eauto.
  - unfold AddObserver. rewrite bool_decide_eq_false_2 by done. simpl.
    eexists _, _. split; [done |]. destruct Hok. by split.
  - eexists _, _. split; [done |]. destruct Hok. by split.
Qed.

Lemma history_ok gone prefs c : cache_history gone prefs c -> cache_ok gone prefs c.
Proof.
  induction 1 as [prefs dir Hstored | gone prefs c q prefs' c' _ IH Hq Hrun].
  - by apply new_cache_ok.
  - destruct (cache_step_ok gone q prefs c IH Hq) as (prefs1 & c1 & Hrun1 & Hok). congruence.
Qed.

(** C30. In every history of a cache, whose callers add a browser state once and
    name those that are there, every request succeeds, the keys stay sorted and
    without duplicates, each has a dictionary of its own in the local state, and
    the getters can be called at every index.  The local state has these keys and
    those of the browser states that were removed and whose name has a dot, as
    long as they were not added again: [RemoveBrowserState] takes the key for a
    path.  The cache that is made at the next start has all keys of the local
    state, so exactly these browser states are there again. *)
Theorem cache_agrees_with_prefs gone prefs c :
  cache_history gone prefs c ->
  sorted (sorted_keys_ c) /\ NoDup (sorted_keys_ c) /\
  (forall k, is_Some (FindKey (cache_of prefs) k) <-> k ∈ sorted_keys_ c \/ k ∈ gone) /\
  (forall k, k ∈ gone -> k ∉ sorted_keys_ c /\ no_dot k = false) /\
  (forall dir k, k ∈ sorted_keys_ (BrowserStateInfoCache_new prefs dir) <->
                 k ∈ sorted_keys_ c \/ k ∈ gone) /\
  (forall index, 0 <= index < GetNumberOfBrowserStates c ->
     is_ok (GetGAIAIdOfBrowserStateAtIndex index prefs c) /\
     is_ok (GetUserNameOfBrowserStateAtIndex index prefs c) /\
     is_ok (BrowserStateIsAuthErrorAtIndex index prefs c)) /\
  (forall q, cache_request_ok q c -> is_ok (cache_step q prefs c)).
Proof.
  intros Hok%history_ok. split; [apply (cache_sorted _ _ _ Hok) |].
  split; [apply sorted_nodup, (cache_sorted _ _ _ Hok) |].
  split; [apply (cache_agrees _ _ _ Hok) |]. split; [apply (cache_apart _ _ _ Hok) |].
  split; [intros dir k; by rewrite (proj2 (new_cache_keys prefs dir)), (cache_agrees _ _ _ Hok) |].
  split.
  - intros index Hindex.
    destruct (info_at gone prefs c index Hok Hindex) as (key & v & info & _ & _ & _ & Hinfo).
    apply gaia_run in Hinfo as (-> & -> & ->). split_and!; by eexists.
  - intros q Hq. destruct (cache_step_ok gone q prefs c Hok Hq) as (prefs' & c' & -> & _).
    by eexists.
Qed.

(** [RemoveBrowserState] takes the key for a path with dots: the dictionary
    of a browser state whose name has a dot stays in the local state, so the
    next cache made from it (the next start of the program) has it again. *)
Lemma dotted_browser_state_comes_back gone path prefs c i :
  cache_ok gone prefs c -> GetIndexOfBrowserStateWithPath path c = Ok (Some i) ->
  no_dot (BaseNameAsASCII path) = false ->
  exists prefs' c', RemoveBrowserState path prefs c = Ok (prefs', c') /\
    GetIndexOfBrowserStateWithPath path c' = Ok None /\
    exists i',
      GetIndexOfBrowserStateWithPath path
        (BrowserStateInfoCache_new prefs' (user_data_dir_ c)) = Ok (Some i').
Proof.
  intros Hok Hi Hdot. destruct (index_in_range _ _ _ Hi) as (Hdir & _ & _).
  destruct (RemoveBrowserState_ok gone path prefs c i Hok Hi) as (prefs' & c' & Hrun & Hok' & Hnone).
  exists prefs', c'. split_and!; try done.
  apply index_of_key; [by rewrite new_user_data_dir |].
  apply (proj2 (new_cache_keys prefs' (user_data_dir_ c))), (cache_agrees _ _ _ Hok').
  unfold left_after_removal. rewrite Hdot. right. left.
Qed.

(** ** What is counted *)
Lemma count_run gone prefs c counts :
  cache_ok gone prefs c -> signedin counts = 0 -> auth_errors counts = 0 ->
  exists counts' b, CountBrowserStateInformation prefs c counts = Ok (counts', b) /\
    total counts' = GetNumberOfBrowserStates c /\
    0 <= auth_errors counts' <= signedin counts' /\ signedin counts' <= total counts'.
Proof.
  intros Hok Hs He. unfold CountBrowserStateInformation.
  destruct (Z.eqb_spec (GetNumberOfBrowserStates c) 0) as [Hz | Hz].
  - rewrite Hs, He, Hz. eexists _, _. split; [done |]. simpl. lia.
  - set (n := GetNumberOfBrowserStates c) in *.
    assert (0 <= n) by apply vsize_nonneg.
    destruct (for_indices_Ok
      (fun i (k : Counts) => total k = n /\ 0 <= auth_errors k <= signedin k /\ signedin k <= i)
      (count_one prefs c) (Z.to_nat n) 0
      {| total := n; signedin := signedin counts; auth_errors := auth_errors counts |})
      as (counts' & Hrun & Ht & Ha & Hi).
    + simpl. lia.
    + intros i k Hi (Ht & Ha & Hk).
      destruct (info_at gone prefs c i Hok) as (key & v & info & _ & _ & _ & Hinfo);
        [fold n; lia |].
      apply gaia_run in Hinfo as (Hg & Hu & Herr).
      assert (exists b, BrowserStateIsAuthenticatedAtIndex i prefs c = Ok b) as [b Hb].
      { unfold BrowserStateIsAuthenticatedAtIndex. rewrite Hg, bind_Ok.
        destruct (negb _); [by eexists |]. rewrite Hu, bind_Ok. by eexists. }
      unfold count_one. rewrite Hb, bind_Ok. destruct b.
      * rewrite Herr, bind_Ok. eexists. split; [done |]. cbn [total signedin auth_errors].
        destruct (or_keep (GetBoolean info kIsAuthErrorKey) false); lia.
      * exists k. split; [done |]. lia.
    + rewrite Hrun, bind_Ok. exists counts', true. split; [done |]. lia.
Qed.
End cache_invariant.

(** ** The manager keeps the cache in step with the accounts *)
Section manager_correct.
Context `{ValuesApi, !PrefsApi, !PathApi, !BrowserStateApi}.
Context (Hvalues : value_laws) (Hprefs : prefs_laws) (Hstate : state_laws).
Implicit Types (m : Manager) (dir path : FilePath).

Definition manager_ok dir m : Prop :=
  match browser_state_info_cache_ m with
  | Some c => cache_ok [] (local_state m) c /\ user_data_dir_ c = dir
  | None => stored_ok (local_state m)
  end.

Lemma GetBrowserStateInfoCache_ok dir m :
  manager_ok dir m ->
  exists c, GetBrowserStateInfoCache dir m =
      (m <| browser_state_info_cache_ := Some c |>, c) /\
    cache_ok [] (local_state m) c /\ user_data_dir_ c = dir.
Proof.
  unfold manager_ok, GetBrowserStateInfoCache.
  destruct (browser_state_info_cache_ m) as [c |] eqn:Hc.
  - intros [Hok Hdir]. exists c. split; [| done]. destruct m. simpl in *. by subst.
  - intros Hstored. eexists. split; [done |].
    split; [by apply new_cache_ok | apply new_user_data_dir].
Qed.

(** The account of [state] is in the cache. *)
Definition account_cached (state : ChromeBrowserState) m : Prop :=
  exists c i, browser_state_info_cache_ m = Some c /\
    GetIndexOfBrowserStateWithPath (GetStatePath state) c = Ok (Some i) /\
    has_account i (account_info state).1 (account_info state).2 (local_state m) c.

Lemma AddBrowserStateToCache_ok dir state m :
  manager_ok dir m -> IsOffTheRecord state = false -> DirName (GetStatePath state) = dir ->
  exists m', AddBrowserStateToCache dir state m = Ok m' /\ manager_ok dir m' /\
    browser_states_ m' = browser_states_ m /\ account_cached state m'.
Proof.
  intros Hm Hotr Hdir. unfold AddBrowserStateToCache. rewrite Hotr. simpl.
  destruct (GetBrowserStateInfoCache_ok dir m Hm) as (c & -> & Hok & Hc).
  rewrite bool_decide_eq_true_2 by (unfold GetUserDataDir; congruence). simpl.
  destruct (account_info state) as [gaia user] eqn:Haccount.
  assert (DirName (GetStatePath state) = user_data_dir_ c) as Hdirc by congruence.
  destruct (GetIndexOfBrowserStateWithPath (GetStatePath state) c) as [[i |] |] eqn:Hi; simpl.
  - destruct (index_in_range _ _ _ Hi) as (_ & Hrange & _).
    destruct (SetAuthInfo_ok Hvalues Hprefs [] i gaia user _ c Hok Hrange)
      as (prefs' & Hrun & Hok' & Hacc).
    rewrite Hrun. eexists. split; [done |]. split; [done |]. split; [done |].
    exists c, i. by rewrite Haccount.
  - destruct (AddBrowserState_ok Hvalues Hprefs [] (GetStatePath state) gaia user _ c Hok Hdirc Hi)
      as (prefs' & c' & i & Hrun & Hok' & Hc' & Hi' & Hinfo).
    rewrite Hrun. eexists. split; [done |].
    split; [by split; [| rewrite Hc'] |]. split; [done |].
    exists c', i. rewrite Haccount. split; [done |]. split; [done |].
    by apply new_info_account.
  - rewrite index_found in Hi by done. done.
Qed.

Lemma find_map_insert path state m :
  find_state path m = None ->
  find_state path (m <| browser_states_ :=
                        map_insert path state (browser_states_ m) |>) = Some state.
Proof.
  unfold find_state. simpl. induction (browser_states_ m) as [| e map IH]; simpl.
  - intros _. by rewrite decide_True.
  - destruct (decide (e.1 = path)); [done |]. intros Hnone.
    destruct (FilePath_lt path e.1); simpl; [by rewrite decide_True |].
    rewrite decide_False by done.
    destruct (list_find _ map) eqn:Hf; [done |]. specialize (IH eq_refl).
    destruct (list_find _ (map_insert _ _ _)) as [[]|]; [| done]. exact IH.
Qed.

Lemma DoFinalInit_ok dir state m :
  manager_ok dir m -> IsOffTheRecord state = false -> DirName (GetStatePath state) = dir ->
  exists m', DoFinalInit dir state m = Ok m' /\ manager_ok dir m' /\
    browser_states_ m' = browser_states_ m /\ account_cached state m'.
Proof.
  intros Hm Hotr Hdir. unfold DoFinalInit.
  destruct (AddBrowserStateToCache_ok dir state (emit (InitForServices state) m) Hm Hotr Hdir)
    as (m1 & Hrun & Hm1 & Hstates & Hacc).
  rewrite Hrun, bind_Ok. unfold LogNumberOfBrowserStates.
  set (m2 := emit _ m1).
  destruct (GetBrowserStateInfoCache_ok dir m2 Hm1) as (c & Heq & Hok & Hc). rewrite Heq.
  destruct (count_run [] (local_state m2) c
    {| total := 0; signedin := 0; auth_errors := 0 |} Hok eq_refl eq_refl)
    as (counts & b & Hcount & _).
  cbn [local_state set_field]. simpl. simpl in Hcount. rewrite Hcount. simpl.
  eexists. split; [done |]. split; [by split |]. split; [done |].
  destruct Hacc as (c0 & i & Hc0 & Hi & Hacc). exists c0, i. split; [| done].
  unfold GetBrowserStateInfoCache in Heq. simpl in Heq. rewrite Hc0 in Heq.
  injection Heq as _ ->. done.
Qed.

(** A browser state of the user directory is made by the first request
    for its path and found by the later ones, which change nothing; after the
    first, the cache of the local state holds the account it is signed in
    with, whether it was known before or not. *)
Lemma GetBrowserState_once dir path m :
  manager_ok dir m -> DirName path = dir ->
  exists m' state, GetBrowserState dir path m = Ok (m', state) /\ manager_ok dir m' /\
    GetBrowserState dir path m' = Ok (m', state) /\
    (find_state path m = None -> GetStatePath state = path /\ account_cached state m').
Proof.
  intros Hm Hdir. unfold GetBrowserState at 1.
  destruct (find_state path m) as [state |] eqn:Hfind.
  - exists m, state. split; [done |]. split; [done |]. split; [| done].
    unfold GetBrowserState. by rewrite Hfind.
  - rewrite (new_on_the_record Hstate). simpl.
    set (state := ChromeBrowserState_new path).
    pose proof (find_map_insert path state m Hfind) as Hnew. set (m1 := set_field _ _) in *.
    destruct (DoFinalInit_ok dir state m1) as (m' & Hrun & Hm' & Hstates & Hacc).
    + done.
    + apply (new_on_the_record Hstate).
    + rewrite <- Hdir. f_equal. apply (new_state_path Hstate).
    + rewrite Hrun. exists m', state. split; [done |]. split; [done |]. split.
      * unfold GetBrowserState. unfold find_state in *. rewrite Hstates, Hnew. done.
      * intros _. split; [apply (new_state_path Hstate) | done].
Qed.
End manager_correct.

(** ** Concrete runs *)
Module ConcreteBrowserStates.
Import ConcreteValues ConcretePrefs.

(** A path is a directory and a name. *)
#[export] Instance paths : PathApi := {|
  FilePath := string * string;
  FilePath_eq_dec := _;
  FilePath_lt p q := String.ltb p.2 q.2;
  DirName p := (""%string, p.1);
  BaseNameAsASCII p := p.2;
  AppendASCII d name := (d.2, name);
|}.

(** Everyone is signed in as the user named like the path. *)
#[export] Instance states : BrowserStateApi := {|
  ChromeBrowserState := string * string;
  ChromeBrowserState_new p := p;
  IsOffTheRecord _ := false;
  GetStatePath s := s;
  GetOriginalChromeBrowserState s := s;
  OffTheRecordChromeBrowserState _ := None;
  HasActiveStateManager _ := false;
  account_info s := ("id"%string, s.2);
  file_sizes _ _ := [];
|}.

Lemma concrete_state_laws : state_laws.
Proof. by split. Qed.

Definition data_dir : FilePath := ("", "data")%string.
Definition no_prefs : PrefService := [].
Definition default_path : FilePath := ("data", "Default")%string.
Definition dotted_path : FilePath := ("data", "john.doe")%string.

Lemma no_prefs_stored : stored_ok no_prefs.
Proof. split; [by eexists | done]. Qed.

Definition empty_cache := BrowserStateInfoCache_new no_prefs data_dir.

Definition with_dotted : PrefService * BrowserStateInfoCache :=
  from_ok (no_prefs, empty_cache)
    (AddBrowserState dotted_path "id" "john" no_prefs empty_cache).

Lemma with_dotted_history : cache_history [] with_dotted.1 with_dotted.2.
Proof.
  apply (history_step [] no_prefs empty_cache (QAdd dotted_path "id" "john")).
  - apply history_new, no_prefs_stored.
  - by split.
  - reflexivity.
Qed.

Lemma with_dotted_ok : cache_ok [] with_dotted.1 with_dotted.2.
Proof. apply (history_ok concrete_laws concrete_prefs_laws), with_dotted_history. Qed.

Definition without_dotted : PrefService * BrowserStateInfoCache :=
  from_ok with_dotted (RemoveBrowserState dotted_path with_dotted.1 with_dotted.2).

Lemma without_dotted_history :
  cache_history ["john.doe"%string] without_dotted.1 without_dotted.2.
Proof.
  apply (history_step [] with_dotted.1 with_dotted.2 (QRemove dotted_path)).
  - apply with_dotted_history.
  - exists 0. reflexivity.
  - reflexivity.
Qed.

Lemma cache_agrees_with_prefs_witness :
  sorted_keys_ without_dotted.2 = [] /\
  (forall k, is_Some (FindKey (cache_of without_dotted.1) k) <->
             k ∈ sorted_keys_ without_dotted.2 \/ k ∈ ["john.doe"%string]) /\
  is_ok (cache_step (QAdd default_path "id" "me") without_dotted.1 without_dotted.2).
Proof.
  destruct (cache_agrees_with_prefs concrete_laws concrete_prefs_laws _ _ _ without_dotted_history)
    as (_ & _ & Hagree & _ & _ & _ & Hall).
  split; [reflexivity |]. split; [exact Hagree |].
  apply (Hall (QAdd default_path "id" "me")). by split.
Defined.

Lemma dotted_browser_state_comes_back_witness :
  exists prefs' c',
    RemoveBrowserState dotted_path with_dotted.1 with_dotted.2 = Ok (prefs', c') /\
    GetIndexOfBrowserStateWithPath dotted_path c' = Ok None.
Proof.
  destruct (dotted_browser_state_comes_back concrete_laws concrete_prefs_laws [] dotted_path
              with_dotted.1 with_dotted.2 0 with_dotted_ok eq_refl eq_refl)
    as (prefs' & c' & Hrun & Hnone & _).
  exists prefs', c'. split; [exact Hrun | exact Hnone].
Defined.

(** The name with a dot is there again. *)
Example john_is_back :
  let '(prefs, c) := from_ok with_dotted
                       (RemoveBrowserState dotted_path with_dotted.1 with_dotted.2) in
  sorted_keys_ c = [] /\
  sorted_keys_ (BrowserStateInfoCache_new prefs data_dir) = ["john.doe"]%string.
Proof. vm_compute. auto. Qed.

Lemma GetBrowserState_once_witness :
  exists m' state, GetBrowserState data_dir default_path (Manager_new no_prefs) = Ok (m', state) /\
    GetBrowserState data_dir default_path m' = Ok (m', state).
Proof.
  destruct (GetBrowserState_once concrete_laws concrete_prefs_laws concrete_state_laws
              data_dir default_path (Manager_new no_prefs) no_prefs_stored eq_refl)
    as (m' & state & Hrun & _ & Hagain & _).
  exists m', state. split; [exact Hrun | exact Hagain].
Defined.
End ConcreteBrowserStates.
