(* ===== verification/FirstUserActionRecorder.v ===== *)
(** * The first user action

    [chrome/browser/metrics/first_user_action_recorder.h] and [.cc]: which of
    the user actions after a return to the foreground tells whether the user
    starts a new task or goes on with an old one, recorded once.

    The histograms are a log in the state; so are the closures posted to the
    message queue, which hold an unretained pointer to the recorder. *)
From S2P Require Import Prelude.

Inductive DeviceFamilyIndex := HANDSET | TABLET.

Inductive FirstUserActionType := NEW_TASK | CONTINUATION | EXPIRATION | START_ON_NTP.

Definition kFirstUserActionNewTaskHistogramName (f : DeviceFamilyIndex) : string :=
  match f with
  | HANDSET => "FirstUserAction.BackgroundTimeNewTaskHandset"
  | TABLET => "FirstUserAction.BackgroundTimeNewTaskTablet"
  end.

Definition kFirstUserActionContinuationHistogramName (f : DeviceFamilyIndex) : string :=
  match f with
  | HANDSET => "FirstUserAction.BackgroundTimeContinuationHandset"
  | TABLET => "FirstUserAction.BackgroundTimeContinuationTablet"
  end.

Definition kFirstUserActionExpirationHistogramName (f : DeviceFamilyIndex) : string :=
  match f with
  | HANDSET => "FirstUserAction.BackgroundTimeExpirationHandset"
  | TABLET => "FirstUserAction.BackgroundTimeExpirationTablet"
  end.

Definition kFirstUserActionTypeHistogramName (f : DeviceFamilyIndex) : string :=
  match f with
  | HANDSET => "FirstUserAction.HandsetUserActionType"
  | TABLET => "FirstUserAction.TabletUserActionType"
  end.

Definition kIgnoredActions : list string :=
  [ "MobileOmniboxUse"; "MobileFirstUserAction_Continuation";
    "MobileFirstUserAction_Expiration"; "MobileFirstUserAction_NewTask";
    "MobileMenuCloseAllTabs"; "MobileMenuCloseAllIncognitoTabs"; "MobileMenuCloseTab";
    "MobileNewTabOpened"; "MobileTabClosed"; "MobileTabStripCloseTab";
    "MobilePageLoaded"; "MobilePageLoadedWithKeyboard"; "MobileStackViewCloseTab";
    "MobileToolbarShowMenu"; "MobileToolbarShowStackView" ]%string.

Definition kRethrownActions : list string := [ "MobileTabSwitched" ]%string.

Definition kNewTaskActions : list string :=
  [ "MobileMenuAllBookmarks"; "MobileMenuHistory"; "MobileMenuNewIncognitoTab";
    "MobileMenuNewTab"; "MobileMenuRecentTabs"; "MobileMenuVoiceSearch";
    "MobileBookmarkManagerEntryOpened";
    "MobileRecentTabManagerTabFromOtherDeviceOpened"; "MobileNTPMostVisited";
    "MobileNTPShowBookmarks"; "MobileNTPShowMostVisited"; "MobileNTPShowOpenTabs";
    "MobileNTPSwitchToBookmarks"; "MobileNTPSwitchToMostVisited";
    "MobileNTPSwitchToOpenTabs"; "MobileTabStripNewTab"; "MobileToolbarNewTab";
    "MobileToolbarStackViewNewTab"; "MobileToolbarVoiceSearch";
    "OmniboxInputInProgress" ]%string.

Definition kDurationHistogramMin : Z := 5.
Definition kDurationHistogramMax : Z := 48 * 60.
Definition kDurationHistogramBucketCount : Z := 50.

(** What is sent to the metrics library. *)
Inductive histogram :=
| Enumeration (name : string) (sample : FirstUserActionType)
| CustomCounts (name : string) (sample min max buckets : Z).

(** The recorder; [background_minutes] is [background_duration_.InMinutes()]. *)
Record FirstUserActionRecorder := {
  device_family_ : DeviceFamilyIndex;
  recorded_action_ : bool;
  action_pending_ : bool;
  background_minutes : Z;
}.

#[export] Instance recorder_fields : Fields FirstUserActionRecorder := fun r =>
  {| device_family_ := device_family_ r; recorded_action_ := recorded_action_ r;
     action_pending_ := action_pending_ r; background_minutes := background_minutes r |}.

(** [recorder] is [None] once the object is destroyed; [posted] are the names
    in the closures of the message queue, the oldest first. *)
Record World := {
  recorder : option FirstUserActionRecorder;
  posted : list string;
  histograms : list histogram;
}.

#[export] Instance world_fields : Fields World := fun w =>
  {| recorder := recorder w; posted := posted w; histograms := histograms w |}.

(** The loop compares with [strcmp]. *)
Fixpoint ArrayContainsString (to_search : list string) (to_find : string) : bool :=
  match to_search with
  | [] => false
  | s :: to_search => if String.eqb to_find s then true
                      else ArrayContainsString to_search to_find
  end.

#[local] Arguments ArrayContainsString : simpl never.

Definition FirstUserActionRecorder_new (is_ipad : bool) (minutes : Z) (w : World) : World :=
  w <| recorder := Some {| device_family_ := if is_ipad then TABLET else HANDSET;
                           recorded_action_ := false; action_pending_ := false;
                           background_minutes := minutes |} |>.

(** The destructor: no action reaches the object any more. *)
Definition FirstUserActionRecorder_delete (w : World) : World := w <| recorder := None |>.

Definition add_histogram (h : histogram) (w : World) : World :=
  w <| histograms := histograms w ++ [h] |>.

Definition duration_histogram (name : string) (r : FirstUserActionRecorder) : histogram :=
  CustomCounts name (background_minutes r) kDurationHistogramMin kDurationHistogramMax
    kDurationHistogramBucketCount.

Definition RecordAction (action_type : FirstUserActionType) (w : World) : chk World :=
  r ← deref (recorder w);
  if negb (recorded_action_ r) then
    let family := device_family_ r in
    let w := add_histogram
               (Enumeration (kFirstUserActionTypeHistogramName family) action_type) w in
    let r := r <| recorded_action_ := true |> in
    let w := w <| recorder := Some r |> in
    mret match action_type with
         | NEW_TASK => add_histogram
             (duration_histogram (kFirstUserActionNewTaskHistogramName family) r) w
         | CONTINUATION => add_histogram
             (duration_histogram (kFirstUserActionContinuationHistogramName family) r) w
         | EXPIRATION => add_histogram
             (duration_histogram (kFirstUserActionExpirationHistogramName family) r) w
         | START_ON_NTP => w
         end
  else mret w.

Definition ShouldProcessAction (action_name : string) (w : World) : chk (World * bool) :=
  r ← deref (recorder w);
  if recorded_action_ r then mret (w, false)
  else if negb (action_pending_ r) && ArrayContainsString kRethrownActions action_name then
    let w := w <| posted := posted w ++ [action_name] |> in
    mret (w <| recorder := Some (r <| action_pending_ := true |>) |>, false)
  else
    let known_mobile_action :=
      String.prefix "Mobile" action_name ||
      ArrayContainsString kNewTaskActions action_name in
    mret (w, known_mobile_action && negb (ArrayContainsString kIgnoredActions action_name)).

Definition OnUserAction (action_name : string) (w : World) : chk World :=
  '(w, process) ← ShouldProcessAction action_name w;
  if (process : bool) then
    if ArrayContainsString kNewTaskActions action_name then RecordAction NEW_TASK w
    else RecordAction CONTINUATION w
  else mret w.

Definition Expire (w : World) : chk World := RecordAction EXPIRATION w.

Definition RecordStartOnNTP (w : World) : chk World := RecordAction START_ON_NTP w.

(** The message loop runs its oldest closure. *)
Definition run_posted (w : World) : chk World :=
  match posted w with
  | [] => mret w
  | action_name :: rest => OnUserAction action_name (w <| posted := rest |>)
  end.

(** ** Histories of a recorder *)
Inductive event :=
| UserAction (action_name : string)
| RunPosted
| Expired
| StartedOnNTP.

Definition handle (e : event) (w : World) : chk World :=
  match e with
  | UserAction action_name => OnUserAction action_name w
  | RunPosted => run_posted w
  | Expired => Expire w
  | StartedOnNTP => RecordStartOnNTP w
  end.

Fixpoint handle_all (es : list event) (w : World) : chk World :=
  match es with
  | [] => mret w
  | e :: es => w ← handle e w; handle_all es w
  end.

Definition started (is_ipad : bool) (minutes : Z) : World :=
  FirstUserActionRecorder_new is_ipad minutes
    {| recorder := None; posted := []; histograms := [] |}.

(** ** What the recorder is for *)

(** An action that says what the user does. *)
Definition informative (action_name : string) : bool :=
  (String.prefix "Mobile" action_name || ArrayContainsString kNewTaskActions action_name) &&
  negb (ArrayContainsString kIgnoredActions action_name).

Definition type_of (action_name : string) : FirstUserActionType :=
  if ArrayContainsString kNewTaskActions action_name then NEW_TASK else CONTINUATION.

(** The first action that is to be rethrown is looked at last. *)
Fixpoint delayed (actions : list string) : list string :=
  match actions with
  | [] => []
  | a :: actions => if ArrayContainsString kRethrownActions a then actions ++ [a]
                    else a :: delayed actions
  end.

Lemma delayed_cons a actions :
  delayed (a :: actions) =
  if ArrayContainsString kRethrownActions a then actions ++ [a] else a :: delayed actions.
Proof. reflexivity. Qed.

(** What is recorded for an action of a type. *)
Definition record_of (r : FirstUserActionRecorder) (t : FirstUserActionType)
    : list histogram :=
  Enumeration (kFirstUserActionTypeHistogramName (device_family_ r)) t ::
  match t with
  | NEW_TASK =>
      [duration_histogram (kFirstUserActionNewTaskHistogramName (device_family_ r)) r]
  | CONTINUATION =>
      [duration_histogram (kFirstUserActionContinuationHistogramName (device_family_ r)) r]
  | EXPIRATION =>
      [duration_histogram (kFirstUserActionExpirationHistogramName (device_family_ r)) r]
  | START_ON_NTP => []
  end.

Definition first_informative (actions : list string) : option string :=
  snd <$> list_find (fun a => informative a = true) actions.

Definition is_type (h : histogram) : bool :=
  match h with Enumeration _ _ => true | _ => false end.

(** ** The two facts *)
Lemma RecordAction_run t w r :
  recorder w = Some r ->
RecordAction t w =
Ok (if recorded_action_ r then w
    else w <| recorder := Some (r <| recorded_action_ := true |>) |>
           <| histograms := histograms w ++ record_of r t |>).
Proof.
  intros Hr. unfold RecordAction. rewrite Hr. simpl.
  destruct (recorded_action_ r); simpl; [done |].
  f_equal. destruct w as [rec ps hs]. unfold record_of, add_histogram.
  destruct t; cbn; by rewrite <- ?app_assoc.
Qed.

(** Either nothing is recorded, or exactly one type is, and at most one action
    was rethrown. *)
Definition recorder_ok (w : World) : Prop :=
  exists r, recorder w = Some r /\
    length (filter (fun h => is_type h = true) (histograms w)) =
      (if recorded_action_ r then 1 else 0)%nat /\
    (length (posted w) <= if action_pending_ r then 1 else 0)%nat.

Lemma record_of_types r t :
  filter (fun h => is_type h = true) (record_of r t) =
  [Enumeration (kFirstUserActionTypeHistogramName (device_family_ r)) t].
Proof. by destruct t. Qed.

Lemma RecordAction_ok t w :
  recorder_ok w -> exists w', RecordAction t w = Ok w' /\ recorder_ok w'.
Proof.
  intros (r & Hr & Hh & Hp). rewrite (RecordAction_run t w r Hr).
  eexists. split; [done |]. destruct (recorded_action_ r) eqn:Hrec.
  - exists r. by rewrite Hrec.
  - eexists. split; [done |]. simpl. split; [| done].
    by rewrite filter_app, length_app, Hh, record_of_types.
Qed.

Lemma OnUserAction_ok a w :
  recorder_ok w -> exists w', OnUserAction a w = Ok w' /\ recorder_ok w'.
Proof.
  intros Hok. pose proof Hok as (r & Hr & Hh & Hp).
  unfold OnUserAction, ShouldProcessAction. rewrite Hr. simpl.
  destruct (recorded_action_ r) eqn:Hrec; simpl; [by exists w |].
  destruct (action_pending_ r) eqn:Hpend; simpl.
  - destruct (_ && _); simpl; [| by exists w].
    destruct (ArrayContainsString kNewTaskActions a); by apply RecordAction_ok.
  - destruct (ArrayContainsString kRethrownActions a); simpl.
    + eexists. split; [done |]. eexists. split; [done |]. simpl.
      rewrite Hrec, Hh, length_app. simpl. split; [done | lia].
    + destruct (_ && _); simpl; [| by exists w].
      destruct (ArrayContainsString kNewTaskActions a); by apply RecordAction_ok.
Qed.

Lemma handle_ok e w : recorder_ok w -> exists w', handle e w = Ok w' /\ recorder_ok w'.
Proof.
  intros Hok. destruct e as [a | | |]; simpl.
  - by apply OnUserAction_ok.
  - unfold run_posted. destruct (posted w) as [| a rest] eqn:Hposted; [by exists w |].
    apply OnUserAction_ok. destruct Hok as (r & Hr & Hh & Hp). exists r.
    split; [done |]. split; [done |]. rewrite Hposted in Hp. simpl in *.
    destruct (action_pending_ r); lia.
  - by apply RecordAction_ok.
  - by apply RecordAction_ok.
Qed.

Lemma handle_all_ok es w : recorder_ok w ->
  exists w', handle_all es w = Ok w' /\ recorder_ok w'.
Proof.
  revert w. induction es as [| e es IH]; intros w Hok; simpl; [by exists w |].
  destruct (handle_ok e w Hok) as (w' & -> & Hok'). simpl. by apply IH.
Qed.

Lemma started_ok is_ipad minutes : recorder_ok (started is_ipad minutes).
Proof. by eexists. Qed.

(** Once something is recorded, events change the message queue only. *)
Definition has_recorded (w : World) : Prop :=
  exists r, recorder w = Some r /\ recorded_action_ r = true.

Lemma handle_recorded e w :
  has_recorded w -> exists w', handle e w = Ok w' /\ has_recorded w' /\
    histograms w' = histograms w.
Proof.
  intros (r & Hr & Hrec).
  assert (Haction : forall a w, recorder w = Some r -> OnUserAction a w = Ok w).
  { intros a w0 H0. unfold OnUserAction, ShouldProcessAction. by rewrite H0; simpl; rewrite Hrec. }
  assert (Hrecord : forall t, RecordAction t w = Ok w).
  { intros t. by rewrite (RecordAction_run t w r Hr), Hrec. }
  destruct e as [a | | |]; simpl.
  - exists w. rewrite Haction by done. split; [done |]. split; [by exists r | done].
  - unfold run_posted. destruct (posted w) as [| a rest].
    + exists w. split; [done |]. split; [by exists r | done].
    + rewrite Haction by done. eexists. split; [done |]. split; [by exists r | done].
  - exists w. split; [apply Hrecord |]. split; [by exists r | done].
  - exists w. split; [apply Hrecord |]. split; [by exists r | done].
Qed.

Lemma handle_all_recorded es w :
  has_recorded w -> exists w', handle_all es w = Ok w' /\ histograms w' = histograms w.
Proof.
  revert w. induction es as [| e es IH]; intros w Hw; simpl; [by exists w |].
  destruct (handle_recorded e w Hw) as (w1 & -> & Hw1 & H1). simpl.
  destruct (IH w1 Hw1) as (w2 & -> & H2). exists w2. by rewrite H2.
Qed.

(** Whatever happens while the recorder exists, in any order and any
    number of times, nothing faults, at most one type of first user action is
    recorded and at most one action waits to be looked at again; once a type
    is recorded no event adds to the histograms. *)
Lemma one_action_is_recorded es is_ipad minutes :
  exists w, handle_all es (started is_ipad minutes) = Ok w /\
    (length (filter (fun h => is_type h = true) (histograms w)) <= 1)%nat /\
    (length (posted w) <= 1)%nat /\
    (filter (fun h => is_type h = true) (histograms w) <> [] ->
     forall es', exists w', handle_all es' w = Ok w' /\ histograms w' = histograms w).
Proof.
  destruct (handle_all_ok es _ (started_ok is_ipad minutes)) as (w & Hrun & r & Hr & Hh & Hp).
  exists w. split; [done |]. split; [destruct (recorded_action_ r); lia |].
  split; [destruct (action_pending_ r); lia |]. intros Hsome es'.
  apply handle_all_recorded. exists r. split; [done |].
  destruct (recorded_action_ r); [done |]. by apply nil_length_inv in Hh.
Qed.

(** *** Which action it is *)

(** Looking at an action that is not rethrown. *)
Lemma OnUserAction_plain a w r :
  recorder w = Some r -> recorded_action_ r = false ->
  action_pending_ r = true \/ ArrayContainsString kRethrownActions a = false ->
  OnUserAction a w =
  Ok (if informative a
      then w <| recorder := Some (r <| recorded_action_ := true |>) |>
             <| histograms := histograms w ++ record_of r (type_of a) |>
      else w).
Proof.
  intros Hr Hrec Hplain. unfold OnUserAction, ShouldProcessAction. rewrite Hr. simpl.
  rewrite Hrec.
  assert (negb (action_pending_ r) && ArrayContainsString kRethrownActions a = false) as ->.
  { destruct Hplain as [-> | ->]; [done | apply andb_false_r]. }
  simpl. unfold informative, type_of. destruct (_ && _); simpl; [| done].
  destruct (ArrayContainsString kNewTaskActions a); rewrite (RecordAction_run _ w r Hr);
    by rewrite Hrec.
Qed.

(** The histograms after a list of actions, all looked at in order. *)
Definition recorded_by (r : FirstUserActionRecorder) (actions : list string)
    : list histogram :=
  match first_informative actions with Some a => record_of r (type_of a) | None => [] end.

Lemma recorded_by_cons r a actions :
  recorded_by r (a :: actions) =
  if informative a then record_of r (type_of a) else recorded_by r actions.
Proof.
  unfold recorded_by, first_informative. simpl. case_decide as Ha.
  - by rewrite Ha.
  - destruct (informative a); [done |]. by destruct (list_find _ actions) as [[]|].
Qed.

(** With the rethrown action waiting, the rest is looked at in order, and the
    action itself at the end. *)
Lemma actions_then_posted actions w r a :
  recorder w = Some r -> recorded_action_ r = false -> action_pending_ r = true ->
  posted w = [a] ->
  exists w', handle_all ((UserAction <$> actions) ++ [RunPosted]) w = Ok w' /\
    histograms w' = histograms w ++ recorded_by r (actions ++ [a]).
Proof.
  revert w. induction actions as [| b actions IH]; intros w Hr Hrec Hpend Hposted.
  - simpl. unfold run_posted. rewrite Hposted.
    rewrite (OnUserAction_plain a _ r) by (done || by left). simpl.
    eexists. split; [done |]. rewrite recorded_by_cons.
    by destruct (informative a); simpl; rewrite ?app_nil_r.
  - rewrite fmap_cons. simpl. rewrite (OnUserAction_plain b w r) by (done || by left). simpl.
    rewrite recorded_by_cons. destruct (informative b); [| by apply IH].
    set (w1 := w <| recorder := _ |> <| histograms := _ |>).
    destruct (handle_all_recorded ((UserAction <$> actions) ++ [RunPosted]) w1)
      as (w2 & Hrun & Hh); [by eexists |].
    exists w2. by rewrite Hh.
Qed.

(** The user actions that reach the recorder before the message queue is
    run, and the run, record the type of the first action that says something
    (a mobile action that is not ignored, or one that starts a task), the
    first action that is rethrown being taken last: nothing when there is
    none. *)
Lemma first_action_decides actions is_ipad minutes :
  exists w r, recorder (started is_ipad minutes) = Some r /\
    handle_all ((UserAction <$> actions) ++ [RunPosted]) (started is_ipad minutes) = Ok w /\
    histograms w = recorded_by r (delayed actions).
Proof.
  set (w0 := started is_ipad minutes).
  assert (Hgen : forall w r, recorder w = Some r -> recorded_action_ r = false ->
    action_pending_ r = false -> posted w = [] ->
    exists w', handle_all ((UserAction <$> actions) ++ [RunPosted]) w = Ok w' /\
      histograms w' = histograms w ++ recorded_by r (delayed actions)).
  { induction actions as [| a actions IH]; intros w r Hr Hrec Hpend Hposted.
    - simpl. unfold run_posted. rewrite Hposted. exists w. by rewrite app_nil_r.
    - rewrite fmap_cons, delayed_cons. simpl.
      destruct (ArrayContainsString kRethrownActions a) eqn:Hthrow.
      + set (w1 := w <| posted := [a] |> <| recorder := Some (r <| action_pending_ := true |>) |>).
        assert (OnUserAction a w = Ok w1) as ->.
        { unfold OnUserAction, ShouldProcessAction. rewrite Hr. simpl.
          rewrite Hrec, Hpend, Hthrow, Hposted. done. }
        destruct (actions_then_posted actions w1 (r <| action_pending_ := true |>) a)
          as (w2 & Hrun & Hh); [done .. |].
        exists w2. split; [exact Hrun |]. rewrite Hh. unfold recorded_by.
        by destruct (first_informative _).
      + rewrite (OnUserAction_plain a w r) by (done || by right). simpl.
        rewrite recorded_by_cons. destruct (informative a); [| by apply IH].
        set (w1 := w <| recorder := _ |> <| histograms := _ |>).
        destruct (handle_all_recorded ((UserAction <$> actions) ++ [RunPosted]) w1)
          as (w2 & Hrun & Hh); [by eexists |].
        exists w2. by rewrite Hh. }
  destruct (Hgen w0 _ eq_refl eq_refl eq_refl eq_refl) as (w & Hrun & Hh).
  eexists w, _. split; [done |]. split; [done |]. exact Hh.
Qed.

(** The closure of a rethrown action keeps an unretained pointer: when the
    recorder is destroyed before the message queue is run (it is, when it
    expires or the page of the new tab is shown), running the closure uses
    the object after it was freed. *)
Lemma rethrown_action_outlives_recorder a is_ipad minutes :
  ArrayContainsString kRethrownActions a = true ->
  exists w w', handle (UserAction a) (started is_ipad minutes) = Ok w /\
    handle Expired w = Ok w' /\
    run_posted (FirstUserActionRecorder_delete w') = Fault.
Proof.
  intros Ha. unfold handle, OnUserAction, ShouldProcessAction. simpl. rewrite Ha. simpl.
  eexists _, _. split; [done |]. split; [done |]. reflexivity.
Qed.

Lemma rethrown_action_outlives_recorder_witness :
  exists w w', handle (UserAction "MobileTabSwitched") (started false 10) = Ok w /\
    handle Expired w = Ok w' /\
    run_posted (FirstUserActionRecorder_delete w') = Fault.
Proof.
  exact (rethrown_action_outlives_recorder "MobileTabSwitched" false 10 eq_refl).
Defined.

(** A tab switch that opens the history is a new task. *)
Example tab_switch_then_history :
  match handle_all [UserAction "MobileTabSwitched"; UserAction "MobileMenuHistory"; RunPosted]
          (started false 10) with
  | Ok w => histograms w
  | Fault => []
  end =
  [ Enumeration "FirstUserAction.HandsetUserActionType" NEW_TASK;
    CustomCounts "FirstUserAction.BackgroundTimeNewTaskHandset" 10 5 2880 50 ].
Proof. reflexivity. Qed.
