(* ===== verification/WebThread.v ===== *)
(** * Web threads

    [web/web_thread_impl.cc], [web/web_thread_impl.h] and
    [web/public/web_thread.h]: the well-known threads of the browser, the
    table they are registered in and the posting of tasks to them.

    [base::Thread], closures and the blocking pool are parameters.  A function
    that depends on the thread it is called on takes [current], the value of
    [MessageLoop::current()] there.  The second part gives the memory accesses
    of a post one by one and interleaves them with the creation and the
    destruction of threads. *)
From S2P Require Import Prelude.

(** ** Code outside of the repository *)

(** The address of a [base::MessageLoop], a [WebThreadImpl], a
    [WebThreadDelegate] or an object to delete. *)
Abbreviation loop := nat (only parsing).
Abbreviation address := nat (only parsing).

Class ThreadApi := {
  (** [base::Thread] *)
  BaseThread : Type;
  Thread_new : string -> BaseThread;
  message_loop : BaseThread -> option loop;
  SetMessageLoop : loop -> BaseThread -> BaseThread;
  Start : loop -> BaseThread -> BaseThread;
  Stop : BaseThread -> BaseThread;
(** [base::OnceClosure]; the closures made by [PostTaskAndReply], with the
    loop the reply goes to, and by [DeleteSoon] *)
Closure : Type;
with_reply : option loop -> Closure -> Closure -> Closure;
deleter : address -> Closure;
(** [base::SequencedWorkerPool] *)
SequencedWorkerPool : Type;
SequencedWorkerPool_new : Z -> string -> SequencedWorkerPool;
PostWorkerTask : Closure -> SequencedWorkerPool -> SequencedWorkerPool * bool;
PostTaskAndReply_pool :
  Closure -> Closure -> SequencedWorkerPool -> SequencedWorkerPool * bool;
PostNamedSequencedWorkerTask :
  string -> Closure -> SequencedWorkerPool -> SequencedWorkerPool * bool;
Shutdown_pool : Z -> SequencedWorkerPool -> SequencedWorkerPool;
FlushForTesting_pool : SequencedWorkerPool -> SequencedWorkerPool;
}.

(** The documented behaviour of [base::Thread]. *)
Record thread_laws `{ThreadApi} : Prop := {
  new_has_no_loop name : message_loop (Thread_new name) = None;
  set_loop l t : message_loop (SetMessageLoop l t) = Some l;
  started_has_loop l t : message_loop (Start l t) = Some l;
  stopped_has_no_loop t : message_loop (Stop t) = None;
}.

(** ** Identifiers *)
Inductive ID := UI | DB | FILE | FILE_USER_BLOCKING | CACHE | IO | ID_COUNT.

#[export] Instance ID_eq_dec : EqDecision ID.
Proof. solve_decision. Defined.

(** The value of an enumerator. *)
Definition id_value (id : ID) : Z :=
  match id with
  | UI => 0 | DB => 1 | FILE => 2 | FILE_USER_BLOCKING => 3 | CACHE => 4 | IO => 5
  | ID_COUNT => 6
  end.

Definition g_web_thread_names : list string :=
  [ "Web_UIThread"; "Web_DBThread"; "Web_FileThread"; "Web_FileUserBlockingThread";
    "Web_CacheThread"; "Web_IOThread" ].

Definition GetThreadName (thread : ID) : chk string :=
  if (id_value UI <=? id_value thread) && (id_value thread <? id_value ID_COUNT)
  then vget g_web_thread_names (id_value thread)
  else mret "Unknown Thread"%string.

Definition is_thread (identifier : ID) : bool :=
  (0 <=? id_value identifier) && (id_value identifier <? id_value ID_COUNT).

(** ** The process *)
Section web_threads.
Context `{ThreadApi}.

Record Task := { closure : Closure; delay : Z; nestable : bool }.

Record WebThreadImpl := { base_thread : BaseThread; identifier_ : ID }.

#[export] Instance impl_fields : Fields WebThreadImpl := fun t =>
  {| base_thread := base_thread t; identifier_ := identifier_ t |}.

Record WebThreadGlobals := {
  lock : bool;
  threads : list (option address);
  thread_delegates : list (option address);
  blocking_pool : SequencedWorkerPool;
}.

#[export] Instance globals_fields : Fields WebThreadGlobals := fun g =>
  {| lock := lock g; threads := threads g; thread_delegates := thread_delegates g;
     blocking_pool := blocking_pool g |}.

Definition WebThreadGlobals_new : WebThreadGlobals :=
  {| lock := false;
     threads := replicate (Z.to_nat (id_value ID_COUNT)) None;
     thread_delegates := replicate (Z.to_nat (id_value ID_COUNT)) None;
     blocking_pool := SequencedWorkerPool_new 3 "WebBlocking" |}.

(** Calls that leave this component. *)
Inductive effect :=
| delegate_Init (d : address)
| delegate_CleanUp (d : address)
| SetIOAllowed (allowed : bool)
| DisallowWaiting
| Thread_Run (frame : string)
| URLFetcher_CancelAll
| SimpleBackend_FlushWorkerPool
| Deleted (object : address).

(** [g_globals] is created by its first use; [objects] are the threads that
    exist, [loops] the message loops with the tasks posted to them. *)
Record Process := {
  g_globals : option WebThreadGlobals;
  objects : gmap address WebThreadImpl;
  loops : gmap loop (list Task);
  effects : list effect;
}.

#[export] Instance process_fields : Fields Process := fun p =>
  {| g_globals := g_globals p; objects := objects p; loops := loops p;
     effects := effects p |}.

Implicit Types (p : Process) (id : ID) (current : option loop) (t : address).

(** [g_globals.Get()] *)
Definition globals p : WebThreadGlobals := default WebThreadGlobals_new (g_globals p).

Definition set_globals (g : WebThreadGlobals) p : Process := p <| g_globals := Some g |>.

Definition emit (e : effect) p : Process := p <| effects := effects p ++ [e] |>.

(** [lock] is not recursive: taking it twice never returns. *)
Definition Acquire p : chk Process :=
  if lock (globals p) then Fault else Ok (set_globals (globals p <| lock := true |>) p).

Definition Release p : Process := set_globals (globals p <| lock := false |>) p.

(** A scope with [base::AutoLock lock(globals.lock)]. *)
Definition AutoLock {A} (body : Process -> chk (Process * A)) p : chk (Process * A) :=
  p ← Acquire p;
  '(p, result) ← body p;
  mret (Release p, result).

(** [globals.threads[i]->message_loop()] *)
Definition message_loop_of t p : chk (option loop) :=
  impl ← deref (objects p !! t);
  mret (message_loop (base_thread impl)).

(** ** Queries *)
Fixpoint current_identifier_loop current (slots : list (option address)) p
    : chk (option ID) :=
  match slots with
  | [] => mret None
  | None :: slots => current_identifier_loop current slots p
  | Some t :: slots =>
      impl ← deref (objects p !! t);
      if bool_decide (message_loop (base_thread impl) = current)
      then mret (Some (identifier_ impl))
      else current_identifier_loop current slots p
  end.

(** [Some id] when it returns true with [*identifier] set to [id]. *)
Definition GetCurrentThreadIdentifier current p : chk (option ID) :=
  match g_globals p with
  | None => mret None
  | Some globals => current_identifier_loop current (threads globals) p
  end.

Definition IsThreadInitialized id p : chk (Process * bool) :=
  match g_globals p with
  | None => mret (p, false)
  | Some _ =>
      AutoLock (fun p =>
        _ ← dcheck (is_thread id);
        slot ← vget (threads (globals p)) (id_value id);
        mret (p, bool_decide (is_Some slot))) p
  end.

Definition CurrentlyOn current id p : chk (Process * bool) :=
  AutoLock (fun p =>
    _ ← dcheck (is_thread id);
    slot ← vget (threads (globals p)) (id_value id);
    match slot with
    | None => mret (p, false)
    | Some t =>
        l ← message_loop_of t p;
        mret (p, bool_decide (l = current))
    end) p.

Definition IsMessageLoopValid id p : chk (Process * bool) :=
  match g_globals p with
  | None => mret (p, false)
  | Some _ =>
      AutoLock (fun p =>
        _ ← dcheck (is_thread id);
        slot ← vget (threads (globals p)) (id_value id);
        match slot with
        | None => mret (p, false)
        | Some t => l ← message_loop_of t p; mret (p, bool_decide (is_Some l))
        end) p
  end.

(** [platform_name] is [base::PlatformThread::GetName()]. *)
Definition GetDCheckCurrentlyOnErrorMessage (expected : ID) (platform_name : string)
    : chk string :=
  let actual_name :=
    if String.eqb platform_name "" then "Unknown Thread"%string else platform_name in
  name ← GetThreadName expected;
  mret ("Must be called on " +:+ name +:+ "; actually called on " +:+ actual_name +:+
        ".")%string.

(** ** Posting tasks *)
Definition post_to (l : loop) (task : Task) p : chk Process :=
  tasks ← deref (loops p !! l);
  mret (p <| loops := <[l := tasks ++ [task]]> (loops p) |>).

(** [GetCurrentThreadIdentifier(&current_thread) && current_thread >= identifier] *)
Definition outlives (identifier : ID) (current_thread : option ID) : bool :=
  match current_thread with
  | Some current_thread => id_value identifier <=? id_value current_thread
  | None => false
  end.

Definition PostTaskHelper current (identifier : ID) (task : Closure) (delay : Z)
    (nestable : bool) p : chk (Process * bool) :=
  _ ← dcheck (is_thread identifier);
  current_thread ← GetCurrentThreadIdentifier current p;
  let target_thread_outlives_current := outlives identifier current_thread in
  let p := set_globals (globals p) p in
  p ← (if target_thread_outlives_current then mret p else Acquire p);
  slot ← vget (threads (globals p)) (id_value identifier);
  message_loop ← match slot with Some t => message_loop_of t p | None => mret None end;
  p ← match message_loop with
      | Some l => post_to l {| closure := task; delay := delay; nestable := nestable |} p
      | None => mret p
      end;
  let p := if target_thread_outlives_current then p else Release p in
  mret (p, bool_decide (is_Some message_loop)).

Definition PostTask current id (task : Closure) p :=
  PostTaskHelper current id task 0 true p.

Definition PostDelayedTask current id (task : Closure) (delay : Z) p :=
  PostTaskHelper current id task delay true p.

Definition PostNonNestableTask current id (task : Closure) p :=
  PostTaskHelper current id task 0 false p.

Definition PostNonNestableDelayedTask current id (task : Closure) (delay : Z) p :=
  PostTaskHelper current id task delay false p.

(** The task runner of a thread is known by the thread's identifier. *)
Record WebThreadTaskRunner := { id_ : ID }.

Definition runner_PostDelayedTask current (r : WebThreadTaskRunner) task delay p :=
  PostDelayedTask current (id_ r) task delay p.

Definition runner_PostNonNestableDelayedTask current (r : WebThreadTaskRunner) task
    delay p :=
  PostNonNestableDelayedTask current (id_ r) task delay p.

Definition RunsTasksInCurrentSequence current (r : WebThreadTaskRunner) p :=
  CurrentlyOn current (id_ r) p.

Definition g_task_runners : list WebThreadTaskRunner :=
  (fun id => {| id_ := id |}) <$> [UI; DB; FILE; FILE_USER_BLOCKING; CACHE; IO].

Definition GetTaskRunnerForThread id : chk WebThreadTaskRunner :=
  vget g_task_runners (id_value id).

Definition PostTaskAndReply current id (task reply : Closure) p : chk (Process * bool) :=
  runner ← GetTaskRunnerForThread id;
  runner_PostDelayedTask current runner (with_reply current task reply) 0 p.

Definition DeleteSoon current id (object : address) p : chk (Process * bool) :=
  runner ← GetTaskRunnerForThread id;
  runner_PostNonNestableDelayedTask current runner (deleter object) 0 p.

Definition DeleteOnThread_Destruct current id (x : address) p : chk Process :=
  '(p, on_thread) ← CurrentlyOn current id p;
  if (on_thread : bool) then mret (emit (Deleted x) p)
  else '(p, _) ← DeleteSoon current id x p; mret p.

(** ** The blocking pool *)
Definition with_pool {A} (f : SequencedWorkerPool -> SequencedWorkerPool * A) p
    : Process * A :=
  let '(pool, result) := f (blocking_pool (globals p)) in
  (set_globals (globals p <| blocking_pool := pool |>) p, result).

Definition PostBlockingPoolTask (task : Closure) p := with_pool (PostWorkerTask task) p.

Definition PostBlockingPoolTaskAndReply (task reply : Closure) p :=
  with_pool (PostTaskAndReply_pool task reply) p.

Definition PostBlockingPoolSequencedTask (sequence_token_name : string)
    (task : Closure) p :=
  with_pool (PostNamedSequencedWorkerTask sequence_token_name task) p.

Definition GetBlockingPool p : SequencedWorkerPool := blocking_pool (globals p).

Definition kMaxNewShutdownBlockingTasks : Z := 1000.

Definition ShutdownThreadPool p : Process :=
  (with_pool (fun pool => (Shutdown_pool kMaxNewShutdownBlockingTasks pool, tt)) p).1.

Definition FlushThreadPoolHelperForTesting p : Process :=
  match g_globals p with
  | None => p
  | Some _ =>
      emit SimpleBackend_FlushWorkerPool
        (with_pool (fun pool => (FlushForTesting_pool pool, tt)) p).1
  end.

(** ** The life of a thread *)
Definition Initialize t p : chk Process :=
  '(p, _) ← AutoLock (fun p =>
    impl ← deref (objects p !! t);
    _ ← dcheck (is_thread (identifier_ impl));
    slot ← vget (threads (globals p)) (id_value (identifier_ impl));
    _ ← dcheck (bool_decide (slot = None));
    let slots := vset (id_value (identifier_ impl)) (Some t) (threads (globals p)) in
    mret (set_globals (globals p <| threads := slots |>) p, tt)) p;
  mret p.

(** The new object is at the address [t]. *)
Definition WebThreadImpl_new t (identifier : ID) p : chk Process :=
  name ← GetThreadName identifier;
  let impl := {| base_thread := Thread_new name; identifier_ := identifier |} in
  Initialize t (p <| objects := <[t := impl]> (objects p) |>).

Definition WebThreadImpl_new_with_loop t (identifier : ID) (l : loop) p : chk Process :=
  name ← GetThreadName identifier;
  let impl := {| base_thread := SetMessageLoop l (Thread_new name);
                 identifier_ := identifier |} in
  Initialize t (p <| objects := <[t := impl]> (objects p) |>).

Definition delegate_of (identifier : ID) p : chk (option address) :=
  vget (thread_delegates (globals p)) (id_value identifier).

(** Called on the thread, whose loop is [current]. *)
Definition Init current t p : chk Process :=
  impl ← deref (objects p !! t);
  let p := set_globals (globals p) p in
  delegate ← delegate_of (identifier_ impl) p;
  let p := match delegate with Some d => emit (delegate_Init d) p | None => p end in
  '(p, on_io) ← CurrentlyOn current IO p;
  mret (if (on_io : bool) then emit DisallowWaiting (emit (SetIOAllowed false) p) else p).

Definition UIThreadRun p : Process := emit (Thread_Run "UIThreadRun") p.
Definition DBThreadRun p : Process := emit (Thread_Run "DBThreadRun") p.
Definition FileThreadRun p : Process := emit (Thread_Run "FileThreadRun") p.
Definition FileUserBlockingThreadRun p : Process :=
  emit (Thread_Run "FileUserBlockingThreadRun") p.
Definition CacheThreadRun p : Process := emit (Thread_Run "CacheThreadRun") p.
Definition IOThreadRun p : Process := emit (Thread_Run "IOThreadRun") p.

Definition Run current p : chk Process :=
  thread_id ← GetCurrentThreadIdentifier current p;
  match thread_id with
  | None => mret (emit (Thread_Run "Run") p)
  | Some UI => mret (UIThreadRun p)
  | Some DB => mret (DBThreadRun p)
  | Some FILE => mret (FileThreadRun p)
  | Some FILE_USER_BLOCKING => mret (FileUserBlockingThreadRun p)
  | Some CACHE => mret (CacheThreadRun p)
  | Some IO => mret (IOThreadRun p)
  | Some ID_COUNT => Fault
  end.

Definition IOThreadPreCleanUp p : Process := emit URLFetcher_CancelAll p.

Definition CleanUp current t p : chk Process :=
  '(p, on_io) ← CurrentlyOn current IO p;
  let p := if (on_io : bool) then IOThreadPreCleanUp p else p in
  impl ← deref (objects p !! t);
  delegate ← delegate_of (identifier_ impl) p;
  mret (match delegate with Some d => emit (delegate_CleanUp d) p | None => p end).

(** [Stop()] in the destructor. *)
Definition stop_thread t p : chk Process :=
  impl ← deref (objects p !! t);
  mret (p <| objects := <[t := impl <| base_thread := Stop (base_thread impl) |>]>
                          (objects p) |>).

(** The debug build's loop over the identifiers above. *)
Definition none_above (i : Z) (slots : list (option address)) : bool :=
  forallb (fun slot => bool_decide (slot = None)) (drop (Z.to_nat (i + 1)) slots).

(** The rest of the destructor; the object is freed. *)
Definition unregister t p : chk Process :=
  impl ← deref (objects p !! t);
  '(p, _) ← AutoLock (fun p =>
    let slots := vset (id_value (identifier_ impl)) None (threads (globals p)) in
    let p := set_globals (globals p <| threads := slots |>) p in
    _ ← dcheck (none_above (id_value (identifier_ impl)) slots);
    mret (p, tt)) p;
  mret (p <| objects := delete t (objects p) |>).

Definition WebThreadImpl_delete t p : chk Process :=
  p ← stop_thread t p;
  unregister t p.

Definition SetDelegate id (delegate : option address) p : chk Process :=
  old_pointer ← vget (thread_delegates (globals p)) (id_value id);
  let delegates := vset (id_value id) delegate (thread_delegates (globals p)) in
  let p := set_globals (globals p <| thread_delegates := delegates |>) p in
  _ ← dcheck (bool_decide (delegate = None) || bool_decide (old_pointer = None));
  mret p.

(** ** Well-formed tables *)

(** The thread [impl] at the address [t] is registered in the slot [i]. *)
Definition registered p (i : nat) t (impl : WebThreadImpl) : Prop :=
  threads (globals p) !! i = Some (Some t) /\ objects p !! t = Some impl.

Record table_ok p : Prop := {
  table_size : length (threads (globals p)) = 6%nat;
  table_objects i t : threads (globals p) !! i = Some (Some t) ->
    exists impl, objects p !! t = Some impl /\ id_value (identifier_ impl) = Z.of_nat i;
  table_loops i j t t' impl impl' l :
    registered p i t impl -> registered p j t' impl' ->
    message_loop (base_thread impl) = Some l ->
    message_loop (base_thread impl') = Some l -> i = j;
  table_live i t impl l : registered p i t impl ->
    message_loop (base_thread impl) = Some l -> is_Some (loops p !! l);
}.

Definition index id : nat := Z.to_nat (id_value id).

Lemma is_thread_index id : is_thread id = true ->
  (index id < 6)%nat /\ id_value id = Z.of_nat (index id).
Proof. destruct id; vm_compute; intros; split; try lia; congruence. Qed.

Lemma id_value_inj id id' : id_value id = id_value id' -> id = id'.
Proof. destruct id, id'; simpl; congruence. Qed.

(** The loop tasks for [id] are posted to. *)
Definition target_loop p id : option loop :=
  match threads (globals p) !! index id with
  | Some (Some t) => impl ← objects p !! t; message_loop (base_thread impl)
  | _ => None
  end.

Lemma slot_get p id : table_ok p -> is_thread id = true ->
  exists slot, vget (threads (globals p)) (id_value id) = Ok slot /\
               threads (globals p) !! index id = Some slot.
Proof.
  intros Hp [Hlt Hid]%is_thread_index. unfold vget. rewrite Hid, Nat2Z.id.
  case_bool. destruct (lookup_lt_is_Some_2 (threads (globals p)) (index id)) as [x Hx].
  { by rewrite (table_size p Hp). }
  exists x. by rewrite Hx.
Qed.

Lemma set_globals_same p g : g_globals p = Some g -> set_globals g p = p.
Proof. intros Hg. destruct p. simpl in *. by subst. Qed.

(** Taking the lock, a body that leaves the process alone, and releasing. *)
Lemma lock_unlock p : lock (globals p) = false ->
  Release (set_globals (globals p <| lock := true |>) p) = set_globals (globals p) p.
Proof.
  unfold Release, set_globals, globals. simpl. intros Hl. destruct p as [[g |] o l e]; simpl in *.
  - by destruct g; simpl in *; subst.
  - done.
Qed.

Definition held p : Process := set_globals (globals p <| lock := true |>) p.

Lemma Acquire_free p : lock (globals p) = false ->
  Acquire (set_globals (globals p) p) = Ok (held p).
Proof.
  intros Hl. unfold Acquire. change (globals (set_globals (globals p) p)) with (globals p).
  rewrite Hl. done.
Qed.

Lemma current_identifier_loop_spec current slots p :
  (forall t, Some t ∈ slots -> is_Some (objects p !! t)) ->
  exists r, current_identifier_loop current slots p = Ok r /\
  match r with
  | Some id => exists j t impl, slots !! j = Some (Some t) /\ objects p !! t = Some impl /\
      message_loop (base_thread impl) = current /\ identifier_ impl = id
  | None => forall j t impl, slots !! j = Some (Some t) -> objects p !! t = Some impl ->
      message_loop (base_thread impl) <> current
  end.
Proof.
  induction slots as [| [t |] slots IH]; intros Hobj; simpl.
  - by exists None.
  - destruct (Hobj t) as [impl Himpl]; [by left |]. rewrite Himpl. simpl.
    case_bool_decide as Hcur.
    + exists (Some (identifier_ impl)). split; [done |]. by exists 0%nat, t, impl.
    + destruct IH as (r & Hr & Hspec); [intros t' ?; apply Hobj; by right |].
      exists r. split; [done |]. destruct r as [id |].
      * destruct Hspec as (j & Hj). by exists (Datatypes.S j).
      * intros [| j] t' impl' Hj Ho; simpl in Hj; [congruence | eauto].
  - destruct IH as (r & Hr & Hspec); [intros t' ?; apply Hobj; by right |].
    exists r. split; [done |]. destruct r as [id |].
    + destruct Hspec as (j & Hj). by exists (Datatypes.S j).
    + intros [| j] t' impl' Hj Ho; simpl in Hj; [congruence | eauto].
Qed.

Lemma GetCurrentThreadIdentifier_spec current p : table_ok p ->
  exists r, GetCurrentThreadIdentifier current p = Ok r /\
  match r with
  | Some id => exists j t impl, registered p j t impl /\
      message_loop (base_thread impl) = current /\ identifier_ impl = id
  | None => forall j t impl, registered p j t impl ->
      message_loop (base_thread impl) <> current
  end.
Proof.
  intros Hp. pose proof (table_objects p Hp) as Hobj.
  unfold GetCurrentThreadIdentifier, registered, globals in *.
  destruct (g_globals p) as [g |]; simpl in *.
  - destruct (current_identifier_loop_spec current (threads g) p) as (r & Hr & Hspec).
    { intros t [j Hj]%list_elem_of_lookup_1. destruct (Hobj j t Hj) as (impl & ? & _). eauto. }
    exists r. split; [done |]. destruct r.
    + destruct Hspec as (j & t & impl & ? & ? & ? & ?). by exists j, t, impl.
    + intros j t impl []. eauto.
  - exists None. split; [done |]. intros j t impl [Hj _].
    by do 6 (destruct j as [| j]; [done |]).
Qed.

(** Posting a task to a well-known thread never fails: it returns true
    exactly when that thread is registered and has a message loop, and then
    has put the task, with its delay and its nestability, at the end of the
    tasks of that loop; otherwise nothing is posted.  The lock, whether it was
    needed or not, is free afterwards. *)
Lemma PostTaskHelper_spec current id task d n p :
  table_ok p -> lock (globals p) = false -> is_thread id = true ->
  let created := set_globals (globals p) p in
  PostTaskHelper current id task d n p =
  Ok match target_loop p id with
     | Some l =>
         let tasks := default [] (loops p !! l) in
         let new := {| closure := task; delay := d; nestable := n |} in
         (created <| loops := <[l := tasks ++ [new]]> (loops p) |>, true)
     | None => (created, false)
     end.
Proof.
  intros Hp Hlock Hid created. unfold PostTaskHelper.
  rewrite dcheck_true by done. simpl.
  destruct (GetCurrentThreadIdentifier_spec current p Hp) as (r & -> & _). simpl.
  destruct (slot_get p id Hp Hid) as (slot & Hget & Hslot).
  unfold target_loop. rewrite Hslot.
  assert (Hlive : forall t l, slot = Some t ->
            (impl ← objects p !! t; message_loop (base_thread impl)) = Some l ->
            is_Some (loops p !! l)).
  { intros t l -> Hl. destruct (objects p !! t) as [impl |] eqn:Ho; [| done].
    by eapply (table_live p Hp _ t impl). }
  destruct (outlives id r); simpl.
  - change (threads (globals (set_globals (globals p) p))) with (threads (globals p)).
    rewrite Hget. simpl. destruct slot as [t |]; simpl; [| done].
    destruct (table_objects p Hp _ _ Hslot) as (impl & Ho & _).
    unfold message_loop_of. simpl. specialize (Hlive t). rewrite Ho in Hlive |- *. simpl in *.
    destruct (message_loop (base_thread impl)) as [l |]; simpl; [| done].
    destruct (Hlive l) as [tasks Htasks]; [done .. |].
    unfold post_to. simpl. by rewrite Htasks.
  - rewrite Acquire_free by done. rewrite bind_Ok.
    change (threads (globals (held p))) with (threads (globals p)).
    rewrite Hget. simpl.
    assert (Hrel : forall ls, Release
        {| g_globals := Some (globals p <| lock := true |>); objects := objects p;
           loops := ls; effects := effects p |} = created <| loops := ls |>).
    { intros ls. subst created. unfold Release, set_globals, globals. simpl.
      destruct p as [[[] |] ? ? ?]; simpl in *; by subst. }
    destruct slot as [t |]; simpl; [| do 2 f_equal; by apply lock_unlock].
    destruct (table_objects p Hp _ _ Hslot) as (impl & Ho & _).
    unfold message_loop_of. simpl. specialize (Hlive t). rewrite Ho in Hlive |- *. simpl in *.
    destruct (message_loop (base_thread impl)) as [l |]; simpl; [| do 2 f_equal; by apply lock_unlock].
    destruct (Hlive l) as [tasks Htasks]; [done .. |].
    unfold post_to. simpl. rewrite Htasks. simpl. do 2 f_equal. apply Hrel.
Qed.

Lemma CurrentlyOn_run current id p :
  table_ok p -> lock (globals p) = false -> is_thread id = true ->
  exists b, CurrentlyOn current id p = Ok (set_globals (globals p) p, b) /\
  (b = true <-> exists t impl, registered p (index id) t impl /\
                message_loop (base_thread impl) = current).
Proof.
  intros Hp Hlock Hid. destruct (slot_get p id Hp Hid) as (slot & Hget & Hslot).
  unfold CurrentlyOn, AutoLock, Acquire. rewrite Hlock. simpl.
  rewrite dcheck_true by done. simpl. rewrite Hget. simpl.
  destruct slot as [t |]; simpl.
  - destruct (table_objects p Hp _ _ Hslot) as (impl & Ho & _).
    unfold message_loop_of. simpl. rewrite Ho. simpl. rewrite lock_unlock by done.
    eexists. split; [done |]. rewrite bool_decide_eq_true. unfold registered.
    rewrite Hslot. split; [by exists t, impl |].
    intros (t' & impl' & [[= <-] ?] & ?). congruence.
  - rewrite lock_unlock by done. exists false. split; [done |]. split; [done |].
    intros (t & impl & [Ht _] & _). congruence.
Qed.

(** On a thread that has a message loop, [GetCurrentThreadIdentifier] and
    [CurrentlyOn] agree: the first returns true with the only identifier the
    second is true for, and false when there is none. *)
Lemma CurrentlyOn_agrees l p :
  table_ok p -> lock (globals p) = false ->
  exists r, GetCurrentThreadIdentifier (Some l) p = Ok r /\
  forall id, is_thread id = true ->
    CurrentlyOn (Some l) id p = Ok (set_globals (globals p) p, bool_decide (r = Some id)).
Proof.
  intros Hp Hlock. destruct (GetCurrentThreadIdentifier_spec (Some l) p Hp) as (r & Hr & Hspec).
  exists r. split; [done |]. intros id Hid.
  destruct (CurrentlyOn_run (Some l) id p Hp Hlock Hid) as (b & -> & Hb). do 2 f_equal.
  apply is_thread_index in Hid as [_ Hidx].
  assert (b = true <-> r = Some id) as Hiff; [| by destruct b; case_bool_decide; naive_solver].
  rewrite Hb. destruct r as [id' |].
  - destruct Hspec as (j & t & impl & Hreg & Hl & <-). split.
    + intros (t' & impl' & Hreg' & Hl').
      pose proof (table_loops p Hp _ _ _ _ _ _ _ Hreg Hreg' Hl Hl') as ->.
      destruct Hreg as [Hs Ho], Hreg' as [Hs' Ho'].
      destruct (table_objects p Hp _ _ Hs) as (? & ? & Hv).
      f_equal. apply id_value_inj. congruence.
    + intros [= <-]. destruct Hreg as [Hs Ho].
      destruct (table_objects p Hp _ _ Hs) as (impl0 & Ho0 & Hv).
      exists t, impl. unfold registered, index.
      assert (impl0 = impl) as -> by congruence. rewrite Hv, Nat2Z.id. done.
  - split; [| done]. intros (t' & impl' & Hreg' & Hl'). by edestruct Hspec.
Qed.
End web_threads.
