(* ===== verification/WebThreadPosts.v ===== *)
(** * Posting to web threads while they come and go

    [PostTaskHelper] of [web/web_thread_impl.cc] access by access, run by any
    number of threads while others create, start, stop and destroy web
    threads.  The lock is not taken for a target that outlives the calling
    thread; the first theorem shows that this is right for a caller that is a
    web thread, the second that it is not for a thread without message
    loop. *)
From S2P Require Import Prelude WebThread.
From stdpp Require Import relations.

Section posts.
Context `{ThreadApi}.

(** The next access of a call.  [Scanning] to [Identifying] are
    [GetCurrentThreadIdentifier]; each evaluates [globals.threads[i]] anew. *)
Inductive Stage :=
| Begin
| Scanning (i : nat)
| Comparing (i : nat)
| Identifying (i : nat)
| Locking
| Reading (locked : bool)
| Dereferencing (locked : bool)
| Posting (locked : bool) (l : loop)
| Unlocking (result : bool)
| Returned (result : bool).

Record Call := { caller : option loop; target : ID; task : Task; stage : Stage }.

Definition at_stage (st : Stage) (c : Call) : Call :=
  {| caller := caller c; target := target c; task := task c; stage := st |}.

Definition active (c : Call) : bool :=
  match stage c with Returned _ => false | _ => true end.

(** [globals.threads[i]->], without a test for null. *)
Definition thread_in_slot (i : nat) (p : Process) : chk WebThreadImpl :=
  slot ← deref (threads (globals p) !! i);
  t ← deref slot;
  deref (objects p !! t).

Definition finish (locked result : bool) : Stage :=
  if locked then Unlocking result else Returned result.

(** [None] when the call waits for the lock or has returned. *)
Definition advance (c : Call) (p : Process) : option (chk (Process * Stage)) :=
  match stage c with
  | Begin => Some (
      _ ← dcheck (is_thread (target c));
      match g_globals p with
      | None => mret (set_globals (globals p) p, Locking)
      | Some _ => mret (p, Scanning 0)
      end)
  | Scanning i => Some (
      if (i <? 6)%nat then
        slot ← deref (threads (globals p) !! i);
        mret (p, match slot with Some _ => Comparing i | None => Scanning (S i) end)
      else mret (p, Locking))
  | Comparing i => Some (
      impl ← thread_in_slot i p;
      mret (p, if bool_decide (message_loop (base_thread impl) = caller c)
               then Identifying i else Scanning (S i)))
  | Identifying i => Some (
      impl ← thread_in_slot i p;
      mret (p, if outlives (target c) (Some (identifier_ impl))
               then Reading false else Locking))
  | Locking =>
      if lock (globals p) then None
      else Some (mret (set_globals (globals p <| lock := true |>) p, Reading true))
  | Reading locked => Some (
      slot ← vget (threads (globals p)) (id_value (target c));
      mret (p, match slot with
               | Some _ => Dereferencing locked
               | None => finish locked false
               end))
  | Dereferencing locked => Some (
      impl ← thread_in_slot (index (target c)) p;
      mret (p, match message_loop (base_thread impl) with
               | Some l => Posting locked l
               | None => finish locked false
               end))
  | Posting locked l => Some (
      p ← post_to l (task c) p;
      mret (p, finish locked true))
  | Unlocking result => Some (mret (Release p, Returned result))
  | Returned _ => None
  end.

(** ** A call that runs alone is [PostTaskHelper] *)
Inductive alone (c : Call) : Process * Stage -> Process * Stage -> Prop :=
| alone_step p st p' st' :
    advance (at_stage st c) p = Some (Ok (p', st')) -> alone c (p, st) (p', st').

Lemma alone_next c p st p' st' r :
  advance (at_stage st c) p = Some (Ok (p', st')) ->
  rtc (alone c) (p', st') r -> rtc (alone c) (p, st) r.
Proof. intros ??. eapply rtc_l; [by constructor | done]. Qed.

Lemma scan_alone c p i slots r :
  drop i (threads (globals p)) = slots -> length (threads (globals p)) = 6%nat ->
  (i <= 6)%nat ->
  current_identifier_loop (caller c) slots p = Ok r ->
  rtc (alone c) (p, Scanning i)
    (p, if outlives (target c) r then Reading false else Locking).
Proof.
  intros Hslots Hlen. revert i Hslots. induction slots as [| slot slots IH]; intros i Hd Hi Hrun.
  - injection Hrun as <-. apply (f_equal length) in Hd. rewrite length_drop, Hlen in Hd.
    simpl in Hd. 
    assert (Hge : (i <? 6)%nat = false) by (apply Nat.ltb_ge; lia).
    eapply alone_next; [unfold advance; cbn [at_stage stage]; by rewrite Hge |].
    apply rtc_refl.
  - pose proof (f_equal length Hd) as Hl. rewrite length_drop, Hlen in Hl. simpl in Hl.
    assert (Hslot : threads (globals p) !! i = Some slot).
    { replace i with (i + 0)%nat by lia. by rewrite <- lookup_drop, Hd. }
    assert (Hrest : drop (S i) (threads (globals p)) = slots).
    { rewrite (drop_S _ _ _ Hslot) in Hd. by injection Hd. }
    assert (Hlt : (i <? 6)%nat = true) by (apply Nat.ltb_lt; lia).
    destruct slot as [t |]; simpl in Hrun.
    + eapply alone_next; [unfold advance; cbn [at_stage stage]; by rewrite Hlt, Hslot |].
      apply bind_Ok_inv in Hrun as (impl & Himpl & Hrun).
      assert (Hth : thread_in_slot i p = Ok impl).
      { unfold thread_in_slot. rewrite Hslot. exact Himpl. }
      case_bool_decide as Hcur.
      * injection Hrun as <-.
        eapply alone_next; [cbn; rewrite Hth; cbn; by rewrite bool_decide_eq_true_2 |].
        eapply alone_next; [cbn; by rewrite Hth |]. apply rtc_refl.
      * eapply alone_next; [cbn; rewrite Hth; cbn; by rewrite bool_decide_eq_false_2 |].
        apply IH; [done | lia | done].
    + eapply alone_next; [unfold advance; cbn [at_stage stage]; by rewrite Hlt, Hslot |].
      apply IH; [done | lia | done].
Qed.

(** The part of [PostTaskHelper] after the lock is decided. *)
Lemma read_alone c p p' locked b :
  is_thread (target c) = true ->
  (slot ← vget (threads (globals p)) (id_value (target c));
   l ← match slot with Some t => message_loop_of t p | None => mret None end;
   p ← match l with Some l => post_to l (task c) p | None => mret p end;
   mret (p, bool_decide (is_Some l))) = Ok (p', b) ->
  rtc (alone c) (p, Reading locked) (p', finish locked b).
Proof.
  intros Hid Hrun. apply bind_Ok_inv in Hrun as (slot & Hslot & Hrun).
  assert (Hin : threads (globals p) !! index (target c) = Some slot).
  { by apply vget_Ok in Hslot as [_ ?]. }
  destruct slot as [t |]; cycle 1.
  { simpl in Hrun. injection Hrun as <- <-.
    eapply alone_next; [cbn; by rewrite Hslot |]. apply rtc_refl. }
  eapply alone_next; [cbn; by rewrite Hslot |].
  apply bind_Ok_inv in Hrun as (l & Hl & Hrun). unfold message_loop_of in Hl.
  apply bind_Ok_inv in Hl as (impl & Himpl & Hl). injection Hl as <-.
  assert (Hth : thread_in_slot (index (target c)) p = Ok impl).
  { unfold thread_in_slot. rewrite Hin. exact Himpl. }
  eapply alone_next; [cbn; by rewrite Hth |].
  destruct (message_loop (base_thread impl)) as [l |].
  - apply bind_Ok_inv in Hrun as (p1 & Hp1 & Hrun). injection Hrun as <- <-.
    eapply alone_next; [unfold advance; cbn [at_stage stage task]; by rewrite Hp1 |].
    apply rtc_refl.
  - injection Hrun as <- <-. apply rtc_refl.
Qed.

Lemma PostTaskHelper_alone c p p' b :
  length (threads (globals p)) = 6%nat ->
  PostTaskHelper (caller c) (target c) (closure (task c)) (delay (task c))
    (nestable (task c)) p = Ok (p', b) ->
  rtc (alone c) (p, Begin) (p', Returned b).
Proof.
  intros Hlen Hrun. unfold PostTaskHelper in Hrun.
  apply bind_Ok_inv in Hrun as ([] & Hid & Hrun).
  apply bind_Ok_inv in Hrun as (r & Hr & Hrun).
  set (p0 := set_globals (globals p) p) in *.
  assert (Hstart : rtc (alone c) (p, Begin)
                     (p0, if outlives (target c) r then Reading false else Locking)).
  { unfold GetCurrentThreadIdentifier in Hr.
    destruct (g_globals p) as [g |] eqn:Hg.
    - eapply alone_next; [cbn; rewrite Hid; cbn; rewrite Hg; reflexivity |].
      assert (p0 = p) as ->.
      { subst p0. unfold globals. rewrite Hg. by apply set_globals_same. }
      apply (scan_alone c p 0 (threads g) r); [| done | lia | done].
      unfold globals. by rewrite Hg.
    - injection Hr as <-.
      eapply alone_next; [cbn; rewrite Hid; cbn; rewrite Hg; reflexivity |].
      apply rtc_refl. }
  apply dcheck_Ok in Hid. destruct (task c) as [cl d n] eqn:Htask. simpl in Hrun.
  rewrite <- Htask in Hrun.
  etrans; [exact Hstart |]. destruct (outlives (target c) r).
  - rewrite bind_Ok in Hrun. by apply (read_alone c _ _ false).
  - apply bind_Ok_inv in Hrun as (p1 & Hacq & Hrun). unfold Acquire in Hacq.
    destruct (lock (globals p0)) eqn:Hlock; [done |]. injection Hacq as <-.
    eapply alone_next; [unfold advance; cbn [at_stage stage]; by rewrite Hlock |].
    apply bind_Ok_inv in Hrun as (slot & Hslot & Hrun).
    apply bind_Ok_inv in Hrun as (l & Hl & Hrun).
    apply bind_Ok_inv in Hrun as (p2 & Hp2 & Hrun). injection Hrun as <- <-.
    etrans.
    { apply (read_alone c _ p2 true (bool_decide (is_Some l))); [done |].
      rewrite Hslot, bind_Ok, Hl, bind_Ok, Hp2. done. }
    eapply alone_next; [cbn; reflexivity |]. apply rtc_refl.
Qed.

(** ** Interleavings *)
Record Sys := { process : Process; calls : list Call }.

Definition in_call (s : Sys) (l : loop) : Prop :=
  exists c, c ∈ calls s /\ active c = true /\ caller c = Some l.

(** The loops when the thread [impl] has stopped: its own has ended, unless it
    was given to it by [SetMessageLoop]. *)
Definition loops_after_stop (ended : bool) (impl : WebThreadImpl)
    (ls : gmap loop (list Task)) : gmap loop (list Task) :=
  match message_loop (base_thread impl) with
  | Some l => if ended then delete l ls else ls
  | None => ls
  end.

(** One step of some thread.  Threads are destroyed in two steps, [Stop] and
    the rest of the destructor.  The rules state what the callers are
    documented to do: a thread outlives those below it in the enumeration
    (nothing above it is registered when it is stopped), [Stop] returns once
    the thread has ended, so not during a call it makes, and a thread's loop
    is its own. *)
Inductive sys_step : Sys -> Sys -> Prop :=
| step_call s l id task :
    (forall l', l = Some l' -> is_Some (loops (process s) !! l')) ->
    is_thread id = true ->
    sys_step s {| process := process s;
                  calls := calls s ++ [{| caller := l; target := id; task := task;
                                          stage := Begin |}] |}
| step_advance s n c p st :
    calls s !! n = Some c -> advance c (process s) = Some (Ok (p, st)) ->
    sys_step s {| process := p; calls := <[n := at_stage st c]> (calls s) |}
| step_new s t id p :
    objects (process s) !! t = None ->
    WebThreadImpl_new t id (process s) = Ok p ->
    sys_step s {| process := p; calls := calls s |}
| step_new_with_loop s t id l p :
    objects (process s) !! t = None -> is_Some (loops (process s) !! l) ->
    ~ in_call s l ->
    (forall i t' impl, registered (process s) i t' impl ->
       message_loop (base_thread impl) <> Some l) ->
    WebThreadImpl_new_with_loop t id l (process s) = Ok p ->
    sys_step s {| process := p; calls := calls s |}
| step_start s t impl l :
    objects (process s) !! t = Some impl -> loops (process s) !! l = None ->
    message_loop (base_thread impl) = None ->
    sys_step s
      {| process := process s
           <| objects := <[t := impl <| base_thread := Start l (base_thread impl) |>]>
                           (objects (process s)) |>
           <| loops := <[l := []]> (loops (process s)) |>;
         calls := calls s |}
| step_stop s i t impl p ended :
    registered (process s) i t impl ->
    none_above (Z.of_nat i) (threads (globals (process s))) = true ->
    (forall l, message_loop (base_thread impl) = Some l -> ~ in_call s l) ->
    stop_thread t (process s) = Ok p ->
    sys_step s {| process := p <| loops := loops_after_stop ended impl (loops p) |>;
                  calls := calls s |}
| step_unregister s i t impl p :
    registered (process s) i t impl -> message_loop (base_thread impl) = None ->
    unregister t (process s) = Ok p ->
    sys_step s {| process := p; calls := calls s |}
| step_new_loop s l :
    loops (process s) !! l = None ->
    sys_step s {| process := process s <| loops := <[l := []]> (loops (process s)) |>;
                  calls := calls s |}
| step_run_task s l first tasks :
    loops (process s) !! l = Some (first :: tasks) ->
    sys_step s {| process := process s <| loops := <[l := tasks]> (loops (process s)) |>;
                  calls := calls s |}.

Definition Process_new : Process :=
  {| g_globals := None; objects := ∅; loops := ∅; effects := [] |}.

Definition reachable (s : Sys) : Prop :=
  rtc sys_step {| process := Process_new; calls := [] |} s.

(** ** The invariant *)

(** The loop [l] is that of the thread registered in the slot [k]. *)
Definition web_loop (p : Process) (l : loop) (k : nat) : Prop :=
  exists t impl, registered p k t impl /\ message_loop (base_thread impl) = Some l.

Definition taken (p : Process) (i : nat) : Prop :=
  exists t, threads (globals p) !! i = Some (Some t).

(** What holds of a call made on the thread of the slot [k], to the slot [j]. *)
Definition stage_ok (p : Process) (k j : nat) (st : Stage) : Prop :=
  match st with
  | Begin | Returned _ => True
  | Scanning i => (i <= k)%nat
  | Comparing i => (i <= k)%nat /\ taken p i
  | Identifying i => i = k
  | Locking | Reading true | Dereferencing true | Posting true _ | Unlocking _ =>
      (k < j)%nat
  | Reading false => (j <= k)%nat
  | Dereferencing false => (j <= k)%nat /\ taken p j
  | Posting false l => (j <= k)%nat /\ web_loop p l j
  end.

Definition call_ok (p : Process) (c : Call) : Prop :=
  is_thread (target c) = true /\
  (active c = true -> forall l, caller c = Some l ->
     is_Some (loops p !! l) /\
     forall k, web_loop p l k -> stage_ok p k (index (target c)) (stage c)).

Definition sys_ok (s : Sys) : Prop :=
  table_ok (process s) /\ Forall (call_ok (process s)) (calls s).

(** Up to the slot [k], a step keeps the threads and their loops. *)
Definition keeps (p p' : Process) (k : nat) : Prop :=
  (forall i, (i <= k)%nat -> taken p i -> taken p' i) /\
  (forall i l, (i <= k)%nat -> web_loop p l i -> web_loop p' l i).

Lemma stage_ok_keeps p p' k j st : keeps p p' k -> stage_ok p k j st -> stage_ok p' k j st.
Proof.
  intros [Htaken Hweb]. destruct st as [| | | | | [|] | [|] | [|] | |]; simpl; try tauto.
  - intros []. split; [done | by apply Htaken].
  - intros []. split; [done | by apply Htaken].
  - intros []. split; [done | by apply Hweb].
Qed.

Lemma call_ok_step p p' c :
  call_ok p c ->
  (active c = true -> forall l, caller c = Some l -> is_Some (loops p !! l) ->
     is_Some (loops p' !! l) /\
     forall k, web_loop p' l k -> web_loop p l k /\ keeps p p' k) ->
  call_ok p' c.
Proof.
  intros [Hid Hc] Hstep. split; [done |]. intros Hactive l Hl.
  destruct (Hc Hactive l Hl) as [Hlive Hst].
  destruct (Hstep Hactive l Hl Hlive) as [Hlive' Hweb]. split; [done |].
  intros k Hk. destruct (Hweb k Hk) as [Hk' Hkeeps].
  by eapply stage_ok_keeps, Hst.
Qed.

Lemma calls_ok_step p p' cs :
  Forall (call_ok p) cs ->
  (forall l, in_call {| process := p; calls := cs |} l -> is_Some (loops p !! l) ->
     is_Some (loops p' !! l) /\
     forall k, web_loop p' l k -> web_loop p l k /\ keeps p p' k) ->
  Forall (call_ok p') cs.
Proof.
  intros Hcs Hstep. apply Forall_forall. intros c Hin.
  pose proof (proj1 (Forall_forall _ _) Hcs c Hin) as Hc.
  apply (call_ok_step p); [done |]. intros Hactive l Hl. apply Hstep. by exists c.
Qed.

(** A step that leaves the table and the threads alone. *)
Record same_table (p p' : Process) : Prop := {
  same_threads : threads (globals p') = threads (globals p);
  same_objects : objects p' = objects p;
  same_loops l : is_Some (loops p !! l) -> is_Some (loops p' !! l);
}.

Lemma same_registered p p' i t impl :
  same_table p p' -> registered p' i t impl <-> registered p i t impl.
Proof. intros Hs. unfold registered. by rewrite (same_threads _ _ Hs), (same_objects _ _ Hs). Qed.

Lemma same_web p p' l k : same_table p p' -> web_loop p' l k <-> web_loop p l k.
Proof.
  intros Hs. unfold web_loop, registered.
  by rewrite (same_threads _ _ Hs), (same_objects _ _ Hs).
Qed.

Lemma same_keeps p p' k : same_table p p' -> keeps p p' k.
Proof.
  intros Hs. split.
  - intros i _. unfold taken. by rewrite (same_threads _ _ Hs).
  - intros i l _. by apply same_web.
Qed.

Lemma same_table_ok p p' : same_table p p' -> table_ok p -> table_ok p'.
Proof.
  intros Hs Hp. split.
  - rewrite (same_threads _ _ Hs). apply (table_size p Hp).
  - rewrite (same_threads _ _ Hs), (same_objects _ _ Hs). apply (table_objects p Hp).
  - intros i j t t' impl impl' l Hi Hj. apply (same_registered p p') in Hi, Hj; [| done ..].
    by eapply (table_loops p Hp).
  - intros i t impl l Hi Hl. apply (same_registered p p') in Hi; [| done].
    apply (same_loops _ _ Hs). by eapply (table_live p Hp).
Qed.

Lemma same_calls_ok p p' cs :
  same_table p p' -> Forall (call_ok p) cs -> Forall (call_ok p') cs.
Proof.
  intros Hs Hcs. apply (calls_ok_step p); [done |]. intros l _ Hl.
  split; [by apply (same_loops _ _ Hs) |]. intros k Hk.
  split; [by apply (same_web p p') in Hk | by apply same_keeps].
Qed.

Lemma same_globals p g : threads g = threads (globals p) -> same_table p (set_globals g p).
Proof. intros Hg. by split. Qed.

Lemma same_tasks p l q : same_table p (p <| loops := <[l := q]> (loops p) |>).
Proof.
  split; [done .. |]. intros l' Hl'. simpl.
  destruct (decide (l = l')) as [-> |]; [rewrite lookup_insert_eq; by eexists |].
  by rewrite lookup_insert_ne.
Qed.

(** *** A step of a call *)
Lemma advance_same c p p' st :
  advance c p = Some (Ok (p', st)) -> same_table p p'.
Proof.
  unfold advance. destruct (stage c); intros Hrun.
  - apply (f_equal (from_option id Fault)) in Hrun. simpl in Hrun.
    apply bind_Ok_inv in Hrun as ([] & _ & Hrun).
    destruct (g_globals p); injection Hrun as <- <-; [by split | by apply same_globals].
  - destruct (i <? 6)%nat; injection Hrun as Hrun; [run_inv Hrun | subst]; by split.
  - injection Hrun as Hrun. run_inv Hrun. by split.
  - injection Hrun as Hrun. run_inv Hrun. by split.
  - destruct (lock (globals p)); [done |]. injection Hrun as <- <-. by apply same_globals.
  - injection Hrun as Hrun. run_inv Hrun. by split.
  - injection Hrun as Hrun. run_inv Hrun. by split.
  - injection Hrun as Hrun. run_inv Hrun. unfold post_to in *. run_inv Hrun0.
    apply same_tasks.
  - injection Hrun as <- <-. by apply same_globals.
  - done.
Qed.

Lemma web_loop_unique p l k k' :
  table_ok p -> web_loop p l k -> web_loop p l k' -> k = k'.
Proof.
  intros Hp (t & impl & Hr & Hl) (t' & impl' & Hr' & Hl').
  by eapply (table_loops p Hp).
Qed.

Lemma slot_range p k slot :
  table_ok p -> threads (globals p) !! k = Some slot -> (k < 6)%nat.
Proof. intros Hp Hk%lookup_lt_Some. by rewrite (table_size p Hp) in Hk. Qed.

Lemma thread_in_slot_Ok p i impl :
  thread_in_slot i p = Ok impl <-> exists t, registered p i t impl.
Proof.
  unfold thread_in_slot, registered. split.
  - intros Hrun. run_inv Hrun. unfold deref in *.
    destruct (threads (globals p) !! i) as [[t |] |] eqn:Ht; simplify_eq/=.
    destruct (objects p !! a0) eqn:Ho; simplify_eq/=. by exists a0.
  - intros (t & Ht & Ho). rewrite Ht. simpl. by rewrite Ho.
Qed.

Lemma taken_registered p i :
  table_ok p -> taken p i -> exists t impl, registered p i t impl /\
    thread_in_slot i p = Ok impl /\ id_value (identifier_ impl) = Z.of_nat i.
Proof.
  intros Hp [t Ht]. destruct (table_objects p Hp i t Ht) as (impl & Ho & Hid).
  exists t, impl. split; [done |]. split; [| done]. apply thread_in_slot_Ok. by exists t.
Qed.

Lemma web_loop_taken p l k : web_loop p l k -> taken p k.
Proof. intros (t & impl & [Ht _] & _). by exists t. Qed.

Lemma outlives_index c impl k :
  is_thread (target c) = true -> id_value (identifier_ impl) = Z.of_nat k ->
  outlives (target c) (Some (identifier_ impl)) = (index (target c) <=? k)%nat.
Proof.
  intros [_ Hidx]%is_thread_index Hid. simpl. rewrite Hid, Hidx.
  destruct (Z.leb_spec (Z.of_nat (index (target c))) (Z.of_nat k)).
  - symmetry. apply Nat.leb_le. lia.
  - symmetry. apply Nat.leb_gt. lia.
Qed.

Lemma advance_stage_ok c p p' st l k :
  table_ok p -> is_thread (target c) = true -> caller c = Some l -> web_loop p l k ->
  stage_ok p k (index (target c)) (stage c) ->
  advance c p = Some (Ok (p', st)) -> stage_ok p k (index (target c)) st.
Proof.
  intros Hp Hid Hcaller Hweb Hst Hrun.
  destruct (taken_registered p k Hp (web_loop_taken _ _ _ Hweb))
    as (tk & ik & Hk & Hslotk & Hidk).
  unfold advance in Hrun. destruct (stage c) as [| i | i | i | | locked | locked | locked l' | b |];
    simpl in Hst; injection Hrun as Hrun || idtac.
  - rewrite Hid in Hrun. simpl in Hrun. destruct (g_globals p) eqn:Hg.
    + injection Hrun as <- <-. simpl. lia.
    + destruct Hk as [Hk _]. unfold globals in Hk. rewrite Hg in Hk. simpl in Hk.
      by do 6 (destruct k as [| k]; [done |]).
  - pose proof (slot_range p k _ Hp (proj1 Hk)).
    replace (i <? 6)%nat with true in Hrun by (symmetry; apply Nat.ltb_lt; lia).
    run_inv Hrun. destruct (threads (globals p') !! i) as [[t |] |] eqn:Ht; simplify_eq/=.
    + split; [done | by exists t].
    + assert (i <> k); [| lia]. intros ->. destruct Hk. congruence.
  - run_inv Hrun. apply thread_in_slot_Ok in Hrun0 as (t & Ht).
    case_bool_decide as Hl; simpl.
    + apply (web_loop_unique p' l); [done | | done]. exists t, a. by rewrite Hl.
    + assert (i <> k); [| lia]. intros ->. destruct Hweb as (t' & impl' & Ht' & Hl').
      destruct Ht, Ht'. congruence.
  - subst i. rewrite Hslotk, bind_Ok in Hrun. injection Hrun as <- <-.
    pose proof (outlives_index c ik k Hid Hidk) as Ho. simpl in Ho. rewrite Ho.
    destruct (Nat.leb_spec (index (target c)) k); simpl; lia.
  - destruct (lock (globals p)); [done |]. injection Hrun as <- <-. done.
  - run_inv Hrun. apply vget_Ok in Hrun0 as [_ Hslot].
    destruct a as [t |], locked; simpl; try done. split; [done | by exists t].
  - run_inv Hrun. apply thread_in_slot_Ok in Hrun0 as (t & Ht).
    destruct (message_loop (base_thread a)) eqn:Hl, locked; simpl; try done.
    split; [apply Hst | by exists t, a].
  - run_inv Hrun. by destruct locked.
  - intros; by simplify_eq/=.
  - done.
Qed.

Lemma advance_call_ok c p p' st :
  table_ok p -> call_ok p c -> advance c p = Some (Ok (p', st)) ->
  call_ok p' (at_stage st c).
Proof.
  intros Hp [Hid Hc] Hrun. pose proof (advance_same _ _ _ _ Hrun) as Hsame.
  split; [done |]. intros Hactive l Hl.
  assert (active c = true) as Hbefore.
  { unfold active. destruct (stage c) eqn:Hst; try done.
    unfold advance in Hrun. by rewrite Hst in Hrun. }
  destruct (Hc Hbefore l Hl) as [Hlive Hst].
  split; [by apply (same_loops _ _ Hsame) |]. intros k Hk.
  apply (same_web p p' l k Hsame) in Hk.
  apply (stage_ok_keeps p); [by apply same_keeps |].
  apply (advance_stage_ok c p p' st l k); auto.
Qed.

(** The accesses a call has left, whatever the others do. *)
Definition remaining (st : Stage) : nat :=
  match st with
  | Begin => 30
  | Scanning i => 2 * (6 - i) + 10
  | Comparing i => 2 * (6 - i) + 9
  | Identifying _ => 8
  | Locking => 7
  | Reading _ => 5
  | Dereferencing _ => 4
  | Posting _ _ => 3
  | Unlocking _ => 1
  | Returned _ => 0
  end.

Lemma advance_safe c p l k :
  table_ok p -> call_ok p c -> active c = true -> caller c = Some l -> web_loop p l k ->
  (index (target c) <= k)%nat ->
  exists p' st, advance c p = Some (Ok (p', st)) /\
    (remaining st < remaining (stage c))%nat /\ lock (globals p') = lock (globals p).
Proof.
  intros Hp [Hid Hc] Hactive Hl Hweb Hle.
  destruct (Hc Hactive l Hl) as [_ Hst]. specialize (Hst k Hweb).
  destruct (taken_registered p k Hp (web_loop_taken _ _ _ Hweb))
    as (tk & ik & Hk & Hslotk & Hidk).
  pose proof (slot_range p k _ Hp (proj1 Hk)) as Hrange.
  unfold active in Hactive. unfold advance.
  destruct (stage c) as [| i | i | i | | [|] | [|] | [|] l' | b |];
    simpl in Hst; try lia; try done.
  - rewrite Hid. simpl. destruct (g_globals p) eqn:Hg.
    + eexists _, _. split; [done |]. simpl. split; [lia | done].
    + destruct Hk as [Hk _]. unfold globals in Hk. rewrite Hg in Hk. simpl in Hk.
      by do 6 (destruct k as [| k]; [done |]).
  - replace (i <? 6)%nat with true by (symmetry; apply Nat.ltb_lt; lia).
    destruct (lookup_lt_is_Some_2 (threads (globals p)) i) as [slot Hslot].
    { rewrite (table_size p Hp). lia. }
    rewrite Hslot. simpl. eexists _, _. split; [done |].
    split; [destruct slot; simpl; lia | done].
  - destruct Hst as [Hi Ht]. destruct (taken_registered p i Hp Ht) as (t & impl & _ & -> & _).
    simpl. eexists _, _. split; [done |]. split; [case_bool_decide; simpl; lia | done].
  - subst i. rewrite Hslotk. simpl. eexists _, _. split; [done |]. split; [| done].
    case_match; simpl; lia.
  - destruct (slot_get p (target c) Hp Hid) as (slot & -> & _). simpl.
    eexists _, _. split; [done |]. split; [destruct slot; simpl; lia | done].
  - destruct Hst as [_ Ht].
    destruct (taken_registered p _ Hp Ht) as (t & impl & _ & -> & _). simpl.
    eexists _, _. split; [done |]. split; [case_match; simpl; lia | done].
  - destruct Hst as [_ (t & impl & Ht & Hl')].
    destruct (table_live p Hp _ _ _ _ Ht Hl') as [tasks Htasks].
    unfold post_to. rewrite Htasks. simpl. eexists _, _. split; [done |]. split; [simpl; lia | done].
Qed.

(** *** Creating threads *)
(** A new thread [impl], at a fresh address, in the empty slot [i]. *)
Record inserts (p p' : Process) (i : nat) t (impl : WebThreadImpl) : Prop := {
  inserts_fresh : objects p !! t = None;
  inserts_empty : threads (globals p) !! i = Some None;
  inserts_id : id_value (identifier_ impl) = Z.of_nat i;
  inserts_threads : threads (globals p') = <[i := Some t]> (threads (globals p));
  inserts_objects : objects p' = <[t := impl]> (objects p);
  inserts_loops : loops p' = loops p;
}.

Lemma inserts_new t id p p' base name :
  GetThreadName id = Ok name -> table_ok p -> objects p !! t = None ->
  Initialize t (p <| objects := <[t := {| base_thread := base name; identifier_ := id |}]>
                                  (objects p) |>) = Ok p' ->
  inserts p p' (index id) t {| base_thread := base name; identifier_ := id |}.
Proof.
  intros _ Hp Hfresh Hrun. unfold Initialize, AutoLock, Acquire in Hrun.
  destruct (lock _); [done |]. simpl in Hrun. rewrite lookup_insert_eq in Hrun. simpl in Hrun.
  destruct (is_thread id) eqn:Hid; [| done]. simpl in Hrun.
  destruct (vget _ _) as [slot |] eqn:Hget in Hrun; [| done]. simpl in Hrun.
  case_bool_decide as Hnone; [| done]. subst slot. simpl in Hrun. injection Hrun as <-.
  apply vget_Ok in Hget as [_ Hget]. apply is_thread_index in Hid as [_ Hid].
  split; try done. simpl. unfold vset. by case_bool.
Qed.

Lemma inserts_registered p p' i t impl k t' impl' :
  table_ok p -> inserts p p' i t impl ->
  registered p' k t' impl' <->
  (k = i /\ t' = t /\ impl' = impl) \/ registered p k t' impl'.
Proof.
  intros Hp [Hfresh Hempty _ Ht Ho _]. unfold registered. rewrite Ht, Ho.
  pose proof (lookup_lt_Some _ _ _ Hempty) as Hlt.
  destruct (decide (k = i)) as [-> | Hne].
  - rewrite list_lookup_insert_eq by done. split.
    + intros [[= <-] Hl]. rewrite lookup_insert_eq in Hl. injection Hl as <-. by left.
    + intros [(_ & -> & ->) | [Hl _]]; [| congruence]. by rewrite lookup_insert_eq.
  - rewrite list_lookup_insert_ne by done. split.
    + intros [Hs Hl]. right. split; [done |].
      destruct (decide (t = t')) as [-> | Hnt]; [| by rewrite lookup_insert_ne in Hl].
      destruct (table_objects p Hp _ _ Hs) as (? & ? & _). congruence.
    + intros [(-> & _) | [Hs Hl]]; [done |]. split; [done |].
      rewrite lookup_insert_ne; [done |]. intros ->. congruence.
Qed.

Lemma inserts_keeps p p' i t impl k :
  table_ok p -> inserts p p' i t impl -> keeps p p' k.
Proof.
  intros Hp Hi. split.
  - intros j _ [t' Hj]. destruct (decide (j = i)) as [-> | Hne].
    + rewrite (inserts_empty _ _ _ _ _ Hi) in Hj. done.
    + exists t'. by rewrite (inserts_threads _ _ _ _ _ Hi), list_lookup_insert_ne.
  - intros j l _ (t' & impl' & Hr & Hl). exists t', impl'. split; [| done].
    apply (inserts_registered p p' i t impl); [done .. |]. by right.
Qed.

(** The new thread has no loop, or one that no other thread has. *)
Lemma inserts_ok s p' i t impl :
  sys_ok s -> inserts (process s) p' i t impl ->
  (forall l, message_loop (base_thread impl) = Some l ->
     is_Some (loops (process s) !! l) /\ ~ in_call s l /\
     forall j t' impl', registered (process s) j t' impl' ->
       message_loop (base_thread impl') <> Some l) ->
  sys_ok {| process := p'; calls := calls s |}.
Proof.
  intros [Hp Hcs] Hi Hloop. split; simpl.
  - split.
    + rewrite (inserts_threads _ _ _ _ _ Hi), length_insert. apply (table_size _ Hp).
    + rewrite (inserts_threads _ _ _ _ _ Hi), (inserts_objects _ _ _ _ _ Hi).
      intros j t'. destruct (decide (j = i)) as [-> | Hne].
      * rewrite list_lookup_insert_eq by apply (lookup_lt_Some _ _ _ (inserts_empty _ _ _ _ _ Hi)).
        intros [= <-]. exists impl. rewrite lookup_insert_eq. split; [done |].
        apply (inserts_id _ _ _ _ _ Hi).
      * rewrite list_lookup_insert_ne by done. intros Hj.
        destruct (table_objects _ Hp j t' Hj) as (impl' & Ho & Hid). exists impl'.
        split; [| done]. rewrite lookup_insert_ne; [done |]. intros ->.
        rewrite (inserts_fresh _ _ _ _ _ Hi) in Ho. done.
    + intros j j' t1 t2 impl1 impl2 l Hr1 Hr2 Hl1 Hl2.
      apply (inserts_registered _ _ _ _ _ _ _ _ Hp Hi) in Hr1, Hr2.
      destruct Hr1 as [(-> & -> & ->) | Hr1], Hr2 as [(-> & -> & ->) | Hr2]; [done | | |].
      * destruct (Hloop l Hl1) as (_ & _ & Hno). by destruct (Hno _ _ _ Hr2).
      * destruct (Hloop l Hl2) as (_ & _ & Hno). by destruct (Hno _ _ _ Hr1).
      * by eapply (table_loops _ Hp).
    + intros j t1 impl1 l Hr Hl. rewrite (inserts_loops _ _ _ _ _ Hi).
      apply (inserts_registered _ _ _ _ _ _ _ _ Hp Hi) in Hr.
      destruct Hr as [(-> & -> & ->) | Hr]; [by apply Hloop | by eapply (table_live _ Hp)].
  - apply (calls_ok_step (process s)); [done |]. intros l Hin Hl.
    rewrite (inserts_loops _ _ _ _ _ Hi). split; [done |].
    intros k (t1 & impl1 & Hr & Hl1). split; [| by eapply inserts_keeps].
    apply (inserts_registered _ _ _ _ _ _ _ _ Hp Hi) in Hr.
    destruct Hr as [(-> & -> & ->) | Hr]; [| by exists t1, impl1].
    by destruct (Hloop l Hl1) as (_ & [] & _).
Qed.

(** *** Starting, stopping and destroying threads *)
Lemma slot_unique p i j t impl impl' :
  table_ok p -> registered p i t impl -> registered p j t impl' -> i = j.
Proof.
  intros Hp [Hi Ho] [Hj Ho']. 
  destruct (table_objects p Hp i t Hi) as (i1 & ? & H1).
  destruct (table_objects p Hp j t Hj) as (i2 & ? & H2).
  assert (i1 = i2) by congruence. subst. lia.
Qed.

(** The thread object at [t] gets another [base::Thread]. *)
Definition with_thread (p : Process) t (impl : WebThreadImpl) (base : BaseThread) : Process :=
  p <| objects := <[t := impl <| base_thread := base |>]> (objects p) |>.

Lemma with_thread_registered p t impl base k t' impl' :
  objects p !! t = Some impl ->
  registered (with_thread p t impl base) k t' impl' <->
  (t' = t /\ impl' = impl <| base_thread := base |> /\ registered p k t impl) \/
  (t' <> t /\ registered p k t' impl').
Proof.
  intros Ho. unfold registered, with_thread. simpl.
  change (globals (p <| objects := _ |>)) with (globals p).
  destruct (decide (t' = t)) as [-> | Hne].
  - rewrite lookup_insert_eq. split.
    + intros [Hs [= <-]]. by left.
    + intros [(_ & -> & Hs & _) | [? _]]; done.
  - rewrite lookup_insert_ne by done. naive_solver.
Qed.

(** Such a change keeps the table well formed when the new loop, if any, is
    live and of no other thread. *)
Lemma with_thread_table p t impl base ls :
  table_ok p -> objects p !! t = Some impl ->
  (forall l, message_loop base = Some l ->
     is_Some (ls !! l) /\ forall j t' impl', registered p j t' impl' -> t' <> t ->
       message_loop (base_thread impl') <> Some l) ->
  (forall j t' impl' l, registered p j t' impl' -> t' <> t ->
     message_loop (base_thread impl') = Some l -> is_Some (ls !! l)) ->
  table_ok (with_thread p t impl base <| loops := ls |>).
Proof.
  intros Hp Ho Hbase Hlive.
  assert (Hreg : forall k t' impl',
    registered (with_thread p t impl base <| loops := ls |>) k t' impl' <->
    registered (with_thread p t impl base) k t' impl') by done.
  split.
  - apply (table_size p Hp).
  - intros i t' Hi. destruct (table_objects p Hp i t' Hi) as (impl' & Ho' & Hid). simpl.
    destruct (decide (t = t')) as [<- | Hne].
    + rewrite lookup_insert_eq. eexists. split; [done |]. simpl.
      by assert (impl' = impl) as -> by congruence.
    + rewrite lookup_insert_ne by done. eauto.
  - intros i j t1 t2 i1 i2 l H1 H2 Hl1 Hl2. rewrite Hreg in H1, H2.
    apply with_thread_registered in H1, H2; [| done ..].
    destruct H1 as [(-> & -> & H1) | [Hn1 H1]], H2 as [(-> & -> & H2) | [Hn2 H2]].
    + by eapply slot_unique.
    + destruct (Hbase l Hl1) as [_ Hno]. by destruct (Hno _ _ _ H2).
    + destruct (Hbase l Hl2) as [_ Hno]. by destruct (Hno _ _ _ H1).
    + by eapply (table_loops p Hp).
  - intros i t1 i1 l H1 Hl. rewrite Hreg in H1.
    apply with_thread_registered in H1; [| done].
    destruct H1 as [(-> & -> & H1) | [Hn1 H1]]; [by apply Hbase |].
    simpl. by eapply Hlive.
Qed.

Lemma with_thread_web p t impl base ls l k :
  objects p !! t = Some impl -> message_loop base <> Some l ->
  web_loop (with_thread p t impl base <| loops := ls |>) l k ->
  exists t' impl', registered p k t' impl' /\ t' <> t /\
    message_loop (base_thread impl') = Some l.
Proof.
  intros Ho Hbase (t' & impl' & Hr & Hl).
  assert (registered (with_thread p t impl base) k t' impl') as Hr' by exact Hr.
  apply with_thread_registered in Hr'; [| done].
  destruct Hr' as [(-> & -> & _) | [Hne Hr']]; [done |]. by exists t', impl'.
Qed.

Lemma with_thread_keeps p t impl base ls k :
  objects p !! t = Some impl ->
  (forall i l, (i <= k)%nat -> registered p i t impl ->
     message_loop (base_thread impl) <> Some l) ->
  keeps p (with_thread p t impl base <| loops := ls |>) k.
Proof.
  intros Ho Hno. split; [by intros |]. intros i l Hi (t' & impl' & Hr & Hl).
  exists t', impl'. split; [| done].
  assert (registered (with_thread p t impl base) i t' impl'); [| done].
  apply with_thread_registered; [done |]. right.
  destruct (decide (t' = t)) as [-> | Hne]; [| done]. exfalso.
  assert (impl' = impl) as -> by (destruct Hr; congruence). by eapply Hno.
Qed.

Lemma none_above_slot p i k : none_above (Z.of_nat i) (threads (globals p)) = true ->
  (i < k)%nat -> ~ taken p k.
Proof.
  intros Hnone Hik [t Hk]. unfold none_above in Hnone.
  rewrite forallb_forall in Hnone.
  assert (In (Some t) (drop (Z.to_nat (Z.of_nat i + 1)) (threads (globals p)))) as Hin.
  { apply list_elem_of_In, list_elem_of_lookup_2 with (k - (i + 1))%nat.
    rewrite lookup_drop. replace (Z.to_nat (Z.of_nat i + 1) + _)%nat with k by lia. done. }
  apply Hnone in Hin. by apply bool_decide_eq_true in Hin.
Qed.

Context (Hlaws : thread_laws).

Lemma start_ok s t impl l :
  sys_ok s -> objects (process s) !! t = Some impl -> loops (process s) !! l = None ->
  message_loop (base_thread impl) = None ->
  sys_ok {| process := with_thread (process s) t impl (Start l (base_thread impl))
                         <| loops := <[l := []]> (loops (process s)) |>;
            calls := calls s |}.
Proof.
  intros [Hp Hcs] Ho Hfresh Hnone.
  assert (Hother : forall j t' impl' l', registered (process s) j t' impl' ->
    message_loop (base_thread impl') = Some l' -> l' <> l).
  { intros j t' impl' l' Hr Hl ->. destruct (table_live _ Hp _ _ _ _ Hr Hl). congruence. }
  split; simpl.
  - apply with_thread_table; [done .. | |].
    + intros l' Hl'. rewrite (started_has_loop Hlaws) in Hl'. injection Hl' as <-.
      rewrite lookup_insert_eq. split; [by eexists |].
      intros j t' impl' Hr _ Hl. by eapply Hother.
    + intros j t' impl' l' Hr _ Hl. rewrite lookup_insert_ne.
      * by eapply (table_live _ Hp).
      * intros <-. by eapply Hother.
  - apply (calls_ok_step (process s)); [done |]. intros l' Hin Hl'. simpl.
    assert (l <> l') by (intros <-; destruct Hl'; congruence).
    split; [by rewrite lookup_insert_ne |]. intros k Hk. split.
    + apply with_thread_web in Hk as (t' & impl' & Hr & _ & Hl); [| done |].
      * by exists t', impl'.
      * rewrite (started_has_loop Hlaws). congruence.
    + apply with_thread_keeps; [done |]. intros. by rewrite Hnone.
Qed.

Lemma stop_ok s i t impl ended :
  sys_ok s -> registered (process s) i t impl ->
  none_above (Z.of_nat i) (threads (globals (process s))) = true ->
  (forall l, message_loop (base_thread impl) = Some l -> ~ in_call s l) ->
  sys_ok {| process :=
              with_thread (process s) t impl (Stop (base_thread impl))
                <| loops := loops_after_stop ended impl (loops (process s)) |>;
            calls := calls s |}.
Proof.
  intros [Hp Hcs] Hreg Hnone Hcall.
  set (ls := loops_after_stop _ _ _).
  assert (Hls : forall l, is_Some (loops (process s) !! l) ->
            message_loop (base_thread impl) <> Some l -> is_Some (ls !! l)).
  { intros l Hl Hne. subst ls. unfold loops_after_stop.
    destruct (message_loop (base_thread impl)), ended; try done.
    rewrite lookup_delete_ne; congruence. }
  split; simpl.
  - apply with_thread_table; [done | apply Hreg | |].
    + intros l Hl. by rewrite (stopped_has_no_loop Hlaws) in Hl.
    + intros j t' impl' l Hr Hne Hl. apply Hls; [by eapply (table_live _ Hp) |].
      intros Hl'. pose proof (table_loops _ Hp _ _ _ _ _ _ _ Hr Hreg Hl Hl') as ->.
      destruct Hr, Hreg. congruence.
  - apply (calls_ok_step (process s)); [done |]. intros l Hin Hl. simpl. split.
    { apply Hls; [done |]. intros Hl'. by apply (Hcall l). }
    intros k Hk. apply with_thread_web in Hk as (t' & impl' & Hr & Hne & Hl');
      [| apply Hreg | by rewrite (stopped_has_no_loop Hlaws)].
    split; [by exists t', impl' |]. apply with_thread_keeps; [apply Hreg |].
    intros j l' Hj Hr' _. pose proof (slot_unique _ _ _ _ _ _ Hp Hr' Hreg) as ->.
    assert (k <> i) by (intros ->; destruct Hr, Hreg; congruence).
    apply (none_above_slot _ i k Hnone); [lia |]. destruct Hr as [Hr _]. by exists t'.
Qed.

Lemma unregister_inv p p' t impl :
  objects p !! t = Some impl -> unregister t p = Ok p' ->
  threads (globals p') = vset (id_value (identifier_ impl)) None (threads (globals p)) /\
  none_above (id_value (identifier_ impl)) (threads (globals p')) = true /\
  objects p' = delete t (objects p) /\ loops p' = loops p.
Proof.
  intros Ho Hrun. unfold unregister, AutoLock, Acquire in Hrun. rewrite Ho in Hrun.
  simpl in Hrun. destruct (lock _); [done |]. simpl in Hrun.
  destruct (none_above _ _) eqn:Hnone in Hrun; [| done]. simpl in Hrun.
  injection Hrun as <-. done.
Qed.

Lemma unregister_ok s i t impl p :
  sys_ok s -> registered (process s) i t impl -> message_loop (base_thread impl) = None ->
  unregister t (process s) = Ok p -> sys_ok {| process := p; calls := calls s |}.
Proof.
  intros [Hp Hcs] Hreg Hloop Hrun. pose proof Hreg as [Hi Ho].
  destruct (unregister_inv _ _ _ _ Ho Hrun) as (Ht & Hnone & Hobj & Hls).
  destruct (table_objects _ Hp i t Hi) as (impl0 & ? & Hid).
  assert (impl0 = impl) as -> by congruence.
  rewrite Hid in Hnone. rewrite Hid, vset_in_range, Nat2Z.id in Ht by lia.
  assert (Hreg' : forall k t' impl', registered p k t' impl' <->
            k <> i /\ registered (process s) k t' impl').
  { intros k t' impl'. unfold registered. rewrite Ht, Hobj.
    destruct (decide (k = i)) as [-> | Hne].
    - rewrite list_lookup_insert_eq by (by eapply lookup_lt_Some). naive_solver.
    - rewrite list_lookup_insert_ne by done. split.
      + intros [Hk Hl]. apply lookup_delete_Some in Hl. naive_solver.
      + intros (_ & Hk & Hl). split; [done |]. rewrite lookup_delete_ne; [done |].
        intros <-. apply Hne. eapply slot_unique; [exact Hp | by split | done]. }
  split; simpl.
  - split.
    + rewrite Ht, length_insert. apply (table_size _ Hp).
    + intros j t' Hj. rewrite Ht in Hj. destruct (decide (j = i)) as [-> | Hne].
      { rewrite list_lookup_insert_eq in Hj by (by eapply lookup_lt_Some). done. }
      rewrite list_lookup_insert_ne in Hj by done.
      destruct (table_objects _ Hp j t' Hj) as (impl' & Ho' & Hid').
      exists impl'. split; [| done].
      by apply (Hreg' j t' impl').
    + intros j j' t1 t2 i1 i2 l [_ H1]%Hreg' [_ H2]%Hreg'. by eapply (table_loops _ Hp).
    + intros j t1 i1 l [_ H1]%Hreg'. rewrite Hls. by eapply (table_live _ Hp).
  - apply (calls_ok_step (process s)); [done |]. intros l Hin Hl. rewrite Hls.
    split; [done |]. intros k (t' & impl' & [Hne Hr]%Hreg' & Hl').
    split; [by exists t', impl' |].
    assert (k < i)%nat as Hki.
    { destruct (decide (k < i)%nat); [done |]. exfalso.
      apply (none_above_slot p i k Hnone); [lia |]. exists t'. by apply (Hreg' k t' impl'). }
    split.
    + intros j Hj [t1 H1]. exists t1. rewrite Ht, list_lookup_insert_ne; [done | lia].
    + intros j l1 Hj (t1 & i1 & H1 & Hl1). exists t1, i1. split; [| done].
      apply Hreg'. split; [lia | done].
Qed.

(** *** Every step keeps the invariant *)
Lemma initial_ok : sys_ok {| process := Process_new; calls := [] |}.
Proof.
  assert (Hnone : forall i t, threads (globals Process_new) !! i <> Some (Some t)).
  { intros i t Hi. by do 6 (destruct i as [| i]; [done |]). }
  split; [| by constructor]. simpl. split.
  - done.
  - intros i t Hi. by apply Hnone in Hi.
  - intros i j t t' impl impl' l [Hi _]. by apply Hnone in Hi.
  - intros i t impl l [Hi _]. by apply Hnone in Hi.
Qed.

Lemma same_sys_ok s p : same_table (process s) p -> sys_ok s ->
  sys_ok {| process := p; calls := calls s |}.
Proof.
  intros Hsame [Hp Hcs]. split; [by eapply same_table_ok | by eapply same_calls_ok].
Qed.

Lemma sys_step_ok s s' : sys_ok s -> sys_step s s' -> sys_ok s'.
Proof.
  intros Hs Hstep. pose proof Hs as [Hp Hcs].
  destruct Hstep as [s l id task Hl Hid | s n c p st Hc Hrun | s t id p Hfresh Hrun
    | s t id l p Hfresh Hl Hin Hno Hrun | s t impl l Ho Hl Hnone
    | s i t impl p ended Hreg Hnone Hcall Hrun | s i t impl p Hreg Hloop Hrun
    | s l Hl | s l first tasks Hl].
  - split; simpl; [done |]. apply Forall_app_2; [done |]. constructor; [| constructor].
    split; [done |]. simpl. intros _ l' Hl'. split; [by apply Hl | done].
  - pose proof (advance_same _ _ _ _ Hrun) as Hsame. split; simpl.
    + by eapply same_table_ok.
    + apply Forall_insert; [by eapply same_calls_ok |].
      eapply advance_call_ok; [done | | done]. by eapply (Forall_lookup_1 _ _ n).
  - unfold WebThreadImpl_new in Hrun.
    apply bind_Ok_inv in Hrun as (name & Hname & Hrun).
    pose proof (inserts_new t id _ p Thread_new name Hname Hp Hfresh Hrun) as Hi.
    eapply inserts_ok; [done | exact Hi |]. simpl. intros l.
    by rewrite (new_has_no_loop Hlaws).
  - unfold WebThreadImpl_new_with_loop in Hrun.
    apply bind_Ok_inv in Hrun as (name & Hname & Hrun).
    pose proof (inserts_new t id _ p (fun name => SetMessageLoop l (Thread_new name))
      name Hname Hp Hfresh Hrun) as Hi.
    eapply inserts_ok; [done | exact Hi |]. simpl. intros l'.
    rewrite (set_loop Hlaws). intros [= <-]. done.
  - by apply start_ok.
  - unfold stop_thread in Hrun. destruct Hreg as [Hi Ho]. rewrite Ho in Hrun.
    injection Hrun as <-.
    exact (stop_ok s i t impl ended Hs (conj Hi Ho) Hnone Hcall).
  - by eapply unregister_ok.
  - apply same_sys_ok; [apply same_tasks | done].
  - apply same_sys_ok; [apply same_tasks | done].
Qed.

Lemma reachable_ok s : reachable s -> sys_ok s.
Proof.
  unfold reachable. generalize initial_ok.
  generalize ({| process := Process_new; calls := [] |} : Sys). intros s0 H0 Hsteps.
  induction Hsteps as [| s0 s1 s2 Hstep _ IH]; [done |]. apply IH. by eapply sys_step_ok.
Qed.

(** C10. In every interleaving of posts with the creation, the start, the stop
    and the destruction of threads, a post made on a web thread to a thread
    that outlives it (itself included) is wait-free: whatever the others do
    between two of its accesses, each next access succeeds (no null or
    dangling thread is read, the loop it posts to is alive), it never waits
    for the lock nor takes it, and at most thirty accesses finish it. *)
Theorem unlocked_post_is_safe s n c l t impl :
  reachable s -> calls s !! n = Some c -> active c = true -> caller c = Some l ->
  registered (process s) (index (identifier_ impl)) t impl ->
  message_loop (base_thread impl) = Some l ->
  (id_value (target c) <= id_value (identifier_ impl))%Z ->
  (remaining (stage c) <= 30)%nat /\
  exists p' st, advance c (process s) = Some (Ok (p', st)) /\
    (remaining st < remaining (stage c))%nat /\
    lock (globals p') = lock (globals (process s)).
Proof.
  intros [Hp Hcs]%reachable_ok Hc Hactive Hl Hreg Hloop Hle. split.
  { destruct (stage c); simpl; lia. }
  apply (advance_safe c _ l (index (identifier_ impl))); [done | | done.. | |].
  - by eapply (Forall_lookup_1 _ _ n).
  - by exists t, impl.
  - unfold index. lia.
Qed.

(** ** A thread without message loop *)
Definition foreign_call (st : Stage) (task : Task) : Call :=
  {| caller := None; target := DB; task := task; stage := st |}.

(** The thread for the database is created, stopped and destroyed. *)
Definition created : Process := from_ok Process_new (WebThreadImpl_new 0 DB Process_new).
Definition stopped : Process := from_ok created (stop_thread 0 created).
Definition destroyed : Process := from_ok stopped (unregister 0 stopped).

Definition db_thread : WebThreadImpl :=
  {| base_thread := Thread_new "Web_DBThread"; identifier_ := DB |}.

Lemma created_registered : registered created 1 0%nat db_thread.
Proof. by split. Qed.

Lemma stopped_registered :
  registered stopped 1 0%nat (db_thread <| base_thread := Stop (base_thread db_thread) |>).
Proof. by split. Qed.

(** The array of threads is read without the lock, against its comment,
    and the header's "always safe to call PostTask on any thread" fails: a
    call on a thread that is not a web thread (here, one without message
    loop) dereferences the null pointer that the destruction of a thread
    leaves between the test and the use of it. *)
Lemma foreign_post_faults (task : Task) :
  exists s c, reachable s /\ calls s !! 0%nat = Some c /\ caller c = None /\
    advance c (process s) = Some Fault.
Proof.
  exists {| process := destroyed; calls := [foreign_call (Comparing 1) task] |},
    (foreign_call (Comparing 1) task).
  split; [| by split].
  eapply rtc_l; [apply (step_new _ 0%nat DB created); [done | by apply (okb_run Process_new)] |].
  eapply rtc_l; [by apply (step_call _ None DB task) |].
  eapply rtc_l; [by apply (step_advance _ 0 (foreign_call Begin task) created (Scanning 0)) |].
  eapply rtc_l;
    [by apply (step_advance _ 0 (foreign_call (Scanning 0) task) created (Scanning 1)) |].
  eapply rtc_l;
    [by apply (step_advance _ 0 (foreign_call (Scanning 1) task) created (Comparing 1)) |].
  eapply rtc_l.
  { apply (step_stop _ 1 0%nat db_thread stopped true); [apply created_registered | done | |].
    - intros l. simpl. by rewrite (new_has_no_loop Hlaws).
    - by apply (okb_run created). }
  unfold loops_after_stop. simpl. rewrite (new_has_no_loop Hlaws).
  eapply rtc_l; [| apply rtc_refl].
  eapply step_unregister; [apply stopped_registered | apply (stopped_has_no_loop Hlaws) |].
  by apply (okb_run stopped).
Qed.
End posts.

(** ** Concrete threads *)
Module ConcreteThreads.
#[export] Instance concrete_threads : ThreadApi := {|
  BaseThread := string * option nat;
  Thread_new name := (name, None);
  message_loop t := t.2;
  SetMessageLoop l t := (t.1, Some l);
  Start l t := (t.1, Some l);
  Stop t := (t.1, None);
  Closure := nat;
  with_reply _ task _ := task;
  deleter object := object;
  SequencedWorkerPool := list nat;
  SequencedWorkerPool_new _ _ := [];
  PostWorkerTask task pool := (pool ++ [task], true);
  PostTaskAndReply_pool task _ pool := (pool ++ [task], true);
  PostNamedSequencedWorkerTask _ task pool := (pool ++ [task], true);
  Shutdown_pool _ _ := [];
  FlushForTesting_pool _ := [];
|}.

Lemma concrete_thread_laws : thread_laws.
Proof. by split. Qed.

Definition a_task : Closure := 1%nat.

(** The UI thread, with the loop 7, is the only one. *)
Definition with_loop : Process :=
  Process_new <| loops := <[7%nat := []]> (loops Process_new) |>.
Definition ui_process : Process :=
  from_ok with_loop (WebThreadImpl_new_with_loop 0 UI 7 with_loop).
Definition ui_thread : WebThreadImpl :=
  {| base_thread := ("Web_UIThread"%string, Some 7%nat); identifier_ := UI |}.
Definition ui_call : Call :=
  {| caller := Some 7%nat; target := UI;
     task := {| closure := a_task; delay := 0; nestable := true |}; stage := Begin |}.

Lemma ui_reachable : reachable {| process := ui_process; calls := [ui_call] |}.
Proof.
  eapply rtc_l; [by apply (step_new_loop _ 7) |].
  eapply rtc_l.
  { apply (step_new_with_loop _ 0%nat UI 7 ui_process); simpl; [done | by eexists | | |].
    - intros (c & Hc & _). by apply elem_of_nil in Hc.
    - intros i t impl [Hi _]. by do 6 (destruct i as [| i]; [done |]).
    - by apply (okb_run with_loop). }
  eapply rtc_l; [| apply rtc_refl].
  refine (step_call {| process := ui_process; calls := [] |} (Some 7%nat) UI
            (task ui_call) _ eq_refl).
  intros l [= <-]. by eexists.
Qed.

Lemma ui_table : table_ok ui_process.
Proof. apply (reachable_ok concrete_thread_laws _ ui_reachable). Qed.

Lemma unlocked_post_is_safe_witness :
  exists p' st, advance ui_call ui_process = Some (Ok (p', st)) /\
    (remaining st < 30)%nat /\ lock (globals p') = false.
Proof.
  destruct (unlocked_post_is_safe concrete_thread_laws
              {| process := ui_process; calls := [ui_call] |} 0 ui_call 7 0 ui_thread
              ui_reachable eq_refl eq_refl eq_refl ltac:(by split) eq_refl
              ltac:(by apply Z.leb_le)) as [_ Hsafe].
  exact Hsafe.
Defined.

Lemma foreign_post_faults_witness :
  exists s c, reachable s /\ calls s !! 0%nat = Some c /\ caller c = None /\
    advance c (process s) = Some Fault.
Proof. exact (foreign_post_faults concrete_thread_laws (task ui_call)). Defined.

Lemma PostTaskHelper_spec_witness :
  okb (PostTaskHelper (Some 7%nat) UI a_task 0 true ui_process) = true.
Proof.
  rewrite (PostTaskHelper_spec (Some 7%nat) UI a_task 0 true ui_process ui_table
             eq_refl eq_refl).
  reflexivity.
Defined.

Lemma CurrentlyOn_agrees_witness :
  exists r, GetCurrentThreadIdentifier (Some 7%nat) ui_process = Ok r /\
    CurrentlyOn (Some 7%nat) UI ui_process =
      Ok (set_globals (globals ui_process) ui_process, bool_decide (r = Some UI)).
Proof.
  destruct (CurrentlyOn_agrees 7 ui_process ui_table eq_refl) as (r & Hr & Hon).
  exists r. split; [exact Hr | exact (Hon UI eq_refl)].
Defined.

(** A thread without message loop is taken for any registered thread that has
    none. *)
Definition unstarted : Process := from_ok ui_process (WebThreadImpl_new 1 IO ui_process).

Lemma loopless_thread_is_unstarted_thread :
  GetCurrentThreadIdentifier None unstarted = Ok (Some IO) /\
  (snd <$> from_ok None (p ← CurrentlyOn None IO unstarted; mret (Some p))) = Some true.
Proof. vm_compute. auto. Qed.
End ConcreteThreads.
