(* ===== verification/OfflineExternal.v ===== *)
(** * External code of the offline pages

    What the reading list calls and that is not part of the repository: the
    file functions of [base], the offline paths of [components/reading_list],
    and the functions on URLs and page texts of [url], [net] and
    [components/dom_distiller].  They are classes; [ConcreteOffline] is an
    instance of all of them on which the witnesses run. *)
From S2P Require Import Prelude Text External.

(** ** [base/files/file_util.h] *)
Class FileApi := {
  FilePath : Type;
  FilePath_eq_dec : EqDecision FilePath;
(** [FilePath()], the path whose [empty()] is true *)
FilePath_empty : FilePath;
Append : FilePath -> string -> FilePath;
FileSystem : Type;
PathExists : FilePath -> FileSystem -> bool;
DirectoryExists : FilePath -> FileSystem -> bool;
(** [DeleteFile(path, true)] *)
DeleteFile : FilePath -> FileSystem -> FileSystem * bool;
CreateDirectoryAndGetError : FilePath -> FileSystem -> FileSystem * bool;
(** The number of bytes written, -1 on error. *)
WriteFile : FilePath -> text -> FileSystem -> FileSystem * Z;
Move : FilePath -> FilePath -> FileSystem -> FileSystem * bool;
(** The directories [FileEnumerator(path, false, DIRECTORIES)] gives, in order. *)
Subdirectories : FilePath -> FileSystem -> list FilePath;
(** [BaseName().value()] *)
BaseName : FilePath -> string;
(** [None] when the size is not available. *)
GetFileSize : FilePath -> FileSystem -> option Z;
}.
#[export] Existing Instance FilePath_eq_dec.

(** The size of a file that was moved to a path is available. *)
Definition moved_files_have_size `{FileApi} : Prop :=
  forall from to fs fs',
    Move from to fs = (fs', true) -> is_Some (GetFileSize to fs').

(** The directories listed exist and their paths are not empty; a deletion that
    succeeds removes the directory and no deletion touches a sibling. *)
Record directory_laws `{FileApi} : Prop := {
  subdirectory_exists root fs p :
    p ∈ Subdirectories root fs -> DirectoryExists p fs = true /\ p <> FilePath_empty;
  deleted_gone p fs :
    (DeleteFile p fs).2 = true -> DirectoryExists p (DeleteFile p fs).1 = false;
  delete_sibling root fs p q fs' :
    p ∈ Subdirectories root fs -> q ∈ Subdirectories root fs -> p <> q ->
    DirectoryExists q (DeleteFile p fs').1 = DirectoryExists q fs';
}.

(** ** [components/reading_list/core/offline_url_utils.h] *)
Class OfflinePathApi `{GurlApi} `{FileApi} := {
  OfflineFileType : Type;
  OFFLINE_TYPE_HTML : OfflineFileType;
  OFFLINE_TYPE_PDF : OfflineFileType;
  OfflineRootDirectoryPath : FilePath -> FilePath;
  OfflineURLDirectoryID : GURL -> string;
  OfflineURLDirectoryAbsolutePath : FilePath -> GURL -> FilePath;
  OfflinePagePath : GURL -> OfflineFileType -> FilePath;
  OfflineURLAbsolutePathFromRelativePath : FilePath -> FilePath -> FilePath;
}.

(** ** URLs as text *)
Class UrlTextApi `{GurlApi} := {
  spec : GURL -> text;
(** [GURL(string)] *)
GURL_of_text : text -> GURL;
SchemeIs : GURL -> string -> bool;
SchemeIsCryptographic : GURL -> bool;
(** [operator<] *)
GURL_less : GURL -> GURL -> bool;
(** [net::EscapeForHTML] *)
EscapeForHTML : text -> text;
(** [base::MD5String] *)
MD5String : text -> string;
(** [dom_distiller::viewer::GetUnsafeArticleTemplateHtml], for the theme and
    the font of the preferences *)
GetUnsafeArticleTemplateHtml : text -> text;
}.

(** ** Parts of URLs: [url/gurl.h], [net/base/url_util.h] *)
Class UrlPartsApi `{GurlApi} `{FileApi} := {
host : GURL -> string;
path : GURL -> text;
path_value : FilePath -> text;
(** [url.ReplaceComponents] with [SetPathStr] *)
ReplacePath : text -> GURL -> GURL;
(** [Resolve(".")] *)
ResolveDirectory : GURL -> GURL;
AppendQueryParameter : GURL -> string -> text -> GURL;
GetValueForKeyInQuery : GURL -> string -> option text;
}.

(** A parameter appended under a key that the query does not have is read
    back, the other parameters are kept, and the scheme and the host are not
    changed; replacing the path changes none of these. *)
Record query_laws `{UrlPartsApi} `{!UrlTextApi} : Prop := {
  read_appended u key value :
    GetValueForKeyInQuery u key = None ->
    GetValueForKeyInQuery (AppendQueryParameter u key value) key = Some value;
  read_other u key key' value :
    key <> key' ->
    GetValueForKeyInQuery (AppendQueryParameter u key value) key'
    = GetValueForKeyInQuery u key';
  append_host u key value : host (AppendQueryParameter u key value) = host u;
  append_scheme u key value scheme :
    SchemeIs (AppendQueryParameter u key value) scheme = SchemeIs u scheme;
  replace_query u t key :
    GetValueForKeyInQuery (ReplacePath t u) key = GetValueForKeyInQuery u key;
  replace_host u t : host (ReplacePath t u) = host u;
  replace_scheme u t scheme :
    SchemeIs (ReplacePath t u) scheme = SchemeIs u scheme;
}.

(** ** [components/reading_list/core/reading_list_model.h] *)
Inductive DistilledState_t :=
| WAITING | PROCESSING | PROCESSED | WILL_RETRY | DISTILLATION_ERROR.

#[export] Instance DistilledState_eq_dec : EqDecision DistilledState_t.
Proof. solve_decision. Defined.

Class ReadingListModelApi `{GurlApi} `{FileApi} := {
  ReadingListModel : Type;
  ReadingListEntry : Type;
  loaded : ReadingListModel -> bool;
  Keys : ReadingListModel -> list GURL;
  GetEntryByURL : ReadingListModel -> GURL -> option ReadingListEntry;
(** The URL of the entry. *)
EntryURL : ReadingListEntry -> GURL;
IsRead : ReadingListEntry -> bool;
DistilledState : ReadingListEntry -> DistilledState_t;
DistilledPath : ReadingListEntry -> FilePath;
DistilledURL : ReadingListEntry -> GURL;
FailedDownloadCounter : ReadingListEntry -> Z;
(** In milliseconds. *)
TimeUntilNextTry : ReadingListEntry -> Z;
SetEntryDistilledState : GURL -> DistilledState_t -> ReadingListModel -> ReadingListModel;
(** path, distilled URL, size, time *)
SetEntryDistilledInfo :
  GURL -> FilePath -> GURL -> Z -> Z -> ReadingListModel -> ReadingListModel;
SetEntryTitle : GURL -> string -> ReadingListModel -> ReadingListModel;
(** [base::CollapseWhitespaceASCII(title, false)] *)
CollapseWhitespaceASCII : string -> string;
}.

(** [GetEntryByURL] gives the entry of that URL. *)
Definition entries_have_their_url `{ReadingListModelApi} : Prop :=
  forall model url entry,
    GetEntryByURL model url = Some entry -> EntryURL entry = url.

(** Counting failures: a state set is the state of the entry, whose other data
    stay; entering [WILL_RETRY] or [DISTILLATION_ERROR] from another state
    adds one to the failures. *)
Definition failed_state (state : DistilledState_t) : bool :=
  match state with WILL_RETRY | DISTILLATION_ERROR => true | _ => false end.

Record state_laws `{ReadingListModelApi} : Prop := {
  set_state_entry model url state entry :
    GetEntryByURL model url = Some entry ->
    exists entry', GetEntryByURL (SetEntryDistilledState url state model) url = Some entry'
      /\ DistilledState entry' = state /\ IsRead entry' = IsRead entry
      /\ FailedDownloadCounter entry'
         = if failed_state state && negb (failed_state (DistilledState entry))
           then FailedDownloadCounter entry + 1 else FailedDownloadCounter entry;
  set_state_loaded model url state :
    loaded (SetEntryDistilledState url state model) = loaded model;
  set_info_loaded model url p u size now :
    loaded (SetEntryDistilledInfo url p u size now model) = loaded model;
  set_title_loaded model url title :
    loaded (SetEntryTitle url title model) = loaded model;
}.

(** Concrete files, paths and URLs: a path is a list of names, a file system a
    finite map from paths to files ([Some content]) and directories ([None]);
    a URL is its text and the parameters of its query, valid when the text is
    not empty; a reading list is a finite map. *)
Module ConcreteOffline.
Abbreviation file_system := (gmap (list string) (option text)).

Definition under (dir path : list string) : bool :=
  bool_decide (take (length dir) path = dir).

Definition write (path : list string) (data : text) (fs : file_system)
    : file_system * Z :=
  match fs !! removelast path with
  | Some None => (<[path := Some data]> fs, Z.of_nat (length data))
  | _ => (fs, -1)
  end.

Definition move (from to : list string) (fs : file_system) : file_system * bool :=
  match fs !! from with
  | Some (Some data) => (<[to := Some data]> (delete from fs), true)
  | _ => (fs, false)
  end.

Definition size (path : list string) (fs : file_system) : option Z :=
  match fs !! path with
  | Some (Some data) => Some (Z.of_nat (length data))
  | _ => None
  end.

Definition is_subdirectory (root : list string) (e : list string * option text) : Prop :=
  e.2 = None /\ e.1 <> [] /\ removelast e.1 = root.

#[export] Instance is_subdirectory_dec root e : Decision (is_subdirectory root e) := _.

Definition subdirectories (root : list string) (fs : file_system) : list (list string) :=
  (map_to_list (filter (is_subdirectory root) fs)).*1.

#[export] Instance files : FileApi := {|
  FilePath := list string;
  FilePath_eq_dec := _;
  FilePath_empty := [];
  Append path name := path ++ [name];
  FileSystem := file_system;
  PathExists path fs := bool_decide (is_Some (fs !! path));
  DirectoryExists path fs := bool_decide (fs !! path = Some None);
  DeleteFile path fs :=
    (filter (fun entry => under path entry.1 = false) fs, true);
  CreateDirectoryAndGetError path fs := (<[path := None]> fs, true);
  WriteFile := write;
  Subdirectories := subdirectories;
  BaseName path := default ""%string (last path);
  Move := move;
  GetFileSize := size;
|}.

Lemma elem_of_subdirectories root fs p :
  p ∈ subdirectories root fs <-> fs !! p = Some None /\ p <> [] /\ removelast p = root.
Proof.
  unfold subdirectories. rewrite list_elem_of_fmap. split.
  - intros ([q c] & -> & Hin%elem_of_map_to_list).
    apply map_lookup_filter_Some in Hin as [Hq (Hc & Hne & Hr)]. simpl in *.
    by subst.
  - intros (Hp & Hne & Hr). exists (p, None). split; [done |].
    apply elem_of_map_to_list, map_lookup_filter_Some. by split_and!.
Qed.

Lemma length_siblings (p q : list string) :
  p <> [] -> q <> [] -> removelast p = removelast q -> length p = length q.
Proof.
  intros Hp Hq Heq.
  rewrite (app_removelast_last "" Hp), (app_removelast_last "" Hq), Heq.
  by rewrite !length_app.
Qed.

Lemma keep_sibling (p q : list string) (fs : file_system) :
  p <> [] -> q <> [] -> removelast p = removelast q -> p <> q ->
  filter (fun entry => under p entry.1 = false) fs !! q = Some None
  <-> fs !! q = Some None.
Proof.
  intros Hp Hq Hr Hne. rewrite map_lookup_filter_Some. split; [by intros [? _] |].
  intros Hl. split; [done |]. unfold under. simpl. apply bool_decide_eq_false.
  rewrite take_ge; [congruence |]. by rewrite (length_siblings p q).
Qed.

Lemma files_directories : @directory_laws files.
Proof.
  split.
  - intros root fs p (Hp & Hne & _)%elem_of_subdirectories. split; [| done].
    change (bool_decide (fs !! p = Some None) = true). by apply bool_decide_eq_true.
  - intros p fs _. apply (bool_decide_eq_false (_ !! p = Some None)).
    intros [_ Hu]%map_lookup_filter_Some. unfold under in Hu. simpl in Hu.
    apply bool_decide_eq_false in Hu. by rewrite take_ge in Hu by lia.
  - intros root fs p q fs' (_ & Hp & Hrp)%elem_of_subdirectories
      (_ & Hq & Hrq)%elem_of_subdirectories Hne.
    apply (bool_decide_ext (_ !! q = Some None)).
    apply keep_sibling; [done.. | congruence | done].
Qed.

Lemma move_size from to fs fs' :
  move from to fs = (fs', true) -> is_Some (size to fs').
Proof.
  unfold move, size. destruct (fs !! from) as [[data |] |]; intros [= <-].
  rewrite lookup_insert_eq. by eexists.
Qed.

Lemma files_have_size : @moved_files_have_size files.
Proof. exact move_size. Qed.

Record web_url := mk_web_url {
  scheme_of : string;
  host_of : string;
  path_of : text;
  query_of : list (string * text);
}.

#[export] Instance web_url_eq_dec : EqDecision web_url.
Proof. solve_decision. Defined.

#[export] Instance web_url_countable : Countable web_url :=
  inj_countable'
    (fun u => (scheme_of u, host_of u, path_of u, query_of u))
    (fun p => mk_web_url p.1.1.1 p.1.1.2 p.1.2 p.2)
    (fun u => match u with mk_web_url _ _ _ _ => eq_refl end).

Definition no_url : web_url := mk_web_url "" "" [] [].

(** The text up to the first slash, and from it on. *)
Fixpoint until_slash (s : text) : text * text :=
  match s with
  | [] => ([], [])
  | c :: s' =>
      if starts_with (text_of "/") s then ([], s)
      else let '(before, after) := until_slash s' in (c :: before, after)
  end.

(** scheme://host/path *)
Definition parse (s : text) : web_url :=
  match find_first (text_of "://") s with
  | Some k =>
      let '(host, path) := until_slash (drop (k + 3) s) in
      mk_web_url (String.string_of_list_ascii (take k s))
        (String.string_of_list_ascii host) path []
  | None => no_url
  end.

Definition url_of (s : string) : web_url := parse (text_of s).

Definition valid_url (u : web_url) : bool := negb (String.eqb (scheme_of u) "").

Definition url_text (u : web_url) : text :=
  if valid_url u then
    text_of (scheme_of u ++ "://" ++ host_of u) ++ path_of u ++
    concat ((fun p => text_of ("?" ++ p.1 ++ "=") ++ p.2) <$> query_of u)
  else [].

#[export, refine] Instance urls : GurlApi := {|
  GURL := web_url;
  GURL_eq_dec := _;
  GURL_empty := no_url;
  is_empty u := bool_decide (u = no_url);
  is_valid := valid_url;
  has_ref u := bool_decide (is_Some (find_first (text_of "#") (path_of u)));
  EqualsIgnoringRef u v := bool_decide (u = v);
  GetOrigin u := mk_web_url (scheme_of u) (host_of u) [] [];
  SchemeIsFile u := String.eqb (scheme_of u) "file";
|}.
Proof. intros u. apply bool_decide_eq_true. Defined.

Definition directory_id (u : web_url) : string :=
  String.string_of_list_ascii (url_text u).

#[export] Instance paths : OfflinePathApi := {|
  OfflineFileType := string;
  OFFLINE_TYPE_HTML := "page.html"%string;
  OFFLINE_TYPE_PDF := "file.pdf"%string;
  OfflineRootDirectoryPath base := base ++ ["Offline"%string];
  OfflineURLDirectoryID u := directory_id u;
  OfflineURLDirectoryAbsolutePath base u :=
    base ++ ["Offline"%string; directory_id u];
  OfflinePagePath u type := [directory_id u; type];
  OfflineURLAbsolutePathFromRelativePath base path :=
    base ++ "Offline"%string :: path;
|}.

#[export] Instance texts : UrlTextApi := {|
  spec := url_text;
  GURL_of_text := parse;
  GURL_less u v := (encode u <? encode v)%positive;
  SchemeIs u scheme := String.eqb (scheme_of u) scheme;
  SchemeIsCryptographic u := String.eqb (scheme_of u) "https";
  EscapeForHTML s := s;
  MD5String s := String.string_of_list_ascii (take 8 (rev s));
  GetUnsafeArticleTemplateHtml s := text_of "<html>" ++ s;
|}.

Fixpoint value_of (key : string) (query : list (string * text)) : option text :=
  match query with
  | [] => None
  | (k, v) :: query => if String.eqb k key then Some v else value_of key query
  end.

Definition path_text (path : list string) : text :=
  concat ((fun name => text_of ("/" ++ name)) <$> path).

Definition directory_of (s : text) : text :=
  rev ((until_slash (rev s)).2).

#[export] Instance parts : UrlPartsApi := {|
  host u := host_of u;
  path u := path_of u;
  path_value := path_text;
  ReplacePath t u := mk_web_url (scheme_of u) (host_of u) t (query_of u);
  ResolveDirectory u :=
    mk_web_url (scheme_of u) (host_of u) (directory_of (path_of u)) [];
  AppendQueryParameter u key value :=
    mk_web_url (scheme_of u) (host_of u) (path_of u) (query_of u ++ [(key, value)]);
  GetValueForKeyInQuery u key := value_of key (query_of u);
|}.

Lemma value_of_app key query query' :
  value_of key (query ++ query')
  = match value_of key query with Some v => Some v | None => value_of key query' end.
Proof.
  induction query as [| [k v] query IH]; simpl; [done |].
  by destruct (String.eqb k key).
Qed.

Lemma parts_laws : query_laws.
Proof.
  split; try done.
  - intros u key value Hu. simpl in *. rewrite value_of_app, Hu. simpl.
    by rewrite String.eqb_refl.
  - intros u key key' value Hne. simpl. rewrite value_of_app. simpl.
    destruct (value_of key' (query_of u)); [done |].
    by rewrite (proj2 (String.eqb_neq key key')).
Qed.

Lemma urls_ordered (u v : web_url) :
  GURL_less u v = false -> GURL_less v u = false -> u = v.
Proof.
  simpl. intros Huv%Pos.ltb_ge Hvu%Pos.ltb_ge.
  apply (inj encode). lia.
Qed.

(** The reading list: entries by URL text. *)
Record entry := mk_entry {
  entry_url : web_url;
  entry_read : bool;
  entry_state : DistilledState_t;
  entry_path : list string;
  entry_distilled_url : web_url;
  entry_failures : Z;
}.

Record reading_list := mk_reading_list {
  list_loaded : bool;
  entries : list entry;
}.

Definition find_entry (model : reading_list) (u : web_url) : option entry :=
  List.find (fun e => bool_decide (entry_url e = u)) (entries model).

Definition update_entry (u : web_url) (f : entry -> entry) (model : reading_list)
    : reading_list :=
  mk_reading_list (list_loaded model)
    ((fun e => if bool_decide (entry_url e = u) then f e else e) <$> entries model).

Definition set_state (state : DistilledState_t) (e : entry) : entry :=
  mk_entry (entry_url e) (entry_read e) state (entry_path e) (entry_distilled_url e)
    (if failed_state state && negb (failed_state (entry_state e))
     then entry_failures e + 1 else entry_failures e).

Definition set_info (path : list string) (distilled_url : web_url) (e : entry) : entry :=
  mk_entry (entry_url e) (entry_read e) PROCESSED path distilled_url 0.

#[export] Instance reading : ReadingListModelApi := {|
  ReadingListModel := reading_list;
  ReadingListEntry := entry;
  loaded := list_loaded;
  Keys model := entry_url <$> entries model;
  GetEntryByURL := find_entry;
  EntryURL := entry_url;
  IsRead := entry_read;
  DistilledState := entry_state;
  DistilledPath := entry_path;
  DistilledURL := entry_distilled_url;
  FailedDownloadCounter := entry_failures;
  TimeUntilNextTry e := 1000 * entry_failures e;
  SetEntryDistilledState u state := update_entry u (set_state state);
  SetEntryDistilledInfo u path distilled_url size now :=
    update_entry u (set_info path distilled_url);
  SetEntryTitle u title model := model;
  CollapseWhitespaceASCII s := s;
|}.

Lemma find_entry_url model u e : find_entry model u = Some e -> entry_url e = u.
Proof. intros [_ He]%List.find_some. by apply bool_decide_eq_true in He. Qed.

Lemma reading_urls : entries_have_their_url.
Proof. exact find_entry_url. Qed.

Lemma find_update u f model e :
  (forall e, entry_url (f e) = entry_url e) ->
  find_entry model u = Some e -> find_entry (update_entry u f model) u = Some (f e).
Proof.
  intros Hf. unfold find_entry. destruct model as [b l]. simpl.
  induction l as [| e' l IH]; simpl; [done |].
  case_bool_decide as He; simpl.
  - intros [= ->]. rewrite Hf. by rewrite bool_decide_true.
  - rewrite bool_decide_false by done. done.
Qed.

Lemma reading_laws : state_laws.
Proof.
  split; [| done..]. intros model u state e He. exists (set_state state e).
  split; [by apply find_update |]. by split_and!.
Qed.
End ConcreteOffline.
