(* ===== verification/PageDisplayState.v ===== *)
(** * PageDisplayState

    [web/public/web_state/page_display_state.mm]: the scroll offset and the
    zoom scales of a web view, how they are compared and how they are stored.

    A [double] is an IEEE 754 value, [spec_float] of the Standard Library;
    its comparisons are the ones of C. *)
From Stdlib Require Import SpecFloat.
From S2P Require Import Prelude.

Abbreviation double := spec_float.

Definition NAN : double := S754_nan.

Definition isnan (x : double) : bool :=
  match x with S754_nan => true | _ => false end.

Definition kXOffsetKey : string := "scrollX".
Definition kYOffsetKey : string := "scrollY".
Definition kMinZoomKey : string := "minZoom".
Definition kMaxZoomKey : string := "maxZoom".
Definition kZoomKey : string := "zoom".

Definition StateValuesAreEqual (value1 value2 : double) : bool :=
  if isnan value1 then isnan value2 else SFeqb value1 value2.

(** The [NSDictionary] of a serialized state. *)
Abbreviation serialization := (gmap string double).

Definition GetValue (key : string) (s : serialization) : double :=
  match s !! key with Some value => value | None => NAN end.

Module PageScrollState.
Record t := { offset_x : double; offset_y : double }.

Definition new : t := {| offset_x := NAN; offset_y := NAN |}.

Definition IsValid (s : t) : bool :=
  negb (isnan (offset_x s)) && negb (isnan (offset_y s)).

Definition eqb (s other : t) : bool :=
  StateValuesAreEqual (offset_x s) (offset_x other)
  && StateValuesAreEqual (offset_y s) (offset_y other).
End PageScrollState.

Module PageZoomState.
Record t := {
  minimum_zoom_scale : double;
  maximum_zoom_scale : double;
  zoom_scale : double;
}.

Definition new : t :=
  {| minimum_zoom_scale := NAN; maximum_zoom_scale := NAN; zoom_scale := NAN |}.

Definition IsValid (z : t) : bool :=
  negb (isnan (minimum_zoom_scale z)) && negb (isnan (maximum_zoom_scale z))
  && negb (isnan (zoom_scale z))
  && SFleb (minimum_zoom_scale z) (zoom_scale z)
  && SFleb (zoom_scale z) (maximum_zoom_scale z).

Definition eqb (z other : t) : bool :=
  StateValuesAreEqual (minimum_zoom_scale z) (minimum_zoom_scale other)
  && StateValuesAreEqual (maximum_zoom_scale z) (maximum_zoom_scale other)
  && StateValuesAreEqual (zoom_scale z) (zoom_scale other).
End PageZoomState.

Record PageDisplayState := {
  scroll_state : PageScrollState.t;
  zoom_state : PageZoomState.t;
}.

Definition PageDisplayState_new : PageDisplayState :=
  {| scroll_state := PageScrollState.new; zoom_state := PageZoomState.new |}.

Definition PageDisplayState_of_values (offset_x offset_y minimum_zoom_scale
    maximum_zoom_scale zoom_scale : double) : PageDisplayState :=
  {| scroll_state := {| PageScrollState.offset_x := offset_x;
                        PageScrollState.offset_y := offset_y |};
     zoom_state := {| PageZoomState.minimum_zoom_scale := minimum_zoom_scale;
                      PageZoomState.maximum_zoom_scale := maximum_zoom_scale;
                      PageZoomState.zoom_scale := zoom_scale |} |}.

Definition PageDisplayState_of_serialization (s : serialization)
    : PageDisplayState :=
  PageDisplayState_of_values (GetValue kXOffsetKey s) (GetValue kYOffsetKey s)
    (GetValue kMinZoomKey s) (GetValue kMaxZoomKey s) (GetValue kZoomKey s).

Definition PageDisplayState_IsValid (d : PageDisplayState) : bool :=
  PageScrollState.IsValid (scroll_state d)
  && PageZoomState.IsValid (zoom_state d).

Definition PageDisplayState_eqb (d other : PageDisplayState) : bool :=
  PageScrollState.eqb (scroll_state d) (scroll_state other)
  && PageZoomState.eqb (zoom_state d) (zoom_state other).

Definition GetSerialization (d : PageDisplayState) : serialization :=
  <[kXOffsetKey := PageScrollState.offset_x (scroll_state d)]>
  (<[kYOffsetKey := PageScrollState.offset_y (scroll_state d)]>
  (<[kMinZoomKey := PageZoomState.minimum_zoom_scale (zoom_state d)]>
  (<[kMaxZoomKey := PageZoomState.maximum_zoom_scale (zoom_state d)]>
  (<[kZoomKey := PageZoomState.zoom_scale (zoom_state d)]> ∅)))).

(** ** Equality of values *)

(** [SFeqb] relates equal finite numbers, equal infinities and the zeros. *)
Lemma SFcompare_Eq x y :
  SFcompare x y = Some Eq <->
  (x = y /\ x <> S754_nan) \/
  (exists s1 s2, x = S754_zero s1 /\ y = S754_zero s2).
Proof.
  split.
  - destruct x as [s1|[]| |[] m1 e1], y as [s2|[]| |[] m2 e2]; simpl;
      try discriminate; try (by left); try (right; by eauto).
    all: destruct (Z.compare_spec e1 e2) as [->| |]; simpl; try discriminate.
    all: try change (Pos.compare_cont Eq m1 m2) with (Pos.compare m1 m2).
    all: destruct (Pos.compare_spec m1 m2) as [->| |]; simpl; try discriminate.
    all: by left.
  - intros [[-> Hn]|(s1 & s2 & -> & ->)]; [| done].
    destruct y as [s|[]| |[] m e]; simpl; try done.
    all: rewrite Z.compare_refl.
    all: change (Pos.compare_cont Eq m m) with (Pos.compare m m).
    all: by rewrite Pos.compare_refl.
Qed.

Definition same_value (x y : double) : Prop :=
  x = y \/ (exists s1 s2, x = S754_zero s1 /\ y = S754_zero s2).

Lemma StateValuesAreEqual_spec x y :
  StateValuesAreEqual x y = true <-> same_value x y.
Proof.
  unfold StateValuesAreEqual, same_value. split.
  - destruct (isnan x) eqn:Hx.
    + destruct x, y; try discriminate. by left.
    + unfold SFeqb. destruct (SFcompare x y) as [[]|] eqn:Hc; try discriminate.
      intros _. apply SFcompare_Eq in Hc. tauto.
  - intros [-> | (s1 & s2 & -> & ->)]; [| done].
    destruct (isnan y) eqn:Hy; [done |]. unfold SFeqb.
    rewrite (proj2 (SFcompare_Eq y y)); [done |]. left.
    split; [done |]. by intros ->.
Qed.

#[export] Instance same_value_equivalence : Equivalence same_value.
Proof.
  unfold same_value. split.
  - intros x. by left.
  - intros x y [->|(s1 & s2 & -> & ->)]; [by left | right; eauto].
  - intros x y z [->|(s1 & s2 & -> & ->)]; [done |].
    intros [<-|(s3 & s4 & [= ->] & ->)]; right; eauto.
Qed.

#[export] Instance isnan_proper : Proper (same_value ==> eq) isnan.
Proof. intros x y [->|(s1 & s2 & -> & ->)]; done. Qed.

#[export] Instance SFleb_proper : Proper (same_value ==> same_value ==> eq) SFleb.
Proof.
  intros x x' Hx y y' Hy.
  destruct Hx as [->|(s1 & s2 & -> & ->)], Hy as [->|(t1 & t2 & -> & ->)];
    unfold SFleb; simpl; try done; by destruct x' || destruct y'.
Qed.

(** ** Theorems *)

Definition same_state (d e : PageDisplayState) : Prop :=
  PageDisplayState_eqb d e = true.

Lemma same_state_spec d e :
  same_state d e <->
  same_value (PageScrollState.offset_x (scroll_state d))
             (PageScrollState.offset_x (scroll_state e)) /\
  same_value (PageScrollState.offset_y (scroll_state d))
             (PageScrollState.offset_y (scroll_state e)) /\
  same_value (PageZoomState.minimum_zoom_scale (zoom_state d))
             (PageZoomState.minimum_zoom_scale (zoom_state e)) /\
  same_value (PageZoomState.maximum_zoom_scale (zoom_state d))
             (PageZoomState.maximum_zoom_scale (zoom_state e)) /\
  same_value (PageZoomState.zoom_scale (zoom_state d))
             (PageZoomState.zoom_scale (zoom_state e)).
Proof.
  unfold same_state, PageDisplayState_eqb, PageScrollState.eqb,
    PageZoomState.eqb.
  rewrite !andb_true_iff, !StateValuesAreEqual_spec. tauto.
Qed.

(**  Equality of display states is an equivalence, although their values
    are doubles and unset ones are NaN, and it does not separate a valid
    state from an invalid one. *)
Lemma display_state_equality :
  Equivalence same_state /\ Proper (same_state ==> eq) PageDisplayState_IsValid.
Proof.
  split; [split |].
  - intros d. by apply same_state_spec.
  - intros d e. rewrite !same_state_spec. intros (? & ? & ? & ? & ?).
    by split_and!; symmetry.
  - intros d e f. rewrite !same_state_spec.
    intros (? & ? & ? & ? & ?) (? & ? & ? & ? & ?). by split_and!; etrans.
  - intros d e (Hx & Hy & Hmin & Hmax & Hz)%same_state_spec.
    unfold PageDisplayState_IsValid, PageScrollState.IsValid,
      PageZoomState.IsValid.
    by rewrite Hx, Hy, Hmin, Hmax, Hz.
Qed.

(** A display state is read back from its dictionary as it was stored,
    unset values included. *)
Lemma display_state_roundtrip d :
  PageDisplayState_of_serialization (GetSerialization d) = d.
Proof. by destruct d as [[x y] [mn mx z]]. Qed.

(** A zoom state without a range is never valid, whatever its scale. *)
Lemma rangeless_zoom_invalid z :
  isnan (PageZoomState.minimum_zoom_scale z) = true ->
  PageZoomState.IsValid z = false.
Proof. intros Hn. unfold PageZoomState.IsValid. by rewrite Hn. Qed.
