(* ===== verification/NavigationItem.v ===== *)
(** * NavigationItem

    [web/navigation/navigation_item_impl.mm] and the structures it is made
    of: a point in the history of a tab.  Also [web/navigation/time_smoother.cc],
    which gives the items their timestamps, and the rewriting of URLs
    ([web/browser_url_rewriter_impl.mm]).

    A string, a title or a data blob is a [string]; nil is [None].  A time is
    a number of microseconds.  Formatting and eliding a URL is external. *)
From Stdlib Require Import Ascii Sorting.Sorted.
From S2P Require Import Prelude External PageDisplayState.

(** ** Enumerations *)
Inductive NavigationInitiationType :=
| INITIATION_NONE
| USER_INITIATED
| RENDERER_INITIATED.

Inductive UserAgentType :=
| UA_NONE
| UA_MOBILE
| UA_DESKTOP.

Inductive UserAgentOverrideOption :=
| INHERIT
| OVERRIDE_MOBILE
| OVERRIDE_DESKTOP.

Inductive ReferrerPolicy :=
| ReferrerPolicyAlways
| ReferrerPolicyDefault
| ReferrerPolicyNoReferrerWhenDowngrade
| ReferrerPolicyNever
| ReferrerPolicyOrigin
| ReferrerPolicyOriginWhenCrossOrigin
| ReferrerPolicySameOrigin
| ReferrerPolicyStrictOrigin
| ReferrerPolicyStrictOriginWhenCrossOrigin.

Inductive SecurityStyle :=
| SECURITY_STYLE_UNKNOWN
| SECURITY_STYLE_UNAUTHENTICATED
| SECURITY_STYLE_AUTHENTICATION_BROKEN
| SECURITY_STYLE_WARNING
| SECURITY_STYLE_AUTHENTICATED.

#[export] Instance NavigationInitiationType_eq_dec :
  EqDecision NavigationInitiationType.
Proof. solve_decision. Defined.
#[export] Instance UserAgentType_eq_dec : EqDecision UserAgentType.
Proof. solve_decision. Defined.
#[export] Instance UserAgentOverrideOption_eq_dec :
  EqDecision UserAgentOverrideOption.
Proof. solve_decision. Defined.
#[export] Instance SecurityStyle_eq_dec : EqDecision SecurityStyle.
Proof. solve_decision. Defined.

(** Formatting of URLs for display: [url_formatter] and [gfx]. *)
Class TitleFormatter `{GurlApi} := {
  FormatUrl : GURL -> string;
  ElideString : string -> Z -> string;
}.

Section structures.
Context `{GurlApi}.

Record Referrer := {
  referrer_url : GURL;
  policy : ReferrerPolicy;
}.

(** [Referrer()] *)
Definition Referrer_new : Referrer :=
  {| referrer_url := GURL_empty; policy := ReferrerPolicyDefault |}.

(** A certificate and an image are objects of other libraries: their
    identity. *)
Record FaviconStatus := {
  favicon_valid : bool;
  favicon_url : GURL;
  image : option positive;
}.

Definition FaviconStatus_new : FaviconStatus :=
  {| favicon_valid := false; favicon_url := GURL_empty; image := None |}.

Record SSLStatus := {
  security_style : SecurityStyle;
  certificate : option positive;
  cert_status : Z;
  connection_status : Z;
  content_status : Z;
  cert_status_host : string;
}.

Definition NORMAL_CONTENT : Z := 0.

Definition SSLStatus_new : SSLStatus :=
  {| security_style := SECURITY_STYLE_UNKNOWN; certificate := None;
     cert_status := 0; connection_status := 0; content_status := NORMAL_CONTENT;
     cert_status_host := "" |}.

(** [certificate->Equals] is the argument [same_certificate]. *)
Definition SSLStatus_Equals (same_certificate : positive -> positive -> bool)
    (s status : SSLStatus) : bool :=
  bool_decide (security_style s = security_style status)
  && Bool.eqb (bool_decide (is_Some (certificate s)))
              (bool_decide (is_Some (certificate status)))
  && match certificate s, certificate status with
     | Some a, Some b => same_certificate a b
     | _, _ => true
     end
  && (cert_status s =? cert_status status)
  && (content_status s =? content_status status).

(** ** [NavigationItemImpl] *)
Record NavigationItemImpl `{PageTransitionApi} := {
  unique_id_ : Z;
  original_request_url_ : GURL;
  url_ : GURL;
  referrer_ : Referrer;
  virtual_url_ : GURL;
  title_ : string;
  page_display_state_ : PageDisplayState;
  transition_type_ : PageTransition;
  favicon_ : FaviconStatus;
  ssl_ : SSLStatus;
  timestamp_ : Z;
  user_agent_type_ : UserAgentType;
  http_request_headers_ : option (gmap string string);
  serialized_state_object_ : option string;
  is_created_from_push_state_ : bool;
  has_state_been_replaced_ : bool;
  is_created_from_hash_change_ : bool;
  should_skip_repost_form_confirmation_ : bool;
  post_data_ : option string;
  navigation_initiation_type_ : NavigationInitiationType;
  is_unsafe_ : bool;
  cached_display_title_ : string;
}.
End structures.

#[export] Instance NavigationItemImpl_fields `{GurlApi} `{PageTransitionApi} :
  Fields NavigationItemImpl := fun i =>
  {| unique_id_ := unique_id_ i;
     original_request_url_ := original_request_url_ i;
     url_ := url_ i;
     referrer_ := referrer_ i;
     virtual_url_ := virtual_url_ i;
     title_ := title_ i;
     page_display_state_ := page_display_state_ i;
     transition_type_ := transition_type_ i;
     favicon_ := favicon_ i;
     ssl_ := ssl_ i;
     timestamp_ := timestamp_ i;
     user_agent_type_ := user_agent_type_ i;
     http_request_headers_ := http_request_headers_ i;
     serialized_state_object_ := serialized_state_object_ i;
     is_created_from_push_state_ := is_created_from_push_state_ i;
     has_state_been_replaced_ := has_state_been_replaced_ i;
     is_created_from_hash_change_ := is_created_from_hash_change_ i;
     should_skip_repost_form_confirmation_ :=
       should_skip_repost_form_confirmation_ i;
     post_data_ := post_data_ i;
     navigation_initiation_type_ := navigation_initiation_type_ i;
     is_unsafe_ := is_unsafe_ i;
     cached_display_title_ := cached_display_title_ i |}.

(** ** Operations of an item *)
Section items.
Context `{GurlApi} `{PageTransitionApi} `{!WebClientApi} `{!TitleFormatter}.
Implicit Types (i item : NavigationItemImpl).

(** [NavigationItemImpl()] with the identifier [GetUniqueIDInConstructor]
    gives. *)
Definition NavigationItemImpl_new (unique_id : Z) : NavigationItemImpl :=
  {| unique_id_ := unique_id;
     original_request_url_ := GURL_empty;
     url_ := GURL_empty;
     referrer_ := Referrer_new;
     virtual_url_ := GURL_empty;
     title_ := "";
     page_display_state_ := PageDisplayState_new;
     transition_type_ := PAGE_TRANSITION_LINK;
     favicon_ := FaviconStatus_new;
     ssl_ := SSLStatus_new;
     timestamp_ := 0;
     user_agent_type_ := UA_MOBILE;
     http_request_headers_ := None;
     serialized_state_object_ := None;
     is_created_from_push_state_ := false;
     has_state_been_replaced_ := false;
     is_created_from_hash_change_ := false;
     should_skip_repost_form_confirmation_ := false;
     post_data_ := None;
     navigation_initiation_type_ := INITIATION_NONE;
     is_unsafe_ := false;
     cached_display_title_ := "" |}.

(** The copy constructor copies every member, the identifier included. *)
Definition NavigationItemImpl_copy (item : NavigationItemImpl)
    : NavigationItemImpl := rebuild item.

Definition GetUniqueID i : Z := unique_id_ i.

Definition SetOriginalRequestURL (url : GURL) i := i <| original_request_url_ := url |>.
Definition GetOriginalRequestURL i : GURL := original_request_url_ i.

Definition SetURL (url : GURL) i :=
  i <| url_ := url |> <| cached_display_title_ := "" |>.
Definition GetURL i : GURL := url_ i.

Definition SetReferrer (referrer : Referrer) i := i <| referrer_ := referrer |>.
Definition GetReferrer i : Referrer := referrer_ i.

Definition SetVirtualURL (url : GURL) i :=
  i <| virtual_url_ := if same_url url (url_ i) then GURL_empty else url |>
    <| cached_display_title_ := "" |>.
Definition GetVirtualURL i : GURL :=
  if is_empty (virtual_url_ i) then url_ i else virtual_url_ i.

Definition SetTitle (title : string) i :=
  i <| title_ := title |> <| cached_display_title_ := "" |>.
Definition GetTitle i : string := title_ i.

Definition SetPageDisplayState (d : PageDisplayState) i :=
  i <| page_display_state_ := d |>.
Definition GetPageDisplayState i : PageDisplayState := page_display_state_ i.

Definition SetTransitionType (t : PageTransition) i := i <| transition_type_ := t |>.
Definition GetTransitionType i : PageTransition := transition_type_ i.

(** [item.GetSSL() = ssl], [item.GetFavicon() = favicon] *)
Definition set_ssl (ssl : SSLStatus) i := i <| ssl_ := ssl |>.
Definition GetSSL i : SSLStatus := ssl_ i.
Definition set_favicon (f : FaviconStatus) i := i <| favicon_ := f |>.
Definition GetFavicon i : FaviconStatus := favicon_ i.

Definition SetTimestamp (timestamp : Z) i := i <| timestamp_ := timestamp |>.
Definition GetTimestamp i : Z := timestamp_ i.

Definition SetUserAgentType (type : UserAgentType) i : chk NavigationItemImpl :=
  let i := i <| user_agent_type_ := type |> in
  _ ← dcheck (Bool.eqb (IsAppSpecificURL (GetVirtualURL i))
                       (bool_decide (type = UA_NONE)));
  mret i.
Definition GetUserAgentType i : UserAgentType := user_agent_type_ i.

Definition HasPostData i : bool := bool_decide (is_Some (post_data_ i)).

Definition GetHttpRequestHeaders i : option (gmap string string) :=
  http_request_headers_ i.

(** [addEntriesFromDictionary:] overrides the entries already there. *)
Definition AddHttpRequestHeaders (additional_headers : option (gmap string string))
    i : NavigationItemImpl :=
  match additional_headers with
  | None => i
  | Some additional =>
      match http_request_headers_ i with
      | Some headers => i <| http_request_headers_ := Some (additional ∪ headers) |>
      | None => i <| http_request_headers_ := Some additional |>
      end
  end.

Definition SetSerializedStateObject (o : option string) i :=
  i <| serialized_state_object_ := o |>.
Definition GetSerializedStateObject i : option string := serialized_state_object_ i.
Definition SetIsCreatedFromPushState (b : bool) i := i <| is_created_from_push_state_ := b |>.
Definition IsCreatedFromPushState i : bool := is_created_from_push_state_ i.
Definition SetNavigationInitiationType (t : NavigationInitiationType) i :=
  i <| navigation_initiation_type_ := t |>.
Definition NavigationInitiationType_of i : NavigationInitiationType :=
  navigation_initiation_type_ i.
Definition SetHasStateBeenReplaced (b : bool) i := i <| has_state_been_replaced_ := b |>.
Definition HasStateBeenReplaced i : bool := has_state_been_replaced_ i.
Definition SetIsCreatedFromHashChange (b : bool) i := i <| is_created_from_hash_change_ := b |>.
Definition IsCreatedFromHashChange i : bool := is_created_from_hash_change_ i.
Definition SetShouldSkipRepostFormConfirmation (b : bool) i :=
  i <| should_skip_repost_form_confirmation_ := b |>.
Definition ShouldSkipRepostFormConfirmation i : bool :=
  should_skip_repost_form_confirmation_ i.
Definition SetPostData (d : option string) i := i <| post_data_ := d |>.
Definition GetPostData i : option string := post_data_ i.

(** Messages to nil do nothing; a dictionary left empty becomes nil. *)
Definition RemoveHttpRequestHeaderForKey (key : string) i : NavigationItemImpl :=
  match http_request_headers_ i with
  | None => i <| http_request_headers_ := None |>
  | Some headers =>
      let headers := delete key headers in
      if bool_decide (headers = ∅) then i <| http_request_headers_ := None |>
      else i <| http_request_headers_ := Some headers |>
  end.

Definition ResetHttpRequestHeaders i := i <| http_request_headers_ := None |>.

Definition ResetForCommit i : NavigationItemImpl :=
  SetNavigationInitiationType INITIATION_NONE i.

Definition kMaxTitleChars : Z := 4 * 1024.

(** [title.rfind('/')] *)
Fixpoint rfind_slash (title : string) : option nat :=
  match title with
  | EmptyString => None
  | String c title =>
      match rfind_slash title with
      | Some n => Some (S n)
      | None => if Ascii.eqb c "/"%char then Some O else None
      end
  end.

Definition GetDisplayTitleForURL (url : GURL) : string :=
  if is_empty url then ""
  else
    let title := FormatUrl url in
    let title :=
      if SchemeIsFile url then
        match rfind_slash title with
        | Some slashpos =>
            if Nat.eqb slashpos (String.length title - 1) then title
            else String.substring (slashpos + 1) (String.length title) title
        | None => title
        end
      else title in
    ElideString title kMaxTitleChars.

(** Returns the title and the item with its cache. *)
Definition GetTitleForDisplay i : string * NavigationItemImpl :=
  if negb (String.eqb (title_ i) "") then (title_ i, i)
  else if negb (String.eqb (cached_display_title_ i) "")
  then (cached_display_title_ i, i)
  else
    let title := GetDisplayTitleForURL (GetVirtualURL i) in
    (title, i <| cached_display_title_ := title |>).
End items.

(** ** Rewriting URLs: [browser_url_rewriter_impl.mm] *)
Section rewriting.
Context `{GurlApi}.

(** A rewriter may change the URL whether or not it returns true. *)
Definition URLRewriter : Type := GURL -> bool * GURL.

Fixpoint RewriteURLWithWriters (url : GURL) (rewriters : list URLRewriter)
    : bool * GURL :=
  match rewriters with
  | [] => (false, url)
  | rewriter :: rewriters =>
      let '(rewritten, url) := rewriter url in
      if (rewritten : bool) then (true, url)
      else RewriteURLWithWriters url rewriters
  end.

(** The rewriters of the singleton [BrowserURLRewriterImpl]. *)
Class BrowserURLRewriterImpl := url_rewriters_ : list URLRewriter.

Definition RewriteURLIfNecessary `{BrowserURLRewriterImpl} (url : GURL)
    : bool * GURL := RewriteURLWithWriters url url_rewriters_.

(** [view-source:]: what follows the scheme is loaded.  [SchemeIs] for this
    scheme and [GetContent] are arguments. *)
Definition HandleViewSource (is_view_source : GURL -> bool)
    (content : GURL -> GURL) : URLRewriter :=
  fun url => if is_view_source url then (true, content url) else (false, url).

(** The constructor: the embedder's rewriters, then view-source. *)
Definition BrowserURLRewriterImpl_new (web_client_rewriters : list URLRewriter)
    (is_view_source : GURL -> bool) (content : GURL -> GURL) : list URLRewriter :=
  web_client_rewriters ++ [HandleViewSource is_view_source content].
End rewriting.

(** ** [TimeSmoother] *)
Record TimeSmoother := {
  low_water_mark_ : Z;
  high_water_mark_ : Z;
}.

Definition TimeSmoother_new : TimeSmoother :=
  {| low_water_mark_ := 0; high_water_mark_ := 0 |}.

Definition GetSmoothedTime (t : Z) (s : TimeSmoother) : Z * TimeSmoother :=
  if (low_water_mark_ s <=? t) && (t <=? high_water_mark_ s)
  then (high_water_mark_ s + 1,
        {| low_water_mark_ := low_water_mark_ s;
           high_water_mark_ := high_water_mark_ s + 1 |})
  else (t, {| low_water_mark_ := t; high_water_mark_ := t |}).

(** The times given for a sequence of clock readings. *)
Fixpoint smooth_all (ts : list Z) (s : TimeSmoother) : list Z :=
  match ts with
  | [] => []
  | t :: ts => let '(r, s) := GetSmoothedTime t s in r :: smooth_all ts s
  end.

(** *** Theorems on times *)

Lemma GetSmoothedTime_high t s :
  (GetSmoothedTime t s).1 = high_water_mark_ (GetSmoothedTime t s).2.
Proof. unfold GetSmoothedTime. by destruct (_ && _). Qed.

(** A clock reading at or above the low mark gives a time above the high one. *)
Lemma GetSmoothedTime_marks t s :
  low_water_mark_ s <= high_water_mark_ s ->
  low_water_mark_ (GetSmoothedTime t s).2 <= t /\
  t <= (GetSmoothedTime t s).1 /\
  low_water_mark_ (GetSmoothedTime t s).2
  <= high_water_mark_ (GetSmoothedTime t s).2.
Proof.
  intros Hs. unfold GetSmoothedTime.
  destruct (Z.leb_spec (low_water_mark_ s) t),
    (Z.leb_spec t (high_water_mark_ s)); simpl; lia.
Qed.

(** A clock reading at or above the low mark gives a time above the high one. *)
Lemma GetSmoothedTime_above t s :
  low_water_mark_ s <= t -> high_water_mark_ s < (GetSmoothedTime t s).1.
Proof.
  intros Hl. unfold GetSmoothedTime. rewrite (proj2 (Z.leb_le _ _) Hl). simpl.
  destruct (Z.leb_spec t (high_water_mark_ s)); simpl; lia.
Qed.

Lemma smooth_all_above ts s :
  Sorted Z.le ts -> HdRel Z.le (low_water_mark_ s) ts ->
  low_water_mark_ s <= high_water_mark_ s ->
  Sorted Z.lt (high_water_mark_ s :: smooth_all ts s).
Proof.
  revert s. induction ts as [| t ts IH]; intros s Hsorted Hhead Hs; simpl.
  { repeat constructor. }
  inversion Hsorted as [| ? ? Hts Hhd]; inversion Hhead; subst.
  pose proof (GetSmoothedTime_above t s ltac:(done)) as Ha.
  destruct (GetSmoothedTime_marks t s Hs) as (Hl & _ & Hs').
  pose proof (GetSmoothedTime_high t s) as Hhigh.
  destruct (GetSmoothedTime t s) as [r s'] eqn:Hr. simpl in *. subst r.
  constructor; [| by constructor]. apply IH; [done | | done].
  inversion Hhd; subst; constructor. lia.
Qed.

Lemma smooth_all_ge ts s :
  low_water_mark_ s <= high_water_mark_ s -> Forall2 Z.le ts (smooth_all ts s).
Proof.
  revert s. induction ts as [| t ts IH]; intros s Hs; simpl; [constructor |].
  destruct (GetSmoothedTime_marks t s Hs) as (_ & Hr & Hs').
  destruct (GetSmoothedTime t s) as [r s']. simpl in *. by constructor; [| apply IH].
Qed.

(** Timestamps tell the items of a history apart: as long as the clock
    does not go back, the smoothed times strictly increase, however many
    items are committed at the same clock reading, and no item is dated
    before its clock reading.  The smoother may be in any state that earlier
    readings, later ones included, left it in. *)
Lemma smoothed_times_increase ts s :
  Sorted Z.le ts -> low_water_mark_ s <= high_water_mark_ s ->
  Sorted Z.lt (smooth_all ts s) /\ Forall2 Z.le ts (smooth_all ts s).
Proof.
  intros Hsorted Hs. split; [| by apply smooth_all_ge].
  destruct ts as [| t ts]; simpl; [constructor |].
  inversion Hsorted as [| ? ? Hts Hhd]; subst.
  destruct (GetSmoothedTime_marks t s Hs) as (Hl & _ & Hs').
  pose proof (GetSmoothedTime_high t s) as Hhigh.
  destruct (GetSmoothedTime t s) as [r s']. simpl in *. subst r.
  apply smooth_all_above; [done | | done].
  inversion Hhd; subst; constructor. lia.
Qed.

Lemma smoothed_times_increase_witness :
  Sorted Z.lt (smooth_all [5; 5; 5; 6; 9]
                        {| low_water_mark_ := 7; high_water_mark_ := 8 |}) /\
  Forall2 Z.le [5; 5; 5; 6; 9]
    (smooth_all [5; 5; 5; 6; 9] {| low_water_mark_ := 7; high_water_mark_ := 8 |}).
Proof.
  apply (smoothed_times_increase [5; 5; 5; 6; 9]
           {| low_water_mark_ := 7; high_water_mark_ := 8 |}); [| simpl; lia].
  repeat constructor; lia.
Defined.

Section title_cache.
Context `{GurlApi} `{PageTransitionApi} `{!WebClientApi} `{!TitleFormatter}.
Implicit Types (i : NavigationItemImpl).

(** The cache is empty or what [GetTitleForDisplay] would compute. *)
Definition cache_ok i : Prop :=
  cached_display_title_ i = ""%string \/
  cached_display_title_ i = GetDisplayTitleForURL (GetVirtualURL i).

(** The public operations of an item, except the ones that only read. *)
Inductive item_request :=
| ISetOriginalRequestURL (url : GURL)
| ISetURL (url : GURL)
| ISetReferrer (referrer : Referrer)
| ISetVirtualURL (url : GURL)
| ISetTitle (title : string)
| ISetPageDisplayState (d : PageDisplayState)
| ISetTransitionType (t : PageTransition)
| ISetFavicon (f : FaviconStatus)
| ISetSSL (ssl : SSLStatus)
| ISetTimestamp (t : Z)
| ISetUserAgentType (type : UserAgentType)
| IAddHttpRequestHeaders (headers : option (gmap string string))
| ISetSerializedStateObject (o : option string)
| ISetIsCreatedFromPushState (b : bool)
| ISetHasStateBeenReplaced (b : bool)
| ISetIsCreatedFromHashChange (b : bool)
| ISetNavigationInitiationType (t : NavigationInitiationType)
| ISetShouldSkipRepostFormConfirmation (b : bool)
| ISetPostData (d : option string)
| IRemoveHttpRequestHeaderForKey (key : string)
| IResetHttpRequestHeaders
| IResetForCommit
| IGetTitleForDisplay.

Definition item_step (r : item_request) i : chk NavigationItemImpl :=
  match r with
  | ISetOriginalRequestURL url => mret (SetOriginalRequestURL url i)
  | ISetURL url => mret (SetURL url i)
  | ISetReferrer referrer => mret (SetReferrer referrer i)
  | ISetVirtualURL url => mret (SetVirtualURL url i)
  | ISetTitle title => mret (SetTitle title i)
  | ISetPageDisplayState d => mret (SetPageDisplayState d i)
  | ISetTransitionType t => mret (SetTransitionType t i)
  | ISetFavicon f => mret (set_favicon f i)
  | ISetSSL ssl => mret (set_ssl ssl i)
  | ISetTimestamp t => mret (SetTimestamp t i)
  | ISetUserAgentType type => SetUserAgentType type i
  | IAddHttpRequestHeaders headers => mret (AddHttpRequestHeaders headers i)
  | ISetSerializedStateObject o => mret (SetSerializedStateObject o i)
  | ISetIsCreatedFromPushState b => mret (SetIsCreatedFromPushState b i)
  | ISetHasStateBeenReplaced b => mret (SetHasStateBeenReplaced b i)
  | ISetIsCreatedFromHashChange b => mret (SetIsCreatedFromHashChange b i)
  | ISetNavigationInitiationType t => mret (SetNavigationInitiationType t i)
  | ISetShouldSkipRepostFormConfirmation b =>
      mret (SetShouldSkipRepostFormConfirmation b i)
  | ISetPostData d => mret (SetPostData d i)
  | IRemoveHttpRequestHeaderForKey key => mret (RemoveHttpRequestHeaderForKey key i)
  | IResetHttpRequestHeaders => mret (ResetHttpRequestHeaders i)
  | IResetForCommit => mret (ResetForCommit i)
  | IGetTitleForDisplay => mret (GetTitleForDisplay i).2
  end.

(** Items that some sequence of operations makes of a new one. *)
Inductive item_reachable : NavigationItemImpl -> Prop :=
| item_reachable_new id : item_reachable (NavigationItemImpl_new id)
| item_reachable_copy i : item_reachable i -> item_reachable (NavigationItemImpl_copy i)
| item_reachable_step r i i' :
    item_reachable i -> item_step r i = Ok i' -> item_reachable i'.

Lemma cache_ok_step r i i' : cache_ok i -> item_step r i = Ok i' -> cache_ok i'.
Proof.
  intros Hi Hs. destruct r; simpl in Hs; try (injection Hs as <-);
    try exact Hi; try (by left).
  - unfold SetUserAgentType in Hs. chk_inv Hs. by injection Hrun0 as <-.
  - unfold AddHttpRequestHeaders. destruct headers as [h|]; [| done].
    by destruct (http_request_headers_ i).
  - unfold RemoveHttpRequestHeaderForKey. destruct (http_request_headers_ i); [| done].
    by case_bool_decide.
  - unfold GetTitleForDisplay. destruct (negb _); [done |].
    destruct (negb _); [done |]. by right.
Qed.

(** The cached display title is never stale: whatever operations an item
    has gone through, [GetTitleForDisplay] returns the page's title, or, if
    it has none, the title made from its virtual URL. *)
Lemma GetTitleForDisplay_fresh i :
  item_reachable i ->
  (GetTitleForDisplay i).1
  = if String.eqb (GetTitle i) "" then GetDisplayTitleForURL (GetVirtualURL i)
    else GetTitle i.
Proof.
  intros Hr. assert (cache_ok i) as Hc.
  { induction Hr as [| | r i i' _ IH Hs]; [by left | done |].
    by eapply cache_ok_step. }
  unfold GetTitleForDisplay, GetTitle.
  destruct (String.eqb_spec (title_ i) ""); simpl; [| done].
  destruct (String.eqb_spec (cached_display_title_ i) ""); simpl; [done |].
  by destruct Hc.
Qed.
End title_cache.

Module SampleItem.
Import ConcreteUrl.
#[export] Instance formatter : TitleFormatter :=
  {| FormatUrl u := String.append (scheme u) (String.append "://" (path u));
     ElideString s n := String.substring 0 (Z.to_nat n) s |}.
Definition file_url : @GURL gurl := mk_url "file" "" "/a/b.txt" None.
End SampleItem.
Import ConcreteUrl ConcreteTransition SampleItem.

(** An item titled after its first URL, then redirected to a file. *)
Lemma GetTitleForDisplay_fresh_witness :
  exists i, item_step (ISetURL file_url)
              (NavigationItemImpl_new 1) = Ok i /\
    (GetTitleForDisplay i).1 = "b.txt"%string.
Proof.
  eexists. split; [reflexivity |].
  rewrite GetTitleForDisplay_fresh; [by vm_compute |].
  eapply (item_reachable_step (ISetURL file_url));
    [apply (item_reachable_new 1) | reflexivity].
Defined.
