(* ===== verification/SessionController.v ===== *)
(** * CRWSessionController

    [web/navigation/crw_session_controller.mm]: the navigation history of a
    tab, with its committed items, a pending and a transient item, and the
    calls it makes to its [NavigationManagerImpl].

    Items are objects: the controller holds their addresses and [heap] their
    contents, so that an item reached twice is one item.  A session owns its
    items; releasing one removes it from the heap, and reading a released one
    is a [Fault]. *)
From S2P Require Import Prelude External PageDisplayState NavigationItem.

Abbreviation address := positive.

(** ** [web/history_state_util.cc], [navigation_manager_impl.mm] *)
Section urls.
Context `{GurlApi}.

Definition IsHistoryStateChangeValid (current_url to_url : GURL) : chk bool :=
  _ ← dcheck (is_valid current_url);
  _ ← dcheck (is_valid to_url);
  mret (same_url (GetOrigin to_url) (GetOrigin current_url)).

(** [base_url.Resolve(destination)] is the argument [resolve]. *)
Definition GetHistoryStateChangeUrl (resolve : GURL -> string -> GURL)
    (current_url base_url : GURL) (destination : string) : chk GURL :=
  if negb (is_valid base_url) then mret GURL_empty
  else
    let to_url := resolve base_url destination in
    if negb (is_valid to_url) then mret GURL_empty
    else
      valid ← IsHistoryStateChangeValid current_url to_url;
      mret (if (valid : bool) then to_url else GURL_empty).

Definition AreURLsInPageNavigation (existing_url new_url : GURL) : bool :=
  if same_url existing_url new_url || negb (has_ref new_url) then false
  else EqualsIgnoringRef existing_url new_url.

(** ** [load_committed_details.h], [navigation_manager_delegate.h] *)
Record LoadCommittedDetails := {
  details_item : option address;
  previous_item_index : Z;
  previous_url : GURL;
  is_in_page : bool;
}.

Definition LoadCommittedDetails_new : LoadCommittedDetails :=
  {| details_item := None; previous_item_index := -1;
     previous_url := GURL_empty; is_in_page := false |}.

Record WebLoadParams `{PageTransitionApi} := {
  params_url : GURL;
  params_referrer : Referrer;
  params_transition_type : PageTransition;
  params_user_agent_override_option : UserAgentOverrideOption;
  params_is_renderer_initiated : bool;
  params_extra_headers : option (gmap string string);
  params_post_data : option string;
}.

Definition WebLoadParams_new `{PageTransitionApi} (url : GURL) : WebLoadParams :=
  {| params_url := url; params_referrer := Referrer_new;
     params_transition_type := PAGE_TRANSITION_LINK;
     params_user_agent_override_option := INHERIT;
     params_is_renderer_initiated := false;
     params_extra_headers := None; params_post_data := None |}.

(** Calls to the delegate. *)
Inductive delegate_call `{PageTransitionApi} :=
| DGoToIndex (index : Z)
| DLoadURLWithParams (params : WebLoadParams)
| DReload
| DOnNavigationItemsPruned (pruned_item_count : Z)
| DOnNavigationItemChanged
| DOnNavigationItemCommitted (load_details : LoadCommittedDetails)
| DOpenURL (url : GURL) (referrer : Referrer) (transition : PageTransition).

(** ** State *)

(** The members of [NavigationManagerImpl] other than its session controller,
    and the calls its delegate has received, oldest first. *)
Record NavigationManagerImpl `{PageTransitionApi} := {
  browser_state_ : option positive;
  transient_url_rewriters_ : option (list URLRewriter);
  delegate_log : list delegate_call;
}.

Record CRWSessionController `{PageTransitionApi} := {
  _navigationManager : option NavigationManagerImpl;
  _lastCommittedItemIndex : Z;
  _previousItemIndex : Z;
  _pendingItemIndex : Z;
  _browserState : option positive;
  _timeSmoother : TimeSmoother;
  _items : list address;
  _pendingItem : option address;
  _transientItem : option address;
  heap : gmap address NavigationItemImpl;
  next_address : address;
  unique_id_counter : Z;
}.
End urls.

#[export] Instance NavigationManagerImpl_fields `{GurlApi} `{PageTransitionApi} :
  Fields NavigationManagerImpl := fun m =>
  {| browser_state_ := browser_state_ m;
     transient_url_rewriters_ := transient_url_rewriters_ m;
     delegate_log := delegate_log m |}.

#[export] Instance CRWSessionController_fields `{GurlApi} `{PageTransitionApi} :
  Fields CRWSessionController := fun s =>
  {| _navigationManager := _navigationManager s;
     _lastCommittedItemIndex := _lastCommittedItemIndex s;
     _previousItemIndex := _previousItemIndex s;
     _pendingItemIndex := _pendingItemIndex s;
     _browserState := _browserState s;
     _timeSmoother := _timeSmoother s;
     _items := _items s;
     _pendingItem := _pendingItem s;
     _transientItem := _transientItem s;
     heap := heap s;
     next_address := next_address s;
     unique_id_counter := unique_id_counter s |}.

Section controller.
Context `{GurlApi} `{PageTransitionApi} `{!WebClientApi}
  `{!BrowserURLRewriterImpl}.
Implicit Types (s : CRWSessionController) (a : address).

(** ** Objects *)

Definition item_at s a : chk NavigationItemImpl := deref (heap s !! a).

Definition update_item a (f : NavigationItemImpl -> NavigationItemImpl) s
    : chk CRWSessionController :=
  i ← item_at s a; mret (s <| heap := <[a := f i]> (heap s) |>).

(** [new NavigationItemImpl(...)] *)
Definition allocate (i : NavigationItemImpl) s : address * CRWSessionController :=
  (next_address s,
   s <| heap := <[next_address s := i]> (heap s) |>
     <| next_address := Pos.succ (next_address s) |>).

(** Destroys the object of a [unique_ptr]. *)
Definition release (p : option address) s : CRWSessionController :=
  match p with
  | Some a => s <| heap := delete a (heap s) |>
  | None => s
  end.

Definition release_all (l : list address) s : CRWSessionController :=
  foldr (fun a s => release (Some a) s) s l.

(** [static int unique_id_counter]: the next identifier. *)
Definition GetUniqueIDInConstructor s : Z * CRWSessionController :=
  (unique_id_counter s + 1, s <| unique_id_counter := unique_id_counter s + 1 |>).

(** ** Constructors *)
Definition initWithBrowserState (browserState : option positive)
    : CRWSessionController :=
  {| _navigationManager := None; _lastCommittedItemIndex := -1;
     _previousItemIndex := -1; _pendingItemIndex := -1;
     _browserState := browserState; _timeSmoother := TimeSmoother_new;
     _items := []; _pendingItem := None; _transientItem := None;
     heap := ∅; next_address := 1; unique_id_counter := 0 |}.

(** Takes ownership of [items], given as objects. *)
Fixpoint adopt_items (items : list NavigationItemImpl) s : CRWSessionController :=
  match items with
  | [] => s
  | i :: items =>
      let '(a, s) := allocate i s in
      adopt_items items (s <| _items := _items s ++ [a] |>)
  end.

Definition initWithNavigationItems (browserState : option positive)
    (items : list NavigationItemImpl) (lastCommittedItemIndex : Z)
    : CRWSessionController :=
  let s := adopt_items items (initWithBrowserState browserState) in
  s <| _lastCommittedItemIndex :=
         Z.min lastCommittedItemIndex (vsize (_items s) - 1) |>.

(** ** The navigation manager's callbacks, as the controller sees them *)
Definition tell_delegate (c : delegate_call) s : CRWSessionController :=
  match _navigationManager s with
  | Some m => s <| _navigationManager :=
                     Some (m <| delegate_log := delegate_log m ++ [c] |>) |>
  | None => s
  end.

Definition OnNavigationItemsPruned (pruned_item_count : Z) s :=
  tell_delegate (DOnNavigationItemsPruned pruned_item_count) s.

Definition OnNavigationItemChanged s := tell_delegate DOnNavigationItemChanged s.

Definition set_rewriters (r : option (list URLRewriter)) s : CRWSessionController :=
  match _navigationManager s with
  | Some m => s <| _navigationManager := Some (m <| transient_url_rewriters_ := r |>) |>
  | None => s
  end.

Definition RemoveTransientURLRewriters s := set_rewriters None s.

(** Moves the list out of the manager. *)
Definition GetTransientURLRewriters s
    : option (list URLRewriter) * CRWSessionController :=
  match _navigationManager s with
  | Some m => (transient_url_rewriters_ m, set_rewriters None s)
  | None => (None, s)
  end.

(** ** Accessors *)

(** [self.lastCommittedItemIndex = index] *)
Definition setLastCommittedItemIndex (index : Z) s : CRWSessionController :=
  if _lastCommittedItemIndex s =? index then s
  else RemoveTransientURLRewriters (s <| _lastCommittedItemIndex := index |>).

Definition pendingItem s : chk (option address) :=
  if _pendingItemIndex s =? -1 then mret (_pendingItem s)
  else a ← vget (_items s) (_pendingItemIndex s); mret (Some a).

(** [self.pendingItemIndex = index] *)
Definition setPendingItemIndex (index : Z) s : chk CRWSessionController :=
  _ ← dcheck (-1 <=? index);
  _ ← dcheck (index <? vsize (_items s));
  let s := s <| _pendingItemIndex := index |> in
  p ← pendingItem s;
  _ ← dcheck ((_pendingItemIndex s =? -1) || bool_decide (is_Some p));
  mret s.

Definition transientItem s : option address := _transientItem s.

Definition canPruneAllButLastCommittedItem s : bool :=
  negb (_lastCommittedItemIndex s =? -1) && (_pendingItemIndex s =? -1)
  && negb (bool_decide (is_Some (transientItem s))).

Definition lastCommittedItem s : chk (option address) :=
  if _lastCommittedItemIndex s =? -1 then mret None
  else a ← vget (_items s) (_lastCommittedItemIndex s); mret (Some a).

Definition previousItem s : chk (option address) :=
  if (_previousItemIndex s =? -1) || bool_decide (_items s = []) then mret None
  else a ← vget (_items s) (_previousItemIndex s); mret (Some a).

Definition currentItem s : chk (option address) :=
  match transientItem s with
  | Some a => mret (Some a)
  | None =>
      p ← pendingItem s;
      match p with
      | Some a => mret (Some a)
      | None => lastCommittedItem s
      end
  end.

Definition visibleItem s : chk (option address) :=
  match transientItem s with
  | Some a => mret (Some a)
  | None =>
      p ← pendingItem s;
      match p with
      | Some a =>
          i ← item_at s a;
          let isUserInitiated :=
            bool_decide (NavigationInitiationType_of i = USER_INITIATED) in
          if isUserInitiated && (_pendingItemIndex s =? -1) then mret (Some a)
          else lastCommittedItem s
      | None => lastCommittedItem s
      end
  end.

Definition isRedirectTransitionForItemAtIndex s (index : Z) : chk bool :=
  _ ← dcheck (index <? vsize (_items s));
  a ← vget (_items s) index;
  i ← item_at s a;
  mret (PageTransitionIsRedirect (GetTransitionType i)).

(** [for (index = n; index > 0; --index)] *)
Fixpoint backward_loop s (n : nat) : chk (list address) :=
  match n with
  | O => mret []
  | S k =>
      redirect ← isRedirectTransitionForItemAtIndex s (Z.of_nat n);
      if (redirect : bool) then backward_loop s k
      else
        a ← vget (_items s) (Z.of_nat k);
        rest ← backward_loop s k;
        mret (a :: rest)
  end.

Definition backwardItems s : chk (list address) :=
  if -1 <? _lastCommittedItemIndex s then
    l ← lastCommittedItem s;
    _ ← dcheck (bool_decide (is_Some l));
    items ← backward_loop s (Z.to_nat (_lastCommittedItemIndex s));
    mret (match transientItem s, l with
          | Some _, Some a => a :: items
          | _, _ => items
          end)
  else mret [].

(** The loop over the items from [lastNonRedirectedIndex] on. *)
Fixpoint forward_loop s (items : list address) : chk (list address) :=
  match items with
  | [] => mret []
  | a :: items =>
      i ← item_at s a;
      rest ← forward_loop s items;
      mret (if PageTransitionIsRedirect (GetTransitionType i) then rest
            else a :: rest)
  end.

(** The index is unsigned: a negative one is past the end. *)
Definition forwardItems s : chk (list address) :=
  if _lastCommittedItemIndex s + 1 <? 0 then mret []
  else forward_loop s
         (drop (Z.to_nat (_lastCommittedItemIndex s + 1)) (_items s)).

Definition indexOfItem s a : Z :=
  match find_index (fun b => bool_decide (b = a)) (_items s) with
  | Some n => Z.of_nat n
  | None => -1
  end.

Definition itemAtIndex s (index : Z) : option address :=
  if (index <? 0) || (vsize (_items s) <=? index) then None
  else _items s !! Z.to_nat index.
End controller.

Section operations.
Context `{GurlApi} `{PageTransitionApi} `{!WebClientApi}
  `{!BrowserURLRewriterImpl}.
Implicit Types (s : CRWSessionController) (a : address).

(** ** [OnNavigationItemCommitted] of the manager *)
Definition OnNavigationItemCommitted s : chk CRWSessionController :=
  item ← lastCommittedItem s;
  last ← deref item;
  let index := _previousItemIndex s in
  details ←
    (if 0 <=? index then
       p ← previousItem s;
       previous ← deref p;
       pi ← item_at s previous;
       li ← item_at s last;
       mret {| details_item := item; previous_item_index := index;
               previous_url := GetURL pi;
               is_in_page := AreURLsInPageNavigation (GetURL pi) (GetURL li) |}
     else
       mret {| details_item := item; previous_item_index := index;
               previous_url := GURL_empty; is_in_page := false |});
  mret (tell_delegate (DOnNavigationItemCommitted details) s).

(** [if (_navigationManager) _navigationManager->OnNavigationItemCommitted()] *)
Definition notify_committed s : chk CRWSessionController :=
  match _navigationManager s with
  | Some _ => OnNavigationItemCommitted s
  | None => mret s
  end.

(** ** Creating items *)

(** The URL an item is created with, and whether a transient rewriter or one
    of the application produced it. *)
Definition rewrite_url (url : GURL) s : GURL * CRWSessionController :=
  let '(transientRewriters, s) := GetTransientURLRewriters s in
  let '(urlWasRewritten, loaded_url) :=
    match transientRewriters with
    | Some rewriters => RewriteURLWithWriters url rewriters
    | None => (false, url)
    end in
  if (urlWasRewritten : bool) then (loaded_url, s)
  else ((RewriteURLIfNecessary loaded_url).2, s).

(** A renderer may not be sent to an application URL by a rewriter unless it
    shows one already. *)
Definition allowed_url (url loaded_url : GURL)
    (initiationType : NavigationInitiationType) s : chk GURL :=
  if bool_decide (initiationType = RENDERER_INITIATED)
     && negb (same_url loaded_url url) && IsAppSpecificURL loaded_url
  then
    l ← lastCommittedItem s;
    lastCommittedURLIsAppSpecific ←
      match l with
      | Some a => i ← item_at s a; mret (IsAppSpecificURL (GetURL i))
      | None => mret false
      end;
    mret (if (lastCommittedURLIsAppSpecific : bool) then loaded_url else url)
  else mret loaded_url.

Definition itemWithURL (url : GURL) (referrer : Referrer)
    (transition : PageTransition) (initiationType : NavigationInitiationType) s
    : chk (address * CRWSessionController) :=
  let '(loaded_url, s) := rewrite_url url s in
  loaded_url ← allowed_url url loaded_url initiationType s;
  let '(unique_id, s) := GetUniqueIDInConstructor s in
  let item := NavigationItemImpl_new unique_id in
  let item := SetOriginalRequestURL loaded_url item in
  let item := SetURL loaded_url item in
  let item := SetReferrer referrer item in
  let item := SetTransitionType transition item in
  let item := SetNavigationInitiationType initiationType item in
  item ← (if IsAppSpecificURL loaded_url then SetUserAgentType UA_NONE item
          else mret item);
  mret (allocate item s).

(** [_timeSmoother.GetSmoothedTime(base::Time::Now())] *)
Definition smoothed_now (now : Z) s : Z * CRWSessionController :=
  let '(t, smoother) := GetSmoothedTime now (_timeSmoother s) in
  (t, s <| _timeSmoother := smoother |>).

(** ** Public methods *)

Definition setNavigationManager (m : option NavigationManagerImpl) s
    : chk CRWSessionController :=
  let s := s <| _navigationManager := m |> in
  match m with
  | None => mret s
  | Some m =>
      let s := match _browserState s with
               | None => s <| _browserState := browser_state_ m |>
               | Some _ => s
               end in
      _ ← dcheck (bool_decide (_browserState s = browser_state_ m));
      mret s
  end.

Definition setBrowserState (b : option positive) s : chk CRWSessionController :=
  let s := s <| _browserState := b |> in
  _ ← dcheck match _navigationManager s with
             | None => true
             | Some m => bool_decide (browser_state_ m = b)
             end;
  mret s.

Definition discardTransientItem s : CRWSessionController :=
  release (_transientItem s) s <| _transientItem := None |>.

(** [_pendingItem = p], destroying the item held before. *)
Definition reset_pending (p : option address) s : CRWSessionController :=
  release (_pendingItem s) s <| _pendingItem := p |>.

Definition shouldCreatePendingItemWithURL (URL : GURL)
    (transition : PageTransition)
    (userAgentOverrideOption : UserAgentOverrideOption) s : chk bool :=
  c ← currentItem s;
  match c with
  | None => mret true
  | Some a =>
      currentItem ← item_at s a;
      _ ← dcheck (negb (bool_decide (userAgentOverrideOption = OVERRIDE_DESKTOP))
                  || negb (bool_decide (GetUserAgentType currentItem = UA_DESKTOP)));
      _ ← dcheck (negb (bool_decide (userAgentOverrideOption = OVERRIDE_MOBILE))
                  || negb (bool_decide (GetUserAgentType currentItem = UA_MOBILE)));
      if negb (same_url (GetURL currentItem) URL) then mret true
      else
        let isPendingTransitionFormSubmit :=
          PageTransitionCoreTypeIs transition PAGE_TRANSITION_FORM_SUBMIT in
        let isCurrentTransitionFormSubmit :=
          PageTransitionCoreTypeIs (GetTransitionType currentItem)
            PAGE_TRANSITION_FORM_SUBMIT in
        if isPendingTransitionFormSubmit && negb isCurrentTransitionFormSubmit
        then mret true
        else
          let isPendingTransitionReload :=
            PageTransitionCoreTypeIs transition PAGE_TRANSITION_RELOAD in
          let isInheritingUserAgentType :=
            bool_decide (userAgentOverrideOption = INHERIT) in
          mret (isPendingTransitionReload && negb isInheritingUserAgentType)
  end.

Definition addPendingItem (url : GURL) (ref : Referrer) (trans : PageTransition)
    (initiationType : NavigationInitiationType)
    (userAgentOverrideOption : UserAgentOverrideOption) s
    : chk CRWSessionController :=
  let s := discardTransientItem s in
  s ← setPendingItemIndex (-1) s;
  should ← shouldCreatePendingItemWithURL url trans userAgentOverrideOption s;
  if negb should then mret s
  else
    '(a, s) ← itemWithURL url ref trans initiationType s;
    let s := reset_pending (Some a) s in
    _ ← dcheck (_pendingItemIndex s =? -1);
    mret s.

Definition updatePendingItem (url : GURL) s : chk CRWSessionController :=
  p ← pendingItem s;
  match p with
  | None => mret s
  | Some a =>
      i ← item_at s a;
      if same_url url (GetURL i) then mret s
      else
        let s := discardTransientItem s in
        s ← update_item a (SetURL url) s;
        s ← update_item a (SetVirtualURL url) s;
        s ← update_item a (SetPostData None) s;
        update_item a ResetHttpRequestHeaders s
  end.

Definition clearForwardItems s : chk CRWSessionController :=
  _ ← dcheck (_pendingItemIndex s =? -1);
  let s := discardTransientItem s in
  let forwardItemStartIndex := _lastCommittedItemIndex s + 1 in
  _ ← dcheck (0 <=? forwardItemStartIndex);
  let itemCount := vsize (_items s) in
  if itemCount <=? forwardItemStartIndex then mret s
  else
    let s := if forwardItemStartIndex <=? _previousItemIndex s
             then s <| _previousItemIndex := -1 |> else s in
    let n := Z.to_nat forwardItemStartIndex in
    let s := release_all (drop n (_items s)) s
               <| _items := take n (_items s) |> in
    mret (OnNavigationItemsPruned (itemCount - forwardItemStartIndex) s).

(** The end of [commitPendingItem]: the current item gets its timestamp. *)
Definition stamp_current (now : Z) s : chk CRWSessionController :=
  item ← currentItem s;
  match item with
  | Some a =>
      let '(t, s) := smoothed_now now s in
      s ← update_item a (SetTimestamp t) s;
      notify_committed s
  | None => mret s
  end.

Definition commitPendingItem (now : Z) s : chk CRWSessionController :=
  p ← pendingItem s;
  s ← match p with
      | None => mret s
      | Some a =>
          s ← update_item a ResetForCommit s;
          let newItemIndex := _pendingItemIndex s in
          '(newItemIndex, s) ←
            (if newItemIndex =? -1 then
               s ← clearForwardItems s;
               new_item ← deref (_pendingItem s);
               let s := s <| _items := _items s ++ [new_item] |>
                          <| _pendingItem := None |> in
               mret (vsize (_items s) - 1, s)
             else mret (newItemIndex, s));
          let s := s <| _previousItemIndex := _lastCommittedItemIndex s |> in
          let s := setLastCommittedItemIndex newItemIndex s in
          s ← setPendingItemIndex (-1) s;
          _ ← dcheck (negb (bool_decide (is_Some (_pendingItem s))));
          mret s
      end;
  s ← stamp_current now s;
  _ ← dcheck (_pendingItemIndex s =? -1);
  mret s.

Definition addTransientItemWithURL (URL : GURL) (now : Z) s
    : chk CRWSessionController :=
  '(a, s) ← itemWithURL URL Referrer_new PAGE_TRANSITION_CLIENT_REDIRECT
              USER_INITIATED s;
  let s := release (_transientItem s) s <| _transientItem := Some a |> in
  let '(t, s) := smoothed_now now s in
  update_item a (SetTimestamp t) s.

Definition pushNewItemWithURL (URL : GURL) (stateObject : option string)
    (transition : PageTransition) (now : Z) s : chk CRWSessionController :=
  p ← pendingItem s;
  _ ← dcheck (negb (bool_decide (is_Some p)));
  c ← currentItem s;
  _ ← dcheck (bool_decide (is_Some c));
  l ← lastCommittedItem s;
  last ← deref l;
  li ← item_at s last;
  valid ← IsHistoryStateChangeValid (GetURL li) URL;
  _ ← dcheck valid;
  let referrer := {| referrer_url := GetURL li; policy := ReferrerPolicyDefault |} in
  '(a, s) ← itemWithURL URL referrer transition USER_INITIATED s;
  pushed ← item_at s a;
  pushed ← SetUserAgentType (GetUserAgentType li) pushed;
  let pushed := SetSerializedStateObject stateObject pushed in
  let pushed := SetIsCreatedFromPushState true pushed in
  let pushed := set_ssl (GetSSL li) pushed in
  let '(t, s) := smoothed_now now s in
  let pushed := SetTimestamp t pushed in
  s ← update_item a (fun _ => pushed) s;
  s ← clearForwardItems s;
  let s := s <| _items := _items s ++ [a] |> in
  let s := s <| _previousItemIndex := _lastCommittedItemIndex s |> in
  let s := setLastCommittedItemIndex (vsize (_items s) - 1) s in
  notify_committed s.

Definition updateCurrentItemWithURL (url : GURL) (stateObject : option string) s
    : chk CRWSessionController :=
  _ ← dcheck (negb (bool_decide (is_Some (transientItem s))));
  c ← currentItem s;
  a ← deref c;
  s ← update_item a (SetURL url) s;
  s ← update_item a (SetSerializedStateObject stateObject) s;
  s ← update_item a (SetHasStateBeenReplaced true) s;
  s ← update_item a (SetPostData None) s;
  p ← pendingItem s;
  mret (if bool_decide (p = Some a) then s else OnNavigationItemChanged s).

Definition discardNonCommittedItems s : chk CRWSessionController :=
  let s := discardTransientItem s in
  let s := reset_pending None s in
  setPendingItemIndex (-1) s.

(** Copies of the items of [l], read in the heap of [source]. *)
Fixpoint copy_items (source : CRWSessionController) (l : list address) s
    : chk (list address * CRWSessionController) :=
  match l with
  | [] => mret ([], s)
  | a :: l =>
      i ← item_at source a;
      let '(b, s) := allocate (NavigationItemImpl_copy i) s in
      '(copies, s) ← copy_items source l s;
      mret (b :: copies, s)
  end.

(** The items of the old list are destroyed with it, except the one moved to
    the merged list. *)
Definition copyStateFromSessionControllerAndPrune (source : CRWSessionController)
    s : chk CRWSessionController :=
  if negb (canPruneAllButLastCommittedItem s) then mret s
  else if bool_decide (_items source = []) then mret s
  else
    l ← lastCommittedItem source;
    match l with
    | None => mret s
    | Some _ =>
        _ ← dcheck (-1 <? _lastCommittedItemIndex source);
        let sourceLast := Z.to_nat (_lastCommittedItemIndex source) in
        '(copies, s) ← copy_items source (take (S sourceLast) (_items source)) s;
        last ← vget (_items s) (_lastCommittedItemIndex s);
        let old_items := verase (_lastCommittedItemIndex s) (_items s) in
        let s := release_all old_items s <| _items := copies ++ [last] |> in
        let s := s <| _previousItemIndex := -1 |> in
        let s := s <| _lastCommittedItemIndex := vsize (_items s) - 1 |> in
        mret s
    end.

Definition goToItemAtIndex (index : Z) (discard : bool) s
    : chk CRWSessionController :=
  if (index <? 0) || (vsize (_items s) <=? index) then mret s
  else if index =? _lastCommittedItemIndex s then mret s
  else
    s ← (if discard then
           if index <? _lastCommittedItemIndex s then discardNonCommittedItems s
           else if _lastCommittedItemIndex s <? index
           then mret (discardTransientItem s)
           else mret s
         else mret s);
    mret (s <| _previousItemIndex := _lastCommittedItemIndex s |>
            <| _lastCommittedItemIndex := index |>).

Definition removeItemAtIndex (index : Z) s : chk CRWSessionController :=
  _ ← dcheck (index <? vsize (_items s));
  _ ← dcheck (negb (index =? _lastCommittedItemIndex s));
  _ ← dcheck (0 <=? index);
  s ← discardNonCommittedItems s;
  removed ← vget (_items s) index;
  let s := release (Some removed) s <| _items := verase index (_items s) |> in
  let s := if index <? _lastCommittedItemIndex s
           then s <| _lastCommittedItemIndex := _lastCommittedItemIndex s - 1 |>
           else s in
  let s := if index <=? _previousItemIndex s
           then s <| _previousItemIndex := _previousItemIndex s - 1 |> else s in
  mret (OnNavigationItemsPruned 1 s).

(** The loop of [isSameDocumentNavigationBetweenItem] over the items after
    [startIndex] up to [endIndex]. *)
Fixpoint same_document_loop s (first_url : GURL) (l : list address) : chk bool :=
  match l with
  | [] => mret true
  | a :: l =>
      i ← item_at s a;
      if negb (IsCreatedFromPushState i) && negb (IsCreatedFromHashChange i)
      then mret false
      else
        valid ← IsHistoryStateChangeValid first_url (GetURL i);
        if negb valid then mret false else same_document_loop s first_url l
  end.

Definition isSameDocumentNavigationBetweenItem (firstItem secondItem : option address)
    s : chk bool :=
  match firstItem, secondItem with
  | Some a, Some b =>
      if bool_decide (a = b) then mret false
      else
        let firstIndex := indexOfItem s a in
        let secondIndex := indexOfItem s b in
        if (firstIndex =? -1) || (secondIndex =? -1) then mret false
        else
          let startIndex := Z.min firstIndex secondIndex in
          let endIndex := Z.max firstIndex secondIndex in
          i ← item_at s a;
          same_document_loop s (GetURL i)
            (take (Z.to_nat (endIndex - startIndex))
               (drop (Z.to_nat (startIndex + 1)) (_items s)))
  | _, _ => mret false
  end.
End operations.

(** ** Ownership *)

(** The addresses [l] are distinct, and they are the live ones. *)
Definition heap_ok {I} (l : list address) (h : gmap address I) (n : address)
    : Prop :=
  NoDup l /\ (forall a, is_Some (h !! a) <-> a ∈ l) /\
  (forall a, a ∈ l -> (a < n)%positive).

#[export] Instance heap_ok_perm {I} (h : gmap address I) (n : address) :
  Proper ((≡ₚ) ==> iff) (fun l => heap_ok l h n).
Proof.
  intros l k Hlk. unfold heap_ok. by setoid_rewrite Hlk.
Qed.

Lemma heap_ok_allocate {I} l (h : gmap address I) n i :
  heap_ok l h n -> heap_ok (n :: l) (<[n := i]> h) (Pos.succ n).
Proof.
  intros (Hnd & Hdom & Hlt). split; [| split].
  - constructor; [| done]. intros Hn%Hlt. lia.
  - intros a. rewrite elem_of_cons, <- Hdom. destruct (decide (a = n)) as [->|Hne].
    + rewrite lookup_insert_eq. split; [by left | by eexists].
    + rewrite lookup_insert_ne by done. split; [by right | by intros []].
  - intros a [->|Ha]%elem_of_cons; [lia |]. apply Hlt in Ha. lia.
Qed.

Lemma heap_ok_delete {I} a l (h : gmap address I) n :
  heap_ok (a :: l) h n -> heap_ok l (delete a h) n.
Proof.
  intros (Hnd & Hdom & Hlt). inversion Hnd as [| ? ? Ha Hnd']; subst.
  split; [done | split].
  - intros b. destruct (decide (b = a)) as [->|Hne].
    + rewrite lookup_delete_eq. split; [by intros [] | done].
    + rewrite lookup_delete_ne, Hdom, elem_of_cons by done. naive_solver.
  - intros b Hb. apply Hlt. by right.
Qed.

Lemma heap_ok_dom {I} l (h h' : gmap address I) n :
  (forall a, is_Some (h' !! a) <-> is_Some (h !! a)) ->
  heap_ok l h n -> heap_ok l h' n.
Proof. intros Hh (Hnd & Hdom & Hlt). split; [done | split; [| done]]. by setoid_rewrite Hh. Qed.

Lemma is_Some_update {I} (h : gmap address I) a i i' b :
  h !! a = Some i -> is_Some (<[a := i']> h !! b) <-> is_Some (h !! b).
Proof.
  intros Ha. destruct (decide (b = a)) as [->|Hne].
  - rewrite lookup_insert_eq, Ha. by split; eexists.
  - by rewrite lookup_insert_ne.
Qed.

Section ownership.
Context `{GurlApi} `{PageTransitionApi} `{!WebClientApi}
  `{!BrowserURLRewriterImpl}.
Implicit Types (s : CRWSessionController) (a : address).

(** The items a session owns. *)
Definition owned s : list address :=
  _items s ++ option_list (_pendingItem s) ++ option_list (_transientItem s).

(** A session in the middle of an operation that holds the items [extra] in
    local variables. *)
Record session_with (extra : list address) s : Prop := {
  ok_heap : heap_ok (extra ++ owned s) (heap s) (next_address s);
  ok_last : -1 <= _lastCommittedItemIndex s < vsize (_items s);
  ok_previous : -1 <= _previousItemIndex s < vsize (_items s);
  ok_pending : -1 <= _pendingItemIndex s < vsize (_items s);
  ok_one_pending : _pendingItemIndex s = -1 \/ _pendingItem s = None;
}.

Abbreviation session_ok := (session_with []).

(** What operations on items and calls to the delegate leave alone. *)
Record frame s s' : Prop := {
  frame_items : _items s' = _items s;
  frame_pending_item : _pendingItem s' = _pendingItem s;
  frame_transient : _transientItem s' = _transientItem s;
  frame_last : _lastCommittedItemIndex s' = _lastCommittedItemIndex s;
  frame_previous : _previousItemIndex s' = _previousItemIndex s;
  frame_pending : _pendingItemIndex s' = _pendingItemIndex s;
  frame_next : next_address s' = next_address s;
  frame_heap : forall a, is_Some (heap s' !! a) <-> is_Some (heap s !! a);
}.

#[export] Instance frame_preorder : PreOrder frame.
Proof.
  split.
  - intros s. by split.
  - intros s1 s2 s3 [] []. split; try congruence. naive_solver.
Qed.

Lemma session_frame extra s s' :
  frame s s' -> session_with extra s -> session_with extra s'.
Proof.
  intros [] []. split; unfold owned; try congruence.
  apply (heap_ok_dom _ (heap s)); [done |]. unfold owned in *. congruence.
Qed.

Lemma frame_update_item s s' a f : update_item a f s = Ok s' -> frame s s'.
Proof.
  unfold update_item, item_at. intros Hu. chk_inv Hu. injection Hrun0 as <-.
  unfold deref in Hrun. destruct (heap s !! a) as [i|] eqn:Hi; [| done].
  split; simpl; try done. intros b. by apply (is_Some_update _ _ i).
Qed.

Lemma frame_tell s c : frame s (tell_delegate c s).
Proof. unfold tell_delegate. by destruct (_navigationManager s). Qed.

Lemma frame_set_rewriters s r : frame s (set_rewriters r s).
Proof. unfold set_rewriters. by destruct (_navigationManager s). Qed.

Lemma frame_smoothed_now s now t s' : smoothed_now now s = (t, s') -> frame s s'.
Proof. unfold smoothed_now. destruct (GetSmoothedTime _ _). by intros [= <- <-]. Qed.

Lemma frame_notify_committed s s' : notify_committed s = Ok s' -> frame s s'.
Proof.
  unfold notify_committed. destruct (_navigationManager s); [| by intros [= <-]].
  unfold OnNavigationItemCommitted. intros Hn. chk_inv Hn. injection Hrun3 as <-.
  apply frame_tell.
Qed.

Lemma frame_rewrite_url s url u s' : rewrite_url url s = (u, s') -> frame s s'.
Proof.
  unfold rewrite_url, GetTransientURLRewriters.
  destruct (_navigationManager s) as [m|].
  - destruct (transient_url_rewriters_ m) as [rs|].
    + destruct (RewriteURLWithWriters url rs) as [[] ?]; intros [= <- <-];
        apply frame_set_rewriters.
    + intros [= <- <-]. apply frame_set_rewriters.
  - by intros [= <- <-].
Qed.

(** *** Creating and destroying items *)

Lemma session_allocate extra s i :
  session_with extra s ->
  session_with ((allocate i s).1 :: extra) (allocate i s).2.
Proof. intros []. split; try done. by apply heap_ok_allocate. Qed.

Lemma session_itemWithURL extra url ref trans init s a s' :
  session_with extra s -> itemWithURL url ref trans init s = Ok (a, s') ->
  session_with (a :: extra) s' /\ _pendingItemIndex s' = _pendingItemIndex s /\
  _pendingItem s' = _pendingItem s /\ _transientItem s' = _transientItem s /\
  _items s' = _items s.
Proof.
  intros Hs. unfold itemWithURL. destruct (rewrite_url url s) as [u s1] eqn:Hr.
  pose proof (frame_rewrite_url _ _ _ _ Hr) as Hf. intros Hi. chk_inv Hi.
  unfold GetUniqueIDInConstructor in *. simpl in *. chk_inv Hrun0.
  injection Hrun2 as <- <-.
  assert (session_with extra (s1 <| unique_id_counter := unique_id_counter s1 + 1 |>))
    as Hs1.
  { destruct (session_frame _ _ _ Hf Hs). by split. }
  split; [exact (session_allocate _ _ a1 Hs1) |]. by destruct Hf.
Qed.

Lemma session_discardTransientItem extra s :
  session_with extra s -> session_with extra (discardTransientItem s).
Proof.
  intros [Hh]. unfold discardTransientItem.
  destruct s as [m last prev pend b ts items p [t|] h n c]; split; simpl in *;
    try done.
  unfold owned in *. simpl in *. rewrite app_nil_r. apply heap_ok_delete.
  eapply heap_ok_perm; [| exact Hh]. solve_Permutation.
Qed.

Lemma session_reset_pending_None extra s :
  session_with extra s -> session_with extra (reset_pending None s).
Proof.
  intros [Hh]. unfold reset_pending.
  destruct s as [m last prev pend b ts items [p|] t h n c]; split; simpl in *;
    try done; try tauto.
  unfold owned in *. simpl in *. apply (heap_ok_delete p).
  eapply heap_ok_perm; [| exact Hh]. solve_Permutation.
Qed.

Lemma session_reset_pending_Some extra a s :
  session_with (a :: extra) s -> _pendingItemIndex s = -1 ->
  session_with extra (reset_pending (Some a) s).
Proof.
  intros [Hh] Hp. unfold reset_pending.
  destruct s as [m last prev pend b ts items [p|] t h n c]; split; simpl in *;
    try done; try tauto; unfold owned in *; simpl in *.
  - apply (heap_ok_delete p). eapply heap_ok_perm; [| exact Hh]. solve_Permutation.
  - eapply heap_ok_perm; [| exact Hh]. solve_Permutation.
Qed.

Lemma session_store_transient extra a s :
  session_with (a :: extra) s ->
  session_with extra (release (_transientItem s) s <| _transientItem := Some a |>).
Proof.
  intros [Hh].
  destruct s as [m last prev pend b ts items p [t|] h n c]; split; simpl in *;
    try done; unfold owned in *; simpl in *.
  - apply (heap_ok_delete t). eapply heap_ok_perm; [| exact Hh]. solve_Permutation.
  - eapply heap_ok_perm; [| exact Hh]. solve_Permutation.
Qed.

Lemma session_setPendingItemIndex extra index s s' :
  session_with extra s -> (index = -1 \/ _pendingItem s = None) ->
  setPendingItemIndex index s = Ok s' -> session_with extra s'.
Proof.
  intros [] Hi Hs. unfold setPendingItemIndex in Hs. run_inv Hs. by split.
Qed.

Lemma setPendingItemIndex_m1 s :
  setPendingItemIndex (-1) s = Ok (s <| _pendingItemIndex := -1 |>).
Proof.
  unfold setPendingItemIndex. pose proof (vsize_nonneg (_items s)).
  rewrite (dcheck_true (_ <? _)) by (case_bool; done). done.
Qed.

Lemma session_pending_m1 extra s :
  session_with extra s -> session_with extra (s <| _pendingItemIndex := -1 |>).
Proof.
  intros []. split; simpl; try done; [| by left].
  pose proof (vsize_nonneg (_items s)). lia.
Qed.

Lemma setLastCommittedItemIndex_frame index s :
  frame (s <| _lastCommittedItemIndex := index |>)
    (setLastCommittedItemIndex index s).
Proof.
  unfold setLastCommittedItemIndex. destruct (Z.eqb_spec (_lastCommittedItemIndex s) index).
  - by subst; split.
  - apply frame_set_rewriters.
Qed.

Lemma discardNonCommittedItems_eq s :
  discardNonCommittedItems s
  = Ok (reset_pending None (discardTransientItem s) <| _pendingItemIndex := -1 |>).
Proof. unfold discardNonCommittedItems. by rewrite setPendingItemIndex_m1. Qed.

Lemma session_discardNonCommittedItems extra s s' :
  session_with extra s -> discardNonCommittedItems s = Ok s' ->
  session_with extra s'.
Proof.
  intros Hs. rewrite discardNonCommittedItems_eq. intros [= <-].
  by apply session_pending_m1, session_reset_pending_None,
    session_discardTransientItem.
Qed.

(** Destroying several items changes the heap only. *)
Lemma release_all_heap l s : exists h,
  release_all l s = s <| heap := h |> /\
  (forall k n, heap_ok (l ++ k) (heap s) n -> heap_ok k h n) /\
  (forall a, a ∉ l -> h !! a = heap s !! a).
Proof.
  induction l as [| a l IH]; simpl.
  - exists (heap s). by destruct s.
  - destruct IH as (h & -> & Hk & Hl). exists (delete a h). split; [done |]. split.
    + intros k n Hak. apply heap_ok_delete, Hk.
      eapply heap_ok_perm; [| exact Hak]. solve_Permutation.
    + intros b Hb. rewrite not_elem_of_cons in Hb. destruct Hb as [Hne Hb].
      rewrite lookup_delete_ne by done. by apply Hl.
Qed.

(** The state after [clearForwardItems]. *)
Definition cleared s : CRWSessionController :=
  let d := discardTransientItem s in
  let start := _lastCommittedItemIndex s + 1 in
  let n := Z.to_nat start in
  if vsize (_items s) <=? start then d
  else OnNavigationItemsPruned (vsize (_items s) - start)
         (release_all (drop n (_items s))
            (d <| _previousItemIndex :=
                    if start <=? _previousItemIndex s then -1
                    else _previousItemIndex s |>)
            <| _items := take n (_items s) |>).

Lemma discardTransientItem_eq s :
  discardTransientItem s
  = s <| heap := heap (discardTransientItem s) |> <| _transientItem := None |>.
Proof. unfold discardTransientItem. by destruct s as [? ? ? ? ? ? ? ? []]. Qed.

Lemma clearForwardItems_eq s :
  clearForwardItems s
  = (_ ← dcheck (_pendingItemIndex s =? -1);
     _ ← dcheck (0 <=? _lastCommittedItemIndex s + 1);
     Ok (cleared s)).
Proof.
  unfold clearForwardItems, cleared, discardTransientItem.
  destruct s as [m last prev pend b ts items p [t|] h n c]; simpl;
    (destruct (pend =? -1); simpl; [| done]);
    (destruct (0 <=? last + 1); simpl; [| done]);
    (destruct (vsize items <=? last + 1); [done |]);
    by destruct (last + 1 <=? prev).
Qed.

Lemma session_cleared extra s :
  session_with extra s -> _pendingItemIndex s = -1 ->
  session_with extra (cleared s).
Proof.
  intros Hs Hp. unfold cleared.
  apply session_discardTransientItem in Hs as [Hh Hla Hpr Hpe Hone].
  assert (_items (discardTransientItem s) = _items s /\
          _lastCommittedItemIndex (discardTransientItem s)
          = _lastCommittedItemIndex s /\
          _previousItemIndex (discardTransientItem s) = _previousItemIndex s /\
          _pendingItemIndex (discardTransientItem s) = _pendingItemIndex s)
    as (Ei & El & Er & Ep) by (by rewrite discardTransientItem_eq).
  set (d := discardTransientItem s) in *. rewrite <- Ei, <- El, <- Er in *.
  clearbody d.
  destruct (Z.leb_spec (vsize (_items d)) (_lastCommittedItemIndex d + 1)) as [Hle|Hlt].
  { by split. }
  eapply session_frame; [apply frame_tell |].
  set (n := Z.to_nat _).
  assert (vsize (take n (_items d)) = _lastCommittedItemIndex d + 1) as Hn.
  { unfold vsize in *. rewrite length_take. subst n. lia. }
  destruct (release_all_heap (drop n (_items d))
    (d <| _previousItemIndex := if _lastCommittedItemIndex d + 1
            <=? _previousItemIndex d then -1 else _previousItemIndex d |>)) as (h & -> & Hk & _). 
  split; simpl; rewrite ?Hn; try lia; [| by case_bool; lia].
  apply Hk. unfold owned in *. simpl.
  rewrite <- (take_drop n (_items d)) in Hh.
  eapply heap_ok_perm; [| exact Hh]. rewrite <- !app_assoc.
  rewrite !(Permutation_app_comm extra), <- !app_assoc. by rewrite Permutation_app_swap_app.
Qed.

Lemma session_clearForwardItems extra s s' :
  session_with extra s -> clearForwardItems s = Ok s' -> session_with extra s'.
Proof.
  intros Hs. rewrite clearForwardItems_eq. intros Hc. run_inv Hc.
  by apply session_cleared.
Qed.

(** Every known run of an operation that only touches items or tells the
    delegate, from the invariant of its start to that of its end. *)
Ltac frames :=
  repeat match goal with
  | H : update_item _ _ _ = Ok _ |- _ => apply frame_update_item in H
  | H : notify_committed _ = Ok _ |- _ => apply frame_notify_committed in H
  | H : smoothed_now _ _ = (_, _) |- _ => apply frame_smoothed_now in H
  end;
  match goal with
  | |- frame _ _ => by repeat (etrans; [eassumption |])
  | Hs : session_with ?x ?s |- session_with ?x ?s' =>
      apply (session_frame x s s'); [by repeat (etrans; [eassumption |]) | exact Hs]
  end.

(** *** The public operations keep the session well formed *)

(** Appends an item held in a local variable and makes it the last one. *)
Lemma session_append extra a s :
  session_with (a :: extra) s ->
  session_with extra (s <| _items := _items s ++ [a] |>).
Proof.
  intros [Hh]. assert (vsize (_items s ++ [a]) = vsize (_items s) + 1) as Hl.
  { unfold vsize. rewrite length_app. simpl. lia. }
  split; simpl; rewrite ?Hl; try lia; [| done].
  eapply heap_ok_perm; [| exact Hh]. unfold owned. simpl. solve_Permutation.
Qed.

(** The pending item becomes a local variable. *)
Lemma session_take_pending extra a s :
  session_with extra s -> _pendingItem s = Some a ->
  session_with (a :: extra) (s <| _pendingItem := None |>).
Proof.
  intros [Hh] Ha. split; simpl; try done; [| by right].
  eapply heap_ok_perm; [| exact Hh]. unfold owned. simpl. rewrite Ha.
  simpl. solve_Permutation.
Qed.

Lemma session_indices extra last previous s :
  session_with extra s -> -1 <= last < vsize (_items s) ->
  -1 <= previous < vsize (_items s) ->
  session_with extra (s <| _previousItemIndex := previous |>
                        <| _lastCommittedItemIndex := last |>).
Proof. intros [] ? ?. by split. Qed.

Lemma session_commit_index extra last s :
  session_with extra s -> -1 <= last < vsize (_items s) ->
  session_with extra (setLastCommittedItemIndex last
    (s <| _previousItemIndex := _lastCommittedItemIndex s |>)).
Proof.
  intros Hs Hl. eapply session_frame; [apply setLastCommittedItemIndex_frame |].
  apply session_indices; [done | done |]. apply (ok_last _ _ Hs).
Qed.

Lemma vsize_snoc {A} (l : list A) (x : A) : vsize (l ++ [x]) = vsize l + 1.
Proof. unfold vsize. rewrite length_app. simpl. lia. Qed.

Lemma session_addPendingItem url ref trans init ua s s' :
  session_ok s -> addPendingItem url ref trans init ua s = Ok s' -> session_ok s'.
Proof.
  intros Hs Ha. unfold addPendingItem in Ha. rewrite setPendingItemIndex_m1 in Ha.
  assert (session_ok (discardTransientItem s <| _pendingItemIndex := -1 |>)) as Hs1.
  { by apply session_pending_m1, session_discardTransientItem. }
  run_all Ha; [done |].
  match goal with H : itemWithURL _ _ _ _ _ = Ok _ |- _ =>
    destruct (session_itemWithURL _ _ _ _ _ _ _ _ Hs1 H) as [Hs2 [Hp _]] end.
  apply session_reset_pending_Some; [done |]. by rewrite Hp.
Qed.

Lemma session_updatePendingItem url s s' :
  session_ok s -> updatePendingItem url s = Ok s' -> session_ok s'.
Proof.
  intros Hs Hu. unfold updatePendingItem in Hu. run_all Hu; try done.
  apply session_discardTransientItem in Hs. by frames.
Qed.

Lemma deref_Ok {A} (p : option A) x : deref p = Ok x <-> p = Some x.
Proof. destruct p; simpl; split; congruence. Qed.

Lemma session_commit_new s s1 a s2 :
  session_ok s -> clearForwardItems s = Ok s1 -> _pendingItem s1 = Some a ->
  setPendingItemIndex (-1)
    (setLastCommittedItemIndex (vsize (_items s1 ++ [a]) - 1)
       (s1 <| _items := _items s1 ++ [a] |> <| _pendingItem := None |>
           <| _previousItemIndex := _lastCommittedItemIndex s1 |>)) = Ok s2 ->
  session_ok s2.
Proof.
  intros Hs Hc Ha. rewrite setPendingItemIndex_m1. intros [= <-].
  apply session_pending_m1. apply (session_clearForwardItems [] _ _ Hs) in Hc.
  pose proof (session_take_pending _ _ _ Hc Ha) as Ht.
  apply session_append in Ht. simpl in Ht.
  apply (session_commit_index [] _ _ Ht). simpl. rewrite vsize_snoc.
  pose proof (vsize_nonneg (_items s1)). lia.
Qed.

Lemma session_commitPendingItem now s s' :
  session_ok s -> commitPendingItem now s = Ok s' -> session_ok s'.
Proof.
  intros Hs Hc. unfold commitPendingItem in Hc. run_inv Hc.
  assert (session_ok a0) as Hs0.
  { match goal with H : match a with _ => _ end = Ok a0 |- _ => run_all H end; [| | done].
    - eapply session_commit_new; [| eassumption | by apply deref_Ok | eassumption].
      by frames.
    - match goal with H : setPendingItemIndex _ _ = Ok _ |- _ =>
        rewrite setPendingItemIndex_m1 in H; injection H as <- end.
      match goal with H : update_item _ _ s = Ok ?x |- _ =>
        assert (session_ok x) as Ha2 by by frames end.
      apply session_pending_m1, session_commit_index; [done |].
      apply (ok_pending _ _ Ha2). }
  match goal with H : stamp_current _ _ = Ok s' |- _ =>
    unfold stamp_current in H; run_all H end; by frames.
Qed.

Lemma session_addTransientItemWithURL URL now s s' :
  session_ok s -> addTransientItemWithURL URL now s = Ok s' -> session_ok s'.
Proof.
  intros Hs Ht. unfold addTransientItemWithURL in Ht. run_all Ht.
  match goal with H : itemWithURL _ _ _ _ _ = Ok _ |- _ =>
    destruct (session_itemWithURL _ _ _ _ _ _ _ _ Hs H) as [Hs2 _] end.
  apply session_store_transient in Hs2. by frames.
Qed.

Lemma session_pushNewItemWithURL URL o trans now s s' :
  session_ok s -> pushNewItemWithURL URL o trans now s = Ok s' -> session_ok s'.
Proof.
  intros Hs Hp. unfold pushNewItemWithURL in Hp. run_all Hp.
  match goal with H : itemWithURL _ _ _ _ _ = Ok (?a, ?s2) |- _ =>
    destruct (session_itemWithURL _ _ _ _ _ _ _ _ Hs H) as [Hs2 _];
    rename a into pushed end.
  match goal with H : update_item _ _ _ = Ok ?s4 |- _ =>
    assert (session_with [pushed] s4) as Hs4 by by frames end.
  match goal with H : clearForwardItems _ = Ok ?s5 |- _ =>
    apply (session_clearForwardItems _ _ _ Hs4) in H;
    apply session_append in H; rename H into Hs5 end.
  match goal with H : notify_committed _ = Ok _ |- _ =>
    apply frame_notify_committed in H; apply (session_frame _ _ _ H) end.
  apply session_commit_index; [done |]. simpl. rewrite vsize_snoc.
  match goal with |- context [vsize ?l] => pose proof (vsize_nonneg l) end. lia.
Qed.

Lemma session_updateCurrentItem url o s s' :
  session_ok s -> updateCurrentItemWithURL url o s = Ok s' -> session_ok s'.
Proof.
  intros Hs Hu. unfold updateCurrentItemWithURL in Hu. run_all Hu.
  match goal with |- context [if ?b then _ else _] => destruct b end;
    [by frames |].
  eapply session_frame; [apply frame_tell |]. by frames.
Qed.

Lemma session_goToItemAtIndex index discard s s' :
  session_ok s -> goToItemAtIndex index discard s = Ok s' -> session_ok s'.
Proof.
  intros Hs Hg. unfold goToItemAtIndex in Hg.
  destruct (Z.ltb_spec index 0), (Z.leb_spec (vsize (_items s)) index);
    simpl in Hg; try (by injection Hg as <-).
  destruct (index =? _); [by injection Hg as <- |]. run_inv Hg.
  assert (session_ok a /\ _items a = _items s) as [Ha Hi].
  { run_all Hrun; try done.
    - split; [by eapply session_discardNonCommittedItems |].
      rewrite discardNonCommittedItems_eq in Hrun. injection Hrun as <-. simpl.
      unfold reset_pending, discardTransientItem.
      by destruct s as [? ? ? ? ? ? ? [] []].
    - split; [by apply session_discardTransientItem |].
      by rewrite discardTransientItem_eq. }
  apply session_indices; [done | rewrite Hi; lia |]. apply (ok_last _ _ Ha).
Qed.

Lemma session_removeItemAtIndex index s s' :
  session_ok s -> removeItemAtIndex index s = Ok s' -> session_ok s'.
Proof.
  intros Hs Hr. unfold removeItemAtIndex in Hr. run_inv Hr.
  match goal with H : discardNonCommittedItems s = Ok ?x |- _ =>
    rename x into d; assert (session_ok d) as [Hh Hl Hp Hq Ho]
      by (by eapply session_discardNonCommittedItems);
    rewrite discardNonCommittedItems_eq in H; injection H as Hd end.
  assert (_lastCommittedItemIndex d = _lastCommittedItemIndex s /\
          _pendingItemIndex d = -1) as [Hl1 Hp1].
  { subst d. unfold reset_pending, discardTransientItem.
    by destruct s as [? ? ? ? ? ? ? [] []]. }
  clear Hd. match goal with H : vget _ _ = Ok ?a |- _ =>
    rename a into removed; pose proof (vget_range _ _ _ H);
    pose proof (verase_Permutation _ _ _ H) as Hperm end.
  assert (vsize (verase index (_items d)) = vsize (_items d) - 1) as Hv
    by by apply vsize_verase.
  match goal with H : negb (_ =? _) = true |- _ =>
    apply negb_true_iff, Z.eqb_neq in H end.
  eapply session_frame; [apply frame_tell |].
  destruct (Z.ltb_spec index (_lastCommittedItemIndex d)); simpl;
    (destruct (Z.leb_spec index (_previousItemIndex d)); simpl);
    (split; simpl; rewrite ?Hv; try lia); try (by left).
  all: apply heap_ok_delete; eapply heap_ok_perm; [| exact Hh];
    unfold owned; simpl; first [apply (Permutation_app_tail _ Hperm)
      | symmetry; apply (Permutation_app_tail _ Hperm)].
Qed.

Lemma session_copy_items source l s copies s' extra :
  session_with extra s -> copy_items source l s = Ok (copies, s') ->
  session_with (copies ++ extra) s' /\ _items s' = _items s /\
  _lastCommittedItemIndex s' = _lastCommittedItemIndex s /\
  length copies = length l.
Proof.
  revert s copies s' extra.
  induction l as [| a l IH]; intros s copies s' extra Hs Hc; simpl in Hc.
  - by injection Hc as <- <-.
  - run_all Hc. pose proof (session_allocate _ _ (NavigationItemImpl_copy a0) Hs) as Ha.
    unfold allocate in *. simplify_eq.
    match goal with H : copy_items _ _ _ = _ |- _ =>
      destruct (IH _ _ _ _ Ha H) as (Hs' & Hi & Hla & Hlen) end.
    split; [| split; [done | split; [done | simpl; congruence]]].
    destruct Hs' as [Hh]. split; try done.
    eapply heap_ok_perm; [| exact Hh]. unfold owned. simpl in *.
    solve_Permutation.
Qed.

Lemma canPrune_spec s :
  canPruneAllButLastCommittedItem s = true <->
  _lastCommittedItemIndex s <> -1 /\ _pendingItemIndex s = -1 /\
  _transientItem s = None.
Proof.
  unfold canPruneAllButLastCommittedItem, transientItem.
  rewrite !andb_true_iff, !negb_true_iff, Z.eqb_neq, Z.eqb_eq, bool_decide_eq_false.
  rewrite <- eq_None_not_Some. tauto.
Qed.

(** The state after a merge: the copies, then the item that stays. *)
Lemma session_merge copies s last :
  session_with copies s -> _pendingItemIndex s = -1 ->
  vget (_items s) (_lastCommittedItemIndex s) = Ok last ->
  session_ok (release_all (verase (_lastCommittedItemIndex s) (_items s)) s
                <| _items := copies ++ [last] |>
                <| _previousItemIndex := -1 |>
                <| _lastCommittedItemIndex := vsize (copies ++ [last]) - 1 |>).
Proof.
  intros [Hh _ _ _ Ho] Hp Hlast.
  destruct (release_all_heap (verase (_lastCommittedItemIndex s) (_items s)) s)
    as (h & -> & Hk & _).
  pose proof (verase_Permutation _ _ _ Hlast) as Hperm.
  pose proof (vsize_snoc copies last). pose proof (vsize_nonneg copies).
  split; simpl; rewrite ?Hp; try lia.
  apply Hk. eapply heap_ok_perm; [| exact Hh]. unfold owned. simpl.
  symmetry. etransitivity;
    [apply Permutation_app_head, Permutation_app_tail, Hperm |].
  solve_Permutation.
Qed.

Lemma copy_items_pending source l s copies s' :
  copy_items source l s = Ok (copies, s') ->
  _pendingItemIndex s' = _pendingItemIndex s.
Proof.
  revert s copies s'. induction l as [| a l IH]; intros s copies s' Hc; simpl in Hc.
  - by injection Hc as <- <-.
  - run_all Hc. unfold allocate in *. simplify_eq.
    match goal with H : copy_items _ _ _ = _ |- _ => by apply IH in H end.
Qed.

Lemma session_copyState source s s' :
  session_ok s -> copyStateFromSessionControllerAndPrune source s = Ok s' ->
  session_ok s'.
Proof.
  intros Hs Hc. unfold copyStateFromSessionControllerAndPrune in Hc.
  run_all Hc; try done.
  match goal with H : negb (canPruneAllButLastCommittedItem s) = false |- _ =>
    apply negb_false_iff, canPrune_spec in H as (_ & Hp & _) end.
  match goal with H : copy_items _ _ _ = _ |- _ =>
    pose proof (copy_items_pending _ _ _ _ _ H) as Hp2;
    destruct (session_copy_items _ _ _ _ _ [] Hs H) as (Hs2 & Hi & Hl & _) end.
  rewrite app_nil_r in Hs2.
  apply session_merge; [done | congruence | done].
Qed.

(** *** Constructors *)

Lemma session_initWithBrowserState b : session_ok (initWithBrowserState b).
Proof.
  split; simpl; try (unfold vsize; simpl; lia).
  split; [constructor | split].
  - intros a. rewrite lookup_empty. split; [by intros [] |].
    by intros ?%not_elem_of_nil.
  - intros a Ha. by apply not_elem_of_nil in Ha.
Qed.

Lemma session_adopt_items items s :
  session_ok s -> session_ok (adopt_items items s).
Proof.
  revert s. induction items as [| i items IH]; intros s Hs; simpl; [done |].
  apply IH. apply (session_append [] (next_address s) (allocate i s).2).
  by apply (session_allocate [] s i).
Qed.

Lemma session_initWithNavigationItems b items index :
  -1 <= index -> session_ok (initWithNavigationItems b items index).
Proof.
  intros Hi. unfold initWithNavigationItems.
  pose proof (session_adopt_items items _ (session_initWithBrowserState b)) as [].
  pose proof (vsize_nonneg (_items (adopt_items items (initWithBrowserState b)))).
  split; simpl; try done. lia.
Qed.

Lemma frame_setNavigationManager m s s' :
  setNavigationManager m s = Ok s' -> frame s s'.
Proof.
  unfold setNavigationManager. intros Hm. run_all Hm; simpl; by destruct (_browserState s).
Qed.

Lemma frame_setBrowserState b s s' : setBrowserState b s = Ok s' -> frame s s'.
Proof. unfold setBrowserState. intros Hm. by run_all Hm. Qed.
End ownership.

(** ** What a well-formed session can always do *)
Section totality.
Context `{GurlApi} `{PageTransitionApi} `{!WebClientApi}
  `{!BrowserURLRewriterImpl}.
Implicit Types (s : CRWSessionController) (a : address).
Abbreviation session_ok := (session_with []).

Lemma item_at_owned s a :
  session_ok s -> a ∈ owned s -> exists i, heap s !! a = Some i /\ item_at s a = Ok i.
Proof.
  intros [Hh] Ha. destruct Hh as (_ & Hd & _). apply Hd in Ha as [i Hi].
  exists i. split; [done |]. unfold item_at. by rewrite Hi.
Qed.

Lemma update_item_Ok s a i f :
  heap s !! a = Some i ->
  update_item a f s = Ok (s <| heap := <[a := f i]> (heap s) |>).
Proof. intros Hi. unfold update_item, item_at. by rewrite Hi. Qed.

Lemma items_owned s (i : Z) a : vget (_items s) i = Ok a -> a ∈ owned s.
Proof.
  intros [_ Ha]%vget_Ok. unfold owned. apply elem_of_app. left.
  by eapply list_elem_of_lookup_2.
Qed.

Lemma pendingItem_Ok s :
  session_ok s -> exists p, pendingItem s = Ok p /\ forall a, p = Some a -> a ∈ owned s.
Proof.
  intros [_ _ _ Hp _]. unfold pendingItem. case_bool.
  - exists (_pendingItem s). split; [done |]. intros a Ha. unfold owned.
    rewrite Ha. simpl. set_solver.
  - destruct (vget_in_range (_items s) (_pendingItemIndex s)) as [a Ha]; [lia |].
    rewrite Ha. simpl. exists (Some a). split; [done |]. intros b [= <-].
    by eapply items_owned.
Qed.

Lemma lastCommittedItem_Ok s :
  session_ok s -> exists l, lastCommittedItem s = Ok l /\
    (forall a, l = Some a -> a ∈ owned s) /\
    (l = None <-> _lastCommittedItemIndex s = -1).
Proof.
  intros [_ Hp _ _ _]. unfold lastCommittedItem. case_bool.
  - exists None. by split.
  - destruct (vget_in_range (_items s) (_lastCommittedItemIndex s)) as [a Ha]; [lia |].
    rewrite Ha. simpl. exists (Some a). split; [done |]. split; [| done].
    intros b [= <-]. by eapply items_owned.
Qed.

Lemma previousItem_Ok s :
  session_ok s -> 0 <= _previousItemIndex s ->
  exists a, previousItem s = Ok (Some a) /\ a ∈ owned s.
Proof.
  intros [_ _ Hp _ _] Hz. unfold previousItem.
  rewrite (proj2 (Z.eqb_neq _ _)) by lia. rewrite bool_decide_eq_false_2.
  2: { intros Hn. rewrite Hn in Hp. unfold vsize in Hp. simpl in Hp. lia. }
  simpl. destruct (vget_in_range (_items s) (_previousItemIndex s)) as [a Ha]; [lia |].
  rewrite Ha. exists a. split; [done |]. by eapply items_owned.
Qed.

Lemma currentItem_Ok s :
  session_ok s -> exists c, currentItem s = Ok c /\
    (forall a, c = Some a -> a ∈ owned s) /\
    (c = None -> _lastCommittedItemIndex s = -1).
Proof.
  intros Hs. unfold currentItem, transientItem.
  destruct (_transientItem s) as [t|] eqn:Ht.
  - exists (Some t). split; [done |]. split; [| done]. intros a [= <-].
    unfold owned. rewrite Ht. simpl. set_solver.
  - destruct (pendingItem_Ok s Hs) as ([a|] & -> & Ha); simpl.
    + exists (Some a). split; [done |]. by split; [| done].
    + destruct (lastCommittedItem_Ok s Hs) as (l & -> & Hl & Hn).
      exists l. split; [done |]. split; [done |]. apply Hn.
Qed.

(** The committed notification finds its items. *)
Lemma notify_committed_Ok s :
  session_ok s -> 0 <= _lastCommittedItemIndex s ->
  exists d, notify_committed s = Ok (tell_delegate (DOnNavigationItemCommitted d) s) /\
    lastCommittedItem s = Ok (details_item d) /\
    previous_item_index d = _previousItemIndex s.
Proof.
  intros Hs Hl. unfold notify_committed, OnNavigationItemCommitted.
  destruct (lastCommittedItem_Ok s Hs) as ([a|] & -> & Ha & Hnone).
  2: { specialize (proj1 Hnone eq_refl). lia. }
  destruct (_navigationManager s) eqn:Hm.
  2: { exists {| details_item := Some a; previous_item_index := _previousItemIndex s;
                 previous_url := GURL_empty; is_in_page := false |}.
       unfold tell_delegate. by rewrite Hm. }
  simpl. destruct (Z.leb_spec 0 (_previousItemIndex s)); [| by eexists].
  destruct (previousItem_Ok s Hs ltac:(done)) as (b & -> & Hb).
  destruct (item_at_owned s b Hs Hb) as (ib & _ & Eb).
  destruct (item_at_owned s a Hs (Ha a eq_refl)) as (ia & _ & Ea).
  simpl. rewrite Eb. simpl. rewrite Ea. simpl. by eexists.
Qed.

(** The calls the delegate has received. *)
Definition calls s : list delegate_call :=
  match _navigationManager s with Some m => delegate_log m | None => [] end.

Lemma calls_tell c s :
  calls (tell_delegate c s)
  = calls s ++ match _navigationManager s with Some _ => [c] | None => [] end.
Proof.
  unfold calls, tell_delegate.
  destruct (_navigationManager s) eqn:E; simpl; by rewrite ?E.
Qed.

Lemma discardTransientItem_heap s a :
  _transientItem s <> Some a -> heap (discardTransientItem s) !! a = heap s !! a.
Proof.
  unfold discardTransientItem, release. intros Ha.
  destruct (_transientItem s) as [t|]; [| done]. simpl.
  apply lookup_delete_ne. congruence.
Qed.

(** What [clearForwardItems] does. *)
Record cleared_from s s' : Prop := {
  cleared_items :
    _items s' = take (Z.to_nat (_lastCommittedItemIndex s + 1)) (_items s);
  cleared_pending : _pendingItem s' = _pendingItem s;
  cleared_pending_index : _pendingItemIndex s' = _pendingItemIndex s;
  cleared_transient : _transientItem s' = None;
  cleared_last : _lastCommittedItemIndex s' = _lastCommittedItemIndex s;
  cleared_smoother : _timeSmoother s' = _timeSmoother s;
  cleared_attached :
    is_Some (_navigationManager s') <-> is_Some (_navigationManager s);
  cleared_heap : forall a, _transientItem s <> Some a ->
    a ∉ drop (Z.to_nat (_lastCommittedItemIndex s + 1)) (_items s) ->
    heap s' !! a = heap s !! a;
  cleared_calls : is_Some (_navigationManager s) ->
    calls s' = calls s
      ++ if vsize (_items s) <=? _lastCommittedItemIndex s + 1 then []
         else [DOnNavigationItemsPruned
                 (vsize (_items s) - (_lastCommittedItemIndex s + 1))];
}.

Lemma cleared_spec s : session_ok s -> cleared_from s (cleared s).
Proof.
  intros [_ Hl _ _ _]. unfold cleared. set (start := _lastCommittedItemIndex s + 1).
  pose proof (discardTransientItem_heap s) as Hheap.
  pose proof (discardTransientItem_eq s) as Hd.
  set (h0 := heap (discardTransientItem s)) in *. rewrite Hd. clear Hd. clearbody h0.
  destruct (Z.leb_spec (vsize (_items s)) start) as [Hle|Hlt].
  - split; try done; simpl; [| by auto |].
    + rewrite take_ge; [done |]. unfold vsize in *. lia.
    + intros _. rewrite (proj2 (Z.leb_le _ _)) by done. by rewrite app_nil_r.
  - match goal with |- context [release_all ?l ?x] =>
      destruct (release_all_heap l x) as (h & -> & _ & Hh) end.
    unfold OnNavigationItemsPruned, tell_delegate. simpl in *.
    destruct (_navigationManager s) as [m|] eqn:Hm;
      (split; simpl; try done; try (rewrite Hm; by split);
       try (intros a Ht Ha; rewrite (Hh a Ha); by apply Hheap)).
    all: intros Hsome; rewrite Hm in Hsome; try by destruct Hsome.
    fold start. rewrite (proj2 (Z.leb_gt _ _) Hlt). unfold calls. by rewrite Hm.
Qed.

(** The list ends in the newly committed item. *)
Lemma lastCommittedItem_snoc l a s :
  _items s = l ++ [a] -> _lastCommittedItemIndex s = vsize (_items s) - 1 ->
  lastCommittedItem s = Ok (Some a).
Proof.
  intros Hi Hl. unfold lastCommittedItem. rewrite Hl, Hi.
  rewrite (vget_last l a), vsize_snoc. pose proof (vsize_nonneg l).
  rewrite (proj2 (Z.eqb_neq _ _)) by lia. done.
Qed.

Lemma calls_set_rewriters r s : calls (set_rewriters r s) = calls s.
Proof. unfold calls, set_rewriters. by destruct (_navigationManager s) eqn:E; simpl; rewrite ?E. Qed.

Lemma attached_set_rewriters r s :
  is_Some (_navigationManager (set_rewriters r s)) <-> is_Some (_navigationManager s).
Proof. unfold set_rewriters. destruct (_navigationManager s) eqn:E; simpl; rewrite ?E; by split. Qed.

(** The state of a session whose pending item [a] was moved to the end of the
    list, before the timestamp is set. *)
Definition pushed_back a s : CRWSessionController :=
  setLastCommittedItemIndex (vsize (_items s ++ [a]) - 1)
    (s <| _items := _items s ++ [a] |> <| _pendingItem := None |>
       <| _previousItemIndex := _lastCommittedItemIndex s |>)
  <| _pendingItemIndex := -1 |>.

Lemma pushed_back_eq a s : exists m,
  pushed_back a s
  = s <| _items := _items s ++ [a] |> <| _pendingItem := None |>
      <| _previousItemIndex := _lastCommittedItemIndex s |>
      <| _lastCommittedItemIndex := vsize (_items s ++ [a]) - 1 |>
      <| _navigationManager := m |> <| _pendingItemIndex := -1 |> /\
  (is_Some m <-> is_Some (_navigationManager s)) /\
  match m with Some m => delegate_log m | None => [] end = calls s.
Proof.
  unfold pushed_back, setLastCommittedItemIndex. simpl.
  destruct (Z.eqb_spec (_lastCommittedItemIndex s) (vsize (_items s ++ [a]) - 1)) as [E|].
  - exists (_navigationManager s). rewrite <- E. by destruct s.
  - unfold RemoveTransientURLRewriters, set_rewriters, calls. simpl.
    destruct (_navigationManager s) as [m|] eqn:Hm.
    + by exists (Some (m <| transient_url_rewriters_ := None |>)).
    + exists None. destruct s. simpl in *. by subst.
Qed.

(** The first part of [commitPendingItem] for a new navigation. *)
Lemma commit_new_prefix s a i :
  session_ok s -> _pendingItemIndex s = -1 -> _pendingItem s = Some a ->
  heap s !! a = Some i ->
  let s1 := s <| heap := <[a := ResetForCommit i]> (heap s) |> in
  forall now, session_ok s1 /\ session_ok (pushed_back a (cleared s1)) /\
  commitPendingItem now s
  = (s ← stamp_current now (pushed_back a (cleared s1));
     _ ← dcheck (_pendingItemIndex s =? -1); mret s).
Proof.
  intros Hs Hidx Ha Hi s1 now.
  assert (session_ok s1) as Hs1.
  { apply (session_frame [] s); [| done]. eapply frame_update_item.
    by apply update_item_Ok. }
  pose proof (cleared_spec s1 Hs1) as Hc.
  assert (clearForwardItems s1 = Ok (cleared s1)) as Hclear.
  { pose proof (ok_last _ _ Hs). rewrite clearForwardItems_eq.
    rewrite (dcheck_true (_ =? -1)) by by apply Z.eqb_eq.
    rewrite dcheck_true; [done |]. apply Z.leb_le. simpl. lia. }
  assert (_pendingItem (cleared s1) = Some a) as Hpend.
  { by rewrite (cleared_pending _ _ Hc). }
  split; [done |]. split.
  { eapply (session_commit_new s1); [done | done | done |].
    by rewrite setPendingItemIndex_m1. }
  unfold commitPendingItem, pendingItem. rewrite Hidx, Ha. simpl.
  rewrite (update_item_Ok s a i) by done. simpl. rewrite Hidx. simpl.
  fold s1. rewrite Hclear. simpl. rewrite Hpend. simpl.
  rewrite setPendingItemIndex_m1. simpl. unfold pushed_back.
  rewrite dcheck_true; [done |]. unfold setLastCommittedItemIndex. simpl.
  destruct (_ =? _); [done |]. unfold RemoveTransientURLRewriters, set_rewriters.
  simpl. by destruct (_navigationManager _).
Qed.

Lemma stamp_current_Ok now s a i :
  session_ok s -> currentItem s = Ok (Some a) -> heap s !! a = Some i ->
  0 <= _lastCommittedItemIndex s ->
  exists s' d, stamp_current now s = Ok s' /\ frame s s' /\
    heap s' !! a
    = Some (SetTimestamp (GetSmoothedTime now (_timeSmoother s)).1 i) /\
    lastCommittedItem s = Ok (details_item d) /\
    previous_item_index d = _previousItemIndex s /\
    (is_Some (_navigationManager s) ->
     calls s' = calls s ++ [DOnNavigationItemCommitted d]).
Proof.
  intros Hs Hc Hi Hl. unfold stamp_current. rewrite Hc. simpl.
  unfold smoothed_now. destruct (GetSmoothedTime now (_timeSmoother s)) as [t sm].
  rewrite (update_item_Ok _ a i) by done. simpl.
  set (s1 := s <| _timeSmoother := sm |> <| heap := _ |>).
  assert (frame s s1) as Hf.
  { split; try done. intros b. by apply (is_Some_update _ _ i). }
  destruct (notify_committed_Ok s1) as (d & -> & Hd & Hp);
    [by eapply session_frame | done |].
  exists (tell_delegate (DOnNavigationItemCommitted d) s1), d.
  split; [done |]. split; [etrans; [exact Hf | apply frame_tell] |].
  split; [| split; [done | split; [done |]]].
  - assert (heap (tell_delegate (DOnNavigationItemCommitted d) s1) = heap s1) as ->.
    { unfold tell_delegate. by destruct (_navigationManager s1). }
    apply lookup_insert_eq.
  - intros [m Hm]. rewrite calls_tell. change (_navigationManager s1) with (_navigationManager s).
    by rewrite Hm.
Qed.

(** A pending item is neither transient nor committed. *)
Lemma pending_item_distinct s a :
  session_ok s -> _pendingItem s = Some a ->
  _transientItem s <> Some a /\ a ∉ _items s.
Proof.
  intros [Hh] Ha. destruct Hh as (Hnd & _). unfold owned in Hnd. simpl in Hnd.
  rewrite Ha in Hnd. simpl in Hnd. apply NoDup_app in Hnd as (_ & Hdis & Hnd).
  inversion Hnd as [| ? ? Hat _]; subst. split.
  - intros Ht. rewrite Ht in Hat. simpl in Hat. apply Hat. by left.
  - intros Hin. apply (Hdis a Hin). by left.
Qed.

(** C2.  Committing a new navigation: the items after the last committed one
    are dropped and the pending item takes their place as the last committed
    item, no longer attributed to the renderer and dated now; the item that
    was last committed becomes the previous one; nothing is pending or
    transient any more.  The delegate hears of the items dropped, if any, then
    of the new item. *)
Theorem commit_new_navigation s now a i :
  session_ok s -> _pendingItemIndex s = -1 -> _pendingItem s = Some a ->
  heap s !! a = Some i ->
  let kept := _lastCommittedItemIndex s + 1 in
  exists s' d, commitPendingItem now s = Ok s' /\
    _items s' = take (Z.to_nat kept) (_items s) ++ [a] /\
    _lastCommittedItemIndex s' = kept /\
    _previousItemIndex s' = _lastCommittedItemIndex s /\
    pendingItem s' = Ok None /\ transientItem s' = None /\
    heap s' !! a
    = Some (SetTimestamp (GetSmoothedTime now (_timeSmoother s)).1
              (ResetForCommit i)) /\
    details_item d = Some a /\
    previous_item_index d = _lastCommittedItemIndex s /\
    (is_Some (_navigationManager s) ->
     calls s' = calls s
       ++ (if vsize (_items s) <=? kept then []
           else [DOnNavigationItemsPruned (vsize (_items s) - kept)])
       ++ [DOnNavigationItemCommitted d]).
Proof.
  intros Hs Hidx Ha Hi kept.
  destruct (commit_new_prefix s a i Hs Hidx Ha Hi now) as (Hs1 & Hs2 & ->).
  set (s1 := s <| heap := _ |>) in *.
  pose proof (cleared_spec s1 Hs1) as Hc. pose proof (ok_last _ _ Hs) as Hlast.
  destruct (pending_item_distinct s a Hs Ha) as [Hat Hain].
  assert (heap (cleared s1) !! a = Some (ResetForCommit i)) as Hh.
  { rewrite (cleared_heap _ _ Hc); [apply lookup_insert_eq | done |].
    intros Hd. apply Hain. rewrite <- (take_drop (Z.to_nat kept) (_items s)).
    apply elem_of_app. by right. }
  pose proof (cleared_items _ _ Hc) as Hitems. simpl in Hitems. fold kept in Hitems.
  assert (vsize (_items (cleared s1)) = kept) as Hsize.
  { rewrite Hitems. unfold vsize in *. rewrite length_take. unfold kept. lia. }
  destruct (pushed_back_eq a (cleared s1)) as (m & E & Hm & Hcalls).
  rewrite E in *. set (s2 := _ <| _pendingItemIndex := -1 |>) in *.
  assert (lastCommittedItem s2 = Ok (Some a)) as Hlc by by eapply lastCommittedItem_snoc.
  assert (_lastCommittedItemIndex s2 = kept) as Hl2.
  { simpl. rewrite vsize_snoc. lia. }
  destruct (stamp_current_Ok now s2 a (ResetForCommit i) Hs2)
    as (s' & d & Hst & Hf & Hheap & Hd & Hp & Hcall).
  - unfold currentItem, transientItem. simpl. rewrite (cleared_transient _ _ Hc).
    unfold pendingItem. simpl. done.
  - done.
  - rewrite Hl2. unfold kept. lia.
  - destruct Hf. exists s', d. rewrite Hst. simpl.
    rewrite dcheck_true by (apply Z.eqb_eq; by rewrite frame_pending0). simpl.
    rewrite Hlc in Hd. injection Hd as Hd.
    split; [done |]. unfold pendingItem, transientItem.
    rewrite frame_items0, frame_last0, frame_previous0, frame_pending0,
      frame_pending_item0, frame_transient0, Hp, Hheap, Hl2, <- Hd. simpl.
    rewrite Hitems, (cleared_last _ _ Hc), (cleared_transient _ _ Hc),
      (cleared_smoother _ _ Hc). simpl.
    split_and!; try done. intros Hatt.
    rewrite Hcall by (simpl; rewrite Hm; by apply (cleared_attached _ _ Hc)).
    unfold calls at 1. simpl. rewrite Hcalls.
    rewrite (cleared_calls _ _ Hc Hatt). simpl. fold kept. by rewrite <- app_assoc.
Qed.

(** *** Merging two histories *)

Lemma NavigationItemImpl_copy_eq i : NavigationItemImpl_copy i = i.
Proof. by destruct i. Qed.

Lemma copy_items_Ok source l s :
  (forall a, a ∈ l -> is_Some (heap source !! a)) ->
  exists copies h n, copy_items source l s
    = Ok (copies, s <| heap := h |> <| next_address := n |>) /\
    Forall2 (fun a b => h !! b = heap source !! a) l copies /\
    Forall (fun b => next_address s <= b)%positive copies /\
    (next_address s <= n)%positive /\
    (forall b, (b < next_address s)%positive -> h !! b = heap s !! b).
Proof.
  revert s. induction l as [| a l IH]; intros s Hl; simpl.
  - exists [], (heap s), (next_address s). split; [by destruct s |].
    split; [constructor | split; [constructor | split; [lia | done]]].
  - destruct (Hl a) as [i Hi]; [by left |]. unfold item_at. rewrite Hi. simpl.
    rewrite NavigationItemImpl_copy_eq.
    destruct (IH (s <| heap := <[next_address s := i]> (heap s) |>
                    <| next_address := Pos.succ (next_address s) |>))
      as (copies & h & n & -> & Hc & Hf & Hn & Hh); [intros b Hb; apply Hl; by right |].
    simpl in *. exists (next_address s :: copies), h, n. split; [done |].
    split; [| split; [| split; [lia |]]].
    + constructor; [| done]. rewrite Hh by lia. by rewrite lookup_insert_eq, Hi.
    + constructor; [lia |]. eapply Forall_impl; [exact Hf |]. simpl. lia.
    + intros b Hb. rewrite Hh by lia. apply lookup_insert_ne. lia.
Qed.

(** The addresses of owned items are below the next one. *)
Lemma owned_lt s a : session_ok s -> a ∈ owned s -> (a < next_address s)%positive.
Proof. intros [(_ & _ & Hlt)] Ha. by apply Hlt. Qed.

Lemma kept_live s n :
  session_ok s -> forall a, a ∈ take n (_items s) -> is_Some (heap s !! a).
Proof.
  intros [(_ & Hd & _)] a Ha. apply Hd. simpl. unfold owned.
  apply elem_of_app. left. rewrite <- (take_drop n (_items s)).
  apply elem_of_app. by left.
Qed.

(** The item that stays is not among the ones destroyed. *)
Lemma stays_distinct s own :
  session_ok s -> vget (_items s) (_lastCommittedItemIndex s) = Ok own ->
  own ∉ verase (_lastCommittedItemIndex s) (_items s).
Proof.
  intros [(Hnd & _)] Hown. simpl in Hnd. unfold owned in Hnd.
  apply NoDup_app in Hnd as (Hnd & _). rewrite (verase_Permutation _ _ _ Hown) in Hnd.
  by inversion Hnd.
Qed.

Lemma lastCommittedItem_vget s own :
  lastCommittedItem s = Ok (Some own) ->
  vget (_items s) (_lastCommittedItemIndex s) = Ok own /\ own ∈ owned s.
Proof.
  unfold lastCommittedItem. intros Hl. run_all Hl.
  split; [done |]. by eapply items_owned.
Qed.

(** C4.  Merging the history of another tab: the committed items of the source
    are copied, in order, in front of this tab's last committed item, which
    becomes the last item and keeps its identity and contents; every other
    item of this tab goes; what was pending stays pending. *)
Theorem copy_state_merges source s own :
  session_ok s -> session_ok source ->
  canPruneAllButLastCommittedItem s = true ->
  lastCommittedItem s = Ok (Some own) -> 0 <= _lastCommittedItemIndex source ->
  let kept := take (Z.to_nat (_lastCommittedItemIndex source + 1)) (_items source) in
  exists s' copies, copyStateFromSessionControllerAndPrune source s = Ok s' /\
    _items s' = copies ++ [own] /\
    Forall2 (fun a b => heap s' !! b = heap source !! a) kept copies /\
    Forall (fun b => b ∉ owned s) copies /\
    heap s' !! own = heap s !! own /\
    _lastCommittedItemIndex s' = _lastCommittedItemIndex source + 1 /\
    _previousItemIndex s' = -1 /\
    pendingItem s' = Ok (_pendingItem s).
Proof.
  intros Hs Hsrc Hprune Hown Hl kept. unfold copyStateFromSessionControllerAndPrune.
  rewrite Hprune. simpl. apply canPrune_spec in Hprune as (_ & Hpend & _).
  pose proof (ok_last _ _ Hsrc) as Hrange.
  rewrite bool_decide_eq_false_2.
  2: { intros Hn. rewrite Hn in Hrange. unfold vsize in Hrange. simpl in Hrange. lia. }
  destruct (lastCommittedItem_Ok source Hsrc) as ([lc|] & -> & _ & Hnone).
  2: { specialize (proj1 Hnone eq_refl). lia. }
  simpl. rewrite dcheck_true by (apply Z.ltb_lt; lia). simpl.
  replace (S (Z.to_nat (_lastCommittedItemIndex source)))
    with (Z.to_nat (_lastCommittedItemIndex source + 1)) by lia. fold kept.
  destruct (copy_items_Ok source kept s) as (copies & h & n & -> & Hc & Hfr & _ & Hh).
  { by apply kept_live. }
  destruct (lastCommittedItem_vget s own Hown) as [Hv Hin].
  simpl. rewrite Hv. simpl.
  match goal with |- context [release_all ?l ?x] =>
    destruct (release_all_heap l x) as (h2 & -> & _ & Hh2) end. simpl in *.
  assert (forall b, b ∈ copies -> b ∉ owned s) as Hfresh.
  { intros b Hb Hb2. apply (owned_lt s b Hs) in Hb2.
    rewrite Forall_forall in Hfr. apply Hfr in Hb. lia. }
  assert (forall b, b ∈ verase (_lastCommittedItemIndex s) (_items s) -> b ∈ owned s)
    as Herased.
  { intros b Hb. unfold owned. apply elem_of_app. left.
    rewrite (verase_Permutation _ _ _ Hv). by right. }
  eexists _, copies. split; [done |]. simpl. split; [done |].
  split; [| split; [| split; [| split; [| split; [done |]]]]].
  - apply Forall2_same_length_lookup. apply Forall2_same_length_lookup in Hc as [Hlen Hc].
    split; [done |]. intros j a b Ha Hb. rewrite Hh2; [by eapply Hc |].
    intros Hb2. apply (Hfresh b); [by eapply list_elem_of_lookup_2 | auto].
  - apply Forall_forall. intros b Hb. by apply Hfresh.
  - rewrite Hh2 by by apply stays_distinct. apply Hh. by apply owned_lt.
  - rewrite vsize_snoc. apply Forall2_length in Hc. unfold kept in Hc.
    rewrite length_take in Hc. unfold vsize in *. lia.
  - unfold pendingItem. simpl. by rewrite Hpend.
Qed.
End totality.
