(* ===== verification/NavigationManager.v ===== *)
(** * NavigationManagerImpl

    [web/navigation/navigation_manager_impl.mm]: the manager of a tab's
    history.  It owns a session controller ([SessionController.v]); a manager
    and its controller are one state, whose [_navigationManager] is set.  Its
    delegate is external: the calls it receives are in [delegate_log].

    An [int] result that overflows wraps around. *)
From S2P Require Import Prelude External PageDisplayState NavigationItem SessionController.

Inductive ReloadType := NORMAL | ORIGINAL_REQUEST_URL.

Section manager.
Context `{GurlApi} `{PageTransitionApi} `{!WebClientApi}
  `{!BrowserURLRewriterImpl}.
Implicit Types (s : CRWSessionController) (a : address).

(** A fresh manager, before it has a session. *)
Definition NavigationManagerImpl_new : NavigationManagerImpl :=
  {| browser_state_ := None; transient_url_rewriters_ := None;
     delegate_log := [] |}.

(** [SetSessionController] of a new controller: the manager moves over, the
    controller before and its items are destroyed, the counter of item
    identifiers is static. *)
Definition SetSessionController (session_controller : CRWSessionController) s
    : chk CRWSessionController :=
  setNavigationManager (_navigationManager s)
    (session_controller <| unique_id_counter := unique_id_counter s |>).

Definition InitializeSession s : chk CRWSessionController :=
  m ← deref (_navigationManager s);
  SetSessionController (initWithBrowserState (browser_state_ m)) s.

Definition ReplaceSessionHistory (items : list NavigationItemImpl)
    (lastCommittedItemIndex : Z) s : chk CRWSessionController :=
  m ← deref (_navigationManager s);
  SetSessionController
    (initWithNavigationItems (browser_state_ m) items lastCommittedItemIndex) s.

Definition SetBrowserState (b : option positive) s : chk CRWSessionController :=
  m ← deref (_navigationManager s);
  setBrowserState b
    (s <| _navigationManager := Some (m <| browser_state_ := b |>) |>).

(** ** Queries *)
Definition GetItemCount s : Z := vsize (_items s).
Definition GetItemAtIndex s (index : Z) : option address := itemAtIndex s index.
Definition GetIndexOfItem s a : Z := indexOfItem s a.
Definition GetVisibleItem s := visibleItem s.
Definition GetLastCommittedItem s := lastCommittedItem s.
Definition GetPendingItem s := pendingItem s.
Definition GetTransientItem s := transientItem s.
Definition GetBackwardItems s := backwardItems s.
Definition GetForwardItems s := forwardItems s.
Definition CanPruneAllButLastCommittedItem s := canPruneAllButLastCommittedItem s.

Definition GetLastCommittedItemIndex s : Z :=
  if GetItemCount s =? 0 then -1 else _lastCommittedItemIndex s.

Definition GetPendingItemIndex s : chk Z :=
  p ← GetPendingItem s;
  match p with
  | Some _ =>
      mret (if negb (_pendingItemIndex s =? -1) then _pendingItemIndex s
            else GetLastCommittedItemIndex s)
  | None => mret (-1)
  end.

(** The loop of [GetLastCommittedNonAppSpecificItem], from index [n - 1]
    down. *)
Fixpoint non_app_specific_loop s (n : nat) : chk (option address) :=
  match n with
  | O => mret None
  | S n =>
      a ← vget (_items s) (Z.of_nat n);
      i ← item_at s a;
      if negb (IsAppSpecificURL (GetVirtualURL i)) then mret (Some a)
      else non_app_specific_loop s n
  end.

Definition GetLastCommittedNonAppSpecificItem s : chk (option address) :=
  let index := GetLastCommittedItemIndex s in
  if index =? -1 then mret None
  else non_app_specific_loop s (Z.to_nat (index + 1)).

Definition IsRedirectItemAtIndex s (index : Z) : chk bool :=
  _ ← dcheck (0 <=? index);
  _ ← dcheck (index <? GetItemCount s);
  a ← deref (GetItemAtIndex s index);
  i ← item_at s a;
  mret (PageTransitionIsRedirect (GetTransitionType i)).

(** [while (result > 0 && IsRedirectItemAtIndex(result)) --result] *)
Fixpoint skip_redirects_back s (result : nat) : chk nat :=
  match result with
  | O => mret O
  | S n =>
      redirect ← IsRedirectItemAtIndex s (Z.of_nat result);
      if (redirect : bool) then skip_redirects_back s n else mret result
  end.

(** The outer loop for a negative offset: [Fault] when the fuel runs out. *)
Fixpoint back_loop (fuel : nat) s (offset result : Z) : chk (Z * Z) :=
  if (offset <? 0) && (0 <? result) then
    match fuel with
    | O => Fault
    | S fuel =>
        n ← skip_redirects_back s (Z.to_nat result);
        back_loop fuel s (offset + 1) (Z.of_nat n - 1)
    end
  else mret (offset, result).

(** [while (result + 1 < count && IsRedirectItemAtIndex(result + 1)) ++result] *)
Fixpoint skip_redirects_forward (fuel : nat) s (result : Z) : chk Z :=
  if result + 1 <? GetItemCount s then
    match fuel with
    | O => Fault
    | S fuel =>
        redirect ← IsRedirectItemAtIndex s (result + 1);
        if (redirect : bool) then skip_redirects_forward fuel s (result + 1)
        else mret result
    end
  else mret result.

Fixpoint forward_offset_loop (fuel : nat) s (offset result : Z) : chk (Z * Z) :=
  if (0 <? offset) && (result <? GetItemCount s) then
    match fuel with
    | O => Fault
    | S fuel =>
        result ← skip_redirects_forward (length (_items s)) s (result + 1);
        forward_offset_loop fuel s (offset - 1) result
    end
  else mret (offset, result).

Definition GetIndexForOffset s (offset : Z) : chk Z :=
  let result :=
    if _pendingItemIndex s =? -1 then GetLastCommittedItemIndex s
    else _pendingItemIndex s in
  if offset <? 0 then
    let offset :=
      if bool_decide (is_Some (GetTransientItem s)) && (_pendingItemIndex s =? -1)
      then offset + 1 else offset in
    '(offset, result) ← back_loop (Z.to_nat result) s offset result;
    let result := wrap32 (result + offset) in
    mret (if GetItemCount s <? result then INT_MIN else result)
  else if 0 <? offset then
    '(offset, result) ← forward_offset_loop (S (length (_items s))) s offset result;
    let result := wrap32 (result + offset) in
    mret (if result <? 0 then INT_MAX else result)
  else mret result.

Definition CanGoToOffset s (offset : Z) : chk bool :=
  index ← GetIndexForOffset s offset;
  mret ((0 <=? index) && (index <? GetItemCount s)).
Definition CanGoBack s : chk bool := CanGoToOffset s (-1).
Definition CanGoForward s : chk bool := CanGoToOffset s 1.

(** ** Operations *)
Definition GoToIndex (index : Z) s : CRWSessionController :=
  tell_delegate (DGoToIndex index) s.
Definition GoBack s : chk CRWSessionController :=
  index ← GetIndexForOffset s (-1); mret (GoToIndex index s).
Definition GoForward s : chk CRWSessionController :=
  index ← GetIndexForOffset s 1; mret (GoToIndex index s).
Definition LoadURL (url : GURL) (referrer : Referrer) (type : PageTransition) s :=
  tell_delegate (DOpenURL url referrer type) s.
Definition LoadURLWithParams (params : WebLoadParams) s :=
  tell_delegate (DLoadURLWithParams params) s.

Definition AddTransientItem (url : GURL) (now : Z) s : chk CRWSessionController :=
  s ← addTransientItemWithURL url now s;
  p ← GetPendingItem s;
  item ← match p with
         | Some a => mret (Some a)
         | None => GetLastCommittedNonAppSpecificItem s
         end;
  a ← deref item;
  i ← item_at s a;
  _ ← dcheck (negb (bool_decide (GetUserAgentType i = UA_NONE)));
  t ← deref (GetTransientItem s);
  ti ← item_at s t;
  ti ← SetUserAgentType (GetUserAgentType i) ti;
  update_item t (fun _ => ti) s.

Definition set_user_agent a (type : UserAgentType) s : chk CRWSessionController :=
  i ← item_at s a;
  i ← SetUserAgentType type i;
  update_item a (fun _ => i) s.

Definition AddPendingItem (url : GURL) (referrer : Referrer)
    (navigation_type : PageTransition) (initiation_type : NavigationInitiationType)
    (user_agent_override_option : UserAgentOverrideOption) s
    : chk CRWSessionController :=
  s ← addPendingItem url referrer navigation_type initiation_type
        user_agent_override_option s;
  p ← GetPendingItem s;
  match p with
  | None => mret s
  | Some a =>
      pending_item ← item_at s a;
      let ua := GetUserAgentType pending_item in
      _ ← dcheck (negb (bool_decide (ua = UA_NONE))
                  || bool_decide (user_agent_override_option = INHERIT));
      _ ← dcheck (negb (bool_decide (UA_DESKTOP = ua)));
      if bool_decide (ua = UA_NONE) then mret s
      else
        match user_agent_override_option with
        | OVERRIDE_DESKTOP => set_user_agent a UA_DESKTOP s
        | OVERRIDE_MOBILE => set_user_agent a UA_MOBILE s
        | INHERIT =>
            l ← GetLastCommittedNonAppSpecificItem s;
            match l with
            | None => mret s
            | Some b =>
                last_non_native_item ← item_at s b;
                _ ← dcheck (negb (bool_decide
                                    (GetUserAgentType last_non_native_item = UA_NONE)));
                set_user_agent a (GetUserAgentType last_non_native_item) s
            end
        end
  end.

Definition CommitPendingItem (now : Z) s := commitPendingItem now s.
Definition DiscardNonCommittedItems s := discardNonCommittedItems s.

Definition AddTransientURLRewriter (rewriter : URLRewriter) s
    : CRWSessionController :=
  match _navigationManager s with
  | Some m =>
      set_rewriters (Some (default [] (transient_url_rewriters_ m) ++ [rewriter])) s
  | None => s
  end.

Definition RemoveItemAtIndex (index : Z) s : chk (bool * CRWSessionController) :=
  if index =? GetLastCommittedItemIndex s then mret (false, s)
  else
    pending ← GetPendingItemIndex s;
    if index =? pending then mret (false, s)
    else if (index <? 0) || (GetItemCount s <=? index) then mret (false, s)
    else s ← removeItemAtIndex index s; mret (true, s).

Definition Reload (reload_type : ReloadType) (check_for_reposts : bool) s
    : chk CRWSessionController :=
  p ← GetPendingItem s;
  l ← GetLastCommittedItem s;
  match GetTransientItem s, p, l with
  | None, None, None => mret s
  | t, p, l =>
      s ← match reload_type with
          | NORMAL => mret s
          | ORIGINAL_REQUEST_URL =>
              let reload_item :=
                match t with
                | Some a => Some a
                | None => match p with Some a => Some a | None => l end
                end in
              a ← deref reload_item;
              i ← item_at s a;
              update_item a (SetURL (GetOriginalRequestURL i)) s
          end;
      mret (tell_delegate DReload s)
  end.

Definition CopyStateFromAndPrune (source : CRWSessionController) s :=
  copyStateFromSessionControllerAndPrune source s.

(** ** The interface as requests

    The operations of the manager, and those of the controller that other
    components call on it directly. *)
Inductive nav_request :=
| NInitializeSession
| NReplaceSessionHistory (items : list NavigationItemImpl) (index : Z)
| NSetBrowserState (b : option positive)
| NGoToIndex (index : Z)
| NGoBack
| NGoForward
| NLoadURL (url : GURL) (referrer : Referrer) (type : PageTransition)
| NLoadURLWithParams (params : WebLoadParams)
| NAddTransientItem (url : GURL) (now : Z)
| NAddPendingItem (url : GURL) (referrer : Referrer) (type : PageTransition)
    (initiation : NavigationInitiationType) (override : UserAgentOverrideOption)
| NCommitPendingItem (now : Z)
| NDiscardNonCommittedItems
| NAddTransientURLRewriter (rewriter : URLRewriter)
| NRemoveItemAtIndex (index : Z)
| NReload (type : ReloadType) (check_for_reposts : bool)
| NCopyStateFromAndPrune (source : CRWSessionController)
| NsetPendingItemIndex (index : Z)
| NupdatePendingItem (url : GURL)
| NpushNewItem (url : GURL) (stateObject : option string) (type : PageTransition)
    (now : Z)
| NupdateCurrentItem (url : GURL) (stateObject : option string)
| NgoToItemAtIndex (index : Z) (discard : bool).

Definition nav_step (r : nav_request) s : chk CRWSessionController :=
  match r with
  | NInitializeSession => InitializeSession s
  | NReplaceSessionHistory items index => ReplaceSessionHistory items index s
  | NSetBrowserState b => SetBrowserState b s
  | NGoToIndex index => mret (GoToIndex index s)
  | NGoBack => GoBack s
  | NGoForward => GoForward s
  | NLoadURL url referrer type => mret (LoadURL url referrer type s)
  | NLoadURLWithParams params => mret (LoadURLWithParams params s)
  | NAddTransientItem url now => AddTransientItem url now s
  | NAddPendingItem url referrer type initiation override =>
      AddPendingItem url referrer type initiation override s
  | NCommitPendingItem now => CommitPendingItem now s
  | NDiscardNonCommittedItems => DiscardNonCommittedItems s
  | NAddTransientURLRewriter rewriter => mret (AddTransientURLRewriter rewriter s)
  | NRemoveItemAtIndex index => '(_, s) ← RemoveItemAtIndex index s; mret s
  | NReload type check_for_reposts => Reload type check_for_reposts s
  | NCopyStateFromAndPrune source => CopyStateFromAndPrune source s
  | NsetPendingItemIndex index => setPendingItemIndex index s
  | NupdatePendingItem url => updatePendingItem url s
  | NpushNewItem url stateObject type now =>
      pushNewItemWithURL url stateObject type now s
  | NupdateCurrentItem url stateObject => updateCurrentItemWithURL url stateObject s
  | NgoToItemAtIndex index discard => goToItemAtIndex index discard s
  end.
End manager.

(** ** The history stays well formed *)
Section invariant.
Context `{GurlApi} `{PageTransitionApi} `{!WebClientApi}
  `{!BrowserURLRewriterImpl}.
Implicit Types (s : CRWSessionController) (a : address).
Abbreviation session_ok := (session_with []).

(** What callers promise: a restored index is at least -1, and a history
    navigation is not made pending on top of a new one. *)
Definition nav_pre (r : nav_request) s : Prop :=
  match r with
  | NReplaceSessionHistory _ index => -1 <= index
  | NsetPendingItemIndex index => index = -1 \/ _pendingItem s = None
  | _ => True
  end.

Lemma session_SetSessionController c s s' :
  session_ok c -> SetSessionController c s = Ok s' -> session_ok s'.
Proof.
  intros [] Hs. apply frame_setNavigationManager in Hs.
  eapply session_frame; [exact Hs |]. by split.
Qed.

Lemma frame_set_user_agent a type s s' :
  set_user_agent a type s = Ok s' -> frame s s'.
Proof.
  unfold set_user_agent. intros Hu. run_inv Hu. by eapply frame_update_item.
Qed.

Lemma session_AddPendingItem url ref type init ua s s' :
  session_ok s -> AddPendingItem url ref type init ua s = Ok s' -> session_ok s'.
Proof.
  intros Hs Ha. unfold AddPendingItem in Ha. run_all Ha;
    match goal with H : addPendingItem _ _ _ _ _ s = Ok _ |- _ =>
      apply session_addPendingItem in H; [| exact Hs] end; try done.
  all: match goal with H : set_user_agent _ _ _ = Ok _ |- _ =>
    apply frame_set_user_agent in H end; by eapply session_frame.
Qed.

Lemma session_AddTransientItem url now s s' :
  session_ok s -> AddTransientItem url now s = Ok s' -> session_ok s'.
Proof.
  intros Hs Ha. unfold AddTransientItem in Ha. run_inv Ha.
  match goal with H : addTransientItemWithURL _ _ _ = Ok _ |- _ =>
    apply session_addTransientItemWithURL in H; [| exact Hs] end.
  eapply session_frame; [by eapply frame_update_item | done].
Qed.

Lemma session_Reload type check s s' :
  session_ok s -> Reload type check s = Ok s' -> session_ok s'.
Proof.
  intros Hs Hr. unfold Reload in Hr. run_all Hr; try done;
    (eapply session_frame; [apply frame_tell |]); try done;
    (eapply session_frame; [by eapply frame_update_item | done]).
Qed.

Lemma frame_tell_only (r : nav_request) s s' :
  match r with
  | NGoToIndex _ | NGoBack | NGoForward | NLoadURL _ _ _ | NLoadURLWithParams _
  | NAddTransientURLRewriter _ => True | _ => False
  end -> nav_step r s = Ok s' -> frame s s'.
Proof.
  destruct r; try done; simpl; intros _ Hs;
    unfold GoBack, GoForward, GoToIndex, LoadURL, LoadURLWithParams,
      AddTransientURLRewriter in Hs; run_inv Hs; try apply frame_tell.
  destruct (_navigationManager s); [apply frame_set_rewriters | done].
Qed.

Lemma nav_step_ok r s s' :
  nav_pre r s -> session_ok s -> nav_step r s = Ok s' -> session_ok s'.
Proof.
  intros Hpre Hs Hstep. destruct r; simpl in Hpre, Hstep.
  all: try (eapply session_frame; [| exact Hs];
    first [by eapply (frame_tell_only NGoBack) | by eapply (frame_tell_only NGoForward)]).
  all: try (injection Hstep as <-).
  - unfold InitializeSession in Hstep. run_inv Hstep.
    eapply session_SetSessionController; [| done]. apply session_initWithBrowserState.
  - unfold ReplaceSessionHistory in Hstep. run_inv Hstep.
    eapply session_SetSessionController; [| done].
    by apply session_initWithNavigationItems.
  - unfold SetBrowserState in Hstep. run_inv Hstep.
    eapply session_frame; [by eapply frame_setBrowserState |]. by destruct Hs.
  - eapply session_frame; [apply frame_tell | done].
  - eapply session_frame; [apply frame_tell | done].
  - eapply session_frame; [apply frame_tell | done].
  - by eapply session_AddTransientItem.
  - by eapply session_AddPendingItem.
  - by eapply session_commitPendingItem.
  - by eapply session_discardNonCommittedItems.
  - eapply session_frame; [| exact Hs].
    by eapply (frame_tell_only (NAddTransientURLRewriter rewriter)).
  - unfold RemoveItemAtIndex in Hstep. run_all Hstep; try done.
    by eapply session_removeItemAtIndex.
  - by eapply session_Reload.
  - by eapply session_copyState.
  - by eapply session_setPendingItemIndex.
  - by eapply session_updatePendingItem.
  - by eapply session_pushNewItemWithURL.
  - by eapply session_updateCurrentItem.
  - by eapply session_goToItemAtIndex.
Qed.

(** A tab's history before its first navigation. *)
Definition nav_start (b : option positive) : CRWSessionController :=
  initWithBrowserState b
    <| _navigationManager := Some (NavigationManagerImpl_new <| browser_state_ := b |>) |>.

Lemma session_nav_start b : session_ok (nav_start b).
Proof. destruct (session_initWithBrowserState b). by split. Qed.

(** The histories that some sequence of navigations leads to. *)
Inductive nav_reachable : CRWSessionController -> Prop :=
| nav_reachable_start b : nav_reachable (nav_start b)
| nav_reachable_step r s s' :
    nav_reachable s -> nav_pre r s -> nav_step r s = Ok s' -> nav_reachable s'.

(** C1.  Whatever the navigations, in any order: the items of a history are
    distinct live objects, each owned once, and no other item is alive; its
    three indices stay within the list of items; and there are never two
    pending items. *)
Theorem history_stays_well_formed s :
  nav_reachable s ->
  heap_ok (owned s) (heap s) (next_address s) /\
  (-1 <= _lastCommittedItemIndex s < vsize (_items s) /\
   -1 <= _previousItemIndex s < vsize (_items s) /\
   -1 <= _pendingItemIndex s < vsize (_items s)) /\
  (_pendingItemIndex s = -1 \/ _pendingItem s = None).
Proof.
  intros Hr. assert (session_ok s) as [].
  { induction Hr; [apply session_nav_start | by eapply nav_step_ok]. }
  split; [done |]. split; [| done]. by split; [| split].
Qed.

(** A sequence of navigations. *)
Fixpoint navigate (rs : list nav_request) s : chk CRWSessionController :=
  match rs with
  | [] => mret s
  | r :: rs => s ← nav_step r s; navigate rs s
  end.

Lemma navigate_ok rs s s' :
  Forall (fun r => forall s, nav_pre r s) rs -> session_ok s ->
  navigate rs s = Ok s' -> session_ok s'.
Proof.
  revert s. induction rs as [| r rs IH]; intros s Hp Hs Hn; simpl in Hn.
  - by injection Hn as <-.
  - inversion Hp; subst. run_inv Hn. eapply IH; [done | | done].
    by eapply nav_step_ok.
Qed.

Lemma navigate_reachable rs s s' :
  Forall (fun r => forall s, nav_pre r s) rs -> nav_reachable s ->
  navigate rs s = Ok s' -> nav_reachable s'.
Proof.
  revert s. induction rs as [| r rs IH]; intros s Hp Hs Hn; simpl in Hn.
  - by injection Hn as <-.
  - inversion Hp; subst. run_inv Hn. eapply IH; [done | | done].
    by eapply nav_reachable_step.
Qed.
End invariant.

(** ** Going back skips the pages that redirected *)
Section offsets.
Context `{GurlApi} `{PageTransitionApi} `{!WebClientApi}
  `{!BrowserURLRewriterImpl}.
Implicit Types (s : CRWSessionController) (a : address).
Abbreviation session_ok := (session_with []).

(** Whether the item at an index was reached by a redirect. *)
Definition redirected s (n : nat) : bool :=
  match _items s !! n ≫= fun a => heap s !! a with
  | Some i => PageTransitionIsRedirect (GetTransitionType i)
  | None => false
  end.

(** The places to go back to from index [n], nearest first: an item is
    skipped when the item after it is a redirect. *)
Fixpoint back_stops s (n : nat) : list nat :=
  match n with
  | O => []
  | S k => if redirected s n then back_stops s k else k :: back_stops s k
  end.

Lemma item_lookup s (n : nat) :
  session_ok s -> Z.of_nat n < vsize (_items s) ->
  exists a i, _items s !! n = Some a /\ heap s !! a = Some i /\
    redirected s n = PageTransitionIsRedirect (GetTransitionType i).
Proof.
  unfold vsize. intros Hs Hn.
  destruct (lookup_lt_is_Some_2 (_items s) n) as [a Ha]; [lia |].
  destruct (item_at_owned s a Hs) as (i & Hi & _).
  { unfold owned. apply elem_of_app. left. by eapply list_elem_of_lookup_2. }
  exists a, i. split; [done |]. split; [done |]. unfold redirected.
  rewrite Ha. simpl. by rewrite Hi.
Qed.

Lemma IsRedirectItemAtIndex_Ok s (n : nat) :
  session_ok s -> Z.of_nat n < vsize (_items s) ->
  IsRedirectItemAtIndex s (Z.of_nat n) = Ok (redirected s n).
Proof.
  intros Hs Hn. destruct (item_lookup s n Hs Hn) as (a & i & Ha & Hi & ->).
  unfold IsRedirectItemAtIndex, GetItemCount, GetItemAtIndex, itemAtIndex.
  rewrite (dcheck_true (0 <=? _)) by (apply Z.leb_le; lia).
  rewrite dcheck_true by (by apply Z.ltb_lt). simpl.
  rewrite (proj2 (Z.ltb_ge _ 0)), (proj2 (Z.leb_gt _ _)) by lia. simpl.
  rewrite Nat2Z.id, Ha. simpl. unfold item_at. by rewrite Hi.
Qed.

Lemma isRedirectTransition_Ok s (n : nat) :
  session_ok s -> Z.of_nat n < vsize (_items s) ->
  isRedirectTransitionForItemAtIndex s (Z.of_nat n) = Ok (redirected s n).
Proof.
  intros Hs Hn. destruct (item_lookup s n Hs Hn) as (a & i & Ha & Hi & ->).
  unfold isRedirectTransitionForItemAtIndex.
  rewrite dcheck_true by (by apply Z.ltb_lt). simpl.
  rewrite (proj2 (vget_Ok _ _ a)) by (rewrite Nat2Z.id; split; [lia | done]).
  simpl. unfold item_at. by rewrite Hi.
Qed.

(** The backward items are the items at the stops. *)
Lemma backward_loop_Ok s n :
  session_ok s -> Z.of_nat n < vsize (_items s) ->
  exists l, backward_loop s n = Ok l /\
    Forall2 (fun k a => _items s !! k = Some a) (back_stops s n) l.
Proof.
  intros Hs. induction n as [| n IH]; intros Hn; simpl; [by eexists |].
  destruct (IH ltac:(lia)) as (l & Hl & Hall).
  change (Z.pos (Pos.of_succ_nat n)) with (Z.of_nat (S n)).
  rewrite isRedirectTransition_Ok by done. simpl.
  destruct (redirected s (S n)); [by exists l |].
  destruct (item_lookup s n Hs ltac:(lia)) as (a & _ & Ha & _).
  rewrite (proj2 (vget_Ok _ _ a)) by (rewrite Nat2Z.id; split; [lia | done]).
  simpl. rewrite Hl. simpl. eexists. split; [done |]. by constructor.
Qed.

Lemma skip_redirects_back_Ok s n :
  session_ok s -> Z.of_nat n < vsize (_items s) ->
  exists m, skip_redirects_back s n = Ok m /\ (m <= n)%nat /\
    back_stops s n = match m with O => [] | S k => k :: back_stops s k end.
Proof.
  intros Hs. induction n as [| n IH]; intros Hn; simpl; [by exists O |].
  change (Z.pos (Pos.of_succ_nat n)) with (Z.of_nat (S n)).
  rewrite IsRedirectItemAtIndex_Ok by done. simpl.
  destruct (redirected s (S n)).
  - destruct (IH ltac:(lia)) as (m & -> & Hle & ->). exists m.
    split; [done |]. split; [lia | done].
  - by exists (S n).
Qed.

(** The loop is over when the offset is used up or the start is reached. *)
Lemma back_loop_done fuel s offset result :
  0 <= offset \/ result <= 0 -> back_loop fuel s offset result = Ok (offset, result).
Proof.
  intros Ho. assert ((offset <? 0) && (0 <? result) = false) as E.
  { apply andb_false_iff. rewrite !Z.ltb_ge. lia. }
  destruct fuel; simpl; by rewrite E.
Qed.

(** The loop for a negative offset stops at the [k]-th stop, or, when there
    are fewer, leaves a sum below zero. *)
Lemma back_loop_Ok s (k : nat) : forall fuel n,
  session_ok s -> Z.of_nat n < vsize (_items s) -> (n <= fuel)%nat ->
  exists offset result,
    back_loop fuel s (- Z.of_nat (S k)) (Z.of_nat n) = Ok (offset, result) /\
    - Z.of_nat (S k) <= offset + result /\
    match back_stops s n !! k with
    | Some p => offset + result = Z.of_nat p
    | None => offset + result < 0
    end.
Proof.
  induction k as [| k IH]; intros fuel [| n] Hs Hn Hfuel;
    try (do 2 eexists; split; [apply back_loop_done; lia |]; simpl; lia).
  all: destruct fuel as [| fuel]; [lia |]; cbn [back_loop].
  all: rewrite (proj2 (Z.ltb_lt _ 0)), (proj2 (Z.ltb_lt 0 _)) by lia; cbn [andb].
  all: destruct (skip_redirects_back_Ok s (S n) Hs Hn) as (m & Hm & Hle & ->).
  all: rewrite Nat2Z.id, Hm; cbn [mbind chk_bind].
  - do 2 eexists. split; [apply back_loop_done; lia |].
    destruct m; simpl; lia.
  - destruct m as [| m].
    + do 2 eexists. split; [apply back_loop_done; lia |]. simpl. lia.
    + replace (- Z.of_nat (S (S k)) + 1) with (- Z.of_nat (S k)) by lia.
      replace (Z.of_nat (S m) - 1) with (Z.of_nat m) by lia.
      destruct (IH fuel m Hs ltac:(lia) ltac:(lia)) as (o & r & -> & Hlo & Hst).
      do 2 eexists. split; [done |]. split; [lia |]. exact Hst.
Qed.

Lemma back_stops_lt s n k p : back_stops s n !! k = Some p -> (p < n)%nat.
Proof.
  revert k. induction n as [| n IH]; intros k; simpl; [done |].
  destruct (redirected s (S n)).
  - intros Hp%IH. lia.
  - destruct k as [| k]; simpl; [by intros [= <-]; lia |]. intros Hp%IH. lia.
Qed.

(** All the places to go back to: while an interstitial is shown, the first
    one is the page below it. *)
Definition all_back_stops s : list nat :=
  let last := Z.to_nat (_lastCommittedItemIndex s) in
  (if bool_decide (is_Some (transientItem s)) then [last] else [])
  ++ back_stops s last.

Lemma backwardItems_Ok s :
  session_ok s -> 0 <= _lastCommittedItemIndex s ->
  exists l, backwardItems s = Ok l /\
    Forall2 (fun k a => _items s !! k = Some a) (all_back_stops s) l.
Proof.
  intros Hs Hl. pose proof (ok_last _ _ Hs) as Hlast. unfold backwardItems, all_back_stops.
  rewrite (proj2 (Z.ltb_lt _ _)) by lia.
  destruct (backward_loop_Ok s (Z.to_nat (_lastCommittedItemIndex s)) Hs)
    as (l & Hb & Hall); [lia |].
  unfold lastCommittedItem. rewrite (proj2 (Z.eqb_neq _ _)) by lia.
  destruct (vget_in_range (_items s) (_lastCommittedItemIndex s)) as [a Ha]; [lia |].
  rewrite Ha. simpl. rewrite Hb. simpl. apply vget_Ok in Ha as [_ Ha].
  destruct (transientItem s); simpl; eexists; (split; [done |]); [| done].
  by constructor.
Qed.

(** The part of [GetIndexForOffset] for a negative offset. *)
Definition offset_back s (offset : Z) : chk Z :=
  '(offset, result) ← back_loop (Z.to_nat (_lastCommittedItemIndex s)) s offset
                        (_lastCommittedItemIndex s);
  let result := wrap32 (result + offset) in
  mret (if GetItemCount s <? result then INT_MIN else result).

Lemma offset_back_Ok s (j : nat) :
  session_ok s -> 0 <= _lastCommittedItemIndex s ->
  vsize (_items s) <= INT_MAX -> Z.of_nat j <= INT_MAX ->
  exists index, offset_back s (- Z.of_nat (S j)) = Ok index /\
    match back_stops s (Z.to_nat (_lastCommittedItemIndex s)) !! j with
    | Some p => index = Z.of_nat p
    | None => index < 0
    end.
Proof.
  intros Hs Hl Hsize Hj. pose proof (ok_last _ _ Hs) as Hlast. unfold offset_back.
  set (last := Z.to_nat (_lastCommittedItemIndex s)).
  replace (_lastCommittedItemIndex s) with (Z.of_nat last) by lia.
  destruct (back_loop_Ok s j last last Hs) as (o & r & -> & Hlo & Hst); [lia | lia |].
  simpl. unfold GetItemCount, INT_MAX in *.
  destruct (back_stops s last !! j) as [p|] eqn:Hp.
  - pose proof (back_stops_lt s last j p Hp).
    rewrite wrap32_small by (unfold INT_MIN, INT_MAX; lia).
    rewrite (proj2 (Z.ltb_ge _ _)) by lia. eexists. split; [done | lia].
  - rewrite wrap32_small by (unfold INT_MIN, INT_MAX; lia).
    rewrite (proj2 (Z.ltb_ge _ _)) by lia. eexists. split; [done | lia].
Qed.

Lemma GetIndexForOffset_back s (k : nat) :
  session_ok s -> _pendingItemIndex s = -1 -> 0 <= _lastCommittedItemIndex s ->
  vsize (_items s) <= INT_MAX -> Z.of_nat k <= INT_MAX ->
  exists index, GetIndexForOffset s (- Z.of_nat (S k)) = Ok index /\
    match all_back_stops s !! k with
    | Some p => index = Z.of_nat p
    | None => index < 0
    end.
Proof.
  intros Hs Hp Hl Hsize Hk. pose proof (ok_last _ _ Hs) as Hlast.
  unfold GetIndexForOffset, GetLastCommittedItemIndex, GetTransientItem, all_back_stops.
  rewrite Hp, (proj2 (Z.ltb_lt _ 0)) by lia. simpl (-1 =? -1).
  rewrite (proj2 (Z.eqb_neq (GetItemCount s) 0)) by (unfold GetItemCount; lia).
  cbv beta iota. rewrite andb_true_r.
  destruct (bool_decide (is_Some (transientItem s))).
  2: { apply (offset_back_Ok s k); done. }
  destruct k as [| k].
  - change (- Z.of_nat 1 + 1) with 0. rewrite back_loop_done by lia. simpl.
    unfold GetItemCount, INT_MAX in *.
    rewrite wrap32_small by (unfold INT_MIN, INT_MAX; lia).
    rewrite (proj2 (Z.ltb_ge _ _)) by lia. eexists. split; [done | lia].
  - replace (- Z.of_nat (S (S k)) + 1) with (- Z.of_nat (S k)) by lia.
    apply (offset_back_Ok s k); [done | done | done | lia].
Qed.

(** C3.  [GetIndexForOffset] and [GetBackwardItems] agree: as long as no
    history navigation is pending, going back by [k] leads to the [k]-th
    backward item, redirects skipped and a transient item counted; when there
    are fewer backward items the index is not valid.  In particular
    [CanGoBack] holds exactly when there is a backward item. *)
Theorem back_offset_is_backward_item s (k : nat) :
  session_ok s -> _pendingItemIndex s = -1 -> 0 <= _lastCommittedItemIndex s ->
  vsize (_items s) <= INT_MAX -> Z.of_nat k <= INT_MAX ->
  exists l index, GetBackwardItems s = Ok l /\
    GetIndexForOffset s (- Z.of_nat (S k)) = Ok index /\
    GetItemAtIndex s index = l !! k /\
    CanGoToOffset s (- Z.of_nat (S k)) = Ok (bool_decide (is_Some (l !! k))).
Proof.
  intros Hs Hp Hl Hsize Hk.
  destruct (backwardItems_Ok s Hs Hl) as (l & Hb & Hall).
  destruct (GetIndexForOffset_back s k Hs Hp Hl Hsize Hk) as (index & Hi & Hst).
  exists l, index. split; [done |]. split; [done |].
  unfold CanGoToOffset. rewrite Hi. simpl. unfold GetItemAtIndex, itemAtIndex, GetItemCount.
  destruct (all_back_stops s !! k) as [p|] eqn:Hk'.
  - destruct (Forall2_lookup_l _ _ _ _ _ Hall Hk') as (a & -> & Ha). subst index.
    pose proof (lookup_lt_Some _ _ _ Ha) as Hlt. unfold vsize.
    rewrite (proj2 (Z.ltb_ge _ 0)), (proj2 (Z.leb_gt _ _)), (proj2 (Z.leb_le 0 _)),
      (proj2 (Z.ltb_lt _ _)) by lia. simpl. by rewrite Nat2Z.id.
  - assert (l !! k = None) as ->.
    { apply lookup_ge_None in Hk'. apply lookup_ge_None.
      by rewrite <- (Forall2_length _ _ _ Hall). }
    rewrite (proj2 (Z.ltb_lt _ 0)), (proj2 (Z.leb_gt 0 _)) by lia. done.
Qed.
End offsets.

(** ** Removing an item, repeating a navigation, going forward *)
Section more.
Context `{GurlApi} `{PageTransitionApi} `{!WebClientApi}
  `{!BrowserURLRewriterImpl}.
Implicit Types (s : CRWSessionController) (a : address).
Abbreviation session_ok := (session_with []).

Lemma GetPendingItemIndex_Ok s :
  session_ok s -> exists index, GetPendingItemIndex s = Ok index.
Proof.
  intros Hs. unfold GetPendingItemIndex, GetPendingItem.
  destruct (pendingItem_Ok s Hs) as ([] & -> & _); by eexists.
Qed.

Lemma discardNonCommittedItems_shape s : exists h,
  discardNonCommittedItems s
  = Ok (s <| heap := h |> <| _transientItem := None |> <| _pendingItem := None |>
          <| _pendingItemIndex := -1 |>).
Proof.
  rewrite discardNonCommittedItems_eq.
  exists (heap (reset_pending None (discardTransientItem s))).
  unfold reset_pending, discardTransientItem.
  by destruct s as [? ? ? ? ? ? ? [] []].
Qed.

(** The state after [removeItemAtIndex]. *)
Lemma removeItemAtIndex_Ok s index :
  session_ok s -> 0 <= index < vsize (_items s) ->
  index <> _lastCommittedItemIndex s ->
  exists s', removeItemAtIndex index s = Ok s' /\
    _items s' = verase index (_items s) /\
    _lastCommittedItemIndex s'
    = (if index <? _lastCommittedItemIndex s then _lastCommittedItemIndex s - 1
       else _lastCommittedItemIndex s) /\
    pendingItem s' = Ok None /\ transientItem s' = None /\
    (is_Some (_navigationManager s) ->
     calls s' = calls s ++ [DOnNavigationItemsPruned 1]).
Proof.
  intros Hs Hi Hne. unfold removeItemAtIndex.
  rewrite (dcheck_true (_ <? _)) by (apply Z.ltb_lt, Hi).
  rewrite (dcheck_true (negb _)) by (by apply negb_true_iff, Z.eqb_neq).
  rewrite dcheck_true by (apply Z.leb_le, Hi). simpl.
  destruct (discardNonCommittedItems_shape s) as [h ->]. simpl.
  destruct (vget_in_range (_items s) index Hi) as [a Ha].
  rewrite Ha. simpl. eexists. split; [done |]. unfold OnNavigationItemsPruned, tell_delegate, calls,
    pendingItem, transientItem.
  destruct (index <? _lastCommittedItemIndex s); simpl;
    (destruct (index <=? _previousItemIndex s)); simpl;
    (destruct (_navigationManager s)); simpl; split_and!; try done; by intros [].
Qed.

(** C5.  [RemoveItemAtIndex] always returns.  It refuses an index out of
    range, the last committed item and the pending one, and then changes
    nothing; otherwise it removes that item and keeps the last committed item
    and the order of the others, discards what is not committed and tells the
    delegate that one item was pruned. *)
Theorem RemoveItemAtIndex_spec s index :
  session_ok s -> is_Some (_navigationManager s) ->
  exists b s', RemoveItemAtIndex index s = Ok (b, s') /\
    (b = true <-> 0 <= index < vsize (_items s) /\
                  index <> _lastCommittedItemIndex s /\
                  GetPendingItemIndex s <> Ok index) /\
    (b = false -> s' = s) /\
    (b = true ->
     _items s' = verase index (_items s) /\
     lastCommittedItem s' = lastCommittedItem s /\
     pendingItem s' = Ok None /\ transientItem s' = None /\
     calls s' = calls s ++ [DOnNavigationItemsPruned 1]).
Proof.
  intros Hs Hm. unfold RemoveItemAtIndex, GetLastCommittedItemIndex.
  destruct (GetPendingItemIndex_Ok s Hs) as [p Hp]. pose proof (ok_last _ _ Hs) as Hl.
  pose proof (vsize_nonneg (_items s)) as Hv. unfold GetItemCount in *.
  destruct (decide (0 <= index < vsize (_items s))) as [Hr|Hr].
  2: { exists false, s. split; [| split; [| done]; split; [done | tauto]].
       rewrite Hp. simpl.
       assert ((index <? 0) || (vsize (_items s) <=? index) = true) as ->.
       { apply orb_true_iff. rewrite Z.ltb_lt, Z.leb_le. lia. }
       by repeat case_match. }
  rewrite (proj2 (Z.eqb_neq (vsize (_items s)) 0)) by lia.
  destruct (Z.eqb_spec index (_lastCommittedItemIndex s)) as [Hlast|Hlast].
  { exists false, s. split; [done |]. split; [| done]. split; [done | tauto]. }
  rewrite Hp. simpl. destruct (Z.eqb_spec index p) as [->|Hpend].
  { exists false, s. split; [done |]. split; [| done]. split; [done |].
    by intros (_ & _ & Hne). }
  rewrite (proj2 (Z.ltb_ge _ _)), (proj2 (Z.leb_gt _ _)) by lia. simpl.
  destruct (removeItemAtIndex_Ok s index Hs Hr Hlast) as (s' & -> & Hit & Hla & Hpn & Ht & Hc).
  exists true, s'. split; [done |]. split; [split; [| done]; intros _; split_and!; try lia; congruence |].
  split; [done |]. intros _. split_and!; try done; [| by apply Hc].
  unfold lastCommittedItem. rewrite Hla, Hit.
  destruct (Z.ltb_spec index (_lastCommittedItemIndex s)).
  - rewrite !(proj2 (Z.eqb_neq _ (-1))) by lia. f_equal. rewrite vget_verase_ge by lia.
    f_equal. lia.
  - destruct (Z.eqb_spec (_lastCommittedItemIndex s) (-1)); [done |].
    by rewrite vget_verase_lt by lia.
Qed.

(** While a request for the desktop site is pending, navigating to the
    same URL again fails a check of [AddPendingItem], instead of doing
    nothing: the pending item is kept, and the code that sets the user agent
    of a new item expects it not to be a desktop one. *)
Lemma repeated_desktop_navigation_faults s a i url ref type init :
  session_ok s -> _pendingItem s = Some a -> heap s !! a = Some i ->
  GetURL i = url -> GetUserAgentType i = UA_DESKTOP ->
  PageTransitionCoreTypeIs type PAGE_TRANSITION_FORM_SUBMIT = false ->
  AddPendingItem url ref type init INHERIT s = Fault.
Proof.
  intros Hs Ha Hi Hurl Hua Hform. unfold AddPendingItem, addPendingItem.
  rewrite setPendingItemIndex_m1. simpl.
  destruct (pending_item_distinct s a Hs Ha) as [Ht _].
  pose proof (discardTransientItem_heap s a Ht) as Hh.
  rewrite discardTransientItem_eq in *. simpl in *. rewrite Hi in Hh.
  unfold shouldCreatePendingItemWithURL, currentItem, transientItem, pendingItem,
    GetPendingItem, item_at. simpl. rewrite Ha. simpl. rewrite Hh. simpl.
  rewrite (proj2 (same_url_spec _ _) Hurl). simpl. rewrite Hform. simpl.
  rewrite andb_false_r. simpl. unfold pendingItem, item_at. simpl.
  rewrite Ha. simpl. rewrite Hh. simpl. by rewrite Hua.
Qed.

(** Going forward leaves a pending item where it is, even when asked to
    discard the items that are not committed. *)
Lemma go_forward_keeps_pending s index :
  _lastCommittedItemIndex s < index < vsize (_items s) -> 0 <= index ->
  exists s', goToItemAtIndex index true s = Ok s' /\
    _pendingItem s' = _pendingItem s /\ _pendingItemIndex s' = _pendingItemIndex s.
Proof.
  intros Hi H0i. unfold goToItemAtIndex.
  rewrite (proj2 (Z.ltb_ge index 0)), (proj2 (Z.leb_gt _ index)) by lia. simpl.
  rewrite (proj2 (Z.eqb_neq _ _)), (proj2 (Z.ltb_ge index _)),
    (proj2 (Z.ltb_lt _ index)) by lia. simpl.
  eexists. split; [done |]. by rewrite discardTransientItem_eq.
Qed.
End more.

(** ** Witnesses: a tab that visited a page, was redirected, and loads a third
    page for the desktop site. *)
Module SampleHistory.
Import ConcreteUrl ConcreteTransition SampleItem.

#[export] Instance rewriters : BrowserURLRewriterImpl := [].

Definition page (name : string) : @GURL gurl := mk_url "http" "a.com" name None.
Definition typed : @PageTransition api := mk 1 false.
Definition redirect_to : @PageTransition api := mk 0 true.

Definition visit (name : string) (t : @PageTransition api) (now : Z)
    : list nav_request :=
  [NAddPendingItem (page name) Referrer_new t USER_INITIATED INHERIT;
   NCommitPendingItem now].

(** Two committed pages; the second was reached by a redirect of the first. *)
Definition visited : list nav_request :=
  visit "1" typed 10 ++ visit "2" redirect_to 10 ++ visit "3" typed 10.

Definition loading : list nav_request :=
  visited ++ [NAddPendingItem (page "4") Referrer_new typed USER_INITIATED
                OVERRIDE_DESKTOP].

Definition state_after (rs : list nav_request) : CRWSessionController :=
  match navigate rs (nav_start None) with
  | Ok s => s
  | Fault => nav_start None
  end.

Lemma visited_ok : session_with [] (state_after visited).
Proof.
  apply (navigate_ok visited (nav_start None)); [| apply session_nav_start |].
  - repeat constructor.
  - evaluate.
Qed.

Lemma loading_ok : session_with [] (state_after loading).
Proof.
  apply (navigate_ok loading (nav_start None)); [| apply session_nav_start |].
  - repeat constructor.
  - evaluate.
Qed.

Definition pending_page : NavigationItemImpl :=
  default (NavigationItemImpl_new 0) (heap (state_after loading) !! 4%positive).
End SampleHistory.
Import ConcreteUrl ConcreteTransition SampleItem SampleHistory.

Lemma commit_new_navigation_witness :
  exists s', commitPendingItem 10 (state_after loading) = Ok s' /\
    _items s' = [1; 2; 3; 4]%positive /\ _lastCommittedItemIndex s' = 3.
Proof.
  destruct (commit_new_navigation (state_after loading) 10 4 pending_page loading_ok)
    as (s' & d & Hs' & Hi & Hl & _); [evaluate | evaluate | evaluate |].
  exists s'. split; [exact Hs' |]. rewrite Hi, Hl. evaluate.
Defined.

Lemma copy_state_merges_witness :
  exists s' copies,
    copyStateFromSessionControllerAndPrune (state_after loading) (state_after visited)
    = Ok s' /\ _items s' = copies ++ [3%positive] /\ length copies = 3%nat.
Proof.
  destruct (copy_state_merges (state_after loading) (state_after visited) 3
              visited_ok loading_ok) as (s' & copies & Hs' & Hi & Hc & _);
    [evaluate | evaluate | evaluate |].
  exists s', copies. split; [exact Hs' |]. split; [exact Hi |].
  apply Forall2_length in Hc. rewrite <- Hc. evaluate.
Defined.

Lemma history_stays_well_formed_witness :
  -1 <= _lastCommittedItemIndex (state_after loading)
  < vsize (_items (state_after loading)).
Proof.
  destruct (history_stays_well_formed (state_after loading)) as (_ & (Hl & _) & _);
    [| exact Hl].
  apply (navigate_reachable loading (nav_start None));
    [repeat constructor | apply nav_reachable_start | evaluate].
Defined.

(** Page 2 redirected, so going back from page 3 by two leaves the history. *)
Lemma back_offset_is_backward_item_witness :
  exists l index, GetBackwardItems (state_after visited) = Ok l /\
    GetIndexForOffset (state_after visited) (- Z.of_nat 1) = Ok index /\
    GetItemAtIndex (state_after visited) index = l !! 0%nat /\
    CanGoToOffset (state_after visited) (- Z.of_nat 1)
    = Ok (bool_decide (is_Some (l !! 0%nat))).
Proof.
  apply (back_offset_is_backward_item (state_after visited) 0 visited_ok);
    evaluate.
Defined.

Lemma RemoveItemAtIndex_spec_witness :
  exists s', RemoveItemAtIndex 0 (state_after loading) = Ok (true, s') /\
    _items s' = [2; 3]%positive.
Proof.
  destruct (RemoveItemAtIndex_spec (state_after loading) 0 loading_ok)
    as (b & s' & Hr & Hb & _ & Ht); [vm_compute; eexists; reflexivity |].
  assert (b = true) as ->.
  { apply Hb. split_and!; evaluate. }
  exists s'. split; [exact Hr |]. destruct (Ht eq_refl) as [-> _]. evaluate.
Defined.

Lemma repeated_desktop_navigation_faults_witness :
  AddPendingItem (page "4") Referrer_new typed USER_INITIATED INHERIT
    (state_after loading) = Fault.
Proof.
  apply (repeated_desktop_navigation_faults (state_after loading) 4 pending_page);
    [apply loading_ok | evaluate ..].
Defined.

(** The pages that redirected end up in different lists: the forward items
    start a chain of redirects, the forward offset leads to its end. *)
Lemma forward_items_start_chains :
  let s := state_after visited <| _lastCommittedItemIndex := -1 |> in
  GetForwardItems s = Ok [1; 3]%positive /\ GetIndexForOffset s 1 = Ok 1.
Proof. evaluate. Qed.
