(* ===== verification/WebStateList.v ===== *)
(** * WebStateList

    [chrome/browser/web_state_list]: the list of tabs of a window.  The list
    owns its WebStates, tracks the active one and the opener of each, tells a
    delegate and the observers about every change, and asks
    [WebStateListOrderController] where a new tab goes and which tab becomes
    active when one is closed.

    A WebState is a pointer ([positive]); [None] is the null pointer.  A
    notification is an entry of [log], oldest first. *)
From S2P Require Import Prelude External.

(** ** [web_state_opener.h] *)
Abbreviation WebState := positive.

(** The part of [web::NavigationManager] the tab strip calls. *)
Class OpenerNavigation := {
  (** [web_state->GetNavigationManager()->GetLastCommittedItemIndex()] *)
  LastCommittedItemIndexOf : WebState -> Z;
}.

Record WebStateOpener := {
  opener : option WebState;
  navigation_index : Z;
}.

Definition NavigationIndexFromWebState `{OpenerNavigation}
    (web_state : option WebState) : Z :=
  match web_state with
  | None => -1
  | Some ws => LastCommittedItemIndexOf ws
  end.

Definition WebStateOpener_new `{OpenerNavigation}
    (o : option WebState) : WebStateOpener :=
  {| opener := o; navigation_index := NavigationIndexFromWebState o |}.

(** [WebStateOpener(nullptr)] *)
Definition no_opener : WebStateOpener :=
  {| opener := None; navigation_index := -1 |}.

(** ** Notifications: [web_state_list_observer.h], [web_state_list_delegate.h] *)
Inductive observer_event :=
| WebStateInsertedAt (web_state : option WebState) (index : Z)
| WebStateMoved (web_state : option WebState) (from_index to_index : Z)
| WebStateReplacedAt (old_web_state new_web_state : option WebState) (index : Z)
| WillDetachWebStateAt (web_state : option WebState) (index : Z)
| WebStateDetachedAt (web_state : option WebState) (index : Z)
| WillCloseWebStateAt (web_state : option WebState) (index : Z)
| WebStateActivatedAt (old_web_state new_web_state : option WebState)
    (active_index : Z) (user_action : bool).

Inductive delegate_event :=
| WillAddWebState (web_state : option WebState)
| WebStateDetached (web_state : option WebState).

Inductive notification :=
| ToObserver (observer : positive) (e : observer_event)
| ToDelegate (e : delegate_event)
| Destroyed (web_state : option WebState).

(** ** [WebStateWrapper] *)
Record WebStateWrapper := {
  web_state_ : option WebState;
  opener_ : WebStateOpener;
}.

Definition WebStateWrapper_new (web_state : option WebState)
    : chk WebStateWrapper :=
  _ ← dcheck (bool_decide (is_Some web_state));
  mret {| web_state_ := web_state; opener_ := no_opener |}.

Definition set_opener (o : WebStateOpener) (w : WebStateWrapper) :=
  {| web_state_ := web_state_ w; opener_ := o |}.

(** Returns the old WebState and the wrapper of the new one. *)
Definition ReplaceWebState (web_state : option WebState) (w : WebStateWrapper)
    : chk (option WebState * WebStateWrapper) :=
  _ ← dcheck (bool_decide (web_state <> web_state_ w));
  mret (web_state_ w, {| web_state_ := web_state; opener_ := no_opener |}).

Definition WasOpenedBy (w : WebStateWrapper) (o : WebState)
    (opener_navigation_index : Z) (use_group : bool) : bool :=
  if negb (bool_decide (opener (opener_ w) = Some o)) then false
  else if negb use_group then true
  else navigation_index (opener_ w) =? opener_navigation_index.

(** ** [WebStateList] *)
Record WebStateList := {
  web_state_wrappers_ : list WebStateWrapper;
  active_index_ : Z;
  observers_ : list positive;
  log : list notification;
}.

Definition kInvalidIndex : Z := -1.
#[global] Arguments kInvalidIndex : simpl never.

Definition WebStateList_new : WebStateList :=
  {| web_state_wrappers_ := []; active_index_ := kInvalidIndex;
     observers_ := []; log := [] |}.

Definition set_wrappers (ws : list WebStateWrapper) (s : WebStateList) :=
  {| web_state_wrappers_ := ws; active_index_ := active_index_ s;
     observers_ := observers_ s; log := log s |}.
Definition set_active (i : Z) (s : WebStateList) :=
  {| web_state_wrappers_ := web_state_wrappers_ s; active_index_ := i;
     observers_ := observers_ s; log := log s |}.
Definition emit (n : list notification) (s : WebStateList) :=
  {| web_state_wrappers_ := web_state_wrappers_ s;
     active_index_ := active_index_ s; observers_ := observers_ s;
     log := log s ++ n |}.

(** [for (auto& observer : observers_) observer.e(...)] *)
Definition notify (e : observer_event) (s : WebStateList) : WebStateList :=
  emit ((fun o => ToObserver o e) <$> observers_ s) s.
Definition tell (e : delegate_event) (s : WebStateList) : WebStateList :=
  emit [ToDelegate e] s.

Definition empty (s : WebStateList) : bool :=
  bool_decide (web_state_wrappers_ s = []).
Definition count (s : WebStateList) : Z := vsize (web_state_wrappers_ s).

Definition ContainsIndex (s : WebStateList) (index : Z) : bool :=
  (0 <=? index) && (index <? count s).

Definition GetWebStateAt (s : WebStateList) (index : Z)
    : chk (option WebState) :=
  _ ← dcheck (ContainsIndex s index);
  w ← vget (web_state_wrappers_ s) index;
  mret (web_state_ w).

Definition GetActiveWebState (s : WebStateList) : chk (option WebState) :=
  if active_index_ s =? kInvalidIndex then mret None
  else GetWebStateAt s (active_index_ s).

Fixpoint index_of_loop (web_state : option WebState)
    (ws : list WebStateWrapper) (index : Z) : Z :=
  match ws with
  | [] => kInvalidIndex
  | w :: ws' =>
      if bool_decide (web_state_ w = web_state) then index
      else index_of_loop web_state ws' (index + 1)
  end.

Definition GetIndexOfWebState (s : WebStateList) (web_state : option WebState)
    : Z := index_of_loop web_state (web_state_wrappers_ s) 0.

Definition GetOpenerOfWebStateAt (s : WebStateList) (index : Z)
    : chk WebStateOpener :=
  _ ← dcheck (ContainsIndex s index);
  w ← vget (web_state_wrappers_ s) index;
  mret (opener_ w).

Definition SetOpenerOfWebStateAt (index : Z) (o : WebStateOpener)
    (s : WebStateList) : chk WebStateList :=
  _ ← dcheck (ContainsIndex s index);
  _ ← dcheck (ContainsIndex s (GetIndexOfWebState s (opener o)));
  w ← vget (web_state_wrappers_ s) index;
  mret (set_wrappers (vset index (set_opener o w) (web_state_wrappers_ s)) s).

(** The [for] loop of [GetIndexOfNthWebStateOpenedBy] over the wrappers from
    [index] on; [found] is [found_index]. *)
Fixpoint nth_opened_loop (o : WebState) (opener_navigation_index : Z)
    (use_group : bool) (ws : list WebStateWrapper) (index found n : Z) : Z :=
  match ws with
  | [] => found
  | w :: ws' =>
      if n =? 0 then found
      else if WasOpenedBy w o opener_navigation_index use_group then
        nth_opened_loop o opener_navigation_index use_group ws' (index + 1)
          index (n - 1)
      else if negb (found =? kInvalidIndex) then found
      else nth_opened_loop o opener_navigation_index use_group ws' (index + 1)
             found n
  end.

Section operations.
Context `{OpenerNavigation} `{PageTransitionApi}.

Definition GetIndexOfNthWebStateOpenedBy (s : WebStateList)
    (o : option WebState) (start_index : Z) (use_group : bool) (n : Z)
    : chk Z :=
  _ ← dcheck (0 <? n);
  match o with
  | None => mret kInvalidIndex
  | Some o =>
      if negb (ContainsIndex s start_index) || (start_index =? INT_MAX)
      then mret kInvalidIndex
      else
        let opener_navigation_index :=
          if use_group then LastCommittedItemIndexOf o else -1 in
        mret (nth_opened_loop o opener_navigation_index use_group
                (drop (Z.to_nat (start_index + 1)) (web_state_wrappers_ s))
                (start_index + 1) kInvalidIndex n)
  end.

Definition GetIndexOfNextWebStateOpenedBy (s : WebStateList)
    (o : option WebState) (start_index : Z) (use_group : bool) : chk Z :=
  GetIndexOfNthWebStateOpenedBy s o start_index use_group 1.

Definition GetIndexOfLastWebStateOpenedBy (s : WebStateList)
    (o : option WebState) (start_index : Z) (use_group : bool) : chk Z :=
  GetIndexOfNthWebStateOpenedBy s o start_index use_group INT_MAX.

(** ** [WebStateListOrderController] *)

Definition DetermineInsertionIndex (s : WebStateList)
    (transition : PageTransition) (o : option WebState) : chk Z :=
  match o with
  | None => mret (count s)
  | Some _ =>
      if negb (PageTransitionCoreTypeIs transition PAGE_TRANSITION_LINK)
      then mret (count s)
      else
        let opener_index := GetIndexOfWebState s o in
        _ ← dcheck (negb (kInvalidIndex =? opener_index));
        list_child_index ← GetIndexOfLastWebStateOpenedBy s o opener_index true;
        let reference_index :=
          if negb (list_child_index =? kInvalidIndex)
          then list_child_index else opener_index in
        _ ← dcheck (reference_index <? INT_MAX);
        mret (reference_index + 1)
  end.

Definition GetValidIndex (index removing_index : Z) : Z :=
  if removing_index <? index then Z.min 0 (index - 1) else index.

Definition DetermineNewActiveIndex (s : WebStateList) (removing_index : Z)
    : chk Z :=
  _ ← dcheck (ContainsIndex s removing_index);
  removed ← GetWebStateAt s removing_index;
  index ← GetIndexOfNextWebStateOpenedBy s removed removing_index false;
  if negb (index =? kInvalidIndex) then mret (GetValidIndex index removing_index)
  else
    o ← GetOpenerOfWebStateAt s removing_index;
    match opener o with
    | Some _ =>
        index ← GetIndexOfNextWebStateOpenedBy s (opener o) removing_index false;
        if negb (index =? kInvalidIndex)
        then mret (GetValidIndex index removing_index)
        else mret (GetValidIndex (GetIndexOfWebState s (opener o))
                     removing_index)
    | None =>
        if count s =? 1 then mret kInvalidIndex
        else if count s - 1 <=? removing_index then mret (removing_index - 1)
        else mret removing_index
    end.

(** ** Operations of [WebStateList] that change it *)

Definition NotifyIfActiveWebStateChanged (old_web_state : option WebState)
    (user_action : bool) (s : WebStateList) : chk WebStateList :=
  new_web_state ← GetActiveWebState s;
  if bool_decide (old_web_state = new_web_state) then mret s
  else mret (notify (WebStateActivatedAt old_web_state new_web_state
                       (active_index_ s) user_action) s).

Definition ClearOpenersReferencing (index : Z) (s : WebStateList)
    : chk WebStateList :=
  w ← vget (web_state_wrappers_ s) index;
  let clear x :=
    if bool_decide (opener (opener_ x) = web_state_ w)
    then set_opener no_opener x else x in
  mret (set_wrappers (clear <$> web_state_wrappers_ s) s).

Definition InsertWebState (index : Z) (web_state : option WebState)
    (s : WebStateList) : chk WebStateList :=
  _ ← dcheck (ContainsIndex s index || (index =? count s));
  let s := tell (WillAddWebState web_state) s in
  w ← WebStateWrapper_new web_state;
  let s := set_wrappers (vinsert index w (web_state_wrappers_ s)) s in
  let s := if index <=? active_index_ s
           then set_active (active_index_ s + 1) s else s in
  mret (notify (WebStateInsertedAt web_state index) s).

Definition AppendWebState (transition : PageTransition)
    (web_state : option WebState) (o : WebStateOpener) (s : WebStateList)
    : chk WebStateList :=
  index ← DetermineInsertionIndex s transition (opener o);
  let index :=
    if (index <? 0) || (count s <? index) then count s else index in
  s ← InsertWebState index web_state s;
  match opener o with
  | Some _ => SetOpenerOfWebStateAt index o s
  | None => mret s
  end.

(** The active index after [from_index] moved to [to_index]. *)
Definition moved_active_index (from_index to_index active_index : Z) : Z :=
  if active_index =? from_index then to_index
  else
    let min := Z.min from_index to_index in
    let max := Z.max from_index to_index in
    let delta := if from_index <? to_index then -1 else 1 in
    if (min <=? active_index) && (active_index <=? max)
    then active_index + delta else active_index.

Definition MoveWebStateAt (from_index to_index : Z) (s : WebStateList)
    : chk WebStateList :=
  _ ← dcheck (ContainsIndex s from_index);
  _ ← dcheck (ContainsIndex s to_index);
  if from_index =? to_index then mret s
  else
    w ← vget (web_state_wrappers_ s) from_index;
    let s := set_wrappers
               (vinsert to_index w (verase from_index (web_state_wrappers_ s)))
               s in
    let s := set_active
               (moved_active_index from_index to_index (active_index_ s)) s in
    mret (notify (WebStateMoved (web_state_ w) from_index to_index) s).

Definition ReplaceWebStateAt (index : Z) (web_state : option WebState)
    (s : WebStateList) : chk (option WebState * WebStateList) :=
  _ ← dcheck (ContainsIndex s index);
  let s := tell (WillAddWebState web_state) s in
  s ← ClearOpenersReferencing index s;
  w ← vget (web_state_wrappers_ s) index;
  '(old_web_state, w) ← ReplaceWebState web_state w;
  let s := set_wrappers (vset index w (web_state_wrappers_ s)) s in
  let s := notify (WebStateReplacedAt old_web_state web_state index) s in
  mret (old_web_state, tell (WebStateDetached old_web_state) s).

Definition DetachWebStateAt (index : Z) (s : WebStateList)
    : chk (option WebState * WebStateList) :=
  _ ← dcheck (ContainsIndex s index);
  new_active_index ← DetermineNewActiveIndex s index;
  web_state ← GetWebStateAt s index;
  let s := notify (WillDetachWebStateAt web_state index) s in
  s ← ClearOpenersReferencing index s;
  w ← vget (web_state_wrappers_ s) index;
  '(detached_web_state, _) ← ReplaceWebState None w;
  let s := set_wrappers (verase index (web_state_wrappers_ s)) s in
  let active_web_state_was_closed := index =? active_index_ s in
  let s := if index <? active_index_ s then set_active (active_index_ s - 1) s
           else if active_index_ s =? index then set_active new_active_index s
           else s in
  let s := notify (WebStateDetachedAt web_state index) s in
  s ← (if active_web_state_was_closed
       then NotifyIfActiveWebStateChanged web_state false s else mret s);
  mret (detached_web_state, tell (WebStateDetached web_state) s).

Definition CloseWebStateAt (index : Z) (s : WebStateList) : chk WebStateList :=
  '(detached_web_state, s) ← DetachWebStateAt index s;
  let s := notify (WillCloseWebStateAt detached_web_state index) s in
  mret (emit [Destroyed detached_web_state] s).

(** [while (!empty()) CloseWebStateAt(count() - 1)]: [Fault] when the fuel
    runs out. *)
Fixpoint close_all_loop (fuel : nat) (s : WebStateList) : chk WebStateList :=
  if empty s then mret s
  else match fuel with
       | O => Fault
       | S fuel => s ← CloseWebStateAt (count s - 1) s; close_all_loop fuel s
       end.

Definition CloseAllWebStates (s : WebStateList) : chk WebStateList :=
  close_all_loop (length (web_state_wrappers_ s)) s.

Definition ActivateWebStateAt (index : Z) (s : WebStateList)
    : chk WebStateList :=
  _ ← dcheck (ContainsIndex s index);
  old_web_state ← GetActiveWebState s;
  NotifyIfActiveWebStateChanged old_web_state true (set_active index s).

Definition set_observers (l : list positive) (s : WebStateList) :=
  {| web_state_wrappers_ := web_state_wrappers_ s;
     active_index_ := active_index_ s; observers_ := l; log := log s |}.

(** [base::ObserverList]: an observer must not be added twice. *)
Definition AddObserver (o : positive) (s : WebStateList) : chk WebStateList :=
  _ ← dcheck (negb (bool_decide (o ∈ observers_ s)));
  mret (set_observers (observers_ s ++ [o]) s).

Definition RemoveObserver (o : positive) (s : WebStateList) : WebStateList :=
  set_observers (filter (fun x => x <> o) (observers_ s)) s.

(** The public interface of [WebStateList] as a type of requests. *)
Inductive request :=
| RSetOpener (index : Z) (o : WebStateOpener)
| RInsert (index : Z) (web_state : WebState)
| RAppend (transition : PageTransition) (web_state : WebState)
    (o : WebStateOpener)
| RMove (from_index to_index : Z)
| RReplace (index : Z) (web_state : WebState)
| RDetach (index : Z)
| RClose (index : Z)
| RCloseAll
| RActivate (index : Z)
| RAddObserver (o : positive)
| RRemoveObserver (o : positive).

Definition step (r : request) (s : WebStateList) : chk WebStateList :=
  match r with
  | RSetOpener index o => SetOpenerOfWebStateAt index o s
  | RInsert index ws => InsertWebState index (Some ws) s
  | RAppend transition ws o => AppendWebState transition (Some ws) o s
  | RMove from_index to_index => MoveWebStateAt from_index to_index s
  | RReplace index ws =>
      '(_, s) ← ReplaceWebStateAt index (Some ws) s; mret s
  | RDetach index => '(_, s) ← DetachWebStateAt index s; mret s
  | RClose index => CloseWebStateAt index s
  | RCloseAll => CloseAllWebStates s
  | RActivate index => ActivateWebStateAt index s
  | RAddObserver o => AddObserver o s
  | RRemoveObserver o => mret (RemoveObserver o s)
  end.

End operations.

(** ** Searching the openers *)

Section searching.
Context (o : WebState) (nav : Z) (use_group : bool).

Definition opened_by (w : WebStateWrapper) : bool :=
  WasOpenedBy w o nav use_group.

Lemma nth_opened_loop_run ws found n :
  0 <= found -> 0 <= n ->
  nth_opened_loop o nav use_group ws (found + 1) found n
  = found + Z.min n (Z.of_nat (prefix_len opened_by ws)).
Proof.
  revert found n.
  induction ws as [| w ws IH]; intros found n Hf Hn; simpl; [lia |].
  destruct (Z.eqb_spec n 0); [lia |]. unfold opened_by at 1.
  destruct (WasOpenedBy w o nav use_group); simpl.
  - rewrite IH by lia. lia.
  - unfold kInvalidIndex. case_bool; simpl; lia.
Qed.

Lemma nth_opened_loop_search ws index n :
  0 <= index -> 0 < n ->
  nth_opened_loop o nav use_group ws index kInvalidIndex n
  = match find_index opened_by ws with
    | None => kInvalidIndex
    | Some k =>
        index + Z.of_nat k
        + Z.min (n - 1) (Z.of_nat (prefix_len opened_by (drop (S k) ws)))
    end.
Proof.
  revert index.
  induction ws as [| w ws IH]; intros index Hi Hn; simpl; [done |].
  destruct (Z.eqb_spec n 0); [lia |]. unfold opened_by at 1.
  destruct (WasOpenedBy w o nav use_group); simpl.
  - rewrite nth_opened_loop_run by lia. rewrite drop_0. lia.
  - rewrite IH by lia. destruct (find_index _ ws) as [k|]; simpl; lia.
Qed.
End searching.

(** ** The well-formedness of a list *)

Definition pointers (l : list WebStateWrapper) : list (option WebState) :=
  web_state_ <$> l.

(** The opener of a wrapper is another WebState of the list. *)
Definition opener_ok (ptrs : list (option WebState)) (w : WebStateWrapper)
    : Prop :=
  forall p, opener (opener_ w) = Some p ->
  Some p ∈ ptrs /\ web_state_ w <> Some p.

Record wrappers_ok (l : list WebStateWrapper) : Prop := {
  ok_nodup : NoDup (pointers l);
  ok_not_null : Forall (fun w => is_Some (web_state_ w)) l;
  ok_opener : Forall (opener_ok (pointers l)) l;
}.

Record wf (s : WebStateList) : Prop := {
  wf_wrappers : wrappers_ok (web_state_wrappers_ s);
  wf_active : kInvalidIndex <= active_index_ s < count s;
}.

#[export] Instance pointers_perm : Proper ((≡ₚ) ==> (≡ₚ)) pointers.
Proof. intros l k Hlk. unfold pointers. by rewrite Hlk. Qed.

#[export] Instance wrappers_ok_perm : Proper ((≡ₚ) ==> iff) wrappers_ok.
Proof.
  assert (forall l k, l ≡ₚ k -> wrappers_ok l -> wrappers_ok k) as Himp.
  { intros l k Hlk [Hnd Hnn Hop].
    pose proof (pointers_perm l k Hlk) as Hptr.
    split.
    - by rewrite <- Hptr.
    - by rewrite <- Hlk.
    - apply Forall_forall. intros w Hw p Hp. rewrite <- Hlk in Hw.
      rewrite Forall_forall in Hop. destruct (Hop w Hw p Hp) as [Hin ?].
      split; [by rewrite <- Hptr | done]. }
  intros l k Hlk. split; apply Himp; [done | by symmetry].
Qed.

Lemma wrappers_ok_cons w l p :
  web_state_ w = Some p -> Some p ∉ pointers l -> opener (opener_ w) = None ->
  wrappers_ok l -> wrappers_ok (w :: l).
Proof.
  intros Hw Hp Ho [Hnd Hnn Hop]. split; simpl.
  - apply NoDup_cons. by rewrite Hw.
  - constructor; [by eexists | done].
  - constructor; [intros q; congruence |].
    eapply Forall_impl; [exact Hop |]. intros w' Hw' q Hq.
    destruct (Hw' q Hq). split; [by right | done].
Qed.

(** Clearing the references to the head makes the tail well formed. *)
Definition clear_opener (p : option WebState) (x : WebStateWrapper) :=
  if bool_decide (opener (opener_ x) = p) then set_opener no_opener x else x.

Lemma pointers_clear p l : pointers (clear_opener p <$> l) = pointers l.
Proof.
  unfold pointers. rewrite <- list_fmap_compose. apply list_fmap_ext.
  intros _ x _. simpl. unfold clear_opener. by case_bool_decide.
Qed.

Lemma wrappers_ok_clear_tail w l :
  wrappers_ok (w :: l) -> wrappers_ok (clear_opener (web_state_ w) <$> l).
Proof.
  intros [Hnd Hnn Hop]. inversion Hnd as [| ? ? Hw Hnd']; subst.
  inversion Hnn as [| ? ? [p Hp] Hnn']; subst.
  inversion Hop as [| ? ? _ Hop']; subst.
  split; rewrite ?pointers_clear; [done | |].
  - apply Forall_fmap. eapply Forall_impl; [exact Hnn' |]. simpl.
    intros x Hx. unfold clear_opener. by case_bool_decide.
  - apply Forall_fmap. eapply Forall_impl; [exact Hop' |]. simpl.
    intros x Hx q. unfold clear_opener. case_bool_decide; simpl; [done |].
    intros Hq. destruct (Hx q Hq) as [Hin ?]. split; [| done].
    apply elem_of_cons in Hin as [Heq |]; [congruence | done].
Qed.

Lemma opener_of_elem l i w :
  wrappers_ok l -> vget l i = Ok w -> opener_ok (pointers l) w.
Proof.
  intros [_ _ Hop] [_ Hw]%vget_Ok. eapply Forall_lookup_1 in Hop; eauto.
Qed.

Lemma web_state_of_elem l i w :
  wrappers_ok l -> vget l i = Ok w -> exists p, web_state_ w = Some p.
Proof.
  intros [_ Hnn _] [_ Hw]%vget_Ok. eapply Forall_lookup_1 in Hnn; eauto.
Qed.

(** ** Looking WebStates up *)

Lemma ContainsIndex_spec s i :
  ContainsIndex s i = true <-> 0 <= i < count s.
Proof. unfold ContainsIndex. rewrite andb_true_iff, Z.leb_le, Z.ltb_lt. done. Qed.

Lemma count_length s : count s = Z.of_nat (length (web_state_wrappers_ s)).
Proof. reflexivity. Qed.

Lemma vget_count s i w :
  vget (web_state_wrappers_ s) i = Ok w -> 0 <= i < count s.
Proof. apply vget_range. Qed.

Lemma GetWebStateAt_Ok s i :
  0 <= i < count s ->
  exists w, vget (web_state_wrappers_ s) i = Ok w /\
            GetWebStateAt s i = Ok (web_state_ w).
Proof.
  intros Hi. destruct (vget_in_range (web_state_wrappers_ s) i Hi) as [w Hw].
  exists w. split; [done |]. unfold GetWebStateAt.
  rewrite dcheck_true by by apply ContainsIndex_spec. simpl. by rewrite Hw.
Qed.

Lemma index_of_loop_spec p ws index :
  0 <= index ->
  index_of_loop p ws index
  = match find_index (fun w => bool_decide (web_state_ w = p)) ws with
    | None => kInvalidIndex
    | Some k => index + Z.of_nat k
    end.
Proof.
  revert index. induction ws as [| w ws IH]; intros index Hi; simpl; [done |].
  case_bool_decide; simpl; [lia |]. rewrite IH by lia.
  destruct (find_index _ ws); simpl; lia.
Qed.

Lemma GetIndexOfWebState_None s p :
  GetIndexOfWebState s p = kInvalidIndex <->
  p ∉ pointers (web_state_wrappers_ s).
Proof.
  unfold GetIndexOfWebState. rewrite index_of_loop_spec by lia.
  destruct (find_index _ _) as [k|] eqn:Hk.
  - apply find_index_Some in Hk as [(w & Hw & Hp) _].
    apply bool_decide_eq_true in Hp. unfold kInvalidIndex.
    split; [lia |]. intros Hnot. contradict Hnot. unfold pointers.
    apply list_elem_of_fmap. exists w. split; [done |].
    by eapply list_elem_of_lookup_2.
  - split; [intros _ | done]. rewrite find_index_None in Hk.
    intros (w & -> & Hw)%list_elem_of_fmap.
    apply list_elem_of_lookup in Hw as [k Hw].
    apply Hk in Hw. by apply bool_decide_eq_false in Hw.
Qed.

Lemma GetIndexOfWebState_Some s p i :
  GetIndexOfWebState s p = i -> i <> kInvalidIndex ->
  exists w, vget (web_state_wrappers_ s) i = Ok w /\ web_state_ w = p.
Proof.
  unfold GetIndexOfWebState. rewrite index_of_loop_spec by lia.
  destruct (find_index _ _) as [k|] eqn:Hk; [| congruence].
  apply find_index_Some in Hk as [(w & Hw & Hp) _].
  apply bool_decide_eq_true in Hp. intros <- _. exists w. split; [| done].
  apply vget_Ok. split; [lia |]. by rewrite Z.add_0_l, Nat2Z.id.
Qed.

Lemma GetIndexOfWebState_range s p :
  p ∈ pointers (web_state_wrappers_ s) -> 0 <= GetIndexOfWebState s p < count s.
Proof.
  intros Hp. assert (GetIndexOfWebState s p <> kInvalidIndex) as Hne.
  { intros ?%GetIndexOfWebState_None. done. }
  destruct (GetIndexOfWebState_Some s p _ eq_refl Hne) as (w & Hw & _).
  by eapply vget_range.
Qed.

(** With distinct WebStates the index of a WebState is its position. *)
Lemma GetIndexOfWebState_nodup s i w :
  NoDup (pointers (web_state_wrappers_ s)) ->
  vget (web_state_wrappers_ s) i = Ok w ->
  GetIndexOfWebState s (web_state_ w) = i.
Proof.
  intros Hnd Hw. pose proof (vget_range _ _ _ Hw) as Hi.
  apply vget_Ok in Hw as [_ Hw].
  assert (web_state_ w ∈ pointers (web_state_wrappers_ s)) as Hin.
  { apply list_elem_of_fmap. exists w. split; [done |].
    by eapply list_elem_of_lookup_2. }
  pose proof (GetIndexOfWebState_range s _ Hin) as Hr.
  destruct (GetIndexOfWebState_Some s (web_state_ w) _ eq_refl) as (w' & Hw' & Heq).
  { unfold kInvalidIndex. lia. }
  apply vget_Ok in Hw' as [_ Hw'].
  assert (Z.to_nat (GetIndexOfWebState s (web_state_ w)) = Z.to_nat i) as Hz; [| lia].
  apply (NoDup_lookup _ _ _ (web_state_ w) Hnd);
    unfold pointers; rewrite list_lookup_fmap.
  - rewrite Hw'. simpl. by rewrite Heq.
  - by rewrite Hw.
Qed.

Lemma GetIndexOfWebState_unique s i w :
  wrappers_ok (web_state_wrappers_ s) ->
  vget (web_state_wrappers_ s) i = Ok w ->
  GetIndexOfWebState s (web_state_ w) = i.
Proof. intros [Hnd _ _]. by apply GetIndexOfWebState_nodup. Qed.

(** ** The opener queries *)

Section opener_queries.
Context `{OpenerNavigation} `{PageTransitionApi}.
Implicit Types (s : WebStateList) (o : WebState).

Definition opener_nav o (use_group : bool) : Z :=
  if use_group then LastCommittedItemIndexOf o else -1.

(** The wrapper at [j] was opened by [o]. *)
Definition opened_at s o (use_group : bool) (j : Z) (b : bool) : Prop :=
  exists w, vget (web_state_wrappers_ s) j = Ok w /\
            opened_by o (opener_nav o use_group) use_group w = b.

Lemma GetIndexOfNth_eq s o i g n :
  0 < n -> 0 <= i < count s -> i <> INT_MAX ->
  GetIndexOfNthWebStateOpenedBy s (Some o) i g n
  = Ok (let ws := drop (Z.to_nat (i + 1)) (web_state_wrappers_ s) in
        let P := opened_by o (opener_nav o g) g in
        match find_index P ws with
        | None => kInvalidIndex
        | Some k => i + 1 + Z.of_nat k
                    + Z.min (n - 1) (Z.of_nat (prefix_len P (drop (S k) ws)))
        end).
Proof.
  intros Hn Hi Hmax. unfold GetIndexOfNthWebStateOpenedBy.
  rewrite dcheck_true by (by apply Z.ltb_lt). simpl.
  rewrite (proj2 (ContainsIndex_spec s i)) by done. simpl.
  case_bool. simpl. rewrite nth_opened_loop_search by lia. done.
Qed.

Lemma drop_lookup_vget s i k w :
  0 <= i ->
  drop (Z.to_nat (i + 1)) (web_state_wrappers_ s) !! k = Some w <->
  vget (web_state_wrappers_ s) (i + 1 + Z.of_nat k) = Ok w.
Proof.
  intros Hi. rewrite lookup_drop, vget_Ok.
  replace (Z.to_nat (i + 1 + Z.of_nat k)) with (Z.to_nat (i + 1) + k)%nat by lia.
  intuition lia.
Qed.

Lemma GetIndexOfNth_total s p i g n :
  0 < n -> exists r,
    GetIndexOfNthWebStateOpenedBy s p i g n = Ok r /\
    (r = kInvalidIndex \/ i < r < count s).
Proof.
  intros Hn.
  assert (GetIndexOfNthWebStateOpenedBy s p i g n = Ok kInvalidIndex \/
          exists o, p = Some o /\ ContainsIndex s i = true /\ i <> INT_MAX)
    as [He | (o & -> & Hc & Hm)].
  { unfold GetIndexOfNthWebStateOpenedBy.
    rewrite dcheck_true by (by apply Z.ltb_lt). simpl.
    destruct p as [o|]; [| by left].
    destruct (ContainsIndex s i); simpl; [| by left].
    destruct (Z.eqb_spec i INT_MAX); [by left | right; eauto]. }
  { exists kInvalidIndex. split; [done | by left]. }
  apply ContainsIndex_spec in Hc. rewrite GetIndexOfNth_eq by done.
  eexists. split; [done |]. simpl.
  destruct (find_index _ _) as [k|] eqn:Hk; [right | by left].
  apply find_index_lt in Hk. rewrite length_drop in Hk.
  pose proof (prefix_len_le (opened_by o (opener_nav o g) g)
    (drop (S k) (drop (Z.to_nat (i + 1)) (web_state_wrappers_ s)))) as Hp.
  rewrite !length_drop in Hp. rewrite count_length in *. lia.
Qed.

Lemma DetermineNewActiveIndex_total s i :
  wf s -> 0 <= i < count s -> exists r,
    DetermineNewActiveIndex s i = Ok r /\
    (count s = 1 -> r = kInvalidIndex) /\
    (1 < count s -> 0 <= r < count s - 1).
Proof.
  intros [Hws _] Hi. unfold DetermineNewActiveIndex.
  rewrite dcheck_true by (by apply ContainsIndex_spec). simpl.
  destruct (GetWebStateAt_Ok s i Hi) as (w & Hw & ->). simpl.
  destruct (GetIndexOfNth_total s (web_state_ w) i false 1) as (r & Hr & Hrr);
    [lia |].
  unfold GetIndexOfNextWebStateOpenedBy. rewrite Hr. simpl.
  destruct (Z.eqb_spec r kInvalidIndex) as [-> | Hne]; simpl.
  2: { destruct Hrr as [? | Hrr]; [done |].
       eexists. split; [done |]. unfold GetValidIndex. case_bool; lia. }
  unfold GetOpenerOfWebStateAt.
  rewrite dcheck_true by (by apply ContainsIndex_spec). simpl.
  rewrite Hw. simpl.
  destruct (opener (opener_ w)) as [q|] eqn:Hq.
  - destruct (GetIndexOfNth_total s (Some q) i false 1) as (r2 & -> & Hrr2);
      [lia |]. simpl.
    destruct (opener_of_elem _ _ _ Hws Hw q Hq) as [Hin Hself].
    pose proof (GetIndexOfWebState_range s _ Hin) as Hrange.
    assert (GetIndexOfWebState s (Some q) <> i) as Hneq.
    { intros He. destruct (GetIndexOfWebState_Some s (Some q) i He) as (w' & Hw' & Hp).
      { unfold kInvalidIndex. lia. } congruence. }
    destruct (Z.eqb_spec r2 kInvalidIndex) as [-> | Hne2]; simpl;
      (eexists; split; [done |]); unfold GetValidIndex.
    + case_bool; lia.
    + destruct Hrr2 as [? | Hrr2]; [done |]. case_bool; lia.
  - unfold kInvalidIndex. destruct (Z.eqb_spec (count s) 1);
      [| case_bool]; (eexists; split; [done | lia]).
Qed.
End opener_queries.

(** ** Closed forms of the operations *)

(** Compares two states whose logs differ by associativity. *)
Ltac same_log :=
  unfold notify, tell, emit; simpl; rewrite <- ?app_assoc; simpl.

Definition to_observers (s : WebStateList) (e : observer_event)
    : list notification := (fun o => ToObserver o e) <$> observers_ s.

Definition fresh_wrapper (ws : WebState) : WebStateWrapper :=
  {| web_state_ := Some ws; opener_ := no_opener |}.

Section closed_forms.
Context `{OpenerNavigation} `{PageTransitionApi}.
Implicit Types (s : WebStateList).

Definition inserted s (i : Z) (ws : WebState) : WebStateList :=
  {| web_state_wrappers_ := vinsert i (fresh_wrapper ws) (web_state_wrappers_ s);
     active_index_ := if i <=? active_index_ s then active_index_ s + 1
                      else active_index_ s;
     observers_ := observers_ s;
     log := log s ++ ToDelegate (WillAddWebState (Some ws))
                  :: to_observers s (WebStateInsertedAt (Some ws) i) |}.

Lemma InsertWebState_eq s i ws :
  0 <= i <= count s -> InsertWebState i (Some ws) s = Ok (inserted s i ws).
Proof.
  intros Hi. unfold InsertWebState. rewrite dcheck_true.
  2: { apply orb_true_iff. destruct (Z.eq_dec i (count s)) as [->|].
       - right. by apply Z.eqb_refl.
       - left. apply ContainsIndex_spec. lia. }
  simpl. unfold inserted, to_observers, notify, emit, tell, set_wrappers,
    set_active, WebStateWrapper_new, fresh_wrapper. simpl.
  case_bool; simpl; by rewrite <- app_assoc.
Qed.

Lemma wf_inserted s i ws :
  wf s -> 0 <= i <= count s ->
  Some ws ∉ pointers (web_state_wrappers_ s) -> wf (inserted s i ws).
Proof.
  intros [Hws Ha] Hi Hfresh. split; simpl.
  - rewrite vinsert_Permutation. by apply (wrappers_ok_cons _ _ ws).
  - unfold count, inserted, kInvalidIndex in *. simpl.
    rewrite vsize_vinsert. case_bool; lia.
Qed.

Definition moved s (from to : Z) (w : WebStateWrapper) : WebStateList :=
  {| web_state_wrappers_ := vinsert to w (verase from (web_state_wrappers_ s));
     active_index_ := moved_active_index from to (active_index_ s);
     observers_ := observers_ s;
     log := log s ++ to_observers s (WebStateMoved (web_state_ w) from to) |}.

Lemma MoveWebStateAt_eq s from to :
  0 <= from < count s -> 0 <= to < count s ->
  exists w, vget (web_state_wrappers_ s) from = Ok w /\
    MoveWebStateAt from to s
    = Ok (if from =? to then s else moved s from to w).
Proof.
  intros Hf Ht. destruct (vget_in_range (web_state_wrappers_ s) from Hf) as [w Hw].
  exists w. split; [done |]. unfold MoveWebStateAt.
  rewrite !dcheck_true by (by apply ContainsIndex_spec). simpl.
  case_bool; [done |]. by rewrite Hw.
Qed.

Lemma wf_moved s from to w :
  wf s -> 0 <= from < count s -> 0 <= to < count s ->
  vget (web_state_wrappers_ s) from = Ok w -> wf (moved s from to w).
Proof.
  intros [Hws Ha] Hf Ht Hw. split; simpl.
  - rewrite vinsert_Permutation. by rewrite <- (verase_Permutation _ _ _ Hw).
  - unfold count, moved, moved_active_index, kInvalidIndex in *. simpl.
    rewrite vsize_vinsert, vsize_verase by done.
    case_bool; simpl; lia.
Qed.

Definition detached s (i r : Z) (w : WebStateWrapper) : WebStateList :=
  let p := web_state_ w in
  let wrappers := clear_opener p <$> verase i (web_state_wrappers_ s) in
  let active := if i <? active_index_ s then active_index_ s - 1
                else if active_index_ s =? i then r else active_index_ s in
  {| web_state_wrappers_ := wrappers;
     active_index_ := active;
     observers_ := observers_ s;
     log := log s ++ to_observers s (WillDetachWebStateAt p i)
              ++ to_observers s (WebStateDetachedAt p i)
              ++ (if active_index_ s =? i
                  then to_observers s
                         (WebStateActivatedAt p
                            (if r =? kInvalidIndex then None
                             else match vget wrappers r with
                                  | Ok x => web_state_ x | Fault => None end)
                            r false)
                  else [])
              ++ [ToDelegate (WebStateDetached p)] |}.

Lemma ClearOpeners_eq s i w :
  vget (web_state_wrappers_ s) i = Ok w ->
  ClearOpenersReferencing i s
  = Ok (set_wrappers (clear_opener (web_state_ w) <$> web_state_wrappers_ s) s).
Proof. intros Hw. unfold ClearOpenersReferencing. by rewrite Hw. Qed.

Lemma web_state_clear p w : web_state_ (clear_opener p w) = web_state_ w.
Proof. unfold clear_opener. by case_bool_decide. Qed.

(** The new active WebState is another one than the detached. *)
Lemma active_after_detach s i r w :
  wf s -> vget (web_state_wrappers_ s) i = Ok w ->
  (count s = 1 -> r = kInvalidIndex) ->
  (1 < count s -> 0 <= r < count s - 1) ->
  let wrappers := clear_opener (web_state_ w)
                    <$> verase i (web_state_wrappers_ s) in
  r = kInvalidIndex \/
  exists x, vget wrappers r = Ok x /\ web_state_ w <> web_state_ x.
Proof.
  intros [Hws _] Hw Hr1 Hr2 wrappers.
  pose proof (vget_count _ _ _ Hw) as Hi.
  destruct (Z.eq_dec (count s) 1); [left; auto | right].
  assert (vsize wrappers = count s - 1) as Hsize.
  { unfold wrappers. rewrite vsize_fmap, vsize_verase by done. done. }
  destruct (vget_in_range wrappers r) as [x Hx]; [lia |].
  exists x. split; [done |]. intros Heq.
  apply vget_Ok in Hx as [_ Hx]. apply list_elem_of_lookup_2 in Hx.
  destruct Hws as [Hnd _ _].
  rewrite (verase_Permutation _ _ _ Hw) in Hnd.
  apply NoDup_cons in Hnd as [Hnot _]. apply Hnot.
  unfold wrappers in Hx. apply list_elem_of_fmap in Hx as (y & -> & Hy).
  apply list_elem_of_fmap. exists y. by rewrite Heq, web_state_clear.
Qed.

Lemma DetachWebStateAt_eq s i :
  wf s -> 0 <= i < count s -> exists w r,
    vget (web_state_wrappers_ s) i = Ok w /\
    DetermineNewActiveIndex s i = Ok r /\
    (count s = 1 -> r = kInvalidIndex) /\
    (1 < count s -> 0 <= r < count s - 1) /\
    DetachWebStateAt i s = Ok (web_state_ w, detached s i r w).
Proof.
  intros Hwf Hi.
  destruct (DetermineNewActiveIndex_total s i Hwf Hi) as (r & Hr & Hr1 & Hr2).
  destruct (GetWebStateAt_Ok s i Hi) as (w & Hw & Hget).
  destruct (web_state_of_elem _ _ _ (wf_wrappers _ Hwf) Hw) as [p Hp].
  exists w, r. do 4 (split; [done |]). unfold DetachWebStateAt.
  rewrite dcheck_true by (by apply ContainsIndex_spec). simpl.
  rewrite Hr, Hget. simpl. rewrite (ClearOpeners_eq _ _ w) by done. simpl.
  rewrite (vget_fmap _ _ _ w) by done. simpl. unfold ReplaceWebState.
  rewrite web_state_clear, Hp. simpl. rewrite <- fmap_verase.
  pose proof (active_after_detach s i r w Hwf Hw Hr1 Hr2) as Hact.
  simpl in Hact. rewrite Hp in Hact.
  unfold detached, notify, emit, tell, set_active, to_observers. rewrite Hp.
  destruct (Z.eqb_spec i (active_index_ s)) as [Heq | Hne].
  - rewrite <- Heq, Z.ltb_irrefl, Z.eqb_refl.
    unfold NotifyIfActiveWebStateChanged, GetActiveWebState. simpl.
    destruct Hact as [-> | (x & Hx & Hneq)]; simpl.
    { by same_log. }
    pose proof (vget_range _ _ _ Hx) as Hrange.
    rewrite (proj2 (Z.eqb_neq r kInvalidIndex)) by (unfold kInvalidIndex; lia).
    unfold GetWebStateAt. rewrite dcheck_true
      by (apply ContainsIndex_spec; unfold count; simpl; lia).
    simpl. rewrite Hx. simpl. rewrite bool_decide_eq_false_2 by done.
    by same_log.
  - rewrite (proj2 (Z.eqb_neq (active_index_ s) i)) by lia.
    destruct (Z.ltb_spec i (active_index_ s)); by same_log.
Qed.

Lemma wf_detached s i r w :
  wf s -> vget (web_state_wrappers_ s) i = Ok w ->
  (count s = 1 -> r = kInvalidIndex) ->
  (1 < count s -> 0 <= r < count s - 1) -> wf (detached s i r w).
Proof.
  intros [Hws Ha] Hw Hr1 Hr2. pose proof (vget_count _ _ _ Hw) as Hi. split; simpl.
  - apply wrappers_ok_clear_tail. by rewrite <- (verase_Permutation _ _ _ Hw).
  - unfold count in *. simpl. rewrite vsize_fmap, vsize_verase by done.
    unfold kInvalidIndex in *. case_bool; lia.
Qed.
End closed_forms.

Section preservation.
Context `{OpenerNavigation} `{PageTransitionApi}.
Implicit Types (s : WebStateList).

Lemma wf_emit s n : wf s -> wf (emit n s).
Proof. by intros []. Qed.

Lemma wf_notify s e : wf s -> wf (notify e s).
Proof. by intros []. Qed.

Lemma CloseWebStateAt_eq s i w r :
  DetachWebStateAt i s = Ok (web_state_ w, detached s i r w) ->
  CloseWebStateAt i s
  = Ok (emit [Destroyed (web_state_ w)]
          (notify (WillCloseWebStateAt (web_state_ w) i) (detached s i r w))).
Proof. intros Hd. unfold CloseWebStateAt. by rewrite Hd. Qed.

Lemma CloseWebStateAt_wf s i :
  wf s -> 0 <= i < count s ->
  exists s', CloseWebStateAt i s = Ok s' /\ wf s' /\ count s' = count s - 1 /\
             observers_ s' = observers_ s.
Proof.
  intros Hwf Hi.
  destruct (DetachWebStateAt_eq s i Hwf Hi) as (w & r & Hw & _ & Hr1 & Hr2 & Hd).
  eexists. split; [by apply CloseWebStateAt_eq |]. split_and!; [| | done].
  - by apply wf_emit, wf_notify, wf_detached.
  - unfold count. simpl. by rewrite vsize_fmap, vsize_verase.
Qed.

Lemma empty_count s : empty s = true <-> count s = 0.
Proof.
  unfold empty, count, vsize. rewrite bool_decide_eq_true.
  destruct (web_state_wrappers_ s); simpl; split; try done; lia.
Qed.

Lemma close_all_loop_Ok fuel s :
  wf s -> (length (web_state_wrappers_ s) <= fuel)%nat ->
  exists s', close_all_loop fuel s = Ok s' /\ wf s' /\ count s' = 0 /\
             observers_ s' = observers_ s.
Proof.
  revert s. induction fuel as [| fuel IH]; intros s Hwf Hfuel; simpl;
    destruct (empty s) eqn:He; try (apply empty_count in He; by exists s).
  - exfalso. assert (empty s = true); [| congruence].
    apply empty_count. rewrite count_length. lia.
  - assert (count s <> 0) as Hne.
    { intros ?%empty_count. congruence. }
    destruct (CloseWebStateAt_wf s (count s - 1) Hwf) as (s1 & -> & Hwf1 & Hc & Ho).
    { rewrite count_length in *. lia. }
    simpl. rewrite <- Ho. apply IH; [done |].
    rewrite !count_length in *. lia.
Qed.

Lemma ActivateWebStateAt_wf s i :
  kInvalidIndex <= active_index_ s < count s -> 0 <= i < count s ->
  exists n, ActivateWebStateAt i s = Ok (emit n (set_active i s)).
Proof.
  intros Ha Hi. unfold ActivateWebStateAt.
  rewrite dcheck_true by (by apply ContainsIndex_spec). simpl.
  assert (exists old, GetActiveWebState s = Ok old) as [old ->].
  { unfold GetActiveWebState.
    case_bool; [by eexists |]. unfold kInvalidIndex in *.
    destruct (GetWebStateAt_Ok s (active_index_ s)) as (w & _ & ->); [lia |].
    by eexists. }
  simpl. unfold NotifyIfActiveWebStateChanged, GetActiveWebState. simpl.
  rewrite (proj2 (Z.eqb_neq i kInvalidIndex)) by (unfold kInvalidIndex; lia).
  destruct (GetWebStateAt_Ok (set_active i s) i) as (w & _ & ->); [done |].
  simpl. case_bool_decide; [| by eexists].
  exists []. unfold emit. simpl. rewrite app_nil_r. by destruct s.
Qed.

Definition opener_set s (i : Z) (o : WebStateOpener) (w : WebStateWrapper) :=
  set_wrappers (vset i (set_opener o w) (web_state_wrappers_ s)) s.

Lemma SetOpener_eq s i o w p :
  vget (web_state_wrappers_ s) i = Ok w -> opener o = Some p ->
  Some p ∈ pointers (web_state_wrappers_ s) ->
  SetOpenerOfWebStateAt i o s = Ok (opener_set s i o w).
Proof.
  intros Hw Ho Hp. pose proof (vget_count _ _ _ Hw) as Hi.
  unfold SetOpenerOfWebStateAt.
  rewrite (dcheck_true (ContainsIndex s i)) by (by apply ContainsIndex_spec).
  simpl. rewrite Ho, dcheck_true; [by simpl; rewrite Hw |].
  by apply ContainsIndex_spec, GetIndexOfWebState_range.
Qed.

Lemma pointers_vset l i o w :
  vget l i = Ok w -> pointers (vset i (set_opener o w) l) = pointers l.
Proof.
  intros [Hi Hw]%vget_Ok. rewrite vset_in_range by done. unfold pointers.
  rewrite list_fmap_insert. simpl. apply list_insert_id.
  by rewrite list_lookup_fmap, Hw.
Qed.

Lemma wf_opener_set s i o w p :
  wf s -> vget (web_state_wrappers_ s) i = Ok w -> opener o = Some p ->
  Some p ∈ pointers (web_state_wrappers_ s) -> web_state_ w <> Some p ->
  wf (opener_set s i o w).
Proof.
  intros [[Hnd Hnn Hop] Ha] Hw Ho Hp Hne. pose proof Hw as Hw'.
  apply vget_Ok in Hw' as [Hi Hw']. split; [split |]; simpl.
  - by rewrite pointers_vset.
  - rewrite vset_in_range by done. apply Forall_insert; [done |]. simpl.
    by eapply Forall_lookup_1 in Hnn.
  - rewrite pointers_vset, vset_in_range by done. apply Forall_insert; [done |].
    intros q Hq. simpl in *. by simplify_eq.
  - unfold count in *. simpl. by rewrite vsize_vset.
Qed.

Definition replaced s (i : Z) (ws : WebState) (w : WebStateWrapper)
    : WebStateList :=
  let p := web_state_ w in
  {| web_state_wrappers_ :=
       vset i (fresh_wrapper ws) (clear_opener p <$> web_state_wrappers_ s);
     active_index_ := active_index_ s;
     observers_ := observers_ s;
     log := log s ++ ToDelegate (WillAddWebState (Some ws))
              :: to_observers s (WebStateReplacedAt p (Some ws) i)
              ++ [ToDelegate (WebStateDetached p)] |}.

Lemma ReplaceWebStateAt_eq s i ws w :
  vget (web_state_wrappers_ s) i = Ok w -> web_state_ w <> Some ws ->
  ReplaceWebStateAt i (Some ws) s = Ok (web_state_ w, replaced s i ws w).
Proof.
  intros Hw Hne. pose proof (vget_count _ _ _ Hw) as Hi.
  unfold ReplaceWebStateAt.
  rewrite dcheck_true by (by apply ContainsIndex_spec). simpl.
  rewrite (ClearOpeners_eq _ _ w) by done. simpl.
  rewrite (vget_fmap _ _ _ w) by done. simpl. unfold ReplaceWebState.
  rewrite web_state_clear, dcheck_true by (by apply bool_decide_eq_true).
  simpl. unfold replaced, to_observers. by same_log.
Qed.

Lemma wf_replaced s i ws w :
  wf s -> vget (web_state_wrappers_ s) i = Ok w ->
  Some ws ∉ pointers (web_state_wrappers_ s) -> wf (replaced s i ws w).
Proof.
  intros [Hws Ha] Hw Hfresh. pose proof (vget_count _ _ _ Hw) as Hi.
  split; simpl.
  - rewrite vset_Permutation by by rewrite vsize_fmap.
    rewrite <- fmap_verase. apply (wrappers_ok_cons _ _ ws); [done | | done |].
    + rewrite pointers_clear. intros Hin. apply Hfresh.
      rewrite (verase_Permutation _ _ _ Hw). by right.
    + apply wrappers_ok_clear_tail. by rewrite <- (verase_Permutation _ _ _ Hw).
  - unfold count in *. simpl. by rewrite vsize_vset, vsize_fmap.
Qed.
End preservation.

Section reachability.
Context `{OpenerNavigation} `{PageTransitionApi}.
Implicit Types (s : WebStateList).

Lemma DetermineInsertionIndex_total s transition (o : option WebState) :
  count s <= INT_MAX ->
  (forall p, o = Some p -> Some p ∈ pointers (web_state_wrappers_ s)) ->
  exists k, DetermineInsertionIndex s transition o = Ok k /\ 0 <= k <= count s.
Proof.
  intros Hmax Ho. pose proof (vsize_nonneg (web_state_wrappers_ s)) as Hc.
  fold (count s) in Hc. unfold DetermineInsertionIndex.
  destruct o as [p|]; [| by exists (count s)].
  destruct (negb _); [by exists (count s) |].
  pose proof (GetIndexOfWebState_range s _ (Ho p eq_refl)) as Hr.
  rewrite (dcheck_true (negb _))
    by (unfold kInvalidIndex; case_bool; done). simpl.
  destruct (GetIndexOfNth_total s (Some p) (GetIndexOfWebState s (Some p)) true
              INT_MAX) as (r & Hn & Hr2); [unfold INT_MAX; lia |].
  unfold GetIndexOfLastWebStateOpenedBy. rewrite Hn. simpl.
  destruct (Z.eqb_spec r kInvalidIndex) as [| Hne]; simpl.
  - rewrite dcheck_true by (apply Z.ltb_lt; lia).
    eexists. split; [done | lia].
  - destruct Hr2 as [? | Hr2]; [done |].
    rewrite dcheck_true by (apply Z.ltb_lt; lia).
    eexists. split; [done | lia].
Qed.

Lemma elem_of_pointers_inserted s i ws p :
  p ∈ pointers (web_state_wrappers_ s) ->
  p ∈ pointers (web_state_wrappers_ (inserted s i ws)).
Proof. intros Hp. simpl. rewrite vinsert_Permutation. by right. Qed.

Lemma AppendWebState_eq s transition ws o :
  count s <= INT_MAX ->
  (forall p, opener o = Some p -> Some p ∈ pointers (web_state_wrappers_ s)) ->
  exists k, DetermineInsertionIndex s transition (opener o) = Ok k /\
    0 <= k <= count s /\
    AppendWebState transition (Some ws) o s
    = Ok (match opener o with
          | None => inserted s k ws
          | Some _ => opener_set (inserted s k ws) k o (fresh_wrapper ws)
          end).
Proof.
  intros Hmax Ho.
  destruct (DetermineInsertionIndex_total s transition (opener o) Hmax Ho)
    as (k & Hk & Hr).
  exists k. do 2 (split; [done |]). unfold AppendWebState. rewrite Hk. simpl.
  rewrite (proj2 (Z.ltb_ge k 0)), (proj2 (Z.ltb_ge (count s) k)) by lia. simpl.
  rewrite InsertWebState_eq by done. simpl.
  destruct (opener o) as [p|] eqn:Hp; [| done].
  apply (SetOpener_eq _ _ _ _ p); [| done |].
  - simpl. by apply vget_vinsert_eq.
  - apply elem_of_pointers_inserted. auto.
Qed.

(** What a caller of the public interface has to ensure: indices are in
    range, a WebState handed over is owned by nobody else (so it is not in
    the list), an opener is another WebState of the list. *)
Definition request_pre (r : request) s : Prop :=
  let fresh ws := Some ws ∉ pointers (web_state_wrappers_ s) in
  match r with
  | RSetOpener i o =>
      exists p w, opener o = Some p /\
        Some p ∈ pointers (web_state_wrappers_ s) /\
        vget (web_state_wrappers_ s) i = Ok w /\ web_state_ w <> Some p
  | RInsert i ws => 0 <= i <= count s /\ fresh ws
  | RAppend _ ws o =>
      count s <= INT_MAX /\ fresh ws /\
      (forall p, opener o = Some p ->
                 Some p ∈ pointers (web_state_wrappers_ s))
  | RMove i j => 0 <= i < count s /\ 0 <= j < count s
  | RReplace i ws => 0 <= i < count s /\ fresh ws
  | RDetach i | RClose i | RActivate i => 0 <= i < count s
  | RAddObserver o => o ∉ observers_ s
  | RCloseAll | RRemoveObserver _ => True
  end.

Lemma step_RSetOpener_wf i o s :
  wf s -> request_pre (RSetOpener i o) s ->
  exists s', step (RSetOpener i o) s = Ok s' /\ wf s'.
Proof.
  intros Hwf (p & w & Ho & Hp & Hw & Hne). eexists.
  split; [by eapply SetOpener_eq | by eapply wf_opener_set].
Qed.

Lemma step_RAppend_wf transition ws o s :
  wf s -> request_pre (RAppend transition ws o) s ->
  exists s', step (RAppend transition ws o) s = Ok s' /\ wf s'.
Proof.
  intros Hwf (Hmax & Hf & Ho).
  destruct (AppendWebState_eq s transition ws o Hmax Ho) as (k & _ & Hk & Happ).
  eexists. split; [exact Happ |].
  destruct (opener o) as [p|] eqn:Hp; [| by apply wf_inserted].
  eapply (wf_opener_set _ _ _ _ p); [by apply wf_inserted | | done | |].
  - by apply vget_vinsert_eq.
  - apply elem_of_pointers_inserted. auto.
  - simpl. intros [= ->]. apply Hf. auto.
Qed.

Lemma step_RReplace_wf i ws s :
  wf s -> request_pre (RReplace i ws) s ->
  exists s', step (RReplace i ws) s = Ok s' /\ wf s'.
Proof.
  intros Hwf [Hi Hf].
  destruct (vget_in_range (web_state_wrappers_ s) i Hi) as [w Hw].
  exists (replaced s i ws w). split; [| by apply wf_replaced].
  simpl. rewrite (ReplaceWebStateAt_eq _ _ _ w); [done | done |].
  intros Heq. apply Hf. rewrite (verase_Permutation _ _ _ Hw), <- Heq. by left.
Qed.

(** C8.  Progress and preservation of the tab list: in a well-formed list
    (distinct non-null WebStates, active index in range or invalid, openers
    that are other WebStates of the list) every request of the public
    interface whose caller obligations hold runs to the end without a
    failed check and leaves a well-formed list. *)
Theorem step_preserves_wf r s :
  wf s -> request_pre r s -> exists s', step r s = Ok s' /\ wf s'.
Proof.
  intros Hwf Hpre. destruct r as [i o|i ws|t ws o|i j|i ws|i|i| |i|o|o].
  - by apply step_RSetOpener_wf.
  - destruct Hpre. eexists. split; [by apply InsertWebState_eq | by apply wf_inserted].
  - by apply step_RAppend_wf.
  - destruct Hpre as [Hi Hj].
    destruct (MoveWebStateAt_eq s i j Hi Hj) as (w & Hw & Hm).
    eexists. split; [exact Hm |]. case_bool; [done | by apply wf_moved].
  - by apply step_RReplace_wf.
  - destruct (DetachWebStateAt_eq s i Hwf Hpre) as (w & r & Hw & _ & ? & ? & Hd).
    exists (detached s i r w). simpl. rewrite Hd. split; [done | by apply wf_detached].
  - destruct (CloseWebStateAt_wf s i Hwf Hpre) as (s' & ? & ? & _). eauto.
  - destruct (close_all_loop_Ok (length (web_state_wrappers_ s)) s Hwf)
      as (s' & ? & ? & _); [lia | eauto].
  - destruct (ActivateWebStateAt_wf s i (wf_active _ Hwf) Hpre) as [n Hn].
    exists (emit n (set_active i s)). split; [done |]. apply wf_emit.
    destruct Hwf. split; [done |]. simpl in *. unfold count in *. simpl.
    unfold kInvalidIndex. lia.
  - eexists. simpl. unfold AddObserver. simpl in Hpre.
    rewrite bool_decide_eq_false_2 by done. split; [done | by destruct Hwf].
  - eexists. split; [done | by destruct Hwf].
Qed.

(** States reached from the empty list. *)
Inductive reachable : WebStateList -> Prop :=
| reach_new : reachable WebStateList_new
| reach_step r s s' :
    reachable s -> request_pre r s -> step r s = Ok s' -> reachable s'.

Lemma reachable_wf s : reachable s -> wf s.
Proof.
  induction 1 as [| r s s' _ Hwf Hpre Hstep].
  - split; [| done]. by split; constructor.
  - destruct (step_preserves_wf r s Hwf Hpre) as (s1 & Heq & ?). congruence.
Qed.
End reachability.

(** ** What the operations do *)

Section functional.
Context `{OpenerNavigation} `{PageTransitionApi}.
Implicit Types (s : WebStateList).

(** The active WebState read from the vector, without the range check. *)
Definition active_pointer s : chk (option WebState) :=
  if active_index_ s =? kInvalidIndex then Ok None
  else x ← vget (web_state_wrappers_ s) (active_index_ s); Ok (web_state_ x).

Lemma GetActiveWebState_eq s :
  wf s -> GetActiveWebState s = active_pointer s.
Proof.
  intros [_ Ha]. unfold GetActiveWebState, active_pointer, GetWebStateAt.
  destruct (Z.eqb_spec (active_index_ s) kInvalidIndex); [done |].
  rewrite dcheck_true; [done |]. apply ContainsIndex_spec.
  unfold kInvalidIndex in *. lia.
Qed.

Lemma vget_shift_insert {A} (l : list A) i k x :
  0 <= k -> 0 <= i <= vsize l ->
  vget (vinsert i x l) (if i <=? k then k + 1 else k) = vget l k.
Proof.
  intros Hk Hi. destruct (Z.leb_spec i k).
  - apply vget_vinsert_ge; lia.
  - apply vget_vinsert_lt; lia.
Qed.

Lemma vget_shift_erase {A} (l : list A) i k :
  0 <= k -> 0 <= i -> k <> i ->
  vget (verase i l) (if i <? k then k - 1 else k) = vget l k.
Proof.
  intros Hk Hi Hne. destruct (Z.ltb_spec i k).
  - rewrite vget_verase_ge by lia. f_equal. lia.
  - apply vget_verase_lt. lia.
Qed.

Lemma vget_shift_move {A} (l : list A) i j k w :
  0 <= k -> 0 <= i < vsize l -> 0 <= j < vsize l -> i <> j ->
  vget l i = Ok w ->
  vget (vinsert j w (verase i l)) (moved_active_index i j k) = vget l k.
Proof.
  intros Hk Hi Hj Hij Hw. pose proof (vsize_verase l i Hi) as Hsize.
  unfold moved_active_index. destruct (Z.eqb_spec k i) as [-> | Hne].
  { rewrite vget_vinsert_eq by lia. by rewrite Hw. }
  set (k' := if i <? k then k - 1 else k).
  assert (0 <= k') by (unfold k'; case_bool; lia).
  rewrite <- (vget_shift_erase l i k) by lia. fold k'.
  rewrite <- (vget_shift_insert (verase i l) j k' w) by lia. f_equal.
  unfold k'. case_bool; simpl; lia.
Qed.

Lemma active_inserted s i ws :
  wf s -> 0 <= i <= count s ->
  active_pointer (inserted s i ws) = active_pointer s.
Proof.
  intros [_ Ha] Hi. unfold active_pointer, kInvalidIndex in *. simpl.
  destruct (Z.eqb_spec (active_index_ s) (-1)) as [Hm | Hm].
  { rewrite Hm, (proj2 (Z.leb_gt i (-1))) by lia. done. }
  rewrite vget_shift_insert by (unfold count in *; lia).
  rewrite (proj2 (Z.eqb_neq _ _)); [done |]. case_bool; lia.
Qed.

Lemma active_moved s i j w :
  wf s -> 0 <= i < count s -> 0 <= j < count s -> i <> j ->
  vget (web_state_wrappers_ s) i = Ok w ->
  active_pointer (moved s i j w) = active_pointer s.
Proof.
  intros [_ Ha] Hi Hj Hij Hw. unfold active_pointer, kInvalidIndex in *. simpl.
  destruct (Z.eqb_spec (active_index_ s) (-1)) as [Hm | Hm].
  { rewrite Hm. replace (moved_active_index i j (-1)) with (-1); [done |].
    unfold moved_active_index. case_bool; simpl; lia. }
  rewrite vget_shift_move by (unfold count in *; done || lia).
  rewrite (proj2 (Z.eqb_neq _ _)); [done |].
  unfold moved_active_index. case_bool; simpl; lia.
Qed.

Lemma active_detached s i r w :
  wf s -> i <> active_index_ s -> vget (web_state_wrappers_ s) i = Ok w ->
  active_pointer (detached s i r w) = active_pointer s.
Proof.
  intros [_ Ha] Hne Hw. pose proof (vget_count _ _ _ Hw) as Hi.
  unfold active_pointer, kInvalidIndex in *. simpl.
  rewrite (proj2 (Z.eqb_neq (active_index_ s) i)) by lia.
  destruct (Z.eqb_spec (active_index_ s) (-1)) as [Hm | Hm].
  { rewrite Hm, (proj2 (Z.ltb_ge i (-1))) by lia. done. }
  destruct (vget_in_range (web_state_wrappers_ s) (active_index_ s)) as [x Hx];
    [unfold count in *; lia |].
  rewrite Hx. simpl.
  rewrite (vget_fmap _ _ _ x)
    by (rewrite vget_shift_erase by lia; done).
  simpl. rewrite web_state_clear.
  rewrite (proj2 (Z.eqb_neq _ _)); [done |]. case_bool; lia.
Qed.

(** C9.  Inserting a tab anywhere, moving a tab and detaching a tab other
    than the active one leave the active WebState the same object: the
    index arithmetic follows the shift of the vector. *)
Theorem active_web_state_stable r s s' :
  wf s -> request_pre r s -> step r s = Ok s' ->
  match r with
  | RInsert _ _ | RMove _ _ => True
  | RDetach i => i <> active_index_ s
  | _ => False
  end ->
  GetActiveWebState s' = GetActiveWebState s.
Proof.
  intros Hwf Hpre Hs Hr.
  assert (wf s') as Hwf'.
  { destruct (step_preserves_wf r s Hwf Hpre) as (s1 & ? & ?). congruence. }
  rewrite !GetActiveWebState_eq by done.
  destruct r as [ |i ws| |i j| |i| | | | | ]; try done; simpl in Hs.
  - destruct Hpre as [Hi _]. rewrite InsertWebState_eq in Hs by done.
    simplify_eq. by apply active_inserted.
  - destruct Hpre as [Hi Hj].
    destruct (MoveWebStateAt_eq s i j Hi Hj) as (w & Hw & Hm).
    rewrite Hm in Hs. simplify_eq. case_bool; [done |]. by apply active_moved.
  - destruct (DetachWebStateAt_eq s i Hwf Hpre) as (w & k & Hw & _ & _ & _ & Hd).
    rewrite Hd in Hs. injection Hs as <-. by apply active_detached.
Qed.
End functional.

Section search_results.
Context `{OpenerNavigation} `{PageTransitionApi}.
Implicit Types (s : WebStateList) (o : WebState).

(** [r] is the first index after [i] of a WebState opened by [o]. *)
Definition first_opened_after s o g i r : Prop :=
  i < r < count s /\ opened_at s o g r true /\
  (forall j, i < j < r -> opened_at s o g j false).

(** No WebState after [i] was opened by [o]. *)
Definition none_opened_after s o g i : Prop :=
  forall j, i < j < count s -> opened_at s o g j false.

Lemma opened_at_drop s o g i k b :
  0 <= i ->
  (exists w, drop (Z.to_nat (i + 1)) (web_state_wrappers_ s) !! k = Some w /\
             opened_by o (opener_nav o g) g w = b) <->
  opened_at s o g (i + 1 + Z.of_nat k) b.
Proof.
  intros Hi. unfold opened_at. split; intros (w & Hw & Hb);
    exists w; (split; [by apply drop_lookup_vget | done]).
Qed.

Lemma first_opened_find s o g i k :
  0 <= i ->
  find_index (opened_by o (opener_nav o g) g)
    (drop (Z.to_nat (i + 1)) (web_state_wrappers_ s)) = Some k ->
  first_opened_after s o g i (i + 1 + Z.of_nat k).
Proof.
  intros Hi Hk. pose proof (find_index_lt _ _ _ Hk) as Hlt.
  rewrite length_drop in Hlt. apply find_index_Some in Hk as [Hex Hmin].
  unfold first_opened_after. rewrite count_length. split; [lia | split].
  - by apply opened_at_drop.
  - intros j Hj. replace j with (i + 1 + Z.of_nat (Z.to_nat (j - i - 1))) by lia.
    apply opened_at_drop; [done |].
    destruct (lookup_lt_is_Some_2
                (drop (Z.to_nat (i + 1)) (web_state_wrappers_ s))
                (Z.to_nat (j - i - 1))) as [w Hw]; [rewrite length_drop; lia |].
    exists w. split; [done |]. eapply Hmin; [| exact Hw]; lia.
Qed.

Lemma none_opened_find s o g i :
  0 <= i ->
  find_index (opened_by o (opener_nav o g) g)
    (drop (Z.to_nat (i + 1)) (web_state_wrappers_ s)) = None ->
  none_opened_after s o g i.
Proof.
  intros Hi Hk j Hj. rewrite find_index_None in Hk. rewrite count_length in Hj.
  replace j with (i + 1 + Z.of_nat (Z.to_nat (j - i - 1))) by lia.
  apply opened_at_drop; [done |].
  destruct (lookup_lt_is_Some_2
              (drop (Z.to_nat (i + 1)) (web_state_wrappers_ s))
              (Z.to_nat (j - i - 1))) as [w Hw]; [rewrite length_drop; lia |].
  exists w. split; [done | by eapply Hk].
Qed.

(** [GetIndexOfNextWebStateOpenedBy] returns the first WebState after
    [start_index] opened by the opener, and [GetIndexOfLastWebStateOpenedBy]
    the end of the first contiguous run of them; both return
    [kInvalidIndex] exactly when there is none. *)
Lemma opened_by_search_spec s o i g :
  0 <= i < count s -> count s <= INT_MAX ->
  exists next last,
    GetIndexOfNextWebStateOpenedBy s (Some o) i g = Ok next /\
    GetIndexOfLastWebStateOpenedBy s (Some o) i g = Ok last /\
    ((next = kInvalidIndex /\ last = kInvalidIndex /\
      none_opened_after s o g i) \/
     (first_opened_after s o g i next /\ next <= last < count s /\
      (forall j, next <= j <= last -> opened_at s o g j true) /\
      (last + 1 < count s -> opened_at s o g (last + 1) false))).
Proof.
  intros Hi Hmax. unfold GetIndexOfNextWebStateOpenedBy,
    GetIndexOfLastWebStateOpenedBy.
  rewrite !GetIndexOfNth_eq by (unfold INT_MAX in *; lia).
  do 2 eexists. do 2 (split; [done |]). simpl.
  set (ws := drop (Z.to_nat (i + 1)) (web_state_wrappers_ s)).
  destruct (find_index _ ws) as [k|] eqn:Hk.
  2: { left. do 2 (split; [done |]). apply none_opened_find; [lia | exact Hk]. }
  right. pose proof (find_index_lt _ _ _ Hk) as Hlt.
  pose proof (prefix_len_le (opened_by o (opener_nav o g) g) (drop (S k) ws)) as Hp.
  set (m := prefix_len _ _) in *.
  rewrite length_drop in Hp. unfold ws in Hlt, Hp. rewrite length_drop in Hlt, Hp.
  rewrite count_length in *.
  assert (first_opened_after s o g i (i + 1 + Z.of_nat k)) as Hfirst
    by (apply first_opened_find; [lia | exact Hk]).
  replace (i + 1 + Z.of_nat k + (1 - 1) `min` Z.of_nat m)
    with (i + 1 + Z.of_nat k) by lia.
  rewrite (Z.min_r (INT_MAX - 1)) by lia.
  split; [done |]. split; [lia |]. split.
  - intros j Hj. destruct (Z.eq_dec j (i + 1 + Z.of_nat k)) as [-> | Hne];
      [apply Hfirst |].
    replace j with (i + 1 + Z.of_nat (Z.to_nat (j - i - 1))) by lia.
    apply opened_at_drop; [lia |]. fold ws.
    destruct (lookup_lt_is_Some_2 ws (Z.to_nat (j - i - 1))) as [w Hw];
      [unfold ws; rewrite length_drop; lia |].
    exists w. split; [done |].
    apply (prefix_len_spec _ (drop (S k) ws) (Z.to_nat (j - i - 1) - S k));
      [fold m; lia |].
    rewrite lookup_drop. replace (S k + _)%nat with (Z.to_nat (j - i - 1)) by lia.
    done.
  - intros Hlast.
    replace (i + 1 + Z.of_nat k + Z.of_nat m + 1)
      with (i + 1 + Z.of_nat (S k + m)) by lia.
    apply opened_at_drop; [lia |]. fold ws.
    destruct (lookup_lt_is_Some_2 ws (S k + m)) as [w Hw];
      [unfold ws; rewrite length_drop; lia |].
    exists w. split; [done |]. apply (prefix_len_stop _ (drop (S k) ws)).
    by rewrite lookup_drop.
Qed.
End search_results.

Section selection.
Context `{OpenerNavigation} `{PageTransitionApi}.
Implicit Types (s : WebStateList) (o : WebState).

Lemma next_opened_first s o i r :
  0 <= i < count s -> count s <= INT_MAX -> first_opened_after s o false i r ->
  GetIndexOfNextWebStateOpenedBy s (Some o) i false = Ok r.
Proof.
  intros Hi Hmax (Hr & (w & Hw & Hwt) & Hrmin).
  destruct (opened_by_search_spec s o i false Hi Hmax)
    as (n & l & -> & _ & [(-> & _ & Hnone) | ((Hn & (x & Hx & Hxt) & Hnmin) & _)]).
  - destruct (Hnone r Hr) as (x & Hx & Hxf). congruence.
  - f_equal. destruct (Z.lt_trichotomy n r) as [Hlt | [-> | Hlt]]; [| done |].
    + destruct (Hrmin n) as (y & Hy & Hyf); [lia | congruence].
    + destruct (Hnmin r) as (y & Hy & Hyf); [lia | congruence].
Qed.

Lemma next_opened_none s o i :
  0 <= i < count s -> count s <= INT_MAX -> none_opened_after s o false i ->
  GetIndexOfNextWebStateOpenedBy s (Some o) i false = Ok kInvalidIndex.
Proof.
  intros Hi Hmax Hnone.
  destruct (opened_by_search_spec s o i false Hi Hmax)
    as (n & l & -> & _ & [(-> & _ & _) | ((Hn & (x & Hx & Hxt) & _) & _)]); [done |].
  destruct (Hnone n Hn) as (y & Hy & Hyf). congruence.
Qed.

(**  Closing the active tab when a later tab was opened by it selects
    index 0: [GetValidIndex] takes the minimum of 0 and the child's shifted
    index, so the first tab of the window becomes active whatever the
    position of the child. *)
Lemma close_active_with_child_selects_first s i w o child :
  wf s -> count s <= INT_MAX -> active_index_ s = i ->
  vget (web_state_wrappers_ s) i = Ok w -> web_state_ w = Some o ->
  first_opened_after s o false i child ->
  exists s', DetachWebStateAt i s = Ok (Some o, s') /\ active_index_ s' = 0.
Proof.
  intros Hwf Hmax Ha Hw Ho Hchild. pose proof (vget_count _ _ _ Hw) as Hi.
  destruct (DetachWebStateAt_eq s i Hwf Hi) as (w' & r & Hw' & Hr & _ & _ & Hd).
  assert (w' = w) as -> by congruence. rewrite Ho in Hd. subst i.
  exists (detached s (active_index_ s) r w). split; [exact Hd |]. simpl. rewrite Z.ltb_irrefl, Z.eqb_refl.
  unfold DetermineNewActiveIndex in Hr.
  rewrite dcheck_true in Hr by (by apply ContainsIndex_spec). simpl in Hr.
  destruct (GetWebStateAt_Ok s _ Hi) as (x & Hx & Hget).
  assert (x = w) as -> by congruence. rewrite Hget in Hr. simpl in Hr.
  rewrite Ho, (next_opened_first _ _ _ child) in Hr by done. simpl in Hr.
  destruct Hchild as [Hc _].
  rewrite (proj2 (Z.eqb_neq child kInvalidIndex)) in Hr
    by (unfold kInvalidIndex; lia).
  injection Hr as <-. unfold GetValidIndex. case_bool; lia.
Qed.

(** Closing the active tab, when it has no opener and opened no later
    tab, selects its right neighbour, or the left one when it is the last;
    the selection is cleared when it was alone. *)
Lemma close_active_selects_neighbour s i w o :
  wf s -> count s <= INT_MAX -> active_index_ s = i ->
  vget (web_state_wrappers_ s) i = Ok w -> web_state_ w = Some o ->
  opener (opener_ w) = None -> none_opened_after s o false i ->
  exists s', DetachWebStateAt i s = Ok (Some o, s') /\
    GetActiveWebState s'
    = if count s =? 1 then Ok None
      else if i =? count s - 1 then GetWebStateAt s (i - 1)
      else GetWebStateAt s (i + 1).
Proof.
  intros Hwf Hmax Ha Hw Ho Hop Hnone. pose proof (vget_count _ _ _ Hw) as Hi.
  destruct (DetachWebStateAt_eq s i Hwf Hi) as (w' & r & Hw' & Hr & Hr1 & Hr2 & Hd).
  assert (w' = w) as -> by congruence. rewrite Ho in Hd. subst i.
  exists (detached s (active_index_ s) r w). split; [exact Hd |]. rewrite GetActiveWebState_eq by (by apply wf_detached).
  assert (r = if count s =? 1 then kInvalidIndex
              else if count s - 1 <=? active_index_ s
                   then active_index_ s - 1 else active_index_ s) as ->.
  { unfold DetermineNewActiveIndex in Hr.
    rewrite dcheck_true in Hr by (by apply ContainsIndex_spec). simpl in Hr.
    destruct (GetWebStateAt_Ok s _ Hi) as (x & Hx & Hget).
    assert (x = w) as -> by congruence. rewrite Hget in Hr. simpl in Hr.
    rewrite Ho, next_opened_none in Hr by done. simpl in Hr.
    unfold GetOpenerOfWebStateAt in Hr.
    rewrite dcheck_true in Hr by (by apply ContainsIndex_spec). simpl in Hr.
    rewrite Hw in Hr. simpl in Hr. rewrite Hop in Hr.
    revert Hr. case_bool; by intros [= <-]. }
  unfold active_pointer. simpl. rewrite Z.ltb_irrefl, Z.eqb_refl.
  destruct (Z.eqb_spec (count s) 1) as [H1 | H1]; [done |].
  assert (forall k, 0 <= k < count s -> k <> active_index_ s ->
    (x ← vget (clear_opener (web_state_ w) <$>
           verase (active_index_ s) (web_state_wrappers_ s))
           (if active_index_ s <? k then k - 1 else k); Ok (web_state_ x))
    = GetWebStateAt s k) as Hget.
  { intros k Hk Hne. destruct (GetWebStateAt_Ok s k Hk) as (x & Hx & ->).
    rewrite (vget_fmap _ _ _ x) by (rewrite vget_shift_erase by lia; done).
    simpl. by rewrite web_state_clear. }
  unfold kInvalidIndex in *.
  destruct (Z.eqb_spec (active_index_ s) (count s - 1)) as [Hl | Hl].
  - rewrite (proj2 (Z.leb_le _ _)) by lia.
    rewrite (proj2 (Z.eqb_neq _ _)) by lia.
    rewrite <- Hget by lia. case_bool. done.
  - rewrite (proj2 (Z.leb_gt _ _)) by lia.
    rewrite (proj2 (Z.eqb_neq _ _)) by lia.
    rewrite <- Hget by lia. case_bool. by rewrite Z.add_simpl_r.
Qed.
End selection.

Section closing_all.
Context `{OpenerNavigation} `{PageTransitionApi}.
Implicit Types (s : WebStateList).

(** The WebStates a log destroys, in order. *)
Definition destroyed (l : list notification) : list (option WebState) :=
  omap (fun n => match n with Destroyed p => Some p | _ => None end) l.

Lemma destroyed_app l k : destroyed (l ++ k) = destroyed l ++ destroyed k.
Proof. apply omap_app. Qed.

Lemma destroyed_to_observers s e : destroyed (to_observers s e) = [].
Proof. unfold to_observers. by induction (observers_ s). Qed.

Lemma close_last_eq s l w :
  wf s -> web_state_wrappers_ s = l ++ [w] ->
  exists s' L, CloseWebStateAt (count s - 1) s = Ok s' /\ wf s' /\
    pointers (web_state_wrappers_ s') = pointers l /\
    log s' = log s ++ L /\ destroyed L = [web_state_ w].
Proof.
  intros Hwf Hl. assert (vget (web_state_wrappers_ s) (count s - 1) = Ok w) as Hw.
  { unfold count. rewrite Hl. apply vget_last. }
  pose proof (vget_count _ _ _ Hw) as Hi.
  destruct (DetachWebStateAt_eq s _ Hwf Hi) as (w' & r & Hw' & _ & Hr1 & Hr2 & Hd).
  assert (w' = w) as -> by congruence. apply CloseWebStateAt_eq in Hd.
  do 2 eexists. split; [exact Hd |]. split_and!.
  - by apply wf_emit, wf_notify, wf_detached.
  - simpl. rewrite pointers_clear. unfold count. rewrite Hl.
    by rewrite verase_last.
  - simpl. rewrite <- !app_assoc. reflexivity.
  - fold (to_observers s (WillCloseWebStateAt (web_state_ w) (count s - 1))).
    rewrite !destroyed_app, !destroyed_to_observers.
    case_bool; simpl; by rewrite ?destroyed_to_observers.
Qed.

Lemma close_all_loop_log fuel s :
  wf s -> (length (web_state_wrappers_ s) <= fuel)%nat ->
  exists s' L, close_all_loop fuel s = Ok s' /\ log s' = log s ++ L /\
    destroyed L = reverse (pointers (web_state_wrappers_ s)).
Proof.
  revert s. induction fuel as [| fuel IH]; intros s Hwf Hfuel;
    destruct (web_state_wrappers_ s) as [| w0 l0 _] eqn:Hl using rev_ind;
    simpl; unfold empty; rewrite Hl.
  - exists s, []. by rewrite app_nil_r.
  - exfalso. rewrite length_app in Hfuel. simpl in Hfuel. lia.
  - exists s, []. by rewrite app_nil_r.
  - rewrite bool_decide_eq_false_2 by (by destruct l0).
    destruct (close_last_eq s l0 w0 Hwf Hl) as (s1 & L1 & -> & Hwf1 & Hp & HL & HD).
    simpl. destruct (IH s1 Hwf1) as (s2 & L2 & -> & HL2 & HD2).
    { apply (f_equal length) in Hp. unfold pointers in Hp.
      rewrite !length_fmap in Hp. rewrite length_app in Hfuel. simpl in Hfuel. lia. }
    exists s2, (L1 ++ L2). split; [done |]. rewrite HL2, HL, app_assoc.
    split; [done |]. rewrite destroyed_app, HD, HD2, Hp.
    unfold pointers. rewrite fmap_app, reverse_app. done.
Qed.

(** [CloseAllWebStates] terminates with an empty list and no active
    WebState, and destroys every WebState exactly once, from the last one
    to the first. *)
Lemma CloseAllWebStates_spec s :
  wf s ->
  exists s' L, CloseAllWebStates s = Ok s' /\
    web_state_wrappers_ s' = [] /\ active_index_ s' = kInvalidIndex /\
    log s' = log s ++ L /\
    destroyed L = reverse (pointers (web_state_wrappers_ s)).
Proof.
  intros Hwf. unfold CloseAllWebStates.
  destruct (close_all_loop_Ok (length (web_state_wrappers_ s)) s Hwf)
    as (s1 & H1 & [_ Ha] & Hc & _); [lia |].
  destruct (close_all_loop_log (length (web_state_wrappers_ s)) s Hwf)
    as (s2 & L & H2 & HL & HD); [lia |].
  assert (s2 = s1) as -> by congruence. exists s1, L. split_and!; try done.
  - unfold count, vsize in Hc. by destruct (web_state_wrappers_ s1).
  - unfold kInvalidIndex in *. lia.
Qed.
End closing_all.

Section moving.
Context `{OpenerNavigation} `{PageTransitionApi}.
Implicit Types (s : WebStateList).

(** A move puts the WebState at its target, keeps the order of the
    others, tells the observers once, and is undone (list and active index)
    by the reverse move. *)
Lemma MoveWebStateAt_roundtrip s i j :
  wf s -> 0 <= i < count s -> 0 <= j < count s -> i <> j ->
  exists s' s'', MoveWebStateAt i j s = Ok s' /\
    GetWebStateAt s' j = GetWebStateAt s i /\
    verase j (web_state_wrappers_ s') = verase i (web_state_wrappers_ s) /\
    (exists p, GetWebStateAt s i = Ok p /\
       log s' = log s ++ to_observers s (WebStateMoved p i j)) /\
    MoveWebStateAt j i s' = Ok s'' /\
    web_state_wrappers_ s'' = web_state_wrappers_ s /\
    active_index_ s'' = active_index_ s.
Proof.
  intros Hwf Hi Hj Hne.
  destruct (MoveWebStateAt_eq s i j Hi Hj) as (w & Hw & Hm).
  rewrite (proj2 (Z.eqb_neq i j)) in Hm by done.
  pose proof (vsize_verase (web_state_wrappers_ s) i Hi) as Hsize.
  assert (count (moved s i j w) = count s) as Hcount.
  { unfold count. simpl. rewrite vsize_vinsert, Hsize. lia. }
  assert (vget (web_state_wrappers_ (moved s i j w)) j = Ok w) as Hwj.
  { simpl. apply vget_vinsert_eq. unfold count in *. lia. }
  destruct (MoveWebStateAt_eq (moved s i j w) j i) as (w' & Hw' & Hm');
    [by rewrite Hcount.. |].
  rewrite (proj2 (Z.eqb_neq j i)) in Hm' by done.
  assert (w' = w) as -> by congruence.
  destruct (GetWebStateAt_Ok s i Hi) as (x & Hx & Hget).
  assert (x = w) as -> by congruence.
  destruct (GetWebStateAt_Ok (moved s i j w) j) as (y & Hy & Hget');
    [by rewrite Hcount |].
  assert (y = w) as -> by congruence.
  assert (verase j (vinsert j w (verase i (web_state_wrappers_ s)))
          = verase i (web_state_wrappers_ s)) as Hve.
  { apply verase_vinsert. unfold count in *. lia. }
  do 2 eexists. split; [exact Hm |]. split; [by rewrite Hget, Hget' |].
  split; [exact Hve |]. split; [by exists (web_state_ w) |].
  split; [exact Hm' |]. split; simpl.
  - rewrite Hve. by apply vinsert_verase.
  - unfold moved_active_index.
    destruct (Z.eqb_spec (active_index_ s) i); [case_bool; simpl; lia |].
    destruct (Z.leb_spec (i `min` j) (active_index_ s)),
      (Z.leb_spec (active_index_ s) (i `max` j)),
      (Z.ltb_spec i j), (Z.ltb_spec j i);
      simpl; try lia; case_bool; simpl; lia.
Qed.
End moving.

Section appending.
Context `{OpenerNavigation} `{PageTransitionApi}.
Implicit Types (s : WebStateList).

(** Where [AppendWebState] puts a tab opened by [o] sitting at [i]. *)
Definition group_end s (o : WebState) (i index : Z) : Prop :=
  (none_opened_after s o true i /\ index = i + 1) \/
  (exists next last, first_opened_after s o true i next /\
     (forall j, next <= j <= last -> opened_at s o true j true) /\
     (last + 1 < count s -> opened_at s o true (last + 1) false) /\
     index = last + 1).

Lemma DetermineInsertionIndex_link s transition o k :
  wf s -> count s < INT_MAX ->
  PageTransitionCoreTypeIs transition PAGE_TRANSITION_LINK = true ->
  Some o ∈ pointers (web_state_wrappers_ s) ->
  DetermineInsertionIndex s transition (Some o) = Ok k ->
  group_end s o (GetIndexOfWebState s (Some o)) k.
Proof.
  intros Hwf Hmax Ht Ho. pose proof (GetIndexOfWebState_range s _ Ho) as Hi.
  unfold DetermineInsertionIndex. rewrite Ht. cbn [negb].
  rewrite (dcheck_true (negb _)) by (unfold kInvalidIndex; case_bool; done). simpl.
  destruct (opened_by_search_spec s o (GetIndexOfWebState s (Some o)) true)
    as (n & l & _ & -> & Hres); [done | lia |]. simpl.
  destruct Hres as [(_ & -> & Hnone) | (Hf & Hl & Hrun & Hstop)]; simpl.
  - rewrite dcheck_true by (apply Z.ltb_lt; lia). intros [= <-]. by left.
  - pose proof (proj1 Hf). rewrite (proj2 (Z.eqb_neq l kInvalidIndex))
      by (unfold kInvalidIndex; lia). simpl.
    rewrite dcheck_true by (apply Z.ltb_lt; lia). intros [= <-].
    right. by exists n, l.
Qed.

(**  [AppendWebState] puts a tab opened through a link right after the
    contiguous group of tabs its opener opened during the same navigation
    (or right after the opener when there is none), any other tab at the
    end of the list, and records the opener it was given. *)
Lemma AppendWebState_position s transition ws o :
  wf s -> count s < INT_MAX ->
  Some ws ∉ pointers (web_state_wrappers_ s) ->
  (forall p, opener o = Some p -> Some p ∈ pointers (web_state_wrappers_ s)) ->
  exists s' index, AppendWebState transition (Some ws) o s = Ok s' /\
    0 <= index <= count s /\
    GetWebStateAt s' index = Ok (Some ws) /\
    GetOpenerOfWebStateAt s' index
    = Ok (match opener o with Some _ => o | None => no_opener end) /\
    match opener o with
    | Some p =>
        if PageTransitionCoreTypeIs transition PAGE_TRANSITION_LINK
        then group_end s p (GetIndexOfWebState s (Some p)) index
        else index = count s
    | None => index = count s
    end.
Proof.
  intros Hwf Hmax Hf Ho.
  destruct (AppendWebState_eq s transition ws o) as (k & Hk & Hr & Happ); [lia | done |].
  do 2 eexists. split; [exact Happ |]. split; [exact Hr |].
  assert (vget (vinsert k (fresh_wrapper ws) (web_state_wrappers_ s)) k
          = Ok (fresh_wrapper ws)) as Hv by (by apply vget_vinsert_eq).
  assert (0 <= k < vsize (vinsert k (fresh_wrapper ws) (web_state_wrappers_ s)))
    as Hkr by (by eapply vget_range).
  unfold GetWebStateAt, GetOpenerOfWebStateAt.
  destruct (opener o) as [p|] eqn:Hp.
  - rewrite !dcheck_true by (apply ContainsIndex_spec; unfold count; simpl;
      by rewrite vsize_vset).
    simpl. rewrite vget_vset_eq by done. simpl. split_and!; [done | done |].
    destruct (PageTransitionCoreTypeIs _ _) eqn:Ht.
    + by eapply DetermineInsertionIndex_link; eauto.
    + unfold DetermineInsertionIndex in Hk. rewrite Ht in Hk. simpl in Hk.
      by injection Hk.
  - rewrite !dcheck_true by (by apply ContainsIndex_spec). simpl.
    rewrite Hv. simpl. split_and!; [done | done |]. simpl in Hk. by injection Hk.
Qed.
End appending.

(** ** Witnesses: a window with tabs 1, 2 (active) and 3, 3 opened by 2. *)

Module Sample.
#[export] Instance nav : OpenerNavigation :=
  {| LastCommittedItemIndexOf := fun _ => 0 |}.

Definition tab (p : WebState) (o : option WebState) : WebStateWrapper :=
  {| web_state_ := Some p;
     opener_ := {| opener := o; navigation_index := 0 |} |}.

Definition window : WebStateList :=
  {| web_state_wrappers_ := [tab 1 None; tab 2 None; tab 3 (Some 2%positive)];
     active_index_ := 1; observers_ := [7%positive]; log := [] |}.

Lemma window_wf : wf window.
Proof.
  split; [split |].
  - decide_closed.
  - decide_closed.
  - apply Forall_forall. intros w Hw p Hp. simpl in Hw.
    rewrite !elem_of_cons in Hw.
    destruct Hw as [-> | [-> | [-> | Hw]]]; simpl in Hp; try discriminate.
    + injection Hp as <-. split; [decide_closed | done].
    + by apply not_elem_of_nil in Hw.
  - by vm_compute.
Defined.

Lemma fresh4 : Some 4%positive ∉ pointers (web_state_wrappers_ window).
Proof. decide_closed. Defined.

Lemma child3 : first_opened_after window 2 false 1 2.
Proof.
  split; [by vm_compute |]. split; [by eexists |]. intros j Hj. lia.
Defined.
End Sample.

Import Sample ConcreteTransition.

Lemma step_preserves_wf_witness :
  exists s', step (RInsert 1 4) window = Ok s' /\ wf s'.
Proof.
  apply (step_preserves_wf (RInsert 1 4) window window_wf).
  split; [by vm_compute | apply fresh4].
Defined.

Lemma active_web_state_stable_witness :
  GetActiveWebState (moved window 0 2 (tab 1 None)) = GetActiveWebState window.
Proof.
  apply (active_web_state_stable (RMove 0 2) window); [apply window_wf | | done | done].
  by vm_compute.
Defined.

Lemma opened_by_search_spec_witness :
  exists next last,
    GetIndexOfNextWebStateOpenedBy window (Some 2%positive) 1 true = Ok next /\
    GetIndexOfLastWebStateOpenedBy window (Some 2%positive) 1 true = Ok last /\
    next = 2 /\ last = 2.
Proof.
  destruct (opened_by_search_spec window 2 1 true) as (n & l & Hn & Hl & _);
    [by vm_compute | by vm_compute |].
  exists n, l. split; [done |]. split; [done |].
  vm_compute in Hn, Hl. by simplify_eq.
Defined.

Lemma close_active_with_child_selects_first_witness :
  exists s', DetachWebStateAt 1 window = Ok (Some 2%positive, s') /\
             active_index_ s' = 0.
Proof.
  apply (close_active_with_child_selects_first window 1 (tab 2 None) 2 2);
    try done; [apply window_wf | apply child3].
Defined.

Lemma close_active_selects_neighbour_witness :
  exists s', DetachWebStateAt 0 (set_active 0 window) = Ok (Some 1%positive, s') /\
             GetActiveWebState s' = GetWebStateAt (set_active 0 window) 1.
Proof.
  apply (close_active_selects_neighbour (set_active 0 window) 0 (tab 1 None) 1);
    try done.
  - destruct window_wf as [Hw _]. split; [exact Hw | by vm_compute].
  - intros j Hj. assert (j = 1 \/ j = 2) as [-> | ->].
    { change (0 < j < 3) in Hj. lia. }
    all: by eexists.
Defined.

Lemma CloseAllWebStates_spec_witness :
  exists s' L, CloseAllWebStates window = Ok s' /\
    web_state_wrappers_ s' = [] /\ active_index_ s' = kInvalidIndex /\
    log s' = log window ++ L /\
    destroyed L = reverse (pointers (web_state_wrappers_ window)).
Proof. apply (CloseAllWebStates_spec window window_wf). Defined.

Lemma MoveWebStateAt_roundtrip_witness :
  exists s' s'', MoveWebStateAt 2 0 window = Ok s' /\
    MoveWebStateAt 0 2 s' = Ok s'' /\ active_index_ s'' = active_index_ window.
Proof.
  destruct (MoveWebStateAt_roundtrip window 2 0 window_wf)
    as (s1 & s2 & H1 & _ & _ & _ & H2 & _ & H3); try by vm_compute.
  by exists s1, s2.
Defined.

Lemma AppendWebState_position_witness :
  exists s' index,
    AppendWebState PAGE_TRANSITION_LINK (Some 4%positive)
      (WebStateOpener_new (Some 2%positive)) window = Ok s' /\
    GetWebStateAt s' index = Ok (Some 4%positive) /\ index = 3.
Proof.
  destruct (AppendWebState_position window PAGE_TRANSITION_LINK 4
              (WebStateOpener_new (Some 2%positive)))
    as (s' & index & Happ & Hi & Hget & _); [apply window_wf | done | apply fresh4 | |].
  { intros p [= <-]. decide_closed. }
  exists s', index. split; [done |]. split; [done |].
  vm_compute in Happ. injection Happ as <-.
  assert (index = 0 \/ index = 1 \/ index = 2 \/ index = 3) as Hc.
  { change (0 <= index <= 3) in Hi. lia. }
  destruct Hc as [-> | [-> | [-> | ->]]]; vm_compute in Hget; congruence.
Defined.
