(* ===== verification/WebStateListObservers.v ===== *)
(** * Observers of a WebStateList

    The observer interface of [chrome/browser/web_state_list] as a type
    class, its Objective-C bridge, and the two observers of the directory:
    [WebStateListMetricsObserver] and the [NSFastEnumeration] helper. *)
From S2P Require Import Prelude External WebStateList.

(** ** [class WebStateListObserver]: one handler of every event. *)
Class WebStateListObserver (O : Type) := {
  on_event : observer_event -> O -> O;
}.

(** The events a log delivers to observer [o], oldest first. *)
Definition observed (o : positive) (l : list notification)
    : list observer_event :=
  omap (fun n => match n with
                 | ToObserver o' e => if bool_decide (o' = o) then Some e else None
                 | _ => None end) l.

Definition deliver `{WebStateListObserver Obs} (es : list observer_event)
    (st : Obs) : Obs := fold_left (fun st e => on_event e st) es st.

(** ** [WebStateListObserverBridge] *)

(** Selectors of [@protocol WebStateListObserving], and the misspelt one an
    observer of the directory implements. *)
Inductive selector :=
| Sel_didInsertWebState_atIndex
| Sel_didMoveWebState_fromIndex_toIndex
| Sel_didReplaceWebState_withWebState_atIndex
| Sel_didReplaceWebState_byWebState_atIndex
| Sel_willDetachWebState_atIndex
| Sel_didDetachWebState_atIndex
| Sel_willCloseWebState_atIndex
| Sel_didChangeActiveWebState_oldWebState_atIndex_userAction.

#[export] Instance selector_eq_dec : EqDecision selector.
Proof. solve_decision. Defined.

(** The selector each method of the bridge tests and sends. *)
Definition bridge_selector (e : observer_event) : selector :=
  match e with
  | WebStateInsertedAt _ _ => Sel_didInsertWebState_atIndex
  | WebStateMoved _ _ _ => Sel_didMoveWebState_fromIndex_toIndex
  | WebStateReplacedAt _ _ _ => Sel_didReplaceWebState_withWebState_atIndex
  | WillDetachWebStateAt _ _ => Sel_willDetachWebState_atIndex
  | WebStateDetachedAt _ _ => Sel_didDetachWebState_atIndex
  | WillCloseWebStateAt _ _ => Sel_willCloseWebState_atIndex
  | WebStateActivatedAt _ _ _ _ =>
      Sel_didChangeActiveWebState_oldWebState_atIndex_userAction
  end.

(** An Objective-C observer: the methods it implements. *)
Class ObjCObserver (O : Type) := {
  method : selector -> option (observer_event -> O -> O);
}.

(** [if (![observer_ respondsToSelector:selector]) return; [observer_ ...]] *)
#[export] Instance WebStateListObserverBridge `{ObjCObserver Obs}
    : WebStateListObserver Obs := {|
  on_event e st := match method (bridge_selector e) with
                   | Some m => m e st
                   | None => st
                   end
|}.

(** ** [WebStateListMetricsObserver] *)

Record MetricsObserver := {
  inserted_web_state_counter_ : Z;
  detached_web_state_counter_ : Z;
  activated_web_state_counter_ : Z;
  recorded_actions : list string;
}.

Definition ResetSessionMetrics (m : MetricsObserver) : MetricsObserver :=
  {| inserted_web_state_counter_ := 0; detached_web_state_counter_ := 0;
     activated_web_state_counter_ := 0;
     recorded_actions := recorded_actions m |}.

Definition MetricsObserver_new : MetricsObserver :=
  ResetSessionMetrics
    {| inserted_web_state_counter_ := 0; detached_web_state_counter_ := 0;
       activated_web_state_counter_ := 0; recorded_actions := [] |}.

(** The histogram samples [RecordSessionMetrics] reports. *)
Definition RecordSessionMetrics (m : MetricsObserver) : list (string * Z) :=
  [("Session.ClosedTabCounts"%string, detached_web_state_counter_ m);
   ("Session.OpenedTabCounts"%string, activated_web_state_counter_ m);
   ("Session.NewTabCounts"%string, inserted_web_state_counter_ m)].

Definition RecordAction (a : string) (m : MetricsObserver) : MetricsObserver :=
  {| inserted_web_state_counter_ := inserted_web_state_counter_ m;
     detached_web_state_counter_ := detached_web_state_counter_ m;
     activated_web_state_counter_ := activated_web_state_counter_ m;
     recorded_actions := recorded_actions m ++ [a] |}.

Definition metrics_on_event (e : observer_event) (m : MetricsObserver)
    : MetricsObserver :=
  match e with
  | WebStateInsertedAt _ _ =>
      let m := RecordAction "MobileNewTabOpened" m in
      {| inserted_web_state_counter_ := inserted_web_state_counter_ m + 1;
         detached_web_state_counter_ := detached_web_state_counter_ m;
         activated_web_state_counter_ := activated_web_state_counter_ m;
         recorded_actions := recorded_actions m |}
  | WebStateReplacedAt _ _ _ => RecordAction "MobileTabClobbered" m
  | WebStateDetachedAt _ _ =>
      let m := RecordAction "MobileTabClosed" m in
      {| inserted_web_state_counter_ := inserted_web_state_counter_ m;
         detached_web_state_counter_ := detached_web_state_counter_ m + 1;
         activated_web_state_counter_ := activated_web_state_counter_ m;
         recorded_actions := recorded_actions m |}
  | WebStateActivatedAt _ _ _ user_action =>
      let m :=
        {| inserted_web_state_counter_ := inserted_web_state_counter_ m;
           detached_web_state_counter_ := detached_web_state_counter_ m;
           activated_web_state_counter_ := activated_web_state_counter_ m + 1;
           recorded_actions := recorded_actions m |} in
      if negb user_action then m else RecordAction "MobileTabSwitched" m
  | _ => m
  end.

#[export] Instance MetricsObserver_observer
    : WebStateListObserver MetricsObserver := {| on_event := metrics_on_event |}.

(** ** [WebStateListFastEnumeration] *)

(** [_mutationCounter] is an [unsigned long] (64 bits). *)
Record FastEnumeration := {
  attached : bool;  (* [_webStateList] is not null *)
  mutationCounter : Z;
}.

Definition bump (f : FastEnumeration) : FastEnumeration :=
  {| attached := attached f;
     mutationCounter := (mutationCounter f + 1) mod 2 ^ 64 |}.

Definition FastEnumeration_new : FastEnumeration :=
  {| attached := true; mutationCounter := 0 |}.

Definition shutdown (f : FastEnumeration) : FastEnumeration :=
  bump {| attached := false; mutationCounter := mutationCounter f |}.

(** The [WebStateListObserving] methods of the class. *)
#[export] Instance FastEnumeration_methods : ObjCObserver FastEnumeration := {|
  method sel := match sel with
    | Sel_didInsertWebState_atIndex => Some (fun _ => bump)
    | Sel_didMoveWebState_fromIndex_toIndex => Some (fun _ => bump)
    | Sel_didReplaceWebState_byWebState_atIndex => Some (fun _ => bump)
    | Sel_didDetachWebState_atIndex => Some (fun _ => bump)
    | _ => None
    end
|}.

(** One call of [countByEnumeratingWithState:objects:count:].  The result is
    the number returned, the new [state->state] and the objects written to
    the buffer; [proxy] is [proxyForWebState:]. *)
Section fast_enumeration.
Context {Proxy : Type} (proxy : option WebState -> Proxy).

Fixpoint fill_buffer (s : WebStateList) (offset : Z) (n : nat) (index : Z)
    : chk (list Proxy) :=
  match n with
  | O => mret []
  | S n =>
      web_state ← GetWebStateAt s (offset + index);
      rest ← fill_buffer s offset n (index + 1);
      mret (proxy web_state :: rest)
  end.

Definition countByEnumerating (f : FastEnumeration) (s : WebStateList)
    (state len : Z) : chk (Z * Z * list Proxy) :=
  _ ← dcheck (state <=? INT_MAX);
  let offset := state in
  let len := if INT_MAX <? len then INT_MAX else len in
  if negb (attached f) then mret (0, state, [])
  else
    _ ← dcheck (offset <=? count s);
    let n := Z.min len (count s - offset) in
    buffer ← fill_buffer s offset (Z.to_nat n) 0;
    mret (n, state + n, buffer).

(** What the compiler generates for [for (x in collection)]: call until no
    object is returned.  [Fault] when the fuel runs out. *)
Fixpoint enumerate (fuel : nat) (f : FastEnumeration) (s : WebStateList)
    (state len : Z) : chk (list Proxy) :=
  match fuel with
  | O => Fault
  | S fuel =>
      '(n, state, buffer) ← countByEnumerating f s state len;
      if n =? 0 then mret []
      else rest ← enumerate fuel f s state len; mret (buffer ++ rest)
  end.
End fast_enumeration.

(** ** Deliveries *)

Lemma deliver_app `{WebStateListObserver Obs} (es es' : list observer_event)
    (st : Obs) : deliver (es ++ es') st = deliver es' (deliver es st).
Proof. apply fold_left_app. Qed.

Lemma observed_app o l k : observed o (l ++ k) = observed o l ++ observed o k.
Proof. apply omap_app. Qed.

Lemma observed_to_observers o s e :
  NoDup (observers_ s) -> o ∈ observers_ s -> observed o (to_observers s e) = [e].
Proof.
  unfold to_observers. induction (observers_ s) as [| x l IH]; intros Hnd Hin.
  { by apply not_elem_of_nil in Hin. }
  apply NoDup_cons in Hnd as [Hx Hnd]. simpl.
  destruct (bool_decide_reflect (x = o)) as [-> | Hne].
  - assert (forall l, o ∉ l -> observed o ((fun o' => ToObserver o' e) <$> l) = [])
      as Hnone.
    { clear. induction l as [| y l IH]; intros Hy; simpl; [done |].
      apply not_elem_of_cons in Hy as [? ?].
      rewrite bool_decide_eq_false_2 by done. auto. }
    f_equal. by apply Hnone.
  - apply IH; [done |]. apply elem_of_cons in Hin as [-> |]; done.
Qed.

Section deliveries.
Context `{OpenerNavigation} `{PageTransitionApi}.
Context (o : positive).
Implicit Types (s : WebStateList).

(** [o] is registered once. *)
Definition registered s : Prop := NoDup (observers_ s) /\ o ∈ observers_ s.

(** The run from [s] to [s'] delivered the events [es] to [o]. *)
Definition delivers s s' (es : list observer_event) : Prop :=
  exists L, log s' = log s ++ L /\ observed o L = es.

Lemma delivers_trans s1 s2 s3 es1 es2 :
  delivers s1 s2 es1 -> delivers s2 s3 es2 -> delivers s1 s3 (es1 ++ es2).
Proof.
  intros (L1 & H1 & <-) (L2 & H2 & <-). exists (L1 ++ L2).
  by rewrite H2, H1, app_assoc, observed_app.
Qed.

Lemma inserted_delivers s i ws :
  registered s -> delivers s (inserted s i ws) [WebStateInsertedAt (Some ws) i].
Proof.
  intros [Hnd Hin]. eexists. split; [done |]. simpl.
  by rewrite observed_to_observers.
Qed.

Lemma moved_delivers s i j w :
  registered s -> delivers s (moved s i j w) [WebStateMoved (web_state_ w) i j].
Proof.
  intros [Hnd Hin]. eexists. split; [done |]. by rewrite observed_to_observers.
Qed.

Lemma replaced_delivers s i ws w :
  registered s ->
  delivers s (replaced s i ws w) [WebStateReplacedAt (web_state_ w) (Some ws) i].
Proof.
  intros [Hnd Hin]. eexists. split; [done |]. simpl.
  by rewrite observed_app, observed_to_observers.
Qed.

Lemma detached_delivers s i r w :
  registered s ->
  exists activation, delivers s (detached s i r w)
    ([WillDetachWebStateAt (web_state_ w) i;
      WebStateDetachedAt (web_state_ w) i] ++ activation) /\
    (if active_index_ s =? i
     then exists new, activation
                      = [WebStateActivatedAt (web_state_ w) new r false]
     else activation = []).
Proof.
  intros [Hnd Hin]. unfold delivers, detached. cbn [log].
  destruct (Z.eqb_spec (active_index_ s) i) as [Heq | Hne].
  - eexists [_]. split; [| by eexists]. eexists. split; [done |].
    by rewrite !observed_app, !observed_to_observers by done.
  - exists []. split; [| done]. eexists. split; [done |].
    by rewrite !observed_app, !observed_to_observers by done.
Qed.

Lemma closed_delivers s i s' :
  wf s -> registered s -> 0 <= i < count s -> CloseWebStateAt i s = Ok s' ->
  exists p activation, delivers s s'
    ([WillDetachWebStateAt p i; WebStateDetachedAt p i] ++ activation
     ++ [WillCloseWebStateAt p i]) /\
    Forall (fun e => match e with WebStateActivatedAt _ _ _ _ => True
                                | _ => False end) activation.
Proof.
  intros Hwf Hreg Hi Hs.
  destruct (DetachWebStateAt_eq s i Hwf Hi) as (w & r & _ & _ & _ & _ & Hd).
  rewrite (CloseWebStateAt_eq _ _ _ _ Hd) in Hs. injection Hs as <-.
  destruct (detached_delivers s i r w Hreg) as (act & (L & HL & Hobs) & Hact).
  exists (web_state_ w), act. split.
  - exists (L ++ to_observers s (WillCloseWebStateAt (web_state_ w) i)
              ++ [Destroyed (web_state_ w)]).
    split; [cbn [log emit notify]; rewrite HL; by rewrite <- !app_assoc |].
    destruct Hreg. rewrite !observed_app, Hobs, observed_to_observers by done.
    by rewrite <- !app_assoc.
  - revert Hact. case_bool; [intros [new ->]; by repeat constructor | by intros ->].
Qed.
End deliveries.

(** ** The fast enumeration *)

Section enumeration.
Context {Proxy : Type} (proxy : option WebState -> Proxy).

Lemma fill_buffer_Ok s offset n index :
  0 <= offset + index -> offset + index + Z.of_nat n <= count s ->
  fill_buffer proxy s offset n index
  = Ok (take n (drop (Z.to_nat (offset + index))
                  (proxy <$> pointers (web_state_wrappers_ s)))).
Proof.
  revert index. induction n as [| n IH]; intros index Hlo Hhi; simpl; [done |].
  destruct (GetWebStateAt_Ok s (offset + index)) as (w & Hw & ->); [lia |].
  simpl. rewrite IH by lia. simpl. apply vget_Ok in Hw as [_ Hw].
  rewrite (drop_S (proxy <$> pointers (web_state_wrappers_ s))
             (proxy (web_state_ w)) (Z.to_nat (offset + index))).
  - simpl. by replace (Z.to_nat (offset + (index + 1)))
      with (S (Z.to_nat (offset + index))) by lia.
  - unfold pointers. by rewrite !list_lookup_fmap, Hw.
Qed.

Lemma countByEnumerating_Ok f s state len :
  attached f = true -> count s <= INT_MAX -> 0 <= state <= count s -> 0 < len ->
  let n := Z.min (Z.min len INT_MAX) (count s - state) in
  countByEnumerating proxy f s state len
  = Ok (n, state + n,
        take (Z.to_nat n) (drop (Z.to_nat state)
          (proxy <$> pointers (web_state_wrappers_ s)))).
Proof.
  intros Ha Hmax Hst Hlen n. unfold countByEnumerating.
  rewrite (dcheck_true (state <=? INT_MAX)) by (apply Z.leb_le; lia). simpl.
  rewrite Ha. simpl. rewrite (dcheck_true (state <=? count s))
    by (apply Z.leb_le; lia). simpl.
  replace (if INT_MAX <? len then INT_MAX else len) with (Z.min len INT_MAX)
    by (case_bool; lia). fold n.
  assert (0 <= INT_MAX) by (unfold INT_MAX; lia).
  rewrite fill_buffer_Ok; [| lia | lia]. simpl.
  by rewrite Z.add_0_r.
Qed.

Lemma enumerate_from fuel f s state len :
  attached f = true -> count s <= INT_MAX -> 0 <= state <= count s -> 0 < len ->
  (Z.to_nat (count s - state) < fuel)%nat ->
  enumerate proxy fuel f s state len
  = Ok (drop (Z.to_nat state) (proxy <$> pointers (web_state_wrappers_ s))).
Proof.
  intros Ha Hmax. revert state.
  induction fuel as [| fuel IH]; intros state Hst Hlen Hfuel; [lia |].
  simpl. rewrite countByEnumerating_Ok by done. simpl.
  assert (0 < INT_MAX) by (unfold INT_MAX; lia).
  set (ps := proxy <$> pointers (web_state_wrappers_ s)).
  assert (Z.of_nat (length ps) = count s) as Hps.
  { unfold ps, pointers. by rewrite !length_fmap. }
  case_bool.
  - rewrite drop_ge by lia. done.
  - rewrite IH by lia. simpl. do 2 f_equal.
    rewrite Z2Nat.inj_add by lia. rewrite <- drop_drop. apply take_drop.
Qed.

(** Fast enumeration of an unchanged list yields the proxies of all its
    WebStates once, in order, whatever the buffer size the runtime passes,
    and stops. *)
Lemma enumerate_all f s len :
  attached f = true -> count s <= INT_MAX -> 0 < len ->
  enumerate proxy (S (length (web_state_wrappers_ s))) f s 0 len
  = Ok (proxy <$> pointers (web_state_wrappers_ s)).
Proof.
  intros Ha Hmax Hlen.
  pose proof (vsize_nonneg (web_state_wrappers_ s)).
  rewrite enumerate_from; rewrite ?count_length in *; try done; lia.
Qed.
End enumeration.

(** ** What the two observers see *)

(** Only activation events. *)
Definition activations (es : list observer_event) : Prop :=
  Forall (fun e => match e with WebStateActivatedAt _ _ _ _ => True
                              | _ => False end) es.

(** The events of a request, by its kind. *)
Definition event_shape `{PageTransitionApi} (r : request)
    (es : list observer_event) : Prop :=
  match r with
  | RInsert i ws => es = [WebStateInsertedAt (Some ws) i]
  | RMove i j =>
      if i =? j then es = [] else exists p, es = [WebStateMoved p i j]
  | RReplace i ws => exists p, es = [WebStateReplacedAt p (Some ws) i]
  | RDetach i => exists p act, activations act /\
      es = [WillDetachWebStateAt p i; WebStateDetachedAt p i] ++ act
  | RClose i => exists p act, activations act /\
      es = [WillDetachWebStateAt p i; WebStateDetachedAt p i] ++ act
             ++ [WillCloseWebStateAt p i]
  | _ => False
  end.

(** The requests of [event_shape]. *)
Definition one_change `{PageTransitionApi} (r : request) : bool :=
  match r with
  | RInsert _ _ | RMove _ _ | RReplace _ _ | RDetach _ | RClose _ => true
  | _ => false
  end.

(** By how much a request changes the number of tabs. *)
Definition count_change `{PageTransitionApi} (r : request) : Z :=
  match r with RInsert _ _ => 1 | RDetach _ | RClose _ => -1 | _ => 0 end.

Section seen.
Context `{OpenerNavigation} `{PageTransitionApi}.
Context (o : positive).
Implicit Types (s : WebStateList).

Lemma step_count r s s' :
  wf s -> request_pre r s -> step r s = Ok s' -> one_change r = true ->
  count s' = count s + count_change r.
Proof.
  intros Hwf Hpre Hs Hr.
  destruct r as [ |i ws| |i j|i ws|i|i| | | | ]; try done; simpl in Hs, Hpre |- *.
  - rewrite InsertWebState_eq in Hs by apply Hpre. injection Hs as <-.
    unfold count. simpl. by rewrite vsize_vinsert.
  - destruct (MoveWebStateAt_eq s i j) as (w & Hw & Hm); [apply Hpre.. |].
    rewrite Hm in Hs. injection Hs as <-. case_bool.
    unfold count in *. simpl. rewrite vsize_vinsert, vsize_verase by apply Hpre. lia.
  - destruct Hpre as [Hi Hf].
    destruct (vget_in_range (web_state_wrappers_ s) i Hi) as [w Hw].
    rewrite (ReplaceWebStateAt_eq s i ws w) in Hs; [| done |].
    + injection Hs as <-. unfold count. simpl. rewrite vsize_vset, vsize_fmap. lia.
    + intros Heq. apply Hf. rewrite (verase_Permutation _ _ _ Hw), <- Heq. by left.
  - destruct (DetachWebStateAt_eq s i Hwf Hpre) as (w & k & Hw & _ & _ & _ & Hd).
    rewrite Hd in Hs. injection Hs as <-. unfold count. simpl.
    by rewrite vsize_fmap, vsize_verase.
  - destruct (CloseWebStateAt_wf s i Hwf Hpre) as (s1 & Hs1 & _ & Hc & _).
    assert (s1 = s') as -> by congruence. lia.
Qed.

Lemma step_delivers r s s' :
  wf s -> request_pre r s -> registered o s -> step r s = Ok s' ->
  one_change r = true ->
  exists es, delivers o s s' es /\ event_shape r es.
Proof.
  intros Hwf Hpre Hreg Hs Hr.
  destruct r as [ |i ws| |i j|i ws|i|i| | | | ]; try done; simpl in Hs, Hpre |- *.
  - rewrite InsertWebState_eq in Hs by apply Hpre. injection Hs as <-.
    eexists. split; [by apply inserted_delivers | done].
  - destruct (MoveWebStateAt_eq s i j) as (w & Hw & Hm); [apply Hpre.. |].
    rewrite Hm in Hs. injection Hs as <-. case_bool.
    + exists []. split; [exists []; by rewrite app_nil_r | done].
    + eexists. split; [by apply moved_delivers | by eexists].
  - destruct Hpre as [Hi Hf].
    destruct (vget_in_range (web_state_wrappers_ s) i Hi) as [w Hw].
    rewrite (ReplaceWebStateAt_eq s i ws w) in Hs; [| done |].
    + injection Hs as <-.
      eexists. split; [by apply replaced_delivers | by eexists].
    + intros Heq. apply Hf. rewrite (verase_Permutation _ _ _ Hw), <- Heq. by left.
  - destruct (DetachWebStateAt_eq s i Hwf Hpre) as (w & k & Hw & _ & _ & _ & Hd).
    rewrite Hd in Hs. injection Hs as <-.
    destruct (detached_delivers o s i k w Hreg) as (act & Hdel & Hact).
    eexists. split; [exact Hdel |]. exists (web_state_ w), act. split; [| done].
    revert Hact. case_bool; [intros [new ->]; by repeat constructor |].
    intros ->. by constructor.
  - destruct (closed_delivers o s i s' Hwf Hreg Hpre Hs) as (p & act & Hdel & Hact).
    eexists. split; [exact Hdel |]. by exists p, act.
Qed.

Lemma delivers_unique s s' es es' :
  delivers o s s' es -> delivers o s s' es' -> es = es'.
Proof.
  intros (L & HL & <-) (L' & HL' & <-). rewrite HL in HL'.
  by apply app_inv_head in HL' as ->.
Qed.

(** *** The mutation counter *)

Lemma bump_ne f :
  0 <= mutationCounter f < 2 ^ 64 -> mutationCounter (bump f) <> mutationCounter f.
Proof.
  intros Hf. simpl. destruct (Z.eq_dec (mutationCounter f) (2 ^ 64 - 1)) as [-> | Hne].
  - by vm_compute.
  - rewrite Z.mod_small by lia. lia.
Qed.

Lemma fast_ignores_activations es (f : FastEnumeration) :
  activations es -> deliver es f = f.
Proof.
  unfold activations. induction 1 as [| e es He _ IH]; simpl; [done |].
  by destruct e.
Qed.

(** Inserting, moving, detaching and closing change the mutation
    counter the enumeration checks between two calls, so an enumeration in
    progress is told that the list changed under it. *)
Lemma mutation_counter_changes r s s' es (f : FastEnumeration) :
  wf s -> request_pre r s -> registered o s -> step r s = Ok s' ->
  match r with
  | RInsert _ _ | RDetach _ | RClose _ => True
  | RMove i j => i <> j
  | _ => False
  end ->
  delivers o s s' es -> 0 <= mutationCounter f < 2 ^ 64 ->
  mutationCounter (deliver es f) <> mutationCounter f.
Proof.
  intros Hwf Hpre Hreg Hs Hr Hdel Hf.
  destruct (step_delivers r s s' Hwf Hpre Hreg Hs) as (es' & Hdel' & Hshape);
    [by destruct r |].
  rewrite (delivers_unique _ _ _ _ Hdel Hdel').
  destruct r as [ |i ws| |i j| |i|i| | | | ]; try done; cbn [event_shape] in Hshape.
  - subst es'. by apply bump_ne.
  - rewrite (proj2 (Z.eqb_neq i j)) in Hshape by done.
    destruct Hshape as [p ->]. by apply bump_ne.
  - destruct Hshape as (p & act & Hact & ->).
    rewrite deliver_app, (fast_ignores_activations act) by done. by apply bump_ne.
  - destruct Hshape as (p & act & Hact & ->).
    rewrite !deliver_app, (fast_ignores_activations act) by done.
    change (mutationCounter (bump f) <> mutationCounter f). by apply bump_ne.
Qed.

(** Replacing a WebState is not seen: the helper implements
    [webStateList:didReplaceWebState:byWebState:atIndex:] while the bridge
    sends [...withWebState:atIndex:], so the content of the list changes and
    the mutation counter does not. *)
Lemma replace_missed_by_enumeration s i ws (f : FastEnumeration) :
  wf s -> 0 <= i < count s -> Some ws ∉ pointers (web_state_wrappers_ s) ->
  registered o s ->
  exists s' es, step (RReplace i ws) s = Ok s' /\ delivers o s s' es /\
    pointers (web_state_wrappers_ s') <> pointers (web_state_wrappers_ s) /\
    mutationCounter (deliver es f) = mutationCounter f.
Proof.
  intros Hwf Hi Hf Hreg.
  destruct (vget_in_range (web_state_wrappers_ s) i Hi) as [w Hw].
  exists (replaced s i ws w), [WebStateReplacedAt (web_state_ w) (Some ws) i].
  split_and!; [| by apply replaced_delivers | | done].
  - simpl. rewrite (ReplaceWebStateAt_eq _ _ _ w); [done | done |].
    intros Heq. apply Hf. rewrite (verase_Permutation _ _ _ Hw), <- Heq. by left.
  - intros Heq. apply Hf. rewrite <- Heq. simpl.
    rewrite vset_Permutation by by rewrite vsize_fmap. by left.
Qed.

(** *** The metrics *)

Definition balance (m : MetricsObserver) : Z :=
  inserted_web_state_counter_ m - detached_web_state_counter_ m.

(** Insertions minus detachments among some events. *)
Fixpoint net (es : list observer_event) : Z :=
  match es with
  | [] => 0
  | WebStateInsertedAt _ _ :: es => 1 + net es
  | WebStateDetachedAt _ _ :: es => -1 + net es
  | _ :: es => net es
  end.

Lemma balance_deliver es m : balance (deliver es m) = balance m + net es.
Proof.
  revert m. induction es as [| e es IH]; intros m; [simpl; lia |].
  change (deliver (e :: es) m) with (deliver es (metrics_on_event e m)).
  rewrite IH. unfold balance.
  destruct e; simpl; try destruct user_action; simpl; lia.
Qed.

Lemma net_app es es' : net (es ++ es') = net es + net es'.
Proof. induction es as [| [] es IH]; simpl; lia. Qed.

Lemma net_activations es : activations es -> net es = 0.
Proof. induction 1 as [| e es He _ IH]; simpl; [done |]. by destruct e. Qed.

(** The tab counters of the metrics observer account for the size of
    the list: over any request that inserts, moves, replaces, detaches or
    closes, opened minus closed tabs changes exactly as [count] does. *)
Lemma metrics_balance r s s' es m :
  wf s -> request_pre r s -> registered o s -> step r s = Ok s' ->
  one_change r = true -> delivers o s s' es ->
  balance (deliver es m) - balance m = count s' - count s.
Proof.
  intros Hwf Hpre Hreg Hs Hr Hdel.
  rewrite (step_count r s s'), balance_deliver by done.
  destruct (step_delivers r s s' Hwf Hpre Hreg Hs Hr) as (es' & Hdel' & Hshape).
  rewrite (delivers_unique _ _ _ _ Hdel Hdel').
  destruct r as [ |i ws| |i j|i ws|i|i| | | | ]; try done;
    cbn [event_shape count_change] in Hshape |- *.
  - subst es'. simpl. lia.
  - revert Hshape. case_bool; [intros -> | intros [p ->]]; simpl; lia.
  - destruct Hshape as [p ->]. simpl. lia.
  - destruct Hshape as (p & act & Hact & ->).
    rewrite net_app, (net_activations act) by done. simpl. lia.
  - destruct Hshape as (p & act & Hact & ->).
    rewrite !net_app, (net_activations act) by done. simpl. lia.
Qed.
End seen.

(** ** Witnesses *)

Import Sample ConcreteTransition.

Definition plain_proxy (p : option WebState) : option WebState := p.

Lemma enumerate_all_witness :
  enumerate plain_proxy 4 FastEnumeration_new window 0 16
  = Ok [Some 1%positive; Some 2%positive; Some 3%positive].
Proof.
  apply (enumerate_all plain_proxy FastEnumeration_new window 16); by vm_compute.
Defined.

Lemma registered_window : registered 7 window.
Proof. split; decide_closed. Defined.

Lemma mutation_counter_changes_witness :
  mutationCounter (deliver [WebStateInsertedAt (Some 4%positive) 1]
                     FastEnumeration_new) <> mutationCounter FastEnumeration_new.
Proof.
  apply (mutation_counter_changes 7 (RInsert 1 4) window (inserted window 1 4)).
  - apply window_wf.
  - split; [by vm_compute | apply fresh4].
  - apply registered_window.
  - done.
  - done.
  - apply inserted_delivers, registered_window.
  - by vm_compute.
Defined.

Lemma replace_missed_by_enumeration_witness :
  exists s' es, step (RReplace 0 4) window = Ok s' /\ delivers 7 window s' es /\
    pointers (web_state_wrappers_ s') <> pointers (web_state_wrappers_ window) /\
    mutationCounter (deliver es FastEnumeration_new) = 0.
Proof.
  apply (replace_missed_by_enumeration 7 window 0 4 FastEnumeration_new);
    [apply window_wf | by vm_compute | apply fresh4 | apply registered_window].
Defined.

Lemma metrics_balance_witness :
  balance (deliver [WebStateInsertedAt (Some 4%positive) 1] MetricsObserver_new)
  - balance MetricsObserver_new = count (inserted window 1 4) - count window.
Proof.
  apply (metrics_balance 7 (RInsert 1 4) window (inserted window 1 4)).
  - apply window_wf.
  - split; [by vm_compute | apply fresh4].
  - apply registered_window.
  - done.
  - done.
  - apply inserted_delivers, registered_window.
Defined.
