(* ===== verification/SerializableUserData.v ===== *)
(** * Serializable user data

    [web/navigation/serializable_user_data_manager_impl.mm]: the dictionary
    of [NSCoding] values a WebState carries and saves with its session, with
    the migration of the keys of older versions.

    An [NSCoder] is external code.  Its keyed archive is a finite map from
    keys to archived objects: encoding under a key binds it, decoding an
    absent key gives nil. *)
From S2P Require Import Prelude.

(** The [id<NSCoding>] values the sources store. *)
Inductive ns_value :=
| NSNull
| NSNumber (n : Z)
| NSString (s : string).

Abbreviation dictionary := (gmap string ns_value).

(** [base::mac::ObjCCast]: nil unless the object has the class. *)
Definition as_NSNumber (v : option ns_value) : option Z :=
  match v with Some (NSNumber n) => Some n | _ => None end.
Definition as_NSString (v : option ns_value) : option string :=
  match v with Some (NSString s) => Some s | _ => None end.

(** [-[NSNumber intValue]]: truncation to a 32-bit [int]. *)
Definition intValue (n : Z) : Z := wrap32 n.

Lemma intValue_small n : - 2 ^ 31 <= n < 2 ^ 31 -> intValue n = n.
Proof. intros Hn. apply wrap32_small. unfold INT_MIN, INT_MAX. lia. Qed.

(** ** The archive *)
Inductive archived :=
| ADictionary (d : dictionary)
| AValue (v : ns_value).

Abbreviation Coder := (gmap string archived).

Definition kSerializedUserDataKey : string := "serializedUserData".

Definition GetLegacyKeyConversion : list (string * string) :=
  [("tabId"%string, "TabID"%string);
   ("openerId"%string, "OpenerID"%string);
   ("openerNavigationIndex"%string, "OpenerNavigationIndex"%string)].

(** ** [SerializableUserDataImpl] *)
Record SerializableUserDataImpl := {
  sud_data : dictionary;
  legacy_key_conversions_ : list (string * string);
}.

Definition SerializableUserDataImpl_new : SerializableUserDataImpl :=
  {| sud_data := ∅; legacy_key_conversions_ := GetLegacyKeyConversion |}.

(** The constructor from a dictionary leaves the conversions nil. *)
Definition SerializableUserDataImpl_of (data : dictionary)
    : SerializableUserDataImpl :=
  {| sud_data := data; legacy_key_conversions_ := [] |}.

Definition Encode (u : SerializableUserDataImpl) (coder : Coder) : Coder :=
  <[kSerializedUserDataKey := ADictionary (sud_data u)]> coder.

(** One legacy key: storing nil under a subscript stores nothing. *)
Definition decode_legacy (coder : Coder) (kv : string * string)
    (legacy_values : dictionary) : dictionary :=
  match coder !! kv.1 with
  | Some (AValue v) => <[kv.2 := v]> legacy_values
  | _ => legacy_values
  end.

Definition GetDecodedLegacyValues (u : SerializableUserDataImpl)
    (coder : Coder) : dictionary :=
  fold_left (fun d kv => decode_legacy coder kv d) (legacy_key_conversions_ u) ∅.

(** [addEntriesFromDictionary:] overwrites: the legacy values win.  A value
    that is not a dictionary under the key does not answer the message. *)
Definition Decode (u : SerializableUserDataImpl) (coder : Coder)
    : chk SerializableUserDataImpl :=
  data ← match coder !! kSerializedUserDataKey with
         | None => mret ∅
         | Some (ADictionary d) => mret d
         | Some (AValue _) => Fault
         end;
  mret {| sud_data := GetDecodedLegacyValues u coder ∪ data;
          legacy_key_conversions_ := legacy_key_conversions_ u |}.

(** ** [SerializableUserDataManagerImpl], one per WebState

    [data_store] holds the manager attached to each WebState; asking for the
    manager of a WebState that has none creates an empty one. *)
Abbreviation data_store := (gmap positive dictionary).

Definition FromWebState (store : data_store) (ws : positive) : dictionary :=
  default ∅ (store !! ws).

Definition AddSerializableData (ws : positive) (data : ns_value) (key : string)
    (store : data_store) : chk data_store :=
  _ ← dcheck (negb (String.eqb key ""));
  mret (<[ws := <[key := data]> (FromWebState store ws)]> store).

Definition GetValueForSerializationKey (store : data_store) (ws : positive)
    (key : string) : option ns_value := FromWebState store ws !! key.

Definition CreateSerializableUserData (store : data_store) (ws : positive)
    : SerializableUserDataImpl :=
  SerializableUserDataImpl_of (FromWebState store ws).

(** The manager's dictionary is replaced by the decoded one. *)
Definition AddSerializableUserData (ws : positive)
    (data : option SerializableUserDataImpl) (store : data_store) : data_store :=
  match data with
  | Some d => <[ws := sud_data d]> store
  | None => store
  end.

(** ** Theorems *)

(** A coder in which nothing was archived under the old keys. *)
Definition no_legacy (coder : Coder) : Prop :=
  forall kv, kv ∈ GetLegacyKeyConversion -> coder !! kv.1 = None.

Lemma decode_legacy_none coder l d :
  (forall kv, kv ∈ l -> coder !! kv.1 = None) ->
  fold_left (fun d kv => decode_legacy coder kv d) l d = d.
Proof.
  revert d. induction l as [| kv l IH]; intros d Hl; simpl; [done |].
  unfold decode_legacy at 2. rewrite Hl by left. apply IH.
  intros kv' ?. apply Hl. by right.
Qed.

Lemma Encode_lookup u coder :
  Encode u coder !! kSerializedUserDataKey = Some (ADictionary (sud_data u)).
Proof. apply lookup_insert_eq. Qed.

(** What a WebState's manager holds survives saving and restoring: it
    is encoded, decoded by a freshly created object and added to the manager
    of another WebState, whose dictionary becomes the saved one. *)
Lemma user_data_roundtrip store ws ws' coder :
  no_legacy coder ->
  exists u, Decode SerializableUserDataImpl_new
              (Encode (CreateSerializableUserData store ws) coder) = Ok u /\
    forall store' key,
      GetValueForSerializationKey (AddSerializableUserData ws' (Some u) store')
        ws' key = GetValueForSerializationKey store ws key.
Proof.
  intros Hl. unfold Decode. rewrite Encode_lookup. simpl.
  eexists. split; [done |]. intros store' key.
  unfold GetValueForSerializationKey, FromWebState at 1, AddSerializableUserData.
  rewrite lookup_insert_eq. cbn [default sud_data].
  unfold GetDecodedLegacyValues. rewrite decode_legacy_none.
  - by rewrite (left_id_L ∅ (∪)).
  - intros kv Hkv. unfold Encode. rewrite lookup_insert_ne; [by apply Hl |].
    intros Heq. simpl in Hkv. unfold GetLegacyKeyConversion in Hkv.
    rewrite !elem_of_cons in Hkv.
    destruct Hkv as [-> | [-> | [-> | Hkv]]]; try done.
    by apply not_elem_of_nil in Hkv.
Qed.

(** Sessions of older versions keep their identifiers: a value archived
    under a legacy key is found under the new key, and takes precedence over
    a value of the dictionary. *)
Lemma legacy_keys_migrate old_key new_key v coder :
  (old_key, new_key) ∈ GetLegacyKeyConversion ->
  coder !! old_key = Some (AValue v) ->
  (forall x, coder !! kSerializedUserDataKey <> Some (AValue x)) ->
  exists u, Decode SerializableUserDataImpl_new coder = Ok u /\
            sud_data u !! new_key = Some v.
Proof.
  intros Hkey Hv Hdict. unfold Decode.
  assert (GetDecodedLegacyValues SerializableUserDataImpl_new coder !! new_key
          = Some v) as Hleg.
  { unfold GetDecodedLegacyValues. simpl. unfold decode_legacy.
    assert (forall k (f : ns_value -> dictionary) d,
      match coder !! k with Some (AValue x) => f x | _ => d end !! new_key
      = match coder !! k with Some (AValue x) => f x !! new_key
                            | _ => d !! new_key end) as Hm.
    { intros k f d. by destruct (coder !! k) as [[]|]. }
    unfold GetLegacyKeyConversion in Hkey. rewrite !elem_of_cons in Hkey.
    destruct Hkey as [[= -> ->] | [[= -> ->] | [[= -> ->] | Hkey]]];
      [| | | by apply not_elem_of_nil in Hkey];
      simpl; rewrite Hv; rewrite ?Hm;
      repeat (case_match; rewrite ?lookup_insert_eq; simplify_map_eq; try done). }
  destruct (coder !! kSerializedUserDataKey) as [[d | x] |] eqn:Hd; simpl.
  - eexists. split; [done |]. simpl. by apply lookup_union_Some_l.
  - by destruct (Hdict x).
  - eexists. split; [done |]. simpl. by apply lookup_union_Some_l.
Qed.

Lemma user_data_roundtrip_witness :
  let store : data_store := {[ 1%positive := {[ "TabID"%string := NSString "a" ]} ]} in
  exists u, Decode SerializableUserDataImpl_new
              (Encode (CreateSerializableUserData store 1) ∅) = Ok u /\
    GetValueForSerializationKey (AddSerializableUserData 2 (Some u) ∅) 2 "TabID"
    = GetValueForSerializationKey store 1 "TabID".
Proof.
  intros store. destruct (user_data_roundtrip store 1 2 ∅) as (u & Hu & Hget).
  - intros kv _. apply lookup_empty.
  - exists u. split; [exact Hu | apply Hget].
Defined.

Lemma legacy_keys_migrate_witness :
  exists u, Decode SerializableUserDataImpl_new
              {[ "openerId"%string := AValue (NSString "x") ]} = Ok u /\
            sud_data u !! "OpenerID"%string = Some (NSString "x").
Proof.
  apply (legacy_keys_migrate "openerId" "OpenerID" (NSString "x")).
  - decide_closed.
  - done.
  - intros x. done.
Defined.
