(* ===== verification/WebStateListSerialization.v ===== *)
(** * Saving and restoring a WebStateList

    [web_state_list_serialization.mm] and [sessions/session_window_ios.mm]:
    the tabs of a window become a [SessionWindowIOS]; the opener of a tab is
    saved, as the index of a tab, in the tab's serializable user data.

    Creating a WebState from a saved session is the [WebStateFactory] callback
    of the caller: a parameter of the model. *)
From S2P Require Import Prelude External WebStateList SerializableUserData.

Definition kOpenerIndexKey : string := "OpenerIndex".
Definition kOpenerNavigationIndexKey : string := "OpenerNavigationIndex".
Definition kObjectIDKey : string := "TabID".
Definition kOpenerIDKey : string := "OpenerID".

(** [NSNotFound] of a 64-bit build, [NSNotFound32]. *)
Definition NSNotFound : Z := 2 ^ 63 - 1.
Definition NSNotFound32 : Z := INT_MAX.
#[global] Arguments NSNotFound : simpl never.
#[global] Arguments NSNotFound32 : simpl never.

(** [CRWSessionStorage]: the user data, and the rest of the tab's state. *)
Record CRWSessionStorage (Rest : Type) := {
  userData : dictionary;
  rest : Rest;
}.
Arguments userData {Rest} _.
Arguments rest {Rest} _.

(** ** [SessionWindowIOS] *)

Record SessionWindowIOS (Rest : Type) := {
  sessions : list (CRWSessionStorage Rest);
  selectedIndex : Z;
}.
Arguments sessions {Rest} _.
Arguments selectedIndex {Rest} _.

Definition IsIndexValidForSessionCount (index session_count : Z) : bool :=
  if session_count =? 0 then index =? NSNotFound else index <? session_count.

(** The archive of a window: the index key holds an [int32_t]. *)
Record window_coder (Rest : Type) := {
  coded_index : option Z;
  coded_sessions : option (list (CRWSessionStorage Rest));
}.
Arguments coded_index {Rest} _.
Arguments coded_sessions {Rest} _.

(** [decodeInt32ForKey:] of an absent key is 0. *)
Definition cr_decodeIndexForKey (coded : option Z) : chk Z :=
  let index32 := default 0 coded in
  _ ← dcheck ((0 <=? index32) && (index32 <=? NSNotFound32));
  mret (if index32 =? NSNotFound32 then NSNotFound else index32).

Definition cr_encodeIndex (index : Z) : chk Z :=
  _ ← dcheck (((0 <=? index) && (index <? NSNotFound32))
              || (index =? NSNotFound));
  mret (if index =? NSNotFound then NSNotFound32 else index).

Section window.
Context {Rest : Type}.

Definition initWithSessions (l : list (CRWSessionStorage Rest))
    (index : Z) : chk (SessionWindowIOS Rest) :=
  _ ← dcheck (IsIndexValidForSessionCount index (vsize l));
  mret {| sessions := l; selectedIndex := index |}.

Definition initWithCoder (c : window_coder Rest)
    : chk (SessionWindowIOS Rest) :=
  index ← cr_decodeIndexForKey (coded_index c);
  let l := default [] (coded_sessions c) in
  let index :=
    if negb (IsIndexValidForSessionCount index (vsize l))
    then (if vsize l =? 0 then NSNotFound else 0)
    else index in
  initWithSessions l index.

Definition encodeWithCoder (w : SessionWindowIOS Rest)
    : chk (window_coder Rest) :=
  index32 ← cr_encodeIndex (selectedIndex w);
  mret {| coded_index := Some index32; coded_sessions := Some (sessions w) |}.
End window.

(** ** Restoring the openers *)

Section restoring.
Context `{OpenerNavigation}.

(** Whether some restored WebState lacks the new key. *)
Definition IsSessionUsingLegacyFormat (store : data_store) (s : WebStateList)
    (old_count : Z) : chk bool :=
  for_indices (Z.to_nat (count s - old_count)) old_count
    (fun index (found : bool) =>
       if found then mret true
       else
         p ← GetWebStateAt s index;
         ws ← deref p;
         mret (match GetValueForSerializationKey store ws kOpenerIndexKey with
               | None => true | Some _ => false end))
    false.

(** First loop of [RestoreRelationshipLegacy]: identifiers to WebStates. *)
Definition collect_ids (store : data_store) (s : WebStateList) (old_count : Z)
    : chk (gmap string WebState) :=
  for_indices (Z.to_nat (count s - old_count)) old_count
    (fun index id_to_web_state =>
       p ← GetWebStateAt s index;
       ws ← deref p;
       match as_NSString (GetValueForSerializationKey store ws kObjectIDKey) with
       | None => mret id_to_web_state
       | Some object_id =>
           if String.eqb object_id "" then mret id_to_web_state
           else match id_to_web_state !! object_id with
                | Some _ => mret id_to_web_state
                | None => mret (<[object_id := ws]> id_to_web_state)
                end
       end)
    ∅.

Definition restore_legacy_at (store : data_store)
    (id_to_web_state : gmap string WebState) (index : Z) (s : WebStateList)
    : chk WebStateList :=
  p ← GetWebStateAt s index;
  ws ← deref p;
  match as_NSString (GetValueForSerializationKey store ws kOpenerIDKey),
        as_NSNumber (GetValueForSerializationKey store ws
                       kOpenerNavigationIndexKey) with
  | Some opener_id, Some boxed_opener_navigation_index =>
      if String.eqb opener_id "" then mret s
      else match id_to_web_state !! opener_id with
           | None => mret s
           | Some opener_web_state =>
               SetOpenerOfWebStateAt index
                 {| opener := Some opener_web_state;
                    navigation_index := intValue boxed_opener_navigation_index |}
                 s
           end
  | _, _ => mret s
  end.

Definition RestoreRelationshipLegacy (store : data_store) (s : WebStateList)
    (old_count : Z) : chk WebStateList :=
  ids ← collect_ids store s old_count;
  for_indices (Z.to_nat (count s - old_count)) old_count
    (restore_legacy_at store ids) s.

(** One iteration of [RestoreRelationship]. *)
Definition restore_at (store : data_store) (old_count : Z) (index : Z)
    (s : WebStateList) : chk WebStateList :=
  p ← GetWebStateAt s index;
  ws ← deref p;
  match as_NSNumber (GetValueForSerializationKey store ws kOpenerIndexKey),
        as_NSNumber (GetValueForSerializationKey store ws
                       kOpenerNavigationIndexKey) with
  | Some boxed_opener_index, Some boxed_opener_navigation_index =>
      let opener_index := intValue boxed_opener_index + old_count in
      if (opener_index <? old_count) || (count s <=? opener_index) then mret s
      else
        o ← GetWebStateAt s opener_index;
        SetOpenerOfWebStateAt index
          {| opener := o;
             navigation_index := intValue boxed_opener_navigation_index |} s
  | _, _ => mret s
  end.

Definition RestoreRelationship (store : data_store) (s : WebStateList)
    (old_count : Z) : chk WebStateList :=
  legacy ← IsSessionUsingLegacyFormat store s old_count;
  if (legacy : bool) then RestoreRelationshipLegacy store s old_count
  else for_indices (Z.to_nat (count s - old_count)) old_count
         (restore_at store old_count) s.
End restoring.

(** ** [SerializeWebStateList], [DeserializeWebStateList] *)

Section serialization.
Context `{OpenerNavigation} {Rest : Type} (build_rest : WebState -> Rest).
(** [web_state_factory.Run(session)]: a WebState and the user data store in
    which it is registered. *)
Context (web_state_factory :
           CRWSessionStorage Rest -> data_store -> WebState * data_store).

Definition BuildSessionStorage (store : data_store) (ws : WebState)
    : CRWSessionStorage Rest :=
  {| userData := sud_data (CreateSerializableUserData store ws);
     rest := build_rest ws |}.

(** One iteration of the loop of [SerializeWebStateList]. *)
Definition serialize_at (s : WebStateList) (index : Z)
    (st : list (CRWSessionStorage Rest) * data_store)
    : chk (list (CRWSessionStorage Rest) * data_store) :=
  let '(serialized_session, store) := st in
  p ← GetWebStateAt s index;
  o ← GetOpenerOfWebStateAt s index;
  ws ← deref p;
  store ←
    match opener o with
    | Some _ =>
        let opener_index := GetIndexOfWebState s (opener o) in
        _ ← dcheck (negb (opener_index =? kInvalidIndex));
        store ← AddSerializableData ws (NSNumber opener_index) kOpenerIndexKey
                  store;
        AddSerializableData ws (NSNumber (navigation_index o))
          kOpenerNavigationIndexKey store
    | None =>
        store ← AddSerializableData ws NSNull kOpenerIndexKey store;
        AddSerializableData ws NSNull kOpenerNavigationIndexKey store
    end;
  mret (serialized_session ++ [BuildSessionStorage store ws], store).

Definition SerializeWebStateList (s : WebStateList) (store : data_store)
    : chk (SessionWindowIOS Rest * data_store) :=
  '(serialized_session, store) ←
    for_indices (Z.to_nat (count s)) 0 (serialize_at s) ([], store);
  let selectedIndex :=
    if negb (active_index_ s =? kInvalidIndex) then active_index_ s
    else NSNotFound in
  w ← initWithSessions serialized_session selectedIndex;
  mret (w, store).

Fixpoint insert_sessions (l : list (CRWSessionStorage Rest))
    (s : WebStateList) (store : data_store) : chk (WebStateList * data_store) :=
  match l with
  | [] => mret (s, store)
  | session :: l =>
      let '(ws, store) := web_state_factory session store in
      s ← InsertWebState (count s) (Some ws) s;
      insert_sessions l s store
  end.

Definition DeserializeWebStateList (session_window : SessionWindowIOS Rest)
    (s : WebStateList) (store : data_store)
    : chk (WebStateList * data_store) :=
  let old_count := count s in
  '(s, store) ← insert_sessions (sessions session_window) s store;
  s ← RestoreRelationship store s old_count;
  s ← (if negb (selectedIndex session_window =? NSNotFound)
       then
         _ ← dcheck (selectedIndex session_window
                     <? vsize (sessions session_window));
         _ ← dcheck (selectedIndex session_window <? INT_MAX);
         ActivateWebStateAt (old_count + selectedIndex session_window) s
       else mret s);
  mret (s, store).
End serialization.

(** ** The window's archive *)

Lemma NSNotFound32_lt : NSNotFound32 < NSNotFound.
Proof. by vm_compute. Qed.

(**  A window is read back from its archive as it was saved. *)
Lemma session_window_roundtrip {Rest} (w : SessionWindowIOS Rest) c :
  IsIndexValidForSessionCount (selectedIndex w) (vsize (sessions w)) = true ->
  encodeWithCoder w = Ok c -> initWithCoder c = Ok w.
Proof.
  intros Hv Henc. unfold encodeWithCoder in Henc. chk_inv Henc.
  unfold cr_encodeIndex in Hrun. chk_inv Hrun.
  apply dcheck_Ok in Hrun1. injection Hrun2 as <-. injection Hrun0 as <-.
  unfold initWithCoder, cr_decodeIndexForKey. simpl.
  pose proof NSNotFound32_lt. assert (0 < NSNotFound32) by (by vm_compute).
  rewrite dcheck_true.
  2: { revert Hrun1. destruct (Z.eqb_spec (selectedIndex w) NSNotFound);
       simpl; case_bool; simpl; done. }
  assert ((if (if selectedIndex w =? NSNotFound then NSNotFound32
               else selectedIndex w) =? NSNotFound32
           then NSNotFound
           else if selectedIndex w =? NSNotFound then NSNotFound32
                else selectedIndex w) = selectedIndex w) as Hidx.
  { revert Hrun1. destruct (Z.eqb_spec (selectedIndex w) NSNotFound) as [->|];
      simpl; case_bool; simpl; done. }
  simpl. rewrite Hidx, Hv. simpl. unfold initWithSessions. rewrite Hv. simpl.
  by destruct w.
Qed.

(** Reading an archive never fails a check, whatever index it holds: an
    index that does not fit the restored sessions is replaced by a valid one. *)
Lemma initWithCoder_total {Rest} (c : window_coder Rest) :
  (forall i, coded_index c = Some i -> 0 <= i < 2 ^ 31) ->
  exists w, initWithCoder c = Ok w /\
    IsIndexValidForSessionCount (selectedIndex w) (vsize (sessions w)) = true /\
    sessions w = default [] (coded_sessions c).
Proof.
  intros Hi. unfold initWithCoder, cr_decodeIndexForKey.
  assert (0 <= default 0 (coded_index c) <= NSNotFound32) as Hr.
  { unfold NSNotFound32, INT_MAX. destruct (coded_index c) as [i|]; simpl; [| lia].
    specialize (Hi i eq_refl). lia. }
  rewrite (dcheck_true (_ && _)) by (case_bool; done). simpl.
  set (l := default [] (coded_sessions c)).
  set (index := if _ =? NSNotFound32 then _ else _).
  unfold initWithSessions.
  assert (0 <= vsize l) by apply vsize_nonneg.
  destruct (IsIndexValidForSessionCount index (vsize l)) eqn:Hv; simpl.
  - rewrite Hv. simpl. by eexists.
  - assert (IsIndexValidForSessionCount
              (if vsize l =? 0 then NSNotFound else 0) (vsize l) = true) as ->.
    { unfold IsIndexValidForSessionCount. case_bool; done. }
    simpl. eexists. split; [done |]. simpl. split; [| done].
    unfold IsIndexValidForSessionCount. case_bool; done.
Qed.

(** ** The saved opener structure *)

(** The opener of each tab as an index and a navigation index. *)
Definition opener_shape (s : WebStateList) (w : WebStateWrapper)
    : option (Z * Z) :=
  match opener (opener_ w) with
  | None => None
  | Some p => Some (GetIndexOfWebState s (Some p), navigation_index (opener_ w))
  end.

Definition shape (s : WebStateList) : list (option (Z * Z)) :=
  opener_shape s <$> web_state_wrappers_ s.

(** User data that records an opener. *)
Definition saves_shape (d : dictionary) (sh : option (Z * Z)) : Prop :=
  match sh with
  | None => d !! kOpenerIndexKey = Some NSNull /\
            d !! kOpenerNavigationIndexKey = Some NSNull
  | Some (i, n) => d !! kOpenerIndexKey = Some (NSNumber i) /\
                   d !! kOpenerNavigationIndexKey = Some (NSNumber n)
  end.

(** The user data of a tab, with its opener recorded. *)
Definition record_opener (sh : option (Z * Z)) (d : dictionary) : dictionary :=
  match sh with
  | None => <[kOpenerNavigationIndexKey := NSNull]>
              (<[kOpenerIndexKey := NSNull]> d)
  | Some (i, n) => <[kOpenerNavigationIndexKey := NSNumber n]>
                     (<[kOpenerIndexKey := NSNumber i]> d)
  end.

Lemma record_opener_saves d sh : saves_shape (record_opener sh d) sh.
Proof.
  destruct sh as [[i n]|]; simpl;
    by rewrite lookup_insert_ne, !lookup_insert_eq.
Qed.

Lemma FromWebState_insert (store : data_store) ws d :
  FromWebState (<[ws := d]> store) ws = d.
Proof. unfold FromWebState. by rewrite lookup_insert_eq. Qed.

Lemma FromWebState_insert_ne (store : data_store) ws ws' d :
  ws <> ws' -> FromWebState (<[ws := d]> store) ws' = FromWebState store ws'.
Proof. intros ?. unfold FromWebState. by rewrite lookup_insert_ne. Qed.

(** The WebState of a wrapper, which a well-formed list has. *)
Lemma wrapper_web_state s (i : nat) x :
  wf s -> web_state_wrappers_ s !! i = Some x ->
  exists p, web_state_ x = Some p.
Proof.
  intros Hwf Hx. apply (web_state_of_elem _ (Z.of_nat i) _ (wf_wrappers _ Hwf)).
  apply vget_Ok. rewrite Nat2Z.id. split; [lia | done].
Qed.

Lemma wrapper_inj s (i j : nat) x y :
  wf s -> web_state_wrappers_ s !! i = Some x ->
  web_state_wrappers_ s !! j = Some y -> web_state_ x = web_state_ y -> i = j.
Proof.
  intros [[Hnd _ _] _] Hx Hy E. unfold pointers in Hnd.
  apply (NoDup_lookup _ i j (web_state_ x) Hnd);
    rewrite list_lookup_fmap; [by rewrite Hx | by rewrite Hy, E].
Qed.

Section saving.
Context `{OpenerNavigation} {Rest : Type} (build_rest : WebState -> Rest).

(** What is saved of a tab: its user data with its opener, and its state. *)
Definition saves_tab (s : WebStateList) (store : data_store)
    (x : WebStateWrapper) (session : CRWSessionStorage Rest) : Prop :=
  exists p, web_state_ x = Some p /\
    userData session = record_opener (opener_shape s x) (FromWebState store p) /\
    rest session = build_rest p.

Lemma serialize_at_Ok s (i : nat) x p acc store :
  wf s -> web_state_wrappers_ s !! i = Some x -> web_state_ x = Some p ->
  let d := record_opener (opener_shape s x) (FromWebState store p) in
  serialize_at build_rest s (Z.of_nat i) (acc, store)
  = Ok (acc ++ [{| userData := d; rest := build_rest p |}], <[p := d]> store).
Proof.
  intros Hwf Hx Hp d.
  assert (vget (web_state_wrappers_ s) (Z.of_nat i) = Ok x) as Hv.
  { apply vget_Ok. rewrite Nat2Z.id. split; [lia | done]. }
  pose proof (vget_count _ _ _ Hv) as Hi.
  unfold serialize_at, GetWebStateAt, GetOpenerOfWebStateAt.
  rewrite dcheck_true by (by apply ContainsIndex_spec). simpl.
  rewrite Hv. simpl. rewrite Hp. simpl. unfold d, opener_shape.
  destruct (opener (opener_ x)) as [q|] eqn:Hq.
  - destruct (opener_of_elem _ _ _ (wf_wrappers _ Hwf) Hv q Hq) as [Hin _].
    pose proof (GetIndexOfWebState_range s _ Hin) as Hr.
    rewrite dcheck_true by (unfold kInvalidIndex; case_bool; done). simpl.
    unfold BuildSessionStorage, CreateSerializableUserData. simpl.
    by rewrite !FromWebState_insert, insert_insert_eq.
  - simpl. unfold BuildSessionStorage, CreateSerializableUserData. simpl.
    by rewrite !FromWebState_insert, insert_insert_eq.
Qed.

(** The loop saves every tab, and touches the user data of the tabs only. *)
Lemma serialize_loop_Ok s store :
  wf s -> exists l store',
    for_indices (Z.to_nat (count s)) 0 (serialize_at build_rest s) ([], store)
    = Ok (l, store') /\
    Forall2 (saves_tab s store) (web_state_wrappers_ s) l.
Proof.
  intros Hwf.
  destruct (for_indices_Ok
    (fun i st =>
       Forall2 (saves_tab s store)
         (take (Z.to_nat i) (web_state_wrappers_ s)) st.1 /\
       forall (j : nat) x p, i <= Z.of_nat j ->
         web_state_wrappers_ s !! j = Some x -> web_state_ x = Some p ->
         FromWebState st.2 p = FromWebState store p)
    (serialize_at build_rest s) (Z.to_nat (count s)) 0 ([], store))
    as ([l store'] & -> & [Hall _]).
  - by rewrite take_0.
  - intros i [acc st] Hi [Hall Hst]. simpl in Hall, Hst.
    destruct (lookup_lt_is_Some_2 (web_state_wrappers_ s) (Z.to_nat i))
      as [x Hx]; [rewrite count_length in Hi; lia |].
    destruct (wrapper_web_state _ _ _ Hwf Hx) as [p Hp].
    pose proof (serialize_at_Ok s _ x p acc st Hwf Hx Hp) as E. cbv zeta in E.
    rewrite Z2Nat.id in E by lia. rewrite E. eexists. split; [done |].
    simpl. replace (Z.to_nat (i + 1)) with (S (Z.to_nat i)) by lia. split.
    + rewrite (take_S_r _ _ x Hx). apply Forall2_app; [done |].
      constructor; [| constructor]. exists p. simpl.
      by rewrite (Hst (Z.to_nat i) x p) by (done || lia).
    + intros j y q Hj Hy Hq. rewrite FromWebState_insert_ne.
      * apply (Hst j y q); [lia | done | done].
      * intros <-. assert (Z.to_nat i = j); [| lia].
        apply (wrapper_inj s _ _ x y Hwf Hx Hy). congruence.
  - exists l, store'. split; [done |]. simpl in Hall.
    rewrite take_ge in Hall by (rewrite count_length; lia). done.
Qed.

(** Saving fails a check exactly when the list has tabs and no active one. *)
Lemma SerializeWebStateList_cases s store :
  wf s -> count s <= INT_MAX ->
  (SerializeWebStateList build_rest s store = Fault
   <-> web_state_wrappers_ s <> [] /\ active_index_ s = kInvalidIndex) /\
  (forall w store1, SerializeWebStateList build_rest s store = Ok (w, store1) ->
   Forall2 (saves_tab s store) (web_state_wrappers_ s) (sessions w) /\
   selectedIndex w = (if active_index_ s =? kInvalidIndex then NSNotFound
                      else active_index_ s)).
Proof.
  intros Hwf Hmax. pose proof (wf_active _ Hwf) as Ha.
  destruct (serialize_loop_Ok s store Hwf) as (l & st & E & Hall).
  assert (vsize l = count s) as Hl.
  { unfold vsize. by rewrite <- (Forall2_length _ _ _ Hall), count_length. }
  assert (count s = 0 <-> web_state_wrappers_ s = []) as Hnil.
  { rewrite count_length. destruct (web_state_wrappers_ s); simpl; split;
      intros; (done || lia). }
  unfold SerializeWebStateList. rewrite E. simpl. unfold initWithSessions.
  rewrite Hl. unfold IsIndexValidForSessionCount, kInvalidIndex in *.
  pose proof NSNotFound32_lt. unfold NSNotFound32 in *.
  destruct (Z.eqb_spec (active_index_ s) (-1)) as [E1|E1]; simpl;
    destruct (Z.eqb_spec (count s) 0) as [E0|E0]; simpl.
  - split; [split; [done | intros [? _]; tauto] |].
    intros w store1 [= <- <-]. done.
  - rewrite (proj2 (Z.ltb_ge _ _)) by lia. simpl.
    split; [split; [intros _; split; [tauto | done] | done] | done].
  - lia.
  - rewrite (proj2 (Z.ltb_lt _ _)) by lia. simpl.
    split; [split; [done | by intros [_ ?]] |].
    intros w store1 [= <- <-]. done.
Qed.
End saving.


(** ** Restoring a saved window *)

(** A shape that [int] indices can record: every opener is another tab. *)
Definition valid_shape (sh : list (option (Z * Z))) : Prop :=
  forall i k n, sh !! i = Some (Some (k, n)) ->
    0 <= k < Z.of_nat (length sh) /\ k <> Z.of_nat i /\ - 2 ^ 31 <= n < 2 ^ 31.

(** A shape in a list that has [n] tabs before it. *)
Definition shift_opener (n : Z) (x : option (Z * Z)) : option (Z * Z) :=
  match x with
  | None => None
  | Some (k, nav) => Some (n + k, nav)
  end.

(** [base] holds the tabs the list had before; [ptrs] are the WebStates made
    from the saved sessions. *)
Section restoring_openers.
Context `{OpenerNavigation} (base : list WebStateWrapper) (ptrs : list WebState)
  (sh : list (option (Z * Z))) (store : data_store).
Hypothesis ptrs_nodup : NoDup (pointers base ++ (Some <$> ptrs)).
Hypothesis ptrs_length : length ptrs = length sh.
Hypothesis sh_valid : valid_shape sh.
Hypothesis sh_size : vsize base + vsize sh <= INT_MAX.
Hypothesis saved : forall (i : nat) (p : WebState) (x : option (Z * Z)),
  ptrs !! i = Some p -> sh !! i = Some x ->
  saves_shape (FromWebState store p) x.

(** The opener that an entry of the shape stands for. *)
Definition target (x : option (Z * Z)) : WebStateOpener :=
  match x with
  | None => no_opener
  | Some (k, n) => {| opener := ptrs !! Z.to_nat k; navigation_index := n |}
  end.

(** The list once the openers of the first [i] new tabs are restored. *)
Record restored (i : Z) (s : WebStateList) : Prop := {
  restored_length : length (web_state_wrappers_ s) = (length base + length sh)%nat;
  restored_base : forall (j : nat) w,
    base !! j = Some w -> web_state_wrappers_ s !! j = Some w;
  restored_at : forall (j : nat) p x, ptrs !! j = Some p -> sh !! j = Some x ->
    web_state_wrappers_ s !! (length base + j)%nat
    = Some {| web_state_ := Some p;
              opener_ := if Z.of_nat j <? i then target x else no_opener |};
}.

Lemma restored_take i s :
  restored i s -> take (length base) (web_state_wrappers_ s) = base.
Proof.
  intros Hr. apply list_eq. intros j. destruct (base !! j) as [w|] eqn:Hw.
  - rewrite lookup_take_lt by (by eapply lookup_lt_Some).
    apply (restored_base _ _ Hr j w Hw).
  - apply lookup_ge_None in Hw. apply lookup_ge_None. rewrite length_take. lia.
Qed.

Lemma restored_pointers i s :
  restored i s ->
  pointers (web_state_wrappers_ s) = pointers base ++ (Some <$> ptrs).
Proof.
  intros Hr. rewrite <- (take_drop (length base) (web_state_wrappers_ s)).
  rewrite (restored_take _ _ Hr). unfold pointers. rewrite fmap_app. f_equal.
  apply list_eq. intros j. rewrite !list_lookup_fmap, lookup_drop.
  destruct (ptrs !! j) as [p|] eqn:Hp.
  - destruct (lookup_lt_is_Some_2 sh j) as [x Hx].
    { rewrite <- ptrs_length. by eapply lookup_lt_Some. }
    by rewrite (restored_at _ _ Hr j p x Hp Hx).
  - apply lookup_ge_None in Hp. rewrite lookup_ge_None_2; [done |].
    rewrite (restored_length _ _ Hr). lia.
Qed.

Lemma restored_count i s : restored i s -> count s = vsize base + vsize sh.
Proof.
  intros Hr. rewrite count_length, (restored_length _ _ Hr).
  unfold vsize. lia.
Qed.

Lemma restored_GetWebStateAt i s k p :
  restored i s -> 0 <= k -> ptrs !! Z.to_nat k = Some p ->
  GetWebStateAt s (vsize base + k) = Ok (Some p) /\
  GetIndexOfWebState s (Some p) = vsize base + k.
Proof.
  intros Hr Hk Hp. pose proof (restored_pointers i s Hr) as Hptr.
  assert (0 <= vsize base + k < count s) as Hc.
  { rewrite (restored_count _ _ Hr). unfold vsize.
    apply lookup_lt_Some in Hp. lia. }
  destruct (GetWebStateAt_Ok s _ Hc) as (w & Hw & Hget).
  assert (web_state_ w = Some p) as Hwp.
  { apply vget_Ok in Hw as [_ Hw].
    assert (pointers (web_state_wrappers_ s) !! (length base + Z.to_nat k)%nat
            = Some (Some p)) as E.
    { rewrite Hptr, lookup_app_r by (unfold pointers; rewrite length_fmap; lia).
      unfold pointers. rewrite length_fmap, list_lookup_fmap.
      replace (length base + Z.to_nat k - length base)%nat with (Z.to_nat k) by lia.
      by rewrite Hp. }
    replace (Z.to_nat (vsize base + k)) with (length base + Z.to_nat k)%nat in Hw
      by (unfold vsize; lia).
    unfold pointers in E. rewrite list_lookup_fmap, Hw in E. simpl in E.
    congruence. }
  rewrite <- Hwp. split; [congruence |].
  apply GetIndexOfWebState_nodup; [by rewrite Hptr | done].
Qed.

Lemma restored_step (i : nat) s s' p x :
  ptrs !! i = Some p -> sh !! i = Some x -> restored (Z.of_nat i) s ->
  web_state_wrappers_ s'
  = <[(length base + i)%nat := {| web_state_ := Some p; opener_ := target x |}]>
      (web_state_wrappers_ s) ->
  restored (Z.of_nat i + 1) s'.
Proof.
  intros Hp Hx Hr Hs'. pose proof (restored_at _ _ Hr i p x Hp Hx) as Hwi.
  split.
  - rewrite Hs', length_insert. apply (restored_length _ _ Hr).
  - intros j w Hw. pose proof (lookup_lt_Some _ _ _ Hw).
    rewrite Hs', list_lookup_insert_ne by lia. by apply (restored_base _ _ Hr).
  - intros j q y Hq Hy. rewrite Hs'. destruct (decide (j = i)) as [->|Hji].
    + rewrite list_lookup_insert_eq by (by eapply lookup_lt_Some).
      case_bool. congruence.
    + rewrite list_lookup_insert_ne by lia.
      rewrite (restored_at _ _ Hr j q y Hq Hy). case_bool; done.
Qed.

(** One iteration of the restoring loop. *)
Lemma restore_at_restored (i : nat) s :
  (i < length sh)%nat -> restored (Z.of_nat i) s ->
  exists s', restore_at store (vsize base) (vsize base + Z.of_nat i) s = Ok s' /\
    restored (Z.of_nat i + 1) s' /\ active_index_ s' = active_index_ s.
Proof.
  intros Hi Hr.
  destruct (lookup_lt_is_Some_2 sh i Hi) as [x Hx].
  destruct (lookup_lt_is_Some_2 ptrs i) as [p Hp]; [lia |].
  destruct (restored_GetWebStateAt _ s (Z.of_nat i) p Hr) as [Hget _];
    [lia | by rewrite Nat2Z.id |].
  pose proof (restored_at _ _ Hr i p x Hp Hx) as Hwi.
  pose proof (restored_count _ _ Hr) as Hc.
  assert (Z.to_nat (vsize base + Z.of_nat i) = (length base + i)%nat) as Hidx
    by (unfold vsize; lia).
  assert (forall s', web_state_wrappers_ s'
            = <[(length base + i)%nat :=
                  {| web_state_ := Some p; opener_ := target x |}]>
                (web_state_wrappers_ s) ->
          restored (Z.of_nat i + 1) s') as Hnext by eauto using restored_step.
  unfold restore_at. rewrite Hget. simpl. unfold GetValueForSerializationKey.
  pose proof (saved i p x Hp Hx) as Hsv. destruct x as [[k n]|]; simpl in Hsv;
    destruct Hsv as [-> ->]; simpl.
  - destruct (sh_valid i k n Hx) as (Hk & _ & Hn). unfold vsize, INT_MAX in *.
    rewrite !intValue_small, (Z.add_comm k), Hc by lia.
    rewrite (proj2 (Z.ltb_ge _ _)), (proj2 (Z.leb_gt _ _)) by lia. simpl.
    destruct (lookup_lt_is_Some_2 ptrs (Z.to_nat k)) as [q Hq]; [lia |].
    destruct (restored_GetWebStateAt _ s k q Hr) as [Hgq Hgi]; [lia | done |].
    unfold vsize in Hgq, Hgi. rewrite Hgq.
    simpl. unfold SetOpenerOfWebStateAt. simpl.
    rewrite Hgi, !dcheck_true by (apply ContainsIndex_spec; lia). simpl.
    rewrite (proj2 (vget_Ok _ _ _)) by (rewrite Hidx; split; [lia | done]).
    simpl. eexists. split; [done |]. split; [| done]. apply Hnext. simpl.
    rewrite vset_in_range, Hidx by lia. unfold set_opener, target. simpl.
    by rewrite Hq.
  - eexists. split; [done |]. split; [| done]. apply Hnext.
    rewrite list_insert_id; [done |]. rewrite Hwi.
    rewrite Z.ltb_irrefl. done.
Qed.

(** The new format is recognised. *)
Lemma not_legacy s :
  restored 0 s -> IsSessionUsingLegacyFormat store s (vsize base) = Ok false.
Proof.
  intros Hr. unfold IsSessionUsingLegacyFormat.
  pose proof (restored_count _ _ Hr) as Hc.
  match goal with |- for_indices ?n ?k ?body _ = _ =>
    destruct (for_indices_Ok (fun _ b => b = false) body n k false eq_refl)
      as (b & -> & ->) end; [| done].
  intros i b Hi ->. exists false. split; [| done].
  unfold vsize in *. set (j := i - Z.of_nat (length base)).
  destruct (lookup_lt_is_Some_2 sh (Z.to_nat j)) as [x Hx]; [lia |].
  destruct (lookup_lt_is_Some_2 ptrs (Z.to_nat j)) as [p Hp]; [lia |].
  destruct (restored_GetWebStateAt _ s j p Hr) as [Hg _]; [lia | done |].
  unfold vsize in Hg. replace (Z.of_nat (length base) + j) with i in Hg by lia.
  rewrite Hg. simpl. unfold GetValueForSerializationKey.
  pose proof (saved _ p x Hp Hx) as Hsv.
  destruct x as [[k n]|]; simpl in Hsv; by destruct Hsv as [-> _].
Qed.

Lemma RestoreRelationship_Ok s :
  restored 0 s -> exists s', RestoreRelationship store s (vsize base) = Ok s' /\
    restored (vsize sh) s' /\ active_index_ s' = active_index_ s.
Proof.
  intros Hr. unfold RestoreRelationship. rewrite not_legacy by done. simpl.
  rewrite (restored_count _ _ Hr).
  destruct (for_indices_Ok
    (fun i s' => restored (i - vsize base) s' /\ active_index_ s' = active_index_ s)
    (restore_at store (vsize base)) (Z.to_nat (vsize base + vsize sh - vsize base))
    (vsize base) s) as (s' & -> & Hr' & Ha').
  - by rewrite Z.sub_diag.
  - intros i s' Hi [Hr' Ha]. unfold vsize in *.
    assert (exists j : nat, i = Z.of_nat (length base) + Z.of_nat j
              /\ (j < length sh)%nat) as (j & -> & Hj).
    { exists (Z.to_nat (i - Z.of_nat (length base))). lia. }
    rewrite Z.add_simpl_l in Hr'.
    destruct (restore_at_restored j s') as (s2 & H2 & Hr2 & Ha2); [done | done |].
    exists s2. split; [done |]. rewrite Ha2, Ha. split; [| done].
    by replace (Z.of_nat (length base) + Z.of_nat j + 1 - Z.of_nat (length base))
      with (Z.of_nat j + 1) by lia.
  - exists s'. split; [done |]. split; [| done]. unfold vsize in *.
    by replace (Z.of_nat (length sh)) with
      (Z.of_nat (length base) +
       Z.of_nat (Z.to_nat (Z.of_nat (length base) + Z.of_nat (length sh)
                           - Z.of_nat (length base)))
       - Z.of_nat (length base)) by lia.
Qed.

(** Every new tab once the openers are restored. *)
Lemma restored_new s (j : nat) p x :
  restored (vsize sh) s -> ptrs !! j = Some p -> sh !! j = Some x ->
  web_state_wrappers_ s !! (length base + j)%nat
  = Some {| web_state_ := Some p; opener_ := target x |}.
Proof.
  intros Hr Hp Hx. rewrite (restored_at _ _ Hr j p x Hp Hx).
  apply lookup_lt_Some in Hx. unfold vsize.
  by rewrite (proj2 (Z.ltb_lt _ _)) by lia.
Qed.

Lemma restored_shape s :
  restored (vsize sh) s ->
  drop (length base) (shape s) = shift_opener (vsize base) <$> sh.
Proof.
  intros Hr. apply list_eq. intros j. unfold shape.
  rewrite lookup_drop, !list_lookup_fmap.
  destruct (sh !! j) as [x|] eqn:Hx.
  - pose proof (lookup_lt_Some _ _ _ Hx) as Hj.
    destruct (lookup_lt_is_Some_2 ptrs j) as [p Hp]; [lia |].
    rewrite (restored_new s j p x Hr Hp Hx). simpl. unfold opener_shape. simpl.
    destruct x as [[k n]|]; [| done]. simpl.
    destruct (sh_valid j k n Hx) as (Hk & _ & _).
    destruct (lookup_lt_is_Some_2 ptrs (Z.to_nat k)) as [q Hq]; [lia |].
    destruct (restored_GetWebStateAt _ s k q Hr) as [_ Hgi]; [lia | done |].
    by rewrite Hq, Hgi.
  - apply lookup_ge_None in Hx. rewrite lookup_ge_None_2; [done |].
    rewrite (restored_length _ _ Hr). lia.
Qed.

(** The restored list is well formed. *)
Lemma restored_wrappers_ok s :
  restored (vsize sh) s -> wrappers_ok base ->
  wrappers_ok (web_state_wrappers_ s).
Proof.
  intros Hr [_ Hnn Hop]. pose proof (restored_pointers _ _ Hr) as Hptr.
  assert (forall i w, web_state_wrappers_ s !! i = Some w ->
    w ∈ base \/ exists j p x, ptrs !! j = Some p /\ sh !! j = Some x /\
      w = {| web_state_ := Some p; opener_ := target x |}) as Hcases.
  { intros i w Hw. destruct (decide (i < length base)%nat) as [Hi|Hi].
    - left. destruct (lookup_lt_is_Some_2 base i Hi) as [w' Hw'].
      rewrite (restored_base _ _ Hr i w' Hw') in Hw. injection Hw as <-.
      by eapply list_elem_of_lookup_2.
    - right. pose proof (lookup_lt_Some _ _ _ Hw) as Hlt.
      rewrite (restored_length _ _ Hr) in Hlt.
      destruct (lookup_lt_is_Some_2 sh (i - length base)) as [x Hx]; [lia |].
      destruct (lookup_lt_is_Some_2 ptrs (i - length base)) as [p Hp]; [lia |].
      exists (i - length base)%nat, p, x. split_and!; [done | done |].
      pose proof (restored_new s _ p x Hr Hp Hx) as E.
      replace (length base + (i - length base))%nat with i in E by lia.
      congruence. }
  split.
  - by rewrite Hptr.
  - apply Forall_lookup. intros i w Hw.
    destruct (Hcases i w Hw) as [Hin | (j & p & x & _ & _ & ->)]; [| by eexists].
    by eapply Forall_forall in Hnn.
  - apply Forall_lookup. intros i w Hw. rewrite Hptr. intros q Hq.
    destruct (Hcases i w Hw) as [Hin | (j & p & x & Hp & Hx & ->)].
    + eapply Forall_forall in Hop; [| done]. destruct (Hop q Hq) as [? ?].
      split; [apply elem_of_app; by left | done].
    + destruct x as [[k n]|]; [| done]. simpl in Hq |- *.
      destruct (sh_valid j k n Hx) as (Hk & Hne & _). split.
      * apply elem_of_app. right. apply list_elem_of_fmap. exists q.
        split; [done |]. by eapply list_elem_of_lookup_2.
      * intros [= ->]. apply NoDup_app in ptrs_nodup as (_ & _ & Hnd).
        apply NoDup_fmap_1 in Hnd.
        pose proof (NoDup_lookup _ _ _ _ Hnd Hp Hq). lia.
Qed.
End restoring_openers.


(** ** Reading back a window *)

Section reading.
Context `{OpenerNavigation} {Rest : Type} (build_rest : WebState -> Rest).
Context (factory : CRWSessionStorage Rest -> data_store
                   -> WebState * data_store).

(** The factory makes a new WebState, gives it the state of the session and
    attaches to it the user data of the session. *)
Definition factory_ok : Prop :=
  forall session store ws store', factory session store = (ws, store') ->
  (ws ∉ dom store) /\ store' = <[ws := userData session]> store /\
  build_rest ws = rest session.

(** Every WebState of the list is in the store. *)
Definition registered (l : list WebStateWrapper) (store : data_store) : Prop :=
  forall p, Some p ∈ pointers l -> p ∈ dom store.

Hypothesis factory_law : factory_ok.

(** The store holds, for every new tab, the user data of its session. *)
Definition loaded (base : list WebStateWrapper) (ps : list WebState)
    (l : list (CRWSessionStorage Rest)) (store : data_store) : Prop :=
  NoDup (pointers base ++ (Some <$> ps)) /\ registered base store /\
  Forall2 (fun p session => store !! p = Some (userData session) /\
                            build_rest p = rest session) ps l.

Lemma loaded_snoc base ps l store session ws :
  loaded base ps l store -> ws ∉ dom store -> build_rest ws = rest session ->
  loaded base (ps ++ [ws]) (l ++ [session]) (<[ws := userData session]> store).
Proof.
  intros (Hnd & Hreg & Hall) Hws Hrest.
  assert (forall p, p ∈ ps -> p <> ws) as Hne.
  { intros p Hp ->. apply list_elem_of_lookup in Hp as [i Hi].
    destruct (Forall2_lookup_l _ _ _ _ _ Hall Hi) as (y & _ & Hy & _).
    apply Hws. by apply elem_of_dom_2 in Hy. }
  split; [| split].
  - rewrite fmap_app, app_assoc. apply NoDup_app. split; [done |]. split.
    + intros o Ho ->%list_elem_of_singleton.
      apply elem_of_app in Ho as [Ho | Ho]; [by apply Hws, Hreg |].
      apply list_elem_of_fmap in Ho as (q & [= <-] & Hq). by apply (Hne ws).
    + apply NoDup_singleton.
  - intros p Hp. apply dom_insert, elem_of_union. right. by apply Hreg.
  - apply Forall2_app; [| repeat constructor; [by rewrite lookup_insert_eq | done]].
    apply Forall2_same_length_lookup. apply Forall2_same_length_lookup in Hall
      as [Hl Hall]. split; [done |]. intros i p y Hp Hy.
    destruct (Hall i p y Hp Hy) as [? ?]. split; [| done].
    rewrite lookup_insert_ne; [done |].
    intros <-. apply (Hne ws); [by eapply list_elem_of_lookup_2 | done].
Qed.

Lemma insert_sessions_Ok base l : forall l0 ps s store,
  web_state_wrappers_ s = base ++ (fresh_wrapper <$> ps) ->
  active_index_ s < count s -> loaded base ps l0 store ->
  exists ps' s' store', insert_sessions factory l s store = Ok (s', store') /\
    web_state_wrappers_ s' = base ++ (fresh_wrapper <$> ps') /\
    active_index_ s' = active_index_ s /\ loaded base ps' (l0 ++ l) store'.
Proof.
  induction l as [| session l IH]; intros l0 ps s store Hw Ha Hl.
  - exists ps, s, store. by rewrite app_nil_r.
  - simpl. destruct (factory session store) as [ws store1] eqn:Hf.
    destruct (factory_law _ _ _ _ Hf) as (Hws & -> & Hrest).
    rewrite InsertWebState_eq.
    2: { pose proof (vsize_nonneg (web_state_wrappers_ s)). unfold count. lia. }
    simpl. replace (l0 ++ session :: l) with ((l0 ++ [session]) ++ l)
      by (by rewrite <- app_assoc).
    assert (active_index_ (inserted s (count s) ws) = active_index_ s) as Ha1.
    { simpl. by rewrite (proj2 (Z.leb_gt _ _)) by lia. }
    assert (web_state_wrappers_ (inserted s (count s) ws)
            = web_state_wrappers_ s ++ [fresh_wrapper ws]) as Hw1.
    { simpl. unfold vinsert, count, vsize. by rewrite Nat2Z.id, firstn_all, drop_all. }
    rewrite <- Ha1. apply (IH _ (ps ++ [ws])).
    + by rewrite Hw1, Hw, fmap_app, app_assoc.
    + rewrite Ha1, count_length, Hw1, length_app. rewrite count_length in Ha. lia.
    + by apply loaded_snoc.
Qed.

Lemma loaded_restored base ps l store sh s :
  loaded base ps l store ->
  Forall2 (fun session x => saves_shape (userData session) x) l sh ->
  web_state_wrappers_ s = base ++ (fresh_wrapper <$> ps) ->
  length ps = length sh /\
  (forall i p x, ps !! i = Some p -> sh !! i = Some x ->
     saves_shape (FromWebState store p) x) /\
  restored base ps sh 0 s.
Proof.
  intros (_ & _ & Hl) Hsh Hw.
  pose proof (Forall2_length _ _ _ Hl) as Hl1.
  pose proof (Forall2_length _ _ _ Hsh) as Hl2.
  split; [congruence |]. split; [| split].
  - intros i p x Hp Hx.
    destruct (Forall2_lookup_l _ _ _ _ _ Hl Hp) as (y & Hy & Hst & _).
    destruct (Forall2_lookup_l _ _ _ _ _ Hsh Hy) as (x' & Hx' & Hs).
    unfold FromWebState. rewrite Hst. simpl. congruence.
  - rewrite Hw, length_app, length_fmap. congruence.
  - intros j w Hj. rewrite Hw, lookup_app_l; [done | by eapply lookup_lt_Some].
  - intros j p x Hp Hx. rewrite Hw, lookup_app_r by lia.
    replace (length base + j - length base)%nat with j by lia.
    rewrite list_lookup_fmap, Hp. simpl.
    rewrite (proj2 (Z.ltb_ge _ 0)) by lia. done.
Qed.

(** What a tab read back from a session is. *)
Definition reads_tab (store : data_store) (session : CRWSessionStorage Rest)
    (y : WebStateWrapper) : Prop :=
  exists q, web_state_ y = Some q /\ FromWebState store q = userData session /\
    build_rest q = rest session.

Lemma loaded_reads base ps l store sh s :
  loaded base ps l store -> length ps = length sh ->
  restored base ps sh (vsize sh) s ->
  Forall2 (reads_tab store) l (drop (length base) (web_state_wrappers_ s)).
Proof.
  intros (_ & _ & Hl) Hlen Hr. pose proof (Forall2_length _ _ _ Hl) as Hl1.
  apply Forall2_same_length_lookup. split.
  { rewrite length_drop, (restored_length _ _ _ _ _ Hr). lia. }
  intros i session y Hs Hy. rewrite lookup_drop in Hy.
  destruct (Forall2_lookup_r _ _ _ _ _ Hl Hs) as (p & Hp & Hst & Hrest).
  destruct (lookup_lt_is_Some_2 sh i) as [x Hx].
  { apply lookup_lt_Some in Hp. lia. }
  pose proof (restored_new _ _ _ Hlen _ _ _ _ Hr Hp Hx) as E. rewrite E in Hy. injection Hy as <-.
  exists p. unfold FromWebState. by rewrite Hst.
Qed.

(** The new active index. *)
Definition restored_active (t : WebStateList) (index : Z) : Z :=
  if index =? NSNotFound then active_index_ t else count t + index.

(** Any window that records a valid shape can be read at the end of a list. *)
Lemma DeserializeWebStateList_Ok w t store sh :
  wf t -> registered (web_state_wrappers_ t) store ->
  Forall2 (fun session x => saves_shape (userData session) x)
    (sessions w) sh ->
  valid_shape sh -> count t + vsize sh <= INT_MAX ->
  selectedIndex w = NSNotFound \/ 0 <= selectedIndex w < vsize sh ->
  exists s' store',
    DeserializeWebStateList factory w t store = Ok (s', store') /\ wf s' /\
    take (Z.to_nat (count t)) (web_state_wrappers_ s') = web_state_wrappers_ t /\
    drop (Z.to_nat (count t)) (shape s') = shift_opener (count t) <$> sh /\
    Forall2 (reads_tab store') (sessions w)
      (drop (Z.to_nat (count t)) (web_state_wrappers_ s')) /\
    active_index_ s' = restored_active t (selectedIndex w).
Proof.
  intros Hwf Hreg Hsh Hval Hmax Hsel. unfold DeserializeWebStateList.
  pose proof (wf_active _ Hwf) as Hat. pose proof (wf_wrappers _ Hwf) as Hok.
  pose proof (ok_nodup _ Hok) as Hnd.
  destruct (insert_sessions_Ok (web_state_wrappers_ t) (sessions w) [] [] t store)
    as (ps & s1 & st1 & -> & Hw1 & Ha1 & Hl1); [by rewrite app_nil_r | lia | |].
  { split; [by rewrite app_nil_r | by split]. }
  simpl in Hl1 |- *.
  destruct (loaded_restored _ _ _ _ _ s1 Hl1 Hsh Hw1) as (Hlen & Hsv & Hr).
  unfold count in Hmax |- *.
  destruct (RestoreRelationship_Ok _ ps sh st1 (proj1 Hl1) Hlen Hval Hmax Hsv s1 Hr)
    as (s2 & -> & Hr2 & Ha2).
  pose proof (restored_shape _ ps sh (proj1 Hl1) Hlen Hval s2 Hr2) as Hs2.
  pose proof (restored_take _ _ _ Hlen _ _ Hr2) as Ht2.
  pose proof (restored_count _ _ _ Hlen _ _ Hr2) as Hc2.
  pose proof (restored_wrappers_ok _ ps sh (proj1 Hl1) Hlen Hval s2 Hr2 Hok) as Hok2.
  pose proof (loaded_reads _ _ _ _ _ _ Hl1 Hlen Hr2) as Hrd.
  assert (Z.to_nat (vsize (web_state_wrappers_ t)) = length (web_state_wrappers_ t))
    as -> by (unfold vsize; lia).
  assert (vsize (sessions w) = vsize sh) as Hsz.
  { unfold vsize. by rewrite (Forall2_length _ _ _ Hsh). }
  pose proof (vsize_nonneg sh). pose proof (vsize_nonneg (web_state_wrappers_ t)).
  unfold restored_active, kInvalidIndex, count in *.
  simpl. destruct (Z.eqb_spec (selectedIndex w) NSNotFound); simpl.
  { do 2 eexists. split; [done |]. split; [| split_and!; congruence || done].
    split; [done |]. unfold count, kInvalidIndex. lia. }
  destruct Hsel as [? | Hsel]; [done |].
  rewrite !dcheck_true by (apply Z.ltb_lt; lia). simpl.
  destruct (ActivateWebStateAt_wf s2
              (vsize (web_state_wrappers_ t) + selectedIndex w)) as [log_tail ->];
    [unfold count, kInvalidIndex; lia.. |].
  simpl. do 2 eexists. split; [done |]. split; [| by split_and!].
  split; [done |]. unfold count, kInvalidIndex. simpl. lia.
Qed.
End reading.

(** What the tabs' navigation indices must satisfy to fit an [int]. *)
Definition int_navigation (s : WebStateList) : Prop :=
  Forall (fun w => - 2 ^ 31 <= navigation_index (opener_ w) < 2 ^ 31)
    (web_state_wrappers_ s).

Lemma wf_valid_shape s : wf s -> int_navigation s -> valid_shape (shape s).
Proof.
  intros Hwf Hn i k n Hi. unfold shape in *. rewrite length_fmap, <- count_length.
  rewrite list_lookup_fmap in Hi.
  destruct (web_state_wrappers_ s !! i) as [w|] eqn:Hw; [| done].
  simpl in Hi. unfold opener_shape in Hi.
  destruct (opener (opener_ w)) as [q|] eqn:Hq; [| done]. injection Hi as <- <-.
  assert (vget (web_state_wrappers_ s) (Z.of_nat i) = Ok w) as Hg.
  { apply vget_Ok. rewrite Nat2Z.id. split; [lia | done]. }
  destruct (opener_of_elem _ _ _ (wf_wrappers _ Hwf) Hg q Hq) as [Hin Hne].
  pose proof (GetIndexOfWebState_range s _ Hin) as Hrange.
  split; [done |]. split; [| by apply (Forall_lookup_1 _ _ _ _ Hn Hw)].
  intros E. destruct (GetIndexOfWebState_Some s (Some q) _ eq_refl)
    as (w' & Hw' & Hq'); [unfold kInvalidIndex; lia |].
  rewrite E in Hw'. congruence.
Qed.

(** The tab [y] of a restored list is the tab [x] of the list that was saved:
    its state, and its user data, where its opener is now recorded. *)
Definition same_tab {Rest} (build_rest : WebState -> Rest) (s : WebStateList)
    (store store' : data_store) (x y : WebStateWrapper) : Prop :=
  exists p q, web_state_ x = Some p /\ web_state_ y = Some q /\
    build_rest q = build_rest p /\
    FromWebState store' q = record_opener (opener_shape s x) (FromWebState store p).

Lemma saved_then_read {Rest} (build_rest : WebState -> Rest) s store store' xs l ys :
  Forall2 (saves_tab build_rest s store) xs l ->
  Forall2 (reads_tab build_rest store') l ys ->
  Forall2 (same_tab build_rest s store store') xs ys.
Proof.
  intros Hs. revert ys.
  induction Hs as [| x session xs l (p & Hp & Hu & Hrest) _ IH];
    intros ys Hr; inversion Hr as [| ? y ? ys' (q & Hq & Hv & Hrest') Hr']; subst;
    constructor; [| by apply IH].
  exists p, q. split_and!; congruence.
Qed.

(** C40.  Saving a window fails a check exactly when it has tabs and no active
    one.  Reading a saved window back at the end of any list [t] leaves the
    tabs of [t] as they were, and adds one tab for each saved one, in their
    order, with its state and its user data (in which its opener is recorded);
    the new tabs have among each other the openers, with the navigation
    indices, that the saved tabs had; the active tab is the one that was
    active when the window was saved, or that of [t] when no tab was saved.
    The two lists have at most [INT_MAX] tabs in all and navigation indices
    of 32 bits, as their [int]s ask. *)
Theorem web_state_list_roundtrip `{OpenerNavigation} {Rest}
    (build_rest : WebState -> Rest) factory s t store store0 :
  factory_ok build_rest factory -> wf s -> int_navigation s ->
  wf t -> registered (web_state_wrappers_ t) store0 ->
  count t + count s <= INT_MAX ->
  (SerializeWebStateList build_rest s store = Fault
   <-> web_state_wrappers_ s <> [] /\ active_index_ s = kInvalidIndex) /\
  (forall w store1, SerializeWebStateList build_rest s store = Ok (w, store1) ->
   exists s' store2,
     DeserializeWebStateList factory w t store0 = Ok (s', store2) /\ wf s' /\
     take (Z.to_nat (count t)) (web_state_wrappers_ s') = web_state_wrappers_ t /\
     Forall2 (same_tab build_rest s store store2) (web_state_wrappers_ s)
       (drop (Z.to_nat (count t)) (web_state_wrappers_ s')) /\
     drop (Z.to_nat (count t)) (shape s') = shift_opener (count t) <$> shape s /\
     active_index_ s' = (if active_index_ s =? kInvalidIndex then active_index_ t
                         else count t + active_index_ s)).
Proof.
  intros Hf Hwf Hint Ht Hreg Hmax. pose proof (wf_active _ Hwf) as Ha.
  pose proof NSNotFound32_lt as HNS. unfold NSNotFound32 in HNS.
  assert (0 <= count t) by apply vsize_nonneg.
  destruct (SerializeWebStateList_cases build_rest s store Hwf) as [Hfault Hsaved];
    [lia |].
  split; [done |]. intros w store1 Hser.
  destruct (Hsaved w store1 Hser) as [Htabs Hsel].
  assert (vsize (shape s) = count s) as Hvs by (unfold shape; apply vsize_fmap).
  destruct (DeserializeWebStateList_Ok build_rest factory Hf w t store0 (shape s))
    as (s' & st2 & Hde & Hwf' & Hold & Hshape & Hrd & Hact); [done | done | | | | |].
  - unfold shape. apply Forall2_fmap_r, Forall2_flip.
    eapply Forall2_impl; [exact Htabs |]. intros x session (p & _ & -> & _).
    apply record_opener_saves.
  - by apply wf_valid_shape.
  - lia.
  - rewrite Hsel, Hvs. unfold kInvalidIndex in *.
    destruct (Z.eqb_spec (active_index_ s) (-1)); [by left | right; lia].
  - exists s', st2. split_and!; try done.
    + by eapply saved_then_read.
    + rewrite Hact, Hsel. unfold restored_active, kInvalidIndex in *.
      destruct (Z.eqb_spec (active_index_ s) (-1)) as [E|E].
      * by rewrite Z.eqb_refl.
      * by rewrite (proj2 (Z.eqb_neq _ _)) by lia.
Qed.

(** ** Witnesses *)
Import Sample.

Lemma session_window_roundtrip_witness :
  exists c, encodeWithCoder (Rest := unit)
      {| sessions := []; selectedIndex := NSNotFound |} = Ok c /\
    initWithCoder c = Ok {| sessions := []; selectedIndex := NSNotFound |}.
Proof.
  eexists. split; [reflexivity |].
  apply (session_window_roundtrip
           {| sessions := []; selectedIndex := NSNotFound |}); reflexivity.
Defined.

(** A stale index in the archive. *)
Lemma initWithCoder_total_witness :
  exists w, initWithCoder (Rest := unit)
      {| coded_index := Some 7; coded_sessions := None |} = Ok w /\
    IsIndexValidForSessionCount (selectedIndex w) (vsize (sessions w)) = true /\
    sessions w = [].
Proof.
  apply (initWithCoder_total {| coded_index := Some 7; coded_sessions := None |}).
  intros i [= <-]. lia.
Defined.

(** A factory that gives every session a new WebState. *)
Definition fresh_factory (session : CRWSessionStorage unit) (store : data_store)
    : WebState * data_store :=
  let ws := fresh (dom store) in (ws, <[ws := userData session]> store).

Lemma fresh_factory_ok : factory_ok (fun _ => tt) fresh_factory.
Proof.
  intros session ? ? ? [= <- <-]. split; [apply is_fresh |]. split; [done |].
  by destruct (rest session).
Defined.

(** The window is restored behind its own tabs. *)
Definition window_store : data_store := <[1%positive := ∅]> (<[2%positive := ∅]>
  (<[3%positive := ∅]> ∅)).

Lemma web_state_list_roundtrip_witness :
  exists w store1 s' store2,
    SerializeWebStateList (fun _ => tt) Sample.window window_store = Ok (w, store1) /\
    DeserializeWebStateList fresh_factory w Sample.window window_store
    = Ok (s', store2) /\
    drop 3 (shape s') = [None; None; Some (4, 0)] /\ active_index_ s' = 4.
Proof.
  destruct (web_state_list_roundtrip (fun _ => tt) fresh_factory Sample.window
              Sample.window window_store window_store
              fresh_factory_ok Sample.window_wf) as [_ Hok].
  - repeat constructor; by vm_compute.
  - apply Sample.window_wf.
  - intros p Hp. unfold pointers in Hp. simpl in Hp. rewrite !elem_of_cons in Hp.
    destruct Hp as [[= ->] | [[= ->] | [[= ->] | Hp]]]; [decide_closed.. |].
    by apply not_elem_of_nil in Hp.
  - by vm_compute.
  - destruct (SerializeWebStateList (fun _ => tt) Sample.window window_store)
      as [[w store1] |] eqn:E; [| by vm_compute in E].
    destruct (Hok w store1 eq_refl) as (s' & store2 & Hde & _ & _ & _ & Hshape & Hact).
    exists w, store1, s', store2. by split_and!.
Defined.
