(* ===== verification/URLDownloader.v ===== *)
(** * URLDownloader

    [chrome/browser/reading_list/url_downloader.cc], with the
    [DistillerViewer] it drives ([chrome/browser/dom_distiller]): a queue of
    downloads and deletions handled one at a time.

    The work of a task is asynchronous: a closure posted to the FILE thread
    whose reply runs on the UI thread, a distiller that calls back, a fetcher
    that calls back.  [posted] holds the closures that did not run,
    [replies] the replies that did not run.  A [request] is a call of the
    client, an [answer] is what the FILE thread, the message loop, the
    distiller or the network does next. *)
From S2P Require Import Prelude Text External OfflineExternal.

Section downloader.
Context `{GurlApi, FileApi} `{!OfflinePathApi} `{!UrlTextApi}.

(** ** [DistillerViewerInterface::ImageInfo] and [DistillerViewer] *)
Record ImageInfo := { image_url : GURL; image_data : text }.

(** [callback_] is the bound [DistillerCallback]; [distilling] while
    [distiller_] has not called back. *)
Record DistillerViewer := {
  url_ : GURL;
  js_buffer_ : text;
  distilling : bool;
}.

(** What the base class sends through [SendJavaScript], here and when the
    article is ready, comes as answers of the page (below). *)
Definition DistillerViewer_new (url : GURL) : chk DistillerViewer :=
  _ ← dcheck (is_valid url);
  mret {| url_ := url; js_buffer_ := []; distilling := true |}.

Definition SendJavaScript (buffer : text) (v : DistillerViewer) : DistillerViewer :=
  {| url_ := url_ v; js_buffer_ := js_buffer_ v ++ buffer;
     distilling := distilling v |}.

(** A page of [DistilledArticleProto]. *)
Record ArticlePage := { page_html : text; page_images : list (text * text) }.
Record Article := { article_title : string; pages : list ArticlePage }.

Definition article_is_empty (article : Article) : bool :=
  match pages article with
  | [] => true
  | page :: _ => bool_decide (page_html page = [])
  end.

Definition article_images (article : Article) : list ImageInfo :=
  page ← pages article;
  image ← page_images page;
  mret {| image_url := GURL_of_text image.1; image_data := image.2 |}.

(** [OnArticleReady]: the arguments of [callback_.Run]. *)
Definition OnArticleReady (article : Article) (v : DistillerViewer)
    : text * list ImageInfo * string :=
  if article_is_empty article then ([], [], ""%string)
  else
    (GetUnsafeArticleTemplateHtml (spec (url_ v)) ++
       text_of "<script> distiller_on_ios = true; " ++ js_buffer_ v
       ++ text_of "</script>",
     article_images article, article_title article).

(** ** Types *)
Inductive SuccessState := DOWNLOAD_SUCCESS | DOWNLOAD_EXISTS | ERROR.
Inductive TaskType := DELETE | DOWNLOAD.
Abbreviation Task := (TaskType * GURL)%type.

#[export] Instance SuccessState_eq_dec : EqDecision SuccessState.
Proof. solve_decision. Defined.
#[export] Instance TaskType_eq_dec : EqDecision TaskType.
Proof. solve_decision. Defined.

(** The calls of [download_completion_] and [delete_completion_]. *)
Inductive completion :=
| DownloadEnd (url distilled_url : GURL) (success : SuccessState)
    (path : FilePath) (size : Z) (title : string)
| DeleteEnd (url : GURL) (success : bool).

#[export] Instance completion_eq_dec : EqDecision completion.
Proof. solve_decision. Defined.

(** The arguments bound to [DownloadCompletionHandler]. *)
Record download_end := {
  end_url : GURL;
  end_title : string;
  end_path : FilePath;
}.

(** Closures for the FILE thread, with the data of their reply. *)
Inductive file_closure :=
| DoDelete (directory : FilePath) (url : GURL)
| DoPathExists (directory : FilePath) (url : GURL)
| DoCleanUp (directory : FilePath) (e : download_end) (success : SuccessState)
| DoSavePDF (temporary_path : FilePath) (e : download_end)
| DoSaveHTML (url : GURL) (images : list ImageInfo) (html : text) (e : download_end).

(** Replies for the UI thread. *)
Inductive reply :=
| ReplyDeleted (url : GURL) (success : bool)
| ReplyPathExists (url : GURL) (offline_url_exists : bool)
| ReplyPostDelete (e : download_end) (success : SuccessState)
| ReplySaved (e : download_end) (success : SuccessState).

(** [fetcher_], and whether it is still to call [OnURLFetchComplete]. *)
Record URLFetcher := { fetch_url : GURL; fetching : bool }.

Record URLDownloader := {
  tasks_ : list Task;
  working_ : bool;
  base_directory_ : FilePath;
  original_url_ : GURL;
  distilled_url_ : GURL;
  saved_size_ : Z;
  mime_type_ : string;
  fetcher_ : option URLFetcher;
  distiller_ : option DistillerViewer;
  posted : list file_closure;
  replies : list reply;
  files : FileSystem;
  completions : list completion;
}.

#[export] Instance downloader_fields : Fields URLDownloader := fun d =>
  {| tasks_ := tasks_ d; working_ := working_ d;
     base_directory_ := base_directory_ d; original_url_ := original_url_ d;
     distilled_url_ := distilled_url_ d; saved_size_ := saved_size_ d;
     mime_type_ := mime_type_ d; fetcher_ := fetcher_ d;
     distiller_ := distiller_ d; posted := posted d; replies := replies d;
     files := files d; completions := completions d |}.

Definition URLDownloader_new (base : FilePath) (fs : FileSystem) : URLDownloader :=
  {| tasks_ := []; working_ := false; base_directory_ := base;
     original_url_ := GURL_empty; distilled_url_ := GURL_empty;
     saved_size_ := 0; mime_type_ := ""; fetcher_ := None; distiller_ := None;
     posted := []; replies := []; files := fs; completions := [] |}.

Definition post (c : file_closure) (d : URLDownloader) : URLDownloader :=
  d <| posted := posted d ++ [c] |>.

Definition complete (c : completion) (d : URLDownloader) : URLDownloader :=
  d <| completions := completions d ++ [c] |>.

(** [task_tracker_.TryCancelAll()] *)
Definition TryCancelAll (d : URLDownloader) : URLDownloader :=
  d <| posted := [] |> <| replies := [] |>.

(** ** The queue *)
Definition HandleNextTask (d : URLDownloader) : chk URLDownloader :=
  if working_ d then mret d
  else
    match tasks_ d with
    | [] => mret d
    | (type, url) :: tasks =>
        let d := d <| working_ := true |> <| tasks_ := tasks |> in
        let directory_path :=
          OfflineURLDirectoryAbsolutePath (base_directory_ d) url in
        match type with
        | DELETE => mret (post (DoDelete directory_path url) d)
        | DOWNLOAD =>
            _ ← dcheck (bool_decide (distiller_ d = None));
            mret (post (DoPathExists directory_path url) d)
        end
    end.

Definition CancelDownloadOfflineURL (url : GURL) (d : URLDownloader) : URLDownloader :=
  d <| tasks_ := filter (fun t => t <> (DOWNLOAD, url)) (tasks_ d) |>.

Definition RemoveOfflineURL (url : GURL) (d : URLDownloader) : chk URLDownloader :=
  let d := CancelDownloadOfflineURL url d in
  HandleNextTask (d <| tasks_ := tasks_ d ++ [(DELETE, url)] |>).

Definition DownloadOfflineURL (url : GURL) (d : URLDownloader) : chk URLDownloader :=
  if bool_decide ((DOWNLOAD, url) ∈ tasks_ d) then mret d
  else HandleNextTask (d <| tasks_ := tasks_ d ++ [(DOWNLOAD, url)] |>).

Definition CancelTask (d : URLDownloader) : URLDownloader :=
  TryCancelAll d <| distiller_ := None |>.

(** ** The end of a task *)
Definition post_delete (e : download_end) (success : SuccessState)
    (d : URLDownloader) : chk URLDownloader :=
  let d := complete (DownloadEnd (end_url e) (distilled_url_ d) success
                       (end_path e) (saved_size_ d) (end_title e)) d in
  HandleNextTask (d <| distiller_ := None |> <| working_ := false |>).

Definition DownloadCompletionHandler (e : download_end) (success : SuccessState)
    (d : URLDownloader) : chk URLDownloader :=
  _ ← dcheck (working_ d);
  match success with
  | ERROR =>
      let directory_path :=
        OfflineURLDirectoryAbsolutePath (base_directory_ d) (end_url e) in
      mret (post (DoCleanUp directory_path e success) d)
  | _ => post_delete e success d
  end.

Definition DeleteCompletionHandler (url : GURL) (success : bool)
    (d : URLDownloader) : chk URLDownloader :=
  _ ← dcheck (working_ d);
  HandleNextTask (complete (DeleteEnd url success) d <| working_ := false |>).

(** ** Downloading *)
Definition no_end (url : GURL) : download_end :=
  {| end_url := url; end_title := ""; end_path := FilePath_empty |}.

Definition DownloadURL (url : GURL) (offline_url_exists : bool)
    (d : URLDownloader) : chk URLDownloader :=
  if offline_url_exists then
    DownloadCompletionHandler (no_end url) DOWNLOAD_EXISTS d
  else
    let d := d <| original_url_ := url |> <| distilled_url_ := url |>
               <| saved_size_ := 0 |> in
    v ← DistillerViewer_new url;
    mret (d <| distiller_ := Some v |>).

Definition DistilledPageRedirectedToURL (page_url redirected_url : GURL)
    (d : URLDownloader) : chk URLDownloader :=
  _ ← dcheck (same_url (original_url_ d) page_url);
  mret (d <| distilled_url_ := redirected_url |>).

Definition DistilledPageHasMimeType (original_url : GURL) (mime_type : string)
    (d : URLDownloader) : chk URLDownloader :=
  _ ← dcheck (same_url (original_url_ d) original_url);
  mret (d <| mime_type_ := mime_type |>).

Definition FetchPDFFile (d : URLDownloader) : URLDownloader :=
  let pdf_url :=
    if is_valid (distilled_url_ d) then distilled_url_ d else original_url_ d in
  d <| fetcher_ := Some {| fetch_url := pdf_url; fetching := true |} |>.

Definition DistillerCallback (page_url : GURL) (html : text)
    (images : list ImageInfo) (title : string) (d : URLDownloader)
    : chk URLDownloader :=
  if bool_decide (html = []) then
    if String.eqb (mime_type_ d) "application/pdf" then mret (FetchPDFFile d)
    else DownloadCompletionHandler (no_end page_url) ERROR d
  else
    mret (post (DoSaveHTML page_url images html
                  {| end_url := page_url; end_title := title;
                     end_path := OfflinePagePath page_url OFFLINE_TYPE_HTML |}) d).

(** What the fetcher got: [headers] is the mime type of the response when it
    has headers. *)
Record fetch_result := {
  headers : option string;
  is_success : bool;
  response_path : FilePath;
}.

(** The fetcher calls back: [source] is [fetcher_]. *)
Definition OnURLFetchComplete (result : fetch_result) (d : URLDownloader)
    : chk URLDownloader :=
  source ← deref (fetcher_ d);
  _ ← dcheck (String.eqb (mime_type_ d) "application/pdf");
  let path := OfflinePagePath (original_url_ d) OFFLINE_TYPE_PDF in
  let mime_type := default ""%string (headers result) in
  if negb (is_success result) || negb (String.eqb mime_type (mime_type_ d)) then
    DownloadCompletionHandler
      {| end_url := original_url_ d; end_title := ""; end_path := path |} ERROR d
  else
    mret (post (DoSavePDF (response_path result)
                  {| end_url := fetch_url source; end_title := "";
                     end_path := path |}) d).

(** ** Saving, on the FILE thread *)
Definition set_files (fs : FileSystem) (d : URLDownloader) := d <| files := fs |>.

Definition add_saved_size (n : Z) (d : URLDownloader) :=
  d <| saved_size_ := saved_size_ d + n |>.

Definition CreateOfflineURLDirectory (url : GURL) (d : URLDownloader)
    : URLDownloader * bool :=
  let directory_path := OfflineURLDirectoryAbsolutePath (base_directory_ d) url in
  if negb (DirectoryExists directory_path (files d)) then
    let '(fs, ok) := CreateDirectoryAndGetError directory_path (files d) in
    (set_files fs d, ok)
  else (d, true).

Definition SavePDFFile (temporary_path : FilePath) (d : URLDownloader)
    : chk (URLDownloader * SuccessState) :=
  let '(d, created) := CreateOfflineURLDirectory (original_url_ d) d in
  if created : bool then
    let path := OfflinePagePath (original_url_ d) OFFLINE_TYPE_PDF in
    let absolute_path :=
      OfflineURLAbsolutePathFromRelativePath (base_directory_ d) path in
    let '(fs, moved) := Move temporary_path absolute_path (files d) in
    let d := set_files fs d in
    if moved : bool then
      pdf_file_size ← deref (GetFileSize absolute_path fs);
      mret (add_saved_size pdf_file_size d, DOWNLOAD_SUCCESS)
    else mret (d, ERROR)
  else mret (d, ERROR).

(** [*image_name] is the hash in every case. *)
Definition SaveImage (url image_url : GURL) (data : text) (d : URLDownloader)
    : URLDownloader * bool * string :=
  let image_hash := MD5String (spec image_url) in
  let directory_path := OfflineURLDirectoryAbsolutePath (base_directory_ d) url in
  let path := Append directory_path image_hash in
  if negb (PathExists path (files d)) then
    let '(fs, written) := WriteFile path data (files d) in
    let d := set_files fs d in
    if written <=? 0 then (d, false, image_hash)
    else (add_saved_size written d, true, image_hash)
  else (d, true, image_hash).

Definition kDisableImageContextMenuScript : text :=
  text_of
    ("<script>" ++
     "document.addEventListener('DOMContentLoaded', function (event) {" ++
     "    var imgMenuDisabler = document.createElement('style');" ++
     "    imgMenuDisabler.innerHTML = 'img { -webkit-touch-callout: none; }';" ++
     "    document.head.appendChild(imgMenuDisabler);" ++
     "}, false);" ++
     "</script>")%string.

(** The body of the loop over the images; [None] is [return std::string()].
    A search that does not end is a [Fault]. *)
Definition save_and_replace_image (url : GURL) (image : ImageInfo)
    (st : URLDownloader * option (text * bool))
    : chk (URLDownloader * option (text * bool)) :=
  match st with
  | (d, None) => mret (d, None)
  | (d, Some (mutable_html, local_images_found)) =>
      if SchemeIs (image_url image) "data" then mret st
      else
        let image_is_mixed_content :=
          SchemeIsCryptographic (distilled_url_ d)
          && negb (SchemeIsCryptographic (image_url image)) in
        let '(d, saved, local_image_name) :=
          if negb image_is_mixed_content && is_valid (image_url image)
             && negb (bool_decide (image_data image = []))
          then SaveImage url (image_url image) (image_data image) d
          else (d, true, ""%string) in
        if negb saved then mret (d, None)
        else
          let escaped := EscapeForHTML (spec (image_url image)) in
          let pos := find mutable_html escaped 0 in
          html ← deref (replace_loop (length mutable_html) escaped
                          (text_of local_image_name) mutable_html pos);
          mret (d, Some (html, local_images_found || bool_decide (is_Some pos)))
  end.

Fixpoint save_images (url : GURL) (images : list ImageInfo)
    (st : URLDownloader * option (text * bool))
    : chk (URLDownloader * option (text * bool)) :=
  match images with
  | [] => mret st
  | image :: images =>
      st ← save_and_replace_image url image st;
      save_images url images st
  end.

Definition SaveAndReplaceImagesInHTML (url : GURL) (html : text)
    (images : list ImageInfo) (d : URLDownloader) : chk (URLDownloader * text) :=
  '(d, result) ← save_images url images (d, Some (html, false));
  match result with
  | None => mret (d, [])
  | Some (mutable_html, local_images_found) =>
      mret (d, if local_images_found : bool
               then mutable_html ++ kDisableImageContextMenuScript
               else mutable_html)
  end.

Definition SaveHTMLForURL (html : text) (url : GURL) (d : URLDownloader)
    : URLDownloader * bool :=
  if bool_decide (html = []) then (d, false)
  else
    let path := OfflineURLAbsolutePathFromRelativePath (base_directory_ d)
                  (OfflinePagePath url OFFLINE_TYPE_HTML) in
    let '(fs, written) := WriteFile path html (files d) in
    let d := set_files fs d in
    if written <=? 0 then (d, false) else (add_saved_size written d, true).

Definition SaveDistilledHTML (url : GURL) (images : list ImageInfo) (html : text)
    (d : URLDownloader) : chk (URLDownloader * SuccessState) :=
  let '(d, created) := CreateOfflineURLDirectory url d in
  if created : bool then
    '(d, html) ← SaveAndReplaceImagesInHTML url html images d;
    let '(d, saved) := SaveHTMLForURL html url d in
    mret (d, if saved : bool then DOWNLOAD_SUCCESS else ERROR)
  else mret (d, ERROR).

(** ** What runs next *)
Definition run_closure (c : file_closure) (d : URLDownloader)
    : chk (URLDownloader * reply) :=
  match c with
  | DoDelete directory url =>
      let '(fs, ok) := DeleteFile directory (files d) in
      mret (set_files fs d, ReplyDeleted url ok)
  | DoPathExists directory url =>
      mret (d, ReplyPathExists url (PathExists directory (files d)))
  | DoCleanUp directory e success =>
      let '(fs, _) := DeleteFile directory (files d) in
      mret (set_files fs d, ReplyPostDelete e success)
  | DoSavePDF temporary_path e =>
      '(d, success) ← SavePDFFile temporary_path d;
      mret (d, ReplySaved e success)
  | DoSaveHTML url images html e =>
      '(d, success) ← SaveDistilledHTML url images html d;
      mret (d, ReplySaved e success)
  end.

Definition run_reply (r : reply) (d : URLDownloader) : chk URLDownloader :=
  match r with
  | ReplyDeleted url success => DeleteCompletionHandler url success d
  | ReplyPathExists url offline_url_exists => DownloadURL url offline_url_exists d
  | ReplyPostDelete e success => post_delete e success d
  | ReplySaved e success => DownloadCompletionHandler e success d
  end.

Inductive request :=
| Download (url : GURL)
| Cancel (url : GURL)
| Remove (url : GURL).

Definition serve (r : request) (d : URLDownloader) : chk URLDownloader :=
  match r with
  | Download url => DownloadOfflineURL url d
  | Cancel url => mret (CancelDownloadOfflineURL url d)
  | Remove url => RemoveOfflineURL url d
  end.

Inductive answer :=
| FileThreadRuns
| ReplyRuns
| PageRedirected (redirected_url : GURL)
| PageHasMimeType (mime_type : string)
| PageSendsJavaScript (buffer : text)
| Distilled (article : Article)
| Fetched (result : fetch_result).

Definition finished (v : DistillerViewer) : DistillerViewer :=
  {| url_ := url_ v; js_buffer_ := js_buffer_ v; distilling := false |}.

Definition fetched (f : URLFetcher) : URLFetcher :=
  {| fetch_url := fetch_url f; fetching := false |}.

Definition run_file_thread (c : file_closure) (rest : list file_closure)
    (d : URLDownloader) : chk URLDownloader :=
  '(d, r) ← run_closure c (d <| posted := rest |>);
  mret (d <| replies := replies d ++ [r] |>).

Definition call_back (article : Article) (v : DistillerViewer) (d : URLDownloader)
    : chk URLDownloader :=
  let '(html, images, title) := OnArticleReady article v in
  DistillerCallback (url_ v) html images title (d <| distiller_ := Some (finished v) |>).

(** [answers d a m]: the answer [a] can come in the state [d], and [m] is the
    run of its handler. *)
Inductive answers (d : URLDownloader) : answer -> chk URLDownloader -> Prop :=
| file_thread_runs c rest :
    posted d = c :: rest -> answers d FileThreadRuns (run_file_thread c rest d)
| reply_runs r rest :
    replies d = r :: rest ->
    answers d ReplyRuns (run_reply r (d <| replies := rest |>))
| page_redirected v redirected_url :
    distiller_ d = Some v -> distilling v = true ->
    answers d (PageRedirected redirected_url)
      (DistilledPageRedirectedToURL (url_ v) redirected_url d)
| page_has_mime_type v mime_type :
    distiller_ d = Some v -> distilling v = true ->
    answers d (PageHasMimeType mime_type)
      (DistilledPageHasMimeType (url_ v) mime_type d)
| page_sends_java_script v buffer :
    distiller_ d = Some v -> distilling v = true ->
    answers d (PageSendsJavaScript buffer)
      (mret (d <| distiller_ := Some (SendJavaScript buffer v) |>))
| distilled v article :
    distiller_ d = Some v -> distilling v = true ->
    answers d (Distilled article) (call_back article v d)
| fetch_complete f result :
    fetcher_ d = Some f -> fetching f = true ->
    answers d (Fetched result)
      (OnURLFetchComplete result (d <| fetcher_ := Some (fetched f) |>)).

(** ** Phases

    What the downloader waits for, with what holds then. *)
Inductive phase :=
| Idle
| Posted (c : file_closure)
| Replied (r : reply)
| Distilling (v : DistillerViewer)
| Fetching (f : URLFetcher).

(** The search for the URL of the image ends. *)
Definition searchable (image : ImageInfo) : Prop :=
  SchemeIs (image_url image) "data" = true
  \/ EscapeForHTML (spec (image_url image)) <> [].

(** What a download reports: the URL asked for, or, for a PDF that redirected,
    the URL redirected to with the path of the file of the URL asked for. *)
Definition url_ok (d : URLDownloader) (url : GURL) : Prop :=
  url = original_url_ d \/ url = distilled_url_ d.
Definition end_ok (d : URLDownloader) (e : download_end) : Prop :=
  end_url e = original_url_ d
  \/ (end_url e = distilled_url_ d
      /\ end_path e = OfflinePagePath (original_url_ d) OFFLINE_TYPE_PDF).

Definition no_distilling (d : URLDownloader) : Prop :=
  forall v, distiller_ d = Some v -> distilling v = false.
Definition no_fetch (d : URLDownloader) : Prop :=
  forall f, fetcher_ d = Some f -> fetching f = false.

Definition closure_ok (d : URLDownloader) (c : file_closure) : Prop :=
  match c with
  | DoDelete _ _ => distiller_ d = None
  | DoPathExists _ url => distiller_ d = None /\ is_valid url = true
  | DoCleanUp _ e _ | DoSavePDF _ e | DoSaveHTML _ _ _ e => end_ok d e
  end.

Definition reply_ok (d : URLDownloader) (r : reply) : Prop :=
  match r with
  | ReplyDeleted _ _ => distiller_ d = None
  | ReplyPathExists url _ => distiller_ d = None /\ is_valid url = true
  | ReplyPostDelete e _ | ReplySaved e _ => end_ok d e
  end.

Definition in_phase (d : URLDownloader) (p : phase) : Prop :=
  match p with
  | Idle => working_ d = false /\ tasks_ d = [] /\ distiller_ d = None /\
      posted d = [] /\ replies d = [] /\ no_fetch d
  | Posted c => working_ d = true /\ closure_ok d c /\ no_distilling d /\
      posted d = [c] /\ replies d = [] /\ no_fetch d
  | Replied r => working_ d = true /\ reply_ok d r /\ no_distilling d /\
      posted d = [] /\ replies d = [r] /\ no_fetch d
  | Distilling v => working_ d = true /\ url_ v = original_url_ d /\
      (distilling v = true /\ distiller_ d = Some v) /\
      posted d = [] /\ replies d = [] /\ no_fetch d
  | Fetching f => working_ d = true /\ no_distilling d /\
      posted d = [] /\ replies d = [] /\
      (fetching f = true /\ fetcher_ d = Some f) /\
      url_ok d (fetch_url f) /\ mime_type_ d = "application/pdf"%string
  end.

(** The URLs to download are valid, each is queued once. *)
Definition valid_queue (tasks : list Task) : Prop :=
  Forall (fun t => t.1 = DOWNLOAD -> is_valid t.2 = true) tasks
  /\ NoDup (filter (fun t => t.1 = DOWNLOAD) tasks).

Definition valid_tasks (d : URLDownloader) : Prop := valid_queue (tasks_ d).

(** The task being handled. *)
Definition phase_task (d : URLDownloader) (p : phase) : list Task :=
  match p with
  | Idle => []
  | Posted (DoDelete _ url) | Replied (ReplyDeleted url _) => [(DELETE, url)]
  | Posted (DoPathExists _ url) | Replied (ReplyPathExists url _) =>
      [(DOWNLOAD, url)]
  | _ => [(DOWNLOAD, original_url_ d)]
  end.

(** Answers left before the end of the task. *)
Definition phase_weight (p : phase) : nat :=
  match p with
  | Idle => 0
  | Posted (DoPathExists _ _) => 8
  | Replied (ReplyPathExists _ _) => 7
  | Distilling _ => 6
  | Fetching _ => 5
  | Posted (DoSavePDF _ _) | Posted (DoSaveHTML _ _ _ _) => 4
  | Replied (ReplySaved _ _) => 3
  | Posted _ => 2
  | Replied _ => 1
  end.

Definition weight (d : URLDownloader) (p : phase) : nat :=
  9 * length (tasks_ d) + phase_weight p.

(** The call of a completion callback reports the end of a task. *)
Definition reports (c : completion) (t : Task) : Prop :=
  match c, t with
  | DownloadEnd url distilled_url _ path _ _, (DOWNLOAD, u) =>
      url = u \/ (url = distilled_url /\ path = OfflinePagePath u OFFLINE_TYPE_PDF)
  | DeleteEnd url _, (DELETE, u) => url = u
  | _, _ => False
  end.

(** Answers that do not end what the downloader waits for. *)
Definition page_event (a : answer) : bool :=
  match a with
  | PageRedirected _ | PageHasMimeType _ | PageSendsJavaScript _ => true
  | _ => false
  end.

(** The FILE thread searches for ever for the URL of an image, which is empty. *)
Definition endless (a : answer) (m : chk URLDownloader) (d : URLDownloader) : Prop :=
  a = FileThreadRuns /\ m = Fault /\
  exists url images html e, posted d = [DoSaveHTML url images html e]
    /\ exists image, image ∈ images /\ SchemeIs (image_url image) "data" = false
         /\ EscapeForHTML (spec (image_url image)) = [].

Definition request_ok (r : request) : Prop :=
  match r with Download url => is_valid url = true | _ => True end.

(** One answer later: the task goes on, or it is reported and the next one
    starts. *)
Definition advanced (d : URLDownloader) (p : phase) (d' : URLDownloader)
    (p' : phase) : Prop :=
  in_phase d' p' /\ valid_tasks d' /\
  ((completions d' = completions d
    /\ phase_task d' p' ++ tasks_ d' = phase_task d p ++ tasks_ d
    /\ (weight d' p' < weight d p)%nat)
   \/ exists c t, completions d' = completions d ++ [c] /\ reports c t
      /\ phase_task d p ++ tasks_ d = t :: phase_task d' p' ++ tasks_ d'
      /\ (weight d' p' < weight d p)%nat).

(** *** The FILE thread changes files and the size saved *)
Definition only_files (d d' : URLDownloader) : Prop :=
  exists fs n, d' = d <| files := fs |> <| saved_size_ := n |>.

Lemma only_files_refl d : only_files d d.
Proof. exists (files d), (saved_size_ d). by destruct d. Qed.

Lemma only_files_trans d1 d2 d3 :
  only_files d1 d2 -> only_files d2 d3 -> only_files d1 d3.
Proof. intros (fs & n & ->) (fs' & n' & ->). by exists fs', n'. Qed.

Lemma only_set_files fs d : only_files d (set_files fs d).
Proof. by exists fs, (saved_size_ d). Qed.

Lemma only_add_saved_size n d : only_files d (add_saved_size n d).
Proof. exists (files d), (saved_size_ d + n). by destruct d. Qed.

Lemma only_set_and_add fs n d :
  only_files d (add_saved_size n (set_files fs d)).
Proof.
  eapply only_files_trans; [apply only_set_files | apply only_add_saved_size].
Qed.

Hint Resolve only_files_refl only_set_files only_set_and_add : ios.

Lemma CreateOfflineURLDirectory_files url d d' ok :
  CreateOfflineURLDirectory url d = (d', ok) -> only_files d d'.
Proof.
  unfold CreateOfflineURLDirectory. destruct (negb _).
  - destruct (CreateDirectoryAndGetError _ _) as [fs b]. intros [= <- <-]. auto with ios.
  - intros [= <- <-]. auto with ios.
Qed.

Lemma SaveImage_files url u data d d' ok name :
  SaveImage url u data d = (d', ok, name) ->
  only_files d d' /\ name = MD5String (spec u) /\
  (ok = false -> exists path fs, (WriteFile path data fs).2 <= 0).
Proof.
  unfold SaveImage. destruct (negb _).
  - destruct (WriteFile _ _ _) as [fs written] eqn:Hw.
    destruct (Z.leb_spec written 0); intros [= <- <- <-]; split_and!; auto with ios.
    + intros _. eexists _, _. by rewrite Hw.
    + done.
  - intros [= <- <- <-]. split_and!; auto with ios. done.
Qed.

Lemma SaveHTMLForURL_files html url d d' ok :
  SaveHTMLForURL html url d = (d', ok) -> only_files d d'.
Proof.
  unfold SaveHTMLForURL. destruct (bool_decide _); [intros [= <- <-]; auto with ios |].
  destruct (WriteFile _ _ _) as [fs written].
  destruct (written <=? 0); intros [= <- <-]; auto with ios.
Qed.

Lemma SavePDFFile_run tmp d :
  moved_files_have_size ->
  exists d' success, SavePDFFile tmp d = Ok (d', success) /\ only_files d d'.
Proof.
  intros Hsize. unfold SavePDFFile.
  destruct (CreateOfflineURLDirectory _ d) as [d1 created] eqn:Hc.
  apply CreateOfflineURLDirectory_files in Hc. destruct created; [| by eauto].
  destruct (Move _ _ _) as [fs moved] eqn:Hm. destruct moved.
  - apply Hsize in Hm as (size & Hs). rewrite Hs. simpl. do 2 eexists. split; [done |].
    eapply only_files_trans; [done | apply only_set_and_add].
  - do 2 eexists. split; [done |]. eapply only_files_trans; [done | apply only_set_files].
Qed.

(** *** Images

    What [SaveAndReplaceImagesInHTML] makes of a page: each image that is not
    a data URL is referred to by the name of its file, or by no name when it
    is not stored. *)
Definition stored (distilled_url : GURL) (image : ImageInfo) : bool :=
  negb (SchemeIsCryptographic distilled_url
        && negb (SchemeIsCryptographic (image_url image)))
  && is_valid (image_url image) && negb (bool_decide (image_data image = [])).

Definition local_name (distilled_url : GURL) (image : ImageInfo) : text :=
  if stored distilled_url image then text_of (MD5String (spec (image_url image)))
  else [].

Definition reference (image : ImageInfo) : text :=
  EscapeForHTML (spec (image_url image)).

Inductive localized (distilled_url : GURL)
    : list ImageInfo -> text -> text -> bool -> Prop :=
| localized_nil html : localized distilled_url [] html html false
| localized_data image images html html' found :
    SchemeIs (image_url image) "data" = true ->
    localized distilled_url images html html' found ->
    localized distilled_url (image :: images) html html' found
| localized_image image images html t html' found :
    SchemeIs (image_url image) "data" = false ->
    replaced (reference image) (local_name distilled_url image) html t ->
    localized distilled_url images t html' found ->
    localized distilled_url (image :: images) html html'
      (bool_decide (is_Some (find_first (reference image) html)) || found).

(** An image that could not be written. *)
Definition write_failed (images : list ImageInfo) : Prop :=
  exists image path fs, image ∈ images /\ (WriteFile path (image_data image) fs).2 <= 0.

Lemma write_failed_incl images images' :
  images ⊆ images' -> write_failed images -> write_failed images'.
Proof. intros Hin (i & path & fs & Hi & Hw). exists i, path, fs. auto. Qed.

Lemma only_files_distilled_url d d' :
  only_files d d' -> distilled_url_ d' = distilled_url_ d.
Proof. by intros (fs & n & ->). Qed.

Lemma save_and_replace_image_spec url image d html found :
  searchable image ->
  exists d' result,
    save_and_replace_image url image (d, Some (html, found)) = Ok (d', result)
    /\ only_files d d' /\
    ((result = None /\ write_failed [image])
     \/ (SchemeIs (image_url image) "data" = true /\ result = Some (html, found))
     \/ (SchemeIs (image_url image) "data" = false /\ exists t,
           replaced (reference image) (local_name (distilled_url_ d) image) html t
           /\ result = Some (t, found || bool_decide
                                  (is_Some (find_first (reference image) html))))).
Proof.
  intros Hs. unfold save_and_replace_image, searchable in *.
  destruct (SchemeIs _ _).
  { do 2 eexists. split_and!; eauto with ios. }
  destruct Hs as [Hs | Hs]; [done |].
  assert (forall d' name, only_files d d' ->
    text_of name = local_name (distilled_url_ d) image ->
    exists d'' result,
    (html0 ← deref (replace_loop (length html) (reference image) (text_of name) html
                      (find html (reference image) 0));
     mret (d', Some (html0, found || bool_decide
                (is_Some (find html (reference image) 0))))) = Ok (d'', result)
    /\ only_files d d'' /\ exists t,
      replaced (reference image) (local_name (distilled_url_ d) image) html t
      /\ result = Some (t, found || bool_decide
                             (is_Some (find_first (reference image) html)))) as Hgo.
  { intros d' name Hd Hname. rewrite Hname.
    destruct (replace_loop_total (reference image) (local_name (distilled_url_ d) image)
      html) as (t & Ht & Hrun); [done |].
    rewrite Hrun, find_0. simpl. do 2 eexists. split_and!; eauto. }
  fold (stored (distilled_url_ d) image).
  destruct (stored (distilled_url_ d) image) eqn:Hst.
  - destruct (SaveImage _ _ _ d) as [[d1 saved] name] eqn:Hsave.
    apply SaveImage_files in Hsave as (Hd1 & -> & Hfail).
    destruct saved; simpl.
    + destruct (Hgo d1 (MD5String (spec (image_url image)))) as (d2 & r & Hr & Hd2 & Hx).
      { done. }
      { unfold local_name. by rewrite Hst. }
      exists d2, r. split_and!; eauto.
    + destruct (Hfail eq_refl) as (path & fs & Hw).
      do 2 eexists. split_and!; [done | done | left].
      split; [done |]. exists image, path, fs. split; [set_solver | done].
  - simpl. destruct (Hgo d ""%string) as (d2 & r & Hr & Hd2 & Hx).
    { auto with ios. }
    { unfold local_name. by rewrite Hst. }
    exists d2, r. split_and!; eauto.
Qed.

Lemma save_images_failed url images d :
  save_images url images (d, None) = Ok (d, None).
Proof. induction images; simpl; [done |]. done. Qed.

Lemma save_images_spec url images : forall d html found,
  Forall searchable images ->
  exists d' result,
    save_images url images (d, Some (html, found)) = Ok (d', result)
    /\ only_files d d' /\
    ((result = None /\ write_failed images)
     \/ exists t b, localized (distilled_url_ d) images html t b
        /\ result = Some (t, found || b)).
Proof.
  induction images as [| image images IH]; intros d html found Hall;
    cbn [save_images].
  { do 2 eexists. split_and!; auto with ios. right. exists html, false.
    rewrite orb_false_r. split; [constructor | done]. }
  inversion_clear Hall as [| ? ? Hi Hall'].
  destruct (save_and_replace_image_spec url image d html found Hi)
    as (d1 & r1 & -> & Hd1 & Hcases). simpl.
  pose proof (only_files_distilled_url _ _ Hd1) as Hdist.
  destruct Hcases as [[-> Hf] | [[Hdata ->] | (Hdata & t & Ht & ->)]].
  - exists d1, None. split_and!; [apply save_images_failed | done | left].
    split; [done |]. eapply write_failed_incl; [| done].
    intros i ->%list_elem_of_singleton. constructor.
  - destruct (IH d1 html found Hall') as (d2 & r2 & Hr & Hd2 & Hc).
    exists d2, r2. split_and!; [done | by eapply only_files_trans |].
    rewrite Hdist in Hc. destruct Hc as [[-> Hf] | (t & b & Hl & ->)].
    + left. split; [done |]. eapply write_failed_incl; [| done]. set_solver.
    + right. exists t, b. split; [by apply localized_data | done].
  - destruct (IH d1 t (found || bool_decide
      (is_Some (find_first (reference image) html))) Hall') as (d2 & r2 & Hr & Hd2 & Hc).
    exists d2, r2. split_and!; [done | by eapply only_files_trans |].
    rewrite Hdist in Hc. destruct Hc as [[-> Hf] | (t' & b & Hl & ->)].
    + left. split; [done |]. eapply write_failed_incl; [| done]. set_solver.
    + right. exists t', (bool_decide (is_Some (find_first (reference image) html)) || b).
      split; [by eapply localized_image |]. by rewrite orb_assoc.
Qed.

Lemma SaveAndReplaceImagesInHTML_spec url html images d :
  Forall searchable images ->
  exists d' html', SaveAndReplaceImagesInHTML url html images d = Ok (d', html')
    /\ only_files d d' /\
    ((html' = [] /\ write_failed images)
     \/ exists t found, localized (distilled_url_ d) images html t found
        /\ html' = if found then t ++ kDisableImageContextMenuScript else t).
Proof.
  intros Hall. unfold SaveAndReplaceImagesInHTML.
  destruct (save_images_spec url images d html false Hall)
    as (d' & r & -> & Hd & [[-> Hf] | (t & b & Hl & ->)]); simpl.
  - do 2 eexists. split_and!; eauto.
  - do 2 eexists. split_and!; [done | done | right]. eauto.
Qed.

Lemma save_and_replace_image_files url image st st' :
  save_and_replace_image url image st = Ok st' -> only_files st.1 st'.1.
Proof.
  destruct st as [d [[html found] |]]; cbn [save_and_replace_image];
    [| intros [= <-]; auto with ios].
  destruct (SchemeIs _ _); [intros [= <-]; auto with ios |].
  match goal with |- context [if ?b then SaveImage _ _ _ d else _] =>
    destruct (if b then SaveImage url (image_url image) (image_data image) d
              else (d, true, ""%string)) as [[d1 saved] name] eqn:Hs;
    assert (Hd : only_files d d1)
      by (destruct b; [by apply SaveImage_files in Hs as [? _] | injection Hs as <- _ _; auto with ios])
  end.
  destruct saved; cbn [negb]; [| by intros [= <-]].
  destruct (replace_loop _ _ _ _ _); [by intros [= <-] | done].
Qed.

Lemma save_images_files url images st st' :
  save_images url images st = Ok st' -> only_files st.1 st'.1.
Proof.
  revert st. induction images as [| image images IH]; intros st; cbn [save_images].
  { intros [= <-]. auto with ios. }
  intros (st1 & Hone & Hrest)%bind_Ok_inv. apply save_and_replace_image_files in Hone.
  eapply only_files_trans; [exact Hone | by apply IH].
Qed.

#[local] Instance searchable_dec image : Decision (searchable image).
Proof. unfold searchable. apply _. Defined.

(** The page is saved or not, unless the search for the empty URL of an image
    does not end. *)
Lemma SaveDistilledHTML_run url images html d :
  (exists d' success,
    SaveDistilledHTML url images html d = Ok (d', success) /\ only_files d d')
  \/ (SaveDistilledHTML url images html d = Fault
      /\ exists image, image ∈ images /\ SchemeIs (image_url image) "data" = false
           /\ EscapeForHTML (spec (image_url image)) = []).
Proof.
  unfold SaveDistilledHTML.
  destruct (CreateOfflineURLDirectory _ d) as [d1 created] eqn:Hc.
  apply CreateOfflineURLDirectory_files in Hc. destruct created; [| left; by eauto].
  destruct (SaveAndReplaceImagesInHTML url html images d1) as [[d2 html2] |] eqn:Hrun; simpl.
  - left. assert (Hd2 : only_files d1 d2).
    { unfold SaveAndReplaceImagesInHTML in Hrun. apply bind_Ok_inv in Hrun as ([d3 r] & Hsave & Hend).
      apply save_images_files in Hsave. by destruct r as [[t []] |]; injection Hend as <- _. }
    destruct (SaveHTMLForURL html2 url d2) as [d3 saved] eqn:Hs.
    apply SaveHTMLForURL_files in Hs. do 2 eexists. split; [done |].
    eapply only_files_trans; [done |]. by eapply only_files_trans.
  - right. split; [done |]. destruct (decide (Forall searchable images)) as [Hall | Hall].
    { destruct (SaveAndReplaceImagesInHTML_spec url html images d1 Hall) as (? & ? & Hok & _). congruence. }
    apply not_Forall_Exists in Hall; [| apply _]. apply Exists_exists in Hall as (image & Hin & Hno).
    exists image. split; [done |]. unfold searchable in Hno. split.
    + destruct (SchemeIs _ _) eqn:E; [| done]. exfalso. apply Hno. left. by rewrite E.
    + destruct (EscapeForHTML _) eqn:E; [done |]. exfalso. apply Hno. right. by rewrite E.
Qed.

(** *** Steps *)
Definition free (d : URLDownloader) : Prop :=
  working_ d = false /\ distiller_ d = None /\ posted d = [] /\ replies d = []
  /\ no_fetch d /\ valid_tasks d.

Lemma valid_queue_tail t tasks :
  valid_queue (t :: tasks) ->
  (t.1 = DOWNLOAD -> is_valid t.2 = true) /\ valid_queue tasks.
Proof.
  intros [Hall Hnd]. inversion_clear Hall. split; [done |]. split; [done |].
  rewrite filter_cons in Hnd. case_decide; [by apply NoDup_cons in Hnd as [_ ?] | done].
Qed.

Lemma HandleNextTask_free d :
  free d ->
  exists d' p, HandleNextTask d = Ok d' /\ in_phase d' p /\ valid_tasks d'
    /\ completions d' = completions d
    /\ phase_task d' p ++ tasks_ d' = tasks_ d
    /\ (weight d' p <= 9 * length (tasks_ d))%nat.
Proof.
  intros (Hw & Hd & Hp & Hr & Hf & Hv). unfold HandleNextTask. rewrite Hw.
  destruct (tasks_ d) as [| [type url] tasks] eqn:Ht.
  - exists d, Idle. unfold weight. rewrite Ht. split_and!; try done.
  - unfold valid_tasks in Hv. rewrite Ht in Hv.
    apply valid_queue_tail in Hv as [Hurl Hv'].
    assert (no_distilling d) by (intros v Hx; congruence).
    destruct type.
    + eexists _, (Posted (DoDelete _ url)). split; [done |].
      unfold weight. simpl. rewrite Hp. split_and!; try done. lia.
    + cbn [distiller_ set_field]. rewrite (bool_decide_eq_true_2 (distiller_ _ = None))
        by done.
      eexists _, (Posted (DoPathExists _ url)). split; [done |].
      unfold weight. simpl. rewrite Hp. split_and!; try done; [by apply Hurl | lia].
Qed.

(** The end of a task. *)
Lemma task_ends c t d0 p d :
  free d -> completions d = completions d0 ++ [c] -> reports c t ->
  phase_task d0 p = [t] -> tasks_ d = tasks_ d0 -> (0 < phase_weight p)%nat ->
  exists d' p', HandleNextTask d = Ok d' /\ advanced d0 p d' p'.
Proof.
  intros Hfree Hc Hrep Ht Htasks Hw.
  destruct (HandleNextTask_free d Hfree) as (d' & p' & Hrun & Hin & Hv & Hc' & Hq & Hwt).
  exists d', p'. split; [done |]. split_and!; [done | done | right].
  exists c, t. rewrite Hc', Hq, Ht, Htasks. split_and!; try done.
  unfold weight at 2. rewrite <- Htasks. lia.
Qed.

Lemma post_delete_ends e success d0 p d :
  working_ d = true -> posted d = [] -> replies d = [] -> no_fetch d ->
  valid_tasks d -> completions d = completions d0 -> tasks_ d = tasks_ d0 ->
  (exists u, phase_task d0 p = [(DOWNLOAD, u)]
     /\ (end_url e = u \/ (end_url e = distilled_url_ d
                              /\ end_path e = OfflinePagePath u OFFLINE_TYPE_PDF))) ->
  (0 < phase_weight p)%nat ->
  exists d' p', post_delete e success d = Ok d' /\ advanced d0 p d' p'.
Proof.
  intros Hw Hp Hr Hf Hv Hc Ht (u & Hu & He) Hwt.
  unfold post_delete. eapply task_ends; [| | | done | done | done].
  - by split_and!.
  - simpl. by rewrite Hc.
  - done.
Qed.

Lemma post_one c d0 p d :
  working_ d = true -> closure_ok d c -> no_distilling d -> posted d = [] ->
  replies d = [] -> no_fetch d -> valid_tasks d ->
  completions d = completions d0 -> tasks_ d = tasks_ d0 ->
  phase_task d (Posted c) = phase_task d0 p ->
  (phase_weight (Posted c) < phase_weight p)%nat ->
  exists p', advanced d0 p (post c d) p'.
Proof.
  intros Hw Hok Hd Hp Hr Hf Hv Hc Ht Htask Hwt.
  exists (Posted c). split_and!; [| done | left].
  - cbn. rewrite Hp. split_and!; try done; by destruct c.
  - split_and!; [done | | unfold weight; simpl; rewrite Ht; simpl in Hwt; lia].
    change (tasks_ (post c d)) with (tasks_ d). rewrite <- Htask, Ht. by destruct c.
Qed.

Lemma DownloadCompletionHandler_ends e success d0 p d :
  working_ d = true -> no_distilling d -> posted d = [] -> replies d = [] ->
  no_fetch d -> valid_tasks d -> completions d = completions d0 ->
  tasks_ d = tasks_ d0 -> end_ok d e ->
  phase_task d0 p = [(DOWNLOAD, original_url_ d)] ->
  (2 < phase_weight p)%nat ->
  exists d' p', DownloadCompletionHandler e success d = Ok d' /\ advanced d0 p d' p'.
Proof.
  intros Hw Hd Hp Hr Hf Hv Hc Ht He Htask Hwt. unfold DownloadCompletionHandler.
  rewrite Hw. cbn [dcheck mbind chk_bind].
  destruct success.
  1, 2: eapply post_delete_ends; eauto; lia.
  edestruct (post_one (DoCleanUp
    (OfflineURLDirectoryAbsolutePath (base_directory_ d) (end_url e)) e ERROR) d0 p d)
    as (p' & Hadv); eauto.
Qed.

Lemma only_files_phase d d' :
  only_files d d' ->
  working_ d' = working_ d /\ distiller_ d' = distiller_ d
  /\ fetcher_ d' = fetcher_ d /\ posted d' = posted d /\ replies d' = replies d
  /\ tasks_ d' = tasks_ d /\ completions d' = completions d
  /\ original_url_ d' = original_url_ d /\ distilled_url_ d' = distilled_url_ d.
Proof. intros (fs & n & ->). by split_and!. Qed.

Lemma reply_one r c d0 d d1 :
  in_phase d0 (Posted c) -> valid_tasks d0 ->
  d = d0 <| posted := [] |> -> only_files d d1 -> reply_ok d0 r ->
  phase_task d0 (Replied r) = phase_task d0 (Posted c) ->
  (phase_weight (Replied r) < phase_weight (Posted c))%nat ->
  exists p', advanced d0 (Posted c) (d1 <| replies := replies d1 ++ [r] |>) p'.
Proof.
  intros (Hw & Hok & Hd & Hp & Hr & Hf) Hv -> Ho Hrok Htask Hwt.
  apply only_files_phase in Ho as (Ew & Ed & Ef & Ep & Er & Et & Ec & Eo & Edu).
  cbn in Ew, Ed, Ef, Ep, Er, Et, Ec, Eo, Edu.
  exists (Replied r). split_and!; [| | left].
  - cbn. rewrite Ew, Ep, Er, Hr. split_and!; try done.
    + destruct r; simpl in *; unfold end_ok in *; simpl; by rewrite ?Ed, ?Eo, ?Edu.
    + intros v. cbn. rewrite Ed. apply Hd.
    + intros f. cbn. rewrite Ef. apply Hf.
  - unfold valid_tasks in *. cbn. by rewrite Et.
  - split_and!; [done | | unfold weight; cbn; rewrite Et; simpl in Hwt; lia].
    change (tasks_ (d1 <| replies := replies d1 ++ [r] |>)) with (tasks_ d1).
    rewrite Et, <- Htask. f_equal. destruct r; cbn; by rewrite ?Eo.
Qed.

Lemma file_thread_advances c d :
  moved_files_have_size -> in_phase d (Posted c) -> valid_tasks d ->
  (exists d', run_file_thread c [] d = Ok d' /\ exists p', advanced d (Posted c) d' p')
  \/ endless FileThreadRuns (run_file_thread c [] d) d.
Proof.
  intros Hsize Hin Hv. pose proof Hin as (_ & Hok & _). unfold run_file_thread.
  destruct c as [dir url | dir url | dir e success | tmp e | url images html e];
    cbn [run_closure].
  - left. destruct (DeleteFile _ _) as [fs ok]. eexists. split; [done |].
    eapply reply_one; eauto with ios.
  - left. eexists. split; [done |]. eapply reply_one; eauto with ios.
  - left. destruct (DeleteFile _ _) as [fs ok]. eexists. split; [done |].
    eapply reply_one; eauto with ios.
  - left. destruct (SavePDFFile_run tmp (d <| posted := [] |>) Hsize)
      as (d1 & success & -> & Ho).
    eexists. split; [done |]. eapply reply_one; eauto with ios.
  - destruct (SaveDistilledHTML_run url images html (d <| posted := [] |>))
      as [(d1 & success & -> & Ho) | [-> Himage]].
    + left. eexists. split; [done |]. eapply reply_one; eauto with ios.
    + right. split_and!; [done | done |]. exists url, images, html, e.
      split; [apply Hin | done].
Qed.

Lemma reply_advances r d :
  in_phase d (Replied r) -> valid_tasks d ->
  exists d', run_reply r (d <| replies := [] |>) = Ok d'
    /\ exists p', advanced d (Replied r) d' p'.
Proof.
  intros (Hw & Hok & Hd & Hp & Hr & Hf) Hv.
  destruct r as [url ok | url exists_ | e success | e success]; cbn [run_reply].
  - unfold DeleteCompletionHandler. cbn [working_ set_field]. rewrite Hw.
    cbn [dcheck mbind chk_bind].
    edestruct (task_ends (DeleteEnd url ok) (DELETE, url) d (Replied (ReplyDeleted url ok)))
      as (d' & p' & Hrun & Hadv); [| | | | | | by eauto]; try done.
    simpl. lia.
  - destruct Hok as [Hdn Hurl]. unfold DownloadURL. destruct exists_.
    + unfold DownloadCompletionHandler. cbn [working_ set_field]. rewrite Hw.
      cbn [dcheck mbind chk_bind].
      edestruct (post_delete_ends (no_end url) DOWNLOAD_EXISTS d
        (Replied (ReplyPathExists url true)) (d <| replies := [] |>))
        as (d' & p' & Hrun & Hadv); [.. | by eauto]; try done.
      * exists url. split; [done | by left].
      * simpl. lia.
    + unfold DistillerViewer_new. rewrite Hurl. cbn [dcheck mbind chk_bind mret chk_ret].
      eexists. split; [done |].
      exists (Distilling {| url_ := url; js_buffer_ := []; distilling := true |}).
      split_and!; [| done | left].
      * cbn. split_and!; try done.
      * split_and!; [done | done | unfold weight; simpl; lia].
  - edestruct (post_delete_ends e success d (Replied (ReplyPostDelete e success))
      (d <| replies := [] |>)) as (d' & p' & Hrun & Hadv); [.. | by eauto]; try done.
    + exists (original_url_ d). split; [done |]. exact Hok.
    + simpl. lia.
  - edestruct (DownloadCompletionHandler_ends e success d (Replied (ReplySaved e success))
      (d <| replies := [] |>)) as (d' & p' & Hrun & Hadv); [.. | by eauto]; try done.
    simpl. lia.
Qed.

Lemma distilled_advances article v d :
  in_phase d (Distilling v) -> valid_tasks d ->
  exists d', call_back article v d = Ok d'
    /\ exists p', advanced d (Distilling v) d' p'.
Proof.
  intros (Hw & Hu & [Hdv Hd] & Hp & Hr & Hf) Hv.
  unfold call_back, DistillerCallback.
  destruct (OnArticleReady article v) as [[html images] title] eqn:Ha.
  assert (no_distilling (d <| distiller_ := Some (finished v) |>)) as Hnd.
  { by intros ? [= <-]. }
  case_bool_decide as Hhtml.
  - destruct (String.eqb_spec (mime_type_ (d <| distiller_ := Some (finished v) |>))
      "application/pdf") as [Hm | _].
    + eexists. split; [done |]. unfold FetchPDFFile.
      exists (Fetching {| fetch_url :=
        if is_valid (distilled_url_ d) then distilled_url_ d else original_url_ d;
        fetching := true |}). split_and!; [| done | left].
      * cbn. split_and!; try done. unfold url_ok. simpl.
        destruct (is_valid (distilled_url_ d)); auto.
      * split_and!; [done | done | unfold weight; simpl; lia].
    + edestruct (DownloadCompletionHandler_ends (no_end (url_ v)) ERROR d (Distilling v)
        (d <| distiller_ := Some (finished v) |>)) as (d' & p' & Hrun & Hadv);
        [.. | by eauto]; try done.
      * by left.
      * simpl. lia.
  - eexists. split; [done |]. eapply post_one; try done; [by left | simpl; lia].
Qed.

Lemma fetched_advances result f d :
  in_phase d (Fetching f) -> valid_tasks d ->
  exists d', OnURLFetchComplete result (d <| fetcher_ := Some (fetched f) |>) = Ok d'
    /\ exists p', advanced d (Fetching f) d' p'.
Proof.
  intros (Hw & Hnd & Hp & Hr & [Hff Hf] & He & Hm) Hv.
  unfold OnURLFetchComplete. cbn [fetcher_ mime_type_ set_field deref mbind chk_bind].
  rewrite Hm. cbn [String.eqb Ascii.eqb Bool.eqb dcheck mbind chk_bind].
  assert (no_fetch (d <| fetcher_ := Some (fetched f) |>)) by (by intros ? [= <-]).
  destruct (negb (is_success result) || _).
  - match goal with |- context [DownloadCompletionHandler ?e ?s ?x] =>
      edestruct (DownloadCompletionHandler_ends e s d (Fetching f) x)
        as (d' & p' & Hrun & Hadv); [.. | by eauto]; try done end.
    + by left.
    + simpl. lia.
  - eexists. split; [done |]. eapply post_one; try done; [| simpl; lia].
    destruct He as [He | He]; [by left | by right].
Qed.

Lemma distilling_phase v d p :
  in_phase d p -> distiller_ d = Some v -> distilling v = true ->
  p = Distilling v /\ url_ v = original_url_ d.
Proof.
  intros Hp Hv Hb. destruct p; cbn in Hp; unfold no_distilling in Hp;
    destruct_and? Hp; simplify_eq; try congruence; try by split.
  all: match goal with Hn : forall v, _ -> distilling v = false |- _ =>
      specialize (Hn v Hv) end; congruence.
Qed.

Lemma fetching_phase f d p :
  in_phase d p -> fetcher_ d = Some f -> fetching f = true -> p = Fetching f.
Proof.
  intros Hp Hf Hb. destruct p; cbn in Hp; unfold no_fetch in Hp;
    destruct_and? Hp; simplify_eq; try congruence.
  all: match goal with Hn : forall f, _ -> fetching f = false |- _ =>
      specialize (Hn f Hf) end; congruence.
Qed.

Lemma page_event_step a m d p :
  in_phase d p -> valid_tasks d -> page_event a = true -> answers d a m ->
  exists d' p', m = Ok d' /\ in_phase d' p' /\ valid_tasks d'
    /\ completions d' = completions d /\ tasks_ d' = tasks_ d
    /\ phase_task d' p' = phase_task d p /\ weight d' p' = weight d p.
Proof.
  intros Hp Hv Ha Hm.
  pose proof (fun v => distilling_phase v d p Hp) as Hdist.
  destruct Hm as [| | v u Hv1 Hv2 | v t Hv1 Hv2 | v b Hv1 Hv2 | |]; try discriminate;
    destruct (Hdist v Hv1 Hv2) as [-> Hu]; clear Hdist;
    destruct Hp as (Hw & _ & _ & Hp & Hr & Hf).
  - unfold DistilledPageRedirectedToURL.
    rewrite (proj2 (same_url_spec _ _)) by done. eexists _, (Distilling v).
    split; [done |]. by split_and!.
  - unfold DistilledPageHasMimeType.
    rewrite (proj2 (same_url_spec _ _)) by done. eexists _, (Distilling v).
    split; [done |]. by split_and!.
  - eexists _, (Distilling (SendJavaScript b v)). split; [done |]. by split_and!.
Qed.

Lemma answer_step a m d p :
  moved_files_have_size -> in_phase d p -> valid_tasks d ->
  page_event a = false -> answers d a m ->
  (exists d', m = Ok d' /\ exists p', advanced d p d' p') \/ endless a m d.
Proof.
  intros Hsize Hp Hv Hpage Hm.
  destruct Hm as [c rest Hc | r rest Hr | | | | v article Hv1 Hv2 | f result Hf1 Hf2];
    try discriminate.
  - assert (p = Posted c /\ rest = []) as [-> ->].
    { destruct p; cbn in Hp; destruct_and? Hp; split; congruence. }
    by apply file_thread_advances.
  - assert (p = Replied r /\ rest = []) as [-> ->].
    { destruct p; cbn in Hp; destruct_and? Hp; split; congruence. }
    left. by apply reply_advances.
  - destruct (distilling_phase v d p) as [-> _]; [done.. |].
    left. by apply distilled_advances.
  - rewrite (fetching_phase f d p) in Hp |- * by done.
    left. by apply fetched_advances.
Qed.

(** ** Requests *)

(** What a request does to the queue. *)
Definition edited (r : request) (tasks : list Task) : list Task :=
  match r with
  | Download url =>
      if bool_decide ((DOWNLOAD, url) ∈ tasks) then tasks
      else tasks ++ [(DOWNLOAD, url)]
  | Cancel url => filter (fun t => t <> (DOWNLOAD, url)) tasks
  | Remove url => filter (fun t => t <> (DOWNLOAD, url)) tasks ++ [(DELETE, url)]
  end.

Lemma edited_valid r tasks :
  request_ok r -> valid_queue tasks -> valid_queue (edited r tasks).
Proof.
  intros Hr [Hall Hnd].
  assert (forall url, Forall (fun t => t.1 = DOWNLOAD -> is_valid t.2 = true)
    (filter (fun t => t <> (DOWNLOAD, url)) tasks)) as Hf1.
  { intros url. apply Forall_forall. intros t [_ Ht]%list_elem_of_filter.
    by apply (proj1 (Forall_forall _ _) Hall). }
  assert (forall url, NoDup (filter (fun t => t.1 = DOWNLOAD)
    (filter (fun t => t <> (DOWNLOAD, url)) tasks))) as Hf2.
  { intros url. rewrite list_filter_filter. rewrite (list_filter_iff _
      (fun t : Task => t <> (DOWNLOAD, url) /\ t.1 = DOWNLOAD)) by tauto.
    rewrite <- list_filter_filter. by apply NoDup_filter. }
  destruct r as [url | url | url]; simpl in *.
  - case_bool_decide as Hin; [done |]. split.
    + apply Forall_app. split; [done |]. by constructor.
    + rewrite filter_app, filter_cons_True by done.
      apply NoDup_app. split_and!; [done | | apply NoDup_singleton].
      intros t [_ Ht]%list_elem_of_filter ->%list_elem_of_singleton. done.
  - by split.
  - split.
    + apply Forall_app. split; [apply Hf1 |]. by constructor.
    + rewrite filter_app, filter_cons_False by done. simpl. by rewrite app_nil_r.
Qed.

Lemma HandleNextTask_working d : working_ d = true -> HandleNextTask d = Ok d.
Proof. intros Hw. unfold HandleNextTask. by rewrite Hw. Qed.

Lemma idle_or_not (p : phase) : p = Idle \/ p <> Idle.
Proof. destruct p; [by left | by right..]. Qed.

Lemma set_tasks_phase d p tasks :
  in_phase d p -> p <> Idle -> in_phase (d <| tasks_ := tasks |>) p.
Proof. destruct p; done. Qed.

Lemma HandleNextTask_edited d p tasks :
  in_phase d p -> valid_queue tasks ->
  exists d' p', HandleNextTask (d <| tasks_ := tasks |>) = Ok d'
    /\ in_phase d' p' /\ valid_tasks d' /\ completions d' = completions d
    /\ phase_task d' p' ++ tasks_ d' = phase_task d p ++ tasks.
Proof.
  intros Hp Hv. destruct (idle_or_not p) as [-> | Hidle].
  - destruct Hp as (Hw & Ht & Hd & Hpo & Hr & Hf).
    destruct (HandleNextTask_free (d <| tasks_ := tasks |>))
      as (d' & p' & Hrun & Hin & Hv' & Hc & Hq & _); [by split_and! |].
    exists d', p'. split_and!; done.
  - assert (working_ d = true) as Hw by (destruct p; by destruct Hp).
    exists (d <| tasks_ := tasks |>), p.
    split_and!; [by apply HandleNextTask_working | by apply set_tasks_phase
      | done | done |]. by destruct p.
Qed.

Lemma request_step r d p :
  in_phase d p -> valid_tasks d -> request_ok r ->
  exists d' p', serve r d = Ok d' /\ in_phase d' p' /\ valid_tasks d'
    /\ completions d' = completions d
    /\ phase_task d' p' ++ tasks_ d' = phase_task d p ++ edited r (tasks_ d).
Proof.
  intros Hp Hv Hr. pose proof (edited_valid r (tasks_ d) Hr Hv) as He.
  destruct r as [url | url | url]; cbn [serve edited] in *.
  - unfold DownloadOfflineURL. case_bool_decide.
    + by exists d, p.
    + by apply HandleNextTask_edited.
  - eexists _, p. split; [done |]. unfold CancelDownloadOfflineURL.
    split_and!; [| done | done | by destruct p].
    destruct (idle_or_not p) as [-> | Hidle]; [| by apply set_tasks_phase].
    destruct Hp as (Hw & Ht & Hd & Hpo & Hre & Hf).
    rewrite Ht. split_and!; done.
  - unfold RemoveOfflineURL, CancelDownloadOfflineURL. cbn [tasks_ set_field].
    destruct (HandleNextTask_edited d p _ Hp He) as (d' & p' & Hrun & Hrest).
    by exists d', p'.
Qed.

(** ** Histories of a downloader *)
Inductive reachable : URLDownloader -> Prop :=
| reachable_new base fs : reachable (URLDownloader_new base fs)
| reachable_serve r d d' :
    reachable d -> request_ok r -> serve r d = Ok d' -> reachable d'
| reachable_answer a m d d' :
    reachable d -> answers d a m -> m = Ok d' -> reachable d'.

(** [run n d d']: answers lead from [d] to [d'], [n] of them not page events. *)
Inductive run : nat -> URLDownloader -> URLDownloader -> Prop :=
| run_nil d : run 0 d d
| run_page n a m d d1 d2 :
    page_event a = true -> answers d a m -> m = Ok d1 -> run n d1 d2 -> run n d d2
| run_answer n a m d d1 d2 :
    page_event a = false -> answers d a m -> m = Ok d1 ->
    run n d1 d2 -> run (S n) d d2.

Lemma run_reachable n d d' : run n d d' -> reachable d -> reachable d'.
Proof. induction 1; [done | ..]; intros Hd; eauto using reachable_answer. Qed.

(** The tasks being handled. *)
Definition closure_task (d : URLDownloader) (c : file_closure) : Task :=
  match c with
  | DoDelete _ url => (DELETE, url)
  | DoPathExists _ url => (DOWNLOAD, url)
  | _ => (DOWNLOAD, original_url_ d)
  end.

Definition reply_task (d : URLDownloader) (r : reply) : Task :=
  match r with
  | ReplyDeleted url _ => (DELETE, url)
  | ReplyPathExists url _ => (DOWNLOAD, url)
  | _ => (DOWNLOAD, original_url_ d)
  end.

Definition distiller_task (d : URLDownloader) : list Task :=
  match distiller_ d with
  | Some v => if distilling v then [(DOWNLOAD, url_ v)] else []
  | None => []
  end.

Definition fetcher_task (d : URLDownloader) : list Task :=
  match fetcher_ d with
  | Some f => if fetching f then [(DOWNLOAD, original_url_ d)] else []
  | None => []
  end.

Definition handling (d : URLDownloader) : list Task :=
  (closure_task d <$> posted d) ++ (reply_task d <$> replies d)
  ++ distiller_task d ++ fetcher_task d.

Lemma no_distilling_task d : no_distilling d -> distiller_task d = [].
Proof.
  unfold no_distilling, distiller_task. intros Hd.
  destruct (distiller_ d) as [v |]; [| done]. by rewrite (Hd v).
Qed.

Lemma no_fetch_task d : no_fetch d -> fetcher_task d = [].
Proof.
  unfold no_fetch, fetcher_task. intros Hf.
  destruct (fetcher_ d) as [f |]; [| done]. by rewrite (Hf f).
Qed.

Lemma handling_phase d p : in_phase d p -> handling d = phase_task d p.
Proof.
  unfold handling. destruct p as [| c | r | v | f]; cbn.
  - intros (_ & _ & Hd & -> & -> & Hf). rewrite no_fetch_task by done.
    unfold distiller_task. by rewrite Hd.
  - intros (_ & _ & Hd & -> & -> & Hf).
    rewrite no_fetch_task, no_distilling_task by done. by destruct c.
  - intros (_ & _ & Hd & -> & -> & Hf).
    rewrite no_fetch_task, no_distilling_task by done. by destruct r.
  - intros (_ & Hu & [Hb Hd] & -> & -> & Hf). rewrite no_fetch_task by done.
    unfold distiller_task. by rewrite Hd, Hb, Hu.
  - intros (_ & Hd & -> & -> & [Hb Hf] & _). rewrite no_distilling_task by done.
    unfold fetcher_task. by rewrite Hf, Hb.
Qed.

Lemma phase_working d p :
  in_phase d p ->
  (working_ d = false /\ phase_task d p = [] /\ tasks_ d = [])
  \/ (working_ d = true /\ exists t, phase_task d p = [t]).
Proof.
  destruct p as [| c | r | v | f]; cbn; intros Hp; [left | right..];
    destruct_and? Hp; split; try done; [destruct c | destruct r | |]; by eexists.
Qed.

Lemma new_idle base fs :
  in_phase (URLDownloader_new base fs) Idle /\ valid_tasks (URLDownloader_new base fs).
Proof.
  split; [split_and!; try done; by intros f |].
  split; [by apply Forall_nil | apply NoDup_nil_2].
Qed.

Lemma reachable_phase d :
  moved_files_have_size -> reachable d -> exists p, in_phase d p /\ valid_tasks d.
Proof.
  intros Hsize. induction 1 as [base fs | r d d' _ (p & Hp & Hv) Hr Hs
    | a m d d' _ (p & Hp & Hv) Hm ->].
  - exists Idle. apply new_idle.
  - destruct (request_step r d p Hp Hv Hr) as (d1 & p1 & Hs1 & Hp1 & Hv1 & _).
    rewrite Hs in Hs1. injection Hs1 as <-. by exists p1.
  - destruct (page_event a) eqn:Hpage.
    + destruct (page_event_step a (Ok d') d p) as (d1 & p1 & [= <-] & Hp1 & Hv1 & _);
        [done.. |]. by exists p1.
    + destruct (answer_step a (Ok d') d p) as [(d1 & [= <-] & p1 & Hp1 & Hv1 & _) | (_ & ? & _)];
        [done.. | by exists p1 | done].
Qed.

Lemma run_measure n d d' p :
  moved_files_have_size -> in_phase d p -> valid_tasks d -> run n d d' ->
  exists p' handled cs, in_phase d' p' /\ valid_tasks d'
    /\ completions d' = completions d ++ cs
    /\ phase_task d p ++ tasks_ d = handled ++ phase_task d' p' ++ tasks_ d'
    /\ Forall2 reports cs handled /\ (n + weight d' p' <= weight d p)%nat.
Proof.
  intros Hsize Hp Hv Hrun. revert p Hp Hv.
  induction Hrun as [d | n a m d d1 d2 Ha Hm -> _ IH | n a m d d1 d2 Ha Hm -> _ IH];
    intros p Hp Hv.
  - exists p, [], []. rewrite app_nil_r. by split_and!.
  - destruct (page_event_step a (Ok d1) d p)
      as (? & p1 & [= <-] & Hp1 & Hv1 & Hc & Ht & Hpt & Hw); [done.. |].
    destruct (IH p1 Hp1 Hv1) as (p' & handled & cs & Hp' & Hv' & Hc' & Hq & Hrep & Hn).
    exists p', handled, cs. split_and!; try done; [by rewrite Hc', Hc | | lia].
    by rewrite <- Hq, Hpt, Ht.
  - destruct (answer_step a (Ok d1) d p)
      as [(? & [= <-] & p1 & Hp1 & Hv1 & Hcases) | (_ & ? & _)]; [done.. | | done].
    destruct (IH p1 Hp1 Hv1) as (p' & handled & cs & Hp' & Hv' & Hc' & Hq & Hrep & Hn).
    destruct Hcases as [(Hc & Hq1 & Hw) | (c & t & Hc & Ht & Hq1 & Hw)].
    + exists p', handled, cs. split_and!; try done; [by rewrite Hc', Hc | | lia].
      by rewrite <- Hq, Hq1.
    + exists p', (t :: handled), (c :: cs). split_and!; try done; [| | by constructor | lia].
      * by rewrite Hc', Hc, <- app_assoc.
      * by rewrite Hq1, Hq.
Qed.

(** Something can answer while a task is handled. *)
Lemma working_answered d p :
  in_phase d p -> p <> Idle ->
  exists a m, answers d a m /\ page_event a = false.
Proof.
  destruct p as [| c | r | v | f]; intros Hp Hidle; [done | | | |]; cbn in Hp.
  - exists FileThreadRuns. eexists. split; [| done].
    apply (file_thread_runs d c []). by destruct_and? Hp.
  - exists ReplyRuns. eexists. split; [| done].
    apply (reply_runs d r []). by destruct_and? Hp.
  - exists (Distilled {| article_title := ""; pages := [] |}). eexists.
    split; [| done]. apply (distilled d v); by destruct_and? Hp.
  - exists (Fetched {| headers := None; is_success := false;
                       response_path := FilePath_empty |}). eexists.
    split; [| done]. apply (fetch_complete d f); by destruct_and? Hp.
Qed.

(** *** Executable histories *)
Definition next (a : answer) (d : URLDownloader) : option (chk URLDownloader) :=
  match a with
  | FileThreadRuns =>
      match posted d with c :: rest => Some (run_file_thread c rest d) | [] => None end
  | ReplyRuns =>
      match replies d with
      | r :: rest => Some (run_reply r (d <| replies := rest |>))
      | [] => None
      end
  | Fetched result =>
      match fetcher_ d with
      | Some f =>
          if fetching f
          then Some (OnURLFetchComplete result (d <| fetcher_ := Some (fetched f) |>))
          else None
      | None => None
      end
  | PageRedirected _ | PageHasMimeType _ | PageSendsJavaScript _ | Distilled _ =>
      match distiller_ d with
      | Some v =>
          if distilling v then
            Some match a with
                 | PageRedirected u => DistilledPageRedirectedToURL (url_ v) u d
                 | PageHasMimeType m => DistilledPageHasMimeType (url_ v) m d
                 | PageSendsJavaScript b =>
                     Ok (d <| distiller_ := Some (SendJavaScript b v) |>)
                 | Distilled article => call_back article v d
                 | _ => Fault
                 end
          else None
      | None => None
      end
  end.

Lemma next_answers a d m : next a d = Some m -> answers d a m.
Proof.
  destruct a; cbn.
  - destruct (posted d) eqn:E; intros [= <-]. by constructor.
  - destruct (replies d) eqn:E; intros [= <-]. by constructor.
  - destruct (distiller_ d) as [v |] eqn:E; [| done].
    destruct (distilling v) eqn:Ev; intros [= <-]. by constructor.
  - destruct (distiller_ d) as [v |] eqn:E; [| done].
    destruct (distilling v) eqn:Ev; intros [= <-]. by constructor.
  - destruct (distiller_ d) as [v |] eqn:E; [| done].
    destruct (distilling v) eqn:Ev; intros [= <-]. by apply page_sends_java_script.
  - destruct (distiller_ d) as [v |] eqn:E; [| done].
    destruct (distilling v) eqn:Ev; intros [= <-]. by constructor.
  - destruct (fetcher_ d) as [f |] eqn:E; [| done].
    destruct (fetching f) eqn:Ev; intros [= <-]. by constructor.
Qed.

Definition step_to (a : answer) (d : URLDownloader) : option URLDownloader :=
  match next a d with Some (Ok d') => Some d' | _ => None end.

Fixpoint play (l : list answer) (d : URLDownloader) : option URLDownloader :=
  match l with
  | [] => Some d
  | a :: l => match step_to a d with Some d => play l d | None => None end
  end.

Lemma step_to_answers a d d' : step_to a d = Some d' -> answers d a (Ok d').
Proof.
  unfold step_to. destruct (next a d) as [[d1 |] |] eqn:E; intros [= <-].
  by apply next_answers.
Qed.

Lemma play_run l d d' :
  play l d = Some d' ->
  run (length (filter (fun a => page_event a = false) l)) d d'.
Proof.
  revert d. induction l as [| a l IH]; intros d; simpl.
  { intros [= <-]. constructor. }
  destruct (step_to a d) as [d1 |] eqn:E; [| done]. intros Hplay.
  apply step_to_answers in E. rewrite filter_cons. case_decide as Hp.
  - by eapply run_answer; eauto.
  - eapply run_page; eauto. by destruct (page_event a).
Qed.

(** ** Properties *)

(** One task is handled at a time: in every history a downloader that is
    working has exactly one closure, reply, distillation or fetch under way,
    one that is not working has none and an empty queue, and no URL is queued
    twice for download. *)
Lemma downloader_one_at_a_time (Hsize : moved_files_have_size) d
    (Hd : reachable d) :
  (working_ d = true -> exists t, handling d = [t])
  /\ (working_ d = false -> handling d = [] /\ tasks_ d = [])
  /\ NoDup (filter (fun t => t.1 = DOWNLOAD) (tasks_ d)).
Proof.
  destruct (reachable_phase d Hsize Hd) as (p & Hp & [_ Hnd]).
  rewrite (handling_phase d p Hp).
  destruct (phase_working d p Hp) as [(Hw & Hh & Ht) | (Hw & Hh)];
    split_and!; try done; congruence.
Qed.

(** In every history the checks of the handlers pass and the loops end:
    a request for a valid URL succeeds, and so does the handler of whatever
    the FILE thread, the distiller or the network answers, but for the search
    of an image with an empty URL. *)
Lemma downloader_never_faults (Hsize : moved_files_have_size) d
    (Hd : reachable d) :
  (forall r, request_ok r -> is_ok (serve r d))
  /\ (forall a m, answers d a m -> is_ok m \/ endless a m d).
Proof.
  destruct (reachable_phase d Hsize Hd) as (p & Hp & Hv). split.
  - intros r Hr. destruct (request_step r d p Hp Hv Hr) as (d' & _ & Hs & _).
    by exists d'.
  - intros a m Hm. destruct (page_event a) eqn:Hpage.
    + destruct (page_event_step a m d p) as (d' & _ & Hs & _); [done.. |]. left. by exists d'.
    + destruct (answer_step a m d p) as [(d' & Hs & _) | He]; [done.. | | by right].
      left. by exists d'.
Qed.

(** C28. Tasks are handled in the order of the queue and each is reported to
    the client exactly once: from a state of any history, whatever the page, the
    distiller and the network answer, answers bring only as many reports as tasks
    leave the queue, and at most 9 answers per task exist.  A download is reported
    under the URL asked for or, when it is a PDF that redirected, under the URL
    redirected to with the path of the file of the URL asked for.  The queue is
    emptied but for one case: as long as a task is handled another answer can come
    and is handled, unless the FILE thread saves a page with an image whose URL is
    empty and not a data URL, and searches for it for ever. (The size of a file
    just moved can be read.) *)
Theorem downloads_finish (Hsize : moved_files_have_size) n d d'
    (Hd : reachable d) (Hrun : run n d d') :
  (n <= 9 * length (tasks_ d) + 8)%nat
  /\ (exists handled cs, completions d' = completions d ++ cs
       /\ handling d ++ tasks_ d = handled ++ handling d' ++ tasks_ d'
       /\ Forall2 reports cs handled)
  /\ (forall a m, answers d' a m -> is_ok m \/ endless a m d')
  /\ (working_ d' = true -> exists a m, answers d' a m /\ page_event a = false)
  /\ (working_ d' = false -> handling d' = [] /\ tasks_ d' = []).
Proof.
  destruct (reachable_phase d Hsize Hd) as (p & Hp & Hv).
  destruct (run_measure n d d' p Hsize Hp Hv Hrun)
    as (p' & handled & cs & Hp' & Hv' & Hc & Hq & Hrep & Hn).
  rewrite (handling_phase d p Hp), (handling_phase d' p' Hp'). split_and!.
  - assert (phase_weight p <= 8)%nat by (destruct p as [| [] | [] | |]; simpl; lia).
    unfold weight in Hn. lia.
  - by exists handled, cs.
  - apply downloader_never_faults; [done |]. by eapply run_reachable.
  - intros Hw. destruct (idle_or_not p') as [-> | Hidle].
    { destruct Hp' as [Hx _]. congruence. }
    by apply (working_answered d' p').
  - intros Hw. destruct (phase_working d' p' Hp') as [(_ & ? & ?) | [Hw' _]]; [done | congruence].
Qed.

(** What a request does to the tasks in hand: a download is queued at the
    end unless it is queued already, a cancellation takes the queued download
    out, a removal takes it out and queues the deletion; the task being
    handled is not touched and nothing is reported. *)
Lemma requests_edit_queue (Hsize : moved_files_have_size) d r
    (Hd : reachable d) (Hr : request_ok r) :
  exists d', serve r d = Ok d'
    /\ handling d' ++ tasks_ d' = handling d ++ edited r (tasks_ d)
    /\ completions d' = completions d.
Proof.
  destruct (reachable_phase d Hsize Hd) as (p & Hp & Hv).
  destruct (request_step r d p Hp Hv Hr) as (d' & p' & Hs & Hp' & _ & Hc & Hq).
  exists d'. rewrite (handling_phase d p Hp), (handling_phase d' p' Hp').
  by split_and!.
Qed.

Fixpoint serve_all (l : list request) (d : URLDownloader) : chk URLDownloader :=
  match l with
  | [] => mret d
  | r :: l => d ← serve r d; serve_all l d
  end.

(** Working, and nothing under way. *)
Definition stuck (d : URLDownloader) : Prop :=
  working_ d = true /\ posted d = [] /\ replies d = [] /\ distiller_ d = None
  /\ no_fetch d.

Lemma stuck_serve r d :
  stuck d -> exists d', serve r d = Ok d' /\ stuck d'
    /\ tasks_ d' = edited r (tasks_ d) /\ completions d' = completions d.
Proof.
  intros (Hw & Hp & Hr & Hdi & Hf).
  destruct r as [url | url | url]; cbn [serve edited].
  - unfold DownloadOfflineURL. case_bool_decide.
    + exists d. by split_and!.
    + rewrite HandleNextTask_working by done. eexists. by split_and!.
  - eexists. by split_and!.
  - unfold RemoveOfflineURL. rewrite HandleNextTask_working by done.
    eexists. by split_and!.
Qed.

Lemma stuck_silent d a m : stuck d -> ~ answers d a m.
Proof.
  intros (Hw & Hp & Hr & Hdi & Hf) Hm. destruct Hm; try congruence.
  unfold no_fetch in Hf. specialize (Hf f). intuition congruence.
Qed.

(** CancelTask blocks the queue: called while a task other than a PDF
    fetch is handled, it leaves the downloader working with nothing under
    way, so no answer ever comes; all later requests are queued, none is
    handled or reported. *)
Lemma CancelTask_blocks_queue d (Hw : working_ d = true) (Hf : no_fetch d)
    (l : list request) :
  exists d', serve_all l (CancelTask d) = Ok d'
    /\ (forall a m, ~ answers d' a m)
    /\ tasks_ d' = foldl (fun tasks r => edited r tasks) (tasks_ d) l
    /\ completions d' = completions d.
Proof.
  assert (stuck (CancelTask d)) as Hst by by split_and!.
  change (tasks_ d) with (tasks_ (CancelTask d)).
  change (completions d) with (completions (CancelTask d)).
  revert Hst. generalize (CancelTask d) as d0. clear Hw Hf.
  induction l as [| r l IH]; intros d0 Hst; simpl.
  - exists d0. split_and!; try done. intros a m. by apply stuck_silent.
  - destruct (stuck_serve r d0 Hst) as (d1 & -> & Hst1 & Ht & Hc). simpl.
    destruct (IH d1 Hst1) as (d' & Hs & Hsil & Ht' & Hc').
    exists d'. rewrite Ht', Hc', Ht, Hc. by split_and!.
Qed.

(** The images of a page are localized: for images with a URL the loops
    end, and the page saved is the distilled one in which, image by image,
    every reference is replaced by the name of the image's file (or removed
    when the image is mixed content, invalid or empty), the context menu
    script being added when a reference was found; the result is empty only
    when a file could not be written. *)
Lemma images_are_localized url html images d (Hall : Forall searchable images) :
  exists d' html', SaveAndReplaceImagesInHTML url html images d = Ok (d', html')
    /\ ((html' = [] /\ write_failed images)
        \/ exists t found, localized (distilled_url_ d) images html t found
           /\ html' = if found then t ++ kDisableImageContextMenuScript else t).
Proof.
  destruct (SaveAndReplaceImagesInHTML_spec url html images d Hall)
    as (d' & html' & Hrun & _ & Hcases). by exists d', html'.
Qed.

(** An image whose URL has no text makes the replacement loop run for
    ever: no number of iterations is enough. *)
Lemma empty_image_url_never_ends url html image d
    (Hdata : SchemeIs (image_url image) "data" = false)
    (Hempty : reference image = []) (Hst : stored (distilled_url_ d) image = false) :
  (forall fuel, replace_loop fuel (reference image) (local_name (distilled_url_ d) image)
                  html (find html (reference image) 0) = None)
  /\ SaveAndReplaceImagesInHTML url html [image] d = Fault.
Proof.
  rewrite Hempty. unfold local_name. rewrite Hst, find_0, find_first_nil. split.
  - intros fuel. apply replace_loop_empty. lia.
  - unfold SaveAndReplaceImagesInHTML. cbn [save_images].
    unfold save_and_replace_image. rewrite Hdata.
    fold (stored (distilled_url_ d) image). rewrite Hst. cbn [negb].
    fold (reference image).
    rewrite Hempty, find_0, find_first_nil, replace_loop_empty by lia. done.
Qed.
End downloader.

(** ** A history *)
Module DownloaderSample.
Import ConcreteOffline.

Definition page : GURL := url_of "https://page/".
Definition moved_page : GURL := url_of "https://moved/".
Definition picture : text := text_of "https://page/cat".

Definition disk : FileSystem :=
  <[["profile"%string] := None]> (<[["profile"; "Offline"]%string := None]>
    (<[["tmp"%string] := Some (text_of "pdf data")]> ∅)).

Definition start : URLDownloader := URLDownloader_new (["profile"%string] : @FilePath files) disk.

Definition article : Article :=
  {| article_title := "Cats";
     pages := [{| page_html := text_of "<p>";
                  page_images := [(picture, text_of "meow")] |}] |}.

Definition asked : URLDownloader := from_ok start (serve (Download page) start).
Definition asked_again : URLDownloader := from_ok start (serve (Download page) asked).
Definition waiting : URLDownloader := from_ok start (serve (Remove page) asked_again).

(** The page is downloaded with its picture, then deleted. *)
Definition html_answers : list answer :=
  [FileThreadRuns; ReplyRuns; PageHasMimeType "text/html";
   PageRedirected moved_page;
   PageSendsJavaScript (text_of "<img src='https://page/cat'>");
   Distilled article; FileThreadRuns; ReplyRuns].

Definition played (l : list answer) : URLDownloader :=
  default start (play l waiting).

Lemma asked_again_reachable : reachable asked_again.
Proof.
  eapply (reachable_serve (Download page) asked);
    [| done | apply okb_run; evaluate].
  eapply (reachable_serve (Download page) start);
    [| done | apply okb_run; evaluate].
  apply (reachable_new (["profile"%string] : @FilePath files) disk).
Qed.

Lemma waiting_reachable : reachable waiting.
Proof.
  eapply (reachable_serve (Remove page)); [| done | apply okb_run; evaluate].
  apply asked_again_reachable.
Qed.

Definition deletion : list answer := [FileThreadRuns; ReplyRuns].

Definition pdf_answers : list answer :=
  [FileThreadRuns; ReplyRuns; PageHasMimeType "application/pdf";
   PageRedirected moved_page;
   Distilled {| article_title := ""; pages := [] |};
   Fetched {| headers := Some "application/pdf"%string; is_success := true;
              response_path := ["tmp"%string] |};
   FileThreadRuns; ReplyRuns; FileThreadRuns; ReplyRuns].

Definition is_played (l : list answer) : bool :=
  match play l waiting with Some _ => true | None => false end.

Lemma is_played_run l : is_played l = true -> play l waiting = Some (played l).
Proof. unfold is_played, played. by destruct (play l waiting). Qed.

Example waiting_tasks :
  handling waiting = [(DOWNLOAD, page)] /\ tasks_ waiting = [(DELETE, page)].
Proof. split; decide_closed. Qed.

Example pdf_reports :
  completions (played pdf_answers)
  = [DownloadEnd moved_page moved_page DOWNLOAD_SUCCESS
       ([directory_id page; "file.pdf"%string] : @FilePath files) 8 "";
     DeleteEnd page true].
Proof. decide_closed. Qed.

Definition saved_page : text :=
  text_of "<html>https://page/<script> distiller_on_ios = true; <img src='tac/egap'></script>"
  ++ kDisableImageContextMenuScript.

Example html_reports :
  completions (played html_answers)
  = [DownloadEnd page moved_page DOWNLOAD_SUCCESS
       ([directory_id page; "page.html"%string] : @FilePath files)
       (Z.of_nat (length saved_page) + 4) "Cats"].
Proof. decide_closed. Qed.

(** The URL reported for a PDF that redirected is not the one asked for. *)
Lemma redirected_pdf_reports_other_url :
  exists d, reachable d /\ is_played pdf_answers = true
    /\ handling waiting = [(DOWNLOAD, page)]
    /\ completions (played pdf_answers)
       = [DownloadEnd moved_page moved_page DOWNLOAD_SUCCESS
            ([directory_id page; "file.pdf"%string] : @FilePath files) 8 "";
          DeleteEnd page true]
    /\ moved_page <> page.
Proof.
  exists waiting. split_and!; [apply waiting_reachable | evaluate | decide_closed..].
Qed.

Lemma article_searchable : Forall searchable (article_images article).
Proof. apply Forall_singleton. right. by intros H. Qed.

Lemma downloader_one_at_a_time_witness :
  reachable waiting /\ (working_ waiting = true -> exists t, handling waiting = [t]).
Proof.
  split; [apply waiting_reachable |].
  apply (downloader_one_at_a_time files_have_size waiting waiting_reachable).
Defined.

Lemma downloader_never_faults_witness :
  reachable waiting /\ is_ok (serve (Remove page) waiting).
Proof.
  split; [apply waiting_reachable |].
  apply (downloader_never_faults files_have_size waiting waiting_reachable).
  exact I.
Defined.

Lemma html_run : run 5 waiting (played html_answers).
Proof.
  apply (play_run html_answers waiting), is_played_run. evaluate.
Qed.

Lemma downloads_finish_witness :
  run 5 waiting (played html_answers)
  /\ (working_ (played html_answers) = true ->
      exists a m, answers (played html_answers) a m /\ page_event a = false).
Proof.
  split; [apply html_run |].
  apply (downloads_finish files_have_size 5 waiting _ waiting_reachable html_run).
Defined.

Lemma requests_edit_queue_witness :
  reachable waiting
  /\ exists d', serve (Remove page) waiting = Ok d'
     /\ handling d' ++ tasks_ d' = handling waiting ++ edited (Remove page) (tasks_ waiting)
     /\ completions d' = completions waiting.
Proof.
  split; [apply waiting_reachable |].
  apply (requests_edit_queue files_have_size waiting (Remove page) waiting_reachable).
  exact I.
Defined.

Lemma waiting_no_fetch : no_fetch waiting.
Proof.
  unfold no_fetch. assert (fetcher_ waiting = None) as -> by decide_closed.
  discriminate.
Qed.

Lemma CancelTask_blocks_queue_witness :
  working_ waiting = true
  /\ exists d', serve_all [Download moved_page] (CancelTask waiting) = Ok d'
     /\ (forall a m, ~ answers d' a m)
     /\ tasks_ d' = foldl (fun tasks r => edited r tasks) (tasks_ waiting)
                      [Download moved_page]
     /\ completions d' = completions waiting.
Proof.
  split; [evaluate |].
  apply (CancelTask_blocks_queue waiting); [evaluate | apply waiting_no_fetch].
Defined.

Lemma images_are_localized_witness :
  Forall searchable (article_images article)
  /\ exists d' html', SaveAndReplaceImagesInHTML page picture (article_images article)
       waiting = Ok (d', html')
    /\ ((html' = [] /\ write_failed (article_images article))
        \/ exists t found,
             localized (distilled_url_ waiting) (article_images article) picture t found
             /\ html' = if found then t ++ kDisableImageContextMenuScript else t).
Proof.
  split; [apply article_searchable |].
  apply (images_are_localized page picture (article_images article) waiting).
  apply article_searchable.
Defined.

Definition no_image : ImageInfo := {| image_url := GURL_empty; image_data := text_of "meow" |}.

Lemma empty_image_url_never_ends_witness :
  reference no_image = []
  /\ SaveAndReplaceImagesInHTML page picture [no_image] waiting = Fault.
Proof.
  split; [reflexivity |].
  apply (empty_image_url_never_ends page picture no_image waiting); evaluate.
Defined.
End DownloaderSample.
