(* ===== verification/OfflineUrlUtils.v ===== *)
(** * Offline URLs

    [chrome/browser/reading_list/offline_url_utils.cc]: the
    chrome://offline/ URL under which the offline version of a page of the
    reading list is displayed. *)
From S2P Require Import Prelude Text External OfflineExternal.

Definition kChromeUIScheme : string := "chrome".
Definition kChromeUIOfflineURL : string := "chrome://offline/".
Definition kChromeUIOfflineHost : string := "offline".
Definition kEntryURLQueryParam : string := "entryURL".
Definition kVirtualURLQueryParam : string := "virtualURL".

Section offline_urls.
Context `{GurlApi, FileApi} `{!UrlTextApi} `{!UrlPartsApi} `{!ReadingListModelApi}.

Definition OfflineURLForPath (distilled_path : FilePath)
    (entry_url virtual_url : GURL) : chk GURL :=
  _ ← dcheck (negb (bool_decide (distilled_path = FilePath_empty)));
  _ ← dcheck (is_valid entry_url);
  _ ← dcheck (is_valid virtual_url);
  let page_url := GURL_of_text (text_of kChromeUIOfflineURL) in
  let page_url := ReplacePath (path_value distilled_path) page_url in
  let page_url := AppendQueryParameter page_url kEntryURLQueryParam (spec entry_url) in
  let page_url :=
    AppendQueryParameter page_url kVirtualURLQueryParam (spec virtual_url) in
  mret page_url.

(** The body of the two functions below. *)
Definition url_for_key (offline_url : GURL) (key : string) : GURL :=
  match GetValueForKeyInQuery offline_url key with
  | Some url_string =>
      let url := GURL_of_text url_string in
      if is_valid url then url else GURL_empty
  | None => GURL_empty
  end.

Definition EntryURLForOfflineURL (offline_url : GURL) : GURL :=
  url_for_key offline_url kEntryURLQueryParam.

Definition VirtualURLForOfflineURL (offline_url : GURL) : GURL :=
  url_for_key offline_url kVirtualURLQueryParam.

(** The second component is [*resources_root_url], [None] when not set. *)
Definition FileURLForDistilledURL (distilled_url : GURL) (offline_path : FilePath)
    (wants_root : bool) : chk (GURL * option GURL) :=
  if negb (is_valid distilled_url) then mret (GURL_empty, None)
  else
    _ ← dcheck (SchemeIs distilled_url kChromeUIScheme);
    let file_url :=
      GURL_of_text (text_of "file://" ++ path_value offline_path ++ path distilled_url) in
    mret (file_url, if wants_root then Some (ResolveDirectory file_url) else None).

Definition IsOfflineURL (url : GURL) : bool :=
  SchemeIs url kChromeUIScheme && String.eqb (host url) kChromeUIOfflineHost.

(** [model] is [None] for a null pointer. *)
Definition IsOfflineURLValid (url : GURL) (model : option ReadingListModel) : chk bool :=
  if negb (IsOfflineURL url) then mret false
  else
    let entry_url := EntryURLForOfflineURL url in
    match model with
    | Some model =>
        if negb (is_valid entry_url) || negb (loaded model) then mret false
        else
          match GetEntryByURL model entry_url with
          | Some entry =>
              if bool_decide (DistilledState entry <> PROCESSED) then mret false
              else
                offline_url ← OfflineURLForPath (DistilledPath entry)
                                (EntryURL entry) (DistilledURL entry);
                mret (same_url url offline_url)
          | None => mret false
          end
    | None => mret false
    end.

(** The URL chrome://offline/ parses as such. *)
Definition offline_root_parses : Prop :=
  let root := GURL_of_text (text_of kChromeUIOfflineURL) in
  SchemeIs root kChromeUIScheme = true /\ host root = kChromeUIOfflineHost
  /\ forall key, GetValueForKeyInQuery root key = None.

(** The text of a valid URL parses to it. *)
Definition parses_back (url : GURL) : Prop :=
  is_valid url = true /\ GURL_of_text (spec url) = url.

(** An entry whose page is available has a path and valid URLs. *)
Definition processed_entries_complete model : Prop :=
  forall url entry, GetEntryByURL model url = Some entry ->
    DistilledState entry = PROCESSED ->
    DistilledPath entry <> FilePath_empty
    /\ parses_back (EntryURL entry) /\ parses_back (DistilledURL entry).

Lemma url_for_key_parses offline_url key url :
  GetValueForKeyInQuery offline_url key = Some (spec url) -> parses_back url ->
  url_for_key offline_url key = url.
Proof. unfold url_for_key. intros -> [Hv ->]. by rewrite Hv. Qed.

Lemma OfflineURLForPath_parts (Hlaws : query_laws) (Hroot : offline_root_parses)
    path entry_url virtual_url :
  path <> FilePath_empty -> parses_back entry_url -> parses_back virtual_url ->
  exists url, OfflineURLForPath path entry_url virtual_url = Ok url
    /\ IsOfflineURL url = true
    /\ EntryURLForOfflineURL url = entry_url
    /\ VirtualURLForOfflineURL url = virtual_url.
Proof.
  intros Hp He Hv. unfold OfflineURLForPath.
  rewrite bool_decide_false, (proj1 He), (proj1 Hv) by done.
  cbn [negb dcheck mbind chk_bind].
  destruct Hroot as (Hscheme & Hhost & Hquery).
  eexists. split; [done |]. split_and!.
  - unfold IsOfflineURL. rewrite !append_scheme, !append_host, replace_scheme,
      replace_host, Hscheme, Hhost by done. done.
  - apply url_for_key_parses; [| done].
    rewrite read_other, read_appended; [done.. | by rewrite replace_query, Hquery | done | done].
  - apply url_for_key_parses; [| done].
    rewrite read_appended; [done.. |].
    by rewrite read_other, replace_query, Hquery.
Qed.

(** An offline URL carries what it was made of: for a path and two valid
    URLs, OfflineURLForPath passes its checks and gives a URL that is
    recognized as an offline URL and from which the entry URL and the virtual
    URL are read back. *)
Lemma offline_url_roundtrip (Hlaws : query_laws) (Hroot : offline_root_parses)
    path entry_url virtual_url
    (Hp : path <> FilePath_empty) (He : parses_back entry_url)
    (Hv : parses_back virtual_url) :
  exists url, OfflineURLForPath path entry_url virtual_url = Ok url
    /\ IsOfflineURL url = true
    /\ EntryURLForOfflineURL url = entry_url
    /\ VirtualURLForOfflineURL url = virtual_url.
Proof. by apply OfflineURLForPath_parts. Qed.

(** IsOfflineURLValid accepts exactly the URLs that OfflineURLForPath
    makes for the entries of a loaded model whose page is available; its
    checks pass for every URL. *)
Lemma IsOfflineURLValid_spec (Hlaws : query_laws) (Hroot : offline_root_parses)
    model url (Hurls : entries_have_their_url)
    (Hmodel : processed_entries_complete model) :
  exists valid, IsOfflineURLValid url (Some model) = Ok valid
    /\ (valid = true <->
        loaded model = true /\
        exists entry_url entry, GetEntryByURL model entry_url = Some entry
          /\ DistilledState entry = PROCESSED
          /\ OfflineURLForPath (DistilledPath entry) (EntryURL entry)
               (DistilledURL entry) = Ok url).
Proof.
  assert (forall e u, GetEntryByURL model u = Some e -> DistilledState e = PROCESSED ->
    exists o, OfflineURLForPath (DistilledPath e) (EntryURL e) (DistilledURL e) = Ok o
      /\ IsOfflineURL o = true /\ EntryURLForOfflineURL o = u /\ is_valid u = true)
    as Hentry.
  { intros e u Hg Hs. destruct (Hmodel u e Hg Hs) as (Hp & He & Hd).
    destruct (OfflineURLForPath_parts Hlaws Hroot _ _ _ Hp He Hd)
      as (o & Ho & Hio & Heo & _).
    rewrite <- (Hurls model u e Hg). exists o. split_and!; [done.. | apply He]. }
  unfold IsOfflineURLValid.
  destruct (IsOfflineURL url) eqn:Hoff; simpl.
  2:{ exists false. split; [done |]. split; [done |].
      intros (_ & u & e & Hg & Hs & Ho).
      destruct (Hentry e u Hg Hs) as (o & Ho' & Hio & _). congruence. }
  destruct (negb (is_valid (EntryURLForOfflineURL url)) || negb (loaded model)) eqn:Hgate.
  { exists false. split; [done |]. split; [done |].
    intros (Hl & u & e & Hg & Hs & Ho).
    destruct (Hentry e u Hg Hs) as (o & Ho' & _ & Hu & Hvu).
    rewrite Ho in Ho'. injection Ho' as <-. rewrite Hu, Hvu, Hl in Hgate. done. }
  apply orb_false_iff in Hgate as [_ Hl]. apply negb_false_iff in Hl.
  destruct (GetEntryByURL model (EntryURLForOfflineURL url)) as [e |] eqn:Hg.
  2:{ exists false. split; [done |]. split; [done |].
      intros (_ & u & e & Hg' & Hs & Ho).
      destruct (Hentry e u Hg' Hs) as (o & Ho' & _ & Hu & _).
      rewrite Ho in Ho'. injection Ho' as <-. congruence. }
  case_bool_decide as Hs.
  { exists false. split; [done |]. split; [done |].
    intros (_ & u & e' & Hg' & Hs' & Ho).
    destruct (Hentry e' u Hg' Hs') as (o & Ho' & _ & Hu & _).
    rewrite Ho in Ho'. injection Ho' as <-. congruence. }
  destruct (Hentry e _ Hg Hs) as (o & Ho & _ & _ & _). rewrite Ho. simpl.
  eexists. split; [done |]. rewrite same_url_spec. split.
  - intros ->. split; [done |]. by exists (EntryURLForOfflineURL o), e.
  - intros (_ & u & e' & Hg' & Hs' & Ho').
    destruct (Hentry e' u Hg' Hs') as (o' & Ho'' & _ & Hu & _).
    rewrite Ho' in Ho''. injection Ho'' as <-. rewrite Hu in Hg. congruence.
Qed.
End offline_urls.

Module OfflineUrlSample.
Import ConcreteOffline.

Definition page : GURL := url_of "https://page/a".
Definition moved_page : GURL := url_of "https://moved/b".

Definition page_entry : ReadingListEntry :=
  mk_entry page false PROCESSED ["md5"%string; "page.html"%string] moved_page 0.

Definition model : ReadingListModel := mk_reading_list true [page_entry].

Example page_spec : spec page = text_of "https://page/a".
Proof. evaluate. Qed.

Lemma root_parses : offline_root_parses.
Proof. by split_and!. Qed.

Lemma page_parses : parses_back page.
Proof. split; decide_closed. Qed.

Lemma moved_page_parses : parses_back moved_page.
Proof. split; decide_closed. Qed.

Definition sample_path : FilePath := (["md5"%string; "page.html"%string] : list string).

Lemma offline_url_roundtrip_witness :
  parses_back page /\
  exists url, OfflineURLForPath sample_path page moved_page = Ok url
    /\ IsOfflineURL url = true
    /\ EntryURLForOfflineURL url = page
    /\ VirtualURLForOfflineURL url = moved_page.
Proof.
  split; [apply page_parses |].
  apply (offline_url_roundtrip parts_laws root_parses);
    [discriminate | apply page_parses | apply moved_page_parses].
Defined.

Lemma model_complete : processed_entries_complete model.
Proof.
  intros url e He _. cbn in He. unfold find_entry in He. simpl in He.
  case_bool_decide; simplify_eq. split_and!; [discriminate | |].
  - apply page_parses.
  - apply moved_page_parses.
Qed.

Definition page_offline_url : GURL :=
  match OfflineURLForPath sample_path page moved_page with
  | Ok url => url
  | Fault => GURL_empty
  end.

Lemma IsOfflineURLValid_spec_witness :
  processed_entries_complete model
  /\ IsOfflineURLValid page_offline_url (Some model) = Ok true.
Proof.
  split; [apply model_complete |].
  destruct (IsOfflineURLValid_spec parts_laws root_parses model page_offline_url
    reading_urls model_complete) as (valid & Hrun & Hvalid).
  rewrite Hrun. f_equal. apply Hvalid. split; [reflexivity |].
  exists page, page_entry. split_and!; [evaluate.. | reflexivity].
Defined.
End OfflineUrlSample.
