(* ===== verification/ReadingListDownloadService.v ===== *)
(** * ReadingListDownloadService

    [chrome/browser/reading_list/reading_list_download_service.cc]: keeps an
    offline version of every unread entry of the reading list.  It observes
    the model and the network, decides when an entry is downloaded, drives a
    [URLDownloader] and records its results in the model.

    Closures posted to threads are fields of the state, with what is bound
    to them; the reading list model is a parameter. *)
From S2P Require Import Prelude Text External OfflineExternal URLDownloader.

(** [net::NetworkChangeNotifier::ConnectionType], as far as the code tells
    the types apart. *)
Inductive ConnectionType := CONNECTION_NONE | CONNECTION_WIFI | CONNECTION_OTHER (n : Z).

#[export] Instance ConnectionType_eq_dec : EqDecision ConnectionType.
Proof. solve_decision. Defined.

Inductive UMADownloadStatus := SUCCESS | FAILURE | RETRY.

Inductive histogram :=
| Download_Failures (count : Z)
| Download_Status (status : UMADownloadStatus).

Definition kNumberOfFailsBeforeWifiOnly : Z := 5.
Definition kNumberOfFailsBeforeStop : Z := 7.

Section service.
Context `{GurlApi, FileApi} `{!OfflinePathApi} `{!UrlTextApi} `{!ReadingListModelApi}.

Record ReadingListDownloadService := {
  reading_list_model_ : ReadingListModel;
  chrome_profile_path_ : FilePath;
  url_downloader_ : URLDownloader;
  url_to_download_cellular_ : list GURL;
  url_to_download_wifi_ : list GURL;
  had_connection_ : bool;
  connection : ConnectionType;
  delayed_downloads : list (GURL * Z);
  posted_clean_ups : list (list string * list GURL);
  clean_up_replies : list (list GURL);
  histograms : list histogram;
}.

#[export] Instance service_fields : Fields ReadingListDownloadService := fun s =>
  {| reading_list_model_ := reading_list_model_ s;
     chrome_profile_path_ := chrome_profile_path_ s;
     url_downloader_ := url_downloader_ s;
     url_to_download_cellular_ := url_to_download_cellular_ s;
     url_to_download_wifi_ := url_to_download_wifi_ s;
     had_connection_ := had_connection_ s; connection := connection s;
     delayed_downloads := delayed_downloads s;
     posted_clean_ups := posted_clean_ups s;
     clean_up_replies := clean_up_replies s; histograms := histograms s |}.

(** [net::NetworkChangeNotifier::IsOffline()] *)
Definition IsOffline (s : ReadingListDownloadService) : bool :=
  bool_decide (connection s = CONNECTION_NONE).

Definition ReadingListDownloadService_new (model : ReadingListModel)
    (chrome_profile_path : FilePath) (fs : FileSystem) (type : ConnectionType)
    : ReadingListDownloadService :=
  {| reading_list_model_ := model; chrome_profile_path_ := chrome_profile_path;
     url_downloader_ := URLDownloader_new chrome_profile_path fs;
     url_to_download_cellular_ := []; url_to_download_wifi_ := [];
     had_connection_ := negb (bool_decide (type = CONNECTION_NONE));
     connection := type; delayed_downloads := []; posted_clean_ups := [];
     clean_up_replies := []; histograms := [] |}.

Definition OfflineRoot (s : ReadingListDownloadService) : FilePath :=
  OfflineRootDirectoryPath (chrome_profile_path_ s).

Definition record (h : histogram) (s : ReadingListDownloadService) :=
  s <| histograms := histograms s ++ [h] |>.

(** ** Scheduling *)

(** The early return that [ScheduleDownloadEntry] and [DownloadEntry] share. *)
Definition not_to_download (entry : ReadingListEntry) : bool :=
  bool_decide (DistilledState entry = DISTILLATION_ERROR)
  || bool_decide (DistilledState entry = PROCESSED) || IsRead entry.

Definition ScheduleDownloadEntry (url : GURL) (s : ReadingListDownloadService)
    : chk ReadingListDownloadService :=
  _ ← dcheck (loaded (reading_list_model_ s));
  match GetEntryByURL (reading_list_model_ s) url with
  | None => mret s
  | Some entry =>
      if not_to_download entry then mret s
      else mret (s <| delayed_downloads :=
                   delayed_downloads s ++ [(url, TimeUntilNextTry entry)] |>)
  end.

Fixpoint schedule_all (urls : list GURL) (s : ReadingListDownloadService)
    : chk ReadingListDownloadService :=
  match urls with
  | [] => mret s
  | url :: urls => s ← ScheduleDownloadEntry url s; schedule_all urls s
  end.

(** The two calls that start a download. *)
Definition start_download (entry : ReadingListEntry) (s : ReadingListDownloadService)
    : chk ReadingListDownloadService :=
  let s := s <| reading_list_model_ :=
    SetEntryDistilledState (EntryURL entry) PROCESSING (reading_list_model_ s) |> in
  d ← DownloadOfflineURL (EntryURL entry) (url_downloader_ s);
  mret (s <| url_downloader_ := d |>).

Definition push_cellular (url : GURL) (s : ReadingListDownloadService) :=
  s <| url_to_download_cellular_ := url_to_download_cellular_ s ++ [url] |>.
Definition push_wifi (url : GURL) (s : ReadingListDownloadService) :=
  s <| url_to_download_wifi_ := url_to_download_wifi_ s ++ [url] |>.

Definition DownloadEntry (url : GURL) (s : ReadingListDownloadService)
    : chk ReadingListDownloadService :=
  _ ← dcheck (loaded (reading_list_model_ s));
  match GetEntryByURL (reading_list_model_ s) url with
  | None => mret s
  | Some entry =>
      if not_to_download entry then mret s
      else if IsOffline s then
        let s := if FailedDownloadCounter entry <? kNumberOfFailsBeforeWifiOnly
                 then push_cellular (EntryURL entry) s else s in
        mret (if FailedDownloadCounter entry <? kNumberOfFailsBeforeStop
              then push_wifi (EntryURL entry) s else s)
      else if FailedDownloadCounter entry <? kNumberOfFailsBeforeWifiOnly then
        start_download entry s
      else if FailedDownloadCounter entry <? kNumberOfFailsBeforeStop then
        if bool_decide (connection s = CONNECTION_WIFI) then start_download entry s
        else mret (push_wifi (EntryURL entry) s)
      else mret s
  end.

Definition RemoveDownloadedEntry (url : GURL) (s : ReadingListDownloadService)
    : chk ReadingListDownloadService :=
  _ ← dcheck (loaded (reading_list_model_ s));
  d ← RemoveOfflineURL url (url_downloader_ s);
  mret (s <| url_downloader_ := d |>).

Definition ProcessNewEntry (url : GURL) (s : ReadingListDownloadService)
    : chk ReadingListDownloadService :=
  match GetEntryByURL (reading_list_model_ s) url with
  | None =>
      mret (s <| url_downloader_ := CancelDownloadOfflineURL url (url_downloader_ s) |>)
  | Some entry =>
      if IsRead entry then
        mret (s <| url_downloader_ := CancelDownloadOfflineURL url (url_downloader_ s) |>)
      else ScheduleDownloadEntry url s
  end.

(** ** Synchronization with the model *)

(** [set.insert(url)] of a [std::set<GURL>], kept sorted. *)
Fixpoint set_insert (url : GURL) (set : list GURL) : list GURL :=
  match set with
  | [] => [url]
  | u :: set' =>
      if GURL_less url u then url :: set
      else if GURL_less u url then u :: set_insert url set'
      else set
  end.

Definition sync_url (model : ReadingListModel) (url : GURL)
    (sets : list string * list GURL) : chk (list string * list GURL) :=
  let '(processed_directories, unprocessed_entries) := sets in
  entry ← deref (GetEntryByURL model url);
  mret match DistilledState entry with
       | PROCESSED =>
           (processed_directories ++ [OfflineURLDirectoryID url], unprocessed_entries)
       | WAITING | PROCESSING | WILL_RETRY =>
           (processed_directories, set_insert url unprocessed_entries)
       | DISTILLATION_ERROR => (processed_directories, unprocessed_entries)
       end.

Fixpoint sync_urls (model : ReadingListModel) (urls : list GURL)
    (sets : list string * list GURL) : chk (list string * list GURL) :=
  match urls with
  | [] => mret sets
  | url :: urls => sets ← sync_url model url sets; sync_urls model urls sets
  end.

Definition SyncWithModel (s : ReadingListDownloadService)
    : chk ReadingListDownloadService :=
  _ ← dcheck (loaded (reading_list_model_ s));
  sets ← sync_urls (reading_list_model_ s) (Keys (reading_list_model_ s)) ([], []);
  mret (s <| posted_clean_ups := posted_clean_ups s ++ [sets] |>).

(** The loop over the enumerated directories. *)
Fixpoint clean_up (directories : list FilePath) (processed_directories : list string)
    (fs : FileSystem) : FileSystem :=
  match directories with
  | [] => fs
  | sub_directory :: directories =>
      if bool_decide (sub_directory = FilePath_empty) then fs
      else
        clean_up directories processed_directories
          (if bool_decide (BaseName sub_directory ∈ processed_directories) then fs
           else (DeleteFile sub_directory fs).1)
  end.

Definition disk (s : ReadingListDownloadService) : FileSystem := files (url_downloader_ s).

Definition CleanUpFiles (processed_directories : list string)
    (s : ReadingListDownloadService) : ReadingListDownloadService :=
  s <| url_downloader_ := set_files
         (clean_up (Subdirectories (OfflineRoot s) (disk s)) processed_directories (disk s))
         (url_downloader_ s) |>.

Definition DownloadUnprocessedEntries (unprocessed_entries : list GURL)
    (s : ReadingListDownloadService) : chk ReadingListDownloadService :=
  schedule_all unprocessed_entries s.

(** ** Results of downloads *)
Definition OnDownloadEnd (now : Z) (url distilled_url : GURL) (success : SuccessState)
    (distilled_path : FilePath) (size : Z) (title : string)
    (s : ReadingListDownloadService) : chk ReadingListDownloadService :=
  _ ← dcheck (loaded (reading_list_model_ s));
  let real_success_value :=
    if bool_decide (distilled_path = FilePath_empty) then ERROR else success in
  match real_success_value with
  | DOWNLOAD_SUCCESS | DOWNLOAD_EXISTS =>
      let model := SetEntryDistilledInfo url distilled_path distilled_url size now
                     (reading_list_model_ s) in
      let trimmed_title := CollapseWhitespaceASCII title in
      let model := if negb (String.eqb trimmed_title "")
                   then SetEntryTitle url trimmed_title model else model in
      let s := s <| reading_list_model_ := model |> in
      let s := match GetEntryByURL model url with
               | Some entry => record (Download_Failures (FailedDownloadCounter entry)) s
               | None => s
               end in
      mret (record (Download_Status SUCCESS) s)
  | ERROR =>
      match GetEntryByURL (reading_list_model_ s) url with
      | Some entry =>
          if FailedDownloadCounter entry + 1 <? kNumberOfFailsBeforeStop then
            s ← ScheduleDownloadEntry url
                  (s <| reading_list_model_ :=
                     SetEntryDistilledState url WILL_RETRY (reading_list_model_ s) |>);
            mret (record (Download_Status RETRY) s)
          else
            let s := record (Download_Status FAILURE) s in
            mret (s <| reading_list_model_ :=
                     SetEntryDistilledState url DISTILLATION_ERROR
                       (reading_list_model_ s) |>)
      | None =>
          let s := record (Download_Status FAILURE) s in
          mret (s <| reading_list_model_ :=
                   SetEntryDistilledState url DISTILLATION_ERROR
                     (reading_list_model_ s) |>)
      end
  end.

Definition OnDeleteEnd (url : GURL) (success : bool) (s : ReadingListDownloadService)
    : ReadingListDownloadService := s.

(** [download_completion_.Run] and [delete_completion_.Run] *)
Definition on_completion (now : Z) (c : completion) (s : ReadingListDownloadService)
    : chk ReadingListDownloadService :=
  match c with
  | DownloadEnd url distilled_url success path size title =>
      OnDownloadEnd now url distilled_url success path size title s
  | DeleteEnd url success => mret (OnDeleteEnd url success s)
  end.

(** ** Observers *)
Definition ReadingListModelLoaded := SyncWithModel.

Definition ReadingListWillRemoveEntry (url : GURL) (s : ReadingListDownloadService)
    : chk ReadingListDownloadService :=
  _ ← dcheck (bool_decide (is_Some (GetEntryByURL (reading_list_model_ s) url)));
  RemoveDownloadedEntry url s.

Definition ReadingListDidAddEntry := ProcessNewEntry.
Definition ReadingListDidMoveEntry := ProcessNewEntry.

Definition OnConnectionTypeChanged (type : ConnectionType)
    (s : ReadingListDownloadService) : chk ReadingListDownloadService :=
  match type with
  | CONNECTION_NONE => mret (s <| had_connection_ := false |>)
  | _ =>
      s ← (if negb (had_connection_ s) then
             schedule_all (url_to_download_cellular_ s) (s <| had_connection_ := true |>)
           else mret s);
      if bool_decide (type = CONNECTION_WIFI)
      then schedule_all (url_to_download_wifi_ s) s
      else mret s
  end.

(** ** Events *)
Inductive service_event :=
| ModelLoaded
| WillRemoveEntry (url : GURL)
| DidAddEntry (url : GURL)
| DidMoveEntry (url : GURL)
| ConnectionTypeChanged (type : ConnectionType)
| DelayedDownloadRuns (k : nat)
| CleanUpRuns
| CleanUpReplies.

(** What the UI thread and the FILE thread run for the service; an event that
    cannot happen changes nothing. *)
Definition handle (e : service_event) (s : ReadingListDownloadService)
    : chk ReadingListDownloadService :=
  match e with
  | ModelLoaded => ReadingListModelLoaded s
  | WillRemoveEntry url => ReadingListWillRemoveEntry url s
  | DidAddEntry url => ReadingListDidAddEntry url s
  | DidMoveEntry url => ReadingListDidMoveEntry url s
  | ConnectionTypeChanged type => OnConnectionTypeChanged type (s <| connection := type |>)
  | DelayedDownloadRuns k =>
      match delayed_downloads s !! k with
      | Some (url, _) =>
          DownloadEntry url (s <| delayed_downloads := delete k (delayed_downloads s) |>)
      | None => mret s
      end
  | CleanUpRuns =>
      match posted_clean_ups s with
      | (processed, unprocessed) :: rest =>
          mret (CleanUpFiles processed (s <| posted_clean_ups := rest |>)
                <| clean_up_replies := clean_up_replies s ++ [unprocessed] |>)
      | [] => mret s
      end
  | CleanUpReplies =>
      match clean_up_replies s with
      | unprocessed :: rest =>
          DownloadUnprocessedEntries unprocessed (s <| clean_up_replies := rest |>)
      | [] => mret s
      end
  end.

(** ** Scheduling: lemmas *)
Definition schedule_of (model : ReadingListModel) (url : GURL) : list (GURL * Z) :=
  match GetEntryByURL model url with
  | Some entry =>
      if not_to_download entry then [] else [(url, TimeUntilNextTry entry)]
  | None => []
  end.

Lemma ScheduleDownloadEntry_run url s :
  loaded (reading_list_model_ s) = true ->
  ScheduleDownloadEntry url s
  = Ok (s <| delayed_downloads :=
         delayed_downloads s ++ schedule_of (reading_list_model_ s) url |>).
Proof.
  intros Hl. unfold ScheduleDownloadEntry, schedule_of. rewrite Hl. simpl.
  destruct (GetEntryByURL _ url) as [entry |]; [destruct (not_to_download entry) |];
    rewrite ?app_nil_r; by destruct s.
Qed.

Lemma schedule_all_run urls : forall s,
  loaded (reading_list_model_ s) = true ->
  schedule_all urls s
  = Ok (s <| delayed_downloads := delayed_downloads s ++
         concat (schedule_of (reading_list_model_ s) <$> urls) |>).
Proof.
  induction urls as [| url urls IH]; intros s Hl; simpl.
  - rewrite app_nil_r. by destruct s.
  - rewrite ScheduleDownloadEntry_run by done. simpl. rewrite IH by done.
    simpl. by rewrite app_assoc.
Qed.

Lemma scheduled_in url urls model entry :
  url ∈ urls -> GetEntryByURL model url = Some entry -> not_to_download entry = false ->
  (url, TimeUntilNextTry entry) ∈ concat (schedule_of model <$> urls).
Proof.
  intros Hin He Ha. apply list_elem_of_In, in_concat.
  exists (schedule_of model url). split.
  - apply list_elem_of_In, list_elem_of_fmap. by exists url.
  - unfold schedule_of. rewrite He, Ha. by left.
Qed.

(** ** When a download starts *)

(** The failures and the connection with which a download starts. *)
Definition may_start (failures : Z) (type : ConnectionType) : Prop :=
  type <> CONNECTION_NONE /\ (failures < 5 \/ (failures < 7 /\ type = CONNECTION_WIFI)).

(** [DownloadEntry] starts a download exactly then; otherwise the model and the
    downloader stay as they are. *)
Lemma DownloadEntry_run url s entry :
  loaded (reading_list_model_ s) = true ->
  GetEntryByURL (reading_list_model_ s) url = Some entry ->
  (may_start (FailedDownloadCounter entry) (connection s) -> not_to_download entry = false ->
   DownloadEntry url s = start_download entry s) /\
  (~ may_start (FailedDownloadCounter entry) (connection s) \/ not_to_download entry = true ->
   exists s', DownloadEntry url s = Ok s' /\ url_downloader_ s' = url_downloader_ s /\
     reading_list_model_ s' = reading_list_model_ s).
Proof.
  intros Hl He. unfold DownloadEntry, IsOffline, may_start, kNumberOfFailsBeforeWifiOnly,
    kNumberOfFailsBeforeStop. rewrite Hl, He. cbn [dcheck mbind chk_bind].
  destruct (not_to_download entry); [split; [done | by eexists] |].
  case_bool_decide as Hoff.
  { split; [intros [? _]; done | intros _]. eexists. split; [done |].
    by destruct (_ <? 5), (_ <? 7). }
  destruct (Z.ltb_spec (FailedDownloadCounter entry) 5).
  { split; [done | intros [Hno | ?]; [destruct Hno | done]]. split; [done | by left]. }
  destruct (Z.ltb_spec (FailedDownloadCounter entry) 7).
  - case_bool_decide as Hw; (split; [| intros [Hno | ?]; [| done]]); try done.
    + destruct Hno. split; [done | by right].
    + intros [_ [? | [_ ?]]]; [lia | done].
    + by eexists.
  - split; [intros [_ [? | [? _]]]; lia | by eexists].
Qed.

(** A download was started when the downloader was given something to do. *)
Lemma DownloadEntry_started url s s' entry :
  loaded (reading_list_model_ s) = true ->
  GetEntryByURL (reading_list_model_ s) url = Some entry ->
  DownloadEntry url s = Ok s' -> url_downloader_ s' <> url_downloader_ s ->
  start_download entry s = Ok s' /\ FailedDownloadCounter entry < 7.
Proof.
  intros Hl He Hrun Hd. destruct (DownloadEntry_run url s entry Hl He) as [Hyes Hno].
  assert (Hcase : may_start (FailedDownloadCounter entry) (connection s) /\
                  not_to_download entry = false).
  { assert (Hd1 : Decision (may_start (FailedDownloadCounter entry) (connection s)))
      by (unfold may_start; apply _).
    destruct (decide (may_start (FailedDownloadCounter entry) (connection s))),
      (not_to_download entry); [exfalso | done | exfalso | exfalso];
      (destruct Hno as (s1 & Hrun1 & Hsame & _); [tauto | congruence]). }
  destruct Hcase as [Hmay Hto]. rewrite Hyes in Hrun by done. split; [done |].
  destruct Hmay as [_ [? | [? _]]]; lia.
Qed.

(** ** A download that fails *)
Lemma OnDownloadEnd_failed (Hlaws : state_laws) now url distilled_url success path size
    title s entry :
  loaded (reading_list_model_ s) = true ->
  GetEntryByURL (reading_list_model_ s) url = Some entry ->
  success = ERROR \/ path = FilePath_empty ->
  exists s' entry',
    OnDownloadEnd now url distilled_url success path size title s = Ok s'
    /\ url_downloader_ s' = url_downloader_ s
    /\ connection s' = connection s
    /\ loaded (reading_list_model_ s') = true
    /\ GetEntryByURL (reading_list_model_ s') url = Some entry'
    /\ IsRead entry' = IsRead entry
    /\ DistilledState entry'
       = (if FailedDownloadCounter entry + 1 <? kNumberOfFailsBeforeStop
          then WILL_RETRY else DISTILLATION_ERROR)
    /\ FailedDownloadCounter entry'
       = (if failed_state (DistilledState entry) then FailedDownloadCounter entry
          else FailedDownloadCounter entry + 1)
    /\ (IsRead entry = false -> DistilledState entry' = WILL_RETRY ->
        exists delay, (url, delay) ∈ delayed_downloads s').
Proof.
  intros Hl He Hfail. unfold OnDownloadEnd. rewrite Hl.
  cbn [dcheck mbind chk_bind].
  replace (if bool_decide (path = FilePath_empty) then ERROR else success) with ERROR
    by (case_bool_decide; destruct Hfail; congruence).
  rewrite He. destruct (Z.ltb_spec (FailedDownloadCounter entry + 1)
    kNumberOfFailsBeforeStop).
  - destruct (set_state_entry Hlaws _ url WILL_RETRY entry He)
      as (entry' & He' & Hs' & Hr' & Hc').
    rewrite ScheduleDownloadEntry_run by (simpl; by rewrite (set_state_loaded Hlaws)).
    cbn [mbind chk_bind mret chk_ret].
    eexists _, entry'. split; [done |]. simpl.
    rewrite (set_state_loaded Hlaws).
    split_and!; try done.
    + rewrite Hc'. by destruct (failed_state (DistilledState entry)).
    + intros Hr _. exists (TimeUntilNextTry entry'). apply elem_of_app. right.
      unfold schedule_of. rewrite He'. unfold not_to_download. rewrite Hs', Hr', Hr.
      simpl. by apply list_elem_of_singleton.
  - destruct (set_state_entry Hlaws _ url DISTILLATION_ERROR entry He)
      as (entry' & He' & Hs' & Hr' & Hc').
    eexists _, entry'. split; [done |]. simpl.
    rewrite (set_state_loaded Hlaws).
    split_and!; try done.
    + rewrite Hc'. by destruct (failed_state (DistilledState entry)).
    + intros _ Hw. congruence.
Qed.

(** [n] downloads of [url] are started and fail, one after the other; the
    downloader works on in between. *)
Inductive failed_attempts (url : GURL) :
    nat -> ReadingListDownloadService -> ReadingListDownloadService -> Prop :=
| no_attempt s : failed_attempts url 0 s s
| failed_attempt n s s1 s2 s3 d now distilled_url path size title type :
    DownloadEntry url s = Ok s1 -> url_downloader_ s1 <> url_downloader_ s ->
    OnDownloadEnd now url distilled_url ERROR path size title
      (s1 <| url_downloader_ := d |> <| connection := type |>) = Ok s2 ->
    failed_attempts url n s2 s3 -> failed_attempts url (S n) s s3.

(** ** Synchronization: lemmas *)
Definition keys_have_entries (model : ReadingListModel) : Prop :=
  forall url, url ∈ Keys model -> is_Some (GetEntryByURL model url).

Definition url_order_total : Prop :=
  forall u v, GURL_less u v = false -> GURL_less v u = false -> u = v.

Definition awaits_download (state : DistilledState_t) : bool :=
  match state with WAITING | PROCESSING | WILL_RETRY => true | _ => false end.

Lemma elem_of_set_insert (Hord : url_order_total) url set u :
  u ∈ set_insert url set <-> u = url \/ u ∈ set.
Proof.
  induction set as [| v set IH]; simpl.
  - rewrite list_elem_of_singleton. split; [by left |].
    intros [-> | []%elem_of_nil]. done.
  - destruct (GURL_less url v) eqn:Hl1; [by rewrite elem_of_cons |].
    destruct (GURL_less v url) eqn:Hl2.
    + rewrite !elem_of_cons, IH. tauto.
    + rewrite (Hord url v Hl1 Hl2), elem_of_cons. tauto.
Qed.

Lemma sync_urls_spec (Hord : url_order_total) model urls : forall processed unprocessed,
  (forall url, url ∈ urls -> is_Some (GetEntryByURL model url)) ->
  exists processed' unprocessed',
    sync_urls model urls (processed, unprocessed) = Ok (processed', unprocessed')
    /\ (forall id, id ∈ processed' <-> id ∈ processed \/
          exists url entry, url ∈ urls /\ GetEntryByURL model url = Some entry
            /\ DistilledState entry = PROCESSED /\ id = OfflineURLDirectoryID url)
    /\ (forall u, u ∈ unprocessed' <-> u ∈ unprocessed \/
          exists entry, u ∈ urls /\ GetEntryByURL model u = Some entry
            /\ awaits_download (DistilledState entry) = true).
Proof.
  induction urls as [| url urls IH]; intros processed unprocessed Hall; simpl.
  - exists processed, unprocessed. split; [done |]. split; intros x; split; auto.
    + intros [? | (? & ? & []%elem_of_nil & _)]; done.
    + intros [? | (? & []%elem_of_nil & _)]; done.
  - destruct (Hall url) as (entry & He); [by left |].
    unfold sync_url. rewrite He. cbn [deref mbind chk_bind mret chk_ret].
    destruct (match DistilledState entry with
       | PROCESSED => (processed ++ [OfflineURLDirectoryID url], unprocessed)
       | DISTILLATION_ERROR => (processed, unprocessed)
       | _ => (processed, set_insert url unprocessed) end) as [p1 u1] eqn:Hsets.
    assert ((forall id, id ∈ p1 <-> id ∈ processed \/
        (DistilledState entry = PROCESSED /\ id = OfflineURLDirectoryID url))
      /\ (forall u, u ∈ u1 <-> u ∈ unprocessed \/
        (awaits_download (DistilledState entry) = true /\ u = url))) as [Hp1 Hu1].
    { destruct (DistilledState entry); injection Hsets as <- <-; split; intros x;
        rewrite ?elem_of_app, ?list_elem_of_singleton, ?(elem_of_set_insert Hord);
        simpl; intuition congruence. }
    destruct (IH p1 u1) as (p2 & u2 & Hrun & Hp2 & Hu2).
    { intros u Hu. apply Hall. by right. }
    exists p2, u2. split; [done |]. split.
    + intros id. rewrite Hp2, Hp1. split.
      * intros [[Hid | [Hs ->]] | (u & e & Hu & Hrest)]; [by left | |].
        { right. exists url, entry. split_and!; try done. by left. }
        { right. exists u, e. split; [by right | done]. }
      * intros [Hid | (u & e & [-> | Hu]%elem_of_cons & Hg & Hs & Hid)]; [by left; left | |].
        { left. right. rewrite He in Hg. by simplify_eq. }
        { right. by exists u, e. }
    + intros u. rewrite Hu2, Hu1. split.
      * intros [[Hu | [Hs ->]] | (e & Hu & Hrest)]; [by left | |].
        { right. exists entry. split_and!; try done. by left. }
        { right. exists e. split; [by right | done]. }
      * intros [Hu | (e & [-> | Hu]%elem_of_cons & Hg & Hs)]; [by left; left | |].
        { left. right. rewrite He in Hg. by simplify_eq. }
        { right. by exists e. }
Qed.

Lemma clean_up_keeps (Hdirs : directory_laws) root fs0 processed q dirs : forall fs,
  (forall p, p ∈ dirs -> p ∈ Subdirectories root fs0) ->
  q ∈ Subdirectories root fs0 -> BaseName q ∈ processed ->
  DirectoryExists q fs = true ->
  DirectoryExists q (clean_up dirs processed fs) = true.
Proof.
  induction dirs as [| p dirs IH]; intros fs Hall Hq Hb Hex; simpl; [done |].
  case_bool_decide; [done |]. apply IH; [| done | done |].
  { intros p' Hp'. apply Hall. by right. }
  case_bool_decide as Hp; [done |].
  rewrite (delete_sibling Hdirs root fs0 p q fs); [done | | done |].
  - apply Hall. by left.
  - intros ->. done.
Qed.

Lemma clean_up_stays_gone (Hdirs : directory_laws) root fs0 processed q dirs : forall fs,
  (forall p, p ∈ dirs -> p ∈ Subdirectories root fs0) ->
  q ∈ Subdirectories root fs0 -> (forall fs, (DeleteFile q fs).2 = true) ->
  DirectoryExists q fs = false ->
  DirectoryExists q (clean_up dirs processed fs) = false.
Proof.
  induction dirs as [| p dirs IH]; intros fs Hall Hq Hok Hex; simpl; [done |].
  case_bool_decide; [done |]. apply IH; [| done | done |].
  { intros p' Hp'. apply Hall. by right. }
  case_bool_decide as Hp; [done |].
  destruct (decide (p = q)) as [-> | Hne]; [by apply (deleted_gone Hdirs) |].
  rewrite (delete_sibling Hdirs root fs0 p q fs); [done | | done | done].
  apply Hall. by left.
Qed.

Lemma clean_up_removes (Hdirs : directory_laws) root fs0 processed q dirs : forall fs,
  (forall p, p ∈ dirs -> p ∈ Subdirectories root fs0) ->
  q ∈ dirs -> BaseName q ∉ processed -> (forall fs, (DeleteFile q fs).2 = true) ->
  DirectoryExists q (clean_up dirs processed fs) = false.
Proof.
  induction dirs as [| p dirs IH]; intros fs Hall Hq Hb Hok; simpl;
    [by apply elem_of_nil in Hq |].
  assert (p <> FilePath_empty) as Hne.
  { apply (subdirectory_exists Hdirs root fs0), Hall. by left. }
  rewrite bool_decide_false by done.
  assert (forall p', p' ∈ dirs -> p' ∈ Subdirectories root fs0) as Hall'.
  { intros p' Hp'. apply Hall. by right. }
  apply elem_of_cons in Hq as [<- | Hq]; [| by apply IH].
  rewrite (bool_decide_false (BaseName q ∈ processed)) by done.
  apply (clean_up_stays_gone Hdirs root fs0); [done | apply Hall; by left | done |].
  by apply (deleted_gone Hdirs).
Qed.

Lemma start_download_state (Hlaws : state_laws) url s s1 entry :
  loaded (reading_list_model_ s) = true -> EntryURL entry = url ->
  GetEntryByURL (reading_list_model_ s) url = Some entry ->
  start_download entry s = Ok s1 ->
  loaded (reading_list_model_ s1) = true /\
  exists entry', GetEntryByURL (reading_list_model_ s1) url = Some entry'
    /\ DistilledState entry' = PROCESSING /\ IsRead entry' = IsRead entry
    /\ FailedDownloadCounter entry' = FailedDownloadCounter entry.
Proof.
  intros Hl <- He Hs. unfold start_download in Hs. run_inv Hs. simpl.
  rewrite (set_state_loaded Hlaws). split; [done |].
  destruct (set_state_entry Hlaws _ (EntryURL entry) PROCESSING entry He)
    as (entry' & ? & ? & ? & ?). by exists entry'.
Qed.

Lemma handle_clean_up s processed unprocessed :
  posted_clean_ups s = [(processed, unprocessed)] ->
  handle CleanUpRuns s
  = Ok (CleanUpFiles processed (s <| posted_clean_ups := [] |>)
        <| clean_up_replies := clean_up_replies s ++ [unprocessed] |>).
Proof. unfold handle. by intros ->. Qed.

(** ** Properties *)

(** C33. Retries are bounded: the downloads of an unread entry that start and
    fail count up its failures one by one, after each of the first ones the
    entry waits for another try, which is scheduled, and the seventh failure is
    final.  After seven failures, and from the fifth on without wifi,
    [DownloadEntry] leaves the downloader and the model alone; with less than
    five failures on any connection, and with less than seven on wifi, it gives
    the URL of an entry that waits to the downloader. *)
Theorem attempts_are_bounded (Hlaws : state_laws) (Hurls : entries_have_their_url)
    url n s s' entry
    (Hl : loaded (reading_list_model_ s) = true)
    (He : GetEntryByURL (reading_list_model_ s) url = Some entry)
    (Hr : IsRead entry = false) (Hn : failed_attempts url n s s') :
  exists entry', GetEntryByURL (reading_list_model_ s') url = Some entry'
    /\ FailedDownloadCounter entry' = FailedDownloadCounter entry + Z.of_nat n
    /\ ((0 < n)%nat -> (FailedDownloadCounter entry' < 7 /\ DistilledState entry' = WILL_RETRY
                   /\ exists delay, (url, delay) ∈ delayed_downloads s')
                 \/ (FailedDownloadCounter entry' = 7
                     /\ DistilledState entry' = DISTILLATION_ERROR))
    /\ (7 <= FailedDownloadCounter entry'
        \/ (5 <= FailedDownloadCounter entry' /\ connection s' <> CONNECTION_WIFI) ->
        exists s'', DownloadEntry url s' = Ok s'' /\ url_downloader_ s'' = url_downloader_ s'
          /\ reading_list_model_ s'' = reading_list_model_ s')
    /\ (may_start (FailedDownloadCounter entry') (connection s') ->
        not_to_download entry' = false ->
        forall d, DownloadOfflineURL url (url_downloader_ s') = Ok d ->
        exists s'', DownloadEntry url s' = Ok s'' /\ url_downloader_ s'' = d).
Proof.
  revert entry Hl He Hr.
  induction Hn as [s | n s s1 s2 s3 d now du path size title type Hs1 Hst Hs2 Hn IH];
    intros entry Hl He Hr.
  - exists entry. destruct (DownloadEntry_run url s entry Hl He) as [Hyes Hno].
    split_and!; [done | lia | lia | |].
    + intros Hcase. destruct Hno as (s' & ? & ? & ?); [left | by exists s'].
      unfold may_start. intros [_ Hm]. destruct Hcase as [? | [? ?]], Hm as [? | [? ?]]; lia || done.
    + intros Hmay Hto d Hd. rewrite Hyes by done. unfold start_download. simpl.
      rewrite (Hurls (reading_list_model_ s) url entry He), Hd. simpl. eexists. done.
  - destruct (DownloadEntry_started url s s1 entry Hl He Hs1 Hst) as [Hstart Hlt].
    destruct (start_download_state Hlaws url s s1 entry) as (Hl1 & e1 & He1 & Hs & Hr1 & Hc1);
      [done | by apply (Hurls (reading_list_model_ s)) | done | done |].
    destruct (OnDownloadEnd_failed Hlaws now url du ERROR path size title
      (s1 <| url_downloader_ := d |> <| connection := type |>) e1)
      as (s2' & e2 & Hrun & _ & _ & Hl2 & He2 & Hr2 & Hs2' & Hc2 & Hsched);
      [done | done | by left |].
    rewrite Hs2 in Hrun. injection Hrun as <-.
    rewrite Hs in Hc2. simpl in Hc2.
    destruct (IH e2 Hl2 He2) as (e' & He' & Hc' & Hfin & Hst1 & Hst2); [congruence |].
    exists e'. split_and!; [done | lia | | done..].
    intros _. destruct n as [| n]; [| apply Hfin; lia].
    inversion Hn; subst s3. assert (e' = e2) as -> by congruence.
    rewrite Hs2', Hc1. unfold kNumberOfFailsBeforeStop in *.
    destruct (Z.ltb_spec (FailedDownloadCounter entry + 1) 7) as [Hb | Hb];
      [left | right].
    + split_and!; [lia | done |]. apply Hsched; [congruence |].
      rewrite Hs2', Hc1. by destruct (Z.ltb_spec (FailedDownloadCounter entry + 1) 7); [| lia].
    + split; [lia | done].
Qed.

Lemma DownloadEntry_offline url s entry :
  loaded (reading_list_model_ s) = true -> IsOffline s = true ->
  GetEntryByURL (reading_list_model_ s) url = Some entry ->
  not_to_download entry = false -> EntryURL entry = url ->
  exists s', DownloadEntry url s = Ok s'
    /\ reading_list_model_ s' = reading_list_model_ s
    /\ url_downloader_ s' = url_downloader_ s
    /\ had_connection_ s' = had_connection_ s
    /\ (FailedDownloadCounter entry < 5 -> url ∈ url_to_download_cellular_ s')
    /\ (FailedDownloadCounter entry < 7 -> url ∈ url_to_download_wifi_ s').
Proof.
  intros Hl Ho He Ha Hu. unfold DownloadEntry. rewrite Hl, He, Ha, Ho, Hu.
  cbn [dcheck mbind chk_bind]. eexists. split; [done |].
  unfold kNumberOfFailsBeforeWifiOnly, kNumberOfFailsBeforeStop.
  destruct (Z.ltb_spec (FailedDownloadCounter entry) 5),
    (Z.ltb_spec (FailedDownloadCounter entry) 7); simpl; try lia;
    split_and!; try done; try lia; intros _; apply elem_of_app; right;
    by apply list_elem_of_singleton.
Qed.

(** An entry to download is not lost while there is no connection: tried
    offline it starts nothing and is set aside, and when a connection comes
    back it is scheduled again, on any connection for less than five
    failures, on wifi for less than seven. *)
Lemma offline_entry_is_rescheduled (Hurls : entries_have_their_url)
    url s entry type
    (Hl : loaded (reading_list_model_ s) = true) (Ho : IsOffline s = true)
    (Hh : had_connection_ s = false)
    (He : GetEntryByURL (reading_list_model_ s) url = Some entry)
    (Ha : not_to_download entry = false) (Ht : type <> CONNECTION_NONE)
    (Hc : FailedDownloadCounter entry < 5
          \/ type = CONNECTION_WIFI /\ FailedDownloadCounter entry < 7) :
  exists s1 s2, DownloadEntry url s = Ok s1
    /\ url_downloader_ s1 = url_downloader_ s
    /\ handle (ConnectionTypeChanged type) s1 = Ok s2
    /\ had_connection_ s2 = true
    /\ (url, TimeUntilNextTry entry) ∈ delayed_downloads s2.
Proof.
  destruct (DownloadEntry_offline url s entry) as (s1 & Hs1 & Hm & Hd & Hh1 & Hcell & Hwifi);
    [done.. | by apply (Hurls (reading_list_model_ s)) |].
  exists s1. unfold handle, OnConnectionTypeChanged.
  cbn [had_connection_ set_field]. rewrite Hh1, Hh. cbn [negb].
  rewrite !schedule_all_run by (simpl; by rewrite Hm).
  cbn [mbind chk_bind mret chk_ret].
  assert (url ∈ url_to_download_cellular_ s1 \/ type = CONNECTION_WIFI
    /\ url ∈ url_to_download_wifi_ s1) as Hin by intuition.
  destruct type as [| | k]; [done | |].
  - rewrite bool_decide_true by done.
    rewrite schedule_all_run by (simpl; by rewrite Hm).
    eexists. split_and!; try done. simpl. rewrite !elem_of_app, Hm.
    destruct Hin as [Hin | [_ Hin]].
    + left; right. by eapply scheduled_in.
    + right. by eapply scheduled_in.
  - rewrite bool_decide_false by done.
    eexists. split_and!; try done. simpl. rewrite !elem_of_app, Hm.
    destruct Hin as [Hin | [? _]]; [| done].
    right. by eapply scheduled_in.
Qed.

Lemma HandleNextTask_completions d d' :
  HandleNextTask d = Ok d' -> completions d' = completions d.
Proof. intros Hd. unfold HandleNextTask in Hd. by run_all Hd. Qed.

(** A page that is already available offline counts as a failure: when
    the downloader finds the directory of the URL it reports DOWNLOAD_EXISTS
    without a path, and the service then records a failure (another try or
    DISTILLATION_ERROR), never that the entry is available. *)
Lemma existing_page_counts_as_failure (Hlaws : state_laws) url d d' now s entry
    (Hd : DownloadURL url true d = Ok d')
    (Hl : loaded (reading_list_model_ s) = true)
    (He : GetEntryByURL (reading_list_model_ s) url = Some entry) :
  exists c s' entry', completions d' = completions d ++ [c]
    /\ on_completion now c s = Ok s'
    /\ GetEntryByURL (reading_list_model_ s') url = Some entry'
    /\ failed_state (DistilledState entry') = true
    /\ (failed_state (DistilledState entry) = false ->
        FailedDownloadCounter entry' = FailedDownloadCounter entry + 1).
Proof.
  unfold DownloadURL, DownloadCompletionHandler in Hd. run_inv Hd.
  unfold post_delete in Hrun0. apply HandleNextTask_completions in Hrun0.
  exists (DownloadEnd url (distilled_url_ d) DOWNLOAD_EXISTS FilePath_empty
    (saved_size_ d) "").
  destruct (OnDownloadEnd_failed Hlaws now url (distilled_url_ d) DOWNLOAD_EXISTS
    FilePath_empty (saved_size_ d) "" s entry) as (s' & entry' & Hs & _ & _ & _ & He' & _ & Hst & Hc & _);
    [done | done | by right |].
  exists s', entry'. split_and!; try done.
  - rewrite Hst. by destruct (_ <? _).
  - rewrite Hc. by intros ->.
Qed.

(** Synchronizing with the model: when the model is loaded and the clean-up
    and its reply ran, of the directories under the offline root those of
    available entries are still there and every other one whose deletion
    succeeds is gone; every unread entry that waits for a download is
    scheduled. *)
Lemma sync_cleans_and_schedules (Hdirs : directory_laws) (Hord : url_order_total) s
    (Hl : loaded (reading_list_model_ s) = true)
    (Hkeys : keys_have_entries (reading_list_model_ s))
    (Hp : posted_clean_ups s = []) (Hcr : clean_up_replies s = []) :
  exists s1 s2 s3,
    handle ModelLoaded s = Ok s1 /\ handle CleanUpRuns s1 = Ok s2
    /\ handle CleanUpReplies s2 = Ok s3
    /\ (forall directory, directory ∈ Subdirectories (OfflineRoot s) (disk s) ->
         ((exists url entry, url ∈ Keys (reading_list_model_ s)
             /\ GetEntryByURL (reading_list_model_ s) url = Some entry
             /\ DistilledState entry = PROCESSED
             /\ BaseName directory = OfflineURLDirectoryID url) ->
          DirectoryExists directory (disk s3) = true)
         /\ (~ (exists url entry, url ∈ Keys (reading_list_model_ s)
             /\ GetEntryByURL (reading_list_model_ s) url = Some entry
             /\ DistilledState entry = PROCESSED
             /\ BaseName directory = OfflineURLDirectoryID url) ->
          (forall fs, (DeleteFile directory fs).2 = true) ->
          DirectoryExists directory (disk s3) = false))
    /\ (forall url entry, url ∈ Keys (reading_list_model_ s) ->
         GetEntryByURL (reading_list_model_ s) url = Some entry ->
         awaits_download (DistilledState entry) = true -> IsRead entry = false ->
         (url, TimeUntilNextTry entry) ∈ delayed_downloads s3).
Proof.
  destruct (sync_urls_spec Hord (reading_list_model_ s) (Keys (reading_list_model_ s)) [] []
    Hkeys) as (processed & unprocessed & Hrun & Hproc & Hunproc).
  exists (s <| posted_clean_ups := [(processed, unprocessed)] |>).
  eexists _, _. split_and!.
  - unfold handle, ReadingListModelLoaded, SyncWithModel. rewrite Hl, Hrun, Hp. done.
  - apply handle_clean_up. done.
  - unfold handle. cbn [clean_up_replies set_field CleanUpFiles]. rewrite Hcr. cbn [app].
    unfold DownloadUnprocessedEntries. rewrite schedule_all_run by done. done.
  - intros directory Hdir. unfold disk. cbn [url_downloader_ set_field files set_files].
    split.
    + intros (url & entry & Hk & He & Hs & Hb).
      apply (clean_up_keeps Hdirs (OfflineRoot s) (disk s)); [done | done | |].
      * apply Hproc. right. exists url, entry. done.
      * by apply (subdirectory_exists Hdirs (OfflineRoot s)).
    + intros Hno Hok.
      apply (clean_up_removes Hdirs (OfflineRoot s) (disk s)); [done | done | | done].
      intros Hb%Hproc. destruct Hb as [Hb%elem_of_nil | (url & entry & Hb)]; [done |].
      apply Hno. exists url, entry. done.
  - intros url entry Hk He Ha Hr. cbn. apply elem_of_app. right.
    apply scheduled_in; [| done |].
    + apply Hunproc. right. by exists entry.
    + unfold not_to_download. rewrite Hr. by destruct (DistilledState entry).
Qed.

(** The URLs set aside are never taken out of the lists. *)
Lemma connection_change_keeps_lists type s s' :
  loaded (reading_list_model_ s) = true ->
  OnConnectionTypeChanged type s = Ok s' ->
  url_to_download_cellular_ s' = url_to_download_cellular_ s
  /\ url_to_download_wifi_ s' = url_to_download_wifi_ s.
Proof.
  intros Hl Hs. unfold OnConnectionTypeChanged in Hs.
  destruct type; [by run_inv Hs | |].
  all: destruct (had_connection_ s); cbn [negb mbind chk_bind mret chk_ret] in Hs.
  all: try (rewrite schedule_all_run in Hs by done; cbn [mbind chk_bind] in Hs).
  all: case_bool_decide; try (rewrite schedule_all_run in Hs by done).
  all: by injection Hs as <-.
Qed.
End service.

Module ServiceSample.
Import ConcreteOffline.

Definition page : GURL := url_of "https://page/a".
Definition other : GURL := url_of "https://other/b".

Definition page_entry (failures : Z) : entry :=
  mk_entry page false WAITING ([] : list string) page failures.
Definition other_entry : entry :=
  mk_entry other false PROCESSED [directory_id other; "page.html"%string] other 0.

Definition model (failures : Z) : ReadingListModel :=
  mk_reading_list true [page_entry failures; other_entry].

Definition profile : FilePath := (["profile"%string] : list string).

Definition other_directory : FilePath := OfflineURLDirectoryAbsolutePath profile other.
Definition stale_directory : FilePath := OfflineURLDirectoryAbsolutePath profile page.

Definition sample_disk : FileSystem :=
  (<[other_directory := None]> (<[stale_directory := None]>
    (∅ : gmap (list string) (option text)))).

Definition service_on (failures : Z) (type : ConnectionType) :=
  ReadingListDownloadService_new (model failures) profile sample_disk type.


(** *** A download that fails once, on any connection *)
Definition online : ReadingListDownloadService := service_on 0 (CONNECTION_OTHER 4).
Definition started : ReadingListDownloadService :=
  from_ok online (DownloadEntry page online).
Definition failed_once : ReadingListDownloadService :=
  from_ok online (OnDownloadEnd 0 page page ERROR FilePath_empty 0 ""
    (started <| url_downloader_ := url_downloader_ started |>
             <| connection := CONNECTION_WIFI |>)).

Lemma one_failed_attempt : failed_attempts page 1 online failed_once.
Proof.
  eapply (failed_attempt page 0 online started failed_once failed_once
    (url_downloader_ started) 0 page FilePath_empty 0 "" CONNECTION_WIFI).
  - apply (okb_run online). evaluate.
  - intros Hsame%(f_equal working_). revert Hsame. by vm_compute.
  - apply (okb_run online). evaluate.
  - constructor.
Qed.

Lemma page_found failures :
  GetEntryByURL (model failures) page = Some (page_entry failures : ReadingListEntry).
Proof. reflexivity. Qed.

Lemma attempts_are_bounded_witness :
  failed_attempts page 1 online failed_once
  /\ exists entry', GetEntryByURL (reading_list_model_ failed_once) page = Some entry'
     /\ FailedDownloadCounter entry' = 1.
Proof.
  split; [apply one_failed_attempt |].
  destruct (attempts_are_bounded reading_laws reading_urls page 1 online failed_once
    (page_entry 0) eq_refl (page_found 0) eq_refl one_failed_attempt)
    as (entry' & He & Hc & _).
  exists entry'. split; [exact He | exact Hc].
Defined.

(** *** Offline *)
Definition offline : ReadingListDownloadService := service_on 2 CONNECTION_NONE.

Lemma offline_entry_is_rescheduled_witness :
  IsOffline offline = true
  /\ exists s1 s2, DownloadEntry page offline = Ok s1
    /\ url_downloader_ s1 = url_downloader_ offline
    /\ handle (ConnectionTypeChanged (CONNECTION_OTHER 4)) s1 = Ok s2
    /\ had_connection_ s2 = true
    /\ (page, 2000) ∈ delayed_downloads s2.
Proof.
  split; [reflexivity |].
  apply (offline_entry_is_rescheduled reading_urls page offline (page_entry 2)
    (CONNECTION_OTHER 4) eq_refl eq_refl eq_refl (page_found 2) eq_refl);
    [discriminate | left; reflexivity].
Defined.

(** *** A page that exists *)
Definition busy : URLDownloader :=
  URLDownloader_new profile sample_disk <| working_ := true |>.

Lemma existing_page_counts_as_failure_witness :
  DownloadURL page true busy = Ok (from_ok busy (DownloadURL page true busy))
  /\ exists c s' entry', completions (from_ok busy (DownloadURL page true busy)) = [c]
    /\ on_completion 0 c online = Ok s'
    /\ GetEntryByURL (reading_list_model_ s') page = Some entry'
    /\ failed_state (DistilledState entry') = true.
Proof.
  assert (DownloadURL page true busy = Ok (from_ok busy (DownloadURL page true busy)))
    as Hd by (apply okb_run; evaluate).
  split; [exact Hd |].
  destruct (existing_page_counts_as_failure reading_laws page busy _ 0 online
    (page_entry 0) Hd eq_refl (page_found 0)) as (c & s' & entry' & Hc & Hs & He & Hf & _).
  exists c, s', entry'. split_and!; assumption.
Defined.

(** *** Synchronization *)
Lemma keys_found failures : keys_have_entries (model failures).
Proof.
  intros url Hin. change (url ∈ [page; other]) in Hin.
  apply elem_of_cons in Hin as [-> | ->%list_elem_of_singleton]; by eexists.
Qed.

Lemma sample_ordered : url_order_total.
Proof. exact urls_ordered. Qed.

Lemma sync_cleans_and_schedules_witness :
  posted_clean_ups online = []
  /\ exists s1 s2 s3,
    handle ModelLoaded online = Ok s1 /\ handle CleanUpRuns s1 = Ok s2
    /\ handle CleanUpReplies s2 = Ok s3
    /\ (page, 0) ∈ delayed_downloads s3.
Proof.
  split; [reflexivity |].
  destruct (sync_cleans_and_schedules files_directories sample_ordered online eq_refl
    (keys_found 0) eq_refl eq_refl) as (s1 & s2 & s3 & H1 & H2 & H3 & _ & Hsched).
  exists s1, s2, s3. split_and!; try assumption.
  apply (Hsched page (page_entry 0)); [| reflexivity..].
  change (page ∈ [page; other]). by left.
Defined.

(** The directories left. *)
Example sync_leaves_other :
  bool_decide (Subdirectories (OfflineRootDirectoryPath profile)
    (disk (from_ok online (s ← handle ModelLoaded online; handle CleanUpRuns s)))
    = [other_directory]) = true.
Proof. vm_compute. reflexivity. Qed.
End ServiceSample.
