(* ===== verification/PageInfoModel.v ===== *)
(** * Page information

    [chrome/browser/ui/omnibox/page_info_model.h] and [.cc]: what the page
    information bubble says of a page and of its connection.

    Resource strings, certificates and the decoding of certificate statuses
    are parameters; a resource is known by its identifier. *)
From S2P Require Import Prelude External NavigationItem OfflineUrlUtils.
From Stdlib Require Import Ascii.

(** ** Code outside of the repository *)
Class PageInfoApi `{GurlApi} := {
  page_scheme_is : GURL -> string -> bool;
  page_host : GURL -> string;
(** [l10n_util::GetStringUTF16], [GetStringFUTF16] *)
GetStringUTF16 : string -> string;
GetStringFUTF16 : string -> string -> string;
(** [net::IsCertStatusError], [net::IsCertStatusMinorError] *)
IsCertStatusError : Z -> bool;
IsCertStatusMinorError : Z -> bool;
CERT_STATUS_IS_EV : Z;
(** the short descriptions of [ErrorInfo::GetErrorsForCertStatus] *)
certificate_errors : positive -> Z -> GURL -> list string;
(** [certificate->issuer().GetDisplayName()] *)
issuer_name : positive -> string;
}.

Inductive SectionInfoType :=
| SECTION_INFO_IDENTITY
| SECTION_INFO_CONNECTION
| SECTION_INFO_FIRST_VISIT
| SECTION_INFO_INTERNAL_PAGE.

Inductive SectionStateIcon :=
| ICON_NONE
| ICON_STATE_OK
| ICON_STATE_ERROR
| ICON_STATE_INFO
| ICON_STATE_OFFLINE_PAGE
| ICON_STATE_INTERNAL_PAGE.

Inductive ButtonAction := BUTTON_NONE | BUTTON_SHOW_SECURITY_HELP | BUTTON_RELOAD.

Record SectionInfo := {
  icon_id : SectionStateIcon;
  headline : string;
  description : string;
  section_type : SectionInfoType;
  button : ButtonAction;
}.

Record PageInfoModel := {
  sections_ : list SectionInfo;
  certificate_label_ : string;
}.

Definition DISPLAYED_INSECURE_CONTENT : Z := Z.shiftl 1 0.

Section page_info.
Context `{GurlApi, !PageInfoApi}.
Implicit Types (url : GURL) (ssl : SSLStatus) (m : PageInfoModel).

Definition newline : string := String "010"%char EmptyString.
Definition bullet : string := newline +:+ " • ".
Definition spacer : string := newline +:+ newline.

Definition one_section (s : SectionInfo) : PageInfoModel :=
  {| sections_ := [s]; certificate_label_ := "" |}.

Definition internal_section url : SectionInfo :=
  if String.eqb (page_host url) kChromeUIOfflineHost then
    {| icon_id := ICON_STATE_OFFLINE_PAGE;
       headline := GetStringUTF16 "IDS_IOS_PAGE_INFO_OFFLINE_TITLE";
       description := GetStringUTF16 "IDS_IOS_PAGE_INFO_OFFLINE_PAGE";
       section_type := SECTION_INFO_INTERNAL_PAGE; button := BUTTON_RELOAD |}
  else
    {| icon_id := ICON_STATE_INTERNAL_PAGE; headline := "";
       description := GetStringUTF16 "IDS_PAGE_INFO_INTERNAL_PAGE";
       section_type := SECTION_INFO_INTERNAL_PAGE; button := BUTTON_NONE |}.

(** The loop over the errors of a certificate. *)
Fixpoint append_errors (certificate_details : string) (errors : list string) : string :=
  match errors with
  | [] => certificate_details
  | e :: errors => append_errors (certificate_details +:+ bullet +:+ e) errors
  end.

(** The icon, the summary, the details and what is said of the certificate. *)
Definition connection_state url ssl : chk (SectionStateIcon * string * string * string) :=
  match certificate ssl with
  | None =>
      mret (ICON_STATE_INFO, GetStringUTF16 "IDS_PAGE_INFO_NOT_SECURE_SUMMARY",
            GetStringUTF16 "IDS_PAGE_INFO_NOT_SECURE_DETAILS", ""%string)
  | Some certificate =>
      if IsCertStatusError (cert_status ssl) ||
         bool_decide (security_style ssl = SECURITY_STYLE_AUTHENTICATION_BROKEN) then
        _ ← dcheck (negb (IsCertStatusMinorError (cert_status ssl)));
        let certificate_details :=
          append_errors (GetStringUTF16 "IDS_PAGE_INFO_SECURITY_TAB_INSECURE_IDENTITY")
            (certificate_errors certificate (cert_status ssl) url) in
        mret (ICON_STATE_ERROR, GetStringUTF16 "IDS_PAGE_INFO_NOT_SECURE_SUMMARY",
              GetStringUTF16 "IDS_PAGE_INFO_NOT_SECURE_DETAILS", certificate_details)
      else
        let issuer := issuer_name certificate in
        let certificate_details :=
          if negb (String.eqb issuer "")
          then GetStringFUTF16 "IDS_IOS_PAGE_INFO_SECURITY_TAB_SECURE_IDENTITY" issuer
          else ""%string in
        if content_status ssl =? DISPLAYED_INSECURE_CONTENT then
          mret (ICON_STATE_INFO, GetStringUTF16 "IDS_PAGE_INFO_MIXED_CONTENT_SUMMARY",
                GetStringUTF16 "IDS_PAGE_INFO_MIXED_CONTENT_DETAILS", certificate_details)
        else
          _ ← dcheck (Z.land (cert_status ssl) CERT_STATUS_IS_EV =? 0);
          mret (ICON_STATE_OK, GetStringUTF16 "IDS_PAGE_INFO_SECURE_SUMMARY",
                GetStringUTF16 "IDS_PAGE_INFO_SECURE_DETAILS", certificate_details)
  end.

Definition PageInfoModel_new url ssl : chk PageInfoModel :=
  if page_scheme_is url kChromeUIScheme then mret (one_section (internal_section url))
  else
    let hostname := page_host url in
    '(icon, summary, details, certificate_details) ← connection_state url ssl;
    let text := summary +:+ spacer +:+ details in
    let text := if negb (String.eqb certificate_details "")
                then text +:+ spacer +:+ certificate_details else text in
    mret (one_section
      {| icon_id := icon; headline := hostname; description := text;
         section_type := SECTION_INFO_CONNECTION; button := BUTTON_SHOW_SECURITY_HELP |}).

Definition GetSectionCount m : Z := wrap32 (vsize (sections_ m)).

Definition GetSectionInfo (index : Z) m : chk SectionInfo :=
  _ ← dcheck (index <? GetSectionCount m);
  vget (sections_ m) index.

(** The name of the image. *)
Definition GetIconImage (icon : SectionStateIcon) : option string :=
  match icon with
  | ICON_NONE | ICON_STATE_INTERNAL_PAGE => None
  | ICON_STATE_OK => Some "IDR_IOS_PAGEINFO_GOOD"%string
  | ICON_STATE_ERROR => Some "IDR_IOS_PAGEINFO_BAD"%string
  | ICON_STATE_INFO => Some "IDR_IOS_PAGEINFO_INFO"%string
  | ICON_STATE_OFFLINE_PAGE => Some "IDR_IOS_OMNIBOX_OFFLINE"%string
  end.

Definition GetCertificateLabel m : string := certificate_label_ m.

(** ** When a connection is said to be what *)

(** An encrypted connection with a certificate problem. *)
Definition broken ssl : Prop :=
  is_Some (certificate ssl) /\
  (IsCertStatusError (cert_status ssl) = true \/
   security_style ssl = SECURITY_STYLE_AUTHENTICATION_BROKEN).

(** What the network stack guarantees of a status it reports: minor errors
    come without major ones, and extended validation is off. *)
Definition status_ok ssl : Prop :=
  (broken ssl -> IsCertStatusMinorError (cert_status ssl) = false) /\
  Z.land (cert_status ssl) CERT_STATUS_IS_EV = 0.

(** There is always exactly one section.  A page of the program itself has
    the icon of internal or of offline pages; any other page has the green
    icon exactly when its connection is encrypted, its certificate has no
    error, and its content is not reported as mixed; the red icon exactly when
    the connection is encrypted and its certificate has an error; and the
    neutral icon otherwise. *)
Lemma page_info_icon url ssl :
  status_ok ssl ->
  exists m s, PageInfoModel_new url ssl = Ok m /\ GetSectionCount m = 1 /\
    GetSectionInfo 0 m = Ok s /\
    if page_scheme_is url kChromeUIScheme then
      icon_id s = ICON_STATE_OFFLINE_PAGE \/ icon_id s = ICON_STATE_INTERNAL_PAGE
    else
      (icon_id s = ICON_STATE_OK <->
         is_Some (certificate ssl) /\ ~ broken ssl /\
         content_status ssl <> DISPLAYED_INSECURE_CONTENT) /\
      (icon_id s = ICON_STATE_ERROR <-> broken ssl) /\
      (icon_id s = ICON_STATE_INFO <->
         certificate ssl = None \/
         (~ broken ssl /\ content_status ssl = DISPLAYED_INSECURE_CONTENT)).
Proof.
  intros [Hminor Hev]. unfold PageInfoModel_new.
  destruct (page_scheme_is url kChromeUIScheme).
  { eexists _, _. split; [done |]. split; [done |]. split; [done |].
    unfold internal_section. case_match; [by left | by right]. }
  unfold connection_state, broken in *.
  destruct (certificate ssl) as [c |].
  - destruct (IsCertStatusError (cert_status ssl)) eqn:Herr; simpl.
    { rewrite Hminor by (split; [by eexists | by left]). simpl.
      eexists _, _. do 3 (split; [done |]). simpl. naive_solver. }
    case_bool_decide as Hstyle; simpl.
    { rewrite Hminor by (split; [by eexists | by right]). simpl.
      eexists _, _. do 3 (split; [done |]). simpl. naive_solver. }
    destruct (Z.eqb_spec (content_status ssl) DISPLAYED_INSECURE_CONTENT); simpl.
    { eexists _, _. do 3 (split; [done |]). simpl. naive_solver. }
    rewrite Hev. simpl. eexists _, _. do 3 (split; [done |]). simpl. naive_solver.
  - simpl. eexists _, _. do 3 (split; [done |]). simpl.
    split; [split; [done | by intros [[] _]] |].
    split; [split; [done | by intros [[] _]] |]. split; [by left | done].
Qed.

(** The content status is a combination of flags, and the test looks at it as
    a whole: mixed content together with another flag gets the green icon. *)
Lemma mixed_content_with_other_flag url ssl c :
  page_scheme_is url kChromeUIScheme = false -> certificate ssl = Some c ->
  ~ broken ssl -> status_ok ssl ->
  content_status ssl = Z.lor DISPLAYED_INSECURE_CONTENT (Z.shiftl 1 4) ->
  exists m s, PageInfoModel_new url ssl = Ok m /\ GetSectionInfo 0 m = Ok s /\
    icon_id s = ICON_STATE_OK.
Proof.
  intros Hscheme Hc Hbroken [_ Hev] Hcontent. unfold PageInfoModel_new, connection_state.
  rewrite Hscheme, Hc.
  destruct (IsCertStatusError (cert_status ssl)) eqn:Herr.
  { destruct Hbroken. split; [by eexists | by left]. }
  case_bool_decide as Hstyle; [destruct Hbroken; split; [by eexists | by right] |].
  rewrite Hcontent. simpl. rewrite Hev. simpl. by eexists _, _.
Qed.
End page_info.

(** ** A concrete page *)
Module ConcretePageInfo.
Import ConcreteUrl.

#[export] Instance page_info_api : PageInfoApi := {|
  page_scheme_is u s := String.eqb (scheme u) s;
  page_host u := host u;
  GetStringUTF16 s := s;
  GetStringFUTF16 s a := s +:+ a;
  IsCertStatusError st := Z.testbit st 0;
  IsCertStatusMinorError st := Z.testbit st 1;
  CERT_STATUS_IS_EV := 4;
  certificate_errors _ _ _ := ["expired"%string];
  issuer_name _ := "issuer"%string;
|}.

Definition secure : SSLStatus :=
  {| security_style := SECURITY_STYLE_AUTHENTICATED; certificate := Some 1%positive;
     cert_status := 0; connection_status := 0; content_status := 0;
     cert_status_host := "a.b" |}.

Definition page : GURL := mk_url "https" "a.b" "" None.

Lemma secure_status : status_ok secure.
Proof. by split. Qed.

Lemma page_info_icon_witness :
  exists m s, PageInfoModel_new page secure = Ok m /\
    GetSectionInfo 0 m = Ok s /\ icon_id s = ICON_STATE_OK.
Proof.
  destruct (page_info_icon page secure secure_status)
    as (m & s & Hm & _ & Hs & Hicon & _).
  exists m, s. split; [exact Hm |]. split; [exact Hs |]. apply Hicon.
  split; [by eexists |]. split; [| vm_compute; discriminate].
  intros [_ [Herr | Hstyle]]; discriminate.
Defined.
End ConcretePageInfo.
