(* ===== verification/RequestTrackerStore.v ===== *)
(** * The memoizing store of the request trackers

    [web/net/request_tracker_data_memoizing_store.h]: objects shared by
    request trackers, each kept once under a number for as long as some
    tracker refers to it.

    A [std::multimap] is a map from keys to the values of the key, in the
    order of their insertion.  Every operation holds [lock_] from its first
    line to its last, so a history is a sequence of operations. *)
From S2P Require Import Prelude.

(** ** [std::multimap<int, int>] *)
Abbreviation IDMap := (gmap Z (list Z)).

Definition equal_range (m : IDMap) (key : Z) : list Z := default [] (m !! key).

Definition multi_insert (key value : Z) (m : IDMap) : IDMap :=
  <[key := equal_range m key ++ [value]]> m.

(** [erase(iter)] for the [n]-th of the elements of [key]. *)
Definition multi_erase_at (key : Z) (n : nat) (m : IDMap) : IDMap :=
  match delete n (equal_range m key) with
  | [] => delete key m
  | values => <[key := values]> m
  end.

(** [erase(first, last)] for the whole range of [key]. *)
Definition multi_erase (key : Z) (m : IDMap) : IDMap := delete key m.

(** ** The store

    [T] are the objects, whose addresses are never null here.  The keys of
    [ReverseItemMap] are ordered by [T::LessThan]: two objects are one key
    when neither is less, that is when they have the same [class]. *)
Section store.
Context {T C : Type} `{Countable C} (class : T -> C).

Record RequestTrackerDataMemoizingStore := {
  request_tracker_id_to_item_id_ : IDMap;
  item_id_to_request_tracker_id_ : IDMap;
  id_to_item_ : gmap Z T;
  item_to_id_ : gmap C Z;
  next_item_id_ : Z;
}.

#[export] Instance store_fields : Fields RequestTrackerDataMemoizingStore := fun s =>
  {| request_tracker_id_to_item_id_ := request_tracker_id_to_item_id_ s;
     item_id_to_request_tracker_id_ := item_id_to_request_tracker_id_ s;
     id_to_item_ := id_to_item_ s; item_to_id_ := item_to_id_ s;
     next_item_id_ := next_item_id_ s |}.

Implicit Types (s : RequestTrackerDataMemoizingStore) (item_id tracker : Z).

Definition RequestTrackerDataMemoizingStore_new : RequestTrackerDataMemoizingStore :=
  {| request_tracker_id_to_item_id_ := ∅; item_id_to_request_tracker_id_ := ∅;
     id_to_item_ := ∅; item_to_id_ := ∅; next_item_id_ := 1 |}.

(** The check of the destructor. *)
Definition destructor s : chk unit := dcheck (bool_decide (id_to_item_ s = ∅)).

Definition UpdateMap (map : IDMap) (key_id value_id : Z) : IDMap :=
  if bool_decide (value_id ∈ equal_range map key_id) then map
  else multi_insert key_id value_id map.

(** [next_item_id_++], followed by the test for 0. *)
Definition following_id (id : Z) : Z :=
  let next := wrap32 (id + 1) in if next =? 0 then 1 else next.

(** The identifier of [item], which is new when the item is not known. *)
Definition find_or_add (item : T) s : RequestTrackerDataMemoizingStore * Z :=
  match item_to_id_ s !! class item with
  | None =>
      let item_id := next_item_id_ s in
      let s := s <| next_item_id_ := following_id (next_item_id_ s) |> in
      let s := s <| id_to_item_ := <[item_id := item]> (id_to_item_ s) |> in
      (s <| item_to_id_ := <[class item := item_id]> (item_to_id_ s) |>, item_id)
  | Some item_id => (s, item_id)
  end.

Definition Store (item : option T) (request_tracker_id : Z) s
    : chk (RequestTrackerDataMemoizingStore * Z) :=
  item ← deref item;
  let '(s, item_id) := find_or_add item s in
  let s := s <| request_tracker_id_to_item_id_ :=
    UpdateMap (request_tracker_id_to_item_id_ s) request_tracker_id item_id |> in
  let s := s <| item_id_to_request_tracker_id_ :=
    UpdateMap (item_id_to_request_tracker_id_ s) item_id request_tracker_id |> in
  _ ← dcheck (negb (item_id =? 0));
  mret (s, item_id).

(** [Some item] when it returns true. *)
Definition Retrieve item_id s : option T := id_to_item_ s !! item_id.

Definition RemoveInternal item_id s : chk RequestTrackerDataMemoizingStore :=
  item ← deref (id_to_item_ s !! item_id);
  _ ← deref (item_to_id_ s !! class item);
  let s := s <| item_to_id_ := delete (class item) (item_to_id_ s) |> in
  mret (s <| id_to_item_ := delete item_id (id_to_item_ s) |>).

(** The body of the loop of [RemoveRequestTrackerItems]; iterators into the
    range are positions in it. *)
Definition remove_item (request_tracker_id : Z) item_id s
    : chk RequestTrackerDataMemoizingStore :=
  let item_ids := equal_range (item_id_to_request_tracker_id_ s) item_id in
  proc_iter ← deref (find_index (Z.eqb request_tracker_id) item_ids);
  let next_proc_iter := S proc_iter in
  let last_request_tracker_for_item_id :=
    (proc_iter =? 0)%nat && (next_proc_iter =? length item_ids)%nat in
  let s := s <| item_id_to_request_tracker_id_ :=
    multi_erase_at item_id proc_iter (item_id_to_request_tracker_id_ s) |> in
  if last_request_tracker_for_item_id then RemoveInternal item_id s else mret s.

Fixpoint remove_items (request_tracker_id : Z) (item_ids : list Z) s
    : chk RequestTrackerDataMemoizingStore :=
  match item_ids with
  | [] => mret s
  | item_id :: item_ids =>
      s ← remove_item request_tracker_id item_id s;
      remove_items request_tracker_id item_ids s
  end.

Definition RemoveRequestTrackerItems (request_tracker_id : Z) s
    : chk RequestTrackerDataMemoizingStore :=
  let request_tracker_ids := equal_range (request_tracker_id_to_item_id_ s) request_tracker_id in
  s ← remove_items request_tracker_id request_tracker_ids s;
  match request_tracker_ids with
  | [] => mret s
  | _ => mret (s <| request_tracker_id_to_item_id_ :=
           multi_erase request_tracker_id (request_tracker_id_to_item_id_ s) |>)
  end.

Definition RemoveForRequestTracker (request_tracker_id : Z) s :=
  RemoveRequestTrackerItems request_tracker_id s.

(** *** Histories *)
Inductive request :=
| RStore (item : T) (request_tracker_id : Z)
| RRetrieve (item_id : Z)
| RRemove (request_tracker_id : Z).

Inductive answer := Identifier (item_id : Z) | Item (item : option T) | Done.

Definition perform (r : request) s : chk (RequestTrackerDataMemoizingStore * answer) :=
  match r with
  | RStore item t => '(s, id) ← Store (Some item) t s; mret (s, Identifier id)
  | RRetrieve id => mret (s, Item (Retrieve id s))
  | RRemove t => s ← RemoveForRequestTracker t s; mret (s, Done)
  end.

Fixpoint perform_all (rs : list request) s
    : chk (RequestTrackerDataMemoizingStore * list answer) :=
  match rs with
  | [] => mret (s, [])
  | r :: rs =>
      '(s, a) ← perform r s;
      '(s, answers) ← perform_all rs s;
      mret (s, a :: answers)
  end.

(** ** What it is for

    Which tracker refers to which number, the object each number stands for,
    and the first number that was never given. *)
Record Catalogue := {
  references : gset (Z * Z);
  entries : gmap Z T;
  next_number : Z;
}.

Definition Catalogue_new : Catalogue :=
  {| references := ∅; entries := ∅; next_number := 1 |}.

(** [promised r k a k']: the catalogue [k] answers [a] to [r] and becomes [k']. *)
Inductive promised : request -> Catalogue -> answer -> Catalogue -> Prop :=
| known_item item t id kept refs items next :
    items !! id = Some kept -> class kept = class item ->
    promised (RStore item t)
      {| references := refs; entries := items; next_number := next |}
      (Identifier id)
      {| references := {[(t, id)]} ∪ refs; entries := items; next_number := next |}
| new_item item t refs items next :
    (forall id kept, items !! id = Some kept -> class kept <> class item) ->
    promised (RStore item t)
      {| references := refs; entries := items; next_number := next |}
      (Identifier next)
      {| references := {[(t, next)]} ∪ refs; entries := <[next := item]> items;
         next_number := next + 1 |}
| retrieved id k : promised (RRetrieve id) k (Item (entries k !! id)) k
| removed t refs items next kept :
    kept = filter (fun r => r.1 <> t) refs ->
    promised (RRemove t)
      {| references := refs; entries := items; next_number := next |}
      Done
      {| references := kept;
         entries := filter (fun e => e.1 ∈ (set_map snd kept : gset Z)) items;
         next_number := next |}.

Inductive promised_all : list request -> Catalogue -> list answer -> Catalogue -> Prop :=
| promised_nil k : promised_all [] k [] k
| promised_cons r rs k1 k2 k3 a answers :
    promised r k1 a k2 -> promised_all rs k2 answers k3 ->
    promised_all (r :: rs) k1 (a :: answers) k3.

(** ** The invariant

    [R] says which tracker refers to which number. *)
Record linked (R : Z -> Z -> Prop) s : Prop := {
  link_range item_id tracker :
    tracker ∈ equal_range (item_id_to_request_tracker_id_ s) item_id <-> R tracker item_id;
  link_nodup item_id : NoDup (equal_range (item_id_to_request_tracker_id_ s) item_id);
  link_kept item_id :
    is_Some (id_to_item_ s !! item_id) <->
    equal_range (item_id_to_request_tracker_id_ s) item_id <> [];
  link_class c item_id :
    item_to_id_ s !! c = Some item_id <->
    exists item, id_to_item_ s !! item_id = Some item /\ class item = c;
  link_given item_id : is_Some (id_to_item_ s !! item_id) -> 0 < item_id < next_item_id_ s;
}.

Definition refers s (tracker item_id : Z) : Prop :=
  item_id ∈ equal_range (request_tracker_id_to_item_id_ s) tracker.

Definition store_ok s : Prop :=
  linked (refers s) s /\ 1 <= next_item_id_ s /\
  (forall tracker, NoDup (equal_range (request_tracker_id_to_item_id_ s) tracker)).

Definition represents s (k : Catalogue) : Prop :=
  (forall tracker item_id, (tracker, item_id) ∈ references k <-> refers s tracker item_id) /\
  entries k = id_to_item_ s /\ next_number k = next_item_id_ s.

(** ** Ranges of a multimap *)
Lemma range_insert m key value j :
  equal_range (multi_insert key value m) j =
  if decide (j = key) then equal_range m key ++ [value] else equal_range m j.
Proof.
  unfold equal_range at 1, multi_insert. destruct (decide (j = key)) as [-> | Hne].
  - by rewrite lookup_insert_eq.
  - by rewrite lookup_insert_ne.
Qed.

Lemma range_erase m key j :
  equal_range (multi_erase key m) j = if decide (j = key) then [] else equal_range m j.
Proof.
  unfold equal_range, multi_erase. destruct (decide (j = key)) as [-> | Hne].
  - by rewrite lookup_delete_eq.
  - by rewrite lookup_delete_ne.
Qed.

Lemma range_erase_at m key n j :
  equal_range (multi_erase_at key n m) j =
  if decide (j = key) then delete n (equal_range m key) else equal_range m j.
Proof.
  unfold multi_erase_at. destruct (delete n (equal_range m key)) as [| v vs] eqn:Hd.
  - apply range_erase.
  - unfold equal_range at 1. destruct (decide (j = key)) as [-> | Hne].
    + by rewrite lookup_insert_eq.
    + by rewrite lookup_insert_ne.
Qed.

Lemma range_update m key value j v :
  v ∈ equal_range (UpdateMap m key value) j <->
  v ∈ equal_range m j \/ (j = key /\ v = value).
Proof.
  unfold UpdateMap. case_bool_decide as Hin.
  - split; [by left |]. by intros [? | [-> ->]].
  - rewrite range_insert. case_decide; subst; set_solver.
Qed.

Lemma range_update_nodup m key value j :
  NoDup (equal_range m j) -> NoDup (equal_range (UpdateMap m key value) j).
Proof.
  unfold UpdateMap. case_bool_decide as Hin; [done |]. rewrite range_insert.
  case_decide as Hj; [subst | done]. intros Hnd. apply NoDup_app.
  split_and!; [done | set_solver | apply NoDup_singleton].
Qed.

Lemma range_update_nonempty m key value j :
  equal_range (UpdateMap m key value) j <> [] <-> equal_range m j <> [] \/ j = key.
Proof.
  unfold UpdateMap. case_bool_decide as Hin.
  - split; [by left | intros [? | ->]; [done |]]. intros Hnil. rewrite Hnil in Hin.
    by apply elem_of_nil in Hin.
  - rewrite range_insert. case_decide as Hj; [subst; split; [by right | by destruct (equal_range _ _)] |].
    naive_solver.
Qed.

(** Where an element of a range without repetitions is, and what is left
    without it. *)
Lemma delete_found (l : list Z) x :
  NoDup l -> x ∈ l ->
  exists n, find_index (Z.eqb x) l = Some n /\ NoDup (delete n l) /\
    (forall y, y ∈ delete n l <-> y ∈ l /\ y <> x) /\
    ((n =? 0)%nat && (S n =? length l)%nat = true <-> delete n l = []).
Proof.
  intros Hnd Hin. destruct (find_index (Z.eqb x) l) as [n |] eqn:Hf.
  - exists n. split; [done |].
    apply find_index_Some in Hf as [(y & Hn & Hy%Z.eqb_eq) _]. subst y.
    pose proof (delete_Permutation _ _ _ Hn) as Hp.
    pose proof Hnd as Hnd'. rewrite Hp, NoDup_cons in Hnd'. destruct Hnd' as [Hni Hd].
    split_and!; [done | |].
    + intros y. rewrite Hp at 2. rewrite elem_of_cons. naive_solver.
    + apply Permutation_length in Hp. simpl in Hp. apply lookup_lt_Some in Hn.
      rewrite andb_true_iff, !Nat.eqb_eq. rewrite <- length_zero_iff_nil. lia.
  - exfalso. apply list_elem_of_lookup in Hin as [k Hk].
    rewrite find_index_None in Hf. specialize (Hf k x Hk). by rewrite Z.eqb_refl in Hf.
Qed.

(** ** Removing *)
Lemma linked_class_unique R s id1 id2 item1 item2 :
  linked R s -> id_to_item_ s !! id1 = Some item1 -> id_to_item_ s !! id2 = Some item2 ->
  class item1 = class item2 -> id1 = id2.
Proof.
  intros Hl H1 H2 Hc.
  assert (item_to_id_ s !! class item1 = Some id1) by (apply (link_class _ _ Hl); eauto).
  assert (item_to_id_ s !! class item1 = Some id2) by (apply (link_class _ _ Hl); eauto).
  congruence.
Qed.

Lemma linked_equiv R1 R2 s : (forall t id, R1 t id <-> R2 t id) -> linked R1 s -> linked R2 s.
Proof. intros Heq [Hr ? ? ? ?]. split; try done. intros id t. by rewrite Hr. Qed.

Lemma remove_item_linked R tracker item_id s :
  linked R s -> R tracker item_id ->
  exists s', remove_item tracker item_id s = Ok s' /\
    linked (fun t id => R t id /\ ~ (t = tracker /\ id = item_id)) s' /\
    request_tracker_id_to_item_id_ s' = request_tracker_id_to_item_id_ s /\
    next_item_id_ s' = next_item_id_ s /\ id_to_item_ s' ⊆ id_to_item_ s.
Proof.
  intros Hl HR. pose proof HR as Hin. apply (link_range _ _ Hl) in Hin.
  destruct (delete_found _ _ (link_nodup _ _ Hl item_id) Hin) as (n & Hfind & Hnd & Hdel & Hlast).
  assert (Hrange : forall id t,
    t ∈ equal_range (multi_erase_at item_id n (item_id_to_request_tracker_id_ s)) id <->
    R t id /\ ~ (t = tracker /\ id = item_id)).
  { intros id t. rewrite range_erase_at. case_decide as Hid; [subst; rewrite Hdel |];
      rewrite (link_range _ _ Hl); naive_solver. }
  assert (Hnodup : forall id,
    NoDup (equal_range (multi_erase_at item_id n (item_id_to_request_tracker_id_ s)) id)).
  { intros id. rewrite range_erase_at. case_decide; [done | apply (link_nodup _ _ Hl)]. }
  unfold remove_item. rewrite Hfind. cbv beta iota zeta delta [deref mbind chk_bind].
  destruct (_ && _).
  - destruct (link_kept _ _ Hl item_id) as [_ [item Hitem]];
      [intros Hnil; rewrite Hnil in Hin; by apply elem_of_nil in Hin |].
    pose proof (linked_class_unique R s) as Huniq.
    destruct Hl as [? ? Hkept Hclass Hgiven]. destruct s as [r2i i2r items ids next].
    simpl in *. unfold RemoveInternal. simpl. rewrite Hitem. simpl.
    assert (Hid : ids !! class item = Some item_id) by (apply Hclass; eauto).
    rewrite Hid. simpl. eexists. split; [reflexivity |]. simpl.
    split_and!; [| done | done | apply delete_subseteq].
    pose proof (proj1 Hlast eq_refl) as Hempty. split; simpl; try done.
    + intros id. rewrite range_erase_at. case_decide as Hi; [subst |].
      * rewrite lookup_delete_eq, Hempty. split; [by intros [? ?] | done].
      * rewrite lookup_delete_ne by done. apply Hkept.
    + intros c id. rewrite lookup_delete_Some, Hclass. split.
      * intros [Hc (it & Hit & <-)]. exists it. rewrite lookup_delete_Some. split; [| done].
        split; [intros <-; congruence | done].
      * intros (it & [Hne Hit]%lookup_delete_Some & <-). split; [| eauto].
        intros Heq. apply Hne. by eapply (Huniq item_id id).
    + intros id [it [_ Hit]%lookup_delete_Some]. apply Hgiven. eauto.
  - eexists. split; [reflexivity |]. destruct Hl as [? ? Hkept Hclass Hgiven].
    destruct s as [r2i i2r items ids next]. simpl in *.
    split_and!; try done. split; simpl; try done.
    intros id. rewrite range_erase_at. case_decide as Hi; [subst | apply Hkept].
    split; [| intros _; apply Hkept; intros Hnil; rewrite Hnil in Hin;
              by apply elem_of_nil in Hin].
    intros _ Hnil. apply Hlast in Hnil. congruence.
Qed.

Lemma remove_items_linked tracker ids R s :
  linked R s -> NoDup ids -> (forall id, id ∈ ids -> R tracker id) ->
  exists s', remove_items tracker ids s = Ok s' /\
    linked (fun t id => R t id /\ ~ (t = tracker /\ id ∈ ids)) s' /\
    request_tracker_id_to_item_id_ s' = request_tracker_id_to_item_id_ s /\
    next_item_id_ s' = next_item_id_ s /\ id_to_item_ s' ⊆ id_to_item_ s.
Proof.
  revert R s. induction ids as [| id ids IH]; intros R s Hl Hnd HR; simpl.
  - eexists. split_and!; [reflexivity | | done..]. eapply linked_equiv; [| done].
    intros t id. set_solver.
  - apply NoDup_cons in Hnd as [Hni Hnd].
    destruct (remove_item_linked R tracker id s Hl) as (s1 & -> & Hl1 & Hr1 & Hn1 & Hi1);
      [apply HR; by left |]. simpl.
    destruct (IH _ s1 Hl1 Hnd) as (s2 & -> & Hl2 & Hr2 & Hn2 & Hi2).
    { intros id' Hid'. split; [apply HR; by right |]. intros [_ ->]. done. }
    eexists. split; [reflexivity |]. split_and!; [| congruence | congruence | by etrans].
    eapply linked_equiv; [| exact Hl2]. intros t id'. rewrite elem_of_cons. naive_solver.
Qed.

Lemma RemoveForRequestTracker_ok tracker s :
  store_ok s ->
  exists s', RemoveForRequestTracker tracker s = Ok s' /\ store_ok s' /\
    (forall t id, refers s' t id <-> refers s t id /\ t <> tracker) /\
    next_item_id_ s' = next_item_id_ s /\ id_to_item_ s' ⊆ id_to_item_ s.
Proof.
  intros (Hl & Hnext & Hnd).
  destruct (remove_items_linked tracker _ _ s Hl (Hnd tracker) (fun _ h => h))
    as (s1 & Hrun & Hl1 & Hr1 & Hn1 & Hi1).
  set (s2 := s1 <| request_tracker_id_to_item_id_ :=
               multi_erase tracker (request_tracker_id_to_item_id_ s1) |>).
  assert (Hrefers : forall t id, refers s2 t id <-> refers s t id /\ t <> tracker).
  { intros t id. unfold refers, s2. simpl. rewrite Hr1, range_erase.
    case_decide; [subst; rewrite elem_of_nil |]; naive_solver. }
  assert (Hok2 : store_ok s2).
  { split_and!.
    - destruct Hl1 as [Ha Hb Hc Hd He]. split; try done. intros id t. rewrite Hrefers.
      etrans; [apply Ha |]. unfold refers. naive_solver.
    - simpl. lia.
    - intros t. simpl. rewrite Hr1, range_erase. case_decide; [apply NoDup_nil_2 | apply Hnd]. }
  unfold RemoveForRequestTracker, RemoveRequestTrackerItems. rewrite Hrun. simpl.
  destruct (equal_range (request_tracker_id_to_item_id_ s) tracker) as [| id ids] eqn:Hrange.
  - exists s1. split; [done |]. assert (Hsame : forall t id, refers s1 t id <-> refers s2 t id).
    { intros t id. rewrite Hrefers. unfold refers. rewrite Hr1. split; [| naive_solver].
      intros Hin. split; [done |]. intros ->. rewrite Hrange in Hin. by apply elem_of_nil in Hin. }
    split_and!; try done.
    + destruct Hok2 as ([Ha Hb Hc Hd He] & _ & _). split_and!.
      * split; try done. intros i t. rewrite Hsame. apply Ha.
      * lia.
      * intros t. rewrite Hr1. apply Hnd.
    + intros t i. by rewrite Hsame, Hrefers.
  - exists s2. split; [done |]. split_and!; try done.
Qed.

(** ** Storing *)
Lemma following_id_small id : 0 < id < INT_MAX -> following_id id = id + 1.
Proof.
  intros Hid. unfold following_id. rewrite wrap32_small by (unfold INT_MIN, INT_MAX in *; lia).
  by case_bool.
Qed.

(** The state and the identifier before the references are updated. *)
Record added (item : T) (s s' : RequestTrackerDataMemoizingStore) (id : Z) : Prop := {
  added_r2i : request_tracker_id_to_item_id_ s' = request_tracker_id_to_item_id_ s;
  added_i2r : item_id_to_request_tracker_id_ s' = item_id_to_request_tracker_id_ s;
  added_kept i : is_Some (id_to_item_ s' !! i) <-> is_Some (id_to_item_ s !! i) \/ i = id;
  added_class c i :
    item_to_id_ s' !! c = Some i <->
    exists it, id_to_item_ s' !! i = Some it /\ class it = c;
  added_given i : is_Some (id_to_item_ s' !! i) -> 0 < i < next_item_id_ s';
  added_next : next_item_id_ s <= next_item_id_ s';
}.

Definition known_or_new (item : T) (s s' : RequestTrackerDataMemoizingStore) (id : Z) : Prop :=
  (exists kept, id_to_item_ s !! id = Some kept /\ class kept = class item /\
     id_to_item_ s' = id_to_item_ s /\ next_item_id_ s' = next_item_id_ s) \/
  ((forall i kept, id_to_item_ s !! i = Some kept -> class kept <> class item) /\
   id = next_item_id_ s /\ id_to_item_ s' = <[id := item]> (id_to_item_ s) /\
   next_item_id_ s' = next_item_id_ s + 1).

Lemma find_or_add_ok item s :
  store_ok s -> next_item_id_ s < INT_MAX ->
  exists s' id, find_or_add item s = (s', id) /\ added item s s' id /\ known_or_new item s s' id.
Proof.
  intros ([_ _ _ Hclass Hgiven] & Hnext & _) Hmax. unfold find_or_add.
  destruct (item_to_id_ s !! class item) as [id |] eqn:Hid.
  - exists s, id. split; [done |]. apply Hclass in Hid as (kept & Hkept & Hc).
    split; [| by left; exists kept]. split; try done.
    intros i. split; [by left | intros [? | ->]; [done | by exists kept]].
  - exists (s <| next_item_id_ := next_item_id_ s + 1 |>
              <| id_to_item_ := <[next_item_id_ s := item]> (id_to_item_ s) |>
              <| item_to_id_ := <[class item := next_item_id_ s]> (item_to_id_ s) |>).
    exists (next_item_id_ s).
    assert (Hfresh : forall i kept, id_to_item_ s !! i = Some kept -> class kept <> class item).
    { intros i kept Hk Hc. assert (item_to_id_ s !! class item = Some i) by (apply Hclass; eauto).
      congruence. }
    assert (Hnone : id_to_item_ s !! next_item_id_ s = None).
    { destruct (id_to_item_ s !! next_item_id_ s) eqn:Hk; [| done].
      assert (0 < next_item_id_ s < next_item_id_ s) by (apply Hgiven; eauto). lia. }
    split; [by rewrite following_id_small by lia |]. split; [| by right].
    split; simpl; try done; try lia.
    + intros i. rewrite lookup_insert_is_Some. destruct (decide (next_item_id_ s = i)); naive_solver.
    + intros c i. rewrite lookup_insert_Some. setoid_rewrite lookup_insert_Some.
      destruct (decide (class item = c)) as [<- | Hc]; destruct (decide (next_item_id_ s = i)) as [<- | Hi].
      * naive_solver.
      * split; [naive_solver |]. intros (it & [[? _] | [_ Hit]] & Hcl); [done |].
        exfalso. by eapply Hfresh.
      * split; [| naive_solver]. intros [[? _] | [_ Hit]]; [done |].
        apply Hclass in Hit as (it & Hit & _). congruence.
      * rewrite Hclass. naive_solver.
    + intros i. rewrite lookup_insert_is_Some. intros [<- | [_ Hi]]; [lia |].
      apply Hgiven in Hi. lia.
Qed.

Lemma Store_ok item tracker s :
  store_ok s -> next_item_id_ s < INT_MAX ->
  exists s' id, Store (Some item) tracker s = Ok (s', id) /\ store_ok s' /\
    (forall t i, refers s' t i <-> refers s t i \/ (t = tracker /\ i = id)) /\
    known_or_new item s s' id.
Proof.
  intros Hok Hmax. destruct (find_or_add_ok item s Hok Hmax) as (s1 & id & Hrun & Hadd & Hkn).
  destruct Hok as ([Hrange Hnodup Hkept _ _] & Hnext & Hnd).
  destruct Hadd as [Hr2i Hi2r Hk Hc Hg Hn].
  unfold Store. simpl. rewrite Hrun. eexists _, id.
  assert (Hpos : 0 < id < next_item_id_ s1) by (apply Hg, Hk; by right).
  split.
  { assert (Hnz : negb (id =? 0) = true) by (case_bool; done). by rewrite Hnz. }
  assert (Hrefers : forall t i,
    i ∈ equal_range (UpdateMap (request_tracker_id_to_item_id_ s1) tracker id) t <->
    refers s t i \/ (t = tracker /\ i = id)).
  { intros t i. rewrite range_update, Hr2i. done. }
  split_and!; [| exact Hrefers |].
  - split_and!; [| simpl; lia | intros t; simpl; apply range_update_nodup; rewrite Hr2i; apply Hnd].
    split; simpl; try done.
    + intros i t. rewrite range_update, Hi2r, Hrange. unfold refers at 2. simpl.
      rewrite Hrefers. naive_solver.
    + intros i. apply range_update_nodup. by rewrite Hi2r.
    + intros i. rewrite range_update_nonempty, Hi2r, Hk, Hkept. done.
  - destruct Hkn as [(kept & ? & ? & ? & ?) | (? & ? & ? & ?)]; [left; by exists kept | by right].
Qed.

(** ** The store keeps its promise *)
Lemma number_known s (refs : gset (Z * Z)) t :
  (forall t' id, (t', id) ∈ refs <-> refers s t' id) ->
  forall s', store_ok s' -> id_to_item_ s' ⊆ id_to_item_ s ->
  (forall t' id, refers s' t' id <-> refers s t' id /\ t' <> t) ->
  id_to_item_ s' = filter (fun e => e.1 ∈ (set_map snd (filter (fun r => r.1 <> t) refs) : gset Z))
                            (id_to_item_ s).
Proof.
  intros Href s' (Hl' & _) Hsub Hrefers. apply map_eq. intros id.
  assert (Hmem : id ∈ (set_map snd (filter (fun r => r.1 <> t) refs) : gset Z) <->
                 is_Some (id_to_item_ s' !! id)).
  { rewrite (link_kept _ _ Hl'), elem_of_map. split.
    - intros ((t' & id') & -> & [Ht Hin]%elem_of_filter). simpl in *.
      apply Href in Hin. intros Hnil.
      assert (Hin' : t' ∈ equal_range (item_id_to_request_tracker_id_ s') id')
        by (apply (link_range _ _ Hl'), Hrefers; done).
      rewrite Hnil in Hin'. by apply elem_of_nil in Hin'.
    - destruct (equal_range (item_id_to_request_tracker_id_ s') id) as [| t' ts] eqn:Hr; [done |].
      intros _. assert (Hin : t' ∈ equal_range (item_id_to_request_tracker_id_ s') id)
        by (rewrite Hr; left).
      apply (link_range _ _ Hl'), Hrefers in Hin as [Hin Ht]. exists (t', id).
      split; [done |]. apply elem_of_filter. split; [done |]. by apply Href. }
  destruct (id_to_item_ s' !! id) as [it |] eqn:Hit.
  - symmetry. apply map_lookup_filter_Some. split; [by eapply lookup_weaken |]. apply Hmem. eauto.
  - symmetry. apply map_lookup_filter_None. right. intros it _ Hin. apply Hmem in Hin as [? ?]. done.
Qed.

Lemma perform_ok r s k :
  store_ok s -> represents s k -> next_item_id_ s < INT_MAX ->
  exists s' a k', perform r s = Ok (s', a) /\ store_ok s' /\ promised r k a k' /\
    represents s' k' /\ next_item_id_ s' <= next_item_id_ s + 1.
Proof.
  intros Hok Hrep Hmax. pose proof Hrep as (Href & Hent & Hnum).
  destruct k as [refs items next]. simpl in *. subst items next. destruct r as [item t | id | t]; simpl.
  - destruct (Store_ok item t s Hok Hmax) as (s' & id & -> & Hok' & Hrefers & Hkn).
    destruct Hkn as [(kept & Hk & Hc & Hi & Hn) | (Hfresh & -> & Hi & Hn)].
    + eexists s', _, _. split_and!; [done | done | by eapply known_item | | lia].
      split_and!; [| done | done]. intros t' i. rewrite Hrefers. simpl. set_solver.
    + eexists s', _, _. split_and!; [done | done | by eapply new_item | | lia].
      split_and!; [| done | done]. intros t' i. rewrite Hrefers. simpl. set_solver.
  - eexists s, _, _. split_and!; [done | done | constructor | | lia]. split_and!; done.
  - destruct (RemoveForRequestTracker_ok t s Hok) as (s' & -> & Hok' & Hrefers & Hn & Hsub).
    eexists s', _, _. simpl. split_and!; [done | done | by constructor | | lia].
    split_and!; [| symmetry; by apply number_known | done].
    intros t' id. simpl. rewrite elem_of_filter, Href, Hrefers. simpl. naive_solver.
Qed.

Lemma perform_all_ok rs s k :
  store_ok s -> represents s k -> next_item_id_ s + Z.of_nat (length rs) <= INT_MAX ->
  exists s' answers k', perform_all rs s = Ok (s', answers) /\ store_ok s' /\
    promised_all rs k answers k' /\ represents s' k'.
Proof.
  revert s k. induction rs as [| r rs IH]; intros s k Hok Hrep Hmax; simpl in *.
  - eexists s, _, _. split_and!; [done | done | constructor | done].
  - destruct (perform_ok r s k Hok Hrep) as (s1 & a & k1 & -> & Hok1 & Hp & Hrep1 & Hn); [lia |].
    destruct (IH s1 k1 Hok1 Hrep1) as (s2 & answers & k2 & Hrun & Hok2 & Hps & Hrep2); [lia |].
    simpl. rewrite Hrun. simpl. eexists s2, _, k2. split_and!; try done. by econstructor.
Qed.

Lemma new_store_ok :
  store_ok RequestTrackerDataMemoizingStore_new /\
  represents RequestTrackerDataMemoizingStore_new Catalogue_new.
Proof.
  assert (Hnone : forall key value, value ∈ equal_range ∅ key <-> False)
    by (intros key value; apply elem_of_nil).
  split; [split_and! | split_and!]; try done.
  - split; simpl.
    + intros id t. unfold refers. simpl. by rewrite !Hnone.
    + intros id. apply NoDup_nil_2.
    + intros id. split; [by intros [? ?] | done].
    + intros c id. split; [done | by intros (? & ? & _)].
    + by intros id [? ?].
  - intros t. apply NoDup_nil_2.
  - intros t id. unfold refers. simpl. rewrite Hnone. set_solver.
Qed.

Lemma destructor_spec s k :
  store_ok s -> represents s k -> (destructor s = Ok tt <-> references k = ∅).
Proof.
  intros ([Hrange _ Hkept _ _] & _) (Href & _).
  unfold destructor. rewrite dcheck_Ok, bool_decide_eq_true. split.
  - intros Hempty. apply set_eq. intros (t & id). split; [| set_solver].
    intros Hin. apply Href, Hrange in Hin.
    assert (Hsome : is_Some (id_to_item_ s !! id)).
    { apply Hkept. intros Hnil. rewrite Hnil in Hin. by apply elem_of_nil in Hin. }
    rewrite Hempty, lookup_empty in Hsome. by destruct Hsome.
  - intros Hempty. apply map_empty. intros id.
    destruct (id_to_item_ s !! id) as [it |] eqn:Hit; [| done]. exfalso.
    destruct (equal_range (item_id_to_request_tracker_id_ s) id) as [| t ts] eqn:Hr.
    + by apply (Hkept id); [eexists |].
    + assert (Hin : t ∈ equal_range (item_id_to_request_tracker_id_ s) id) by (rewrite Hr; left).
      apply Hrange, Href in Hin. rewrite Hempty in Hin. set_solver.
Qed.

(** C27. In every history shorter than the range of the numbers, no check of
    the store fails and it answers as the catalogue promises: an object is
    kept while some tracker refers to it, under a number that is given to
    nothing else, and the store can be destroyed when no references are
    left. *)
Theorem store_keeps_promise rs :
  Z.of_nat (length rs) < INT_MAX ->
  exists s answers k,
    perform_all rs RequestTrackerDataMemoizingStore_new = Ok (s, answers) /\
    promised_all rs Catalogue_new answers k /\ represents s k /\
    (destructor s = Ok tt <-> references k = ∅).
Proof.
  intros Hlen. destruct new_store_ok as [Hok Hrep].
  destruct (perform_all_ok rs _ _ Hok Hrep) as (s & answers & k & Hrun & Hok' & Hp & Hrep').
  { simpl. lia. }
  exists s, answers, k. split_and!; try done; by apply destructor_spec.
Qed.

(** ** After the last number *)

(** [a] is kept for the tracker 1 under the number 1. *)
Definition holding (a : T) (next : Z) : RequestTrackerDataMemoizingStore :=
  {| request_tracker_id_to_item_id_ := {[1 := [1]]};
     item_id_to_request_tracker_id_ := {[1 := [1]]};
     id_to_item_ := {[1 := a]}; item_to_id_ := {[class a := 1]};
     next_item_id_ := next |}.

Lemma store_and_remove a b next :
  class a <> class b -> next <> 0 -> next <> 1 ->
  exists answers, perform_all [RStore b 2; RRemove 2] (holding a next) =
                  Ok (holding a (following_id next), answers).
Proof.
  intros Hab H0 H1.
  assert (Hz : negb (next =? 0) = true) by (case_bool; done).
  eexists. cbn [perform_all perform]. unfold Store, find_or_add, holding. simpl.
  rewrite lookup_singleton_ne by done. simpl. unfold UpdateMap, multi_insert, equal_range.
  rewrite !lookup_singleton_ne by done. simpl. rewrite Hz. simpl.
  unfold RemoveForRequestTracker, RemoveRequestTrackerItems, remove_items, remove_item,
    RemoveInternal, multi_erase_at, equal_range.
  simpl. rewrite !lookup_insert_eq. simpl. rewrite !lookup_insert_eq. simpl.
  rewrite lookup_insert_eq. simpl. unfold multi_erase, set_field. simpl.
  rewrite !delete_insert_id by (by apply lookup_singleton_ne). done.
Qed.

Lemma perform_all_app rs1 rs2 s s1 answers1 :
  perform_all rs1 s = Ok (s1, answers1) ->
  perform_all (rs1 ++ rs2) s =
  ('(s2, answers2) ← perform_all rs2 s1; mret (s2, answers1 ++ answers2)).
Proof.
  revert s s1 answers1. induction rs1 as [| r rs1 IH]; intros s s1 answers1; simpl.
  - intros [= -> <-]. by destruct (perform_all rs2 s1) as [[? ?] |].
  - destruct (perform r s) as [[s' a] |]; [simpl | done].
    destruct (perform_all rs1 s') as [[s'' answers'] |] eqn:Hrun; [simpl | done].
    intros [= <- <-]. rewrite (IH _ _ _ Hrun). by destruct (perform_all rs2 s'') as [[? ?] |].
Qed.

(** The counter after [n] new items, from 2. *)
Definition counter (n : nat) : Z :=
  if 2 + Z.of_nat n =? 2 ^ 32 then 1 else wrap32 (2 + Z.of_nat n).

Lemma wrap32_unsigned m :
  0 <= m < 2 ^ 32 -> wrap32 m = if m <? 2 ^ 31 then m else m - 2 ^ 32.
Proof.
  intros Hm. destruct (Z.ltb_spec m (2 ^ 31)).
  - apply wrap32_small. unfold INT_MIN, INT_MAX. lia.
  - unfold wrap32. rewrite <- (Z.mod_unique (m + 2 ^ 31) (2 ^ 32) 1 (m - 2 ^ 31)); lia.
Qed.

Lemma counter_next n :
  2 + Z.of_nat n < 2 ^ 32 ->
  following_id (counter n) = counter (S n) /\ counter n <> 0 /\ counter n <> 1.
Proof.
  intros Hn. unfold counter, following_id. rewrite Nat2Z.inj_succ.
  set (m := 2 + Z.of_nat n) in *. replace (2 + Z.succ (Z.of_nat n)) with (m + 1) by lia.
  assert (Hm : 2 <= m < 2 ^ 32) by lia. clearbody m. clear Hn n.
  destruct (Z.eqb_spec m (2 ^ 32)); [lia |]. rewrite (wrap32_unsigned m) by lia.
  destruct (Z.ltb_spec m (2 ^ 31)).
  - split; [| lia]. destruct (Z.eqb_spec (m + 1) (2 ^ 32)); [lia |].
    rewrite (wrap32_unsigned (m + 1)) by lia. case_bool.
  - split; [| lia]. rewrite wrap32_small by (unfold INT_MIN, INT_MAX; lia). case_bool.
    rewrite (wrap32_unsigned (m + 1)) by lia. case_bool.
Qed.

Lemma numbers_run a b (n : nat) :
  class a <> class b -> 2 + Z.of_nat n <= 2 ^ 32 ->
  exists rs answers, (forall r, r ∈ rs -> r = RStore b 2 \/ r = RRemove 2) /\
    perform_all rs (holding a 2) = Ok (holding a (counter n), answers).
Proof.
  intros Hab. induction n as [| n IH]; intros Hn.
  - exists [], []. split; [by intros r ?%elem_of_nil | done].
  - destruct IH as (rs & answers & Hrs & Hrun); [lia |].
    destruct (counter_next n) as (Hnext & H0 & H1); [lia |].
    destruct (store_and_remove a b (counter n) Hab H0 H1) as [more Hmore].
    rewrite Hnext in Hmore.
    exists (rs ++ [RStore b 2; RRemove 2]), (answers ++ more). split.
    + intros r [Hr | Hr]%elem_of_app; [by apply Hrs |]. set_solver.
    + by rewrite (perform_all_app _ _ _ _ _ Hrun), Hmore.
Qed.

(** The numbers start again at 1, as the comment in [Store] says, also when 1
    stands for an object that is still referred to: the tracker 1 then gets
    another object under the number it was given. *)
Lemma numbers_are_reused a b :
  class a <> class b ->
  exists rs s answers,
    perform_all (RStore a 1 :: rs ++ [RStore b 2]) RequestTrackerDataMemoizingStore_new =
      Ok (s, Identifier 1 :: answers ++ [Identifier 1]) /\
    (forall r, r ∈ rs -> r = RStore b 2 \/ r = RRemove 2) /\
      refers s 1 1 /\ Retrieve 1 s = Some b.
Proof.
  intros Hab. destruct (numbers_run a b (Z.to_nat (2 ^ 32 - 2)) Hab) as (rs & answers & Hrs & Hrun);
    [lia |].
  assert (Hc : counter (Z.to_nat (2 ^ 32 - 2)) = 1)
    by (unfold counter; rewrite Z2Nat.id by lia; by case_bool).
  rewrite Hc in Hrun. clear Hc.
  assert (Hfirst : perform (RStore a 1) RequestTrackerDataMemoizingStore_new =
                   Ok (holding a 2, Identifier 1)) by reflexivity.
  assert (Hlast : exists s, perform_all [RStore b 2] (holding a 1) = Ok (s, [Identifier 1]) /\
                    refers s 1 1 /\ Retrieve 1 s = Some b).
  { cbn [perform_all perform]. unfold Store, find_or_add, holding. simpl.
    rewrite lookup_singleton_ne by done. simpl. eexists. split; [reflexivity |]. simpl.
    split; [vm_compute; left | done]. }
  destruct Hlast as (s & Hlast & Hr & Hb). exists rs, s, answers. cbn [perform_all].
  rewrite Hfirst. cbn [mbind chk_bind].
  rewrite (perform_all_app _ _ _ _ _ Hrun), Hlast. done.
Qed.
End store.

(** ** A store of strings, known by their text *)
Module ConcreteStore.
Definition texts : list (request (T := string)) :=
  [ RStore "a" 1; RStore "b" 1; RStore "a" 2; RRemove 1; RRetrieve 1; RRetrieve 2;
    RStore "b" 3; RRemove 2; RRetrieve 1; RRetrieve 3 ].

Definition first_store : RequestTrackerDataMemoizingStore (T := string) (C := string) :=
  RequestTrackerDataMemoizingStore_new.

Example texts_answers :
  (from_ok (first_store, []) (perform_all id texts first_store)).2 =
  [ Identifier 1; Identifier 2; Identifier 1; Done; Item (Some "a"%string); Item None;
    Identifier 3; Done; Item None; Item (Some "b"%string) ].
Proof. vm_compute. reflexivity. Qed.

Lemma store_keeps_promise_witness :
  Z.of_nat (length texts) < INT_MAX /\
  exists s answers k,
    perform_all id texts first_store = Ok (s, answers) /\
    promised_all id texts Catalogue_new answers k /\ represents s k /\
    (destructor s = Ok tt <-> references k = ∅).
Proof.
  assert (H : Z.of_nat (length texts) < INT_MAX) by evaluate.
  split; [exact H | exact (store_keeps_promise id texts H)].
Defined.
End ConcreteStore.
