(* ===== verification/CookieCache.v ===== *)
(** * The cookie cache

    [net/cookies/cookie_cache.h] and [.cc]: the cookies with a given name that
    are sent to a URL, and which of them came and went with an update.

    A [std::set] is the list of its elements in the order of its comparator;
    [std::set_difference] is the merge of two such lists.  Cookies and URLs
    are parameters. *)
From S2P Require Import Prelude.
From stdpp Require Import sorting.

(** [net::CanonicalCookie] *)
Class CookieApi := {
  CanonicalCookie : Type;
  Domain : CanonicalCookie -> string;
  Path : CanonicalCookie -> string;
  Name : CanonicalCookie -> string;
  Value : CanonicalCookie -> string;
}.

(** ** [std::set] and [std::set_difference] *)
Section std_set.
Context {A : Type} (comp : A -> A -> bool).

(** [insert(x)]: an element that is equivalent to [x] stays. *)
Fixpoint set_insert (x : A) (l : list A) : list A :=
  match l with
  | [] => [x]
  | y :: l' =>
      if comp x y then x :: l
      else if comp y x then y :: set_insert x l'
      else l
  end.

Definition set_of_range (l : list A) : list A := foldl (fun s x => set_insert x s) [] l.

Fixpoint set_difference (first1 : list A) : list A -> list A :=
  fix merge (first2 : list A) : list A :=
    match first1, first2 with
    | [], _ => []
    | _, [] => first1
    | x :: rest1, y :: rest2 =>
        if comp x y then x :: set_difference rest1 first2
        else if comp y x then merge rest2
        else set_difference rest1 rest2
    end.
End std_set.

(** ** The cache *)
Section cookie_cache.
Context `{CookieApi} {URL : Type} `{Countable URL}.
Implicit Types (cookie lhs rhs : CanonicalCookie).

Definition CookieComparator lhs rhs : bool :=
  if negb (String.eqb (Domain lhs) (Domain rhs)) then String.ltb (Domain lhs) (Domain rhs)
  else if negb (String.eqb (Path lhs) (Path rhs)) then String.ltb (Path lhs) (Path rhs)
  else if negb (String.eqb (Name lhs) (Name rhs)) then String.ltb (Name lhs) (Name rhs)
  else false.

Definition CookieAndValueComparator lhs rhs : bool :=
  if negb (String.eqb (Domain lhs) (Domain rhs)) then String.ltb (Domain lhs) (Domain rhs)
  else if negb (String.eqb (Path lhs) (Path rhs)) then String.ltb (Path lhs) (Path rhs)
  else if negb (String.eqb (Name lhs) (Name rhs)) then String.ltb (Name lhs) (Name rhs)
  else if negb (String.eqb (Value lhs) (Value rhs)) then String.ltb (Value lhs) (Value rhs)
  else false.

(** [std::set<net::CanonicalCookie, CookieComparator>] *)
Abbreviation CookieSet := (list CanonicalCookie).

Definition CookieSet_of (cookies : list CanonicalCookie) : CookieSet :=
  set_of_range CookieComparator cookies.

Abbreviation CookieKey := (URL * string)%type.

Record CookieCache := { cache_ : gmap CookieKey CookieSet }.

Definition CookieCache_new : CookieCache := {| cache_ := ∅ |}.

(** [cache_[key]], which adds an empty set when there is none. *)
Definition cache_at (key : CookieKey) (c : CookieCache) : CookieCache * CookieSet :=
  match cache_ c !! key with
  | Some cookies => (c, cookies)
  | None => ({| cache_ := <[key := []]> (cache_ c) |}, [])
  end.

(** The result, and the two vectors when they are not null. *)
Definition Update (url : URL) (name : string) (new_cookies : list CanonicalCookie)
    (out_removed_cookies out_added_cookies : option (list CanonicalCookie)) (c : CookieCache)
    : CookieCache * bool * option (list CanonicalCookie) * option (list CanonicalCookie) :=
  let key := (url, name) in
  let '(c, old_set) := cache_at key c in
  let new_set := CookieSet_of new_cookies in
  let added_cookies :=
    CookieSet_of (set_difference CookieAndValueComparator new_set old_set) in
  let removed_cookies :=
    CookieSet_of (set_difference CookieAndValueComparator old_set new_set) in
  if bool_decide (added_cookies = []) && bool_decide (removed_cookies = [])
  then (c, false, out_removed_cookies, out_added_cookies)
  else
    let c := {| cache_ := <[key := new_set]> (cache_ c) |} in
    (c, true,
     (fun out => out ++ removed_cookies) <$> out_removed_cookies,
     (fun out => out ++ added_cookies) <$> out_added_cookies).

(** ** Keys

    The comparators order cookies by some of their strings, one after the
    other. *)
Definition identity cookie : list string := [Domain cookie; Path cookie; Name cookie].

Definition tuple cookie : list string := identity cookie ++ [Value cookie].
End cookie_cache.

Fixpoint lex (l1 l2 : list string) : bool :=
  match l1, l2 with
  | _, [] => false
  | [], _ => true
  | s1 :: l1, s2 :: l2 => if String.eqb s1 s2 then lex l1 l2 else String.ltb s1 s2
  end.

Lemma lex_irrefl l : lex l l = false.
Proof. induction l as [| s l IH]; simpl; [done |]. by rewrite String.eqb_refl. Qed.

Lemma lex_total l1 l2 : lex l1 l2 = true \/ l1 = l2 \/ lex l2 l1 = true.
Proof.
  revert l2. induction l1 as [| s1 l1 IH]; intros [| s2 l2]; simpl; try tauto.
  destruct (String.eqb_spec s1 s2) as [-> | Hne].
  - rewrite String.eqb_refl. destruct (IH l2) as [| [-> |]]; tauto.
  - destruct (String.eqb_spec s2 s1) as [-> | _]; [done |]. rewrite !string_ltb_lt.
    destruct (string_lt_total s1 s2) as [| [|]]; tauto.
Qed.

Lemma lex_trans l1 l2 l3 : lex l1 l2 = true -> lex l2 l3 = true -> lex l1 l3 = true.
Proof.
  revert l2 l3. induction l1 as [| s1 l1 IH]; intros [| s2 l2] [| s3 l3]; simpl; try done.
  destruct (String.eqb_spec s1 s2) as [-> | H12]; destruct (String.eqb_spec s2 s3) as [-> | H23].
  - apply IH.
  - done.
  - by destruct (String.eqb_spec s1 s3).
  - rewrite !string_ltb_lt. intros Hl1 Hl2. pose proof (string_lt_trans _ _ _ Hl1 Hl2) as Hl.
    destruct (String.eqb_spec s1 s3) as [-> | _]; [by destruct (string_lt_irrefl s3) |].
    by apply string_ltb_lt.
Qed.

(** ** Sets ordered by a key *)
Section keyed.
Context {A : Type} (comp : A -> A -> bool) (key : A -> list string).
Context (comp_key : forall x y, comp x y = lex (key x) (key y)).

Abbreviation ordered := (StronglySorted (fun x y => lex (key x) (key y) = true)).

Lemma set_insert_elem x l y : y ∈ set_insert comp x l -> y = x \/ y ∈ l.
Proof.
  induction l as [| z l IH]; simpl; [set_solver |].
  destruct (comp x z); [set_solver |]. destruct (comp z x); set_solver.
Qed.

Lemma set_insert_ordered x l : ordered l -> ordered (set_insert comp x l).
Proof.
  induction 1 as [| y l Hs IH Hall]; simpl; [by repeat constructor |].
  rewrite !comp_key. destruct (lex (key x) (key y)) eqn:Hxy.
  - constructor; [by constructor |]. constructor; [done |].
    eapply Forall_impl; [done |]. intros z Hz. by eapply lex_trans.
  - destruct (lex (key y) (key x)) eqn:Hyx; [| by constructor].
    constructor; [done |]. apply Forall_forall. intros z [-> | Hz]%set_insert_elem; [done |].
    by rewrite Forall_forall in Hall; apply Hall.
Qed.

Lemma set_of_range_ordered l : ordered (set_of_range comp l).
Proof.
  unfold set_of_range. assert (Hnil : ordered []) by constructor. revert Hnil.
  generalize (@nil A). induction l as [| x l IH]; intros s Hs; simpl; [done |].
  by apply IH, set_insert_ordered.
Qed.

(** Inserting the elements of a set gives the set again. *)
Lemma set_insert_last x l :
  (forall y, y ∈ l -> lex (key y) (key x) = true) -> set_insert comp x l = l ++ [x].
Proof.
  induction l as [| y l IH]; intros Hlt; simpl; [done |]. rewrite !comp_key.
  pose proof (Hlt y ltac:(left)) as Hyx. rewrite Hyx.
  destruct (lex (key x) (key y)) eqn:Hxy.
  - pose proof (lex_trans _ _ _ Hxy Hyx) as Hxx. by rewrite lex_irrefl in Hxx.
  - rewrite IH; [done |]. intros z Hz. apply Hlt. by right.
Qed.

Lemma set_of_range_id l : ordered l -> set_of_range comp l = l.
Proof.
  intros Hl. unfold set_of_range.
  enough (forall s, ordered (s ++ l) -> foldl (fun s x => set_insert comp x s) s l = s ++ l) as He
    by by apply (He []).
  clear Hl. induction l as [| x l IH]; intros s Hs; simpl; [by rewrite app_nil_r |].
  rewrite set_insert_last.
  - rewrite IH; by rewrite <- app_assoc.
  - intros y Hy. by apply (StronglySorted_app_1_elem_of _ _ _ y x Hs); [| left].
Qed.

(** An insertion adds the element unless one with its key is there. *)
Lemma set_insert_keys x l k : k ∈ key <$> set_insert comp x l <-> k = key x \/ k ∈ key <$> l.
Proof.
  induction l as [| y l IH]; simpl; [set_solver |]. rewrite !comp_key.
  destruct (lex (key x) (key y)) eqn:Hxy; [set_solver |].
  destruct (lex (key y) (key x)) eqn:Hyx; simpl; rewrite !elem_of_cons; [rewrite IH; tauto |].
  destruct (lex_total (key x) (key y)) as [| [Heq |]]; [congruence | | congruence].
  rewrite Heq. tauto.
Qed.

Lemma set_of_range_keys l k : k ∈ key <$> set_of_range comp l <-> k ∈ key <$> l.
Proof.
  unfold set_of_range.
  enough (He : forall s, k ∈ key <$> foldl (fun s x => set_insert comp x s) s l <->
                         k ∈ key <$> s \/ k ∈ key <$> l)
    by (rewrite He; set_solver).
  induction l as [| x l IH]; intros s; simpl; [set_solver |].
  rewrite IH, set_insert_keys, elem_of_cons. tauto.
Qed.

Lemma elem_of_set_of_range x l : x ∈ set_of_range comp l -> x ∈ l.
Proof.
  unfold set_of_range.
  enough (He : forall s, x ∈ foldl (fun s x => set_insert comp x s) s l -> x ∈ s \/ x ∈ l)
    by (intros Hx; apply He in Hx; set_solver).
  induction l as [| y l IH]; intros s; simpl; [tauto |].
  intros [Hx%set_insert_elem |]%IH; set_solver.
Qed.

Lemma ordered_filter (P : A -> Prop) `{forall x, Decision (P x)} l :
  ordered l -> ordered (filter P l).
Proof.
  induction 1 as [| x l Hs IH Hall]; [constructor |]. rewrite filter_cons.
  case_decide; [| done]. constructor; [done |]. apply Forall_forall.
  intros y [_ Hy]%list_elem_of_filter. rewrite Forall_forall in Hall. by apply Hall.
Qed.

(** The merge of two ordered lists keeps what the second one lacks. *)
Lemma set_difference_nil l : set_difference comp [] l = [].
Proof. by destruct l. Qed.

Lemma not_in_later x y l :
  lex (key x) (key y) = true -> ordered (y :: l) -> key x ∉ key <$> y :: l.
Proof.
  intros Hxy [_ Hall]%StronglySorted_inv. simpl. rewrite elem_of_cons, list_elem_of_fmap.
  intros [Heq | (z & Heq & Hz)].
  - rewrite Heq, lex_irrefl in Hxy. done.
  - rewrite Forall_forall in Hall. pose proof (lex_trans _ _ _ Hxy (Hall z Hz)) as Hxz.
    rewrite Heq, lex_irrefl in Hxz. done.
Qed.

Lemma filter_later y l (m : list A) :
  (forall x, x ∈ m -> lex (key y) (key x) = true) ->
  filter (fun x => key x ∉ key <$> y :: l) m = filter (fun x => key x ∉ key <$> l) m.
Proof.
  induction m as [| x m IH]; intros Hm; [done |]. rewrite !filter_cons, IH by set_solver.
  assert (Hne : key x <> key y).
  { intros Heq. specialize (Hm x ltac:(left)). by rewrite Heq, lex_irrefl in Hm. }
  repeat case_decide; try done; set_solver.
Qed.

Lemma filter_none (m : list A) : filter (fun x => key x ∉ key <$> []) m = m.
Proof.
  induction m as [| x m IH]; [done |]. rewrite filter_cons, IH.
  by rewrite decide_True by (by intros ?%elem_of_nil).
Qed.

Lemma set_difference_spec l1 l2 :
  ordered l1 -> ordered l2 ->
  set_difference comp l1 l2 = filter (fun x => key x ∉ key <$> l2) l1.
Proof.
  intros H1. revert l2. induction H1 as [| x l1 Hs1 IH1 Hall1]; intros l2 H2.
  - by rewrite set_difference_nil.
  - induction H2 as [| y l2 Hs2 IH2 Hall2].
    + symmetry. apply filter_none.
    + assert (H2 : ordered (y :: l2)) by by constructor.
      simpl. fold (set_difference comp). rewrite !comp_key.
      destruct (lex (key x) (key y)) eqn:Hxy.
      { rewrite filter_cons. rewrite decide_True by by apply not_in_later.
        f_equal. by apply IH1. }
      destruct (lex (key y) (key x)) eqn:Hyx.
      { simpl in IH2. rewrite IH2. symmetry. apply filter_later.
        intros z [-> | Hz]%elem_of_cons; [done |]. rewrite Forall_forall in Hall1.
        eapply lex_trans; [done | by apply Hall1]. }
      destruct (lex_total (key x) (key y)) as [| [Heq |]]; [congruence | | congruence].
      rewrite filter_cons. rewrite decide_False by (rewrite Heq; intros Hn; apply Hn; left).
      rewrite IH1 by done. symmetry. apply filter_later. rewrite <- Heq.
      intros z Hz. rewrite Forall_forall in Hall1. by apply Hall1.
Qed.
End keyed.

(** ** What an update reports *)
Section updates.
Context `{CookieApi} {URL : Type} `{Countable URL}.
Implicit Types (c : CookieCache (URL := URL)) (cookies : list CanonicalCookie).

Abbreviation key := (URL * string)%type (only parsing).

Lemma CookieComparator_lex lhs rhs :
  CookieComparator lhs rhs = lex (identity lhs) (identity rhs).
Proof.
  unfold CookieComparator. simpl.
  destruct (String.eqb (Domain lhs) (Domain rhs)); [| done].
  destruct (String.eqb (Path lhs) (Path rhs)); [| done].
  by destruct (String.eqb (Name lhs) (Name rhs)).
Qed.

Lemma CookieAndValueComparator_lex lhs rhs :
  CookieAndValueComparator lhs rhs = lex (tuple lhs) (tuple rhs).
Proof.
  unfold CookieAndValueComparator. simpl.
  destruct (String.eqb (Domain lhs) (Domain rhs)); [| done].
  destruct (String.eqb (Path lhs) (Path rhs)); [| done].
  destruct (String.eqb (Name lhs) (Name rhs)); [| done].
  by destruct (String.eqb (Value lhs) (Value rhs)).
Qed.

Abbreviation in_order := (StronglySorted (fun x y => lex (identity x) (identity y) = true)).

Lemma identity_before_tuple lhs rhs :
  lex (identity lhs) (identity rhs) = true -> lex (tuple lhs) (tuple rhs) = true.
Proof.
  simpl. destruct (String.eqb (Domain lhs) (Domain rhs)); [| done].
  destruct (String.eqb (Path lhs) (Path rhs)); [| done].
  by destruct (String.eqb (Name lhs) (Name rhs)).
Qed.

Lemma in_order_tuples cookies :
  in_order cookies -> StronglySorted (fun x y => lex (tuple x) (tuple y) = true) cookies.
Proof.
  induction 1 as [| x l Hs IH Hall]; constructor; [done |].
  eapply Forall_impl; [done |]. intros y. apply identity_before_tuple.
Qed.

(** The cookies, up to what is neither domain, path, name nor value. *)
Definition tuples cookies : gset (list string) := list_to_set (tuple <$> cookies).

Lemma elem_of_tuples cookies t : t ∈ tuples cookies <-> t ∈ tuple <$> cookies.
Proof. apply elem_of_list_to_set. Qed.

Lemma tuples_filter l1 l2 :
  tuples (filter (fun x => tuple x ∉ tuple <$> l2) l1) = tuples l1 ∖ tuples l2.
Proof.
  apply set_eq. intros t. rewrite elem_of_difference, !elem_of_tuples, !list_elem_of_fmap.
  setoid_rewrite list_elem_of_filter. split.
  - intros (x & -> & Hn & Hx). split; [by exists x |]. intros (y & Heq & Hy). apply Hn.
    rewrite Heq. by apply list_elem_of_fmap_2.
  - intros ((x & -> & Hx) & Hn). exists x. split_and!; try done.
    intros (y & ? & ?)%list_elem_of_fmap. apply Hn. by exists y.
Qed.

Lemma tuples_nil cookies : tuples cookies = ∅ <-> cookies = [].
Proof.
  split; [| by intros ->]. destruct cookies as [| x l]; [done |].
  unfold tuples. simpl. set_solver.
Qed.

Lemma empty_difference_subseteq_L (X Y : gset (list string)) : X ∖ Y = ∅ -> X ⊆ Y.
Proof.
  intros Hd t Ht. destruct (decide (t ∈ Y)); [done |]. exfalso.
  apply (not_elem_of_empty (C := gset (list string)) t). rewrite <- Hd.
  by apply elem_of_difference.
Qed.

(** Applying the changes from [X] to [Y] to [X] gives [Y]. *)
Lemma replay_changes (X Y : gset (list string)) : (X ∖ (X ∖ Y)) ∪ (Y ∖ X) = Y.
Proof.
  apply set_eq. intros t. destruct (decide (t ∈ X)); destruct (decide (t ∈ Y)); set_solver.
Qed.

Definition cache_ok c : Prop := forall k cookies, cache_ c !! k = Some cookies -> in_order cookies.

Definition cached c (k : key) : list CanonicalCookie := default [] (cache_ c !! k).

Lemma set_changes (l1 l2 : list CanonicalCookie) :
  in_order l1 -> in_order l2 ->
  CookieSet_of (set_difference CookieAndValueComparator l1 l2) =
  filter (fun x => tuple x ∉ tuple <$> l2) l1.
Proof.
  intros H1 H2.
  rewrite (set_difference_spec _ tuple CookieAndValueComparator_lex)
    by by apply in_order_tuples.
  apply (set_of_range_id _ identity CookieComparator_lex). by apply ordered_filter.
Qed.

Lemma CookieSet_of_ordered cookies : in_order (CookieSet_of cookies).
Proof. apply set_of_range_ordered, CookieComparator_lex. Qed.

(** A whole update: the vectors grow by what went and what came, the set is
    replaced when something did. *)
Lemma Update_run url name cookies removed added c :
  cache_ok c ->
  let old := cached c (url, name) in
  let new := CookieSet_of cookies in
  let gone := filter (fun x => tuple x ∉ tuple <$> new) old in
  let come := filter (fun x => tuple x ∉ tuple <$> old) new in
  exists c' changed,
    Update url name cookies removed added c =
      (c', changed, (fun out => out ++ gone) <$> removed, (fun out => out ++ come) <$> added) /\
    cache_ok c' /\ (changed = true <-> tuples old <> tuples new) /\
    cached c' (url, name) = (if changed then new else old) /\
    (forall k, k <> (url, name) -> cached c' k = cached c k).
Proof.
  intros Hok old new gone come. unfold Update.
  assert (Hold : in_order old).
  { unfold old, cached. destruct (cache_ c !! (url, name)) eqn:Hk; [by eapply Hok | constructor]. }
  pose proof (CookieSet_of_ordered cookies) as Hnew. fold new in Hnew.
  assert (Hat : exists c1, cache_at (url, name) c = (c1, old) /\ cache_ok c1 /\
                  forall k, cached c1 k = cached c k).
  { unfold cache_at, old, cached. destruct (cache_ c !! (url, name)) eqn:Hk; [by exists c |].
    eexists. split; [done |]. split.
    - intros k l. simpl. rewrite lookup_insert_Some. intros [[_ <-] | [_ Hl]]; [constructor |].
      by eapply Hok.
    - intros k. simpl. destruct (decide ((url, name) = k)) as [<- | Hne].
      + by rewrite lookup_insert_eq, Hk.
      + by rewrite lookup_insert_ne. }
  destruct Hat as (c1 & -> & Hok1 & Hc1). fold new.
  rewrite (set_changes new old), (set_changes old new) by done. fold gone come.
  assert (Hchanged : come = [] /\ gone = [] <-> tuples old = tuples new).
  { rewrite <- !tuples_nil. unfold come, gone. rewrite !tuples_filter. split.
    - intros [H1 H2]. apply (anti_symm (⊆)); by apply empty_difference_subseteq_L.
    - intros ->. by rewrite difference_diag_L. }
  destruct (bool_decide (come = []) && bool_decide (gone = [])) eqn:Hb.
  - apply andb_prop in Hb as [->%bool_decide_eq_true ->%bool_decide_eq_true].
    exists c1, false. split_and!; [| done | naive_solver | by rewrite Hc1 | done].
    repeat f_equal; by destruct removed, added; simpl; rewrite ?app_nil_r.
  - eexists _, true. split_and!; [done | | | |].
    + intros k l. simpl. rewrite lookup_insert_Some. intros [[_ <-] | [_ Hl]]; [done |].
      by eapply Hok1.
    + split; [| done]. intros _ Heq. apply Hchanged in Heq as [-> ->]. done.
    + unfold cached. simpl. by rewrite lookup_insert_eq.
    + intros k Hk. rewrite <- Hc1. unfold cached. simpl. by rewrite lookup_insert_ne.
Qed.

(** *** A client that keeps its own sets from the reports *)
Record update := { updated : key; new_cookies : list CanonicalCookie }.

Abbreviation mirror := (gmap key (gset (list string))).

Definition listen (st : CookieCache (URL := URL) * mirror) (u : update)
    : CookieCache (URL := URL) * mirror :=
  let '(c, m) := st in
  match Update (updated u).1 (updated u).2 (new_cookies u) (Some []) (Some []) c with
  | (c, _, Some removed, Some added) =>
      (c, <[updated u := (default ∅ (m !! updated u) ∖ tuples removed) ∪ tuples added]> m)
  | (c, _, _, _) => (c, m)
  end.

Definition start : CookieCache (URL := URL) * mirror := (CookieCache_new, ∅).

Fixpoint latest (us : list update) (k : key) (before : list CanonicalCookie)
    : list CanonicalCookie :=
  match us with
  | [] => before
  | u :: us => latest us k (if decide (updated u = k) then new_cookies u else before)
  end.

(** What was last given for a URL and a name: of the cookies with the same
    domain, path and name the first. *)
Definition last_cookies (us : list update) (k : key) : gset (list string) :=
  tuples (CookieSet_of (latest us k [])).

Lemma latest_app us u k before :
  latest (us ++ [u]) k before =
  if decide (updated u = k) then new_cookies u else latest us k before.
Proof. revert before. induction us as [| v us IH]; intros before; simpl; [done | apply IH]. Qed.

Lemma listen_ok us :
  cache_ok (foldl listen start us).1 /\
  forall k, tuples (cached (foldl listen start us).1 k) = last_cookies us k /\
            default ∅ ((foldl listen start us).2 !! k) = last_cookies us k.
Proof.
  induction us as [| [[url name] cookies] us [Hok Hk]] using rev_ind; [done |].
  rewrite foldl_app. simpl. destruct (foldl listen start us) as [c m]. simpl in *.
  destruct (Update_run url name cookies (Some []) (Some []) c Hok)
    as (c' & changed & Hrun & Hok' & Hch & Hsame & Hother).
  unfold listen. simpl. rewrite Hrun. simpl. split; [done |]. intros k.
  unfold last_cookies. rewrite latest_app. simpl.
  destruct (decide ((url, name) = k)) as [<- | Hne].
  - destruct (Hk (url, name)) as [Hc Hm]. rewrite lookup_insert_eq. simpl.
    rewrite !tuples_filter, Hm, <- Hc, Hsame, replay_changes. split; [| done].
    destruct changed; [done |]. apply dec_stable. by intros ?%Hch.
  - rewrite Hother by done. rewrite lookup_insert_ne by done. apply Hk.
Qed.

(** A client that removes and adds the cookies an update reports has, for
    every URL and name, the cookies of the last update, and an update returns
    true exactly when these changed. *)
Lemma updates_report_changes us u :
  let '(c, m) := foldl listen start us in
  let '(_, changed, _, _) :=
    Update (updated u).1 (updated u).2 (new_cookies u) (Some []) (Some []) c in
  (forall k, default ∅ (m !! k) = last_cookies us k) /\
  (changed = true <-> last_cookies us (updated u) <> last_cookies (us ++ [u]) (updated u)).
Proof.
  destruct (listen_ok us) as [Hok Hk]. destruct (foldl listen start us) as [c m]. simpl in *.
  destruct u as [[url name] cookies]. simpl.
  destruct (Update_run url name cookies (Some []) (Some []) c Hok)
    as (c' & changed & -> & _ & Hch & _). simpl. split; [intros k; apply Hk |].
  rewrite Hch. destruct (Hk (url, name)) as [-> _]. unfold last_cookies at 3.
  rewrite latest_app. simpl. by rewrite decide_True.
Qed.
End updates.

(** ** Example *)
Module ConcreteCookies.
Record cookie := { domain : string; path : string; name : string; value : string;
                   secure : bool }.

#[export] Instance cookies : CookieApi := {|
  CanonicalCookie := cookie; Domain := domain; Path := path; Name := name; Value := value |}.

Definition session (v : string) (s : bool) : cookie :=
  {| domain := "a.org"; path := "/"; name := "id"; value := v; secure := s |}.

Definition seen : CookieCache (URL := string) :=
  (Update "http://a.org" "id" [session "1" false] None None CookieCache_new).1.1.1.

Example new_value_is_reported :
  (Update "http://a.org" "id" [session "2" false] (Some []) (Some []) seen).2 =
    Some [session "2" false] /\
  (Update "http://a.org" "id" [session "2" false] (Some []) (Some []) seen).1.2 =
    Some [session "1" false].
Proof. vm_compute. done. Qed.

(** A change of anything but the value goes unnoticed and is not kept. *)
Example attributes_are_not_compared :
  Update "http://a.org" "id" [session "1" true] (Some []) (Some []) seen =
  (seen, false, Some [], Some []).
Proof. vm_compute. reflexivity. Qed.
End ConcreteCookies.
