(* ===== verification/SyncSetupService.v ===== *)
(** * The sync setup service

    [chrome/browser/sync/sync_setup_service.h] and [.cc]: the choice of what is
    synchronized, held back by a blocker until it is committed.

    The sync service, with the preferences it shares, is a parameter: its
    state is threaded through the calls.  [SetSyncEnabled] and
    [SetSyncingAllDataTypes] call each other, possibly for ever: they are defined
    for at most [depth] open calls of the first, and give [None] when these are
    not enough.  Two are enough whenever the calls end (theorem
    [changes_wait_for_commit]), so that [None] at this depth is a [Fault]. *)
From S2P Require Import Prelude.

(** ** [components/sync] *)
Inductive AuthErrorState :=
| NONE | INVALID_GAIA_CREDENTIALS | USER_NOT_SIGNED_UP | CONNECTION_FAILED
| CAPTCHA_REQUIRED | ACCOUNT_DELETED | ACCOUNT_DISABLED | SERVICE_UNAVAILABLE | TWO_FACTOR
| REQUEST_CANCELED | HOSTED_NOT_ALLOWED_DEPRECATED | UNEXPECTED_SERVICE_RESPONSE
| SERVICE_ERROR | WEB_LOGIN_REQUIRED | NUM_STATES.

Class SyncApi := {
  ModelType : Type;
  ModelType_eq_dec : EqDecision ModelType;
  ModelType_countable : Countable ModelType;
  BOOKMARKS : ModelType;
  TYPED_URLS : ModelType;
  PASSWORDS : ModelType;
  PROXY_TABS : ModelType;
  AUTOFILL : ModelType;
  PREFERENCES : ModelType;
  READING_LIST : ModelType;
  UserSelectableTypes : gset ModelType;
(** [SyncService] and the [SyncPrefs] it reads *)
SyncService : Type;
GetPreferredDataTypes : SyncService -> gset ModelType;
GetActiveDataTypes : SyncService -> gset ModelType;
CanSyncStart : SyncService -> bool;
IsFirstSetupComplete : SyncService -> bool;
IsFirstSetupInProgress : SyncService -> bool;
IsSetupInProgress : SyncService -> bool;
HasUnrecoverableError : SyncService -> bool;
IsPassphraseRequiredForDecryption : SyncService -> bool;
GetAuthError : SyncService -> AuthErrorState;
HasKeepEverythingSynced : SyncService -> bool;
RequestStart : SyncService -> SyncService;
RequestStop : SyncService -> SyncService;
OnUserChoseDatatypes : bool -> gset ModelType -> SyncService -> SyncService;
SetFirstSetupComplete : SyncService -> SyncService;
(** [SyncSetupInProgressHandle] *)
Handle : Type;
GetSetupInProgressHandle : SyncService -> SyncService * Handle;
release : Handle -> SyncService -> SyncService;
}.
#[export] Existing Instance ModelType_eq_dec.
#[export] Existing Instance ModelType_countable.

(** ** Enumerations of the service *)
Inductive SyncServiceState :=
| kNoSyncServiceError | kSyncServiceSignInNeedsUpdate | kSyncServiceCouldNotConnect
| kSyncServiceServiceUnavailable | kSyncServiceNeedsPassphrase
| kSyncServiceUnrecoverableError.

Inductive SyncableDatatype :=
| kSyncBookmarks | kSyncOmniboxHistory | kSyncPasswords | kSyncOpenTabs | kSyncAutofill
| kSyncPreferences | kSyncReadingList | kNumberOfSyncableDatatypes.

Definition datatype_value (datatype : SyncableDatatype) : Z :=
  match datatype with
  | kSyncBookmarks => 0 | kSyncOmniboxHistory => 1 | kSyncPasswords => 2
  | kSyncOpenTabs => 3 | kSyncAutofill => 4 | kSyncPreferences => 5
  | kSyncReadingList => 6 | kNumberOfSyncableDatatypes => 7
  end.

(** ** The service *)
Section sync_setup.
Context `{SyncApi}.

Definition kDataTypes : list ModelType :=
  [ BOOKMARKS; TYPED_URLS; PASSWORDS; PROXY_TABS; AUTOFILL; PREFERENCES; READING_LIST ].

(** [stops_] counts what the histogram "Sync.StopSource" records. *)
Record SyncSetupService := {
  sync_service_ : SyncService;
  user_selectable_types_ : gset ModelType;
  sync_blocker_ : option Handle;
  stops_ : nat;
}.

#[export] Instance setup_fields : Fields SyncSetupService := fun s =>
  {| sync_service_ := sync_service_ s; user_selectable_types_ := user_selectable_types_ s;
     sync_blocker_ := sync_blocker_ s; stops_ := stops_ s |}.

Implicit Types (s : SyncSetupService) (datatype : ModelType).

Definition SyncSetupService_new (sync_service : SyncService) : SyncSetupService :=
  {| sync_service_ := sync_service;
     user_selectable_types_ := foldl (fun types t => {[t]} ∪ types) ∅ kDataTypes;
     sync_blocker_ := None; stops_ := 0 |}.

Definition call (f : SyncService -> SyncService) s : SyncSetupService :=
  s <| sync_service_ := f (sync_service_ s) |>.

(** [sync_blocker_ = sync_service_->GetSetupInProgressHandle()]: the handle
    that was held is given back after the new one is taken. *)
Definition block s : SyncSetupService :=
  let '(service, handle) := GetSetupInProgressHandle (sync_service_ s) in
  let service := match sync_blocker_ s with Some old => release old service | None => service end in
  s <| sync_service_ := service |> <| sync_blocker_ := Some handle |>.

Definition GetModelType (datatype : SyncableDatatype) : chk ModelType :=
  _ ← dcheck (datatype_value datatype <? vsize kDataTypes);
  vget kDataTypes (datatype_value datatype).

Definition GetDataTypes s : gset ModelType := GetPreferredDataTypes (sync_service_ s).

Definition IsDataTypeEnabled datatype s : bool :=
  bool_decide (datatype ∈ GetActiveDataTypes (sync_service_ s)).

Definition IsSyncingAllDataTypes s : bool := HasKeepEverythingSynced (sync_service_ s).

Definition IsSyncEnabled s : bool := CanSyncStart (sync_service_ s).

Definition SetSyncEnabledWithoutChangingDatatypes (sync_enabled : bool) s : SyncSetupService :=
  let s := block s in
  if sync_enabled then call RequestStart s
  else call RequestStop (s <| stops_ := S (stops_ s) |>).

(** [set_sync_enabled] is [SetSyncEnabled]. *)
Definition set_syncing_all
    (set_sync_enabled : bool -> SyncSetupService -> option SyncSetupService)
    (sync_all : bool) s : option SyncSetupService :=
  let s := block s in
  s ← (if sync_all && negb (IsSyncEnabled s) then set_sync_enabled true s else Some s);
  Some (call (OnUserChoseDatatypes sync_all (GetDataTypes s ∩ UserSelectableTypes)) s).

Fixpoint set_sync_enabled (depth : nat) (sync_enabled : bool) s : option SyncSetupService :=
  match depth with
  | O => None
  | S depth =>
      let s := SetSyncEnabledWithoutChangingDatatypes sync_enabled s in
      if sync_enabled && bool_decide (GetDataTypes s = ∅)
      then set_syncing_all (set_sync_enabled depth) true s
      else Some s
  end.

Definition max_depth : nat := 2.

(** Calls that do not end are a [Fault]. *)
Definition SetSyncEnabled (sync_enabled : bool) s : chk SyncSetupService :=
  deref (set_sync_enabled max_depth sync_enabled s).

Definition SetSyncingAllDataTypes (sync_all : bool) s : chk SyncSetupService :=
  deref (set_syncing_all (set_sync_enabled max_depth) sync_all s).

Definition SetDataTypeEnabled datatype (enabled : bool) s : chk SyncSetupService :=
  let s := block s in
  let types := GetDataTypes s in
  let types := if enabled then {[datatype]} ∪ types else types ∖ {[datatype]} in
  let types := types ∩ user_selectable_types_ s in
  let s := if enabled && negb (IsSyncEnabled s)
           then SetSyncEnabledWithoutChangingDatatypes true s else s in
  let s := call (OnUserChoseDatatypes (IsSyncingAllDataTypes s) types) s in
  if bool_decide (GetDataTypes s = ∅) then SetSyncEnabled false s else mret s.

Definition GetSyncServiceState s : chk SyncServiceState :=
  let service := sync_service_ s in
  let no_auth_error : chk SyncServiceState :=
    mret (if HasUnrecoverableError service then kSyncServiceUnrecoverableError
          else if IsPassphraseRequiredForDecryption service then kSyncServiceNeedsPassphrase
          else kNoSyncServiceError) in
  match GetAuthError service with
  | REQUEST_CANCELED => mret kSyncServiceCouldNotConnect
  | SERVICE_UNAVAILABLE => mret kSyncServiceServiceUnavailable
  | INVALID_GAIA_CREDENTIALS => mret kSyncServiceSignInNeedsUpdate
  | NONE | CONNECTION_FAILED | USER_NOT_SIGNED_UP | UNEXPECTED_SERVICE_RESPONSE =>
      no_auth_error
  | CAPTCHA_REQUIRED | ACCOUNT_DELETED | ACCOUNT_DISABLED | TWO_FACTOR
  | HOSTED_NOT_ALLOWED_DEPRECATED | SERVICE_ERROR | WEB_LOGIN_REQUIRED | NUM_STATES => Fault
  end.

Definition UserActionIsRequiredToHaveSyncWork s : chk bool :=
  if negb (IsSyncEnabled s) || negb (IsDataTypeEnabled PROXY_TABS s) then mret true
  else
    state ← GetSyncServiceState s;
    match state with
    | kNoSyncServiceError | kSyncServiceCouldNotConnect | kSyncServiceServiceUnavailable =>
        mret false
    | kSyncServiceSignInNeedsUpdate | kSyncServiceNeedsPassphrase
    | kSyncServiceUnrecoverableError => mret true
    end.

Definition HasFinishedInitialSetup s : bool :=
  negb (CanSyncStart (sync_service_ s)) || IsFirstSetupComplete (sync_service_ s).

Definition PrepareForFirstSyncSetup s : chk SyncSetupService :=
  _ ← dcheck (negb (IsFirstSetupComplete (sync_service_ s)));
  mret (block s).

Definition CommitChanges s : SyncSetupService :=
  let s :=
    if IsFirstSetupInProgress (sync_service_ s) && CanSyncStart (sync_service_ s)
    then call SetFirstSetupComplete s else s in
  match sync_blocker_ s with
  | Some handle => call (release handle) s <| sync_blocker_ := None |>
  | None => s
  end.

Definition HasUncommittedChanges s : bool := IsSetupInProgress (sync_service_ s).

(** *** Histories *)
Inductive request :=
| RSetSyncEnabled (sync_enabled : bool)
| RSetDataTypeEnabled (datatype : ModelType) (enabled : bool)
| RSetSyncingAllDataTypes (sync_all : bool)
| RPrepareForFirstSyncSetup
| RCommitChanges.

Definition perform (r : request) s : chk SyncSetupService :=
  match r with
  | RSetSyncEnabled sync_enabled => SetSyncEnabled sync_enabled s
  | RSetDataTypeEnabled datatype enabled => SetDataTypeEnabled datatype enabled s
  | RSetSyncingAllDataTypes sync_all => SetSyncingAllDataTypes sync_all s
  | RPrepareForFirstSyncSetup => PrepareForFirstSyncSetup s
  | RCommitChanges => mret (CommitChanges s)
  end.

Fixpoint perform_all (rs : list request) s : chk SyncSetupService :=
  match rs with
  | [] => mret s
  | r :: rs => s ← perform r s; perform_all rs s
  end.
End sync_setup.

(** ** The documented behaviour of the sync service

    [outstanding] is the number of handles that are held, [startable] whether
    sync starts when it is requested: it is allowed and the user is signed
    in. *)
Section laws.
Context `{SyncApi} (outstanding : SyncService -> nat) (startable : SyncService -> bool).

Record configuration := {
  can_start : bool; may_start : bool; preferred : gset ModelType; everything : bool;
  complete : bool;
}.

Definition view (service : SyncService) : configuration :=
  {| can_start := CanSyncStart service; may_start := startable service;
     preferred := GetPreferredDataTypes service;
     everything := HasKeepEverythingSynced service;
     complete := IsFirstSetupComplete service |}.

Record sync_laws : Prop := {
  selectable : forall t, t ∈ kDataTypes -> t ∈ UserSelectableTypes;
  in_progress service : IsSetupInProgress service = (0 <? outstanding service)%nat;
  first_in_progress service :
    IsFirstSetupInProgress service =
    negb (IsFirstSetupComplete service) && IsSetupInProgress service;
(** handles *)
taken service : outstanding (GetSetupInProgressHandle service).1 = S (outstanding service);
taken_view service : view (GetSetupInProgressHandle service).1 = view service;
released handle service : outstanding (release handle service) = pred (outstanding service);
released_view handle service : view (release handle service) = view service;
(** requests *)
start_held service : outstanding (RequestStart service) = outstanding service;
start_view service :
  view (RequestStart service) =
  {| can_start := startable service; may_start := startable service;
     preferred := GetPreferredDataTypes service;
     everything := HasKeepEverythingSynced service;
     complete := IsFirstSetupComplete service |};
stop_held service : outstanding (RequestStop service) = outstanding service;
stop_view service :
  view (RequestStop service) =
  {| can_start := false; may_start := startable service;
     preferred := GetPreferredDataTypes service;
     everything := HasKeepEverythingSynced service;
     complete := IsFirstSetupComplete service |};
(** choices *)
chosen_held all types service :
  outstanding (OnUserChoseDatatypes all types service) = outstanding service;
chosen_can_start all types service :
  CanSyncStart (OnUserChoseDatatypes all types service) = CanSyncStart service;
chosen_may_start all types service :
  startable (OnUserChoseDatatypes all types service) = startable service;
chosen_complete all types service :
  IsFirstSetupComplete (OnUserChoseDatatypes all types service) = IsFirstSetupComplete service;
chosen_everything all types service :
  HasKeepEverythingSynced (OnUserChoseDatatypes all types service) = all;
chosen_types all types service t :
  t ∈ UserSelectableTypes ->
  (t ∈ GetPreferredDataTypes (OnUserChoseDatatypes all types service) <->
   all = true \/ t ∈ types);
completed_held service : outstanding (SetFirstSetupComplete service) = outstanding service;
completed service : IsFirstSetupComplete (SetFirstSetupComplete service) = true;
}.

Context (laws : sync_laws).
Implicit Types (s : SyncSetupService).

Definition held s : nat := match sync_blocker_ s with Some _ => 1 | None => 0 end.

Lemma block_view s : view (sync_service_ (block s)) = view (sync_service_ s).
Proof.
  unfold block. pose proof (taken_view laws (sync_service_ s)) as Ht.
  destruct (GetSetupInProgressHandle (sync_service_ s)) as [service handle]. simpl in *.
  destruct (sync_blocker_ s); [by rewrite (released_view laws) | done].
Qed.

Lemma block_held s :
  outstanding (sync_service_ (block s)) =
    (S (outstanding (sync_service_ s)) - held s)%nat /\
  held (block s) = 1%nat /\ user_selectable_types_ (block s) = user_selectable_types_ s.
Proof.
  unfold block. pose proof (taken laws (sync_service_ s)) as Ht.
  destruct (GetSetupInProgressHandle (sync_service_ s)) as [service handle]. simpl in *.
  unfold held. destruct (sync_blocker_ s); simpl; rewrite ?(released laws);
    split_and!; done || lia.
Qed.

(** What a request leaves as it is: the handles of others, and whether the
    first setup is complete. *)
Definition keeps s s' : Prop :=
  (outstanding (sync_service_ s') + held s = outstanding (sync_service_ s) + held s')%nat /\
  user_selectable_types_ s' = user_selectable_types_ s /\
  startable (sync_service_ s') = startable (sync_service_ s) /\
  IsFirstSetupComplete (sync_service_ s') = IsFirstSetupComplete (sync_service_ s).

Lemma keeps_trans s1 s2 s3 : keeps s1 s2 -> keeps s2 s3 -> keeps s1 s3.
Proof. unfold keeps. intros (? & ? & ? & ?) (? & ? & ? & ?). split_and!; congruence || lia. Qed.

Lemma held_le s : (held s <= 1)%nat.
Proof. unfold held. destruct (sync_blocker_ s); lia. Qed.

Lemma view_fields service1 service2 :
  view service1 = view service2 ->
  CanSyncStart service1 = CanSyncStart service2 /\ startable service1 = startable service2 /\
  GetPreferredDataTypes service1 = GetPreferredDataTypes service2 /\
  HasKeepEverythingSynced service1 = HasKeepEverythingSynced service2 /\
  IsFirstSetupComplete service1 = IsFirstSetupComplete service2.
Proof. unfold view. by intros [= -> -> -> -> ->]. Qed.

Lemma keeps_block s : keeps s (block s).
Proof.
  pose proof (held_le s) as Hle.
  destruct (view_fields _ _ (block_view s)) as (_ & Hm & _ & _ & Hc).
  destruct (block_held s) as (Ho & Hh & Ht). unfold keeps. split_and!; try done. lia.
Qed.

Lemma keeps_call f s :
  outstanding (f (sync_service_ s)) = outstanding (sync_service_ s) ->
  startable (f (sync_service_ s)) = startable (sync_service_ s) ->
  IsFirstSetupComplete (f (sync_service_ s)) = IsFirstSetupComplete (sync_service_ s) ->
  keeps s (call f s) /\ held (call f s) = held s.
Proof. intros Ho Hm Hc. split; [| done]. unfold keeps, held. simpl. split_and!; congruence || lia. Qed.

(** Starting and stopping without a change of the types. *)
Lemma start_or_stop b s :
  let s' := SetSyncEnabledWithoutChangingDatatypes b s in
  keeps s s' /\ held s' = 1%nat /\
  IsSyncEnabled s' = b && startable (sync_service_ s) /\
  startable (sync_service_ s') = startable (sync_service_ s) /\
  GetDataTypes s' = GetDataTypes s /\ IsSyncingAllDataTypes s' = IsSyncingAllDataTypes s.
Proof.
  destruct (block_held s) as (_ & Hh & _).
  destruct (view_fields _ _ (block_view s)) as (_ & Hm & Hp & He & Hc).
  unfold SetSyncEnabledWithoutChangingDatatypes. destruct b; simpl.
  - pose proof (start_view laws (sync_service_ (block s))) as Hv. injection Hv as Hv1 Hv2 Hv3 Hv4 Hv5.
    split_and!; [| done | | | |].
    + eapply keeps_trans; [apply keeps_block |]. apply keeps_call; [| done | done].
      by rewrite (start_held laws).
    + by unfold IsSyncEnabled; simpl; rewrite Hv1, Hm.
    + simpl. congruence.
    + unfold GetDataTypes. simpl. congruence.
    + unfold IsSyncingAllDataTypes. simpl. congruence.
  - pose proof (stop_view laws (sync_service_ (block s))) as Hv. injection Hv as Hv1 Hv2 Hv3 Hv4 Hv5.
    split_and!; [| done | | | |].
    + eapply keeps_trans; [apply keeps_block |].
      apply (keeps_call RequestStop (block s)); [| done | done].
      by rewrite (stop_held laws).
    + unfold IsSyncEnabled. simpl. exact Hv1.
    + simpl. congruence.
    + unfold GetDataTypes. simpl. congruence.
    + unfold IsSyncingAllDataTypes. simpl. congruence.
Qed.

Lemma chosen s all types :
  keeps s (call (OnUserChoseDatatypes all types) s) /\
  held (call (OnUserChoseDatatypes all types) s) = held s.
Proof.
  apply keeps_call;
    [apply (chosen_held laws) | apply (chosen_may_start laws) | apply (chosen_complete laws)].
Qed.

(** ** Enabling and disabling *)
Lemma set_syncing_all_started f all s :
  IsSyncEnabled s = true ->
  exists s', set_syncing_all f all s = Some s' /\ keeps s s' /\ held s' = 1%nat /\
    IsSyncEnabled s' = true /\ IsSyncingAllDataTypes s' = all /\
    (forall t, t ∈ UserSelectableTypes ->
      (t ∈ GetDataTypes s' <-> all = true \/ t ∈ GetDataTypes s)).
Proof.
  intros He. destruct (view_fields _ _ (block_view s)) as (Hcs & _ & Hp & _ & _).
  destruct (block_held s) as (_ & Hh & _).
  assert (Heb : IsSyncEnabled (block s) = true) by by rewrite <- He.
  unfold set_syncing_all. rewrite Heb, andb_false_r. simpl. eexists. split; [done |].
  destruct (chosen (block s) all (GetDataTypes (block s) ∩ UserSelectableTypes)) as [Hk Hh'].
  split_and!.
  - eapply keeps_trans; [apply keeps_block | apply Hk].
  - by rewrite Hh'.
  - unfold IsSyncEnabled. simpl. by rewrite (chosen_can_start laws).
  - unfold IsSyncingAllDataTypes. simpl. by rewrite (chosen_everything laws).
  - intros t Ht. unfold GetDataTypes. simpl. rewrite (chosen_types laws) by done.
    rewrite elem_of_intersection. unfold GetDataTypes. rewrite Hp. tauto.
Qed.

(** The two functions call each other for ever. *)
Lemma endless_start depth s :
  startable (sync_service_ s) = false -> GetDataTypes s = ∅ ->
  set_sync_enabled depth true s = None.
Proof.
  revert s. induction depth as [| depth IH]; intros s Hm Ht; [done |].
  cbn [set_sync_enabled andb].
  destruct (start_or_stop true s) as (_ & _ & Hcs & Hm1 & Hp & _).
  set (s1 := SetSyncEnabledWithoutChangingDatatypes true s) in *.
  destruct (view_fields _ _ (block_view s1)) as (Hcs2 & Hm2 & Hp2 & _ & _).
  assert (Hnone : GetDataTypes s1 = ∅) by (etrans; [exact Hp | exact Ht]).
  rewrite bool_decide_eq_true_2 by done. unfold set_syncing_all.
  assert (Hoff : IsSyncEnabled (block s1) = false)
    by (unfold IsSyncEnabled in *; rewrite Hcs2, Hcs; done).
  rewrite Hoff. cbn [andb negb]. rewrite IH; [done | congruence |]. etrans; [exact Hp2 | exact Hnone].
Qed.

(** Requesting a state of sync ends and reaches that state when sync may
    start, choosing everything if no type was chosen.  When it may not start
    and there is no type, [SetSyncEnabled(true)] and [SetSyncingAllDataTypes]
    call each other for ever. *)
Lemma SetSyncEnabled_spec b s :
  (startable (sync_service_ s) = true \/ b = false \/ GetDataTypes s <> ∅ ->
   exists s', SetSyncEnabled b s = Ok s' /\ keeps s s' /\ held s' = 1%nat /\
     IsSyncEnabled s' = b && startable (sync_service_ s) /\
     (if decide (b = true /\ GetDataTypes s = ∅)
      then IsSyncingAllDataTypes s' = true /\ UserSelectableTypes ⊆ GetDataTypes s'
      else IsSyncingAllDataTypes s' = IsSyncingAllDataTypes s /\
           GetDataTypes s' = GetDataTypes s)) /\
  (startable (sync_service_ s) = false -> b = true -> GetDataTypes s = ∅ ->
   forall depth, set_sync_enabled depth b s = None).
Proof.
  split; [| intros Hm -> Ht depth; by apply endless_start].
  intros Hcase. unfold SetSyncEnabled, max_depth. cbn [set_sync_enabled].
  destruct (start_or_stop b s) as (Hk & Hh & Hon & _ & Htypes & He).
  set (s1 := SetSyncEnabledWithoutChangingDatatypes b s) in *.
  rewrite Htypes.
  destruct (decide (b = true /\ GetDataTypes s = ∅)) as [[-> Hnone] | Hsome].
  - assert (Hs : startable (sync_service_ s) = true) by naive_solver.
    rewrite bool_decide_eq_true_2 by done. cbn [andb].
    destruct (set_syncing_all_started (set_sync_enabled 1) true s1)
      as (s2 & Hrun & Hk2 & Hh2 & Hon2 & Hall & Hsel); [by rewrite Hon |].
    exists s2. split; [exact (f_equal deref Hrun) |]. split_and!; try done.
    + by eapply keeps_trans.
    + by rewrite Hon2, Hs.
    + intros t Ht. apply Hsel; [done | by left].
  - assert (Hb : b && bool_decide (GetDataTypes s = ∅) = false).
    { destruct b; [| done]. simpl. apply bool_decide_eq_false_2. naive_solver. }
    rewrite Hb. by exists s1.
Qed.

(** ** Types *)
(** When not everything is synchronized, enabling a data type enables it
    and sync, disabling it leaves the other types of the settings alone, and
    without any type left sync is stopped. *)
Lemma SetDataTypeEnabled_spec d b s :
  (forall t, t ∈ user_selectable_types_ s <-> t ∈ kDataTypes) -> d ∈ kDataTypes ->
  IsSyncingAllDataTypes s = false -> (b = true -> startable (sync_service_ s) = true) ->
  exists s', SetDataTypeEnabled d b s = Ok s' /\ keeps s s' /\ held s' = 1%nat /\
    (forall t, t ∈ kDataTypes ->
       (t ∈ GetDataTypes s' <-> if decide (t = d) then b = true else t ∈ GetDataTypes s)) /\
    IsSyncEnabled s' =
      (if decide (GetDataTypes s' = ∅) then false else b || IsSyncEnabled s).
Proof.
  intros Hus Hd Hnot Hstart. unfold SetDataTypeEnabled.
  destruct (view_fields _ _ (block_view s)) as (Hcs & Hm & Hp & He & _).
  destruct (block_held s) as (_ & Hh & Htypes). pose proof (keeps_block s) as Hk.
  rewrite Htypes. set (types := _ ∩ user_selectable_types_ s).
  assert (Hon : exists s1,
    (if b && negb (IsSyncEnabled (block s))
     then SetSyncEnabledWithoutChangingDatatypes true (block s) else block s) = s1 /\
    keeps s s1 /\ held s1 = 1%nat /\ IsSyncEnabled s1 = b || IsSyncEnabled s /\
    IsSyncingAllDataTypes s1 = false).
  { eexists. split; [done |]. destruct (b && negb (IsSyncEnabled (block s))) eqn:Hb.
    - apply andb_prop in Hb as [-> Hb]. destruct (start_or_stop true (block s)) as (Hk1 & Hh1 & Hon1 & _ & _ & He1).
      split_and!; try done.
      + by eapply keeps_trans.
      + rewrite Hon1, Hm. simpl. by apply Hstart.
      + unfold IsSyncingAllDataTypes in *. congruence.
    - split_and!; try done; [| unfold IsSyncingAllDataTypes in *; congruence].
      unfold IsSyncEnabled in *. rewrite Hcs in *.
      by destruct b, (CanSyncStart (sync_service_ s)). }
  destruct Hon as (s1 & -> & Hk1 & Hh1 & Hon1 & Hnot1). rewrite Hnot1.
  destruct (chosen s1 false types) as [Hk2 Hh2].
  set (s2 := call (OnUserChoseDatatypes false types) s1) in *.
  assert (Hon2 : IsSyncEnabled s2 = b || IsSyncEnabled s)
    by (rewrite <- Hon1; apply (chosen_can_start laws)).
  assert (Ht2 : forall t, t ∈ kDataTypes ->
    (t ∈ GetDataTypes s2 <-> if decide (t = d) then b = true else t ∈ GetDataTypes s)).
  { intros t Ht. unfold GetDataTypes at 1, s2. simpl.
    rewrite (chosen_types laws) by by apply (selectable laws). unfold types, GetDataTypes.
    rewrite elem_of_intersection, Hus, Hp. clear - Ht.
    destruct b; rewrite ?elem_of_union, ?elem_of_difference, elem_of_singleton;
      case_decide; intuition congruence. }
  assert (Hk02 : keeps s s2) by by eapply keeps_trans.
  destruct (decide (GetDataTypes s2 = ∅)) as [Hnone | Hsome].
  - rewrite bool_decide_eq_true_2 by done. unfold SetSyncEnabled, max_depth. cbn [set_sync_enabled andb].
    destruct (start_or_stop false s2) as (Hk3 & Hh3 & Hon3 & _ & Hp3 & _).
    eexists. split; [done |]. rewrite Hp3.
    split_and!; [by eapply keeps_trans | done | done |]. by rewrite decide_True.
  - rewrite bool_decide_eq_false_2 by done. exists s2. split_and!; try done. by rewrite decide_False.
Qed.

(** ** What waits for a commit *)
Definition is_commit (r : request) : bool :=
  match r with RCommitChanges => true | _ => false end.

Lemma set_syncing_all_keeps (f : bool -> SyncSetupService -> option SyncSetupService) all s s' :
  (forall s1 s2, f true s1 = Some s2 -> keeps s1 s2 /\ held s2 = 1%nat) ->
  set_syncing_all f all s = Some s' -> keeps s s' /\ held s' = 1%nat.
Proof.
  intros Hf Hrun. pose proof (keeps_block s) as Hk. destruct (block_held s) as (_ & Hh & _).
  unfold set_syncing_all in Hrun. apply bind_Some in Hrun as (s2 & H2 & [= <-]).
  destruct (chosen s2 all (GetDataTypes s2 ∩ UserSelectableTypes)) as [Hk3 Hh3].
  assert (keeps (block s) s2 /\ held s2 = 1%nat) as [Hk2 Hh2].
  { destruct (all && negb (IsSyncEnabled (block s))); [by apply Hf | by injection H2 as <-]. }
  split; [| by rewrite Hh3]. eapply keeps_trans; [done |]. by eapply keeps_trans.
Qed.

Lemma set_sync_enabled_keeps depth b s s' :
  set_sync_enabled depth b s = Some s' -> keeps s s' /\ held s' = 1%nat.
Proof.
  revert b s s'. induction depth as [| depth IH]; intros b s s'; [done |].
  cbn [set_sync_enabled]. destruct (start_or_stop b s) as (Hk & Hh & _).
  destruct (b && _).
  - intros Hrun. destruct (set_syncing_all_keeps _ _ _ _ (IH true) Hrun) as [Hk' Hh'].
    split; [by eapply keeps_trans | done].
  - by intros [= <-].
Qed.

Lemma perform_keeps r s s' :
  is_commit r = false -> perform r s = Ok s' -> keeps s s' /\ held s' = 1%nat.
Proof.
  intros Hr Hrun. destruct r as [b | d b | all | |]; simpl in Hrun; try done.
  - unfold SetSyncEnabled in Hrun. destruct (set_sync_enabled _ _ _) eqn:Hset; [| done].
    injection Hrun as <-. by eapply set_sync_enabled_keeps.
  - unfold SetDataTypeEnabled in Hrun. pose proof (keeps_block s) as Hk.
    destruct (block_held s) as (_ & Hh & _).
    set (types := _ ∩ user_selectable_types_ (block s)) in *. clearbody types.
    set (s1 := if b && _ then _ else _) in *.
    assert (keeps s s1 /\ held s1 = 1%nat) as [Hk1 Hh1].
    { unfold s1. destruct (_ && _); [| done].
      destruct (start_or_stop true (block s)) as (Hk1 & Hh1 & _).
      split; [by eapply keeps_trans | done]. }
    clearbody s1. destruct (chosen s1 (IsSyncingAllDataTypes s1) types) as [Hk2 Hh2].
    assert (Hk02 : keeps s (call (OnUserChoseDatatypes (IsSyncingAllDataTypes s1) types) s1))
      by by eapply keeps_trans.
    destruct (bool_decide _); [| injection Hrun as <-; split; [done | by rewrite Hh2]].
    unfold SetSyncEnabled in Hrun. destruct (set_sync_enabled _ _ _) eqn:Hset; [| done].
    injection Hrun as <-. destruct (set_sync_enabled_keeps _ _ _ _ Hset) as [Hk3 Hh3].
    split; [by eapply keeps_trans | done].
  - unfold SetSyncingAllDataTypes in Hrun.
    destruct (set_syncing_all _ _ _) eqn:Hset; [| done]. injection Hrun as <-.
    eapply set_syncing_all_keeps; [| done]. intros s1 s2. apply set_sync_enabled_keeps.
  - apply bind_Ok_inv in Hrun as (u & _ & [= <-]). destruct (block_held s) as (_ & Hh & _).
    split; [apply keeps_block | done].
Qed.

Lemma CommitChanges_spec s :
  let s' := CommitChanges s in
  held s' = 0%nat /\
  outstanding (sync_service_ s') = (outstanding (sync_service_ s) - held s)%nat /\
  IsFirstSetupComplete (sync_service_ s') =
  IsFirstSetupComplete (sync_service_ s) || (HasUncommittedChanges s && IsSyncEnabled s).
Proof.
  unfold CommitChanges, HasUncommittedChanges, IsSyncEnabled.
  rewrite (first_in_progress laws). set (marked := if _ && _ then _ else s).
  assert (sync_blocker_ marked = sync_blocker_ s /\
          outstanding (sync_service_ marked) = outstanding (sync_service_ s) /\
          IsFirstSetupComplete (sync_service_ marked) =
          IsFirstSetupComplete (sync_service_ s) ||
          (IsSetupInProgress (sync_service_ s) && CanSyncStart (sync_service_ s)))
    as (Hb & Ho & Hc).
  { unfold marked. destruct (IsFirstSetupComplete (sync_service_ s)) eqn:Hc; simpl.
    - split_and!; done.
    - destruct (_ && _); simpl;
        rewrite ?(completed laws), ?(completed_held laws); split_and!; done. }
  clearbody marked. rewrite Hb. unfold held. destruct (sync_blocker_ s) as [handle |] eqn:Hs; simpl.
  - destruct (view_fields _ _ (released_view laws handle (sync_service_ marked)))
      as (_ & _ & _ & _ & Hc'). rewrite (released laws), Hc', Ho. split_and!; [done | lia | done].
  - rewrite Hb. split_and!; [done | lia | done].
Qed.

Lemma perform_all_snoc rs r s s' :
  perform_all (rs ++ [r]) s = Ok s' ->
  exists s1, perform_all rs s = Ok s1 /\ perform r s1 = Ok s'.
Proof.
  revert s. induction rs as [| r' rs IH]; intros s Hrun; simpl in *.
  - apply bind_Ok_inv in Hrun as (s1 & H1 & [= <-]). by exists s.
  - apply bind_Ok_inv in Hrun as (s1 & -> & Hrun). apply IH in Hrun. done.
Qed.

(** The first setup was marked as complete by a commit of [rs], made while sync
    was enabled and changes were pending. *)
Definition committed_on (service : SyncService) (rs : list request) : Prop :=
  exists rs1 rs2 s1, rs = rs1 ++ RCommitChanges :: rs2 /\
    perform_all rs1 (SyncSetupService_new service) = Ok s1 /\
    IsSyncEnabled s1 = true /\ HasUncommittedChanges s1 = true.

(** ** What does not end *)

(** Sync does not start when it is requested, and no type is chosen. *)
Definition cannot_start s : Prop :=
  startable (sync_service_ s) = false /\ GetDataTypes s = ∅.

(** The two functions call each other for ever: no depth is enough. *)
Definition never_returns (r : request) s : Prop :=
  match r with
  | RSetSyncEnabled b => forall depth, set_sync_enabled depth b s = None
  | RSetSyncingAllDataTypes all => forall depth, set_syncing_all (set_sync_enabled depth) all s = None
  | RSetDataTypeEnabled _ _ | RPrepareForFirstSyncSetup | RCommitChanges => False
  end.

Definition endless (r : request) s : Prop :=
  match r with
  | RSetSyncEnabled true => cannot_start s
  | RSetSyncingAllDataTypes true => IsSyncEnabled s = false /\ cannot_start s
  | _ => False
  end.

Lemma set_sync_enabled_some b s :
  ~ endless (RSetSyncEnabled b) s -> exists s', set_sync_enabled max_depth b s = Some s'.
Proof.
  intros Hno. destruct (SetSyncEnabled_spec b s) as [Hends _].
  destruct Hends as (s' & Hrun & _).
  - destruct b; [| right; by left]. destruct (decide (GetDataTypes s = ∅)); [| right; by right].
    left. destruct (startable (sync_service_ s)) eqn:Hm; [done |]. exfalso. by apply Hno.
  - unfold SetSyncEnabled in Hrun. destruct (set_sync_enabled _ _ _); [by eexists | done].
Qed.

Lemma block_endless b s : endless (RSetSyncEnabled b) (block s) <-> endless (RSetSyncEnabled b) s.
Proof.
  destruct (view_fields _ _ (block_view s)) as (_ & Hm & Hp & _). unfold endless, cannot_start, GetDataTypes.
  by rewrite Hm, Hp.
Qed.

Lemma set_syncing_all_some all s :
  ~ endless (RSetSyncingAllDataTypes all) s ->
  exists s', set_syncing_all (set_sync_enabled max_depth) all s = Some s'.
Proof.
  intros Hno. destruct (view_fields _ _ (block_view s)) as (Hcs & _).
  unfold set_syncing_all, IsSyncEnabled. rewrite Hcs.
  destruct all; [| eexists; reflexivity].
  destruct (CanSyncStart (sync_service_ s)) eqn:Hon; [eexists; reflexivity |].
  destruct (set_sync_enabled_some true (block s)) as [s' Hs'].
  { intros Hend. apply Hno. apply (proj1 (block_endless true s)) in Hend. exact (conj Hon Hend). }
  cbn [andb negb]. rewrite Hs'. eexists. reflexivity.
Qed.

Lemma endless_dec r s : endless r s \/ ~ endless r s.
Proof.
  destruct r as [[] | | [] | |]; simpl; try by right.
  all: unfold cannot_start; destruct (startable (sync_service_ s)), (IsSyncEnabled s),
    (decide (GetDataTypes s = ∅)); tauto || (right; intuition discriminate).
Qed.

Lemma endless_never r s : endless r s <-> never_returns r s.
Proof.
  split.
  - destruct r as [[] | | [] | |]; try done; simpl.
    + intros [Hm Ht] depth. by apply endless_start.
    + intros (Hon & Hend) depth. destruct (view_fields _ _ (block_view s)) as (Hcs & Hm & Hp & _).
      unfold set_syncing_all, IsSyncEnabled in *. rewrite Hcs, Hon. cbn [andb negb].
      destruct Hend as [Hm' Ht]. rewrite endless_start; [done | congruence |].
      unfold GetDataTypes in *. congruence.
  - destruct (endless_dec r s) as [? | Hno]; [done |].
    destruct r as [b | | all | |]; try done; simpl; intros Hnever.
    + destruct (set_sync_enabled_some b s Hno) as [s' Hs']. by rewrite Hnever in Hs'.
    + destruct (set_syncing_all_some all s Hno) as [s' Hs']. by rewrite Hnever in Hs'.
Qed.

Lemma perform_fault r s :
  perform r s = Fault <->
  never_returns r s \/
  (r = RPrepareForFirstSyncSetup /\ IsFirstSetupComplete (sync_service_ s) = true).
Proof.
  split.
  - intros Hrun. rewrite <- endless_never. destruct (endless_dec r s) as [? | Hno]; [by left |]. right.
    destruct r as [b | d b | all | |]; simpl in *; try done.
    + unfold SetSyncEnabled in *. by destruct (set_sync_enabled_some b s Hno) as [s' Hs]; rewrite Hs in *.
    + exfalso. revert Hrun. unfold SetDataTypeEnabled. destruct (bool_decide _); [| done].
      unfold SetSyncEnabled. match goal with |- context [set_sync_enabled _ _ ?x] =>
        destruct (set_sync_enabled_some false x) as [s' Hs]; [by intros [] | by rewrite Hs] end.
    + unfold SetSyncingAllDataTypes in *.
      by destruct (set_syncing_all_some all s Hno) as [s' Hs]; rewrite Hs in *.
    + unfold PrepareForFirstSyncSetup in *. by destruct (IsFirstSetupComplete _).
  - intros [Hnever | [-> Hc]].
    + destruct r as [b | | all | |]; try done; simpl in *; unfold SetSyncEnabled, SetSyncingAllDataTypes;
        by rewrite Hnever.
    + unfold perform, PrepareForFirstSyncSetup. by rewrite Hc.
Qed.

(** C31. In every history the service holds one handle of the sync service
    after a change and none after a commit, so that there are uncommitted
    changes in between; and the first setup is complete only when a commit
    was made with sync enabled.  Every request ends without a failed check but
    two: [PrepareForFirstSyncSetup] when the first setup is complete, and a
    request to enable sync, or to synchronize everything while sync is off, when
    no type is chosen and sync does not start on request: then [SetSyncEnabled]
    and [SetSyncingAllDataTypes] call each other for ever. *)
Theorem changes_wait_for_commit service rs s :
  perform_all rs (SyncSetupService_new service) = Ok s ->
  held s = (match last rs with Some r => if is_commit r then 0 else 1 | None => 0 end)%nat /\
  outstanding (sync_service_ s) = (outstanding service + held s)%nat /\
  HasUncommittedChanges s = (0 <? outstanding service + held s)%nat /\
  (IsFirstSetupComplete (sync_service_ s) = true ->
   IsFirstSetupComplete service = true \/ committed_on service rs) /\
  (forall r, perform r s = Fault <->
     never_returns r s \/
     (r = RPrepareForFirstSyncSetup /\ IsFirstSetupComplete (sync_service_ s) = true)) /\
  (forall r, never_returns r s <-> endless r s).
Proof.
  intros Hrun. unfold HasUncommittedChanges. rewrite (in_progress laws).
  enough (He : held s = (match last rs with Some r => if is_commit r then 0 else 1 | None => 0 end)%nat /\
    outstanding (sync_service_ s) = (outstanding service + held s)%nat /\
    (IsFirstSetupComplete (sync_service_ s) = true ->
     IsFirstSetupComplete service = true \/ committed_on service rs)).
  { destruct He as (Hh & Ho & Hc). rewrite Ho. split_and!; try done.
    - intros r. apply perform_fault.
    - intros r. by rewrite endless_never. }
  revert s Hrun. induction rs as [| r rs IH] using rev_ind; intros s Hrun.
  { injection Hrun as <-. simpl. unfold held. simpl. split_and!; [done | lia | by left]. }
  apply perform_all_snoc in Hrun as (s1 & Hrun1 & Hrun). rewrite last_snoc.
  destruct (IH s1 Hrun1) as (_ & Ho1 & Hc1).
  assert (Hmore : committed_on service rs -> committed_on service (rs ++ [r])).
  { intros (rs1 & rs2 & s2 & -> & ?). exists rs1, (rs2 ++ [r]), s2.
    split; [by rewrite <- app_assoc | done]. }
  destruct (is_commit r) eqn:Hr.
  - destruct r; try done. injection Hrun as <-.
    destruct (CommitChanges_spec s1) as (Hh & Ho & Hc). split_and!; [done | lia |].
    rewrite Hc, orb_true_iff, andb_true_iff. intros [Hold | [Hun Hon]].
    + destruct (Hc1 Hold) as [? | ?]; [by left | right; by apply Hmore].
    + right. by exists rs, [], s1.
  - destruct (perform_keeps r s1 s Hr Hrun) as ((Ho & _ & _ & Hc) & Hh).
    split_and!; [done | lia |]. rewrite Hc. intros Hold.
    destruct (Hc1 Hold) as [? | ?]; [by left | right; by apply Hmore].
Qed.
End laws.

(** ** Queries *)
Section queries.
Context `{SyncApi}.

Lemma selectable_types (s : SyncSetupService) service :
  user_selectable_types_ (SyncSetupService_new service) = user_selectable_types_ s ->
  forall t, t ∈ user_selectable_types_ s <-> t ∈ kDataTypes.
Proof. intros <- t. unfold SyncSetupService_new, kDataTypes. simpl. set_solver. Qed.

Lemma GetModelType_spec datatype :
  is_ok (GetModelType datatype) <-> datatype <> kNumberOfSyncableDatatypes.
Proof. destruct datatype; cbv; split; try done; try (by eexists); by intros [? ?]. Qed.

(** Sync works without the user unless it is off, does not get the tabs, or
    has an error that only the user can solve. *)
Lemma UserActionIsRequired_spec (s : SyncSetupService) :
  UserActionIsRequiredToHaveSyncWork s = Ok false <->
  IsSyncEnabled s = true /\ IsDataTypeEnabled PROXY_TABS s = true /\
  match GetAuthError (sync_service_ s) with
  | REQUEST_CANCELED | SERVICE_UNAVAILABLE => True
  | NONE | CONNECTION_FAILED | USER_NOT_SIGNED_UP | UNEXPECTED_SERVICE_RESPONSE =>
      HasUnrecoverableError (sync_service_ s) = false /\
      IsPassphraseRequiredForDecryption (sync_service_ s) = false
  | _ => False
  end.
Proof.
  unfold UserActionIsRequiredToHaveSyncWork, GetSyncServiceState.
  destruct (IsSyncEnabled s), (IsDataTypeEnabled PROXY_TABS s); simpl; try naive_solver.
  destruct (GetAuthError (sync_service_ s)); simpl; try naive_solver;
    destruct (HasUnrecoverableError (sync_service_ s)),
      (IsPassphraseRequiredForDecryption (sync_service_ s)); naive_solver.
Qed.
End queries.

(** ** A concrete sync service *)
Module ConcreteSync.
Record service := {
  chosen : gset string; all_types : bool; signed_in : bool; on : bool; set_up : bool;
  handles : nat;
}.

Definition selectable_names : list string :=
  ["bookmarks"; "typed urls"; "passwords"; "tabs"; "autofill"; "preferences";
   "reading list"; "themes"].

Definition selectable_set : gset string := list_to_set selectable_names.

#[export] Instance api : SyncApi := {|
  ModelType := string;
  BOOKMARKS := "bookmarks"; TYPED_URLS := "typed urls"; PASSWORDS := "passwords";
  PROXY_TABS := "tabs"; AUTOFILL := "autofill"; PREFERENCES := "preferences";
  READING_LIST := "reading list";
  UserSelectableTypes := selectable_set;
  SyncService := service;
  GetPreferredDataTypes := chosen;
  GetActiveDataTypes s := if on s then chosen s else ∅;
  CanSyncStart := on;
  IsFirstSetupComplete := set_up;
  IsFirstSetupInProgress s := negb (set_up s) && (0 <? handles s)%nat;
  IsSetupInProgress s := (0 <? handles s)%nat;
  HasUnrecoverableError _ := false;
  IsPassphraseRequiredForDecryption _ := false;
  GetAuthError _ := NONE;
  HasKeepEverythingSynced := all_types;
  RequestStart s := {| chosen := chosen s; all_types := all_types s; signed_in := signed_in s;
                       on := signed_in s; set_up := set_up s; handles := handles s |};
  RequestStop s := {| chosen := chosen s; all_types := all_types s; signed_in := signed_in s;
                      on := false; set_up := set_up s; handles := handles s |};
  OnUserChoseDatatypes all types s :=
    {| chosen := if all then selectable_set else types; all_types := all;
       signed_in := signed_in s; on := on s; set_up := set_up s; handles := handles s |};
  SetFirstSetupComplete s :=
    {| chosen := chosen s; all_types := all_types s; signed_in := signed_in s;
       on := on s; set_up := true; handles := handles s |};
  Handle := unit;
  GetSetupInProgressHandle s :=
    ({| chosen := chosen s; all_types := all_types s; signed_in := signed_in s;
        on := on s; set_up := set_up s; handles := S (handles s) |}, tt);
  release _ s :=
    {| chosen := chosen s; all_types := all_types s; signed_in := signed_in s;
       on := on s; set_up := set_up s; handles := pred (handles s) |};
|}.

Lemma concrete_sync_laws : sync_laws handles signed_in.
Proof.
  split; try done.
  - intros t. unfold kDataTypes. simpl. intros Ht. apply elem_of_list_to_set. unfold selectable_names.
    set_solver.
  - intros all types s t Ht. simpl. destruct all; simpl; naive_solver.
Qed.

Definition signed_in_user : service :=
  {| chosen := {["bookmarks"; "tabs"]}; all_types := false; signed_in := true; on := false;
     set_up := false; handles := 0 |}.

Definition no_types : service :=
  {| chosen := ∅; all_types := false; signed_in := true; on := false; set_up := false;
     handles := 0 |}.

Definition setup : list request :=
  [RPrepareForFirstSyncSetup; RSetSyncEnabled true; RSetDataTypeEnabled "passwords"%string true;
   RCommitChanges; RSetDataTypeEnabled "tabs"%string false].

Definition before : SyncSetupService := SyncSetupService_new signed_in_user.
Definition after : SyncSetupService := from_ok before (perform_all setup before).

Example setup_chooses :
  (set_up (sync_service_ after), handles (sync_service_ after), on (sync_service_ after)) =
  (true, 1%nat, true).
Proof. vm_compute. reflexivity. Qed.

Lemma changes_wait_for_commit_witness :
  perform_all setup before = Ok after /\ HasUncommittedChanges after = true.
Proof.
  assert (Hrun : perform_all setup before = Ok after) by (apply okb_run; vm_compute; reflexivity).
  split; [exact Hrun |].
  destruct (changes_wait_for_commit (H := api) handles signed_in concrete_sync_laws
              signed_in_user setup after Hrun) as (Hh & _ & Hun & _).
  rewrite Hun, Hh. vm_compute. reflexivity.
Defined.

Definition signed_out : service :=
  {| chosen := ∅; all_types := false; signed_in := false; on := false; set_up := false;
     handles := 0 |}.

(** A user who is signed out and has no types enables sync. *)
Example signed_out_never_returns :
  perform (RSetSyncEnabled true) (SyncSetupService_new signed_out) = Fault.
Proof. vm_compute. reflexivity. Qed.

Lemma SetDataTypeEnabled_spec_witness :
  exists s', SetDataTypeEnabled "passwords"%string true before = Ok s' /\
    ("tabs"%string ∈ GetDataTypes s' /\ "passwords"%string ∈ GetDataTypes s').
Proof.
  destruct (SetDataTypeEnabled_spec (H := api) handles signed_in concrete_sync_laws
              "passwords"%string true before) as (s' & Hrun & _ & _ & Htypes & _).
  - apply (selectable_types before signed_in_user). reflexivity.
  - decide_closed.
  - reflexivity.
  - reflexivity.
  - exists s'. split; [exact Hrun |]. split; apply Htypes; decide_closed.
Defined.

Definition without_types : SyncSetupService := SyncSetupService_new no_types.

Lemma SetSyncEnabled_spec_witness :
  exists s', SetSyncEnabled true without_types = Ok s' /\
    IsSyncingAllDataTypes s' = true.
Proof.
  destruct (SetSyncEnabled_spec (H := api) handles signed_in concrete_sync_laws true
              without_types) as [Hends _].
  destruct (Hends (or_introl eq_refl)) as (s' & Hrun & _ & _ & _ & Htypes).
  exists s'. split; [exact Hrun |]. rewrite decide_True in Htypes by (split; reflexivity).
  exact (proj1 Htypes).
Defined.
End ConcreteSync.
