(* ===== verification/CertificatePolicies.v ===== *)
(** * Certificate policies

    [web/net/cert_policy.cc], [cert_host_pair.cc] and
    [certificate_policy_cache.cc], with
    [web/web_state/session_certificate_policy_cache_impl.mm]: which
    certificates with errors the user has accepted, for which hosts.

    A [net::CertStatus] is a 32-bit word.  Certificates are parameters; a
    function that may be called on one thread only takes the thread [on]. *)
From S2P Require Import Prelude WebThread.

(** ** Code outside of the repository *)
Class CertificateApi := {
(** [net::X509Certificate] *)
X509Certificate : Type;
OSCertHandle : Type;
os_cert_handle : X509Certificate -> OSCertHandle;
GetIntermediateCertificates : X509Certificate -> list OSCertHandle;
CreateFromHandle : OSCertHandle -> list OSCertHandle -> option X509Certificate;
(** [net::SHA256HashValue], ordered by [net::SHA256HashValueLessThan] *)
SHA256HashValue : Type;
hash_eq_dec : EqDecision SHA256HashValue;
hash_countable : Countable SHA256HashValue;
SHA256HashValueLessThan : SHA256HashValue -> SHA256HashValue -> bool;
CalculateChainFingerprint256 : OSCertHandle -> list OSCertHandle -> SHA256HashValue;
}.
#[export] Existing Instance hash_eq_dec.
#[export] Existing Instance hash_countable.

(** [~x] on [net::CertStatus], a [uint32_t]. *)
Definition not32 (x : Z) : Z := Z.land (Z.lnot x) (Z.ones 32).

Inductive Judgment := UNKNOWN | ALLOWED | DENIED.

#[export] Instance Judgment_eq_dec : EqDecision Judgment.
Proof. solve_decision. Defined.

Section policies.
Context `{CertificateApi}.
Implicit Types (cert : X509Certificate) (host : string) (error : Z) (on : ID).

(** [DCHECK_CURRENTLY_ON(thread)] on the thread [on]. *)
Definition check_on (thread on : ID) : chk unit := dcheck (bool_decide (on = thread)).

Definition fingerprint cert : SHA256HashValue :=
  CalculateChainFingerprint256 (os_cert_handle cert) (GetIntermediateCertificates cert).

(** ** [CertPolicy] *)
Record CertPolicy := { allowed_ : gmap SHA256HashValue Z }.

Definition CertPolicy_new : CertPolicy := {| allowed_ := ∅ |}.

Definition CertPolicy_Check cert error (p : CertPolicy) : Judgment :=
  match allowed_ p !! fingerprint cert with
  | Some second =>
      if negb (Z.land second error =? 0) &&
         (Z.lxor (not32 (Z.land second error)) (not32 error) =? 0)
      then ALLOWED else UNKNOWN
  | None => UNKNOWN
  end.

Definition CertPolicy_Allow cert error (p : CertPolicy) : CertPolicy :=
  {| allowed_ := <[fingerprint cert := error]> (allowed_ p) |}.

(** ** [CertHostPair] *)
Record CertHostPair := { cert_ : X509Certificate; host_ : string; cert_hash_ : SHA256HashValue }.

Definition CertHostPair_new cert host : CertHostPair :=
  {| cert_ := cert; host_ := host; cert_hash_ := fingerprint cert |}.

(** [operator<] *)
Definition CertHostPair_lt (lhs other : CertHostPair) : bool :=
  if negb (String.eqb (host_ lhs) (host_ other)) then String.ltb (host_ lhs) (host_ other)
  else SHA256HashValueLessThan (cert_hash_ lhs) (cert_hash_ other).

(** ** [CertificatePolicyCache] *)
Record CertificatePolicyCache := { cert_policy_for_host_ : gmap string CertPolicy }.

Definition CertificatePolicyCache_new : CertificatePolicyCache := {| cert_policy_for_host_ := ∅ |}.

(** [cert_policy_for_host_[host]] *)
Definition policy_for host (c : CertificatePolicyCache) : CertPolicy :=
  default CertPolicy_new (cert_policy_for_host_ c !! host).

Definition AllowCertForHost on cert host error (c : CertificatePolicyCache)
    : chk CertificatePolicyCache :=
  _ ← check_on IO on;
  mret {| cert_policy_for_host_ :=
            <[host := CertPolicy_Allow cert error (policy_for host c)]> (cert_policy_for_host_ c) |}.

(** The query adds an empty policy for a host without one. *)
Definition QueryPolicy on cert host error (c : CertificatePolicyCache)
    : chk (CertificatePolicyCache * Judgment) :=
  _ ← check_on IO on;
  let policy := policy_for host c in
  mret ({| cert_policy_for_host_ := <[host := policy]> (cert_policy_for_host_ c) |},
        CertPolicy_Check cert error policy).

Definition ClearCertificatePolicies on (c : CertificatePolicyCache) : chk CertificatePolicyCache :=
  _ ← check_on IO on;
  mret {| cert_policy_for_host_ := ∅ |}.

(** ** [SessionCertificatePolicyCacheImpl] *)

(** The certificate is null when it was read from bytes that are none. *)
Record CRWSessionCertificateStorage := {
  storage_certificate : option X509Certificate;
  storage_host : string;
  storage_status : Z;
}.

(** [allowed_certs_] is a set of objects, each made by one registration, or
    nil; its enumeration has no particular order. *)
Record SessionCertificatePolicyCacheImpl := {
  allowed_certs_ : option (list CRWSessionCertificateStorage) }.

(** Its members. *)
Definition allowed_certs (c : SessionCertificatePolicyCacheImpl)
    : list CRWSessionCertificateStorage := default [] (allowed_certs_ c).

Definition SessionCertificatePolicyCacheImpl_new : SessionCertificatePolicyCacheImpl :=
  {| allowed_certs_ := Some [] |}.

(** A message to nil does nothing. *)
Definition RegisterAllowedCertificate on cert host (status : Z)
    (c : SessionCertificatePolicyCacheImpl) : chk SessionCertificatePolicyCacheImpl :=
  _ ← check_on UI on;
  mret {| allowed_certs_ :=
            cons {| storage_certificate := Some cert; storage_host := host;
                    storage_status := status |} <$> allowed_certs_ c |}.

Definition ClearAllowedCertificates on (c : SessionCertificatePolicyCacheImpl)
    : chk SessionCertificatePolicyCacheImpl :=
  _ ← check_on UI on;
  mret {| allowed_certs_ := (fun _ => []) <$> allowed_certs_ c |}.

Definition SetAllowedCerts (allowed_certs : option (list CRWSessionCertificateStorage))
    (c : SessionCertificatePolicyCacheImpl) : SessionCertificatePolicyCacheImpl :=
  {| allowed_certs_ := allowed_certs |}.

Definition GetAllowedCerts (c : SessionCertificatePolicyCacheImpl)
    : option (list CRWSessionCertificateStorage) := allowed_certs_ c.

(** The block [UpdateCertificatePolicyCache] posts to the IO thread, for one
    order of enumeration of its set. *)
Fixpoint allow_all on (certs : list CRWSessionCertificateStorage) (c : CertificatePolicyCache)
    : chk CertificatePolicyCache :=
  match certs with
  | [] => mret c
  | cert :: certs =>
      certificate ← deref (storage_certificate cert);
      c ← AllowCertForHost on certificate (storage_host cert) (storage_status cert) c;
      allow_all on certs c
  end.

(** The set that the block enumerates. *)
Definition UpdateCertificatePolicyCache on (c : SessionCertificatePolicyCacheImpl)
    : chk (list CRWSessionCertificateStorage) :=
  _ ← check_on UI on;
  mret (allowed_certs c).

(** *** Histories of the cache *)
Inductive request :=
| RAllow cert host error
| RQuery cert host error
| RClear.

Definition perform (r : request) (c : CertificatePolicyCache)
    : chk (CertificatePolicyCache * option Judgment) :=
  match r with
  | RAllow cert host error => c ← AllowCertForHost IO cert host error c; mret (c, None)
  | RQuery cert host error =>
      '(c, judgment) ← QueryPolicy IO cert host error c; mret (c, Some judgment)
  | RClear => c ← ClearCertificatePolicies IO c; mret (c, None)
  end.

Fixpoint perform_all (rs : list request) (c : CertificatePolicyCache)
    : chk CertificatePolicyCache :=
  match rs with
  | [] => mret c
  | r :: rs => '(c, _) ← perform r c; perform_all rs c
  end.

(** The errors for which a certificate was last allowed for a host since the
    last clearing, if it was. *)
Fixpoint last_allowed (host : string) (hash : SHA256HashValue) (rs : list request)
    (before : option Z) : option Z :=
  match rs with
  | [] => before
  | RAllow cert host' error :: rs =>
      last_allowed host hash rs
        (if bool_decide (host' = host /\ fingerprint cert = hash) then Some error else before)
  | RQuery _ _ _ :: rs => last_allowed host hash rs before
  | RClear :: rs => last_allowed host hash rs None
  end.

(** ** Words *)
Definition is_status (error : Z) : Prop := 0 <= error < 2 ^ 32.

Lemma not32_value x : is_status x -> not32 x = 2 ^ 32 - 1 - x.
Proof.
  intros Hx. unfold not32, is_status in *. rewrite Z.land_ones by lia.
  unfold Z.lnot. rewrite <- (Z.mod_unique (Z.pred (- x)) (2 ^ 32) (-1) (2 ^ 32 - 1 - x)); lia.
Qed.

Lemma is_status_land a b : is_status a -> is_status b -> is_status (Z.land a b).
Proof.
  unfold is_status. intros Ha Hb.
  assert (Hn : 0 <= Z.land a b) by (apply Z.land_nonneg; lia).
  apply Z.bounded_iff_bits_nonneg'; try lia. intros l Hl. rewrite Z.land_spec.
  apply andb_false_iff. left. by apply (proj1 (Z.bounded_iff_bits_nonneg' 32 a ltac:(lia) ltac:(lia)) Ha).
Qed.

Lemma land_subset a b : Z.land a b = b <-> forall i, Z.testbit b i = true -> Z.testbit a i = true.
Proof.
  split.
  - intros Heq i Hi. rewrite <- Heq, Z.land_spec in Hi. by apply andb_prop in Hi as [? _].
  - intros Hsub. apply Z.bits_inj. intros i. rewrite Z.land_spec. specialize (Hsub i).
    destruct (Z.testbit b i); [rewrite Hsub by done; done | apply andb_false_r].
Qed.

(** What the arithmetic of [Check] decides. *)
Definition covers (allowed error : Z) : Prop :=
  error <> 0 /\ forall i, Z.testbit error i = true -> Z.testbit allowed i = true.

Lemma Check_spec cert error p :
  is_status error -> (forall hash a, allowed_ p !! hash = Some a -> is_status a) ->
  CertPolicy_Check cert error p <> DENIED /\
  (CertPolicy_Check cert error p = ALLOWED <->
   exists a, allowed_ p !! fingerprint cert = Some a /\ covers a error).
Proof.
  intros He Hp. unfold CertPolicy_Check.
  destruct (allowed_ p !! fingerprint cert) as [a |] eqn:Ha.
  2: { split; [done |]. split; [done |]. by intros (? & ? & _). }
  pose proof (Hp _ _ Ha) as Hs. pose proof (is_status_land _ _ Hs He) as Hl.
  assert (Hx : (Z.lxor (not32 (Z.land a error)) (not32 error) =? 0) = true <-> Z.land a error = error).
  { rewrite Z.eqb_eq, Z.lxor_eq_0_iff, !not32_value by done. unfold is_status in *. lia. }
  destruct (negb (Z.land a error =? 0) && _) eqn:Hb.
  - split; [done |]. split; [intros _ | done]. exists a. split; [done |].
    apply andb_prop in Hb as [Hb1 Hb2%Hx]. split; [| by apply land_subset].
    intros ->. by rewrite Z.land_0_r in Hb1.
  - split; [done |]. split; [done |]. intros (a' & [= <-] & Hne & Hsub%land_subset).
    apply andb_false_iff in Hb as [Hb | Hb].
    + rewrite Hsub in Hb. by destruct (Z.eqb_spec error 0).
    + apply Hx in Hsub. congruence.
Qed.

(** ** What the cache remembers *)
Definition stored (c : CertificatePolicyCache) host (hash : SHA256HashValue) : option Z :=
  allowed_ (policy_for host c) !! hash.

Definition statuses_ok (c : CertificatePolicyCache) : Prop :=
  forall host hash a, stored c host hash = Some a -> is_status a.

Definition status_of (r : request) : option Z :=
  match r with RAllow _ _ error => Some error | _ => None end.

Definition requests_ok (rs : list request) : Prop :=
  forall r error, r ∈ rs -> status_of r = Some error -> is_status error.

Lemma policy_for_insert host p c host' :
  policy_for host' {| cert_policy_for_host_ := <[host := p]> c |} =
  if decide (host' = host) then p else policy_for host' {| cert_policy_for_host_ := c |}.
Proof.
  unfold policy_for. simpl. case_decide as Hh; [subst; by rewrite lookup_insert_eq |].
  by rewrite lookup_insert_ne.
Qed.

Lemma allow_stored on cert host error c :
  on = IO ->
  exists c', AllowCertForHost on cert host error c = Ok c' /\
    forall host' hash, stored c' host' hash =
      if bool_decide (host = host' /\ fingerprint cert = hash) then Some error
      else stored c host' hash.
Proof.
  intros ->. eexists. split; [reflexivity |]. intros host' hash. unfold stored.
  destruct c as [policies]. rewrite policy_for_insert. case_decide as Hh.
  - subst host'. simpl. case_bool_decide as Hb.
    + destruct Hb as [_ <-]. apply lookup_insert_eq.
    + rewrite lookup_insert_ne by naive_solver. done.
  - case_bool_decide as Hb; [naive_solver | done].
Qed.

Lemma perform_stored r c :
  exists c' j, perform r c = Ok (c', j) /\
    forall host hash, stored c' host hash = last_allowed host hash [r] (stored c host hash).
Proof.
  destruct r as [cert host error | cert host error |]; cbn [perform last_allowed].
  - destruct (allow_stored IO cert host error c eq_refl) as (c' & -> & Hc). simpl. by exists c', None.
  - eexists _, _. split; [reflexivity |]. intros host' hash. unfold stored.
    destruct c as [policies]. rewrite policy_for_insert. by case_decide; subst.
  - by eexists _, _.
Qed.

Lemma perform_all_stored rs c :
  exists c', perform_all rs c = Ok c' /\
    forall host hash, stored c' host hash = last_allowed host hash rs (stored c host hash).
Proof.
  revert c. induction rs as [| r rs IH]; intros c; [by exists c |].
  destruct (perform_stored r c) as (c1 & j & Hr & H1). destruct (IH c1) as (c2 & H2 & Hs).
  exists c2. simpl. rewrite Hr. simpl. split; [done |]. intros host hash.
  rewrite Hs, H1. by destruct r.
Qed.

Lemma last_allowed_status host hash rs before a :
  requests_ok rs -> (forall b, before = Some b -> is_status b) ->
  last_allowed host hash rs before = Some a -> is_status a.
Proof.
  revert before. induction rs as [| r rs IH]; intros before Hok Hb; simpl; [apply Hb |].
  assert (Hrs : requests_ok rs) by (intros r' e Hr'; apply Hok; by right).
  destruct r as [cert host' error | |]; try by apply IH.
  apply IH; [done |]. intros b. case_bool_decide; [| apply Hb]. intros [= <-].
  apply (Hok (RAllow cert host' error) error); [left | done].
Qed.

(** C39. A query answers that a certificate is allowed exactly when it was last
    allowed for that host with all the errors it has now, and it has one; it
    never answers that it is denied. *)
Theorem QueryPolicy_spec rs cert host error :
  requests_ok rs -> is_status error ->
  exists c c' judgment,
    perform_all rs CertificatePolicyCache_new = Ok c /\
    QueryPolicy IO cert host error c = Ok (c', judgment) /\ judgment <> DENIED /\
    (judgment = ALLOWED <->
     exists a, last_allowed host (fingerprint cert) rs None = Some a /\ covers a error).
Proof.
  intros Hrs He. destruct (perform_all_stored rs CertificatePolicyCache_new) as (c & Hrun & Hc).
  eexists c, _, _. split; [done |]. split; [reflexivity |].
  rewrite <- Hc. apply Check_spec; [done |]. intros hash a Ha.
  apply (last_allowed_status host hash rs None); [done | done |].
  rewrite <- Ha. symmetry. apply Hc.
Qed.

(** ** A session restored *)
Definition storage_fingerprint (kept : CRWSessionCertificateStorage) : option SHA256HashValue :=
  fingerprint <$> storage_certificate kept.

Definition has_certificate (kept : CRWSessionCertificateStorage) : Prop :=
  is_Some (storage_certificate kept).

Lemma allow_all_cons on kept certs c cert :
  storage_certificate kept = Some cert ->
  allow_all on (kept :: certs) c =
  AllowCertForHost on cert (storage_host kept) (storage_status kept) c ≫= allow_all on certs.
Proof. intros Hk. simpl. by rewrite Hk. Qed.

Lemma allow_all_app on certs certs' c :
  allow_all on (certs ++ certs') c = allow_all on certs c ≫= allow_all on certs'.
Proof.
  revert c. induction certs as [| kept certs IH]; intros c; [done |]. simpl.
  destruct (storage_certificate kept) as [cert |]; simpl; [| done].
  destruct (AllowCertForHost on cert (storage_host kept) (storage_status kept) c); simpl; [| done].
  apply IH.
Qed.

Lemma allow_all_stored on certs c :
  on = IO -> Forall has_certificate certs ->
  exists c', allow_all on certs c = Ok c' /\
    forall host hash a, stored c' host hash = Some a ->
      stored c host hash = Some a \/
      exists kept, kept ∈ certs /\ storage_host kept = host /\
        storage_fingerprint kept = Some hash /\ storage_status kept = a.
Proof.
  intros Hon Hall. revert c. induction Hall as [| cert certs [x Hx] Hall IH]; intros c.
  - exists c. split; [done |]. by left.
  - rewrite (allow_all_cons _ _ _ _ _ Hx).
    destruct (allow_stored on x (storage_host cert) (storage_status cert) c Hon)
      as (c1 & -> & H1). simpl.
    destruct (IH c1) as (c2 & H2 & Hs). exists c2. split; [done |].
    intros host hash a [Ha | (cert' & Hin & Hrest)]%Hs.
    + rewrite H1 in Ha. case_bool_decide as Hb; [| by left].
      right. exists cert. split; [left |]. unfold storage_fingerprint. rewrite Hx. naive_solver.
    + right. exists cert'. split; [by right | done].
Qed.

(** The certificates of a session are allowed again, in whatever order they are
    enumerated, unless one was accepted with two statuses. *)
Lemma session_is_restored session order c (cert : CRWSessionCertificateStorage) hash :
  order ≡ₚ allowed_certs session -> cert ∈ allowed_certs session ->
  Forall has_certificate (allowed_certs session) -> storage_fingerprint cert = Some hash ->
  (forall other, other ∈ allowed_certs session -> storage_host other = storage_host cert ->
     storage_fingerprint other = Some hash -> storage_status other = storage_status cert) ->
  exists c', allow_all IO order c = Ok c' /\
    stored c' (storage_host cert) hash = Some (storage_status cert).
Proof.
  intros Hp Hin Hall Hhash Hsame. rewrite <- Hp in Hin, Hall. revert c.
  assert (Hsame' : forall other, other ∈ order -> storage_host other = storage_host cert ->
     storage_fingerprint other = Some hash -> storage_status other = storage_status cert).
  { intros other Ho. apply Hsame. by rewrite <- Hp. }
  clear Hp Hsame.
  induction order as [| other order IH] using rev_ind; intros c; [by apply elem_of_nil in Hin |].
  apply Forall_app in Hall as [Hall [[x Hx] _]%Forall_cons].
  destruct (allow_all_stored IO order c eq_refl Hall) as (c1 & Hrun & _).
  destruct (allow_stored IO x (storage_host other) (storage_status other) c1 eq_refl)
    as (c2 & H2 & Hs).
  exists c2. rewrite allow_all_app, Hrun. cbn [mbind chk_bind].
  rewrite (allow_all_cons _ _ _ _ _ Hx), H2.
  split; [done |]. rewrite Hs. case_bool_decide as Hb.
  - f_equal. apply Hsame'; [apply elem_of_app; right; left | naive_solver |].
    unfold storage_fingerprint. rewrite Hx. naive_solver.
  - destruct (IH) with (c := c) as (c1' & H1' & Hs'); [| done | |].
    + apply elem_of_app in Hin as [? | ->%list_elem_of_singleton]; [done |].
      destruct Hb. unfold storage_fingerprint in Hhash. rewrite Hx in Hhash. naive_solver.
    + intros o Ho. apply Hsame'. apply elem_of_app. by left.
    + rewrite Hrun in H1'. by injection H1' as <-.
Qed.

(** ** Keys made of a certificate and a host

    Two pairs are one key of a container when the host and the fingerprint
    are the same. *)
Lemma CertHostPair_equivalent cert1 host1 cert2 host2 :
  (forall h, SHA256HashValueLessThan h h = false) ->
  (forall h1 h2, SHA256HashValueLessThan h1 h2 = false ->
                 SHA256HashValueLessThan h2 h1 = false -> h1 = h2) ->
  let lhs := CertHostPair_new cert1 host1 in
  let other := CertHostPair_new cert2 host2 in
  (CertHostPair_lt lhs other = false /\ CertHostPair_lt other lhs = false) <->
  host1 = host2 /\ fingerprint cert1 = fingerprint cert2.
Proof.
  intros Hirr Htotal. unfold CertHostPair_lt. simpl.
  destruct (String.eqb_spec host1 host2) as [-> | Hne]; simpl.
  - rewrite String.eqb_refl. simpl. split; [intros []; auto | intros [_ ->]; auto].
  - destruct (String.eqb_spec host2 host1) as [-> | _]; [done |]. simpl.
    split; [intros [H1 H2] | by intros []].
    destruct (string_lt_total host1 host2) as [Hl%string_ltb_lt | [? | Hl%string_ltb_lt]];
      congruence.
Qed.
End policies.
