(* ===== verification/CertificateVerification.v ===== *)
(** * Verification of certificates

    [web/net/crw_cert_verification_controller.mm]: whether a page whose
    certificate the system rejects is loaded, which the user may have decided
    before.

    The work is done by closures on four threads: the trust is evaluated by a
    worker, the result goes to the main queue, a rejected trust is decided on
    the IO thread, next to the policies, and the answer goes to the UI thread.
    The closures that are waiting are part of the state; an event is a call of
    the client or one queue that runs a closure. *)
From S2P Require Import Prelude External NavigationItem WebThread CertificatePolicies.

(** ** Code outside of the repository *)
Inductive SecTrustResultType :=
| kSecTrustResultInvalid | kSecTrustResultProceed | kSecTrustResultConfirm
| kSecTrustResultDeny | kSecTrustResultUnspecified | kSecTrustResultRecoverableTrustFailure
| kSecTrustResultFatalTrustFailure | kSecTrustResultOtherError.

#[export] Instance SecTrustResultType_eq_dec : EqDecision SecTrustResultType.
Proof. solve_decision. Defined.

Class TrustApi `{CertificateApi} := {
(** [SecTrustRef]; [None] when [SecTrustEvaluate] fails *)
SecTrust : Type;
SecTrustEvaluate : SecTrust -> option SecTrustResultType;
SecTrustGetCertificateCount : SecTrust -> Z;
SecTrustGetCertificateAtIndex : SecTrust -> Z -> OSCertHandle;
CreateX509CertificateFromSecCertificate :
  OSCertHandle -> list OSCertHandle -> option X509Certificate;
GetCertFailureStatusFromTrust : SecTrust -> Z;
IsCertStatusError : Z -> bool;
}.

Definition CERT_STATUS_AUTHORITY_INVALID : Z := Z.shiftl 1 2.
Definition CERT_STATUS_INVALID : Z := Z.shiftl 1 7.

(** [web/web_state/wk_web_view_security_util.mm] *)
Definition GetSecurityStyleFromTrustResult (result : SecTrustResultType) : chk SecurityStyle :=
  match result with
  | kSecTrustResultInvalid => mret SECURITY_STYLE_UNKNOWN
  | kSecTrustResultProceed | kSecTrustResultUnspecified => mret SECURITY_STYLE_AUTHENTICATED
  | kSecTrustResultDeny | kSecTrustResultRecoverableTrustFailure
  | kSecTrustResultFatalTrustFailure | kSecTrustResultOtherError =>
      mret SECURITY_STYLE_AUTHENTICATION_BROKEN
  | kSecTrustResultConfirm => Fault
  end.

Inductive CertAcceptPolicy :=
| CERT_ACCEPT_POLICY_NON_RECOVERABLE_ERROR
| CERT_ACCEPT_POLICY_RECOVERABLE_ERROR_UNDECIDED_BY_USER
| CERT_ACCEPT_POLICY_RECOVERABLE_ERROR_ACCEPTED_BY_USER
| CERT_ACCEPT_POLICY_ALLOW.

#[export] Instance CertAcceptPolicy_eq_dec : EqDecision CertAcceptPolicy.
Proof. solve_decision. Defined.

Section verification.
Context `{TrustApi}.

(** A call of the client that waits for its completion handler. *)
Record Query := { trust : SecTrust; host : string; number : nat }.

Inductive closure :=
| EvaluateTrust (for_load : bool) (q : Query)
| TrustEvaluated (for_load : bool) (q : Query) (result : SecTrustResultType)
| DecideRejected (q : Query) (result : SecTrustResultType)
| CallHandler (q : Query) (policy : CertAcceptPolicy) (status : Z)
| AllowOnIO (cert : X509Certificate) (host : string) (status : Z)
| AllowSession (certs : list CRWSessionCertificateStorage).

(** Calls of completion handlers. *)
Inductive completion :=
| Decision (q : Query) (policy : CertAcceptPolicy) (status : Z)
| Status (q : Query) (style : SecurityStyle) (status : Z).

(** [_certPolicyCache] is shared with the sessions that are restored. *)
Record Controller := {
  certPolicyCache : CertificatePolicyCache;
  workers : list closure;
  main_queue : list closure;
  io_thread : list closure;
  ui_thread : list closure;
  completions : list completion;
}.

#[export] Instance controller_fields : Fields Controller := fun c =>
  {| certPolicyCache := certPolicyCache c; workers := workers c; main_queue := main_queue c;
     io_thread := io_thread c; ui_thread := ui_thread c; completions := completions c |}.

Implicit Types (c : Controller) (q : Query).

Definition initWithBrowserState on (cache : CertificatePolicyCache) : chk Controller :=
  _ ← check_on UI on;
  mret {| certPolicyCache := cache; workers := []; main_queue := []; io_thread := [];
          ui_thread := []; completions := [] |}.

Definition post_io (task : closure) c : Controller :=
  c <| io_thread := io_thread c ++ [task] |>.

Definition post_ui (task : closure) c : Controller :=
  c <| ui_thread := ui_thread c ++ [task] |>.

Definition complete (call : completion) c : Controller :=
  c <| completions := completions c ++ [call] |>.

Definition certStatusFromTrustResult (trustResult : SecTrustResultType) (serverTrust : SecTrust)
    : Z :=
  match trustResult with
  | kSecTrustResultProceed | kSecTrustResultUnspecified => 0
  | kSecTrustResultDeny => Z.lor 0 CERT_STATUS_AUTHORITY_INVALID
  | _ =>
      let certStatus := Z.lor 0 (GetCertFailureStatusFromTrust serverTrust) in
      if negb (IsCertStatusError certStatus) then Z.lor certStatus CERT_STATUS_INVALID
      else certStatus
  end.

Definition verifyTrust on (for_load : bool) q c : chk Controller :=
  _ ← check_on UI on;
  mret (c <| workers := workers c ++ [EvaluateTrust for_load q] |>).

Definition decideLoadPolicyForTrust on q c : chk Controller :=
  _ ← check_on UI on; verifyTrust on true q c.

Definition querySSLStatusForTrust on q c : chk Controller :=
  _ ← check_on UI on; verifyTrust on false q c.

Definition allowCert on (cert : X509Certificate) (host : string) (status : Z) c
    : chk Controller :=
  _ ← check_on UI on;
  cert ← match GetIntermediateCertificates cert with
         | [] => mret cert
         | _ => deref (CreateFromHandle (os_cert_handle cert) [])
         end;
  _ ← dcheck (match GetIntermediateCertificates cert with [] => true | _ => false end);
  mret (post_io (AllowOnIO cert host status) c).

(** [trust] is evaluated by a worker. *)
Definition evaluate (for_load : bool) q c : Controller :=
  let trustResult :=
    match SecTrustEvaluate (trust q) with
    | Some result => result
    | None => kSecTrustResultInvalid
    end in
  c <| main_queue := main_queue c ++ [TrustEvaluated for_load q trustResult] |>.

Definition decideLoadPolicyForRejectedTrustResult on (trustResult : SecTrustResultType) q c
    : chk Controller :=
  _ ← check_on UI on; mret (post_io (DecideRejected q trustResult) c).

(** The completion handlers given to [verifyTrust]. *)
Definition load_verified on q (trustResult : SecTrustResultType) c : chk Controller :=
  _ ← check_on UI on;
  if bool_decide (trustResult = kSecTrustResultProceed) ||
     bool_decide (trustResult = kSecTrustResultUnspecified)
  then mret (complete (Decision q CERT_ACCEPT_POLICY_ALLOW 0) c)
  else decideLoadPolicyForRejectedTrustResult on trustResult q c.

Definition status_verified q (trustResult : SecTrustResultType) c : chk Controller :=
  securityStyle ← GetSecurityStyleFromTrustResult trustResult;
  mret (complete (Status q securityStyle (certStatusFromTrustResult trustResult (trust q))) c).

Definition loadPolicyForRejectedTrustResult on (trustResult : SecTrustResultType)
    (certStatus : Z) (serverTrust : SecTrust) (host : string) c
    : chk (Controller * CertAcceptPolicy) :=
  _ ← check_on IO on;
  style ← GetSecurityStyleFromTrustResult trustResult;
  _ ← dcheck (negb (bool_decide (style = SECURITY_STYLE_AUTHENTICATED)));
  if negb (bool_decide (trustResult = kSecTrustResultRecoverableTrustFailure)) ||
     (SecTrustGetCertificateCount serverTrust =? 0)
  then mret (c, CERT_ACCEPT_POLICY_NON_RECOVERABLE_ERROR)
  else
    match CreateX509CertificateFromSecCertificate (SecTrustGetCertificateAtIndex serverTrust 0) []
    with
    | None => mret (c, CERT_ACCEPT_POLICY_NON_RECOVERABLE_ERROR)
    | Some leafCert =>
        '(cache, judgment) ← QueryPolicy on leafCert host certStatus (certPolicyCache c);
        mret (c <| certPolicyCache := cache |>,
              if bool_decide (judgment = ALLOWED)
              then CERT_ACCEPT_POLICY_RECOVERABLE_ERROR_ACCEPTED_BY_USER
              else CERT_ACCEPT_POLICY_RECOVERABLE_ERROR_UNDECIDED_BY_USER)
    end.

(** The block posted by [decideLoadPolicyForRejectedTrustResult]. *)
Definition decide_rejected on q (trustResult : SecTrustResultType) c : chk Controller :=
  let certStatus := certStatusFromTrustResult trustResult (trust q) in
  '(c, policy) ← loadPolicyForRejectedTrustResult on trustResult certStatus (trust q) (host q) c;
  mret (post_ui (CallHandler q policy certStatus) c).

Definition run_closure on (task : closure) c : chk Controller :=
  match task with
  | EvaluateTrust for_load q => mret (evaluate for_load q c)
  | TrustEvaluated true q result => load_verified on q result c
  | TrustEvaluated false q result => status_verified q result c
  | DecideRejected q result => decide_rejected on q result c
  | CallHandler q policy status => mret (complete (Decision q policy status) c)
  | AllowOnIO cert host status =>
      cache ← AllowCertForHost on cert host status (certPolicyCache c);
      mret (c <| certPolicyCache := cache |>)
  | AllowSession certs =>
      cache ← allow_all on certs (certPolicyCache c);
      mret (c <| certPolicyCache := cache |>)
  end.

(** *** Events

    The main queue and the UI thread are the same thread with two queues; the
    workers may run in any order. *)
Inductive event :=
| EDecide q
| EQuery q
| EAllow (cert : X509Certificate) (host : string) (status : Z)
| ERestore (session : SessionCertificatePolicyCacheImpl) (order : list CRWSessionCertificateStorage)
| EWorker (n : nat)
| EMain
| EIO
| EUI.

Definition step (e : event) c : chk Controller :=
  match e with
  | EDecide q => decideLoadPolicyForTrust UI q c
  | EQuery q => querySSLStatusForTrust UI q c
  | EAllow cert host status => allowCert UI cert host status c
  | ERestore session order =>
      certs ← UpdateCertificatePolicyCache UI session;
      mret (post_io (AllowSession order) c)
  | EWorker n =>
      match workers c !! n with
      | Some task => run_closure UI task (c <| workers := delete n (workers c) |>)
      | None => mret c
      end
  | EMain =>
      match main_queue c with
      | task :: rest => run_closure UI task (c <| main_queue := rest |>)
      | [] => mret c
      end
  | EIO =>
      match io_thread c with
      | task :: rest => run_closure IO task (c <| io_thread := rest |>)
      | [] => mret c
      end
  | EUI =>
      match ui_thread c with
      | task :: rest => run_closure UI task (c <| ui_thread := rest |>)
      | [] => mret c
      end
  end.

Fixpoint steps (es : list event) c : chk Controller :=
  match es with
  | [] => mret c
  | e :: es => c ← step e c; steps es c
  end.
End verification.

(** *** The threads run what is waiting *)
Section threads.
Context `{TrustApi}.
Implicit Types (c : Controller).

(** [e] runs a closure that is there. *)
Definition runnable (e : event) c : bool :=
  match e with
  | EWorker n => (n <? length (workers c))%nat
  | EMain => negb (bool_decide (main_queue c = []))
  | EIO => negb (bool_decide (io_thread c = []))
  | EUI => negb (bool_decide (ui_thread c = []))
  | _ => false
  end.

Fixpoint all_runnable (es : list event) c : Prop :=
  match es with
  | [] => True
  | e :: es => runnable e c = true /\ forall c', step e c = Ok c' -> all_runnable es c'
  end.

(** How many closures the threads can still run. *)
Definition work c : nat :=
  4 * length (workers c) + 3 * length (main_queue c) + 2 * length (io_thread c) +
  length (ui_thread c).

(** Nothing waits. *)
Definition quiet c : Prop := forall e, runnable e c = false.

Lemma quiet_empty c :
  quiet c -> workers c = [] /\ main_queue c = [] /\ io_thread c = [] /\ ui_thread c = [].
Proof.
  intros Hq. pose proof (Hq (EWorker 0)) as Hw. pose proof (Hq EMain) as Hm.
  pose proof (Hq EIO) as Hi. pose proof (Hq EUI) as Hu. simpl in *.
  apply negb_false_iff, bool_decide_eq_true in Hm, Hi, Hu. split_and!; try done.
  destruct (workers c); [done | by apply Nat.ltb_ge in Hw; simpl in Hw; lia].
Qed.
End threads.

(** ** The decisions are sound *)
Section soundness.
Context `{TrustApi}.
Implicit Types (c : Controller) (q : Query) (es : list event).

(** The documented behaviour of certificates and trusts. *)
Record trust_laws : Prop := {
  created h l cert :
    CreateFromHandle h l = Some cert ->
    os_cert_handle cert = h /\ GetIntermediateCertificates cert = l;
  created_again cert : is_Some (CreateFromHandle (os_cert_handle cert) []);
  from_sec h l cert :
    CreateX509CertificateFromSecCertificate h l = Some cert ->
    os_cert_handle cert = h /\ GetIntermediateCertificates cert = l;
  failure_status t : is_status (GetCertFailureStatusFromTrust t);
  not_deprecated t : SecTrustEvaluate t <> Some kSecTrustResultConfirm;
}.
Context (laws : trust_laws).

Definition evaluated q : SecTrustResultType :=
  default kSecTrustResultInvalid (SecTrustEvaluate (trust q)).

Definition trusted (result : SecTrustResultType) : Prop :=
  result = kSecTrustResultProceed \/ result = kSecTrustResultUnspecified.

Definition leaf_hash q : SHA256HashValue :=
  CalculateChainFingerprint256 (SecTrustGetCertificateAtIndex (trust q) 0) [].

(** The user accepted the certificate for the host with the errors [a], now or
    in a session that was restored. *)
Definition consented es (host : string) (hash : SHA256HashValue) (a : Z) : Prop :=
  (exists cert, EAllow cert host a ∈ es /\
     CalculateChainFingerprint256 (os_cert_handle cert) [] = hash) \/
  (exists session order kept, ERestore session order ∈ es /\
     kept ∈ allowed_certs session /\ storage_host kept = host /\
     storage_fingerprint kept = Some hash /\ storage_status kept = a).

Definition decision_sound es q (policy : CertAcceptPolicy) (status : Z) : Prop :=
  match policy with
  | CERT_ACCEPT_POLICY_ALLOW => trusted (evaluated q) /\ status = 0
  | CERT_ACCEPT_POLICY_RECOVERABLE_ERROR_ACCEPTED_BY_USER =>
      evaluated q = kSecTrustResultRecoverableTrustFailure /\
      exists a, consented es (host q) (leaf_hash q) a /\ covers a status
  | _ => ~ trusted (evaluated q)
  end.

Definition completion_sound es (call : completion) : Prop :=
  match call with
  | Decision q policy status => decision_sound es q policy status
  | Status q style status => style = SECURITY_STYLE_AUTHENTICATED <-> trusted (evaluated q)
  end.

(** Events as they can happen: an enumeration has the elements of its set, and
    none of them is without a certificate. *)
Definition event_ok (e : event) : Prop :=
  match e with
  | EAllow _ _ status => is_status status
  | ERestore session order =>
      order ≡ₚ allowed_certs session /\
      (forall kept, kept ∈ allowed_certs session ->
         has_certificate kept /\ is_status (storage_status kept))
  | _ => True
  end.

Definition worker_ok (task : closure) : Prop :=
  match task with EvaluateTrust _ _ => True | _ => False end.

Definition main_ok (task : closure) : Prop :=
  match task with TrustEvaluated _ q result => result = evaluated q | _ => False end.

Definition io_ok es (task : closure) : Prop :=
  match task with
  | DecideRejected q result => result = evaluated q /\ ~ trusted result
  | AllowOnIO cert host status =>
      is_status status /\ consented es host (fingerprint cert) status
  | AllowSession certs =>
      forall kept, kept ∈ certs -> is_status (storage_status kept) /\ has_certificate kept /\
        forall hash, storage_fingerprint kept = Some hash ->
          consented es (storage_host kept) hash (storage_status kept)
  | _ => False
  end.

Definition ui_ok es (task : closure) : Prop :=
  match task with
  | CallHandler q policy status => decision_sound es q policy status
  | _ => False
  end.

Record controller_ok es c : Prop := {
  cache_sound host hash a :
    stored (certPolicyCache c) host hash = Some a -> is_status a /\ consented es host hash a;
  workers_sound : Forall worker_ok (workers c);
  main_sound : Forall main_ok (main_queue c);
  io_sound : Forall (io_ok es) (io_thread c);
  ui_sound : Forall (ui_ok es) (ui_thread c);
  completions_sound : Forall (completion_sound es) (completions c);
}.

(** More events do not take a consent away. *)
Lemma consented_snoc es e host hash a : consented es host hash a -> consented (es ++ [e]) host hash a.
Proof.
  intros [(cert & Hin & ?) | (session & order & kept & Hin & ?)]; [left | right].
  - exists cert. split; [apply elem_of_app; by left | done].
  - exists session, order, kept. split; [apply elem_of_app; by left | done].
Qed.

Lemma decision_snoc es e q policy status :
  decision_sound es q policy status -> decision_sound (es ++ [e]) q policy status.
Proof.
  destruct policy; simpl; try done. intros (? & a & Hc & ?). split; [done |].
  exists a. split; [by apply consented_snoc | done].
Qed.

Lemma controller_snoc es e c : controller_ok es c -> controller_ok (es ++ [e]) c.
Proof.
  intros [Hc Hw Hm Hi Hu Hd]. split; try done.
  - intros host hash a Ha. apply Hc in Ha as [? ?]. split; [done | by apply consented_snoc].
  - eapply Forall_impl; [done |]. intros [| | | | |]; simpl; try done.
    + intros [? ?]. split; [done | by apply consented_snoc].
    + intros Hk kept Hin. destruct (Hk kept Hin) as (? & ? & Hcon). split_and!; try done.
      intros hash Hh. by apply consented_snoc, Hcon.
  - eapply Forall_impl; [done |]. intros [| | | | |]; simpl; try done. apply decision_snoc.
  - eapply Forall_impl; [done |]. intros [q policy status |]; [apply decision_snoc | done].
Qed.

Lemma not_trusted_style result :
  result <> kSecTrustResultConfirm ->
  exists style, GetSecurityStyleFromTrustResult result = Ok style /\
    (style = SECURITY_STYLE_AUTHENTICATED <-> trusted result).
Proof.
  unfold trusted. destruct result; intros Hr; try done; simpl; eexists;
    (split; [reflexivity |]); split; try done; try tauto; by intros [].
Qed.

Lemma evaluated_not_confirm q : evaluated q <> kSecTrustResultConfirm.
Proof.
  unfold evaluated. pose proof (not_deprecated laws (trust q)).
  destruct (SecTrustEvaluate (trust q)); simpl; congruence.
Qed.

Lemma bool_trusted result :
  bool_decide (result = kSecTrustResultProceed) || bool_decide (result = kSecTrustResultUnspecified)
  = true <-> trusted result.
Proof. by rewrite orb_true_iff, !bool_decide_eq_true. Qed.

Lemma is_status_lor a b : is_status a -> is_status b -> is_status (Z.lor a b).
Proof.
  unfold is_status. intros Ha Hb.
  assert (Hn : 0 <= Z.lor a b) by (apply Z.lor_nonneg; lia).
  apply Z.bounded_iff_bits_nonneg'; try lia. intros l Hl. rewrite Z.lor_spec.
  rewrite (proj1 (Z.bounded_iff_bits_nonneg' 32 a ltac:(lia) ltac:(lia)) Ha l Hl).
  by rewrite (proj1 (Z.bounded_iff_bits_nonneg' 32 b ltac:(lia) ltac:(lia)) Hb l Hl).
Qed.

Lemma certStatus_is_status result t : is_status (certStatusFromTrustResult result t).
Proof.
  assert (Hzero : is_status 0) by (unfold is_status; lia).
  pose proof (failure_status laws t) as Hf.
  assert (Hi : is_status CERT_STATUS_INVALID) by (unfold is_status; evaluate).
  destruct result; simpl; try done; try (destruct (negb _); [by apply is_status_lor | done]).
Qed.

(** *** What the closures do *)
Definition remembered c host hash : option Z := stored (certPolicyCache c) host hash.

Lemma query_stored cert host error cache cache' judgment :
  QueryPolicy IO cert host error cache = Ok (cache', judgment) ->
  judgment = CertPolicy_Check cert error (policy_for host cache) /\
  forall host' hash, stored cache' host' hash = stored cache host' hash.
Proof.
  intros [= <- <-]. split; [done |]. intros host' hash. unfold stored. destruct cache as [policies].
  rewrite policy_for_insert. by case_decide; subst.
Qed.

(** The decision about a rejected trust. *)
Lemma decide_rejected_run q c :
  ~ trusted (evaluated q) ->
  (forall host hash a, remembered c host hash = Some a -> is_status a) ->
  exists cache policy,
    decide_rejected IO q (evaluated q) c =
      Ok (post_ui (CallHandler q policy (certStatusFromTrustResult (evaluated q) (trust q)))
            (c <| certPolicyCache := cache |>)) /\
    (forall host hash, stored cache host hash = remembered c host hash) /\
    policy <> CERT_ACCEPT_POLICY_ALLOW /\
    (policy = CERT_ACCEPT_POLICY_RECOVERABLE_ERROR_ACCEPTED_BY_USER <->
     evaluated q = kSecTrustResultRecoverableTrustFailure /\
     (SecTrustGetCertificateCount (trust q) =? 0) = false /\
     is_Some (CreateX509CertificateFromSecCertificate
                (SecTrustGetCertificateAtIndex (trust q) 0) []) /\
     exists a, remembered c (host q) (leaf_hash q) = Some a /\
       covers a (certStatusFromTrustResult (evaluated q) (trust q))).
Proof.
  intros Hnot Hstatus.
  destruct (not_trusted_style _ (evaluated_not_confirm q)) as (style & Hstyle & Hauth).
  assert (Hcheck : negb (bool_decide (style = SECURITY_STYLE_AUTHENTICATED)) = true).
  { rewrite bool_decide_eq_false_2; [done |]. tauto. }
  assert (Hnothing : exists cache,
    c = c <| certPolicyCache := cache |> /\
    forall host hash, stored cache host hash = remembered c host hash).
  { exists (certPolicyCache c). split; [by destruct c | done]. }
  destruct Hnothing as (cache0 & Hc0 & Hs0).
  unfold decide_rejected, loadPolicyForRejectedTrustResult. rewrite Hstyle. simpl.
  rewrite Hcheck. simpl.
  destruct (bool_decide_reflect (evaluated q = kSecTrustResultRecoverableTrustFailure))
    as [Hrec | Hrec]; simpl.
  2: { exists cache0, CERT_ACCEPT_POLICY_NON_RECOVERABLE_ERROR. rewrite <- Hc0.
       split_and!; try done. naive_solver. }
  destruct (SecTrustGetCertificateCount (trust q) =? 0); simpl.
  { exists cache0, CERT_ACCEPT_POLICY_NON_RECOVERABLE_ERROR. rewrite <- Hc0.
    split_and!; try done. naive_solver. }
  destruct (CreateX509CertificateFromSecCertificate _ []) as [cert |] eqn:Hcert; simpl.
  2: { exists cache0, CERT_ACCEPT_POLICY_NON_RECOVERABLE_ERROR. rewrite <- Hc0.
       split_and!; try done. split; [done |]. intros (_ & _ & [? ?] & _). done. }
  apply (from_sec laws) in Hcert as [Hhandle Hchain].
  destruct (Check_spec cert (certStatusFromTrustResult (evaluated q) (trust q))
              (policy_for (host q) (certPolicyCache c)) (certStatus_is_status _ _)) as [_ Hspec].
  { intros hash a Ha. by apply (Hstatus (host q) hash). }
  assert (Hleaf : fingerprint cert = leaf_hash q)
    by (unfold fingerprint, leaf_hash; by rewrite Hhandle, Hchain).
  rewrite Hleaf in Hspec.
  clear Hcheck. set (judgment := CertPolicy_Check _ _ _) in *.
  eexists _, (if bool_decide (judgment = ALLOWED)
              then CERT_ACCEPT_POLICY_RECOVERABLE_ERROR_ACCEPTED_BY_USER
              else CERT_ACCEPT_POLICY_RECOVERABLE_ERROR_UNDECIDED_BY_USER).
  split; [reflexivity |]. split_and!.
  - apply (query_stored cert (host q) (certStatusFromTrustResult (evaluated q) (trust q))
             (certPolicyCache c) _ _ eq_refl).
  - by case_bool_decide.
  - case_bool_decide as Hj.
    + split; [intros _ | done]. apply Hspec in Hj. done.
    + split; [done |]. intros (_ & _ & _ & Hex). by apply Hspec in Hex.
Qed.

Lemma run_io_ok es c task rest :
  controller_ok es c -> io_thread c = task :: rest ->
  exists c', run_closure IO task (c <| io_thread := rest |>) = Ok c' /\ controller_ok es c'.
Proof.
  intros [Hc Hw Hm Hi Hu Hd] Heq. rewrite Heq in Hi. apply Forall_cons in Hi as [Ht Hi].
  destruct task as [| | q result | | cert host status | certs]; simpl in Ht; try done.
  - destruct Ht as [-> Hnot].
    destruct (decide_rejected_run q (c <| io_thread := rest |>) Hnot)
      as (cache & policy & Hrun & Hs & Hna & Hacc).
    { intros h hash a Ha. by apply (Hc h hash). }
    simpl. rewrite Hrun. eexists. split; [reflexivity |]. split; simpl; try done.
    + intros h hash a. rewrite Hs. apply Hc.
    + apply Forall_app. split; [done |]. apply Forall_singleton. simpl.
      destruct policy; simpl; try done. destruct Hacc as [Hacc _].
      destruct (Hacc eq_refl) as (Hr & _ & _ & a & Ha & Hcov). split; [done |].
      exists a. split; [by apply Hc in Ha as [_ ?] | done].
  - destruct Ht as [Hst Hcon]. destruct (allow_stored IO cert host status (certPolicyCache c) eq_refl)
      as (cache & Hrun & Hs). cbn [run_closure].
    change (certPolicyCache (c <| io_thread := rest |>)) with (certPolicyCache c).
    rewrite Hrun. eexists. split; [reflexivity |].
    split; simpl; try done. intros h hash a. rewrite Hs. case_bool_decide as Hb; [| apply Hc].
    destruct Hb as [<- <-]. by intros [= <-].
  - assert (Hall : Forall has_certificate certs).
    { apply Forall_forall. intros kept Hin. by destruct (Ht kept Hin) as (_ & ? & _). }
    destruct (allow_all_stored IO certs (certPolicyCache c) eq_refl Hall) as (cache & Hrun & Hs).
    simpl. rewrite Hrun. simpl. eexists. split; [reflexivity |]. split; simpl; try done.
    intros h hash a [Ha | (kept & Hin & <- & Hf & <-)]%Hs; [by apply Hc |].
    destruct (Ht kept Hin) as (? & _ & Hcon). split; [done | by apply Hcon].
Qed.

Lemma run_main_ok es c task rest :
  controller_ok es c -> main_queue c = task :: rest ->
  exists c', run_closure UI task (c <| main_queue := rest |>) = Ok c' /\ controller_ok es c'.
Proof.
  intros [Hc Hw Hm Hi Hu Hd] Heq. rewrite Heq in Hm. apply Forall_cons in Hm as [Ht Hm].
  destruct task as [| for_load q result | | | |]; simpl in Ht; try done. subst result.
  destruct for_load; simpl.
  - unfold load_verified. simpl. destruct (_ || _) eqn:Hb; simpl.
    + apply bool_trusted in Hb. eexists. split; [reflexivity |]. split; simpl; try done.
      apply Forall_app. split; [done |]. by apply Forall_singleton.
    + eexists. split; [reflexivity |]. split; simpl; try done.
      apply Forall_app. split; [done |]. apply Forall_singleton. split; [done |].
      intros Ht%bool_trusted. congruence.
  - destruct (not_trusted_style _ (evaluated_not_confirm q)) as (style & Hstyle & Hauth).
    unfold status_verified. rewrite Hstyle. simpl. eexists. split; [reflexivity |].
    split; simpl; try done. apply Forall_app. split; [done |]. by apply Forall_singleton.
Qed.

Lemma allowCert_ok cert host status c :
  exists cert', allowCert UI cert host status c = Ok (post_io (AllowOnIO cert' host status) c) /\
    fingerprint cert' = CalculateChainFingerprint256 (os_cert_handle cert) [].
Proof.
  unfold allowCert. simpl. unfold fingerprint.
  destruct (GetIntermediateCertificates cert) as [| h l] eqn:Hchain.
  - exists cert. simpl. rewrite Hchain. done.
  - destruct (created_again laws cert) as [cert' Hcert]. exists cert'.
    simpl. rewrite Hcert. simpl. apply (created laws) in Hcert as [-> ->]. done.
Qed.

Lemma step_ok es e c :
  controller_ok es c -> event_ok e ->
  exists c', step e c = Ok c' /\ controller_ok (es ++ [e]) c'.
Proof.
  intros Hok He. pose proof (controller_snoc es e c Hok) as Hok'.
  assert (Hlast : e ∈ es ++ [e]) by (apply elem_of_app; right; left).
  destruct e as [q | q | cert host status | session order | n | | |]; simpl in He.
  1, 2: eexists; split; [reflexivity |]; destruct Hok' as [Hc Hw Hm Hi Hu Hd]; split; try done;
    apply Forall_app; split; [done | by apply Forall_singleton].
  - destruct (allowCert_ok cert host status c) as (cert' & Hrun & Hf).
    exists (post_io (AllowOnIO cert' host status) c). split; [done |].
    destruct Hok' as [Hc Hw Hm Hi Hu Hd]. split; try done.
    apply Forall_app. split; [done |]. apply Forall_singleton. split; [done |].
    left. exists cert. done.
  - destruct He as [Hp Hs]. eexists. split; [reflexivity |].
    destruct Hok' as [Hc Hw Hm Hi Hu Hd]. split; try done.
    apply Forall_app. split; [done |]. apply Forall_singleton. intros kept Hin.
    rewrite Hp in Hin. destruct (Hs kept Hin). split_and!; [done..|].
    intros hash Hh. right. by exists session, order, kept.
  - simpl. destruct (workers c !! n) as [task |] eqn:Hn; [| by exists c].
    pose proof Hok' as [Hc Hw Hm Hi Hu Hd].
    pose proof (Forall_lookup_1 _ _ _ _ Hw Hn) as Ht.
    destruct task as [for_load q | | | | |]; try done. eexists. split; [reflexivity |].
    split; simpl; try done.
    + by apply Forall_delete.
    + apply Forall_app. split; [done |]. by apply Forall_singleton.
  - simpl. destruct (main_queue c) as [| task rest] eqn:Hq; [by exists c |].
    by apply run_main_ok.
  - simpl. destruct (io_thread c) as [| task rest] eqn:Hq; [by exists c |].
    by apply run_io_ok.
  - simpl. destruct (ui_thread c) as [| task rest] eqn:Hq; [by exists c |].
    destruct Hok' as [Hc Hw Hm Hi Hu Hd]. rewrite Hq in Hu. apply Forall_cons in Hu as [Ht Hu].
    destruct task as [| | | q policy status | |]; try done. eexists. split; [reflexivity |].
    split; simpl; try done. apply Forall_app. split; [done |]. by apply Forall_singleton.
Qed.

Lemma steps_ok es es' c :
  controller_ok es c -> Forall event_ok es' ->
  exists c', steps es' c = Ok c' /\ controller_ok (es ++ es') c'.
Proof.
  revert es c. induction es' as [| e es' IH]; intros es c Hok Hev; simpl.
  - exists c. by rewrite app_nil_r.
  - apply Forall_cons in Hev as [He Hev].
    destruct (step_ok es e c Hok He) as (c1 & -> & Hok1). simpl.
    destruct (IH _ c1 Hok1 Hev) as (c2 & Hrun & Hok2). exists c2.
    by rewrite <- app_assoc in Hok2.
Qed.

Definition Controller_new : Controller :=
  {| certPolicyCache := CertificatePolicyCache_new; workers := []; main_queue := [];
     io_thread := []; ui_thread := []; completions := [] |}.

Lemma new_ok : controller_ok [] Controller_new.
Proof. split; simpl; try apply Forall_nil_2. done. Qed.

(** C11. In every interleaving of calls and threads no check fails, a page is
    allowed only when the system trusts its certificate, and a rejected one
    is accepted only when the failure is recoverable and the user accepted
    that leaf certificate for that host with all the errors it has; it is
    shown as authenticated only when the system trusts it. *)
Theorem accepted_only_by_user es :
  Forall event_ok es ->
  exists c, steps es Controller_new = Ok c /\
    forall call, call ∈ completions c -> completion_sound es call.
Proof.
  intros Hev. destruct (steps_ok [] es Controller_new new_ok Hev) as (c & Hrun & Hok).
  exists c. split; [done |]. intros call Hin.
  pose proof (completions_sound _ _ Hok) as Hall. rewrite Forall_forall in Hall. by apply Hall.
Qed.

(** ** A decision of the user is remembered

    [host] and [hash] are the pair the user decided about, [a] the errors. *)
Section remembered.
Context (host0 : string) (hash0 : SHA256HashValue) (a : Z).

Definition effect_of_storage (before : option Z) (kept : CRWSessionCertificateStorage) : option Z :=
  if bool_decide (storage_host kept = host0 /\ storage_fingerprint kept = Some hash0)
  then Some (storage_status kept) else before.

(** What the cache remembers for the pair after a closure. *)
Definition effect (before : option Z) (task : closure) : option Z :=
  match task with
  | AllowOnIO cert host status =>
      if bool_decide (host = host0 /\ fingerprint cert = hash0) then Some status else before
  | AllowSession certs => foldl effect_of_storage before certs
  | _ => before
  end.

(** What it remembers once the IO thread has nothing left to do. *)
Definition eventual c : option Z := foldl effect (remembered c host0 hash0) (io_thread c).

(** No closure and no completion is about the query. *)
Definition about q (task : closure) : Prop :=
  match task with
  | EvaluateTrust true q' | TrustEvaluated true q' _ | DecideRejected q' _
  | CallHandler q' _ _ => q' = q
  | _ => False
  end.

Definition unasked q c : Prop :=
  (forall task, task ∈ workers c ++ main_queue c ++ io_thread c ++ ui_thread c -> ~ about q task) /\
  (forall policy status, Decision q policy status ∉ completions c).

(** The events after the decision allow nothing else for the pair. *)
Definition agrees (e : event) : Prop :=
  forall a', consented [e] host0 hash0 a' -> a' = a.

Definition accepted := CERT_ACCEPT_POLICY_RECOVERABLE_ERROR_ACCEPTED_BY_USER.

Record decided q c : Prop := {
  decided_eventually : eventual c = Some a;
  decided_before k result :
    io_thread c !! k = Some (DecideRejected q result) ->
    foldl effect (remembered c host0 hash0) (take k (io_thread c)) = Some a;
  decided_answer policy status : CallHandler q policy status ∈ ui_thread c -> policy = accepted;
  decided_call policy status : Decision q policy status ∈ completions c -> policy = accepted;
}.

(** A recoverable failure of a query about the pair, with errors among [a]. *)
Record asks q : Prop := {
  asks_host : host q = host0;
  asks_hash : leaf_hash q = hash0;
  asks_recoverable : evaluated q = kSecTrustResultRecoverableTrustFailure;
  asks_leaf : (SecTrustGetCertificateCount (trust q) =? 0) = false;
  asks_certificate : is_Some (CreateX509CertificateFromSecCertificate
                                (SecTrustGetCertificateAtIndex (trust q) 0) []);
  asks_errors : covers a (certStatusFromTrustResult (evaluated q) (trust q));
}.

Lemma decided_same q c c' :
  io_thread c' = io_thread c -> certPolicyCache c' = certPolicyCache c ->
  (forall policy status, CallHandler q policy status ∈ ui_thread c' ->
     CallHandler q policy status ∈ ui_thread c \/ policy = accepted) ->
  (forall policy status, Decision q policy status ∈ completions c' ->
     Decision q policy status ∈ completions c \/ policy = accepted \/
     CallHandler q policy status ∈ ui_thread c) ->
  decided q c -> decided q c'.
Proof.
  intros Hio Hcache Hui Hcall [He Hb Ha Hd]. unfold eventual, remembered in *.
  split; unfold eventual, remembered; rewrite ?Hio, ?Hcache; try done.
  - intros policy status [Hin | ->]%Hui; [by eapply Ha | done].
  - intros policy status [Hin | [-> | Hin]]%Hcall; [by eapply Hd | done | by eapply Ha].
Qed.

(** A closure posted to the IO thread. *)
Lemma decided_post q task c :
  effect (Some a) task = Some a -> decided q c -> decided q (post_io task c).
Proof.
  intros Htask [He Hb Ha Hd]. split; try done.
  - unfold eventual, remembered. simpl. rewrite foldl_app. simpl.
    unfold eventual, remembered in He. by rewrite He.
  - intros k result Hk. unfold remembered in *. simpl in *.
    apply lookup_app_Some in Hk as [Hk | [Hle Hk]].
    + rewrite take_app_le; [by eapply Hb | apply lookup_lt_Some in Hk; lia].
    + apply list_lookup_singleton_Some in Hk as [Hz _].
      replace k with (length (io_thread c)) by lia. by rewrite take_app_length.
Qed.

Lemma agrees_storage certs before :
  (forall kept, kept ∈ certs -> storage_host kept = host0 ->
     storage_fingerprint kept = Some hash0 -> storage_status kept = a) ->
  before = Some a -> foldl effect_of_storage before certs = Some a.
Proof.
  revert before. induction certs as [| kept certs IH]; intros before Hk Hb; simpl; [done |].
  apply IH; [intros k' Hk'; apply Hk; by right |]. unfold effect_of_storage.
  case_bool_decide as Hm; [| done]. f_equal. apply Hk; [left | naive_solver..].
Qed.

Lemma allow_all_effect certs cache cache' :
  allow_all IO certs cache = Ok cache' ->
  stored cache' host0 hash0 = foldl effect_of_storage (stored cache host0 hash0) certs.
Proof.
  revert cache. induction certs as [| kept certs IH]; intros cache.
  - by intros [= <-].
  - destruct (storage_certificate kept) as [cert |] eqn:Hk; [| simpl; by rewrite Hk].
    rewrite (allow_all_cons _ _ _ _ _ Hk).
    destruct (allow_stored IO cert (storage_host kept) (storage_status kept) cache eq_refl)
      as (cache1 & Hrun & Hs).
    rewrite Hrun. cbn [mbind chk_bind]. intros Hrest.
    rewrite (IH _ Hrest), Hs. cbn [foldl]. f_equal.
    assert (Hf : storage_fingerprint kept = Some (fingerprint cert))
      by (unfold storage_fingerprint; by rewrite Hk).
    unfold effect_of_storage. rewrite Hf.
    case_bool_decide as H1; case_bool_decide as H2; try done.
    + destruct H2. destruct H1. split; congruence.
    + destruct H1. destruct H2. split; congruence.
Qed.

(** The IO thread runs its first closure. *)
Lemma decided_io es q c c' task rest :
  controller_ok es c -> asks q -> io_thread c = task :: rest ->
  run_closure IO task (c <| io_thread := rest |>) = Ok c' -> decided q c -> decided q c'.
Proof.
  intros Hok Hq Hio Hrun [He Hb Ha Hd].
  assert (Hshift : forall c2, io_thread c2 = rest ->
    remembered c2 host0 hash0 = effect (remembered c host0 hash0) task ->
    eventual c2 = Some a /\
    forall k result, io_thread c2 !! k = Some (DecideRejected q result) ->
      foldl effect (remembered c2 host0 hash0) (take k (io_thread c2)) = Some a).
  { intros c2 Hr Hs. unfold eventual in *. rewrite Hr, Hs. rewrite Hio in *. split; [done |].
    intros k result Hk. exact (Hb (S k) result Hk). }
  pose proof (io_sound _ _ Hok) as Hsound. rewrite Hio in Hsound.
  apply Forall_cons in Hsound as [Ht _].
  destruct task as [| | q' result | | cert host status | certs]; simpl in Ht; try done.
  - destruct Ht as [-> Hnot]. cbn [run_closure] in Hrun.
    destruct (decide_rejected_run q' (c <| io_thread := rest |>) Hnot)
      as (cache & policy & Hrun' & Hs & _ & Hacc).
    { intros h hash b Hb'. by apply (cache_sound _ _ Hok h hash). }
    rewrite Hrun' in Hrun. injection Hrun as <-.
    destruct (Hshift (post_ui (CallHandler q' policy
       (certStatusFromTrustResult (evaluated q') (trust q')))
       (c <| io_thread := rest |> <| certPolicyCache := cache |>))) as [He2 Hb2].
    { done. } { apply (Hs host0 hash0). }
    split; [done | done | | done].
    simpl. intros policy' status [Hin | Hin]%elem_of_app; [by eapply Ha |].
    apply list_elem_of_singleton in Hin. injection Hin as -> -> ->. apply Hacc.
    destruct Hq as [Hh Hl Hr Hc Hx Hcov]. split_and!; try done. exists a. split; [| done].
    rewrite Hh, Hl. apply (Hb 0%nat (evaluated q')). by rewrite Hio.
  - destruct (allow_stored IO cert host status (certPolicyCache c) eq_refl) as (cache & Hallow & Hs).
    cbn [run_closure] in Hrun.
    change (certPolicyCache (c <| io_thread := rest |>)) with (certPolicyCache c) in Hrun.
    rewrite Hallow in Hrun. injection Hrun as <-.
    destruct (Hshift (c <| io_thread := rest |> <| certPolicyCache := cache |>)) as [He2 Hb2];
      [done | apply (Hs host0 hash0) |]. by split.
  - cbn [run_closure] in Hrun.
    change (certPolicyCache (c <| io_thread := rest |>)) with (certPolicyCache c) in Hrun.
    destruct (allow_all IO certs (certPolicyCache c)) as [cache |] eqn:Hallow; [| done].
    injection Hrun as <-. apply allow_all_effect in Hallow.
    destruct (Hshift (c <| io_thread := rest |> <| certPolicyCache := cache |>)) as [He2 Hb2];
      [done | exact Hallow |]. by split.
Qed.

Lemma decided_step es q e c c' :
  controller_ok es c -> asks q -> event_ok e -> agrees e -> step e c = Ok c' ->
  decided q c -> decided q c'.
Proof.
  intros Hok Hq Hev Hag Hrun Hd.
  destruct e as [q' | q' | cert host status | session order | n | | |]; cbn [step] in Hrun.
  1, 2: injection Hrun as <-; apply (decided_same q c); try done; by left.
  - destruct (allowCert_ok cert host status c) as (cert' & Hallow & Hf).
    rewrite Hallow in Hrun. injection Hrun as <-. apply decided_post; [| done].
    simpl. case_bool_decide as Hm; [| done]. destruct Hm as [-> <-]. f_equal. apply Hag.
    left. exists cert. split; [left | by rewrite <- Hf].
  - injection Hrun as <-. destruct Hev as [Hp _]. apply decided_post; [| done].
    simpl. apply agrees_storage; [| done]. intros kept Hin Hh Hf. apply Hag.
    right. exists session, order, kept. rewrite Hp in Hin. split; [left | done].
  - destruct (workers c !! n) as [task |] eqn:Hn; [| by injection Hrun as <-].
    pose proof (Forall_lookup_1 _ _ _ _ (workers_sound _ _ Hok) Hn) as Ht.
    destruct task as [for_load q' | | | | |]; try done. injection Hrun as <-.
    apply (decided_same q c); try done; by left.
  - destruct (main_queue c) as [| task rest] eqn:Hm; [by injection Hrun as <- |].
    pose proof (main_sound _ _ Hok) as Ht. rewrite Hm in Ht. apply Forall_cons in Ht as [Ht _].
    destruct task as [| for_load q' result | | | |]; try done. simpl in Ht. subst result.
    destruct for_load; cbn [run_closure] in Hrun.
    + unfold load_verified in Hrun. simpl in Hrun. destruct (_ || _) eqn:Hb.
      * apply bool_trusted in Hb. injection Hrun as <-. apply (decided_same q c); try done.
        { by left. }
        simpl. intros policy status [Hin | Hin]%elem_of_app; [by left |].
        apply list_elem_of_singleton in Hin. injection Hin as -> _ _.
        rewrite (asks_recoverable _ Hq) in Hb. by destruct Hb.
      * injection Hrun as <-. apply decided_post; [done |].
        apply (decided_same q c); try done; by left.
    + unfold status_verified in Hrun.
      destruct (GetSecurityStyleFromTrustResult (evaluated q')); [| done].
      injection Hrun as <-. apply (decided_same q c); try done; [by left |].
      simpl. intros policy status [Hin | Hin]%elem_of_app; [by left |].
      by apply list_elem_of_singleton in Hin.
  - destruct (io_thread c) as [| task rest] eqn:Hio; [by injection Hrun as <- |].
    by eapply decided_io.
  - destruct (ui_thread c) as [| task rest] eqn:Hui; [by injection Hrun as <- |].
    pose proof (ui_sound _ _ Hok) as Ht. rewrite Hui in Ht. apply Forall_cons in Ht as [Ht _].
    destruct task as [| | | q' policy status | |]; try done. injection Hrun as <-.
    apply (decided_same q c); try done; simpl.
    + intros policy' status' Hin. left. rewrite Hui. by right.
    + intros policy' status' [Hin | Hin]%elem_of_app; [by left |].
      apply list_elem_of_singleton in Hin. right. right. rewrite Hui.
      injection Hin as -> -> ->. left.
Qed.

Lemma decided_steps es q es' c c' :
  controller_ok es c -> asks q -> Forall event_ok es' -> Forall agrees es' ->
  steps es' c = Ok c' -> decided q c -> decided q c'.
Proof.
  intros Hok Hq. revert es c Hok. induction es' as [| e es' IH]; intros es c Hok Hev Hag Hrun Hd.
  - by injection Hrun as <-.
  - apply Forall_cons in Hev as [He Hev]. apply Forall_cons in Hag as [Ha Hag].
    destruct (step_ok es e c Hok He) as (c1 & Hstep & Hok1). simpl in Hrun.
    rewrite Hstep in Hrun. simpl in Hrun.
    apply (IH (es ++ [e]) c1 Hok1 Hev Hag Hrun). by apply (decided_step es q e c).
Qed.

Lemma agrees_other e :
  match e with EAllow _ _ _ | ERestore _ _ => False | _ => True end -> agrees e.
Proof.
  intros He a' [(cert & Hin & _) | (session & order & kept & Hin & _)];
    apply list_elem_of_singleton in Hin; by subst e.
Qed.
End remembered.

(** ** A query is answered *)
Definition tasks c : list closure := workers c ++ main_queue c ++ io_thread c ++ ui_thread c.

Lemma runnable_runs es e c c' :
  controller_ok es c -> runnable e c = true -> step e c = Ok c' -> (work c' < work c)%nat.
Proof.
  intros Hok Hr Hrun. unfold work.
  destruct e as [| | | | n | | |]; cbn [runnable step] in *; try done.
  - apply Nat.ltb_lt, lookup_lt_is_Some_2 in Hr as [task Hn]. rewrite Hn in Hrun.
    pose proof (Forall_lookup_1 _ _ _ _ (workers_sound _ _ Hok) Hn) as Ht.
    destruct task; try done. injection Hrun as <-. simpl. rewrite length_app.
    pose proof (length_delete (workers c) n (ex_intro _ _ Hn)). apply lookup_lt_Some in Hn. simpl. lia.
  - destruct (main_queue c) as [| task rest] eqn:Hm; [done |].
    pose proof (main_sound _ _ Hok) as Ht. rewrite Hm in Ht. apply Forall_cons in Ht as [Ht _].
    destruct task as [| [] q result | | | |]; try done; cbn [run_closure] in Hrun.
    + unfold load_verified in Hrun. simpl in Hrun. destruct (_ || _); injection Hrun as <-; simpl;
        rewrite ?length_app; simpl; lia.
    + unfold status_verified in Hrun. destruct (GetSecurityStyleFromTrustResult _); [| done].
      injection Hrun as <-. simpl. lia.
  - destruct (io_thread c) as [| task rest] eqn:Hi; [done |].
    pose proof (io_sound _ _ Hok) as Ht. rewrite Hi in Ht. apply Forall_cons in Ht as [Ht _].
    destruct task as [| | q result | | cert host status | certs]; try done; cbn [run_closure] in Hrun.
    + destruct Ht as [-> Hnot].
      destruct (decide_rejected_run q (c <| io_thread := rest |>) Hnot)
        as (cache & policy & Hrun' & _).
      { intros h hash b Hb. by apply (cache_sound _ _ Hok h hash). }
      rewrite Hrun' in Hrun. injection Hrun as <-. simpl. rewrite length_app. simpl. lia.
    + apply bind_Ok_inv in Hrun as (cache & _ & [= <-]). simpl. lia.
    + apply bind_Ok_inv in Hrun as (cache & _ & [= <-]). simpl. lia.
  - destruct (ui_thread c) as [| task rest] eqn:Hu; [done |].
    pose proof (ui_sound _ _ Hok) as Ht. rewrite Hu in Ht. apply Forall_cons in Ht as [Ht _].
    destruct task; try done. injection Hrun as <-. simpl. lia.
Qed.

Lemma runnable_ok e c : runnable e c = true -> event_ok e /\ forall host hash a, agrees host hash a e.
Proof.
  intros Hr. split; [by destruct e |]. intros host hash a. apply agrees_other. by destruct e.
Qed.

(** Runs of the threads are bounded. *)
Lemma threads_end es es' c c' :
  controller_ok es c -> all_runnable es' c -> steps es' c = Ok c' ->
  (length es' + work c' <= work c)%nat /\ Forall event_ok es' /\
  (forall host hash a, Forall (agrees host hash a) es').
Proof.
  revert es c. induction es' as [| e es' IH]; intros es c Hok Hr Hrun.
  - injection Hrun as <-. split_and!; [done | done | done].
  - destruct Hr as [Hr Hrest]. cbn [steps] in Hrun. apply bind_Ok_inv in Hrun as (c1 & H1 & Hrun).
    destruct (runnable_ok e c Hr) as [He Ha].
    destruct (step_ok es e c Hok He) as (c2 & H2 & Hok1). rewrite H1 in H2. injection H2 as <-.
    destruct (IH _ c1 Hok1 (Hrest c1 H1) Hrun) as (Hn & Hes & Hag).
    pose proof (runnable_runs es e c c1 Hok Hr H1). simpl.
    split_and!; [lia | by constructor | intros; by constructor].
Qed.

(** A query that was made is under way or answered. *)
Definition pending q c : Prop :=
  (exists task, task ∈ tasks c /\ about q task) \/
  (exists policy status, Decision q policy status ∈ completions c).

Lemma pending_mono q c c' :
  (forall task, task ∈ tasks c -> about q task -> pending q c') ->
  (forall call, call ∈ completions c -> call ∈ completions c') ->
  pending q c -> pending q c'.
Proof.
  intros Ht Hc [(task & Hin & Hq) | (policy & status & Hin)]; [by eapply Ht |].
  right. exists policy, status. by apply Hc.
Qed.

(** The closures that are left stay. *)
Lemma pending_ran q c c' task :
  (forall t, t ∈ tasks c -> t = task \/ t ∈ tasks c') ->
  (forall call, call ∈ completions c -> call ∈ completions c') ->
  (about q task -> pending q c') -> pending q c -> pending q c'.
Proof.
  intros Ht Hc Hq. apply pending_mono; [| done]. intros t Hin Hab.
  destruct (Ht t Hin) as [-> | Hin']; [by apply Hq |]. left. by exists t.
Qed.

Ltac same_tasks := unfold tasks; simpl; set_solver.

Lemma pending_step es q e c c' :
  controller_ok es c -> step e c = Ok c' -> pending q c \/ e = EDecide q -> pending q c'.
Proof.
  intros Hok Hrun [Hp | ->].
  2: { injection Hrun as <-. left. exists (EvaluateTrust true q). split; [| done]. same_tasks. }
  destruct e as [q' | q' | cert host status | session order | n | | |]; cbn [step] in Hrun.
  1, 2: injection Hrun as <-; revert Hp; apply pending_mono; [| done];
    intros task Hin Hq; left; exists task; split; [| done]; revert Hin; same_tasks.
  - destruct (allowCert_ok cert host status c) as (cert' & Hallow & _). rewrite Hallow in Hrun.
    injection Hrun as <-. revert Hp. apply pending_mono; [| done].
    intros task Hin Hq. left. exists task. split; [| done]. revert Hin. same_tasks.
  - injection Hrun as <-. revert Hp. apply pending_mono; [| done].
    intros task Hin Hq. left. exists task. split; [| done]. revert Hin. same_tasks.
  - destruct (workers c !! n) as [task |] eqn:Hn; [| by injection Hrun as <-].
    pose proof (Forall_lookup_1 _ _ _ _ (workers_sound _ _ Hok) Hn) as Ht.
    destruct task as [for_load q' | | | | |]; try done. injection Hrun as <-.
    revert Hp. apply (pending_ran _ _ _ (EvaluateTrust for_load q')); [| done |].
    + intros t. unfold tasks. simpl. rewrite (delete_Permutation _ _ _ Hn) at 1. set_solver.
    + destruct for_load; [intros -> | done]. left. exists (TrustEvaluated true q (evaluated q)).
      split; [| done]. unfold tasks, evaluated. simpl. set_solver.
  - destruct (main_queue c) as [| task rest] eqn:Hm; [by injection Hrun as <- |].
    pose proof (main_sound _ _ Hok) as Ht. rewrite Hm in Ht. apply Forall_cons in Ht as [Ht _].
    destruct task as [| for_load q' result | | | |]; try done.
    destruct for_load; cbn [run_closure] in Hrun.
    + unfold load_verified in Hrun. simpl in Hrun. destruct (_ || _); injection Hrun as <-; revert Hp;
        apply (pending_ran _ _ _ (TrustEvaluated true q' result)); simpl.
      1, 4: intros t; unfold tasks; simpl; rewrite Hm; set_solver.
      1, 3: set_solver.
      * intros ->. right. eexists _, _. apply elem_of_app. right. left.
      * intros ->. left. exists (DecideRejected q result). split; [| done]. same_tasks.
    + unfold status_verified in Hrun. destruct (GetSecurityStyleFromTrustResult _); [| done].
      injection Hrun as <-. revert Hp. apply (pending_ran _ _ _ (TrustEvaluated false q' result)); simpl.
      * intros t. unfold tasks. simpl. rewrite Hm. set_solver.
      * set_solver.
      * done.
  - destruct (io_thread c) as [| task rest] eqn:Hi; [by injection Hrun as <- |].
    pose proof (io_sound _ _ Hok) as Ht. rewrite Hi in Ht. apply Forall_cons in Ht as [Ht _].
    destruct task as [| | q' result | | cert host status | certs]; try done; cbn [run_closure] in Hrun.
    + destruct Ht as [-> Hnot].
      destruct (decide_rejected_run q' (c <| io_thread := rest |>) Hnot)
        as (cache & policy & Hrun' & _).
      { intros h hash b Hb. by apply (cache_sound _ _ Hok h hash). }
      rewrite Hrun' in Hrun. injection Hrun as <-.
      revert Hp. apply (pending_ran _ _ _ (DecideRejected q' (evaluated q'))); simpl; [| done |].
      * intros t. unfold tasks. simpl. rewrite Hi. set_solver.
      * intros ->. left. eexists. split; [unfold tasks; simpl; do 3 (apply elem_of_app; right);
          apply elem_of_app; right; left | done].
    + apply bind_Ok_inv in Hrun as (cache & _ & [= <-]).
      revert Hp. apply (pending_ran _ _ _ (AllowOnIO cert host status)); [| done | done].
      intros t. unfold tasks. simpl. rewrite Hi. set_solver.
    + apply bind_Ok_inv in Hrun as (cache & _ & [= <-]).
      revert Hp. apply (pending_ran _ _ _ (AllowSession certs)); [| done | done].
      intros t. unfold tasks. simpl. rewrite Hi. set_solver.
  - destruct (ui_thread c) as [| task rest] eqn:Hu; [by injection Hrun as <- |].
    pose proof (ui_sound _ _ Hok) as Ht. rewrite Hu in Ht. apply Forall_cons in Ht as [Ht _].
    destruct task as [| | | q' policy status | |]; try done. injection Hrun as <-.
    revert Hp. apply (pending_ran _ _ _ (CallHandler q' policy status)); simpl.
    + intros t. unfold tasks. simpl. rewrite Hu. set_solver.
    + set_solver.
    + intros ->. right. exists policy, status. apply elem_of_app. right. left.
Qed.

Lemma pending_steps es q es' c c' :
  controller_ok es c -> Forall event_ok es' -> steps es' c = Ok c' ->
  pending q c \/ EDecide q ∈ es' -> pending q c'.
Proof.
  revert es c. induction es' as [| e es' IH]; intros es c Hok Hev Hrun Hp.
  - injection Hrun as <-. destruct Hp as [Hp | Hp]; [done | by apply elem_of_nil in Hp].
  - apply Forall_cons in Hev as [He Hev]. cbn [steps] in Hrun.
    apply bind_Ok_inv in Hrun as (c1 & H1 & Hrun).
    destruct (step_ok es e c Hok He) as (c2 & H2 & Hok1). rewrite H1 in H2. injection H2 as <-.
    apply (IH _ c1 Hok1 Hev Hrun). rewrite elem_of_cons in Hp.
    destruct Hp as [Hp | [Hp | Hp]]; [left | left | by right];
      apply (pending_step es q e c c1 Hok H1); [by left | by right].
Qed.

Lemma quiet_pending q c : quiet c -> pending q c -> exists policy status, Decision q policy status ∈ completions c.
Proof.
  intros (Hw & Hm & Hi & Hu)%quiet_empty [(task & Hin & _) | ?]; [| done].
  unfold tasks in Hin. rewrite Hw, Hm, Hi, Hu in Hin. by apply elem_of_nil in Hin.
Qed.

(** C32. Once the user has accepted a certificate for a host with some errors,
    every query made later about that certificate and host, with these errors or
    some of them, is answered, and that it was accepted by the user, in whatever
    order the threads run and whatever else is asked, unless the same certificate
    is accepted for the host again, by the user or with a session that is
    restored, with another status, which replaces the first.  No check fails, the
    closures that wait run out, and when nothing waits every query was answered. *)
Theorem allowed_certificate_is_accepted es cert a c es' q :
  Forall event_ok es -> steps es Controller_new = Ok c -> unasked q c ->
  is_status a -> Forall event_ok es' ->
  let hash := CalculateChainFingerprint256 (os_cert_handle cert) [] in
  Forall (agrees (host q) hash a) es' -> asks (host q) hash a q ->
  exists c', steps (EAllow cert (host q) a :: es') c = Ok c' /\
    (forall policy status, Decision q policy status ∈ completions c' ->
       policy = CERT_ACCEPT_POLICY_RECOVERABLE_ERROR_ACCEPTED_BY_USER) /\
    forall es'' c'', all_runnable es'' c' -> steps es'' c' = Ok c'' ->
      (length es'' <= work c')%nat /\
      (quiet c'' -> EDecide q ∈ es' ->
       exists status, Decision q CERT_ACCEPT_POLICY_RECOVERABLE_ERROR_ACCEPTED_BY_USER status
                        ∈ completions c'').
Proof.
  intros Hes Hrun [Htasks Hcalls] Ha Hes' hash Hag Hq.
  destruct (steps_ok [] es Controller_new new_ok Hes) as (c0 & Hrun0 & Hok).
  rewrite Hrun in Hrun0. injection Hrun0 as <-.
  destruct (step_ok es (EAllow cert (host q) a) c Hok Ha) as (c1 & Hstep & Hok1).
  destruct (allowCert_ok cert (host q) a c) as (cert' & Hallow & Hf).
  destruct (steps_ok _ es' c1 Hok1 Hes') as (c' & Hsteps & Hok').
  exists c'. split; [cbn [steps]; by rewrite Hstep |].
  assert (Hd1 : decided (host q) hash a q c1).
  { simpl in Hstep. rewrite Hallow in Hstep. injection Hstep as <-. split.
    - unfold eventual. simpl. rewrite foldl_app. simpl. by rewrite bool_decide_eq_true_2.
    - intros k result Hk. exfalso. simpl in Hk.
      apply lookup_app_Some in Hk as [Hk | [_ Hk]].
      + apply list_elem_of_lookup_2 in Hk. by apply (Htasks (DecideRejected q result)); [set_solver |].
      + by apply list_lookup_singleton_Some in Hk as [_ ?].
    - intros p st Hu. exfalso. by apply (Htasks (CallHandler q p st)); [set_solver |].
    - intros p st Hd. exfalso. by apply (Hcalls p st). }
  assert (Hd' : decided (host q) hash a q c')
    by exact (decided_steps _ _ _ _ q es' c1 c' Hok1 Hq Hes' Hag Hsteps Hd1).
  split; [intros policy status; apply (decided_call _ _ _ _ _ Hd') |].
  intros es'' c'' Hrunnable Hsteps'.
  destruct (threads_end _ es'' c' c'' Hok' Hrunnable Hsteps') as (Hn & Hes'' & Hag'').
  split; [lia |]. intros Hquiet Hasked.
  assert (Hpend : pending q c')
    by exact (pending_steps _ q es' c1 c' Hok1 Hes' Hsteps (or_intror Hasked)).
  assert (Hpend'' : pending q c'')
    by exact (pending_steps _ q es'' c' c'' Hok' Hes'' Hsteps' (or_introl Hpend)).
  destruct (quiet_pending q c'' Hquiet Hpend'') as (policy & status & Hin).
  assert (Hd'' : decided (host q) hash a q c'')
    by exact (decided_steps _ _ _ _ q es'' c' c'' Hok' Hq Hes'' (Hag'' _ _ _) Hsteps' Hd').
  exists status. rewrite (decided_call _ _ _ _ _ Hd'' policy status Hin) in Hin. exact Hin.
Qed.
End soundness.

(** ** Concrete certificates and trusts *)
Module ConcreteTrust.
#[export] Instance certificates : CertificateApi := {|
  X509Certificate := nat * list nat;
  OSCertHandle := nat;
  os_cert_handle := fst;
  GetIntermediateCertificates := snd;
  CreateFromHandle h l := Some (h, l);
  SHA256HashValue := list nat;
  SHA256HashValueLessThan h1 h2 := (list_sum h1 <? list_sum h2)%nat;
  CalculateChainFingerprint256 h l := h :: l;
|}.

Record sec_trust := { verdict : SecTrustResultType; leaf : nat; errors : Z }.

#[export] Instance trusts : TrustApi := {|
  SecTrust := sec_trust;
  SecTrustEvaluate t :=
    if decide (verdict t = kSecTrustResultConfirm) then None else Some (verdict t);
  SecTrustGetCertificateCount _ := 1;
  SecTrustGetCertificateAtIndex t _ := leaf t;
  CreateX509CertificateFromSecCertificate h l := Some (h, l);
  GetCertFailureStatusFromTrust t := errors t mod 2 ^ 32;
  IsCertStatusError status := negb (status =? 0);
|}.

Lemma concrete_trust_laws : trust_laws.
Proof.
  split; simpl.
  - by intros h l cert [= <-].
  - intros cert. by eexists.
  - by intros h l cert [= <-].
  - intros t. unfold is_status. apply Z.mod_pos_bound. lia.
  - intros t. case_decide; [done | congruence].
Qed.

Definition expired (number : nat) : Query :=
  {| trust := {| verdict := kSecTrustResultRecoverableTrustFailure; leaf := 7; errors := 2 |};
     host := "a.org"; number := number |}.

Definition leaf_certificate : X509Certificate := (7%nat, [8%nat]).

(** The user accepts two errors; a query with one of them comes before the IO
    thread knows. *)
Definition later : list event :=
  [EDecide (expired 1); EWorker 0; EMain; EIO; EIO; EUI].

Definition asked_after : Controller :=
  from_ok Controller_new (steps (EAllow leaf_certificate "a.org" 6 :: later) Controller_new).

Lemma accepted_only_by_user_witness :
  Forall event_ok (EAllow leaf_certificate "a.org" 6 :: later) /\
  exists c, steps (EAllow leaf_certificate "a.org" 6 :: later) Controller_new = Ok c /\
    forall call, call ∈ completions c ->
      completion_sound (EAllow leaf_certificate "a.org" 6 :: later) call.
Proof.
  assert (Hev : Forall event_ok (EAllow leaf_certificate "a.org" 6 :: later))
    by (repeat constructor; evaluate).
  split; [exact Hev | exact (accepted_only_by_user concrete_trust_laws _ Hev)].
Defined.

Lemma asked_after_decides :
  completions asked_after =
  [Decision (expired 1) CERT_ACCEPT_POLICY_RECOVERABLE_ERROR_ACCEPTED_BY_USER 2].
Proof. vm_cast_no_check (@eq_refl (list completion) (completions asked_after)). Qed.

Lemma asked_after_quiet : quiet asked_after.
Proof.
  assert (He : (work asked_after =? 0)%nat = true) by (vm_cast_no_check (@eq_refl bool true)).
  apply Nat.eqb_eq in He. unfold work in He.
  assert (Hw : length (workers asked_after) = 0%nat) by lia.
  assert (Hm : length (main_queue asked_after) = 0%nat) by lia.
  assert (Hi : length (io_thread asked_after) = 0%nat) by lia.
  assert (Hu : length (ui_thread asked_after) = 0%nat) by lia.
  apply nil_length_inv in Hw, Hm, Hi, Hu.
  intros []; cbn [runnable]; rewrite ?Hw, ?Hm, ?Hi, ?Hu; done.
Qed.

Lemma expired_asks : asks "a.org" (CalculateChainFingerprint256 (os_cert_handle leaf_certificate) []) 6
  (expired 1).
Proof.
  split; try reflexivity; [by eexists |]. split; [by vm_compute |]. intros i.
  change (certStatusFromTrustResult _ _) with 2. change 6 with (Z.lor 4 2).
  rewrite Z.lor_spec. intros ->. apply orb_true_r.
Qed.

Lemma later_agrees hash : Forall (agrees "a.org" hash 6) later.
Proof. repeat constructor; by apply agrees_other. Qed.

Lemma later_ok : Forall event_ok later.
Proof. repeat constructor. Qed.

Lemma nothing_asked : unasked (expired 1) Controller_new.
Proof. split; [by intros task ?%elem_of_nil | by intros p st ?%elem_of_nil]. Qed.

Lemma six_is_status : is_status 6.
Proof. unfold is_status. evaluate. Qed.

Lemma allowed_certificate_is_accepted_witness :
  exists status, Decision (expired 1) CERT_ACCEPT_POLICY_RECOVERABLE_ERROR_ACCEPTED_BY_USER status
    ∈ completions asked_after.
Proof.
  pose proof (allowed_certificate_is_accepted concrete_trust_laws [] leaf_certificate 6
    Controller_new later (expired 1) (Forall_nil_2 _) eq_refl nothing_asked six_is_status later_ok
    (later_agrees _) expired_asks) as (c' & Hrun & _ & Hend).
  assert (Hc : asked_after = c') by (unfold asked_after; change "a.org"%string with (host (expired 1));
    by rewrite Hrun).
  rewrite Hc. destruct (Hend [] c' I eq_refl) as [_ Hanswered].
  apply Hanswered; [rewrite <- Hc; exact asked_after_quiet | left].
Defined.

(** The accepted errors must cover the new ones. *)
Example another_error_is_undecided :
  completions (from_ok Controller_new
    (steps (EAllow leaf_certificate "a.org" 1 :: later) Controller_new)) =
  [Decision (expired 1) CERT_ACCEPT_POLICY_RECOVERABLE_ERROR_UNDECIDED_BY_USER 2].
Proof.
  vm_cast_no_check (@eq_refl (list completion)
    [Decision (expired 1) CERT_ACCEPT_POLICY_RECOVERABLE_ERROR_UNDECIDED_BY_USER 2]).
Qed.

Lemma QueryPolicy_spec_witness :
  exists c c' judgment,
    perform_all [RAllow leaf_certificate "a.org" 6] CertificatePolicyCache_new = Ok c /\
    QueryPolicy IO leaf_certificate "a.org" 6 c = Ok (c', judgment) /\ judgment = ALLOWED.
Proof.
  destruct (QueryPolicy_spec [RAllow leaf_certificate "a.org" 6] leaf_certificate "a.org" 6)
    as (c & c' & judgment & Hrun & Hquery & _ & Hspec).
  - intros r error Hr%list_elem_of_singleton. subst r. intros [= <-]. unfold is_status. evaluate.
  - unfold is_status. evaluate.
  - exists c, c', judgment. split_and!; [exact Hrun | exact Hquery |]. apply Hspec.
    exists 6. split; [reflexivity |]. split; [done | tauto].
Defined.
End ConcreteTrust.
