(* ===== verification/SessionStorage.v ===== *)
(** * Storage of sessions

    What a tab keeps of its session between two runs of the browser:
    [web/navigation/session_storage_builder.mm] and
    [navigation_item_storage_builder.mm], the storage objects
    [web/public/crw_session_storage.mm], [crw_navigation_item_storage.mm] and
    [crw_session_certificate_policy_cache_storage.mm] with their archives, and
    [web/web_state/session_certificate_policy_cache_storage_builder.mm].

    An [NSCoder] is a map from keys to typed values.  Encoding nil binds the
    key to nil; decoding an absent key gives nil, zero or no; a value of
    another type is a [Fault]. *)
From Stdlib Require Import Ascii.
From S2P Require Import Prelude External PageDisplayState NavigationItem SessionController.
From S2P Require Import NavigationManager SerializableUserData WebThread CertificatePolicies.

(** ** Code outside of the repository *)

(** URLs as text, and [net::GURLWithNSURL]. *)
Class UrlText `{GurlApi} := {
  possibly_invalid_spec : GURL -> string;
  GURL_of_text : string -> GURL;
  NSURL : Type;
  GURLWithNSURL : option NSURL -> GURL;
}.

(** The DER encoding of a certificate. *)
Class CertificateData `{CertificateApi} := {
  GetDEREncoded : OSCertHandle -> option string;
  CreateFromBytes : string -> option X509Certificate;
}.

(** What a decoder makes of a collection some of whose members decode to
    nil. *)
Class Unarchiver := decode_members : forall A, list (option A) -> chk (list A).

(** An object that encodes itself and is initialized from a decoder, to nil
    when it refuses what is there. *)
Class NSCoding (A C : Type) := {
  encodeWithCoder : A -> chk C;
  initWithCoder : C -> chk (option A);
}.

Fixpoint mapM_chk {A B} (f : A -> chk B) (l : list A) : chk (list B) :=
  match l with
  | [] => mret []
  | x :: l => y ← f x; ys ← mapM_chk f l; mret (y :: ys)
  end.

Section collections.
Context `{Unarchiver} {A C} `{!NSCoding A C}.

Definition encode_collection (l : list A) : chk (list C) := mapM_chk encodeWithCoder l.

Definition decode_collection (l : list C) : chk (list A) :=
  objects ← mapM_chk initWithCoder l;
  decode_members A objects.
End collections.

(** ** User agents and referrers in an archive *)
Definition GetUserAgentTypeDescription (type : UserAgentType) : string :=
  match type with UA_NONE => "NONE" | UA_MOBILE => "MOBILE" | UA_DESKTOP => "DESKTOP" end.

Definition GetUserAgentTypeWithDescription (description : string) : UserAgentType :=
  if String.eqb description "MOBILE" then UA_MOBILE
  else if String.eqb description "DESKTOP" then UA_DESKTOP
  else UA_NONE.

(** The numbers of the enumeration [ReferrerPolicy]. *)
Definition referrer_policies : list ReferrerPolicy :=
  [ReferrerPolicyAlways; ReferrerPolicyDefault; ReferrerPolicyNoReferrerWhenDowngrade;
   ReferrerPolicyNever; ReferrerPolicyOrigin; ReferrerPolicyOriginWhenCrossOrigin;
   ReferrerPolicySameOrigin; ReferrerPolicyStrictOrigin;
   ReferrerPolicyStrictOriginWhenCrossOrigin].

Definition policy_number (p : ReferrerPolicy) : Z :=
  match p with
  | ReferrerPolicyAlways => 0
  | ReferrerPolicyDefault => 1
  | ReferrerPolicyNoReferrerWhenDowngrade => 2
  | ReferrerPolicyNever => 3
  | ReferrerPolicyOrigin => 4
  | ReferrerPolicyOriginWhenCrossOrigin => 5
  | ReferrerPolicySameOrigin => 6
  | ReferrerPolicyStrictOrigin => 7
  | ReferrerPolicyStrictOriginWhenCrossOrigin => 8
  end.

(** [static_cast<web::ReferrerPolicy>(n)]: a number without a policy has no
    meaning. *)
Definition policy_of_number (n : Z) : chk ReferrerPolicy := vget referrer_policies n.

(** ** [CRWNavigationItemStorage] *)
Section item_storage.
Context `{GurlApi} `{PageTransitionApi} `{!WebClientApi} {text : UrlText}.

Record CRWNavigationItemStorage := {
  virtualURL : GURL;
  referrer : Referrer;
  timestamp : Z;
  title : string;
  displayState : PageDisplayState;
  shouldSkipRepostFormConfirmation : bool;
  userAgentType : UserAgentType;
  POSTData : option string;
  HTTPRequestHeaders : option (gmap string string);
}.

(** The values in the archive of an item: the bytes of a [std::string], an
    [int] or [int64_t], a [BOOL], and objects. *)
Inductive item_value :=
| IBytes (s : string)
| IInt (n : Z)
| IBool (b : bool)
| INil
| IString (s : string)
| IURL (u : NSURL)
| IState (d : serialization)
| IData (s : string)
| IHeaders (h : gmap string string).

Abbreviation item_coder := (gmap string item_value).
Implicit Types (d c : item_coder) (key : string).

Definition kNavigationItemStorageURLKey : string := "virtualUrlString".
Definition kNavigationItemStorageURLDeperecatedKey : string := "virtualUrl".
Definition kNavigationItemStorageReferrerURLKey : string := "referrerUrlString".
Definition kNavigationItemStorageReferrerURLDeprecatedKey : string := "referrer".
Definition kNavigationItemStorageReferrerPolicyKey : string := "referrerPolicy".
Definition kNavigationItemStorageTimestampKey : string := "timestamp".
Definition kNavigationItemStorageTitleKey : string := "title".
Definition kNavigationItemStoragePageDisplayStateKey : string := "state".
Definition kNavigationItemStoragePOSTDataKey : string := "POSTData".
Definition kNavigationItemStorageHTTPRequestHeadersKey : string := "httpHeaders".
Definition kNavigationItemStorageSkipRepostFormConfirmationKey : string :=
  "skipResubmitDataConfirmation".
Definition kNavigationItemStorageUserAgentTypeKey : string := "userAgentType".
Definition kNavigationItemStorageUseDesktopUserAgentDeprecatedKey : string :=
  "useDesktopUserAgent".

(** [GURL::spec()] *)
Definition spec (u : GURL) : chk string :=
  _ ← dcheck (is_valid u || String.eqb (possibly_invalid_spec u) "");
  mret (possibly_invalid_spec u).

(** [nscoder_util::EncodeString], [DecodeString] *)
Definition EncodeString key (s : string) c : item_coder := <[key := IBytes s]> c.

Definition DecodeString d key : chk string :=
  match d !! key with
  | Some (IBytes s) => mret s
  | None => mret ""%string
  | _ => Fault
  end.

Definition decodeInt64ForKey d key : chk Z :=
  match d !! key with Some (IInt n) => mret n | None => mret 0 | _ => Fault end.

(** A number that is no [int] raises an exception. *)
Definition decodeIntForKey d key : chk Z :=
  n ← decodeInt64ForKey d key;
  _ ← dcheck ((INT_MIN <=? n) && (n <=? INT_MAX));
  mret n.

Definition decodeBoolForKey d key : chk bool :=
  match d !! key with Some (IBool b) => mret b | None => mret false | _ => Fault end.

Definition encode_object {A} (object : A -> item_value) (o : option A) key c : item_coder :=
  <[key := match o with Some x => object x | None => INil end]> c.

(** An object, when it has the class that [of_class] recognizes. *)
Definition decode_object {A} (of_class : item_value -> option A) d key : chk (option A) :=
  match d !! key with
  | None | Some INil => mret None
  | Some v => match of_class v with Some x => mret (Some x) | None => Fault end
  end.

Definition as_string v := match v with IString s => Some s | _ => None end.
Definition as_url v := match v with IURL u => Some u | _ => None end.
Definition as_state v := match v with IState s => Some s | _ => None end.
Definition as_data v := match v with IData s => Some s | _ => None end.
Definition as_headers v := match v with IHeaders h => Some h | _ => None end.

Definition containsValueForKey d key : bool := bool_decide (is_Some (d !! key)).

Definition decode_url d : chk GURL :=
  if containsValueForKey d kNavigationItemStorageURLKey then
    s ← DecodeString d kNavigationItemStorageURLKey; mret (GURL_of_text s)
  else
    u ← decode_object as_url d kNavigationItemStorageURLDeperecatedKey; mret (GURLWithNSURL u).

Definition decode_referrer d : chk Referrer :=
  if containsValueForKey d kNavigationItemStorageReferrerURLKey then
    referrerString ← DecodeString d kNavigationItemStorageReferrerURLKey;
    n ← decodeIntForKey d kNavigationItemStorageReferrerPolicyKey;
    referrerPolicy ← policy_of_number n;
    mret {| referrer_url := GURL_of_text referrerString; policy := referrerPolicy |}
  else
    referrerURL ← decode_object as_url d kNavigationItemStorageReferrerURLDeprecatedKey;
    mret {| referrer_url := GURLWithNSURL referrerURL; policy := ReferrerPolicyDefault |}.

Definition decode_user_agent (virtualURL : GURL) d : chk UserAgentType :=
  if containsValueForKey d kNavigationItemStorageUserAgentTypeKey then
    userAgentDescription ← DecodeString d kNavigationItemStorageUserAgentTypeKey;
    mret (GetUserAgentTypeWithDescription userAgentDescription)
  else if IsAppSpecificURL virtualURL then mret UA_NONE
  else
    useDesktopUA ← decodeBoolForKey d kNavigationItemStorageUseDesktopUserAgentDeprecatedKey;
    mret (if useDesktopUA : bool then UA_DESKTOP else UA_MOBILE).

Definition item_initWithCoder d : chk (option CRWNavigationItemStorage) :=
  virtualURL ← decode_url d;
  referrer ← decode_referrer d;
  timestamp ← decodeInt64ForKey d kNavigationItemStorageTimestampKey;
  userAgentType ← decode_user_agent virtualURL d;
  title ← decode_object as_string d kNavigationItemStorageTitleKey;
  serializedDisplayState ← decode_object as_state d kNavigationItemStoragePageDisplayStateKey;
  skip ← decodeBoolForKey d kNavigationItemStorageSkipRepostFormConfirmationKey;
  POSTData ← decode_object as_data d kNavigationItemStoragePOSTDataKey;
  HTTPRequestHeaders ← decode_object as_headers d kNavigationItemStorageHTTPRequestHeadersKey;
  mret (Some
    {| virtualURL := virtualURL; referrer := referrer; timestamp := timestamp;
       title := default ""%string title;
       displayState := PageDisplayState_of_serialization (default ∅ serializedDisplayState);
       shouldSkipRepostFormConfirmation := skip; userAgentType := userAgentType;
       POSTData := POSTData; HTTPRequestHeaders := HTTPRequestHeaders |}).

Definition item_encodeWithCoder (s : CRWNavigationItemStorage) : chk item_coder :=
  url ← spec (virtualURL s);
  let c := EncodeString kNavigationItemStorageURLKey url ∅ in
  url ← spec (referrer_url (referrer s));
  let c := EncodeString kNavigationItemStorageReferrerURLKey url c in
  let c := <[kNavigationItemStorageReferrerPolicyKey :=
               IInt (policy_number (policy (referrer s)))]> c in
  let c := <[kNavigationItemStorageTimestampKey := IInt (timestamp s)]> c in
  let c := encode_object IString (Some (title s)) kNavigationItemStorageTitleKey c in
  let c := encode_object IState (Some (GetSerialization (displayState s)))
             kNavigationItemStoragePageDisplayStateKey c in
  let c := <[kNavigationItemStorageSkipRepostFormConfirmationKey :=
               IBool (shouldSkipRepostFormConfirmation s)]> c in
  let c := EncodeString kNavigationItemStorageUserAgentTypeKey
             (GetUserAgentTypeDescription (userAgentType s)) c in
  let c := encode_object IData (POSTData s) kNavigationItemStoragePOSTDataKey c in
  mret (encode_object IHeaders (HTTPRequestHeaders s)
          kNavigationItemStorageHTTPRequestHeadersKey c).

#[export] Instance item_coding : NSCoding CRWNavigationItemStorage item_coder :=
  {| encodeWithCoder := item_encodeWithCoder; initWithCoder := item_initWithCoder |}.

(** ** [NavigationItemStorageBuilder] *)
Definition item_BuildStorage (i : NavigationItemImpl) : CRWNavigationItemStorage :=
  {| virtualURL := GetVirtualURL i;
     referrer := GetReferrer i;
     timestamp := GetTimestamp i;
     title := GetTitle i;
     displayState := GetPageDisplayState i;
     shouldSkipRepostFormConfirmation := ShouldSkipRepostFormConfirmation i;
     userAgentType := GetUserAgentType i;
     POSTData := GetPostData i;
     HTTPRequestHeaders := GetHttpRequestHeaders i |}.

(** The new item gets the identifier [unique_id]. *)
Definition BuildNavigationItemImpl (unique_id : Z) (s : CRWNavigationItemStorage)
    : NavigationItemImpl :=
  NavigationItemImpl_new unique_id
    <| original_request_url_ := virtualURL s |>
    <| url_ := virtualURL s |>
    <| referrer_ := referrer s |>
    <| timestamp_ := timestamp s |>
    <| title_ := title s |>
    <| page_display_state_ := displayState s |>
    <| should_skip_repost_form_confirmation_ := shouldSkipRepostFormConfirmation s |>
    <| user_agent_type_ := userAgentType s |>
    <| post_data_ := POSTData s |>
    <| http_request_headers_ := HTTPRequestHeaders s |>.
End item_storage.

(** ** [CRWSessionCertificateStorage] and [CRWSessionCertificatePolicyCacheStorage] *)
Section certificate_storage.
Context `{CertificateApi} {data : CertificateData} `{!Unarchiver}.

Inductive certificate_value :=
| CNil
| CData (s : string)
| CString (s : string)
| CNumber (n : Z).

Abbreviation certificate_coder := (gmap string certificate_value).

Definition kCertificateSerializationKey : string := "CertificateSerializationKey".
Definition kHostSerializationKey : string := "HostSerializationKey".
Definition kStatusSerializationKey : string := "StatusSerializationKey".

Definition CertificateToNSData (certificate : option X509Certificate) : chk string :=
  certificate ← deref certificate;
  deref (GetDEREncoded (os_cert_handle certificate)).

Definition NSDataToCertificate (data : string) : option X509Certificate := CreateFromBytes data.

Definition initWithCertificate (cert : option X509Certificate) (host : string) (status : Z)
    : CRWSessionCertificateStorage :=
  {| storage_certificate := cert; storage_host := host; storage_status := status |}.

(** An [NSData], an [NSString], an [NSNumber], or nil. *)
Definition as_data_object (v : option certificate_value) : chk (option string) :=
  match v with
  | Some (CData s) => mret (Some s)
  | None | Some CNil => mret None
  | _ => Fault
  end.

Definition as_string_object (v : option certificate_value) : chk (option string) :=
  match v with
  | Some (CString s) => mret (Some s)
  | None | Some CNil => mret None
  | _ => Fault
  end.

Definition as_number_object (v : option certificate_value) : chk (option Z) :=
  match v with
  | Some (CNumber n) => mret (Some n)
  | None | Some CNil => mret None
  | _ => Fault
  end.

(** [!data.length], also for nil *)
Definition without_length (s : option string) : bool :=
  match s with Some s => String.eqb s "" | None => true end.

(** [unsignedIntegerValue] as a [net::CertStatus], 32 bits wide. *)
Definition cert_status_value (n : Z) : Z := n mod 2 ^ 32.

(** The part that both formats share. *)
Definition certificate_of (cert_data host_string status_number : option certificate_value)
    : chk (option CRWSessionCertificateStorage) :=
  certData ← as_data_object cert_data;
  hostString ← as_string_object host_string;
  statusNumber ← as_number_object status_number;
  match certData, hostString, statusNumber with
  | Some certData, Some hostString, Some statusNumber =>
      if without_length (Some certData) || without_length (Some hostString) then mret None
      else mret (Some (initWithCertificate (NSDataToCertificate certData) hostString
                         (cert_status_value statusNumber)))
  | _, _, _ => mret None
  end.

Definition certificate_initWithCoder (d : certificate_coder)
    : chk (option CRWSessionCertificateStorage) :=
  certificate_of (d !! kCertificateSerializationKey) (d !! kHostSerializationKey)
    (d !! kStatusSerializationKey).

Definition certificate_encodeWithCoder (s : CRWSessionCertificateStorage)
    : chk certificate_coder :=
  cert_data ← CertificateToNSData (storage_certificate s);
  mret (<[kStatusSerializationKey := CNumber (storage_status s)]>
       (<[kHostSerializationKey := CString (storage_host s)]>
       (<[kCertificateSerializationKey := CData cert_data]> ∅))).

#[export] Instance certificate_coding : NSCoding CRWSessionCertificateStorage certificate_coder :=
  {| encodeWithCoder := certificate_encodeWithCoder;
     initWithCoder := certificate_initWithCoder |}.

(** [initWithDeprecatedSerialization:]: the members of an array. *)
Definition DeprecatedSerializationIndexCount : nat := 3.

Definition initWithDeprecatedSerialization (serialization : list certificate_value)
    : chk (option CRWSessionCertificateStorage) :=
  if negb (length serialization =? DeprecatedSerializationIndexCount)%nat then mret None
  else certificate_of (serialization !! 0%nat) (serialization !! 1%nat) (serialization !! 2%nat).

Record CRWSessionCertificatePolicyCacheStorage := {
  certificateStorages : option (list CRWSessionCertificateStorage);
}.

Inductive cache_value :=
| KCertificates (l : list certificate_coder)
| KDeprecated (l : list (list certificate_value))
| KNil.

Abbreviation cache_coder := (gmap string cache_value).

Definition kCertificateStoragesKey : string := "kCertificateStoragesKey".
Definition kCertificateStoragesDeprecatedKey : string := "allowedCertificates".

Fixpoint deprecated_storages (serializations : list (list certificate_value))
    : chk (list CRWSessionCertificateStorage) :=
  match serializations with
  | [] => mret []
  | s :: serializations =>
      storage ← initWithDeprecatedSerialization s;
      storages ← deprecated_storages serializations;
      mret (match storage with Some x => x :: storages | None => storages end)
  end.

Definition cache_initWithCoder (d : cache_coder)
    : chk (option CRWSessionCertificatePolicyCacheStorage) :=
  storages ← match d !! kCertificateStoragesKey with
             | Some (KCertificates l) => decode_collection l
             | None | Some KNil => mret []
             | _ => Fault
             end;
  match storages with
  | _ :: _ => mret (Some {| certificateStorages := Some storages |})
  | [] =>
      deprecated ← match d !! kCertificateStoragesDeprecatedKey with
                   | Some (KDeprecated l) => mret l
                   | None | Some KNil => mret []
                   | _ => Fault
                   end;
      storages ← deprecated_storages deprecated;
      mret (Some {| certificateStorages := Some storages |})
  end.

Definition cache_encodeWithCoder (s : CRWSessionCertificatePolicyCacheStorage) : chk cache_coder :=
  match certificateStorages s with
  | None => mret {[ kCertificateStoragesKey := KNil ]}
  | Some storages =>
      l ← encode_collection storages;
      mret {[ kCertificateStoragesKey := KCertificates l ]}
  end.

#[export] Instance cache_coding : NSCoding CRWSessionCertificatePolicyCacheStorage cache_coder :=
  {| encodeWithCoder := cache_encodeWithCoder; initWithCoder := cache_initWithCoder |}.

(** *** [SessionCertificatePolicyCacheStorageBuilder] *)

(** [setWithSet:] of nil is the empty set. *)
Definition cache_BuildStorage (cache : SessionCertificatePolicyCacheImpl)
    : CRWSessionCertificatePolicyCacheStorage :=
  {| certificateStorages := Some (default [] (GetAllowedCerts cache)) |}.

(** A message to nil answers nil. *)
Definition BuildSessionCertificatePolicyCache
    (cache_storage : option CRWSessionCertificatePolicyCacheStorage)
    : SessionCertificatePolicyCacheImpl :=
  SetAllowedCerts (match cache_storage with Some s => certificateStorages s | None => None end)
    SessionCertificatePolicyCacheImpl_new.
End certificate_storage.

(** ** [CRWSessionStorage] *)
Section session_storage.
Context `{GurlApi} `{PageTransitionApi} `{!WebClientApi} `{!BrowserURLRewriterImpl} {text : UrlText}.
Context `{CertificateApi} {data : CertificateData} `{!Unarchiver}.

Record CRWSessionStorage := {
  hasOpener : bool;
  lastCommittedItemIndex : Z;
  previousItemIndex : Z;
  itemStorages : list CRWNavigationItemStorage;
  certPolicyCacheStorage : option CRWSessionCertificatePolicyCacheStorage;
  userData : option SerializableUserDataImpl;
}.

Inductive session_value :=
| SBool (b : bool)
| SInt (n : Z)
| SItems (l : list (gmap string item_value))
| SCache (c : gmap string cache_value)
| SNil
| SUserData (v : archived).

Abbreviation session_coder := (gmap string session_value).
Implicit Types (d c : session_coder) (key : string).

Definition kCertificatePolicyCacheStorageKey : string := "certificatePolicyCacheStorage".
Definition kCertificatePolicyCacheStorageDeprecatedKey : string := "certificatePolicyManager".
Definition kItemStoragesKey : string := "entries".
Definition kHasOpenerKey : string := "openedByDOM".
Definition kLastCommittedItemIndexKey : string := "lastCommittedItemIndex".
Definition kPreviousItemIndexKey : string := "previousItemIndex".
Definition kLastCommittedItemIndexDeprecatedKey : string := "currentNavigationIndex".
Definition kPreviousItemIndexDeprecatedKey : string := "previousNavigationIndex".

Definition decode_bool d key : chk bool :=
  match d !! key with Some (SBool b) => mret b | None => mret false | _ => Fault end.

(** As in [decodeIntForKey]. *)
Definition decode_int d key : chk Z :=
  match d !! key with
  | Some (SInt n) => _ ← dcheck ((INT_MIN <=? n) && (n <=? INT_MAX)); mret n
  | None => mret 0
  | _ => Fault
  end.

Definition decode_index d key deprecated_key : chk Z :=
  if bool_decide (is_Some (d !! key)) then decode_int d key else decode_int d deprecated_key.

Definition decode_items d : chk (list CRWNavigationItemStorage) :=
  match d !! kItemStoragesKey with
  | Some (SItems l) => decode_collection l
  | None | Some SNil => mret []
  | _ => Fault
  end.

Definition decode_cache d key : chk (option CRWSessionCertificatePolicyCacheStorage) :=
  match d !! key with
  | Some (SCache c) => initWithCoder c
  | None | Some SNil => mret None
  | _ => Fault
  end.

(** The coder as the user data sees it. *)
Definition user_data_of d : Coder :=
  omap (fun v => match v with SUserData a => Some a | _ => None end) d.

Definition session_initWithCoder d : chk (option CRWSessionStorage) :=
  hasOpener ← decode_bool d kHasOpenerKey;
  last ← decode_index d kLastCommittedItemIndexKey kLastCommittedItemIndexDeprecatedKey;
  previous ← decode_index d kPreviousItemIndexKey kPreviousItemIndexDeprecatedKey;
  items ← decode_items d;
  let last := match items with [] => -1 | _ => last end in
  cache ← decode_cache d kCertificatePolicyCacheStorageKey;
  cache ← match cache with
          | Some _ => mret cache
          | None => decode_cache d kCertificatePolicyCacheStorageDeprecatedKey
          end;
  user ← Decode SerializableUserDataImpl_new (user_data_of d);
  mret (Some
    {| hasOpener := hasOpener; lastCommittedItemIndex := last; previousItemIndex := previous;
       itemStorages := items; certPolicyCacheStorage := cache; userData := Some user |}).

Definition session_encodeWithCoder (s : CRWSessionStorage) : chk session_coder :=
  let c : session_coder := {[ kHasOpenerKey := SBool (hasOpener s) ]} in
  let c := <[kLastCommittedItemIndexKey := SInt (wrap32 (lastCommittedItemIndex s))]> c in
  let c := <[kPreviousItemIndexKey := SInt (wrap32 (previousItemIndex s))]> c in
  items ← encode_collection (itemStorages s);
  let c := <[kItemStoragesKey := SItems items]> c in
  cache ← match certPolicyCacheStorage s with
          | Some cache => v ← encodeWithCoder cache; mret (SCache v)
          | None => mret SNil
          end;
  let c := <[kCertificatePolicyCacheStorageKey := cache]> c in
  mret (match userData s with
        | Some user => (SUserData <$> Encode user ∅) ∪ c
        | None => c
        end).

#[export] Instance session_coding : NSCoding CRWSessionStorage session_coder :=
  {| encodeWithCoder := session_encodeWithCoder; initWithCoder := session_initWithCoder |}.

(** ** [SessionStorageBuilder] *)

(** What [WebStateImpl] has of a session; its user data are in the store. *)
Record WebStateImpl := {
  created_with_opener_ : bool;
  navigation_manager_ : CRWSessionController;
  certificate_policy_cache_ : SessionCertificatePolicyCacheImpl;
  web_state : positive;
}.

#[export] Instance WebStateImpl_fields : Fields WebStateImpl := fun w =>
  {| created_with_opener_ := created_with_opener_ w;
     navigation_manager_ := navigation_manager_ w;
     certificate_policy_cache_ := certificate_policy_cache_ w; web_state := web_state w |}.

(** The loop over [session_controller.items]. *)
Fixpoint build_item_storages (s : CRWSessionController) (l : list SessionController.address)
    : chk (list CRWNavigationItemStorage) :=
  match l with
  | [] => mret []
  | a :: l => i ← item_at s a; storages ← build_item_storages s l; mret (item_BuildStorage i :: storages)
  end.

Definition session_BuildStorage (w : WebStateImpl) (store : data_store) : chk CRWSessionStorage :=
  let s := navigation_manager_ w in
  item_storages ← build_item_storages s (_items s);
  mret {| hasOpener := created_with_opener_ w;
          lastCommittedItemIndex := _lastCommittedItemIndex s;
          previousItemIndex := _previousItemIndex s;
          itemStorages := item_storages;
          certPolicyCacheStorage := Some (cache_BuildStorage (certificate_policy_cache_ w));
          userData := Some (CreateSerializableUserData store (web_state w)) |}.

(** The new items, with the identifiers after [counter]. *)
Fixpoint build_items (counter : Z) (storages : list CRWNavigationItemStorage)
    : list NavigationItemImpl :=
  match storages with
  | [] => []
  | s :: storages => BuildNavigationItemImpl (counter + 1) s :: build_items (counter + 1) storages
  end.

(** The manager and the controller before are destroyed. *)
Definition ExtractSessionState (w : WebStateImpl) (storage : CRWSessionStorage) (store : data_store)
    : chk (WebStateImpl * data_store) :=
  let s := navigation_manager_ w in
  let counter := unique_id_counter s in
  let items := build_items counter (itemStorages storage) in
  let session_controller :=
    initWithNavigationItems None items (lastCommittedItemIndex storage)
      <| _previousItemIndex := previousItemIndex storage |> in
  s ← SetSessionController session_controller
        (s <| _navigationManager := Some NavigationManagerImpl_new |>
           <| unique_id_counter := counter + vsize items |>);
  mret ({| created_with_opener_ := hasOpener storage;
           navigation_manager_ := s;
           certificate_policy_cache_ :=
             BuildSessionCertificatePolicyCache (certPolicyCacheStorage storage);
           web_state := web_state w |},
        AddSerializableUserData (web_state w) (userData storage) store).

(** [WebStateImpl::WebStateImpl] with the parameters that matter here;
    [counter] is the number of items the process has made. *)
Definition WebStateImpl_new (id : positive) (created_with_opener : bool)
    (browser_state : option positive) (counter : Z) (session_storage : option CRWSessionStorage)
    (store : data_store) : chk (WebStateImpl * data_store) :=
  let manager := initWithBrowserState None <| _navigationManager := Some NavigationManagerImpl_new |>
                   <| unique_id_counter := counter |> in
  let w := {| created_with_opener_ := created_with_opener; navigation_manager_ := manager;
              certificate_policy_cache_ := SessionCertificatePolicyCacheImpl_new;
              web_state := id |} in
  '(w, store) ← match session_storage with
                | Some storage => ExtractSessionState w storage store
                | None => mret (w, store)
                end;
  s ← SetBrowserState browser_state (navigation_manager_ w);
  mret (w <| navigation_manager_ := s |>, store).

(** *** The life of a tab

    It navigates, accepts certificates and gets user data; then the browser
    ends, and a new process makes the tab again from its archive. *)
Inductive tab_event :=
| TNavigate (r : nav_request)
| TAccept (cert : X509Certificate) (host : string) (status : Z)
| TClearCertificates
| TSetUserData (value : ns_value) (key : string)
| TRestart (id : positive) (browser_state : option positive).

Definition save (w : WebStateImpl) (store : data_store) : chk session_coder :=
  storage ← session_BuildStorage w store; encodeWithCoder storage.

Definition restore (archive : session_coder) (id : positive) (browser_state : option positive)
    : chk (WebStateImpl * data_store) :=
  storage ← initWithCoder archive;
  storage ← deref storage;
  WebStateImpl_new id false browser_state 0 (Some storage) ∅.

Definition tab_step (e : tab_event) (w : WebStateImpl) (store : data_store)
    : chk (WebStateImpl * data_store) :=
  match e with
  | TNavigate r =>
      s ← nav_step r (navigation_manager_ w);
      mret (w <| navigation_manager_ := s |>, store)
  | TAccept cert host status =>
      cache ← RegisterAllowedCertificate UI cert host status (certificate_policy_cache_ w);
      mret (w <| certificate_policy_cache_ := cache |>, store)
  | TClearCertificates =>
      cache ← ClearAllowedCertificates UI (certificate_policy_cache_ w);
      mret (w <| certificate_policy_cache_ := cache |>, store)
  | TSetUserData value key =>
      store ← AddSerializableData (web_state w) value key store;
      mret (w, store)
  | TRestart id browser_state =>
      archive ← save w store;
      restore archive id browser_state
  end.

(** A certificate is accepted as [allowCert] registers it: for a host, with
    the 32 bits of a status and without intermediates. *)
Definition tab_pre (e : tab_event) (w : WebStateImpl) : Prop :=
  match e with
  | TNavigate r => nav_pre r (navigation_manager_ w)
  | TAccept cert host status =>
      is_status status /\ host <> ""%string /\ GetIntermediateCertificates cert = []
  | TClearCertificates | TSetUserData _ _ => True
  | TRestart _ _ => vsize (_items (navigation_manager_ w)) <= INT_MAX
  end.

Inductive tab_reachable : WebStateImpl -> data_store -> Prop :=
| tab_reachable_start id opener browser_state w store :
    WebStateImpl_new id opener browser_state 0 None ∅ = Ok (w, store) -> tab_reachable w store
| tab_reachable_step e w store w' store' :
    tab_reachable w store -> tab_pre e w -> tab_step e w store = Ok (w', store') ->
    tab_reachable w' store'.
End session_storage.

(** ** What survives *)

(** The documented behaviour of URLs, of the encoding of certificates and of
    decoders: the text of a valid URL parses to it, the encoding of a
    certificate without intermediates parses to the same certificate, and a
    collection without nil is decoded as it is. *)
Record url_text_laws `{GurlApi} `{!UrlText} : Prop := {
  spec_empty u : possibly_invalid_spec u = ""%string <-> u = GURL_empty;
  text_empty : GURL_of_text "" = GURL_empty;
  spec_parses u : is_valid u = true -> GURL_of_text (possibly_invalid_spec u) = u;
}.

Record certificate_data_laws `{CertificateApi} `{!CertificateData} : Prop := {
  leaf_encoded cert : GetIntermediateCertificates cert = [] ->
    exists der cert', GetDEREncoded (os_cert_handle cert) = Some der /\ der <> ""%string /\
      CreateFromBytes der = Some cert' /\ fingerprint cert' = fingerprint cert /\
      GetIntermediateCertificates cert' = [] /\
      GetDEREncoded (os_cert_handle cert') = Some der;
}.

Definition unarchiver_law `{Unarchiver} : Prop :=
  forall A (l : list A), decode_members A (Some <$> l) = Ok l.

(** [x] is read back as [y], which is archived like [x]. *)
Definition archived_as `{NSCoding A C} (x y : A) : Prop :=
  exists c, encodeWithCoder x = Ok c /\ initWithCoder c = Ok (Some y) /\ encodeWithCoder y = Ok c.

Lemma collection_archived `{NSCoding A C} `{Unarchiver} (l l' : list A) :
  unarchiver_law -> Forall2 archived_as l l' ->
  exists cs, encode_collection l = Ok cs /\ decode_collection cs = Ok l' /\
    encode_collection l' = Ok cs.
Proof.
  intros Hlaw Hall. unfold encode_collection, decode_collection.
  enough (exists cs, mapM_chk encodeWithCoder l = Ok cs /\
    mapM_chk initWithCoder cs = Ok (Some <$> l') /\ mapM_chk encodeWithCoder l' = Ok cs)
    as (cs & -> & H2 & ->).
  { exists cs. rewrite H2. split_and!; [done | apply Hlaw | done]. }
  induction Hall as [| x y l l' (c & Hx & Hc & Hy) _ (cs & Hl & Hcs & Hl')].
  - by exists [].
  - exists (c :: cs). cbn [mapM_chk fmap list_fmap].
    by rewrite Hx, Hl, Hc, Hcs, Hy, Hl'.
Qed.

Section items_survive.
Context `{GurlApi} `{PageTransitionApi} `{!WebClientApi} {text : UrlText}.
Context (laws : url_text_laws).

(** A URL that has a text. *)
Definition savable_url (u : GURL) : Prop := is_valid u = true \/ u = GURL_empty.

Lemma spec_savable u :
  savable_url u -> spec u = Ok (possibly_invalid_spec u) /\ GURL_of_text (possibly_invalid_spec u) = u.
Proof.
  intros [Hu | ->]; unfold spec.
  - rewrite Hu. split; [done | by apply laws].
  - rewrite (proj2 (spec_empty laws GURL_empty) eq_refl). simpl. rewrite orb_true_r. split; [done | apply (text_empty laws)].
Qed.

Lemma spec_Ok u x : spec u = Ok x -> savable_url u.
Proof.
  unfold spec. intros Hs. run_inv Hs. apply orb_true_iff in Hrun as [Hv | He]; [by left | right].
  by apply (spec_empty laws), String.eqb_eq.
Qed.

Lemma policy_round p :
  policy_of_number (policy_number p) = Ok p /\
  (INT_MIN <=? policy_number p) && (policy_number p <=? INT_MAX) = true.
Proof. by destruct p. Qed.

Definition savable_storage (s : CRWNavigationItemStorage) : Prop :=
  savable_url (virtualURL s) /\ savable_url (referrer_url (referrer s)).

Lemma item_archived s : savable_storage s -> archived_as s s.
Proof.
  intros [[Hu Hu']%spec_savable [Hr Hr']%spec_savable].
  assert (Henc : exists c, item_encodeWithCoder s = Ok c /\ item_initWithCoder c = Ok (Some s)).
  { unfold item_encodeWithCoder. rewrite Hu, Hr. cbn [mbind chk_bind mret chk_ret].
    eexists. split; [reflexivity |].
    destruct (policy_round (policy (referrer s))) as [Hp Hi].
    destruct s as [u [ru p] t ti d sk ua po he]. cbn in *.
    unfold item_initWithCoder, decode_url, decode_referrer, decode_user_agent, containsValueForKey,
      decode_object, decodeIntForKey, decodeInt64ForKey, decodeBoolForKey, DecodeString,
      EncodeString, encode_object.
    repeat first [rewrite lookup_insert_eq | rewrite lookup_insert_ne by done].
    rewrite !bool_decide_eq_true_2 by (by eexists).
    cbn [mbind chk_bind mret chk_ret]. rewrite Hi. cbn [dcheck mbind chk_bind mret chk_ret].
    rewrite Hp. cbn [mbind chk_bind mret chk_ret as_string as_state as_data as_headers].
    rewrite Hu', Hr'. by destruct po, he, ua, d as [[] []]. }
  destruct Henc as (c & Hc & Hd). by exists c.
Qed.

(** What an item restored has of the item saved. *)
Record item_survives (i i' : NavigationItemImpl) : Prop := {
  kept_virtual_url : GetVirtualURL i' = GetVirtualURL i;
  url_is_virtual : GetURL i' = GetVirtualURL i;
  request_is_virtual : GetOriginalRequestURL i' = GetVirtualURL i;
  kept_referrer : GetReferrer i' = GetReferrer i;
  kept_timestamp : GetTimestamp i' = GetTimestamp i;
  kept_title : GetTitle i' = GetTitle i;
  kept_display_state : GetPageDisplayState i' = GetPageDisplayState i;
  kept_confirmation :
    ShouldSkipRepostFormConfirmation i' = ShouldSkipRepostFormConfirmation i;
  kept_user_agent : GetUserAgentType i' = GetUserAgentType i;
  kept_post_data : GetPostData i' = GetPostData i;
  kept_headers : GetHttpRequestHeaders i' = GetHttpRequestHeaders i;
}.

Lemma restored_virtual_url id s : GetVirtualURL (BuildNavigationItemImpl id s) = virtualURL s.
Proof.
  unfold GetVirtualURL. cbn. by rewrite (proj2 (is_empty_spec GURL_empty) eq_refl).
Qed.

Lemma rebuilt_storage id s : item_BuildStorage (BuildNavigationItemImpl id s) = s.
Proof.
  unfold item_BuildStorage. rewrite restored_virtual_url. by destruct s.
Qed.

Lemma built_item_survives id i :
  item_survives i (BuildNavigationItemImpl id (item_BuildStorage i)).
Proof. split; try done. apply restored_virtual_url. Qed.
End items_survive.

Section certificates_survive.
Context `{CertificateApi} {data : CertificateData} `{!Unarchiver}.
Context (laws : certificate_data_laws) (members : unarchiver_law).

(** A certificate of a session as it is registered: accepted for a host,
    without intermediates. *)
Definition savable_certificate (s : CRWSessionCertificateStorage) : Prop :=
  is_status (storage_status s) /\ storage_host s <> ""%string /\
  exists cert, storage_certificate s = Some cert /\ GetIntermediateCertificates cert = [].

Definition same_permission (s s' : CRWSessionCertificateStorage) : Prop :=
  storage_host s' = storage_host s /\ storage_status s' = storage_status s /\
  storage_fingerprint s' = storage_fingerprint s.

Lemma certificate_archived s :
  savable_certificate s -> exists s', archived_as s s' /\ same_permission s s' /\ savable_certificate s'.
Proof.
  destruct s as [cert host status]. intros (Hst & Hh & x & Hx & Hi). simpl in *. subst cert.
  destruct (leaf_encoded laws x Hi) as (der & y & Hd & Hne & Hy & Hf & Hi' & Hd').
  exists {| storage_certificate := Some y; storage_host := host; storage_status := status |}.
  split; [| split; [| split_and!; [done.. | by exists y]]].
  - eexists. unfold encodeWithCoder, initWithCoder. simpl.
    unfold certificate_encodeWithCoder, CertificateToNSData. simpl. rewrite Hd, Hd'. simpl.
    split; [reflexivity | split; [| reflexivity]].
    unfold certificate_initWithCoder.
    repeat first [rewrite lookup_insert_eq | rewrite lookup_insert_ne by done]. simpl.
    destruct der; [done |]. destruct host; [done |].
    unfold certificate_of, NSDataToCertificate, cert_status_value. simpl. rewrite Hy, Z.mod_small by exact Hst. done.
  - unfold same_permission, storage_fingerprint. simpl. by rewrite Hf.
Qed.

Lemma cache_archived storages :
  Forall savable_certificate storages ->
  exists storages', archived_as {| certificateStorages := Some storages |}
                                {| certificateStorages := Some storages' |} /\
    Forall2 same_permission storages storages' /\ Forall savable_certificate storages'.
Proof.
  intros Hall.
  assert (exists storages', Forall2 archived_as storages storages' /\
            Forall2 same_permission storages storages' /\ Forall savable_certificate storages')
    as (storages' & Ha & Hs & Hc).
  { induction Hall as [| s storages Hs _ (storages' & ? & ? & ?)].
    - exists []. by split_and!.
    - destruct (certificate_archived s Hs) as (s' & ? & ? & ?). exists (s' :: storages').
      split_and!; by constructor. }
  exists storages'. split; [| done].
  destruct (collection_archived _ _ members Ha) as (cs & H1 & H2 & H3).
  exists {[ kCertificateStoragesKey := KCertificates cs ]}.
  unfold encodeWithCoder, initWithCoder. simpl.
  unfold cache_encodeWithCoder, cache_initWithCoder. simpl. rewrite H1, H3. split; [done |].
  split; [| done]. rewrite lookup_singleton_eq, H2. simpl.
  destruct storages' as [| s' storages']; [| done].
  by rewrite lookup_singleton_ne.
Qed.
End certificates_survive.
