(* ===== verification/SessionRestart.v ===== *)
(** * Tabs over restarts of the browser

    [web/navigation/session_storage_builder.mm] and the constructor of
    [web/web_state/web_state_impl.mm]: a tab navigates, accepts certificates,
    is saved, and is made again from its archive ([SessionStorage.v]) by a new
    process, any number of times. *)
From Stdlib Require Import Ascii.
From S2P Require Import Prelude External PageDisplayState NavigationItem SessionController.
From S2P Require Import NavigationManager SerializableUserData WebThread CertificatePolicies SessionStorage.

Section sessions_survive.
Context `{GurlApi} `{PageTransitionApi} `{!WebClientApi} `{!BrowserURLRewriterImpl} {text : UrlText}.
Context `{CertificateApi} {data : CertificateData} `{!Unarchiver}.
Context (urls : url_text_laws) (ders : certificate_data_laws) (members : unarchiver_law).
Implicit Types (s : CRWSessionController) (a : SessionController.address) (c : gmap string session_value).
Abbreviation session_ok := (session_with []).

(** *** The archive of a session *)

Definition not_user_data (v : session_value) : Prop := forall x, v <> SUserData x.

(** The user data are next to the other values, whose keys are different. *)
Definition with_user_data (user : SerializableUserDataImpl) c : gmap string session_value :=
  (SUserData <$> Encode user ∅) ∪ c.

Lemma user_data_of_with user c :
  map_Forall (fun _ => not_user_data) c -> user_data_of (with_user_data user c) = Encode user ∅.
Proof.
  intros Hc. apply map_eq. intros key. unfold user_data_of, with_user_data.
  rewrite lookup_omap, lookup_union, lookup_fmap.
  destruct (Encode user ∅ !! key) as [a |]; simpl.
  - by destruct (c !! key).
  - destruct (c !! key) as [v |] eqn:Hv; [| done]. specialize (Hc key v Hv). simpl.
    destruct v; try done. by edestruct Hc.
Qed.

Lemma with_user_data_ne user c key :
  key <> kSerializedUserDataKey -> with_user_data user c !! key = c !! key.
Proof.
  intros Hne. unfold with_user_data. rewrite lookup_union, lookup_fmap. unfold Encode.
  rewrite lookup_insert_ne, lookup_empty by done. by destruct (c !! key).
Qed.

Lemma decoded_user_data user :
  exists u, Decode SerializableUserDataImpl_new (Encode user ∅) = Ok u /\ sud_data u = sud_data user.
Proof.
  unfold Decode. rewrite Encode_lookup. simpl. eexists. split; [reflexivity |]. simpl.
  unfold GetDecodedLegacyValues. rewrite decode_legacy_none; [apply (left_id_L ∅ (∪)) |].
  intros kv Hkv. unfold Encode. rewrite lookup_insert_ne; [apply lookup_empty |].
  simpl in Hkv. unfold GetLegacyKeyConversion in Hkv. rewrite !elem_of_cons in Hkv.
  destruct Hkv as [-> | [-> | [-> | Hkv%not_elem_of_nil]]]; done.
Qed.

(** The values of the members of a storage. *)
Definition session_values (opener : bool) (last previous : Z)
    (items : list (gmap string item_value)) (cache : gmap string cache_value)
    : gmap string session_value :=
  <[kCertificatePolicyCacheStorageKey := SCache cache]>
  (<[kItemStoragesKey := SItems items]>
  (<[kPreviousItemIndexKey := SInt previous]>
  (<[kLastCommittedItemIndexKey := SInt last]> {[ kHasOpenerKey := SBool opener ]}))).

Lemma session_values_plain opener last previous items cache :
  map_Forall (fun _ => not_user_data) (session_values opener last previous items cache).
Proof.
  unfold session_values. by repeat apply map_Forall_insert_2.
Qed.

Definition is_int (n : Z) : Prop := INT_MIN <= n <= INT_MAX.

Definition in_range (storages : list CRWNavigationItemStorage) (last previous : Z) : Prop :=
  is_int last /\ is_int previous /\ (storages = [] -> last = -1).

Lemma session_archived opener last previous storages (caches caches' : CRWSessionCertificatePolicyCacheStorage)
    user :
  in_range storages last previous -> Forall savable_storage storages -> archived_as caches caches' ->
  exists user', sud_data user' = sud_data user /\
    archived_as
      {| hasOpener := opener; lastCommittedItemIndex := last; previousItemIndex := previous;
         itemStorages := storages; certPolicyCacheStorage := Some caches; userData := Some user |}
      {| hasOpener := opener; lastCommittedItemIndex := last; previousItemIndex := previous;
         itemStorages := storages; certPolicyCacheStorage := Some caches'; userData := Some user' |}.
Proof.
  intros (Hl & Hp & Hempty) Hitems (cache & Hc1 & Hc2 & Hc3).
  assert (Hall : Forall2 archived_as storages storages).
  { clear -Hitems urls. induction Hitems; constructor; [by apply (item_archived urls) | done]. }
  destruct (collection_archived _ _ members Hall) as (items & Hi1 & Hi2 & _).
  destruct (decoded_user_data user) as (user' & Hu & Hsame).
  exists user'. split; [done |].
  set (values := session_values opener last previous items cache).
  assert (Hwrap : forall n, is_int n -> wrap32 n = n).
  { intros n [? ?]. apply wrap32_small. lia. }
  exists (with_user_data user values). split; [| split].
  - refine (_ : session_encodeWithCoder _ = _). unfold session_encodeWithCoder.
    cbn [hasOpener lastCommittedItemIndex previousItemIndex itemStorages
      certPolicyCacheStorage userData].
    rewrite Hi1. cbn [mbind chk_bind]. rewrite Hc1. cbn [mbind chk_bind mret chk_ret].
    by rewrite !Hwrap.
  - refine (_ : session_initWithCoder _ = _).
    unfold session_initWithCoder, decode_bool, decode_index, decode_int, decode_items, decode_cache.
    rewrite !with_user_data_ne, user_data_of_with, Hu by (done || apply session_values_plain).
    unfold values, session_values.
    repeat first [rewrite lookup_insert_eq | rewrite lookup_insert_ne by done | rewrite lookup_singleton_eq].
    rewrite !bool_decide_eq_true_2 by (by eexists).
    cbn [mbind chk_bind mret chk_ret].
    destruct Hl as [Hl1 Hl2], Hp as [Hp1 Hp2].
    rewrite !(proj2 (Z.leb_le _ _)) by done. cbn [andb dcheck mbind chk_bind mret chk_ret].
    rewrite Hi2. cbn [mbind chk_bind mret chk_ret]. rewrite Hc2. cbn [mbind chk_bind mret chk_ret].
    destruct storages; [rewrite (Hempty eq_refl) |]; done.
  - refine (_ : session_encodeWithCoder _ = _). unfold session_encodeWithCoder.
    cbn [hasOpener lastCommittedItemIndex previousItemIndex itemStorages
      certPolicyCacheStorage userData].
    rewrite Hi1. cbn [mbind chk_bind]. rewrite Hc3. cbn [mbind chk_bind mret chk_ret].
    rewrite !Hwrap by done. unfold with_user_data, Encode. by rewrite Hsame.
Qed.

(** *** The items of a controller *)

(** The items of the controller, in their order. *)
Definition items_of s (items : list NavigationItemImpl) : Prop :=
  Forall2 (fun a i => heap s !! a = Some i) (_items s) items.

Lemma items_of_session s : session_ok s -> exists items, items_of s items.
Proof.
  intros [(_ & Hdom & _) _ _ _ _].
  assert (Hall : forall a, a ∈ _items s -> is_Some (heap s !! a)).
  { intros a Ha. apply Hdom. unfold owned. simpl. apply elem_of_app. by left. }
  unfold items_of. induction (_items s) as [| a l IH]; [by exists [] |].
  destruct (Hall a) as [i Hi]; [left |]. destruct IH as [items Hitems]; [intros b ?; apply Hall; by right |].
  exists (i :: items). by constructor.
Qed.

Lemma build_item_storages_Ok s l items :
  Forall2 (fun a i => heap s !! a = Some i) l items ->
  build_item_storages s l = Ok (item_BuildStorage <$> items).
Proof.
  induction 1 as [| a i l items Ha _ IH]; [done |]. simpl. unfold item_at. by rewrite Ha, IH.
Qed.

(** Objects handed over keep their order, after those that are there. *)
Lemma adopt_items_of items : forall s before,
  (forall a, is_Some (heap s !! a) -> (a < next_address s)%positive) ->
  items_of s before -> items_of (adopt_items items s) (before ++ items).
Proof.
  induction items as [| i items IH]; intros s before Hlt Hs; simpl; [by rewrite app_nil_r |].
  replace (before ++ i :: items) with ((before ++ [i]) ++ items) by (by rewrite <- app_assoc).
  apply IH.
  - simpl. intros a [-> | [_ Ha%Hlt]]%lookup_insert_is_Some; lia.
  - unfold items_of. simpl. apply Forall2_app.
    + eapply Forall2_impl; [exact Hs |]. intros a x Ha. rewrite lookup_insert_ne; [done |].
      intros Heq. assert (a < next_address s)%positive; [apply Hlt; by exists x | lia].
    + repeat constructor. by rewrite lookup_insert_eq.
Qed.

Lemma adopt_items_indices items : forall s,
  _previousItemIndex (adopt_items items s) = _previousItemIndex s /\
  _pendingItemIndex (adopt_items items s) = _pendingItemIndex s /\
  _pendingItem (adopt_items items s) = _pendingItem s /\
  _transientItem (adopt_items items s) = _transientItem s /\
  _browserState (adopt_items items s) = _browserState s.
Proof. 
  induction items as [| i items IH]; intros s; simpl; [done |].
  edestruct IH as (E1 & E2 & E3 & E4 & E5).
  split_and!; [exact E1 | exact E2 | exact E3 | exact E4 | exact E5].
Qed.

Lemma build_items_spec storages : forall counter,
  item_BuildStorage <$> build_items counter storages = storages /\
  length (build_items counter storages) = length storages.
Proof.
  induction storages as [| s storages IH]; intros counter; [done |].
  cbn [build_items length]. rewrite fmap_cons, rebuilt_storage.
  by destruct (IH (counter + 1)) as [-> ->].
Qed.

(** *** A session extracted from a storage *)
Record extracted (counter : Z) storage s : Prop := {
  extracted_ok :
    -1 <= lastCommittedItemIndex storage ->
    -1 <= previousItemIndex storage < vsize (itemStorages storage) -> session_ok s;
  extracted_items : items_of s (build_items counter (itemStorages storage));
  extracted_last :
    _lastCommittedItemIndex s =
    Z.min (lastCommittedItemIndex storage) (vsize (itemStorages storage) - 1);
  extracted_previous : _previousItemIndex s = previousItemIndex storage;
  extracted_pending :
    _pendingItemIndex s = -1 /\ _pendingItem s = None /\ _transientItem s = None;
}.

Lemma ExtractSessionState_Ok w storage store :
  exists s, ExtractSessionState w storage store =
      Ok ({| created_with_opener_ := hasOpener storage; navigation_manager_ := s;
             certificate_policy_cache_ :=
               BuildSessionCertificatePolicyCache (certPolicyCacheStorage storage);
             web_state := web_state w |},
          AddSerializableUserData (web_state w) (userData storage) store) /\
    _navigationManager s = Some NavigationManagerImpl_new /\
    extracted (unique_id_counter (navigation_manager_ w)) storage s.
Proof.
  unfold ExtractSessionState. set (items := build_items _ _).
  destruct (adopt_items_indices items (initWithBrowserState None)) as (Hp & Hpi & Hpe & Ht & Hb).
  unfold SetSessionController, setNavigationManager. simpl. rewrite Hb. simpl.
  eexists. split; [reflexivity |]. split; [done |].
  assert (Hlen : vsize items = vsize (itemStorages storage)).
  { unfold vsize. f_equal. apply build_items_spec. }
  assert (Hitems : items_of (adopt_items items (initWithBrowserState None)) items).
  { apply (adopt_items_of items _ []); [| constructor].
    intros a. simpl. rewrite lookup_empty. by intros []. }
  assert (Hsize : vsize (_items (adopt_items items (initWithBrowserState None))) = vsize items).
  { unfold vsize. f_equal. by eapply Forall2_length. }
  split; simpl; try done; [| by rewrite Hsize, Hlen].
  intros Hl Hprev.
  destruct (session_initWithNavigationItems None items (lastCommittedItemIndex storage) Hl)
    as [Hh Hl' _ Hpend Hone].
  split; simpl in *; try done. by rewrite Hsize, Hlen.
Qed.

(** The browser state is set afterwards. *)
Lemma SetBrowserState_Ok b s m :
  _navigationManager s = Some m ->
  exists s', SetBrowserState b s = Ok s' /\ frame s s' /\ heap s' = heap s.
Proof.
  intros Hm. unfold SetBrowserState, setBrowserState. rewrite Hm. simpl.
  rewrite bool_decide_eq_true_2 by done. eexists. split; [reflexivity |]. by split.
Qed.

Lemma extracted_frame counter storage s s' :
  frame s s' -> heap s' = heap s -> extracted counter storage s -> extracted counter storage s'.
Proof.
  intros Hf Hheap [Hok Hi Hl Hp Hpe]. split.
  - intros ? ?. by eapply session_frame; [| apply Hok].
  - unfold items_of. by rewrite (frame_items _ _ Hf), Hheap.
  - by rewrite (frame_last _ _ Hf).
  - by rewrite (frame_previous _ _ Hf).
  - by rewrite (frame_pending _ _ Hf), (frame_pending_item _ _ Hf), (frame_transient _ _ Hf).
Qed.

Lemma WebStateImpl_new_restored id opener b counter storage store :
  exists s, WebStateImpl_new id opener b counter (Some storage) store =
      Ok ({| created_with_opener_ := hasOpener storage; navigation_manager_ := s;
             certificate_policy_cache_ :=
               BuildSessionCertificatePolicyCache (certPolicyCacheStorage storage);
             web_state := id |},
          AddSerializableUserData id (userData storage) store) /\
    extracted counter storage s.
Proof.
  unfold WebStateImpl_new.
  match goal with |- context [ExtractSessionState ?w _ _] =>
    destruct (ExtractSessionState_Ok w storage store) as (s & -> & Hm & Hex) end.
  cbn [mbind chk_bind navigation_manager_].
  destruct (SetBrowserState_Ok b s _ Hm) as (s' & -> & Hf & Hh). cbn [mbind chk_bind].
  exists s'. split; [done |]. by eapply extracted_frame.
Qed.

(** *** What can be saved, and what survives *)

(** A certificate of a session is as it was accepted. *)
Record tab_ok w : Prop := {
  tab_session : session_ok (navigation_manager_ w);
  tab_cache : is_Some (allowed_certs_ (certificate_policy_cache_ w));
  tab_certificates : Forall savable_certificate (allowed_certs (certificate_policy_cache_ w));
}.

(** The URLs of the items have a text. *)
Definition urls_savable s : Prop :=
  forall items, items_of s items -> Forall savable_storage (item_BuildStorage <$> items).

Record history_survives s s' : Prop := {
  restored_ok : session_ok s';
  restored_items : exists items items', items_of s items /\ items_of s' items' /\
    Forall2 item_survives items items';
  restored_last : _lastCommittedItemIndex s' = _lastCommittedItemIndex s;
  restored_previous : _previousItemIndex s' = _previousItemIndex s;
  restored_committed :
    _pendingItemIndex s' = -1 /\ _pendingItem s' = None /\ _transientItem s' = None;
}.

Record tab_survives w (store : data_store) w' (store' : data_store) : Prop := {
  survives_history : history_survives (navigation_manager_ w) (navigation_manager_ w');
  survives_opener : created_with_opener_ w' = created_with_opener_ w;
  survives_user_data : FromWebState store' (web_state w') = FromWebState store (web_state w);
  survives_certificates :
    Forall2 same_permission (allowed_certs (certificate_policy_cache_ w))
      (allowed_certs (certificate_policy_cache_ w'));
}.
End sessions_survive.

Section restarts.
Context `{GurlApi} `{PageTransitionApi} `{!WebClientApi} `{!BrowserURLRewriterImpl} {text : UrlText}.
Context `{CertificateApi} {data : CertificateData} `{!Unarchiver}.
Context (urls : url_text_laws) (ders : certificate_data_laws) (members : unarchiver_law).
Implicit Types (w : WebStateImpl) (store : data_store).
Abbreviation session_ok := (session_with []).

Lemma items_survive_building items : forall counter,
  Forall2 item_survives items (build_items counter (item_BuildStorage <$> items)).
Proof.
  induction items as [| i items IH]; intros counter; [constructor |].
  rewrite fmap_cons. cbn [build_items]. constructor; [apply built_item_survives | apply IH].
Qed.

(** The storage of a tab with these items. *)
Definition storage_of w store (items : list NavigationItemImpl) : CRWSessionStorage :=
  {| hasOpener := created_with_opener_ w;
     lastCommittedItemIndex := _lastCommittedItemIndex (navigation_manager_ w);
     previousItemIndex := _previousItemIndex (navigation_manager_ w);
     itemStorages := item_BuildStorage <$> items;
     certPolicyCacheStorage := Some (cache_BuildStorage (certificate_policy_cache_ w));
     userData := Some (CreateSerializableUserData store (web_state w)) |}.

Lemma BuildStorage_Ok w store items :
  items_of (navigation_manager_ w) items ->
  session_BuildStorage w store = Ok (storage_of w store items).
Proof.
  intros Hi. unfold session_BuildStorage. by rewrite (build_item_storages_Ok _ _ _ Hi).
Qed.

Lemma storage_in_range w store items :
  session_ok (navigation_manager_ w) -> items_of (navigation_manager_ w) items ->
  vsize (_items (navigation_manager_ w)) <= INT_MAX ->
  in_range (itemStorages (storage_of w store items))
    (_lastCommittedItemIndex (navigation_manager_ w)) (_previousItemIndex (navigation_manager_ w)).
Proof.
  intros [_ Hl Hp _ _] Hi Hsize. unfold in_range, is_int.
  assert (INT_MIN <= -1) by (by vm_compute). split_and!; try lia.
  intros Hnil%fmap_nil_inv. subst items. pose proof (Forall2_length _ _ _ Hi) as Hlen.
  simpl in Hlen. unfold vsize in Hl. lia.
Qed.

Lemma extracted_history w storage s items :
  session_ok (navigation_manager_ w) -> items_of (navigation_manager_ w) items ->
  itemStorages storage = item_BuildStorage <$> items ->
  lastCommittedItemIndex storage = _lastCommittedItemIndex (navigation_manager_ w) ->
  previousItemIndex storage = _previousItemIndex (navigation_manager_ w) ->
  extracted 0 storage s -> history_survives (navigation_manager_ w) s.
Proof.
  intros [_ Hl Hp _ _] Hi Est Elast Eprev [Hok Hitems Hlast Hprev Hpend].
  rewrite Est, Elast, Eprev in *.
  assert (Hsize : vsize (item_BuildStorage <$> items) = vsize (_items (navigation_manager_ w))).
  { unfold vsize. rewrite length_fmap. by rewrite (Forall2_length _ _ _ Hi). }
  rewrite Hsize in *. split; try done; [| | lia].
  - apply Hok; lia.
  - eexists items, _. split_and!; [done | done | apply items_survive_building].
Qed.

(** The archive has the entries of the user data only. *)
Lemma encode_user_data s s' u u' :
  hasOpener s = hasOpener s' -> lastCommittedItemIndex s = lastCommittedItemIndex s' ->
  previousItemIndex s = previousItemIndex s' -> itemStorages s = itemStorages s' ->
  certPolicyCacheStorage s = certPolicyCacheStorage s' ->
  userData s = Some u -> userData s' = Some u' -> sud_data u = sud_data u' ->
  session_encodeWithCoder s = session_encodeWithCoder s'.
Proof.
  intros Ho Hl Hp Hi Hc Hu Hu' Hd. unfold session_encodeWithCoder, Encode.
  by rewrite Ho, Hl, Hp, Hi, Hc, Hu, Hu', Hd.
Qed.

(** A tab saved, restored, and saved again. *)
Lemma tab_archived w store id b :
  tab_ok w -> urls_savable (navigation_manager_ w) ->
  vsize (_items (navigation_manager_ w)) <= INT_MAX ->
  exists archive w' store',
    save w store = Ok archive /\ restore archive id b = Ok (w', store') /\
    tab_survives w store w' store' /\ tab_ok w' /\ save w' store' = Ok archive.
Proof.
  intros [Hok Hcache Hcerts] Hurls Hsize. destruct (items_of_session _ Hok) as [items Hi].
  destruct (cache_archived ders members _ Hcerts) as (certs & Hc & Hsame & Hsav).
  destruct (session_archived urls members (created_with_opener_ w) _ _ _ _ _
              (CreateSerializableUserData store (web_state w))
              (storage_in_range w store items Hok Hi Hsize) (Hurls items Hi) Hc)
    as (user & Huser & archive & Hsave & Hload & Hsave').
  match type of Hload with _ = Ok (Some ?s) => set (storage := s) in * end.
  destruct (WebStateImpl_new_restored id false b 0 storage ∅) as (s & Hnew & Hex).
  pose proof (extracted_history w storage s items Hok Hi eq_refl eq_refl eq_refl Hex) as Hhist.
  exists archive. do 2 eexists. split_and!.
  - unfold save. rewrite (BuildStorage_Ok _ _ _ Hi). exact Hsave.
  - unfold restore. rewrite Hload. exact Hnew.
  - split; [exact Hhist | done | | exact Hsame].
    unfold FromWebState at 1. simpl. rewrite lookup_insert_eq. simpl. by rewrite Huser.
  - split; [apply Hhist | by eexists | exact Hsav].
  - unfold save. match goal with |- context [session_BuildStorage ?v ?st] =>
      rewrite (BuildStorage_Ok v st _ (extracted_items _ _ _ Hex)), <- Hsave' end.
    cbn [mbind chk_bind].
    eapply encode_user_data; [done | | | | done | reflexivity | reflexivity |]; simpl.
    + apply (restored_last _ _ Hhist).
    + apply (restored_previous _ _ Hhist).
    + apply build_items_spec.
    + unfold FromWebState. by rewrite lookup_insert_eq.
Qed.

(** Only a tab whose URLs have a text can be saved. *)
Lemma encoded_storages storages cs :
  encode_collection storages = Ok cs -> Forall savable_storage storages.
Proof.
  unfold encode_collection. revert cs. induction storages as [| s storages IH]; intros cs Hs; [done |].
  simpl in Hs. apply bind_Ok_inv in Hs as (c & Hc & Hs). apply bind_Ok_inv in Hs as (cs' & Hcs & _).
  constructor; [| by eapply IH]. unfold item_encodeWithCoder in Hc.
  apply bind_Ok_inv in Hc as (x & Hx & Hc). apply bind_Ok_inv in Hc as (y & Hy & _).
  split; by eapply spec_Ok.
Qed.

Lemma saved_urls w store archive :
  save w store = Ok archive -> urls_savable (navigation_manager_ w).
Proof.
  intros Hs items Hi. unfold save in Hs. rewrite (BuildStorage_Ok _ _ _ Hi) in Hs.
  change (session_encodeWithCoder (storage_of w store items) = Ok archive) in Hs.
  unfold session_encodeWithCoder in Hs. apply bind_Ok_inv in Hs as (cs & Hcs & _).
  by eapply encoded_storages.
Qed.

Lemma tab_start_ok id opener b w store :
  WebStateImpl_new id opener b 0 None ∅ = Ok (w, store) -> tab_ok w.
Proof.
  unfold WebStateImpl_new. cbn [mbind chk_bind mret chk_ret navigation_manager_].
  match goal with |- context [SetBrowserState b ?s] =>
    destruct (SetBrowserState_Ok b s NavigationManagerImpl_new eq_refl) as (s' & -> & Hf & _) end.
  intros [= <- <-]. split; [| by eexists | constructor].
  eapply session_frame; [exact Hf |]. destruct (session_initWithBrowserState None). by split.
Qed.

Lemma tab_step_ok e w store w' store' :
  tab_ok w -> tab_pre e w -> tab_step e w store = Ok (w', store') -> tab_ok w'.
Proof.
  intros Hok Hpre Hstep. pose proof Hok as [Hs [l Hl] Hc].
  destruct e as [r | cert host status | | value key | id b]; simpl in Hpre, Hstep.
  - apply bind_Ok_inv in Hstep as (s & Hr & Hstep). injection Hstep as <- <-.
    split; simpl; [by eapply nav_step_ok | by eexists | done].
  - injection Hstep as <- <-. unfold allowed_certs in *.
    split; simpl; [done | |]; rewrite Hl in *; simpl in *; [by eexists |].
    destruct Hpre as (? & ? & ?). constructor; [| done]. split_and!; [done.. | by exists cert].
  - injection Hstep as <- <-. unfold allowed_certs in *.
    split; simpl; [done | |]; rewrite Hl; simpl; [by eexists | done].
  - apply bind_Ok_inv in Hstep as (st & _ & Hstep). by injection Hstep as <- <-.
  - apply bind_Ok_inv in Hstep as (archive & Hsave & Hr).
    destruct (tab_archived w store id b Hok (saved_urls _ _ _ Hsave) Hpre)
      as (archive' & w1 & store1 & Hsave' & Hr' & _ & Hok' & _).
    rewrite Hsave in Hsave'. injection Hsave' as <-. rewrite Hr in Hr'. by injection Hr' as -> _.
Qed.

Lemma tab_reachable_ok w store : tab_reachable w store -> tab_ok w.
Proof. induction 1; [by eapply tab_start_ok | by eapply tab_step_ok]. Qed.

(** C6. A tab survives the end of the browser.  Whatever it has lived through,
    navigations, accepted certificates and earlier restarts: if the URLs of
    its items have a text, saving it and making it again from the archive
    succeed; the history restored is well formed and has the committed items
    of the one saved in their order, with all that is kept of an item, and
    the same indices; the opener, the user data and the accepted certificates
    are the same; and the tab restored has the same archive. *)
Theorem tab_survives_restart w store id b :
  tab_reachable w store -> urls_savable (navigation_manager_ w) ->
  vsize (_items (navigation_manager_ w)) <= INT_MAX ->
  exists archive w' store',
    save w store = Ok archive /\ restore archive id b = Ok (w', store') /\
    tab_survives w store w' store' /\ save w' store' = Ok archive.
Proof.
  intros Hw%tab_reachable_ok Hurls Hsize.
  destruct (tab_archived w store id b Hw Hurls Hsize) as (archive & w' & store' & ? & ? & ? & _ & ?).
  by exists archive, w', store'.
Qed.

Lemma permission_survives (certs certs' : list CRWSessionCertificateStorage) s' :
  Forall2 same_permission certs certs' -> s' ∈ certs' ->
  exists s, s ∈ certs /\ same_permission s s'.
Proof.
  intros Hall (n & Hn)%list_elem_of_lookup.
  destruct (Forall2_lookup_r _ _ _ _ _ Hall Hn) as (s & Hs & ?). exists s.
  split; [by eapply list_elem_of_lookup_2 | done].
Qed.

(** C7. What the user accepted for a host outlives the browser: after a
    restart, when the certificates of the restored tab have been given to the
    policy cache, in whatever order their set is enumerated, a query for the
    host and the certificate is answered with allowed for every error that
    the accepted status covers, unless the tab accepted that certificate for
    that host with two statuses. *)
Theorem accepted_certificates_survive w store id b w' store' accepted certificate order c :
  tab_reachable w store -> tab_step (TRestart id b) w store = Ok (w', store') ->
  vsize (_items (navigation_manager_ w)) <= INT_MAX ->
  accepted ∈ allowed_certs (certificate_policy_cache_ w) ->
  storage_certificate accepted = Some certificate ->
  (forall other, other ∈ allowed_certs (certificate_policy_cache_ w) ->
     storage_host other = storage_host accepted ->
     storage_fingerprint other = storage_fingerprint accepted ->
     storage_status other = storage_status accepted) ->
  statuses_ok c -> order ≡ₚ allowed_certs (certificate_policy_cache_ w') ->
  exists c', allow_all IO order c = Ok c' /\
    forall error, is_status error -> covers (storage_status accepted) error ->
      exists c'', QueryPolicy IO certificate (storage_host accepted) error c' = Ok (c'', ALLOWED).
Proof.
  intros Hw%tab_reachable_ok Hstep Hsize Hin Hcert Hsame Hst Hp.
  simpl in Hstep. apply bind_Ok_inv in Hstep as (archive & Hsave & Hr).
  destruct (tab_archived w store id b Hw (saved_urls _ _ _ Hsave) Hsize)
    as (archive' & w1 & store1 & Hsave' & Hr' & [_ _ _ Hperm] & [_ _ Hcerts] & _).
  rewrite Hsave in Hsave'. injection Hsave' as <-. rewrite Hr in Hr'. injection Hr' as <- <-.
  apply list_elem_of_lookup in Hin as [n Hn].
  destruct (Forall2_lookup_l _ _ _ _ _ Hperm Hn) as (kept & Hk & Hkh & Hks & Hkf).
  apply list_elem_of_lookup_2 in Hk.
  assert (Hf : storage_fingerprint accepted = Some (fingerprint certificate))
    by (unfold storage_fingerprint; by rewrite Hcert).
  assert (Hhas : Forall has_certificate (allowed_certs (certificate_policy_cache_ w'))).
  { eapply Forall_impl; [exact Hcerts |]. intros x (_ & _ & y & Hy & _). by exists y. }
  destruct (session_is_restored _ order c kept (fingerprint certificate) Hp Hk Hhas)
    as (c' & Hrun & Hstored).
  - by rewrite Hkf.
  - intros other Ho Hoh Hof. destruct (permission_survives _ _ _ Hperm Ho) as (s & Hs & Hh & Hss & Hsf).
    rewrite Hss, Hks. apply Hsame; [done | congruence | congruence].
  - exists c'. split; [done |]. intros error He Hcov.
    rewrite Hkh, Hks in Hstored.
    assert (Hok : forall hash a, allowed_ (policy_for (storage_host accepted) c') !! hash = Some a ->
              is_status a).
    { intros hash a Ha. destruct (allow_all_stored IO order c eq_refl) as (c1 & Hrun1 & Hfrom).
      { by rewrite Hp. }
      rewrite Hrun in Hrun1. injection Hrun1 as <-.
      destruct (Hfrom _ _ _ Ha) as [? | (x & Hx & _ & _ & <-)]; [by eapply Hst |].
      rewrite Hp in Hx. rewrite Forall_forall in Hcerts. apply (Hcerts x Hx). }
    eexists. unfold QueryPolicy. simpl. do 2 f_equal.
    apply (Check_spec certificate error _ He Hok). by exists (storage_status accepted).
Qed.
End restarts.

(** ** What old and damaged archives give *)
Section other_archives.
Context `{GurlApi} `{PageTransitionApi} `{!WebClientApi} `{!BrowserURLRewriterImpl} {text : UrlText}.
Context `{CertificateApi} {data : CertificateData} `{!Unarchiver}.

(** An item of an old archive, with its URLs as [NSURL]s and a flag for the
    desktop site. *)
Lemma old_item_restores (u r : NSURL) (desktop : bool) (d : gmap string item_value) :
  d = <[kNavigationItemStorageURLDeperecatedKey := IURL u]>
      (<[kNavigationItemStorageReferrerURLDeprecatedKey := IURL r]>
      {[ kNavigationItemStorageUseDesktopUserAgentDeprecatedKey := IBool desktop ]}) ->
  exists s, item_initWithCoder d = Ok (Some s) /\
    virtualURL s = GURLWithNSURL (Some u) /\
    referrer s = {| referrer_url := GURLWithNSURL (Some r); policy := ReferrerPolicyDefault |} /\
    userAgentType s =
      (if IsAppSpecificURL (GURLWithNSURL (Some u)) then UA_NONE
       else if desktop then UA_DESKTOP else UA_MOBILE) /\
    timestamp s = 0 /\ title s = ""%string /\ POSTData s = None.
Proof.
  intros ->. unfold item_initWithCoder, decode_url, decode_referrer, decode_user_agent,
    containsValueForKey, decode_object, decodeInt64ForKey, decodeBoolForKey, DecodeString.
  repeat first [rewrite lookup_insert_eq | rewrite lookup_insert_ne by done
    | rewrite lookup_singleton_eq | rewrite lookup_singleton_ne by done].
  rewrite !(bool_decide_eq_false_2 (is_Some None)) by (by intros []).
  cbn [mbind chk_bind mret chk_ret as_url].
  destruct (IsAppSpecificURL (GURLWithNSURL (Some u))); simpl; eexists; by split_and!.
Qed.

(** Without the certificates of a session the tab restored has no set for
    them, although the code means to give it an empty one, and forgets every
    certificate the user accepts. *)
Lemma accepted_certificates_are_lost storage id opener b counter store cert host status :
  certPolicyCacheStorage storage = None ->
  exists w store' w',
    WebStateImpl_new id opener b counter (Some storage) store = Ok (w, store') /\
    tab_step (TAccept cert host status) w store' = Ok (w', store') /\
    allowed_certs (certificate_policy_cache_ w') = [].
Proof.
  intros Hc. destruct (WebStateImpl_new_restored id opener b counter storage store) as (s & Hnew & _).
  do 3 eexists. split; [exact Hnew |]. split; [reflexivity |]. simpl. by rewrite Hc.
Qed.

(** Bytes that are no certificate are read as one that is null; it cannot be
    given to the policy cache, nor be saved again. *)
Lemma broken_certificate_faults (bytes host : string) n c :
  bytes <> ""%string -> host <> ""%string -> CreateFromBytes bytes = None ->
  exists s, certificate_of (Some (CData bytes)) (Some (CString host)) (Some (CNumber n)) = Ok (Some s) /\
    allow_all IO [s] c = Fault /\ certificate_encodeWithCoder s = Fault.
Proof.
  intros Hb Hh Hcert. destruct bytes as [| x bytes]; [done |]. destruct host as [| y host]; [done |].
  unfold certificate_of, NSDataToCertificate. simpl. rewrite Hcert. by eexists.
Qed.
End other_archives.

(** ** Concrete URLs, certificates and a tab *)
Module ConcreteTab.
Import ConcreteTransition.

(** A URL is its text, valid when it is not empty. *)
#[export, refine] Instance gurl : GurlApi := {|
  GURL := string;
  GURL_empty := ""%string;
  is_empty u := String.eqb u "";
  is_valid u := negb (String.eqb u "");
  has_ref _ := false;
  EqualsIgnoringRef := String.eqb;
  GetOrigin u := u;
  SchemeIsFile _ := false;
|}.
Proof. intros u. apply String.eqb_eq. Defined.

#[export] Instance client : WebClientApi := {| IsAppSpecificURL := String.prefix "chrome:" |}.
#[export] Instance no_rewriters : BrowserURLRewriterImpl := [].

#[export] Instance texts : UrlText :=
  {| possibly_invalid_spec u := u; GURL_of_text u := u; NSURL := string;
     GURLWithNSURL := default ""%string |}.

#[export] Instance certificates : CertificateApi := {|
  X509Certificate := string * list string;
  OSCertHandle := string;
  os_cert_handle := fst;
  GetIntermediateCertificates := snd;
  CreateFromHandle h l := Some (h, l);
  SHA256HashValue := string;
  SHA256HashValueLessThan := String.ltb;
  CalculateChainFingerprint256 h l := fold_left String.append l h;
|}.

#[export] Instance ders : CertificateData := {|
  GetDEREncoded h := Some ("D" +:+ h)%string;
  CreateFromBytes s :=
    match s with String "D"%char h => Some (h, []) | _ => None end;
|}.

(** A decoder that leaves out what is nil. *)
#[export] Instance members : Unarchiver := fun A l => Ok (omap id l).

Lemma text_laws : url_text_laws.
Proof. by split. Qed.

Lemma der_laws : certificate_data_laws.
Proof.
  split. intros [h l] Hl. simpl in Hl. subst l. exists ("D" +:+ h)%string, (h, []). by split_and!.
Qed.

Lemma member_law : unarchiver_law.
Proof.
  intros A l. unfold decode_members, members. f_equal.
  induction l as [| x l IH]; [done |]. simpl. f_equal. exact IH.
Qed.

Definition possible (e : tab_event) (w : WebStateImpl) : bool :=
  match e with
  | TNavigate (NReplaceSessionHistory _ _ | NsetPendingItemIndex _) => false
  | TAccept cert host status =>
      (0 <=? status) && (status <? 2 ^ 32) && negb (String.eqb host "")
      && match GetIntermediateCertificates cert with [] => true | _ => false end
  | TRestart _ _ => vsize (_items (navigation_manager_ w)) <=? INT_MAX
  | _ => true
  end.

Lemma possible_pre e w : possible e w = true -> tab_pre e w.
Proof.
  destruct e as [r | [h l] host status | | |]; simpl; try done.
  - by destruct r.
  - destruct l; [| by rewrite andb_false_r]. intros Hp.
    apply andb_prop in Hp as [[[H1 H2]%andb_prop H3]%andb_prop _].
    split_and!; [unfold is_status; lia | by intros -> | done].
  - apply Z.leb_le.
Qed.

Fixpoint live (es : list tab_event) (t : WebStateImpl * data_store)
    : chk (WebStateImpl * data_store) :=
  match es with
  | [] => mret t
  | e :: es =>
      _ ← dcheck (possible e t.1);
      t ← tab_step e t.1 t.2;
      live es t
  end.

Lemma live_reachable es : forall t t',
  tab_reachable t.1 t.2 -> live es t = Ok t' -> tab_reachable t'.1 t'.2.
Proof.
  induction es as [| e es IH]; intros t t' Ht Hl; simpl in Hl; [by injection Hl as <- |].
  apply bind_Ok_inv in Hl as (x & Hp & Hl). apply dcheck_Ok in Hp.
  apply bind_Ok_inv in Hl as ([w store] & Hs & Hl).
  apply (IH (w, store)); [| done]. by eapply tab_reachable_step; [| apply possible_pre |].
Qed.

Definition born : WebStateImpl * data_store :=
  from_ok ({| created_with_opener_ := false; navigation_manager_ := initWithBrowserState None;
              certificate_policy_cache_ := SessionCertificatePolicyCacheImpl_new;
              web_state := 1 |}, ∅)
    (WebStateImpl_new 1 true None 0 None ∅).

Definition visit (url : string) (now : Z) : list tab_event :=
  [TNavigate (NAddPendingItem url Referrer_new PAGE_TRANSITION_LINK USER_INITIATED INHERIT);
   TNavigate (NCommitPendingItem now)].

(** Two pages, an accepted certificate, a restart, another page. *)
Definition life : list tab_event :=
  visit "http://a.org" 10 ++ visit "https://b.org" 20 ++
  [TAccept ("b.org"%string, []) "b.org" 6; TSetUserData (NSNumber 3) "TabID"; TRestart 2 None] ++
  visit "http://c.org" 30.

Definition lived : WebStateImpl * data_store := from_ok born (live life born).

Lemma lived_reachable : tab_reachable lived.1 lived.2.
Proof.
  apply (live_reachable life born).
  - apply (tab_reachable_start 1 true None). rewrite <- surjective_pairing.
    apply okb_run. by vm_compute.
  - apply okb_run. by vm_compute.
Qed.

Lemma lived_savable : urls_savable (navigation_manager_ lived.1).
Proof.
  eapply (saved_urls text_laws lived.1 lived.2 (from_ok ∅ (save lived.1 lived.2))).
  apply okb_run. by vm_compute.
Qed.

Lemma tab_survives_restart_witness :
  exists archive w' store',
    save lived.1 lived.2 = Ok archive /\ restore archive 3 None = Ok (w', store') /\
    save w' store' = Ok archive.
Proof.
  destruct (tab_survives_restart text_laws der_laws member_law lived.1 lived.2 3 None lived_reachable
              lived_savable) as (archive & w' & store' & Hs & Hr & _ & Hs').
  - apply Z.leb_le. by vm_compute.
  - exists archive, w', store'. exact (conj Hs (conj Hr Hs')).
Defined.

Definition accepted : CRWSessionCertificateStorage :=
  default {| storage_certificate := None; storage_host := ""; storage_status := 0 |}
    (head (allowed_certs (certificate_policy_cache_ lived.1))).

Definition restarted : WebStateImpl * data_store :=
  from_ok born (tab_step (TRestart 3 None) lived.1 lived.2).

(** The error 2 is among those accepted, 6. *)
Lemma accepted_certificates_survive_witness :
  exists c' c'',
    allow_all IO (allowed_certs (certificate_policy_cache_ restarted.1)) CertificatePolicyCache_new
    = Ok c' /\
    QueryPolicy IO ("b.org"%string, []) "b.org" 2 c' = Ok (c'', ALLOWED).
Proof.
  destruct (accepted_certificates_survive text_laws der_laws member_law lived.1 lived.2 3 None
              restarted.1 restarted.2 accepted ("b.org"%string, [])
              (allowed_certs (certificate_policy_cache_ restarted.1)) CertificatePolicyCache_new)
    as (c' & Hrun & Hall).
  - exact lived_reachable.
  - rewrite <- surjective_pairing. apply okb_run. by vm_compute.
  - apply Z.leb_le. by vm_compute.
  - apply (list_elem_of_lookup_2 _ 0). by vm_compute.
  - by vm_compute.
  - assert (Hone : allowed_certs (certificate_policy_cache_ lived.1) = [accepted]) by (by vm_compute).
    rewrite Hone. intros other ->%list_elem_of_singleton _ _. reflexivity.
  - intros host hash a Ha. discriminate Ha.
  - reflexivity.
  - destruct (Hall 2) as [c'' Hq].
    + unfold is_status. lia.
    + split; [done |]. intros i Hi. assert (i = 1) as ->; [| by vm_compute].
      destruct (Z.eqb_spec i 1) as [| Hne]; [done |].
      change 2 with (2 ^ 1) in Hi. rewrite Z.pow2_bits_eqb in Hi by lia. by apply Z.eqb_eq in Hi.
    + exists c', c''. split; [exact Hrun | exact Hq].
Defined.

(** An archive without entries keeps 0 as the previous index, which was used
    for no index by old versions; only the last index is adjusted. *)
Example previous_index_not_adjusted :
  exists w store, restore ∅ 1 None = Ok (w, store) /\
    _items (navigation_manager_ w) = [] /\
    _lastCommittedItemIndex (navigation_manager_ w) = -1 /\
    _previousItemIndex (navigation_manager_ w) = 0.
Proof. do 2 eexists. split; [by vm_compute |]. by split_and!. Qed.

(** The index of the previous item is not checked when it is read. *)
Example wrong_previous_index_faults :
  exists archive w store,
    save lived.1 lived.2 = Ok archive /\
    restore (<[kPreviousItemIndexKey := SInt 7]> archive) 1 None = Ok (w, store) /\
    previousItem (navigation_manager_ w) = Fault.
Proof.
  exists (from_ok ∅ (save lived.1 lived.2)).
  exists (from_ok born (restore (<[kPreviousItemIndexKey := SInt 7]>
                                   (from_ok ∅ (save lived.1 lived.2))) 1 None)).1.
  exists (from_ok born (restore (<[kPreviousItemIndexKey := SInt 7]>
                                   (from_ok ∅ (save lived.1 lived.2))) 1 None)).2.
  split; [apply okb_run; by vm_compute |]. split; [| by vm_compute].
  rewrite <- surjective_pairing. apply okb_run. by vm_compute.
Qed.
End ConcreteTab.
