(* ===== verification/ReadingListRemoverHelper.v ===== *)
(** * Removing the reading list

    [chrome/browser/reading_list/reading_list_remover_helper.cc], which deletes
    every entry once the model is loaded, with what it uses: the observers of
    the model, of which the download service is one ([Initialize], [Shutdown]
    and [Clear] of [reading_list_download_service.cc]), and the WebStates kept
    for a while by [favicon_web_state_dispatcher_impl.mm].

    The model is a parameter; a completion and a WebState are known by a
    number, a WebState by its address. *)
From S2P Require Import Prelude.

(** ** The WebStates of the distiller *)
Definition kDefaultDelayFaviconSecond : Z := 10.

(** [blocks] are the delayed blocks with the address they will look for. *)
Record FaviconWebStateDispatcherImpl := {
  web_states_ : list nat;
  keep_alive_second_ : Z;
  blocks : list nat;
}.

#[export] Instance dispatcher_fields : Fields FaviconWebStateDispatcherImpl := fun d =>
  {| web_states_ := web_states_ d; keep_alive_second_ := keep_alive_second_ d;
     blocks := blocks d |}.

Definition FaviconWebStateDispatcherImpl_new (keep_alive_second : Z)
    : FaviconWebStateDispatcherImpl :=
  {| web_states_ := [];
     keep_alive_second_ :=
       if keep_alive_second <? 0 then kDefaultDelayFaviconSecond else keep_alive_second;
     blocks := [] |}.

Definition ReleaseAll (d : FaviconWebStateDispatcherImpl) : FaviconWebStateDispatcherImpl :=
  d <| web_states_ := [] |>.

Definition ReturnWebState (web_state : nat) (d : FaviconWebStateDispatcherImpl)
    : FaviconWebStateDispatcherImpl :=
  d <| web_states_ := web_states_ d ++ [web_state] |> <| blocks := blocks d ++ [web_state] |>.

(** The block dispatched by [ReturnWebState]. *)
Definition release_block (web_state : nat) (d : FaviconWebStateDispatcherImpl)
    : FaviconWebStateDispatcherImpl :=
  match find_index (Nat.eqb web_state) (web_states_ d) with
  | Some it => d <| web_states_ := delete it (web_states_ d) |>
  | None => d
  end.

(** The [k]-th block runs. *)
Definition run_block (k : nat) (d : FaviconWebStateDispatcherImpl)
    : FaviconWebStateDispatcherImpl :=
  match blocks d !! k with
  | Some web_state => release_block web_state (d <| blocks := delete k (blocks d) |>)
  | None => d
  end.

Inductive dispatch := Return (web_state : nat) | Run (k : nat) | Release.

Definition dispatch_step (e : dispatch) (d : FaviconWebStateDispatcherImpl)
    : FaviconWebStateDispatcherImpl :=
  match e with
  | Return web_state => ReturnWebState web_state d
  | Run k => run_block k d
  | Release => ReleaseAll d
  end.

(** ** The model, its observers and the helper *)
Inductive observer := DownloadService | RemoverHelper.

#[export] Instance observer_eq_dec : EqDecision observer.
Proof. solve_decision. Defined.

Section remover.
Context {ReadingListModel : Type} (loaded : ReadingListModel -> bool)
  (DeleteAllEntries : ReadingListModel -> ReadingListModel * bool).

(** [reading_list_model_] of the helper is not null when [has_model]; [ran]
    are the completions that ran with what they were given, [synced] counts
    the synchronizations of the download service. *)
Record World := {
  model : ReadingListModel;
  observers : list observer;
  dispatcher : FaviconWebStateDispatcherImpl;
  completion_ : option nat;
  has_model : bool;
  sources_ : nat;
  ran : list (nat * bool);
  synced : nat;
}.

#[export] Instance world_fields : Fields World := fun w =>
  {| model := model w; observers := observers w; dispatcher := dispatcher w;
     completion_ := completion_ w; has_model := has_model w; sources_ := sources_ w;
     ran := ran w; synced := synced w |}.

Implicit Types (w : World).

Definition RemoveObserver (o : observer) w : World :=
  w <| observers := filter (fun o' => o' <> o) (observers w) |>.

(** [scoped_observer_.Remove(model)], for a source that was added. *)
Definition scoped_Remove w : chk World :=
  _ ← dcheck (0 <? sources_ w)%nat;
  mret (RemoveObserver RemoverHelper (w <| sources_ := pred (sources_ w) |>)).

(** [if (completion_) std::move(completion_).Run(result)] *)
Definition run_completion (result : bool) w : World :=
  match completion_ w with
  | Some completion =>
      w <| completion_ := None |> <| ran := ran w ++ [(completion, result)] |>
  | None => w
  end.

(** [ReadingListDownloadService::Clear] *)
Definition Clear w : World := w <| dispatcher := ReleaseAll (dispatcher w) |>.

Definition helper_ModelLoaded w : chk World :=
  w ← scoped_Remove w;
  let '(emptied, model_cleared) := DeleteAllEntries (model w) in
  let w := Clear (w <| model := emptied |>) in
  let w := w <| has_model := false |> in
  mret (run_completion model_cleared w).

Definition helper_ModelBeingDeleted w : chk World :=
  w ← scoped_Remove w;
  let w := w <| has_model := false |> in
  mret (run_completion false w).

Definition notify_loaded (o : observer) w : chk World :=
  match o with
  | DownloadService => mret (w <| synced := S (synced w) |>)
  | RemoverHelper => helper_ModelLoaded w
  end.

(** [AddObserver] refuses an observer that is there, and tells a new one when
    the model is loaded already. *)
Definition AddObserver (o : observer) w : chk World :=
  _ ← dcheck (bool_decide (o ∉ observers w));
  let w := w <| observers := observers w ++ [o] |> in
  if loaded (model w) then notify_loaded o w else mret w.

Definition RemoveAllUserReadingListItemsIOS (completion : nat) w : chk World :=
  if negb (has_model w) then mret (w <| ran := ran w ++ [(completion, false)] |>)
  else
    let w := w <| completion_ := Some completion |> in
    AddObserver RemoverHelper (w <| sources_ := S (sources_ w) |>).

(** [ReadingListDownloadService::Initialize] and [Shutdown] *)
Definition Initialize w : chk World := AddObserver DownloadService w.
Definition Shutdown w : World := RemoveObserver DownloadService w.

(** The observers are told one after the other; one that went is not told. *)
Fixpoint tell_all (tell : observer -> World -> chk World) (os : list observer) w : chk World :=
  match os with
  | [] => mret w
  | o :: os =>
      w ← (if bool_decide (o ∈ observers w) then tell o w else mret w); tell_all tell os w
  end.

Definition model_loaded (new_model : ReadingListModel) w : chk World :=
  tell_all notify_loaded (observers w) (w <| model := new_model |>).

Definition notify_deleted (o : observer) w : chk World :=
  match o with
  | DownloadService => mret w
  | RemoverHelper => helper_ModelBeingDeleted w
  end.

Definition model_deleted w : chk World := tell_all notify_deleted (observers w) w.

(** The helper of a browser state, before any request. *)
Definition World_new (m : ReadingListModel) (d : FaviconWebStateDispatcherImpl) : World :=
  {| model := m; observers := []; dispatcher := d; completion_ := None; has_model := true;
     sources_ := 0; ran := []; synced := 0 |}.

Inductive request :=
| RRemoveAll (completion : nat)
| RLoaded (new_model : ReadingListModel)
| RDeleted
| RInitialize
| RShutdown.

Definition perform (r : request) w : chk World :=
  match r with
  | RRemoveAll completion => RemoveAllUserReadingListItemsIOS completion w
  | RLoaded new_model => model_loaded new_model w
  | RDeleted => model_deleted w
  | RInitialize => Initialize w
  | RShutdown => mret (Shutdown w)
  end.

Fixpoint perform_all (rs : list request) w : chk World :=
  match rs with
  | [] => mret w
  | r :: rs => w ← perform r w; perform_all rs w
  end.

(** ** Every completion runs once *)

(** The helper observes the model exactly while a completion waits. *)
Definition waiting_ok w : Prop :=
  (RemoverHelper ∈ observers w <-> is_Some (completion_ w)) /\
  sources_ w = (match completion_ w with Some _ => 1 | None => 0 end)%nat /\
  (is_Some (completion_ w) -> has_model w = true).

Definition asked (rs : list request) : list nat :=
  omap (fun r => match r with RRemoveAll completion => Some completion | _ => None end) rs.

(** Those that ran, and the one that waits. *)
Definition accounted w : list nat :=
  (fst <$> ran w) ++ match completion_ w with Some c => [c] | None => [] end.

Lemma helper_ends b w (f : World -> World) :
  waiting_ok w -> is_Some (completion_ w) ->
  (forall w, observers (f w) = observers w /\ completion_ (f w) = completion_ w /\
             ran (f w) = ran w /\ sources_ (f w) = sources_ w) ->
  exists w', (w ← scoped_Remove w; mret (run_completion b (f w <| has_model := false |>))) = Ok w' /\
    waiting_ok w' /\ completion_ w' = None /\ accounted w' = accounted w /\
    observers w' = filter (fun o => o <> RemoverHelper) (observers w).
Proof.
  intros (Ho & Hs & Hm) [c Hc] Hf. rewrite Hc in Hs. unfold scoped_Remove. rewrite Hs. simpl.
  eexists. split; [reflexivity |].
  destruct (Hf (RemoveObserver RemoverHelper (w <| sources_ := 0%nat |>))) as (Hfo & Hfc & Hfr & Hfs).
  unfold run_completion, waiting_ok, accounted. simpl in *. rewrite Hfc, Hc. simpl.
  rewrite Hfo, Hfs, Hfr. split_and!; try done.
  - split; [| by intros [? ?]]. by intros [? _]%list_elem_of_filter.
  - rewrite fmap_app. simpl. by rewrite app_nil_r.
Qed.

Lemma helper_loaded_ends w :
  waiting_ok w -> is_Some (completion_ w) ->
  exists w', helper_ModelLoaded w = Ok w' /\ waiting_ok w' /\ completion_ w' = None /\
    accounted w' = accounted w /\
    observers w' = filter (fun o => o <> RemoverHelper) (observers w).
Proof.
  intros Hok Hc.
  destruct (helper_ends (DeleteAllEntries (model w)).2 w
              (fun w' => Clear (w' <| model := (DeleteAllEntries (model w)).1 |>)) Hok Hc)
    as (w' & Hrun & Hrest); [done |].
  exists w'. split; [| done]. rewrite <- Hrun. unfold helper_ModelLoaded, scoped_Remove.
  destruct Hok as (_ & -> & _). destruct Hc as [c ->]. simpl.
  by destruct (DeleteAllEntries (model w)).
Qed.

Lemma helper_deleted_ends w :
  waiting_ok w -> is_Some (completion_ w) ->
  exists w', helper_ModelBeingDeleted w = Ok w' /\ waiting_ok w' /\ completion_ w' = None /\
    accounted w' = accounted w /\
    observers w' = filter (fun o => o <> RemoverHelper) (observers w).
Proof. intros Hok Hc. by apply (helper_ends false w id). Qed.

(** Telling an observer that is there. *)
Definition tells_well (tell : observer -> World -> chk World) : Prop :=
  forall o w, waiting_ok w -> o ∈ observers w ->
    exists w', tell o w = Ok w' /\ waiting_ok w' /\ accounted w' = accounted w /\
      (o = RemoverHelper -> completion_ w' = None) /\
      (completion_ w = None -> completion_ w' = None) /\
      (forall o', o' <> RemoverHelper -> o' ∈ observers w' <-> o' ∈ observers w).

Lemma notify_loaded_well : tells_well notify_loaded.
Proof.
  intros [|] w Hok Hin; simpl.
  - eexists. split; [reflexivity |]. by split_and!.
  - destruct (helper_loaded_ends w Hok) as (w' & Hrun & Hok' & Hc & Ha & Ho); [by apply Hok |].
    exists w'. split_and!; try done. intros o' Hne. rewrite Ho, list_elem_of_filter. tauto.
Qed.

Lemma notify_deleted_well : tells_well notify_deleted.
Proof.
  intros [|] w Hok Hin; simpl.
  - eexists. split; [reflexivity |]. by split_and!.
  - destruct (helper_deleted_ends w Hok) as (w' & Hrun & Hok' & Hc & Ha & Ho); [by apply Hok |].
    exists w'. split_and!; try done. intros o' Hne. rewrite Ho, list_elem_of_filter. tauto.
Qed.

Lemma tell_all_well tell os w :
  tells_well tell -> waiting_ok w ->
  (is_Some (completion_ w) -> RemoverHelper ∈ os) ->
  exists w', tell_all tell os w = Ok w' /\ waiting_ok w' /\ accounted w' = accounted w /\
    completion_ w' = None.
Proof.
  intros Htell. revert w. induction os as [| o os IH]; intros w Hok Hin; simpl.
  - exists w. split_and!; try done. destruct (completion_ w) eqn:Hc; [| done].
    exfalso. by apply elem_of_nil in Hin.
  - case_bool_decide as Ho.
    + destruct (Htell o w Hok Ho) as (w1 & -> & Hok1 & Ha1 & Hr & Hn & _). simpl.
      destruct (IH w1 Hok1) as (w2 & -> & Hok2 & Ha2 & Hc2).
      { intros Hs. destruct (decide (o = RemoverHelper)) as [-> | Hne].
        - rewrite Hr in Hs by done. by destruct Hs.
        - assert (is_Some (completion_ w)) as Hw.
          { destruct (completion_ w); [done |]. rewrite Hn in Hs by done. by destruct Hs. }
          apply Hin in Hw. by apply elem_of_cons in Hw as [? | ?]. }
      exists w2. by rewrite Ha2.
    + simpl. apply IH; [done |]. intros Hs. pose proof (Hin Hs) as Hw.
      apply elem_of_cons in Hw as [<- | ?]; [| done]. exfalso. by apply Ho, Hok.
Qed.

Definition ends_wait (r : request) : bool :=
  match r with RLoaded _ | RDeleted => true | _ => false end.

Lemma perform_well r w w' :
  waiting_ok w -> perform r w = Ok w' ->
  waiting_ok w' /\ accounted w' = accounted w ++ asked [r] /\
  (ends_wait r = true -> completion_ w' = None).
Proof.
  intros Hok Hrun.
  assert (Hsome : is_Some (completion_ w) -> RemoverHelper ∈ observers w) by apply Hok.
  destruct r as [c | m | | |]; simpl in Hrun; unfold asked; simpl; rewrite ?app_nil_r.
  - unfold RemoveAllUserReadingListItemsIOS in Hrun. destruct (has_model w) eqn:Hm; simpl in Hrun.
    + unfold AddObserver in Hrun. simpl in Hrun. case_bool_decide as Ho; [| done]. simpl in Hrun.
      assert (Hnone : completion_ w = None).
      { destruct (completion_ w) eqn:Hc; [| done]. exfalso. by apply Ho, Hsome. }
      set (w1 := w <| completion_ := Some c |> <| sources_ := S (sources_ w) |>
                   <| observers := observers w ++ [RemoverHelper] |>) in Hrun.
      assert (Hok1 : waiting_ok w1).
      { destruct Hok as (_ & Hs & _). rewrite Hnone in Hs. unfold w1, waiting_ok. simpl.
        split_and!; [| by rewrite Hs | done]. split; [done |]. intros _. set_solver. }
      assert (Ha1 : accounted w1 = accounted w ++ [c]).
      { unfold w1, accounted. simpl. by rewrite Hnone, app_nil_r. }
      destruct (loaded (model w)); simpl in Hrun.
      * destruct (helper_loaded_ends w1 Hok1) as (w2 & Hrun2 & Hok2 & _ & Ha2 & _); [by eexists |].
        rewrite Hrun2 in Hrun. injection Hrun as <-. by rewrite Ha2.
      * by injection Hrun as <-.
    + injection Hrun as <-. destruct Hok as (Ho & Hs & Hh).
      assert (Hnone : completion_ w = None).
      { destruct (completion_ w); [| done]. rewrite Hh in Hm by by eexists. done. }
      split_and!; try done. unfold accounted. simpl. rewrite Hnone, fmap_app. simpl.
      by rewrite !app_nil_r.
  - destruct (tell_all_well notify_loaded (observers w) (w <| model := m |>) notify_loaded_well)
      as (w2 & Hrun2 & Hok2 & Ha2 & Hc2); [done | done |].
    unfold model_loaded in Hrun. rewrite Hrun2 in Hrun. injection Hrun as <-. done.
  - destruct (tell_all_well notify_deleted (observers w) w notify_deleted_well)
      as (w2 & Hrun2 & Hok2 & Ha2 & Hc2); [done | done |].
    unfold model_deleted in Hrun. rewrite Hrun2 in Hrun. injection Hrun as <-. done.
  - unfold Initialize, AddObserver in Hrun. case_bool_decide as Ho; [| done]. simpl in Hrun.
    assert (Hok1 : waiting_ok (w <| observers := observers w ++ [DownloadService] |>)).
    { destruct Hok as (Hi & Hs & Hh). split_and!; try done. simpl. rewrite <- Hi. set_solver. }
    destruct (loaded (model w)); injection Hrun as <-; done.
  - injection Hrun as <-. destruct Hok as (Hi & Hs & Hh). split; [| done].
    split; [| by split]. unfold Shutdown, RemoveObserver. simpl.
    rewrite <- Hi, list_elem_of_filter. split; [by intros [_ ?] | by split].
Qed.

(** In every history that the checks let pass, a completion runs once: those
    that ran, with the one that waits, are those of the requests, and none
    waits any more once the model is loaded or deleted. *)
Lemma completions_run_once rs m d w :
  perform_all rs (World_new m d) = Ok w ->
  accounted w = asked rs /\
  (forall rs' r, rs = rs' ++ [r] -> ends_wait r = true -> completion_ w = None).
Proof.
  intros Hrun.
  enough (He : forall rs w0 w, waiting_ok w0 -> perform_all rs w0 = Ok w ->
    waiting_ok w /\ accounted w = accounted w0 ++ asked rs /\
    (forall rs' r, rs = rs' ++ [r] -> ends_wait r = true -> completion_ w = None)).
  { destruct (He rs (World_new m d) w) as (_ & Ha & Hc); [| done | done].
    split_and!; try done. split; [by intros ?%elem_of_nil | by intros [? ?]]. }
  clear. induction rs as [| r rs IH]; intros w0 w Hok Hrun; simpl in Hrun.
  - injection Hrun as <-. split_and!; [done | by rewrite app_nil_r |].
    intros rs' r Hr. by destruct rs'.
  - apply bind_Ok_inv in Hrun as (w1 & H1 & H2).
    destruct (perform_well r w0 w1 Hok H1) as (Hok1 & Ha1 & Hc1).
    destruct (IH w1 w Hok1 H2) as (Hok2 & Ha2 & Hc2). split_and!; [done | |].
    + rewrite Ha2, Ha1, <- app_assoc. f_equal. unfold asked. by destruct r.
    + intros [| r' rs'] r'' Hr He.
      * injection Hr as -> ->. injection H2 as <-. by apply Hc1.
      * injection Hr as -> ->. by eapply Hc2.
Qed.

(** A second request while the first waits fails the check that an observer is
    added once. *)
Lemma second_request_faults w c :
  waiting_ok w -> is_Some (completion_ w) -> perform (RRemoveAll c) w = Fault.
Proof.
  intros (Ho & _ & Hm) Hc. simpl. unfold RemoveAllUserReadingListItemsIOS, AddObserver.
  rewrite Hm by done. simpl. rewrite bool_decide_eq_false_2; [done |]. intros Hn. by apply Hn, Ho.
Qed.
End remover.

(** ** Every WebState that is returned goes *)

(** Each WebState that is kept has a block that will look for it. *)
Lemma kept_have_blocks es n :
  let d := foldl (fun d e => dispatch_step e d) (FaviconWebStateDispatcherImpl_new n) es in
  web_states_ d ⊆+ blocks d.
Proof.
  simpl. induction es as [| e es IH] using rev_ind; [done |]. rewrite foldl_app. simpl.
  set (d := foldl _ _ es) in *. clearbody d. destruct e as [ws | k |]; simpl.
  - by apply submseteq_app.
  - unfold run_block. destruct (blocks d !! k) as [ws |] eqn:Hk; [| done].
    apply delete_Permutation in Hk. unfold release_block. simpl.
    destruct (find_index (Nat.eqb ws) (web_states_ d)) as [it |] eqn:Hf; simpl.
    + apply find_index_Some in Hf as [(x & Hx & <-%Nat.eqb_eq) _].
      apply delete_Permutation in Hx. rewrite Hx, Hk in IH. by apply (submseteq_app_inv_l _ _ [ws]).
    + rewrite Hk in IH. apply submseteq_cons_r in IH as [IH | (l & Hl & _)]; [done |]. exfalso.
      assert (Hin : ws ∈ web_states_ d) by (rewrite Hl; left).
      apply list_elem_of_lookup in Hin as [j Hj]. rewrite find_index_None in Hf.
      specialize (Hf j ws Hj). by rewrite Nat.eqb_refl in Hf.
  - apply submseteq_nil_l.
Qed.

(** The block knows the address only: after [ReleaseAll], that of an earlier
    WebState releases a later one at the same address before its time. *)
Example stale_block :
  web_states_ (foldl (fun d e => dispatch_step e d) (FaviconWebStateDispatcherImpl_new (-1))
                 [Return 1; Release; Return 1; Run 0]) = [].
Proof. reflexivity. Qed.
