(* ===== verification/OmahaResponseParser.v ===== *)
(** * The answer of the update server

    [ResponseParser] of [chrome/browser/omaha/omaha_service.mm]: a state
    machine over the start tags of the XML answer.  The XML parser of
    Foundation is a parameter of the service; here the tags are given as a
    list.  The reference is [verdict], the three shapes the comment of the
    code lists, with the tags that are ignored taken out. *)
From S2P Require Import Prelude External.

Section parser.
Context `{GurlApi} (GURL_of_string : string -> GURL).

(** [chrome/browser/upgrade/upgrade_recommended_details.h] *)
Record UpgradeRecommendedDetails := { upgrade_url : GURL; next_version : string }.

#[export] Instance details_fields : Fields UpgradeRecommendedDetails := fun d =>
  {| upgrade_url := upgrade_url d; next_version := next_version d |}.

Definition details_new : UpgradeRecommendedDetails :=
  {| upgrade_url := GURL_empty; next_version := "" |}.

(** A start tag: its name and its dictionary of attributes. *)
Record element := { elementName : string; attributeDict : gmap string string }.

Record ResponseParser := {
  hasError_ : bool;
  responseIsParsed_ : bool;
  appIsParsed_ : bool;
  updateCheckIsParsed_ : bool;
  urlIsParsed_ : bool;
  manifestIsParsed_ : bool;
  pingIsParsed_ : bool;
  eventIsParsed_ : bool;
  appId_ : string;
  updateInformation_ : option UpgradeRecommendedDetails;
}.

#[export] Instance parser_fields : Fields ResponseParser := fun p =>
  {| hasError_ := hasError_ p; responseIsParsed_ := responseIsParsed_ p;
     appIsParsed_ := appIsParsed_ p; updateCheckIsParsed_ := updateCheckIsParsed_ p;
     urlIsParsed_ := urlIsParsed_ p; manifestIsParsed_ := manifestIsParsed_ p;
     pingIsParsed_ := pingIsParsed_ p; eventIsParsed_ := eventIsParsed_ p;
     appId_ := appId_ p; updateInformation_ := updateInformation_ p |}.

Definition initWithAppId (appId : string) : ResponseParser :=
  {| hasError_ := false; responseIsParsed_ := false; appIsParsed_ := false;
     updateCheckIsParsed_ := false; urlIsParsed_ := false; manifestIsParsed_ := false;
     pingIsParsed_ := false; eventIsParsed_ := false; appId_ := appId;
     updateInformation_ := None |}.

Definition isCorrect (p : ResponseParser) : bool :=
  negb (hasError_ p) && (pingIsParsed_ p || eventIsParsed_ p).

Definition upgradeRecommendedDetails (p : ResponseParser) : option UpgradeRecommendedDetails :=
  updateInformation_ p.

Definition ignoredTagNames : list string :=
  ["action"; "actions"; "daystart"; "package"; "packages"; "urls"].

(** [[[attributeDict valueForKey:key] isEqualToString:value]]: no for a key
    that is not there. *)
Definition attribute_is (e : element) (key value : string) : bool :=
  match attributeDict e !! key with Some v => String.eqb v value | None => false end.

(** [url] without the slash at its end, for a text that is not empty. *)
Definition without_last_slash (url : string) : string :=
  let n := (String.length url - 1)%nat in
  if String.eqb (String.substring n 1 url) "/" then String.substring 0 n url else url.

Definition didStartElement (e : element) (p : ResponseParser) : chk ResponseParser :=
  if hasError_ p then mret p else
  if bool_decide (elementName e ∈ ignoredTagNames) then mret p else
  if negb (responseIsParsed_ p) then
    if String.eqb (elementName e) "response" && attribute_is e "protocol" "3.0" &&
       attribute_is e "server" "prod"
    then mret (p <| responseIsParsed_ := true |>) else mret (p <| hasError_ := true |>)
  else if negb (appIsParsed_ p) then
    if String.eqb (elementName e) "app" && attribute_is e "status" "ok" &&
       attribute_is e "appid" (appId_ p)
    then mret (p <| appIsParsed_ := true |>) else mret (p <| hasError_ := true |>)
  else if negb (eventIsParsed_ p) && negb (updateCheckIsParsed_ p) then
    if String.eqb (elementName e) "updatecheck" then
      let p := p <| updateCheckIsParsed_ := true |> in
      if attribute_is e "status" "noupdate" then
        mret (p <| urlIsParsed_ := true |> <| manifestIsParsed_ := true |>)
      else if attribute_is e "status" "ok" then
        mret (p <| updateInformation_ := Some details_new |>)
      else mret (p <| hasError_ := true |>)
    else if String.eqb (elementName e) "event" then
      if attribute_is e "status" "ok" then mret (p <| eventIsParsed_ := true |>)
      else mret (p <| hasError_ := true |>)
    else mret (p <| hasError_ := true |>)
  else if negb (urlIsParsed_ p) then
    match attributeDict e !! "codebase" with
    | Some url =>
        if String.eqb (elementName e) "url" && (0 <? String.length url)%nat then
          let p := p <| urlIsParsed_ := true |> in
          details ← deref (updateInformation_ p);
          let upgrade_url := GURL_of_string (without_last_slash url) in
          let p := p <| updateInformation_ :=
                          Some {| upgrade_url := upgrade_url;
                                  next_version := next_version details |} |> in
          if negb (is_valid upgrade_url) then mret (p <| hasError_ := true |>) else mret p
        else mret (p <| hasError_ := true |>)
    | None => mret (p <| hasError_ := true |>)
    end
  else if negb (manifestIsParsed_ p) then
    match attributeDict e !! "version" with
    | Some version =>
        if String.eqb (elementName e) "manifest" then
          let p := p <| manifestIsParsed_ := true |> in
          details ← deref (updateInformation_ p);
          mret (p <| updateInformation_ :=
                       Some {| upgrade_url := upgrade_url details;
                               next_version := version |} |>)
        else mret (p <| hasError_ := true |>)
    | None => mret (p <| hasError_ := true |>)
    end
  else if negb (pingIsParsed_ p) then
    if String.eqb (elementName e) "ping" && attribute_is e "status" "ok"
    then mret (p <| pingIsParsed_ := true |>) else mret (p <| hasError_ := true |>)
  else mret (p <| hasError_ := true |>).

(** The start tags of an answer, in order. *)
Fixpoint parse_elements (es : list element) (p : ResponseParser) : chk ResponseParser :=
  match es with
  | [] => mret p
  | e :: es => p ← didStartElement e p; parse_elements es p
  end.

(** What the service learns: nothing from an answer that is not correct, and
    otherwise the upgrade, if there is one. *)
Definition parse_answer (appId : string) (es : list element)
    : chk (option (option UpgradeRecommendedDetails)) :=
  p ← parse_elements es (initWithAppId appId);
  mret (if isCorrect p then Some (upgradeRecommendedDetails p) else None).

(** ** The reference: the shapes of an answer *)
Definition is_response (e : element) : bool :=
  String.eqb (elementName e) "response" && attribute_is e "protocol" "3.0" &&
  attribute_is e "server" "prod".
Definition is_app (appId : string) (e : element) : bool :=
  String.eqb (elementName e) "app" && attribute_is e "status" "ok" &&
  attribute_is e "appid" appId.
Definition is_event (e : element) : bool :=
  String.eqb (elementName e) "event" && attribute_is e "status" "ok".
Definition is_noupdate (e : element) : bool :=
  String.eqb (elementName e) "updatecheck" && attribute_is e "status" "noupdate".
Definition is_update (e : element) : bool :=
  String.eqb (elementName e) "updatecheck" && attribute_is e "status" "ok".
Definition is_ping (e : element) : bool :=
  String.eqb (elementName e) "ping" && attribute_is e "status" "ok".

(** The text of a [url] tag, when it has one. *)
Definition codebase (e : element) : option string :=
  url ← attributeDict e !! "codebase";
  if String.eqb (elementName e) "url" && (0 <? String.length url)%nat then Some url else None.

Definition manifest_version (e : element) : option string :=
  version ← attributeDict e !! "version";
  if String.eqb (elementName e) "manifest" then Some version else None.

(** The upgrade that a [url] and a [manifest] tag describe. *)
Definition upgrade_of (u m : element) : option UpgradeRecommendedDetails :=
  url ← codebase u; version ← manifest_version m;
  let upgrade_url := GURL_of_string (without_last_slash url) in
  if is_valid upgrade_url then
    Some {| upgrade_url := upgrade_url; next_version := version |}
  else None.

Definition interesting (es : list element) : list element :=
  filter (fun e => elementName e ∉ ignoredTagNames) es.

Definition verdict (appId : string) (es : list element)
    : chk (option (option UpgradeRecommendedDetails)) :=
  match es with
  | r :: a :: rest =>
      if is_response r && is_app appId a then
        match rest with
        | [e] => Ok (if is_event e then Some None else None)
        | e :: u :: rest =>
            if is_event e then
              match codebase u with Some _ => Fault | None => Ok None end
            else if is_noupdate e then
              Ok (if is_ping u && bool_decide (rest = []) then Some None else None)
            else if is_update e then
              match rest with
              | [m; p] =>
                  Ok (if is_ping p then Some <$> upgrade_of u m else None)
              | _ => Ok None
              end
            else Ok None
        | [] => Ok None
        end
      else Ok None
  | _ => Ok None
  end.

(** ** The parser follows the reference *)

(** What is learnt when the parser is at [p]. *)
Definition answer (es : list element) (p : ResponseParser)
    : chk (option (option UpgradeRecommendedDetails)) :=
  p ← parse_elements es p;
  mret (if isCorrect p then Some (upgradeRecommendedDetails p) else None).

Lemma answer_cons e es p : answer (e :: es) p = (didStartElement e p ≫= answer es).
Proof. unfold answer. simpl. by destruct (didStartElement e p). Qed.

Lemma answer_error es p : hasError_ p = true -> answer es p = Ok None.
Proof.
  intros He. induction es as [| e es IH].
  - unfold answer. simpl. unfold isCorrect. by rewrite He.
  - rewrite answer_cons. unfold didStartElement. by rewrite He.
Qed.

Lemma ignored_tag e p : elementName e ∈ ignoredTagNames -> didStartElement e p = Ok p.
Proof.
  intros He. unfold didStartElement. rewrite bool_decide_eq_true_2 by done. by destruct (hasError_ p).
Qed.

Lemma answer_interesting es p : answer es p = answer (interesting es) p.
Proof.
  revert p. induction es as [| e es IH]; intros p; [done |].
  rewrite answer_cons. unfold interesting. rewrite filter_cons. case_decide as He.
  - rewrite answer_cons. destruct (didStartElement e p); [apply IH | done].
  - rewrite ignored_tag; [apply IH |]. by destruct (decide (elementName e ∈ ignoredTagNames)).
Qed.

(** The stages of the parser that has seen no error. *)
Definition stage (response app check url manifest ping event : bool) (appId : string)
    (info : option UpgradeRecommendedDetails) : ResponseParser :=
  {| hasError_ := false; responseIsParsed_ := response; appIsParsed_ := app;
     updateCheckIsParsed_ := check; urlIsParsed_ := url; manifestIsParsed_ := manifest;
     pingIsParsed_ := ping; eventIsParsed_ := event; appId_ := appId;
     updateInformation_ := info |}.

Definition significant (e : element) : Prop := elementName e ∉ ignoredTagNames.

(** One tag that counts, from a stage that is known. *)
Ltac one_tag Hs :=
  rewrite answer_cons; unfold didStartElement, stage; simpl;
  rewrite bool_decide_eq_false_2 by exact Hs; simpl.

Lemma stage_pinged es appId info :
  Forall significant es ->
  answer es (stage true true true true true true false appId info)
  = Ok (match es with [] => Some info | _ => None end).
Proof.
  intros [| e es' He _]; [done |]. one_tag He. by apply answer_error.
Qed.

Lemma stage_ping es appId info :
  Forall significant es ->
  answer es (stage true true true true true false false appId info)
  = Ok (match es with [p] => if is_ping p then Some info else None | _ => None end).
Proof.
  intros [| e es' He Hes]; [done |]. one_tag He. unfold is_ping.
  destruct (_ && _); simpl.
  - setoid_rewrite (stage_pinged es' appId info Hes). by destruct es'.
  - rewrite answer_error by done. by destruct es'.
Qed.

Lemma stage_manifest es appId details :
  Forall significant es ->
  answer es (stage true true true true false false false appId (Some details))
  = Ok (match es with
        | [m; p] =>
            if is_ping p then
              v ← manifest_version m;
              Some (Some {| upgrade_url := upgrade_url details; next_version := v |})
            else None
        | _ => None
        end).
Proof.
  intros [| e es' He Hes]; [done |]. one_tag He.
  unfold manifest_version. destruct (attributeDict e !! "version") as [v |] eqn:Hv; simpl;
    [destruct (String.eqb (elementName e) "manifest") eqn:Hn; simpl |].
  1: setoid_rewrite (stage_ping es' appId _ Hes).
  2, 3: rewrite answer_error by done.
  all: destruct es' as [| p [|]]; try done; by destruct (is_ping p).
Qed.

Lemma stage_url es appId details :
  Forall significant es ->
  answer es (stage true true true false false false false appId (Some details))
  = Ok (match es with
        | [u; m; p] => if is_ping p then Some <$> upgrade_of u m else None
        | _ => None
        end).
Proof.
  intros [| e es' He Hes]; [done |]. one_tag He. unfold upgrade_of, codebase.
  destruct (attributeDict e !! "codebase") as [url |] eqn:Hu; simpl;
    [destruct (_ && _) eqn:Hn; simpl; [destruct (is_valid _) eqn:Hv; simpl |] |].
  1: setoid_rewrite (stage_manifest es' appId _ Hes).
  2-4: rewrite answer_error by done.
  all: destruct es' as [| m [| p [|]]]; try done; rewrite ?Hu; simpl; rewrite ?Hn; simpl;
    destruct (is_ping p); try done; destruct (manifest_version m); simpl; rewrite ?Hv; done.
Qed.

(** After an event, a [url] tag is read into an upgrade that is not there. *)
Lemma stage_event es appId :
  Forall significant es ->
  answer es (stage true true false false false false true appId None)
  = match es with
    | [] => Ok (Some None)
    | u :: _ => match codebase u with Some _ => Fault | None => Ok None end
    end.
Proof.
  intros [| e es' He Hes]; [done |]. one_tag He. unfold codebase.
  destruct (attributeDict e !! "codebase") as [url |]; simpl; [| by apply answer_error].
  destruct (_ && _); simpl; [done | by apply answer_error].
Qed.

Lemma stage_app es appId :
  Forall significant es ->
  answer es (stage true true false false false false false appId None)
  = match es with
    | [] => Ok None
    | [e] => Ok (if is_event e then Some None else None)
    | e :: u :: rest =>
        if is_event e then match codebase u with Some _ => Fault | None => Ok None end
        else if is_noupdate e then
          Ok (if is_ping u && bool_decide (rest = []) then Some None else None)
        else if is_update e then
          match rest with
          | [m; p] => Ok (if is_ping p then Some <$> upgrade_of u m else None)
          | _ => Ok None
          end
        else Ok None
    end.
Proof.
  intros [| e es' He Hes]; [done |]. one_tag He. unfold is_event, is_noupdate, is_update.
  destruct (String.eqb_spec (elementName e) "updatecheck") as [-> | Hne]; simpl.
  - destruct (attribute_is e "status" "noupdate"); simpl.
    + setoid_rewrite (stage_ping es' appId None Hes).
      destruct es' as [| p [| q rest]]; try done; simpl; by destruct (is_ping p).
    + destruct (attribute_is e "status" "ok"); simpl.
      * setoid_rewrite (stage_url es' appId details_new Hes). by destruct es' as [| u [| m [| p [|]]]].
      * rewrite answer_error by done. by destruct es'.
  - destruct (String.eqb (elementName e) "event"); simpl;
      [destruct (attribute_is e "status" "ok"); simpl |].
    + setoid_rewrite (stage_event es' appId Hes). by destruct es'.
    + rewrite answer_error by done. by destruct es'.
    + rewrite answer_error by done. by destruct es'.
Qed.

(** C37. The parser of the server's answer agrees with the shapes the protocol
    documents: whatever the tags, it takes for correct exactly an answer that
    acknowledges an event, one without an update whose ping is acknowledged,
    and one with an update, whose address and version it then gives; it fails
    only when the address of an update follows the acknowledgement of an
    event. *)
Theorem parse_answer_spec appId es :
  parse_answer appId es = verdict appId (interesting es).
Proof.
  change (answer es (initWithAppId appId) = verdict appId (interesting es)).
  rewrite answer_interesting.
  assert (Hs : Forall significant (interesting es)).
  { apply Forall_forall. intros e He. by apply list_elem_of_filter in He as [He _]. }
  destruct Hs as [| r es1 Hr Hs]; [done |]. unfold initWithAppId. one_tag Hr.
  unfold verdict, is_response. destruct (_ && _); simpl.
  2: { rewrite answer_error by done. by destruct es1. }
  destruct Hs as [| a es2 Ha Hs]; [done |]. one_tag Ha. unfold is_app.
  destruct (_ && _); simpl; [| by rewrite answer_error].
  setoid_rewrite (stage_app es2 appId Hs). by destruct es2 as [| e [|]].
Qed.

(** An answer to an event that goes on with an address stops the program. *)
Lemma event_then_url_faults appId r a e u rest :
  is_response r = true -> is_app appId a = true -> is_event e = true ->
  is_Some (codebase u) -> verdict appId (r :: a :: e :: u :: rest) = Fault.
Proof. intros Hr Ha He [url Hu]. unfold verdict. by rewrite Hr, Ha, He, Hu. Qed.
End parser.

(** ** Concrete answers *)
Module ConcreteAnswer.
Import ConcreteUrl.

(** Any text is the host of an address; the empty text is not valid. *)
Definition url_of (s : string) : url := mk_url (if String.eqb s "" then "" else "https") s "" None.

Definition tag (name : string) (attributes : list (string * string)) : element :=
  {| elementName := name; attributeDict := list_to_map attributes |}.

Definition response_tag : element := tag "response" [("protocol", "3.0"); ("server", "prod")].
Definition app_tag : element := tag "app" [("status", "ok"); ("appid", "id")].
Definition url_tag : element := tag "url" [("codebase", "example.org/")].

Definition upgrade_answer : list element :=
  [response_tag; tag "daystart" []; app_tag; tag "updatecheck" [("status", "ok")]; tag "urls" [];
   url_tag; tag "manifest" [("version", "9.0")]; tag "package" []; tag "ping" [("status", "ok")]].

Example upgrade_is_read :
  parse_answer url_of "id" upgrade_answer
  = Ok (Some (Some {| upgrade_url := mk_url "https" "example.org" "" None;
                      next_version := "9.0" |})).
Proof. reflexivity. Qed.

Example no_upgrade_is_read :
  parse_answer url_of "id"
    [response_tag; app_tag; tag "updatecheck" [("status", "noupdate")]; tag "ping" [("status", "ok")]]
  = Ok (Some None).
Proof. reflexivity. Qed.

Example event_then_url :
  parse_answer url_of "id" [response_tag; app_tag; tag "event" [("status", "ok")]; url_tag] = Fault.
Proof. reflexivity. Qed.
End ConcreteAnswer.
