(* ===== verification/OmahaService.v ===== *)
(** * Pings to the update server

    [chrome/browser/omaha/omaha_service.mm]: the service that tells the
    update server of an installation and of use, every five hours or, after
    a failure, with a growing delay.  Its state survives in the user defaults.

    Parameters: the back-off of [net], versions and the calendar of [base],
    the embedder's provider, the XML parser and the doubles of Foundation.
    A time is a number of microseconds.  The XML writer is the list of the
    calls made to it.  Every reading of the clock advances it by the next of
    [ticks]; [pings] records what was sent and what the server acknowledged.
    The user may set the clock; a timer waits for a duration and is shifted
    with it. *)
From Stdlib Require Import QArith.
From stdpp Require Import pretty.
From S2P Require Import Prelude External OmahaResponseParser.
#[local] Open Scope Z_scope.

(** ** Code outside the repository *)

(** [net/base/backoff_entry.h] *)
Record BackoffPolicy := {
  num_errors_to_ignore : Z;
  initial_delay_ms : Z;
  multiply_factor : Q;
  jitter_factor : Q;
  maximum_backoff_ms : Z;
  entry_lifetime_ms : Z;
  always_use_initial_delay : bool;
}.

(** An entry takes its jitter from a source of random numbers, here its seed;
    its delay is in microseconds. *)
Class BackoffApi := {
  BackoffEntry : Type;
  BackoffEntry_new : BackoffPolicy -> nat -> BackoffEntry;
  InformOfRequest : bool -> BackoffEntry -> BackoffEntry;
  GetTimeUntilRelease : BackoffEntry -> Z;
}.

(** [for (int i = 0; i < n; ++i) entry.InformOfRequest(false)] *)
Definition inform_failures `{BackoffApi} (n : nat) (entry : BackoffEntry) : BackoffEntry :=
  Nat.iter n (InformOfRequest false) entry.

(** What the header of [BackoffEntry] documents of an entry that ignores no
    error: after a failure the delay is at least the initial one, less the
    jitter and the time [elapsed] since the failure, and at most the maximum. *)
Definition backoff_is_documented `{BackoffApi} (elapsed : Z) : Prop :=
  forall policy seed n,
    num_errors_to_ignore policy = 0 -> (1 <= multiply_factor policy)%Q ->
    (0 <= jitter_factor policy)%Q -> 0 <= initial_delay_ms policy ->
    initial_delay_ms policy <= maximum_backoff_ms policy -> (0 < n)%nat ->
    let delay := GetTimeUntilRelease (inform_failures n (BackoffEntry_new policy seed)) in
    (inject_Z (initial_delay_ms policy * 1000) * (1 - jitter_factor policy)
       <= inject_Z (delay + elapsed))%Q /\
    delay <= maximum_backoff_ms policy * 1000.

(** [base/version.h], [base/time/time.h], [base/strings/stringprintf.h] and
    the doubles of [NSUserDefaults], 0 for a key that is not there. *)
Class OmahaBaseApi := {
  Version : Type;
  Version_of : string -> Version;
  Version_less : Version -> Version -> bool;
  Version_equal : Version -> Version -> bool;
  Version_GetString : Version -> string;
  FromTimeT : Z -> Z;
  ToTimeT : Z -> Z;
  is_null : Z -> bool;
  CFAbsoluteTime : Type;
  cf_zero : CFAbsoluteTime;
  FromCFAbsoluteTime : CFAbsoluteTime -> Z;
  ToCFAbsoluteTime : Z -> CFAbsoluteTime;
  print_int : Z -> string;
}.

(** Versions are ordered by [<], and the string of a version is a version
    equal to it. *)
Record version_laws `{OmahaBaseApi} : Prop := {
  less_irrefl v : Version_less v v = false;
  less_not_less_trans a b c :
    Version_less a b = true -> Version_less c b = false -> Version_less a c = true;
  string_of_version v : Version_of (Version_GetString v) = v;
}.

(** The calls on the XML writer. *)
Inductive xml_call :=
| StartElement (name : string)
| EndElement
| WriteAttribute (name value : string)
| Finalize.

#[export] Instance xml_call_eq_dec : EqDecision xml_call.
Proof. solve_decision. Defined.

(** The embedder's provider, the device and the build. *)
Class OmahaEnvironment `{GurlApi} := {
  GetUpdateServerURL : GURL;
  GetApplicationID : string;
  GetBrandCode : string;
(** The attributes that [AppendExtraAttributes(tag, writer)] writes. *)
ExtraAttributes : string -> list (string * string);
GetPlatform : string;
OperatingSystemVersion : string;
kCurrentArch : string;
GetChannelString : string;
GetRandomId : nat -> string;
(** [NSXMLParser]: the start tags, and whether the text is XML. *)
parse_xml : string -> list element * bool;
GURL_of_string : string -> GURL;
}.

(** [chrome/browser/install_time_util.mm] *)
Definition kUnknownInstallDate : Z := 2.

(** ** Constants *)
Definition hours (n : Z) : Z := n * 3600 * 1000000.
Definition seconds (n : Z) : Z := n * 1000000.
Definition InSeconds (delta : Z) : Z := Z.quot delta 1000000.
Definition InDays (delta : Z) : Z := Z.quot delta (24 * 3600 * 1000000).

Definition kHoursBetweenRequests : Z := 5.
Definition kPostRetryBaseSeconds : Z := 3600.
Definition kPostRetryMaxSeconds : Z := 6 * kPostRetryBaseSeconds.
Definition kDefaultLastSentVersion : string := "0.0.0.0".

Definition kBackoffPolicy : BackoffPolicy :=
  {| num_errors_to_ignore := 0; initial_delay_ms := kPostRetryBaseSeconds * 1000;
     multiply_factor := 2; jitter_factor := 1 # 10;
     maximum_backoff_ms := kPostRetryMaxSeconds * 1000; entry_lifetime_ms := -1;
     always_use_initial_delay := false |}.

Inductive PingContent := INSTALL_EVENT | USAGE_PING.

#[export] Instance PingContent_eq_dec : EqDecision PingContent.
Proof. solve_decision. Defined.

Section service.
Context `{BackoffApi} `{OmahaBaseApi} `{OmahaEnvironment}.

(** ** State *)
Record UserDefaults := {
  kNextTriesTimesKey : option CFAbsoluteTime;
  kCurrentPingKey : option CFAbsoluteTime;
  kNumberTriesKey : option Z;
  kLastSentVersionKey : option string;
  kLastSentTimeKey : option CFAbsoluteTime;
  kRetryRequestIdKey : option string;
}.

#[export] Instance defaults_fields : Fields UserDefaults := fun d =>
  {| kNextTriesTimesKey := kNextTriesTimesKey d; kCurrentPingKey := kCurrentPingKey d;
     kNumberTriesKey := kNumberTriesKey d; kLastSentVersionKey := kLastSentVersionKey d;
     kLastSentTimeKey := kLastSentTimeKey d; kRetryRequestIdKey := kRetryRequestIdKey d |}.

(** A request under way: what is uploaded, and the age in its headers. *)
Record Fetcher := { upload_data : list xml_call; X_RequestAge : option string }.

(** What the server sees of the service. *)
Inductive ping_record :=
| Sent (time : Z) (content : PingContent) (request_id : string) (age : option string)
| Acknowledged (time : Z) (content : PingContent)
| Started.

(** [version_number] is [version_info::GetVersionNumber()] of this build,
    [timer_] the time at which the timer runs, [start_posted] whether the task
    posted by [Start] is waiting, [recommended] the upgrades reported. *)
Record OmahaService := {
  fetcher_ : option Fetcher;
  has_request_context : bool;
  timer_ : option Z;
  schedule_ : bool;
  application_install_date_ : Z;
  last_sent_time_ : Z;
  next_tries_time_ : Z;
  current_ping_time_ : Z;
  last_sent_version_ : Version;
  locale_lang_ : string;
  number_of_tries_ : Z;
  sending_install_event_ : bool;
  version_number : string;
  start_posted : bool;
  defaults : UserDefaults;
  clock : Z;
  ticks : list Z;
  random : nat;
  pings : list ping_record;
  recommended : list UpgradeRecommendedDetails;
}.

#[export] Instance service_fields : Fields OmahaService := fun s =>
  {| fetcher_ := fetcher_ s; has_request_context := has_request_context s; timer_ := timer_ s;
     schedule_ := schedule_ s; application_install_date_ := application_install_date_ s;
     last_sent_time_ := last_sent_time_ s; next_tries_time_ := next_tries_time_ s;
     current_ping_time_ := current_ping_time_ s; last_sent_version_ := last_sent_version_ s;
     locale_lang_ := locale_lang_ s; number_of_tries_ := number_of_tries_ s;
     sending_install_event_ := sending_install_event_ s; version_number := version_number s;
     start_posted := start_posted s; defaults := defaults s; clock := clock s;
     ticks := ticks s; random := random s; pings := pings s; recommended := recommended s |}.

Implicit Types (s : OmahaService).

(** [base::Time::Now()] is the clock after one more tick. *)
Definition tick s : OmahaService :=
  s <| clock := clock s + hd 0 (ticks s) |> <| ticks := tail (ticks s) |>.

Definition current_version s : Version := Version_of (version_number s).

Definition set_default (update : UserDefaults -> UserDefaults) s : OmahaService :=
  s <| defaults := update (defaults s) |>.

Definition doubleForKey (value : option CFAbsoluteTime) : CFAbsoluteTime := default cf_zero value.

(** ** Persistence *)
Definition PersistStates s : OmahaService :=
  set_default (fun d =>
    d <| kNextTriesTimesKey := Some (ToCFAbsoluteTime (next_tries_time_ s)) |>
      <| kCurrentPingKey := Some (ToCFAbsoluteTime (current_ping_time_ s)) |>
      <| kLastSentTimeKey := Some (ToCFAbsoluteTime (last_sent_time_ s)) |>
      <| kNumberTriesKey := Some (number_of_tries_ s) |>
      <| kLastSentVersionKey := Some (Version_GetString (last_sent_version_ s)) |>) s.

(** The part of [Initialize] that reads the defaults; the number of tries is
    kept in 8 bits. *)
Definition read_defaults (install_date : Z) s : OmahaService :=
  let d := defaults s in
  s <| next_tries_time_ := FromCFAbsoluteTime (doubleForKey (kNextTriesTimesKey d)) |>
    <| current_ping_time_ := FromCFAbsoluteTime (doubleForKey (kCurrentPingKey d)) |>
    <| number_of_tries_ := default 0 (kNumberTriesKey d) mod 256 |>
    <| last_sent_time_ := FromCFAbsoluteTime (doubleForKey (kLastSentTimeKey d)) |>
    <| last_sent_version_ :=
         Version_of (default kDefaultLastSentVersion (kLastSentVersionKey d)) |>
    <| application_install_date_ := install_date |>.

Definition Initialize (install_date : Z) s : chk OmahaService :=
  let s := read_defaults install_date s in
  _ ← dcheck (negb (application_install_date_ s =? 0));
  let persist_again := false in
  let s := tick s in
  let now := clock s in
  let '(s, persist_again) :=
    if last_sent_time_ s >? now then (s <| last_sent_time_ := now |>, true)
    else (s, persist_again) in
  let '(s, persist_again) :=
    if next_tries_time_ s - now >? hours kHoursBetweenRequests then
      (s <| next_tries_time_ := last_sent_time_ s + hours kHoursBetweenRequests |>, true)
    else (s, persist_again) in
  let '(s, persist_again) :=
    if Version_less (last_sent_version_ s) (current_version s) then
      let s := tick s in
      (s <| next_tries_time_ := clock s - seconds 1 |> <| number_of_tries_ := 0 |>, true)
    else (s, persist_again) in
  mret (if persist_again then PersistStates s else s).

(** The constructor, on the defaults and the clock of an earlier state. *)
Definition OmahaService_new (schedule : bool) (version : string) (install_date : Z) s
    : chk OmahaService :=
  Initialize install_date
    {| fetcher_ := None; has_request_context := false; timer_ := None; schedule_ := schedule;
       application_install_date_ := 0; last_sent_time_ := 0; next_tries_time_ := 0;
       current_ping_time_ := 0; last_sent_version_ := last_sent_version_ s; locale_lang_ := "";
       number_of_tries_ := 0; sending_install_event_ := false; version_number := version;
       start_posted := false; defaults := defaults s; clock := clock s; ticks := ticks s;
       random := random s; pings := pings s ++ [Started]; recommended := recommended s |}.

(** ** Pings *)
Definition GetBackOff (number_of_tries : Z) s : Z * OmahaService :=
  let entry := BackoffEntry_new kBackoffPolicy (random s) in
  (GetTimeUntilRelease (inform_failures (Z.to_nat number_of_tries) entry),
   s <| random := S (random s) |>).

Definition IsNextPingInstallRetry s : bool :=
  match kRetryRequestIdKey (defaults s) with Some _ => true | None => false end.

Definition SetInstallRetryRequestId (request_id : string) s : OmahaService :=
  set_default (fun d => d <| kRetryRequestIdKey := Some request_id |>) s.

Definition ClearInstallRetryRequestId s : OmahaService :=
  set_default (fun d => d <| kRetryRequestIdKey := None |>) s.

Definition random_id s : string * OmahaService :=
  (GetRandomId (random s), s <| random := S (random s) |>).

Definition GetNextPingRequestId (ping_content : PingContent) s : chk (string * OmahaService) :=
  match kRetryRequestIdKey (defaults s) with
  | Some stored_id =>
      _ ← dcheck (bool_decide (ping_content = INSTALL_EVENT)); mret (stored_id, s)
  | None =>
      let '(identifier, s) := random_id s in
      mret (identifier,
            if bool_decide (ping_content = INSTALL_EVENT)
            then SetInstallRetryRequestId identifier s else s)
  end.

Definition append_extra (tag : string) : list xml_call :=
  (fun '(name, value) => WriteAttribute name value) <$> ExtraAttributes tag.

(** The [installage] of a ping, empty when nothing is sent, with the reading
    of the clock it takes. *)
Definition install_age (is_first_install : bool) (installationTime : Z) s : string * OmahaService :=
  if is_first_install then ("-1", s)
  else if negb (is_null installationTime) &&
          negb (ToTimeT installationTime =? kUnknownInstallDate) then
    let s := tick s in (print_int (InDays (clock s - installationTime)), s)
  else ("", s).

Definition GetPingContent (requestId sessionId versionName channelName : string)
    (installationTime : Z) (pingContent : PingContent) s : list xml_call * OmahaService :=
  let install := bool_decide (pingContent = INSTALL_EVENT) in
  let is_first_install :=
    install && Version_equal (last_sent_version_ s) (Version_of kDefaultLastSentVersion) in
  let request :=
    [StartElement "request"; WriteAttribute "protocol" "3.0";
     WriteAttribute "version" "iOS-1.0.0.0"; WriteAttribute "ismachine" "1";
     WriteAttribute "requestid" requestId; WriteAttribute "sessionid" sessionId] ++
    append_extra "request" ++ [WriteAttribute "hardware_class" GetPlatform] in
  let os :=
    [StartElement "os"; WriteAttribute "platform" "ios";
     WriteAttribute "version" OperatingSystemVersion; WriteAttribute "arch" kCurrentArch;
     EndElement] in
  let versions :=
    if install then
      [WriteAttribute "version"
         (if is_first_install then "" else Version_GetString (last_sent_version_ s));
       WriteAttribute "nextversion" versionName]
    else [WriteAttribute "version" versionName; WriteAttribute "nextversion" ""] in
  let app :=
    [StartElement "app"] ++ versions ++
    [WriteAttribute "lang" (locale_lang_ s); WriteAttribute "brand" GetBrandCode;
     WriteAttribute "client" ""; WriteAttribute "appid" GetApplicationID] in
  let '(install_age, s) := install_age is_first_install installationTime s in
  let age := if String.eqb install_age "" then [] else [WriteAttribute "installage" install_age] in
  let body :=
    if install then
      [StartElement "event"; WriteAttribute "eventtype" (if is_first_install then "2" else "3");
       WriteAttribute "eventresult" "1"; EndElement]
    else
      [StartElement "updatecheck"; WriteAttribute "tag" channelName; EndElement;
       StartElement "ping"; WriteAttribute "active" "1"; EndElement] in
  (request ++ os ++ app ++ append_extra "app" ++ age ++ body ++ [EndElement; EndElement; Finalize], s).

Definition ping_content_of s : PingContent :=
  if sending_install_event_ s then INSTALL_EVENT else USAGE_PING.

(** The content and the identifier in it. *)
Definition GetCurrentPingContent s : chk (list xml_call * string * OmahaService) :=
  let s := s <| sending_install_event_ :=
                  Version_less (last_sent_version_ s) (current_version s) |> in
  let ping_content := ping_content_of s in
  _ ← dcheck (sending_install_event_ s || negb (IsNextPingInstallRetry s));
  '(request_id, s) ← GetNextPingRequestId ping_content s;
  let '(session_id, s) := random_id s in
  let '(content, s) :=
    GetPingContent request_id session_id (version_number s) GetChannelString
      (FromTimeT (application_install_date_ s)) ping_content s in
  mret (content, request_id, s).

Definition SendPing s : chk OmahaService :=
  _ ← dcheck (match fetcher_ s with None => true | Some _ => false end);
  if negb (is_valid GetUpdateServerURL) then mret s else
  '(content, request_id, s) ← GetCurrentPingContent s;
  let '(age, s) :=
    if negb (number_of_tries_ s =? 0) && IsNextPingInstallRetry s then
      let s := tick s in (Some (print_int (InSeconds (clock s - current_ping_time_ s))), s)
    else (None, s) in
  let s := s <| fetcher_ := Some {| upload_data := content; X_RequestAge := age |} |> in
  let s := if number_of_tries_ s <? 30
           then s <| number_of_tries_ := number_of_tries_ s + 1 |> else s in
  let s := tick s in
  let now := clock s in
  let '(backoff, s) := GetBackOff (number_of_tries_ s) s in
  let s := s <| next_tries_time_ := now + backoff |> in
  let s := PersistStates s in
  mret (s <| pings := pings s ++ [Sent now (ping_content_of s) request_id age] |>).

Definition SendOrScheduleNextPing s : chk OmahaService :=
  let s := tick s in
  let now := clock s in
  if next_tries_time_ s <=? now then SendPing s
  else mret (if schedule_ s then s <| timer_ := Some (next_tries_time_ s) |> else s).

(** ** Answers *)

(** What follows the success of a request. *)
Definition handle_success s : chk OmahaService :=
  let s := s <| number_of_tries_ := 0 |> in
  let s := tick s in
  let s := s <| next_tries_time_ :=
                  if sending_install_event_ s then clock s
                  else clock s + hours kHoursBetweenRequests |> in
  let s := s <| current_ping_time_ := next_tries_time_ s |>
             <| pings := pings s ++ [Acknowledged (clock s) (ping_content_of s)] |> in
  let s := tick s in
  let s := s <| last_sent_time_ := clock s |> in
  let s := s <| last_sent_version_ := current_version s |> <| sending_install_event_ := false |> in
  let s := ClearInstallRetryRequestId s in
  SendOrScheduleNextPing (PersistStates s).

Definition OnURLFetchComplete (code : Z) (response : string) s : chk OmahaService :=
  _ ← deref (fetcher_ s);
  let s := s <| fetcher_ := None |> in
  if negb (code =? 200) then SendOrScheduleNextPing s else
  let '(tags, parsed) := parse_xml response in
  learnt ← parse_answer GURL_of_string GetApplicationID tags;
  match learnt with
  | Some details =>
      if parsed then
        s ← handle_success s;
        mret (match details with
              | Some details => s <| recommended := recommended s ++ [details] |>
              | None => s
              end)
      else SendOrScheduleNextPing s
  | None => SendOrScheduleNextPing s
  end.

(** ** The outside *)
Definition Start (locale : string) s : chk OmahaService :=
  _ ← dcheck (negb (has_request_context s));
  mret (s <| has_request_context := true |> <| locale_lang_ := locale |>
          <| start_posted := true |>).

(** The timer stops before it runs its task. *)
Definition run_timer s : chk OmahaService :=
  match timer_ s with
  | Some desired =>
      if desired <=? clock s then SendPing (s <| timer_ := None |>) else mret s
  | None => mret s
  end.

(** [GetDebugInformationOnIOThread]: the message, and what computing it
    changes. *)
Definition GetDebugInformationOnIOThread s : chk OmahaService :=
  '(_, _, s) ← GetCurrentPingContent s; mret s.

(** Time passes, with the readings of the clock to come. *)
Definition wait (elapsed : Z) (more : list Z) s : OmahaService :=
  s <| clock := clock s + elapsed |> <| ticks := more |>.

(** The user sets the clock; the timer waits for a duration, and the time at
    which it runs is set with the clock. *)
Definition tamper (shift : Z) s : OmahaService :=
  s <| clock := clock s + shift |> <| timer_ := (fun d => d + shift) <$> timer_ s |>.

(** A callback that is not waiting cannot run: its event changes nothing. *)
Inductive event :=
| EWait (elapsed : Z) (more : list Z)
| EStart (locale : string)
| EStartTask
| ETimer
| EComplete (code : Z) (response : string)
| EDebug
| ERestart (version : string) (install_date : Z)
| ETamper (shift : Z).

Definition handle (e : event) s : chk OmahaService :=
  match e with
  | EWait elapsed more => mret (wait elapsed more s)
  | EStart locale => Start locale s
  | EStartTask =>
      if start_posted s then SendOrScheduleNextPing (s <| start_posted := false |>) else mret s
  | ETimer => run_timer s
  | EComplete code response =>
      match fetcher_ s with Some _ => OnURLFetchComplete code response s | None => mret s end
  | EDebug => GetDebugInformationOnIOThread s
  | ERestart version install_date => OmahaService_new (schedule_ s) version install_date s
  | ETamper shift => mret (tamper shift s)
  end.

Fixpoint handle_all (es : list event) s : chk OmahaService :=
  match es with
  | [] => mret s
  | e :: es => s ← handle e s; handle_all es s
  end.

(** ** The text of a ping *)

(** The document that a sequence of calls writes: the elements that are open,
    innermost first, and the root once it is closed.  An attribute is written
    only while the start tag of its element is open; these are the conditions
    under which the writer's functions do not fail. *)
#[warnings="-register-all"]
Inductive xml := Node (name : string) (attributes : list (string * string)) (children : list xml).

Record frame := { f_name : string; f_attributes : list (string * string); f_children : list xml }.

Definition write (call : xml_call) (st : list frame * option xml)
    : option (list frame * option xml) :=
  match call, st with
  | StartElement name, (open, None) =>
      Some ({| f_name := name; f_attributes := []; f_children := [] |} :: open, None)
  | WriteAttribute name value, (f :: open, None) =>
      match f_children f with
      | [] => Some ({| f_name := f_name f; f_attributes := f_attributes f ++ [(name, value)];
                       f_children := [] |} :: open, None)
      | _ => None
      end
  | EndElement, (f :: open, None) =>
      let node := Node (f_name f) (f_attributes f) (f_children f) in
      match open with
      | [] => Some ([], Some node)
      | g :: open => Some ({| f_name := f_name g; f_attributes := f_attributes g;
                              f_children := f_children g ++ [node] |} :: open, None)
      end
  | Finalize, ([], Some root) => Some ([], Some root)
  | _, _ => None
  end.

Fixpoint write_all (calls : list xml_call) (st : list frame * option xml)
    : option (list frame * option xml) :=
  match calls with [] => Some st | c :: calls => st ← write c st; write_all calls st end.

Definition document (calls : list xml_call) : option xml := st ← write_all calls ([], None); st.2.

Lemma write_extra tag rest n atts open :
  write_all (append_extra tag ++ rest)
    ({| f_name := n; f_attributes := atts; f_children := [] |} :: open, None)
  = write_all rest
      ({| f_name := n; f_attributes := atts ++ ExtraAttributes tag; f_children := [] |} :: open, None).
Proof.
  unfold append_extra. revert atts.
  induction (ExtraAttributes tag) as [| [name value] l IH]; intros atts; simpl.
  - by rewrite app_nil_r.
  - rewrite IH. by rewrite <- app_assoc.
Qed.

(** A ping is a well-formed document, whatever attributes the embedder
    adds: a request with the system and the application; the application has
    either the event of an installation, which the answer acknowledges, with
    the version it replaces, or a question for updates with a ping. *)
Lemma GetPingContent_document requestId sessionId versionName channelName installationTime k s :
  let install := bool_decide (k = INSTALL_EVENT) in
  let first :=
    install && Version_equal (last_sent_version_ s) (Version_of kDefaultLastSentVersion) in
  let age := (install_age first installationTime s).1 in
  document (GetPingContent requestId sessionId versionName channelName installationTime k s).1 =
  Some (Node "request"
    ([("protocol", "3.0"); ("version", "iOS-1.0.0.0"); ("ismachine", "1");
      ("requestid", requestId); ("sessionid", sessionId)] ++
     ExtraAttributes "request" ++ [("hardware_class", GetPlatform)])
    [Node "os" [("platform", "ios"); ("version", OperatingSystemVersion); ("arch", kCurrentArch)] [];
     Node "app"
       ([("version", if install then if first then "" else Version_GetString (last_sent_version_ s)
                     else versionName);
         ("nextversion", if install then versionName else ""); ("lang", locale_lang_ s);
         ("brand", GetBrandCode); ("client", ""); ("appid", GetApplicationID)] ++
        ExtraAttributes "app" ++ (if String.eqb age "" then [] else [("installage", age)]))
       (if install then
          [Node "event" [("eventtype", if first then "2" else "3"); ("eventresult", "1")] []]
        else
          [Node "updatecheck" [("tag", channelName)] []; Node "ping" [("active", "1")] []])]).
Proof.
  cbv zeta. unfold GetPingContent, document.
  set (first := bool_decide _ && _). destruct (install_age first installationTime s) as [age s'].
  cbn [fst]. rewrite <- !app_assoc.
  destruct (bool_decide (k = INSTALL_EVENT)); simpl; rewrite write_extra; simpl;
    rewrite write_extra; simpl; destruct (String.eqb age ""); simpl; by rewrite <- ?app_assoc, ?app_nil_r.
Qed.

(** ** What the parts change *)

(** The readings of the clock to come do not go back. *)
Definition forward s : Prop := Forall (fun d => 0 <= d) (ticks s).

Lemma tick_forward s : forward s -> forward (tick s) /\ clock s <= clock (tick s).
Proof.
  unfold forward, tick. simpl. intros [| d ds Hd Hds]; simpl; [split; [done | lia] |].
  split; [done | lia].
Qed.

(** [s'] is [s] after some readings of the clock and of the random numbers. *)
Definition reads s s' : Prop :=
  exists r c t, s' = s <| random := r |> <| clock := c |> <| ticks := t |> /\
    (forward s -> clock s <= c /\ Forall (fun d => 0 <= d) t).

Lemma reads_refl s : reads s s.
Proof. exists (random s), (clock s), (ticks s). split; [by destruct s | done]. Qed.

Lemma reads_trans s1 s2 s3 : reads s1 s2 -> reads s2 s3 -> reads s1 s3.
Proof.
  intros (r & c & t & -> & H12) (r' & c' & t' & -> & H23). exists r', c', t'.
  split; [done |]. intros Hf. destruct (H12 Hf) as [? Ht].
  destruct (H23 Ht) as [Hc ?]. simpl in Hc. split; [lia | done].
Qed.

Lemma tick_reads s : reads s (tick s).
Proof.
  exists (random s), (clock (tick s)), (ticks (tick s)).
  split; [by destruct s | by intros [? ?]%tick_forward].
Qed.

Lemma random_reads s : reads s (random_id s).2.
Proof. exists (S (random s)), (clock s), (ticks s). split; [by destruct s | done]. Qed.

Lemma install_age_reads first date s : reads s (install_age first date s).2.
Proof.
  unfold install_age. destruct first; [apply reads_refl |].
  destruct (_ && _); [apply tick_reads | apply reads_refl].
Qed.

Lemma GetPingContent_reads i1 i2 v c date k s :
  reads s (GetPingContent i1 i2 v c date k s).2.
Proof.
  unfold GetPingContent. pose proof (install_age_reads (bool_decide (k = INSTALL_EVENT) &&
    Version_equal (last_sent_version_ s) (Version_of kDefaultLastSentVersion)) date s) as Hr.
  by destruct (install_age _ _ _).
Qed.

(** [s] with the identifier of an installation stored, when it is about one. *)
Definition keep_id (install : bool) (id : string) s : OmahaService :=
  if install then SetInstallRetryRequestId id s else s.

Lemma keep_id_reads install id s s' : reads s s' -> reads (keep_id install id s) (keep_id install id s').
Proof.
  intros (r & c & t & -> & Hf). exists r, c, t. by destruct install.
Qed.

(** The identifier of a ping: the one stored, or a new one, which is stored for
    an installation. *)
Lemma GetNextPingRequestId_run content s id s' :
  GetNextPingRequestId content s = Ok (id, s') ->
  (forall stored, kRetryRequestIdKey (defaults s) = Some stored -> id = stored) /\
  reads (keep_id (bool_decide (content = INSTALL_EVENT)) id s) s'.
Proof.
  unfold GetNextPingRequestId. destruct (kRetryRequestIdKey (defaults s)) as [stored |] eqn:Hid.
  - intros Hrun. run_inv Hrun. split; [by intros ? [= <-] |].
    rewrite bool_decide_eq_true_2 by done. simpl.
    assert (Heq : SetInstallRetryRequestId id s' = s'); [| rewrite Heq; apply reads_refl].
    destruct s' as [? ? ? ? ? ? ? ? ? ? ? ? ? ? []]. simpl in *. by subst.
  - intros Hrun. split; [done |].
    pose proof (keep_id_reads (bool_decide (content = INSTALL_EVENT)) id _ _ (random_reads s)) as Hr.
    simpl in Hrun. by injection Hrun as <- <-.
Qed.

(** Computing the content of a ping changes only whether it is about an
    installation, the identifier kept for it, and what is read. *)
Lemma GetCurrentPingContent_run s content id s' :
  GetCurrentPingContent s = Ok (content, id, s') ->
  let install := Version_less (last_sent_version_ s) (current_version s) in
  (forall stored, kRetryRequestIdKey (defaults s) = Some stored -> id = stored) /\
  reads (keep_id install id (s <| sending_install_event_ := install |>)) s'.
Proof.
  unfold GetCurrentPingContent, ping_content_of. intros Hrun. run_inv Hrun. simpl in *.
  match goal with Hn : GetNextPingRequestId _ _ = Ok _ |- _ =>
    apply GetNextPingRequestId_run in Hn as [Hid Hr1] end. split; [done |].
  match type of Hpair1 with GetPingContent ?a ?b ?c ?d ?e ?f ?g = _ =>
    pose proof (GetPingContent_reads a b c d e f g) as Hr3; rewrite Hpair1 in Hr3 end.
  injection Hpair0 as <- <-.
  eapply reads_trans; [| exact Hr3]. eapply reads_trans; [| apply random_reads].
  revert Hr1. by destruct (Version_less _ _).
Qed.

(** It succeeds when an identifier is stored only for an installation. *)
Definition retry_ok s : Prop :=
  is_Some (kRetryRequestIdKey (defaults s)) ->
  Version_less (last_sent_version_ s) (current_version s) = true.

Lemma GetNextPingRequestId_Ok content s :
  (is_Some (kRetryRequestIdKey (defaults s)) -> content = INSTALL_EVENT) ->
  is_ok (GetNextPingRequestId content s).
Proof.
  intros Hr. unfold GetNextPingRequestId. destruct (kRetryRequestIdKey _); [| by eexists].
  rewrite Hr by done. by eexists.
Qed.

Lemma GetCurrentPingContent_Ok s : retry_ok s -> is_ok (GetCurrentPingContent s).
Proof.
  intros Hr. unfold GetCurrentPingContent. cbv zeta.
  set (s0 := s <| sending_install_event_ := _ |>).
  assert (Hs : is_Some (kRetryRequestIdKey (defaults s0)) -> sending_install_event_ s0 = true) by exact Hr.
  rewrite dcheck_true; cbn [mbind chk_bind].
  2: { unfold IsNextPingInstallRetry. destruct (kRetryRequestIdKey _); [rewrite Hs by done; done |].
       by rewrite orb_true_r. }
  destruct (GetNextPingRequestId_Ok (ping_content_of s0) s0) as [[id s1] ->].
  { unfold ping_content_of. intros Hi. by rewrite Hs. }
  cbn [mbind chk_bind]. destruct (random_id s1), (GetPingContent _ _ _ _ _ _ _). by eexists.
Qed.

(** ** One ping *)

(** 54 minutes: the delay after the first failure, less the jitter. *)
Definition least_delay : Z := 54 * 60 * 1000000.
Definition greatest_delay : Z := hours 6.

Lemma GetBackOff_bounds elapsed n s :
  backoff_is_documented elapsed -> 0 < n ->
  least_delay <= (GetBackOff n s).1 + elapsed /\ (GetBackOff n s).1 <= greatest_delay.
Proof.
  intros Hdoc Hn. destruct (Hdoc kBackoffPolicy (random s) (Z.to_nat n)) as [Hlow Hhigh];
    [done | by vm_compute .. | lia |].
  split; [| exact Hhigh]. clear Hhigh. unfold Qle, inject_Z in Hlow. simpl in Hlow |- *.
  unfold least_delay. unfold kPostRetryBaseSeconds in Hlow. lia.
Qed.

Record pinged (s s' : OmahaService) (now : Z) (id : string) (age : option string) : Prop := {
  p_fetcher : is_Some (fetcher_ s');
  p_same : timer_ s' = timer_ s /\ has_request_context s' = has_request_context s /\
           schedule_ s' = schedule_ s /\ start_posted s' = start_posted s /\
           version_number s' = version_number s /\ last_sent_version_ s' = last_sent_version_ s;
  p_install : sending_install_event_ s' = Version_less (last_sent_version_ s) (current_version s);
  p_pings : pings s' = pings s ++ [Sent now (ping_content_of s') id age];
  p_id : forall stored, kRetryRequestIdKey (defaults s) = Some stored -> id = stored;
  p_stored : kRetryRequestIdKey (defaults s') =
    if sending_install_event_ s' then Some id else kRetryRequestIdKey (defaults s);
  p_version : kLastSentVersionKey (defaults s') =
              Some (Version_GetString (last_sent_version_ s'));
  p_tries : 0 <= number_of_tries_ s -> 0 < number_of_tries_ s';
  p_clock : forward s -> clock s <= now /\ now <= clock s' /\ forward s';
  p_next elapsed : backoff_is_documented elapsed -> 0 <= number_of_tries_ s ->
    now + least_delay <= next_tries_time_ s' + elapsed /\
    next_tries_time_ s' <= now + greatest_delay;
}.

(** The reading of the age, when it is sent. *)
Definition age_reading s : option string * OmahaService :=
  if negb (number_of_tries_ s =? 0) && IsNextPingInstallRetry s then
    let s := tick s in (Some (print_int (InSeconds (clock s - current_ping_time_ s))), s)
  else (None, s).

Lemma age_reading_reads s : reads s (age_reading s).2.
Proof. unfold age_reading. destruct (_ && _); [apply tick_reads | apply reads_refl]. Qed.

Definition count_try s : OmahaService :=
  if number_of_tries_ s <? 30 then s <| number_of_tries_ := number_of_tries_ s + 1 |> else s.

Lemma count_try_positive s : 0 <= number_of_tries_ s -> 0 < number_of_tries_ (count_try s).
Proof. intros Hn. unfold count_try. destruct (Z.ltb_spec (number_of_tries_ s) 30); simpl; lia. Qed.

Lemma SendPing_run s s' :
  is_valid GetUpdateServerURL = true -> SendPing s = Ok s' ->
  fetcher_ s = None /\ exists now id age, pinged s s' now id age.
Proof.
  intros Hurl Hrun. unfold SendPing in Hrun. rewrite Hurl in Hrun. cbn [negb] in Hrun.
  apply bind_Ok_inv in Hrun as ([] & Hf & Hrun). apply dcheck_Ok in Hf.
  split; [by destruct (fetcher_ s) |].
  apply bind_Ok_inv in Hrun as ([[content id] s1] & Hc & Hrun).
  apply GetCurrentPingContent_run in Hc as [Hid Hr1].
  change (_ && _) with (negb (number_of_tries_ s1 =? 0) && IsNextPingInstallRetry s1) in Hrun.
  fold (age_reading s1) in Hrun. pose proof (age_reading_reads s1) as Hr2.
  destruct (age_reading s1) as [age s2]. simpl in Hr2.
  pose proof (reads_trans _ _ _ Hr1 Hr2) as (r & c & t & -> & Hclock). clear Hr1 Hr2 s1.
  set (install := Version_less _ _) in *.
  set (s3 := _ <| fetcher_ := _ |>) in Hrun. fold (count_try s3) in Hrun.
  set (s4 := count_try s3) in Hrun.
  assert (H4 : s4 = s3 <| number_of_tries_ := number_of_tries_ s4 |>).
  { unfold s4, count_try. destruct (_ <? _); [done | by destruct s3]. }
  assert (Hpos : 0 <= number_of_tries_ s -> 0 < number_of_tries_ s4).
  { intros Hn. apply count_try_positive. unfold s3. by destruct install. }
  clearbody s4. injection Hrun as <-. exists (clock (tick s4)), id, age.
  assert (Hfwd : forward s -> clock s <= clock s4 /\ forward s4).
  { intros Hfs. rewrite H4. destruct Hclock as [Hc Ht]; [by destruct install |].
    unfold s3, forward. simpl. by destruct install. }
  assert (Hsame : current_version s4 = current_version s /\ pings s4 = pings s /\
                  sending_install_event_ s4 = install /\
                  kRetryRequestIdKey (defaults s4) =
                    if install then Some id else kRetryRequestIdKey (defaults s)).
  { rewrite H4. unfold s3. by destruct install. }
  destruct Hsame as (_ & Hp & Hi & Hk).
  split; simpl; unfold ping_content_of; simpl; rewrite ?Hp, ?Hi, ?Hk.
  - rewrite H4. by eexists.
  - rewrite H4. unfold s3. by destruct install.
  - done.
  - done.
  - done.
  - done.
  - done.
  - done.
  - intros Hfs. destruct (Hfwd Hfs) as [Hc Hf4]. destruct (tick_forward _ Hf4) as [Hf5 Hc5].
    unfold tick in Hc5. simpl in Hc5. split_and!; try lia. done.
  - intros elapsed Hdoc Hn. pose proof (GetBackOff_bounds elapsed _ (tick s4) Hdoc (Hpos Hn)) as Hb.
    simpl in Hb. lia.
Qed.

Lemma SendPing_Ok s : fetcher_ s = None -> retry_ok s -> is_ok (SendPing s).
Proof.
  intros Hf Hr. unfold SendPing. rewrite Hf. cbn [dcheck mbind chk_bind].
  destruct (is_valid GetUpdateServerURL); cbn [negb]; [| by eexists].
  destruct (GetCurrentPingContent_Ok s Hr) as [[[content id] s1] ->]. cbn [mbind chk_bind].
  destruct (if negb _ && _ then _ else _). by eexists.
Qed.

(** ** What the server sees *)

(** The least time between two neighbours of the record. *)
Definition follows (elapsed : Z) (r1 r2 : ping_record) : Prop :=
  match r1, r2 with
  | Sent t1 _ _ _, Sent t2 _ _ _ => t1 + least_delay <= t2 + elapsed
  | Acknowledged t1 USAGE_PING, Sent t2 _ _ _ => t1 + hours kHoursBetweenRequests <= t2
  | _, _ => True
  end.

Fixpoint spaced (elapsed : Z) (l : list ping_record) : Prop :=
  match l with
  | r1 :: (r2 :: _) as rest => follows elapsed r1 r2 /\ spaced elapsed rest
  | _ => True
  end.

Lemma spaced_snoc elapsed l r :
  spaced elapsed l -> (forall r', last l = Some r' -> follows elapsed r' r) ->
  spaced elapsed (l ++ [r]).
Proof.
  induction l as [| r1 [| r2 l] IH]; intros Hs Hl; [done | by split; [apply Hl |] |].
  destruct Hs as [H12 Hs]. split; [done |]. apply IH; [done |]. intros r' Hr'. by apply Hl.
Qed.

(** The identifier of the installation that is announced and not yet
    acknowledged. *)
Definition announce (pending : option string) (r : ping_record) : option string :=
  match r with
  | Sent _ INSTALL_EVENT id _ => Some id
  | Acknowledged _ _ => None
  | _ => pending
  end.

Definition pending_id (l : list ping_record) : option string := foldl announce None l.

Definition ids_kept (l : list ping_record) : Prop :=
  forall l1 t id age l2 id',
    l = l1 ++ Sent t INSTALL_EVENT id age :: l2 -> pending_id l1 = Some id' -> id = id'.

Lemma ids_kept_snoc l r :
  ids_kept l ->
  (forall t id age id', r = Sent t INSTALL_EVENT id age -> pending_id l = Some id' -> id = id') ->
  ids_kept (l ++ [r]).
Proof.
  intros Hl Hr l1 t id age l2 id' Heq Hp. destruct l2 as [| r' l2 _] using rev_ind.
  - apply app_inj_tail in Heq as [-> ->]. by eapply Hr.
  - rewrite app_comm_cons, app_assoc in Heq. apply app_inj_tail in Heq as [-> _]. by eapply Hl.
Qed.

(** ** The invariant *)

(** The time that [next_tries_time_] keeps after the last record. *)
Definition next_ok (elapsed : Z) s : Prop :=
  match last (pings s) with
  | Some (Sent t _ _ _) => t + least_delay <= next_tries_time_ s + elapsed
  | Some (Acknowledged t USAGE_PING) => t + hours kHoursBetweenRequests <= next_tries_time_ s
  | _ => True
  end.

(** [timed] says that the clock has never been set back; some of the invariant
    does not depend on it. *)
Record core (timed : Prop) (elapsed : Z) s : Prop := {
  c_forward : timed -> forward s;
  c_tries : 0 <= number_of_tries_ s;
  c_retry : retry_ok s;
  c_version : Version_of (default kDefaultLastSentVersion (kLastSentVersionKey (defaults s)))
              = last_sent_version_ s;
  c_next : next_ok elapsed s;
  c_bound : timed -> next_tries_time_ s <= clock s + greatest_delay;
  c_spaced : timed -> spaced elapsed (pings s);
  c_ids : ids_kept (pings s);
  c_pending id : pending_id (pings s) = Some id -> kRetryRequestIdKey (defaults s) = Some id;
}.

(** What waits: the task of [Start], the timer, the answer to a request. *)
Definition waiting s : nat :=
  ((if start_posted s then 1 else 0) + (match timer_ s with Some _ => 1 | None => 0 end) +
   (match fetcher_ s with Some _ => 1 | None => 0 end))%nat.

Record good (timed : Prop) (elapsed : Z) s : Prop := {
  g_core : core timed elapsed s;
  g_timer d : timed -> timer_ s = Some d -> d = next_tries_time_ s;
  g_stopped : has_request_context s = false -> waiting s = 0%nat;
  g_one : (waiting s <= 1)%nat;
  g_going : has_request_context s = true -> schedule_ s = true ->
            is_valid GetUpdateServerURL = true -> waiting s = 1%nat;
}.

Lemma next_ok_follows elapsed s now :
  next_ok elapsed s -> next_tries_time_ s <= now ->
  forall r id c age, last (pings s) = Some r -> follows elapsed r (Sent now c id age).
Proof.
  unfold next_ok. intros Hn Hle r id c age Hr. rewrite Hr in Hn.
  destruct r as [t c' id' age' | t [|] |]; simpl in *; try done; lia.
Qed.

Section histories.
Context (timed : Prop) (elapsed : Z) (backoff_documented : backoff_is_documented elapsed) (laws : version_laws).

Lemma SendPing_core s :
  core timed elapsed s -> fetcher_ s = None -> (timed -> next_tries_time_ s <= clock s) ->
  exists s', SendPing s = Ok s' /\ core timed elapsed s' /\
    timer_ s' = timer_ s /\ has_request_context s' = has_request_context s /\
    schedule_ s' = schedule_ s /\ start_posted s' = start_posted s /\
    (is_valid GetUpdateServerURL = true -> is_Some (fetcher_ s')) /\
    (is_valid GetUpdateServerURL = false -> s' = s).
Proof.
  intros Hc Hf Hle. destruct (SendPing_Ok s Hf (c_retry _ _ _ Hc)) as [s' Hrun].
  destruct (is_valid GetUpdateServerURL) eqn:Hurl.
  2: { exists s'. unfold SendPing in Hrun. rewrite Hf, Hurl in Hrun. injection Hrun as <-.
       split_and!; try done. unfold SendPing. by rewrite Hf, Hurl. }
  destruct (SendPing_run s s' Hurl Hrun) as (_ & now & id & age & Hp).
  destruct (p_same _ _ _ _ _ Hp) as (Htimer & Hctx & Hsch & Hstart & Hver & Hlast).
  exists s'. split; [done |]. split; [| split_and!; try done; intros; apply Hp].
  assert (Hclock : timed -> clock s <= now /\ now <= clock s' /\ forward s').
  { intros Ht. apply (p_clock _ _ _ _ _ Hp). by apply (c_forward _ _ _ Hc). }
  destruct (p_next _ _ _ _ _ Hp elapsed backoff_documented (c_tries _ _ _ Hc)) as [Hlow Hhigh].
  pose proof (p_pings _ _ _ _ _ Hp) as Hpings.
  assert (Hcur : current_version s' = current_version s) by (unfold current_version; by rewrite Hver).
  split; try done.
  - intros Ht. by apply Hclock.
  - pose proof (p_tries _ _ _ _ _ Hp (c_tries _ _ _ Hc)). lia.
  - intros Hs. rewrite Hcur, Hlast, <- (p_install _ _ _ _ _ Hp).
    destruct (sending_install_event_ s') eqn:Hi; [done |].
    rewrite (p_stored _ _ _ _ _ Hp), Hi in Hs. rewrite <- Hi, (p_install _ _ _ _ _ Hp).
    by apply (c_retry _ _ _ Hc).
  - rewrite (p_version _ _ _ _ _ Hp). apply (string_of_version laws).
  - unfold next_ok. by rewrite Hpings, last_snoc.
  - intros Ht. specialize (Hclock Ht). lia.
  - intros Ht. specialize (Hle Ht). specialize (Hclock Ht). rewrite Hpings.
    apply spaced_snoc; [by apply Hc |]. intros r Hr.
    eapply next_ok_follows; [apply Hc | | done]. lia.
  - rewrite Hpings. apply ids_kept_snoc; [apply Hc |].
    intros t id' age' id'' [= <- Hk <- <-] Hpend.
    apply (p_id _ _ _ _ _ Hp). by apply (c_pending _ _ _ Hc).
  - intros id'. rewrite Hpings. unfold pending_id. rewrite foldl_snoc. simpl.
    rewrite (p_stored _ _ _ _ _ Hp). unfold ping_content_of.
    destruct (sending_install_event_ s'); [done |]. apply (c_pending _ _ _ Hc).
Qed.

(** The state of a handler that ends with [SendOrScheduleNextPing]. *)
Lemma SendOrScheduleNextPing_good s :
  core timed elapsed s -> waiting s = 0%nat -> has_request_context s = true ->
  exists s', SendOrScheduleNextPing s = Ok s' /\ good timed elapsed s'.
Proof.
  intros Hc Hw Hctx. unfold SendOrScheduleNextPing. set (s1 := tick s).
  assert (Hc1 : core timed elapsed s1).
  { destruct Hc as [Hf ? ? ? ? Hb ? ? ?]. split; try done.
    - intros Ht. by apply tick_forward, Hf.
    - intros Ht. specialize (Hb Ht). destruct (tick_forward s (Hf Ht)) as [_ Hclock].
      unfold s1, tick in *. simpl in *. lia. }
  assert (Hidle : start_posted s1 = false /\ timer_ s1 = None /\ fetcher_ s1 = None).
  { unfold waiting in Hw. change (start_posted s1) with (start_posted s).
    change (timer_ s1) with (timer_ s). change (fetcher_ s1) with (fetcher_ s).
    by destruct (start_posted s), (timer_ s), (fetcher_ s). }
  destruct Hidle as (Hs & Ht & Hf). change (has_request_context s1 = true) in Hctx. clearbody s1.
  destruct (Z.leb_spec (next_tries_time_ s1) (clock s1)) as [Hle | Hgt].
  - destruct (SendPing_core s1 Hc1 Hf (fun _ => Hle)) as (s' & Hrun & Hc' & Ht' & Hctx' & Hsch' & Hs' & Hv & Hi).
    exists s'. split; [done |].
    assert (Hwait : (waiting s' <= 1)%nat /\
                    (is_valid GetUpdateServerURL = true -> waiting s' = 1%nat)).
    { unfold waiting. rewrite Hs', Ht', Hs, Ht. destruct (fetcher_ s'); [split; [simpl; lia | done] |].
      split; [simpl; lia |]. intros Hurl. by destruct (Hv Hurl). }
    split; [done | | | apply Hwait | intros; by apply Hwait]; intros; congruence.
  - eexists. split; [reflexivity |]. destruct (schedule_ s1) eqn:Hsch.
    + split; simpl; unfold waiting; simpl; rewrite ?Hs, ?Hf; simpl; try done; try congruence; try lia.
      by destruct Hc1.
    + split; unfold waiting; rewrite ?Hs, ?Hf, ?Ht; simpl; try done; try congruence; lia.
Qed.

Lemma PersistStates_core s : core timed elapsed s -> core timed elapsed (PersistStates s).
Proof. intros []. split; try done. simpl. apply (string_of_version laws). Qed.

Lemma fresh_good (persist : bool) s :
  core timed elapsed s -> waiting s = 0%nat -> has_request_context s = false ->
  exists s', mret (if persist then PersistStates s else s) = Ok s' /\ good timed elapsed s'.
Proof.
  intros Hc Hw Hctx.
  assert (Hg : core timed elapsed (if persist then PersistStates s else s)).
  { destruct persist; [by apply PersistStates_core | done]. }
  assert (Hidle : timer_ s = None).
  { unfold waiting in Hw. destruct (timer_ s); [lia | done]. }
  eexists. split; [reflexivity |].
  split; destruct persist; try done; unfold waiting in *; simpl; rewrite ?Hw, ?Hctx, ?Hidle;
    try done; lia.
Qed.

(** The constructor, whatever the defaults hold of times and tries. *)
Lemma OmahaService_new_good schedule version date s :
  date <> 0 -> (timed -> forward s) -> (timed -> spaced elapsed (pings s)) -> ids_kept (pings s) ->
  (forall id, pending_id (pings s) = Some id -> kRetryRequestIdKey (defaults s) = Some id) ->
  (is_Some (kRetryRequestIdKey (defaults s)) ->
   Version_less (Version_of (default kDefaultLastSentVersion (kLastSentVersionKey (defaults s))))
     (Version_of version) = true) ->
  exists s', OmahaService_new schedule version date s = Ok s' /\ good timed elapsed s'.
Proof.
  intros Hdate Hfwd Hsp Hids Hpend Hretry. unfold OmahaService_new, Initialize. cbv zeta.
  set (s0 := read_defaults _ _).
  rewrite dcheck_true by (apply negb_true_iff, Z.eqb_neq; done). cbn [mbind chk_bind].
  assert (Hsp' : timed -> spaced elapsed (pings s0))
    by (intros Ht; apply spaced_snoc; [by apply Hsp | by intros [| ? [] |]]).
  assert (Hids' : ids_kept (pings s0)) by (by apply ids_kept_snoc).
  assert (Hpend' : forall id, pending_id (pings s0) = Some id ->
                     kRetryRequestIdKey (defaults s0) = Some id).
  { intros id. unfold s0, pending_id. simpl. rewrite foldl_snoc. apply Hpend. }
  assert (Hlast : last (pings s0) = Some Started) by (unfold s0; simpl; by rewrite last_snoc).
  assert (Htries : 0 <= number_of_tries_ s0) by (apply Z.mod_pos_bound; lia).
  assert (Hretry' : retry_ok s0) by done.
  assert (Hf1 : timed -> forward (tick s0)) by (intros Ht; by apply tick_forward, Hfwd).
  set (s1 := tick s0) in *.
  assert (Hf2 : timed -> forward (tick s1)) by (intros Ht; by apply tick_forward, Hf1).
  assert (Hc2 : timed -> clock s1 <= clock (tick s1)) by (intros Ht; by apply tick_forward, Hf1).
  destruct (Z.gtb_spec (last_sent_time_ s1) (clock s1)) as [Hl | Hl]; cbv beta iota;
    match goal with |- context [?x >? ?y] => destruct (Z.gtb_spec x y) as [Hn | Hn] end;
    cbv beta iota;
    match goal with |- context [if Version_less ?x ?y then _ else _] =>
      destruct (Version_less x y) eqn:Hv end; cbv beta iota zeta; simpl in Hl, Hn.
  all: lazymatch goal with
       | |- context [PersistStates ?x] => apply (fresh_good true x)
       | |- context [mret ?x] => apply (fresh_good false x)
       end; try done.
  all: split; try done; try (unfold next_ok; simpl; by rewrite last_snoc).
  all: unfold greatest_delay, kHoursBetweenRequests, hours, seconds in *; simpl in *; try lia.
  all: intros Ht; specialize (Hc2 Ht); lia.
Qed.

Lemma handle_success_good s :
  core timed elapsed s -> waiting s = 0%nat -> has_request_context s = true ->
  exists s', handle_success s = Ok s' /\ good timed elapsed s'.
Proof.
  intros Hc Hw Hctx. unfold handle_success. cbv zeta.
  apply SendOrScheduleNextPing_good; [| done | done].
  set (s0 := s <| number_of_tries_ := 0 |>).
  assert (Hf1 : timed -> forward (tick s0)) by (intros Ht; by apply tick_forward, (c_forward _ _ _ Hc)).
  set (s1 := tick s0) in *.
  set (s2 := s1 <| next_tries_time_ := _ |> <| current_ping_time_ := _ |> <| pings := _ |>).
  assert (Hf2 : timed -> forward (tick s2)) by (intros Ht; by apply tick_forward, Hf1).
  assert (Hc2 : timed -> clock s2 <= clock (tick s2)) by (intros Ht; by apply tick_forward, Hf1).
  assert (Hn : next_tries_time_ s2 <= clock s2 + hours kHoursBetweenRequests).
  { unfold s2, hours, kHoursBetweenRequests. simpl. destruct (sending_install_event_ s); lia. }
  unfold kHoursBetweenRequests, hours in *.
  split; simpl; try done.
  - by intros [? ?].
  - apply (string_of_version laws).
  - unfold next_ok. simpl. rewrite last_snoc. unfold ping_content_of. simpl.
    by destruct (sending_install_event_ s).
  - intros Ht. specialize (Hc2 Ht). unfold tick in Hc2. simpl in Hn, Hc2.
    unfold greatest_delay, hours. lia.
  - intros Ht. apply spaced_snoc; [by apply Hc |]. intros [| ? [] |]; done.
  - apply ids_kept_snoc; [apply Hc | done].
  - intros id. unfold pending_id. by rewrite foldl_snoc.
Qed.

Lemma OnURLFetchComplete_good code response s :
  good timed elapsed s -> is_Some (fetcher_ s) ->
  (code = 200 -> parse_answer GURL_of_string GetApplicationID (parse_xml response).1 <> Fault) ->
  exists s', OnURLFetchComplete code response s = Ok s' /\ good timed elapsed s'.
Proof.
  intros Hg [f Hf] Hparse. unfold OnURLFetchComplete. rewrite Hf. cbn [deref mbind chk_bind].
  set (s0 := s <| fetcher_ := None |>).
  assert (Hw : waiting s0 = 0%nat).
  { pose proof (g_one _ _ _ Hg) as Hw1. revert Hw1. unfold waiting. rewrite Hf. simpl.
    destruct (start_posted s), (timer_ s); simpl; lia. }
  assert (Hctx : has_request_context s0 = true).
  { destruct (has_request_context s) eqn:Hctx; [done |]. pose proof (g_stopped _ _ _ Hg Hctx) as Hw1.
    revert Hw1. unfold waiting. rewrite Hf. lia. }
  assert (Hc : core timed elapsed s0) by (destruct (g_core _ _ _ Hg); by split).
  clearbody s0. destruct (Z.eqb_spec code 200) as [Hcode |]; cbn [negb];
    [specialize (Hparse Hcode) | by apply SendOrScheduleNextPing_good].
  destruct (parse_xml response) as [tags parsed]. simpl in Hparse.
  destruct (parse_answer _ _ _) as [[details |] |]; [| by apply SendOrScheduleNextPing_good | done].
  cbn [mbind chk_bind]. destruct parsed; [| by apply SendOrScheduleNextPing_good].
  destruct (handle_success_good s0 Hc Hw Hctx) as (s1 & -> & Hg1). cbn [mbind chk_bind].
  eexists. split; [reflexivity |]. destruct details; [| done]. destruct Hg1 as [[]].
  by split.
Qed.

(** ** Histories *)

(** What may happen: time passes, whatever the clock says; [Start] is called
    once in a process; a new process has an installation date and a version that
    is not older. *)
Definition possible (e : event) s : Prop :=
  match e with
  | EWait d _ => 0 <= d
  | EStart _ => has_request_context s = false
  | ERestart version date =>
      date <> 0 /\ Version_less (Version_of version) (current_version s) = false
  | EComplete _ _ | EStartTask | ETimer | EDebug | ETamper _ => True
  end.

(** The clock is not set, and its readings do not go back. *)
Definition steady (e : event) : Prop :=
  match e with
  | EWait _ more => Forall (fun d => 0 <= d) more
  | ETamper _ => False
  | _ => True
  end.

(** The answer that the parser does not survive. *)
Definition breaks (e : event) s : Prop :=
  exists response, e = EComplete 200 response /\ is_Some (fetcher_ s) /\
    parse_answer GURL_of_string GetApplicationID (parse_xml response).1 = Fault.

(** The histories for the times between pings: the clock goes forward, and an
    answer is not the malformed one of [event_then_url_faults]. *)
Definition allowed (e : event) s : Prop :=
  match e with
  | EWait d more => 0 <= d /\ Forall (fun d => 0 <= d) more
  | EStart _ => has_request_context s = false
  | EComplete _ response =>
      parse_answer GURL_of_string GetApplicationID (parse_xml response).1 <> Fault
  | ERestart version date =>
      date <> 0 /\ Version_less (Version_of version) (current_version s) = false
  | EStartTask | ETimer | EDebug => True
  | ETamper _ => False
  end.

Lemma breaks_dec e s : breaks e s \/ ~ breaks e s.
Proof.
  destruct e as [| | | | code response | | |]; try by right; intros (? & ? & _).
  destruct (decide (code = 200)) as [-> |]; [| by right; intros (? & [= ?] & _)].
  destruct (fetcher_ s) as [f |] eqn:Hf; [| by right; intros (? & _ & [f Hf'] & _); congruence].
  destruct (parse_answer GURL_of_string GetApplicationID (parse_xml response).1) eqn:Hp.
  - right. intros (r & [= <-] & _ & Hp'). congruence.
  - left. exists response. by rewrite Hf.
Qed.

Lemma allowed_possible e s : allowed e s -> possible e s /\ steady e /\ ~ breaks e s.
Proof.
  intros Ha. split_and!; [by destruct e; simpl in *; try tauto | by destruct e; simpl in *; try tauto |].
  intros (response & -> & _ & Hp). done.
Qed.

Fixpoint allowed_all (es : list event) s : Prop :=
  match es with
  | [] => True
  | e :: es => allowed e s /\ (forall s', handle e s = Ok s' -> allowed_all es s')
  end.

(** The same, decided by running the history. *)
Definition allowedb (e : event) s : bool :=
  match e with
  | EWait d more => (0 <=? d) && forallb (Z.leb 0) more
  | EStart _ => negb (has_request_context s)
  | EComplete _ response =>
      okb (parse_answer GURL_of_string GetApplicationID (parse_xml response).1)
  | ERestart version date =>
      negb (date =? 0) && negb (Version_less (Version_of version) (current_version s))
  | EStartTask | ETimer | EDebug => true
  | ETamper _ => false
  end.

Fixpoint allowed_allb (es : list event) s : bool :=
  match es with
  | [] => true
  | e :: es => allowedb e s && match handle e s with Ok s' => allowed_allb es s' | Fault => true end
  end.

Lemma allowed_allb_spec es s : allowed_allb es s = true -> allowed_all es s.
Proof.
  revert s. induction es as [| e es IH]; intros s; [done |]. simpl.
  intros [He Hes]%andb_prop. split.
  - destruct e; simpl in *; try done.
    + apply andb_prop in He as [Hd Hm]. split; [lia |]. apply Forall_forall. intros x Hx.
      rewrite forallb_forall in Hm. apply list_elem_of_In, Hm in Hx. lia.
    + by apply negb_true_iff.
    + by destruct (parse_answer _ _ _).
    + apply andb_prop in He as [Hd Hv]. split; [| by apply negb_true_iff].
      by apply negb_true_iff, Z.eqb_neq in Hd.
  - intros s' Hs. rewrite Hs in Hes. by apply IH.
Qed.

Lemma handle_good e s :
  good timed elapsed s -> possible e s -> (timed -> steady e) -> ~ breaks e s ->
  exists s', handle e s = Ok s' /\ good timed elapsed s'.
Proof.
  intros Hg Ha Hsteady Hbreaks. pose proof (g_core _ _ _ Hg) as Hc.
  destruct e as [d more | locale | | | code response | | version date | shift]; simpl in *.
  - eexists. split; [reflexivity |]. destruct Hg as [[? ? ? ? ? Hb] ?]. split; try done.
    split; try done. intros Ht. specialize (Hb Ht). simpl. lia.
  - unfold Start. rewrite Ha. eexists. split; [reflexivity |].
    pose proof (g_stopped _ _ _ Hg Ha) as Hw. destruct Hg as [[] Ht _ _ _].
    assert (Hn : waiting (s <| has_request_context := true |> <| locale_lang_ := locale |>
                            <| start_posted := true |>) = 1%nat).
    { revert Hw. unfold waiting. simpl. destruct (start_posted s), (timer_ s), (fetcher_ s); simpl; lia. }
    split; try done; by rewrite Hn.
  - destruct (start_posted s) eqn:Hs; [| by eexists]. pose proof (g_one _ _ _ Hg) as Hw1.
    revert Hw1. unfold waiting. rewrite Hs. intros Hw1.
    apply SendOrScheduleNextPing_good; [by destruct Hc | |].
    + unfold waiting. simpl. destruct (timer_ s), (fetcher_ s); simpl in *; lia.
    + simpl. destruct (has_request_context s) eqn:Hctx; [done |].
      pose proof (g_stopped _ _ _ Hg Hctx) as Hw2. revert Hw2. unfold waiting. rewrite Hs. lia.
  - unfold run_timer. destruct (timer_ s) as [d |] eqn:Ht; [| by eexists].
    destruct (Z.leb_spec d (clock s)) as [Hle |]; [| by eexists].
    pose proof (fun Hti => g_timer _ _ _ Hg d Hti Ht) as Hd. pose proof (g_one _ _ _ Hg) as Hw1.
    assert (Hi : start_posted s = false /\ fetcher_ s = None).
    { revert Hw1. unfold waiting. rewrite Ht. destruct (start_posted s), (fetcher_ s); simpl; try lia. done. }
    destruct Hi as [Hs Hf].
    assert (Hctx : has_request_context s = true).
    { destruct (has_request_context s) eqn:Hctx; [done |].
      pose proof (g_stopped _ _ _ Hg Hctx) as Hw2. revert Hw2. unfold waiting. rewrite Ht. lia. }
    destruct (SendPing_core (s <| timer_ := None |>)) as
      (s' & Hrun & Hc' & Ht' & Hctx' & Hsch' & Hs' & Hv & _); [by destruct Hc | done | intros Hti; specialize (Hd Hti); simpl; lia |].
    exists s'. split; [done |]. simpl in *.
    assert (Hw : (waiting s' <= 1)%nat /\ (is_valid GetUpdateServerURL = true -> waiting s' = 1%nat)).
    { unfold waiting. rewrite Hs', Ht', Hs. destruct (fetcher_ s'); [split; [simpl; lia | done] |].
      split; [simpl; lia |]. intros Hurl. by destruct (Hv Hurl). }
    split; [done | | | apply Hw | intros; by apply Hw]; intros; congruence.
  - destruct (fetcher_ s) eqn:Hf; [| by eexists]. apply OnURLFetchComplete_good; [done | by rewrite Hf |].
    intros -> Hp. apply Hbreaks. exists response. by rewrite Hf.
  - unfold GetDebugInformationOnIOThread.
    destruct (GetCurrentPingContent_Ok s (c_retry _ _ _ Hc)) as [[[content id] s'] Hrun].
    rewrite Hrun. eexists. split; [reflexivity |].
    apply GetCurrentPingContent_run in Hrun as [Hid (r & c & t & -> & Hclock)].
    set (install := Version_less _ _) in *. set (r1 := keep_id _ _ _) in *.
    assert (Hk : kRetryRequestIdKey (defaults r1) =
                 if install then Some id else kRetryRequestIdKey (defaults s)).
    { unfold r1. by destruct install. }
    assert (Hv : kLastSentVersionKey (defaults r1) = kLastSentVersionKey (defaults s)).
    { unfold r1. by destruct install. }
    assert (Hclock' : timed -> clock r1 <= c /\ Forall (fun d => 0 <= d) t).
    { intros Ht. apply Hclock. unfold r1, forward. destruct install; by apply (c_forward _ _ _ Hc). }
    clear Hclock. rename Hclock' into Hclock.
    assert (Hsame : r1 = s <| sending_install_event_ := install |> <| defaults := defaults r1 |>).
    { unfold r1. by destruct install. }
    clearbody r1. rewrite Hsame in *. clear Hsame. simpl in *.
    assert (Hc' : core timed elapsed (s <| sending_install_event_ := install |> <| defaults := defaults r1 |>
                    <| random := r |> <| clock := c |> <| ticks := t |>)).
    { destruct Hc as [? ? c_retry0 ? ? Hb ? ? c_pending0].
      split; try done; simpl; [intros Ht; by apply Hclock | ..].
      - unfold retry_ok. simpl. rewrite Hk. intros Hs. change (install = true).
        destruct install eqn:Hi; [done |]. rewrite <- Hi. by apply c_retry0.
      - by rewrite Hv.
      - intros Ht. specialize (Hb Ht). specialize (Hclock Ht) as [? _]. lia.
      - intros id' Hp. rewrite Hk. apply c_pending0 in Hp. destruct install; [| done].
        by rewrite (Hid id'). }
    by destruct Hg.
  - destruct Ha as [Hdate Hver]. apply OmahaService_new_good; try done; try apply Hc.
    rewrite (c_version _ _ _ Hc). intros Hs. eapply (less_not_less_trans laws); [by apply (c_retry _ _ _ Hc) | done].
  - eexists. split; [reflexivity |].
    assert (Hw : waiting (tamper shift s) = waiting s).
    { unfold waiting, tamper. simpl. by destruct (timer_ s). }
    destruct Hg as [[] ? ? ? ?]. by split; rewrite ?Hw.
Qed.

Lemma breaks_fault e s : breaks e s -> handle e s = Fault.
Proof.
  intros (response & -> & [f Hf] & Hp). cbn [handle]. rewrite Hf. unfold OnURLFetchComplete.
  rewrite Hf. cbn [deref mbind chk_bind]. rewrite (Z.eqb_refl 200). cbn [negb].
  destruct (parse_xml response) as [tags parsed]. simpl in Hp. by rewrite Hp.
Qed.


Lemma handle_all_good es s :
  good timed elapsed s -> allowed_all es s ->
  exists s', handle_all es s = Ok s' /\ good timed elapsed s'.
Proof.
  revert s. induction es as [| e es IH]; intros s Hg Ha; [by eexists |].
  destruct Ha as [He Hes]. destruct (allowed_possible e s He) as (Hp & Hst & Hb).
  destruct (handle_good e s Hg Hp (fun _ => Hst) Hb) as (s1 & Hrun & Hg1).
  simpl. rewrite Hrun. apply IH; [done | by apply Hes].
Qed.

(** The same histories but for what the clock does and what the answers say. *)
Fixpoint possible_all (es : list event) s : Prop :=
  match es with
  | [] => True
  | e :: es => possible e s /\ (forall s', handle e s = Ok s' -> possible_all es s')
  end.

Lemma handle_all_possible es s s' :
  good timed elapsed s -> possible_all es s -> (timed -> Forall steady es) ->
  handle_all es s = Ok s' -> good timed elapsed s'.
Proof.
  revert s. induction es as [| e es IH]; intros s Hg Hp Hst Hrun; [by injection Hrun as <- |].
  destruct Hp as [He Hes]. cbn [handle_all] in Hrun. apply bind_Ok_inv in Hrun as (s1 & Hrun1 & Hrun).
  destruct (handle_good e s Hg He) as (s2 & Hrun2 & Hg2).
  { intros Ht. specialize (Hst Ht). by inversion Hst. }
  { intros Hb%breaks_fault. congruence. }
  rewrite Hrun1 in Hrun2. injection Hrun2 as <-. apply (IH s1); try done; [by apply Hes |].
  intros Ht. specialize (Hst Ht). by inversion Hst.
Qed.

(** The first process that is looked at: an identifier is stored only when the
    version is newer than the last one announced. *)
Definition first_process (version : string) (date : Z) s : Prop :=
  date <> 0 /\ forward s /\ pings s = [] /\
  (is_Some (kRetryRequestIdKey (defaults s)) ->
   Version_less (Version_of (default kDefaultLastSentVersion (kLastSentVersionKey (defaults s))))
     (Version_of version) = true).

Definition run (version : string) (date : Z) (es : list event) s : chk OmahaService :=
  s ← OmahaService_new true version date s; handle_all es s.

Definition allowed_history (version : string) (date : Z) (es : list event) s : Prop :=
  first_process version date s /\
  (forall s', OmahaService_new true version date s = Ok s' -> allowed_all es s').

(** A first process and what may happen then, whatever the clock does and the
    answers say. *)
Definition possible_history (version : string) (date : Z) (es : list event) s : Prop :=
  first_process version date (s <| ticks := [] |>) /\
  (forall s', OmahaService_new true version date s = Ok s' -> possible_all es s').

(** The clock is never set back. *)
Definition steady_history (es : list event) s : Prop := forward s /\ Forall steady es.

Lemma first_good version date s :
  first_process version date (s <| ticks := [] |>) -> (timed -> forward s) ->
  exists s', OmahaService_new true version date s = Ok s' /\ good timed elapsed s'.
Proof.
  intros (Hd & _ & Hp & Hr) Hf. simpl in *.
  apply OmahaService_new_good; try done; rewrite Hp; try done.
  intros l1 t id age l2 id' Hl. by destruct l1.
Qed.
End histories.

Lemma run_good elapsed version date es s :
  backoff_is_documented elapsed -> version_laws -> allowed_history version date es s ->
  exists s', run version date es s = Ok s' /\ good True elapsed s'.
Proof.
  intros Hdoc Hlaws [(Hd & Hf & Hp & Hr) Ha].
  destruct (first_good True elapsed Hlaws version date s) as (s1 & Hrun & Hg);
    [by repeat split; try constructor | done |].
  unfold run. rewrite Hrun. apply handle_all_good; [done.. | by apply Ha].
Qed.

(** C23. The service keeps going in every history of failures, answers of any
    kind, restarts, new versions, questions for debug information and a clock
    that is set forward or back at any time, as long as [Start] is called once in
    a process and no process is of an older version than the one before.  Exactly
    one answer makes a check fail: one with response code 200 that the parser
    does not survive, an [event] that goes on with a [url].  A service that was
    started always has exactly one of its first task, its timer and a request
    under way; when the timer runs a ping is sent; and it runs within six hours if
    the clock was never set back.  (A clock that is set back while a request is
    under way delays the timer, see [clock_set_back_delays_ping].) *)
Theorem omaha_keeps_going elapsed version date es w :
  backoff_is_documented elapsed -> version_laws -> possible_history version date es w ->
  is_ok (OmahaService_new true version date w) /\
  forall s, run version date es w = Ok s ->
    (forall e, possible e s -> handle e s = Fault <-> breaks e s) /\
    (has_request_context s = true -> schedule_ s = true ->
     is_valid GetUpdateServerURL = true ->
     waiting s = 1%nat /\
     forall d, timer_ s = Some d ->
       (steady_history es w -> d <= clock s + greatest_delay) /\
       (d <= clock s -> exists s' now id age,
          handle ETimer s = Ok s' /\
          pings s' = pings s ++ [Sent now (ping_content_of s') id age])).
Proof.
  intros Hdoc Hlaws [Hfirst Hp]. set (timed := steady_history es w).
  destruct (first_good timed elapsed Hlaws version date w Hfirst) as (s0 & Hnew & Hg0); [by intros [? _] |].
  split; [by eexists |]. intros s Hrun. unfold run in Hrun. rewrite Hnew in Hrun. cbn [mbind chk_bind] in Hrun.
  assert (Hg : good timed elapsed s).
  { apply (handle_all_possible timed elapsed Hdoc Hlaws es s0); [done | by apply Hp | by intros [_ ?] | done]. }
  split.
  - intros e He. split; [| apply breaks_fault]. intros Hf. destruct (breaks_dec e s) as [Hb | Hb]; [done |].
    destruct (handle_good False elapsed Hdoc Hlaws e s) as (s' & Hok & _); [| done.. |]; [| congruence].
    destruct Hg as [[]]. by split.
  - intros Hctx Hsch Hurl. pose proof (g_going _ _ _ Hg Hctx Hsch Hurl) as Hw.
    split; [done |]. intros d Ht. pose proof (g_core _ _ _ Hg) as Hc. split.
    { intros Hsteady. pose proof (g_timer _ _ _ Hg d Hsteady Ht) as ->. by apply Hc. }
    intros Hle. cbn [handle]. unfold run_timer.
    rewrite Ht. destruct (Z.leb_spec d (clock s)) as [_ |]; [| lia].
    destruct (SendPing_Ok (s <| timer_ := None |>)) as [s' Hs].
    { revert Hw. unfold waiting. rewrite Ht. simpl. destruct (fetcher_ s); [lia | done]. }
    { apply (c_retry _ _ _ Hc). }
    destruct (SendPing_run _ _ Hurl Hs) as (_ & now & id & age & Hpinged).
    exists s', now, id, age. split; [done |]. apply (p_pings _ _ _ _ _ Hpinged).
Qed.


(** C26. An installation is announced under one identifier: in every history,
    also across restarts, every ping about it carries the identifier of the
    first until the server acknowledges one. *)
Theorem install_id_is_kept elapsed version date es w :
  backoff_is_documented elapsed -> version_laws -> allowed_history version date es w ->
  exists s, run version date es w = Ok s /\ ids_kept (pings s).
Proof.
  intros Hdoc Hlaws Ha. destruct (run_good elapsed version date es w Hdoc Hlaws Ha) as (s & Hrun & Hg).
  exists s. split; [done | by apply Hg].
Qed.
End service.

(** ** A concrete service *)
Module ConcreteOmaha.
Import ConcreteUrl ConcreteAnswer.

(** The delay doubles up to the maximum; no jitter. *)
#[export] Instance backoff : BackoffApi := {|
  BackoffEntry := BackoffPolicy * nat;
  BackoffEntry_new policy _ := (policy, O);
  InformOfRequest succeeded entry := if succeeded then (entry.1, O) else (entry.1, S entry.2);
  GetTimeUntilRelease entry :=
    match entry.2 with
    | O => 0%Z
    | S n => Z.min (initial_delay_ms entry.1 * 2 ^ Z.of_nat n)%Z (maximum_backoff_ms entry.1) * 1000
    end;
|}.

#[export] Instance base : OmahaBaseApi := {|
  Version := string;
  Version_of s := s;
  Version_less := String.ltb;
  Version_equal := String.eqb;
  Version_GetString v := v;
  FromTimeT t := seconds t;
  ToTimeT t := InSeconds t;
  is_null t := t =? 0;
  CFAbsoluteTime := Z;
  cf_zero := 0;
  FromCFAbsoluteTime t := t;
  ToCFAbsoluteTime t := t;
  print_int n := pretty n;
|}.

Definition event_answer : list element := [response_tag; app_tag; tag "event" [("status", "ok")]].
Definition ping_answer : list element :=
  [response_tag; app_tag; tag "updatecheck" [("status", "noupdate")]; tag "ping" [("status", "ok")]].

#[export] Instance environment : OmahaEnvironment := {|
  GetUpdateServerURL := mk_url "https" "update.example" "" None;
  GetApplicationID := "id";
  GetBrandCode := "BRAND";
  ExtraAttributes tag := if String.eqb tag "app" then [("ap", "stable")] else [];
  GetPlatform := "iPhone";
  OperatingSystemVersion := "10.0";
  kCurrentArch := "arm64";
  GetChannelString := "stable";
  GetRandomId n := pretty n;
  parse_xml text :=
    (if String.eqb text "event" then event_answer
     else if String.eqb text "ping" then ping_answer else [], true);
  GURL_of_string := url_of;
|}.

Lemma inform_failures_concrete policy seed n :
  inform_failures n (BackoffEntry_new policy seed) = (policy, n).
Proof.
  induction n as [| n IH]; [done |].
  change (inform_failures (S n) ?e) with (InformOfRequest false (inform_failures n e)). by rewrite IH.
Qed.

Lemma backoff_documented : backoff_is_documented 0.
Proof.
  intros policy seed [| n] Hi Hm Hj Hinit Hmax Hn; [lia |]. cbv zeta.
  rewrite inform_failures_concrete. simpl. split; [| lia].
  set (i := initial_delay_ms policy) in *.
  assert (Hlow : i <= Z.min (i * 2 ^ Z.of_nat n) (maximum_backoff_ms policy)).
  { apply Z.min_glb; [| done]. pose proof (Z.pow_pos_nonneg 2 (Z.of_nat n)). nia. }
  apply (Qle_trans _ (inject_Z (i * 1000) * 1)).
  - rewrite (Qmult_comm _ (1 - _)), (Qmult_comm _ 1). apply Qmult_le_compat_r.
    + unfold Qle, Qminus, Qplus, Qopp in *. simpl in *. lia.
    + unfold Qle, inject_Z. simpl. lia.
  - rewrite Qmult_1_r. rewrite <- Zle_Qle. lia.
Qed.

Lemma versions : version_laws.
Proof.
  split; simpl.
  - intros v. destruct (String.ltb v v) eqn:E; [| done].
    apply string_ltb_lt in E. by apply string_lt_irrefl in E.
  - intros a b c Hab Hcb. apply string_ltb_lt in Hab. apply string_ltb_lt.
    destruct (string_lt_total b c) as [Hbc | [-> | Hcb']]; [by eapply string_lt_trans | done |].
    apply string_ltb_lt in Hcb'. congruence.
  - done.
Qed.

Definition no_defaults : UserDefaults :=
  {| kNextTriesTimesKey := None; kCurrentPingKey := None; kNumberTriesKey := None;
     kLastSentVersionKey := None; kLastSentTimeKey := None; kRetryRequestIdKey := None |}.

(** Before the first process; the clock starts in 2017. *)
Definition nothing : OmahaService :=
  {| fetcher_ := None; has_request_context := false; timer_ := None; schedule_ := true;
     application_install_date_ := 0; last_sent_time_ := 0; next_tries_time_ := 0;
     current_ping_time_ := 0; last_sent_version_ := ("" : Version); locale_lang_ := "";
     number_of_tries_ := 0; sending_install_event_ := false; version_number := "";
     start_posted := false; defaults := no_defaults; clock := seconds 13140000000; ticks := [];
     random := 0; pings := []; recommended := [] |}.

Definition minutes (n : Z) : event := EWait (n * 60 * 1000000) [].

(** An installation is announced, fails, is announced again and acknowledged;
    a ping follows at once, is acknowledged, and the next comes later. *)
Definition first_day : list event :=
  [EStart "en"; EStartTask; EComplete 503 ""; minutes 60; ETimer; EComplete 200 "event";
   EComplete 200 "ping"; EDebug; minutes 300; ETimer].

Definition result := from_ok nothing (run "59.0" 1500000000 first_day nothing).

Example first_day_pings :
  (fun r => match r with
            | Sent t c id age => (t - clock nothing, Some c, id)
            | Acknowledged t c => (t - clock nothing, Some c, "acknowledged")
            | Started => (0, None, "")
            end) <$> pings result =
  [(0, None, ""); (0, Some INSTALL_EVENT, "0"); (hours 1, Some INSTALL_EVENT, "0");
   (hours 1, Some INSTALL_EVENT, "acknowledged"); (hours 1, Some USAGE_PING, "5");
   (hours 1, Some USAGE_PING, "acknowledged"); (hours 6, Some USAGE_PING, "10")].
Proof. vm_compute. reflexivity. Qed.

Lemma first_day_allowed : allowed_history "59.0" 1500000000 first_day nothing.
Proof.
  split; [split_and!; [done | by constructor | done | by intros [? ?]] |].
  intros s Hs. rewrite (okb_run nothing) in Hs; [| vm_cast_no_check (@eq_refl bool true)].
  apply (f_equal (from_ok nothing)) in Hs. cbn [from_ok] in Hs. rewrite <- Hs.
  apply allowed_allb_spec. vm_cast_no_check (@eq_refl bool true).
Qed.

Fixpoint possible_allb (es : list event) (s : OmahaService) : bool :=
  match es with
  | [] => true
  | e :: es => (allowedb e s || match e with ETamper _ | EComplete _ _ => true | _ => false end) &&
               match handle e s with Ok s' => possible_allb es s' | Fault => true end
  end.

Lemma possible_allb_spec es s : possible_allb es s = true -> possible_all es s.
Proof.
  revert s. induction es as [| e es IH]; intros s; [done |]. cbn [possible_allb possible_all].
  intros [He Hes]%andb_prop. split; [| intros s' Hs; rewrite Hs in Hes; by apply IH].
  apply orb_prop in He as [He | He]; [| by destruct e].
  apply allowed_possible, (allowed_allb_spec [e]). simpl. rewrite He. by destruct (handle e s).
Qed.

(** The day again, and the user sets the clock back by a month while the last
    request is under way. *)
Definition tampered_day : list event := first_day ++ [ETamper (- hours 720); EComplete 503 ""].

Lemma tampered_day_possible : possible_history "59.0" 1500000000 tampered_day nothing.
Proof.
  split; [split_and!; [done | by constructor | done | by intros [? ?]] |].
  intros s Hs. rewrite (okb_run nothing) in Hs; [| vm_cast_no_check (@eq_refl bool true)].
  apply (f_equal (from_ok nothing)) in Hs. cbn [from_ok] in Hs. rewrite <- Hs.
  apply possible_allb_spec. vm_cast_no_check (@eq_refl bool true).
Qed.

(** The service is still going, but its timer runs in a month: only a new
    process looks whether the clock was tampered with. *)
Example clock_set_back_delays_ping :
  (fun s => (waiting s, (fun d => d - clock s) <$> timer_ s)) <$>
    [from_ok nothing (run "59.0" 1500000000 tampered_day nothing)]
  = [(1%nat, Some (hours 721))].
Proof. vm_compute. reflexivity. Qed.

Lemma omaha_keeps_going_witness :
  is_ok (OmahaService_new true "59.0" 1500000000 nothing) /\
  forall s, run "59.0" 1500000000 tampered_day nothing = Ok s ->
    (forall e, possible e s -> handle e s = Fault <-> breaks e s) /\
    (has_request_context s = true -> schedule_ s = true ->
     is_valid GetUpdateServerURL = true ->
     waiting s = 1%nat /\
     forall d, timer_ s = Some d ->
       (steady_history tampered_day nothing -> d <= clock s + greatest_delay) /\
       (d <= clock s -> exists s' now id age,
          handle ETimer s = Ok s' /\
          pings s' = pings s ++ [Sent now (ping_content_of s') id age])).
Proof.
  exact (omaha_keeps_going 0 "59.0" 1500000000 tampered_day nothing backoff_documented versions
           tampered_day_possible).
Defined.


Lemma install_id_is_kept_witness :
  exists s, run "59.0" 1500000000 first_day nothing = Ok s /\ ids_kept (pings s).
Proof.
  exact (install_id_is_kept 0 "59.0" 1500000000 first_day nothing backoff_documented versions
           first_day_allowed).
Defined.

(** The age of the second announcement is counted from the null time: the time
    of the current ping is set only by a success. *)
Example first_retry_age :
  last (pings (from_ok nothing (run "59.0" 1500000000
    [EStart "en"; EStartTask; EComplete 503 ""; minutes 60; ETimer] nothing)))
  = Some (Sent (seconds 13140003600) INSTALL_EVENT "0" (Some "13140003600")).
Proof. vm_compute. reflexivity. Qed.

(** A failed try is repeated at once by a new process when its delay is longer
    than five hours: the delay is taken for a sign of a clock that was tampered
    with. *)
Definition four_failures : list event :=
  first_day ++ [EComplete 503 ""; minutes 60; ETimer; EComplete 503 ""; minutes 120; ETimer;
                EComplete 503 ""; minutes 240; ETimer; EComplete 503 "";
                minutes 1; ERestart "59.0" 1500000000; EStart "en"; EStartTask].

Example restart_skips_backoff :
  drop 9 ((fun r => match r with
                     | Sent t c _ _ => (t - clock nothing, Some c)
                     | Acknowledged t c => (t - clock nothing, Some c)
                     | Started => (0, None)
                     end) <$>
           pings (from_ok nothing (run "59.0" 1500000000 four_failures nothing)))
  = [(hours 13, Some USAGE_PING); (0, None); (hours 13 + seconds 60, Some USAGE_PING)].
Proof. vm_compute. reflexivity. Qed.
End ConcreteOmaha.
