(* ===== verification/ContextualSearchDelegate.v ===== *)
(** * Requests of contextual search

    [chrome/browser/ui/contextual_search/contextual_search_delegate.cc] and
    [contextual_search_context.cc]: the text the user tapped is sent to a
    server that says what to search for, at most once a second.

    Parameters: the URL functions of [net] and the search engines, JSON and
    base::Value, protocol buffers, base64.  A time is a number of
    microseconds and each event says when it happens; [delayed] are the
    delayed tasks that wait, with the time they are due; [started] are the
    requests that were started and [results] what the callback was run with. *)
From Stdlib Require Import Ascii.
From S2P Require Import Prelude Text External Values.

(** ** Code outside the repository *)

(** [protos/client_discourse_context.proto] *)
Record Display := {
  display_uri : string;
  media_mime_type : string;
  selection_content : string;
  selection_start : Z;
  selection_end : Z;
}.

Class ContextualSearchApi `{GurlApi} `{ValuesApi} := {
  spec : GURL -> string;
  GURL_of_string : string -> GURL;
(** The URL for a request of the default search provider with the given
    versions; [None] without service or without provider. *)
contextual_search_url : Z -> Z -> option string;
(** The value of the switch "contextual-search-resolver-url", when it is given,
    and the parameter "resolver_url" of the field trial. *)
resolver_switch : option string;
resolver_param : string;
(** The headers of the experiments. *)
VariationHeaders : GURL -> string;
EscapeQueryParamValue : string -> string;
SerializeToString : list Display -> string;
Base64Encode : string -> string;
(** [JSONStringValueDeserializer] *)
Deserialize : string -> option Value;
GetDefaultSearchURLForSearchTerms : string -> GURL;
IsGoogleSearchUrl : GURL -> bool;
AppendQueryParameter : GURL -> string -> string -> GURL;
}.

(** ** Constants *)
Definition kContextualSearchPreventPreload : string := "prevent_preload".
Definition kContextualSearchResponseDisplayTextParam : string := "display_text".
Definition kContextualSearchResponseMentionsParam : string := "mentions".
Definition kContextualSearchResponseResolvedTermParam : string := "resolved_term".
Definition kContextualSearchResponseSelectedTextParam : string := "selected_text".
Definition kContextualSearchResponseSearchTermParam : string := "search_term".
Definition kContextualSearchRequestVersion : Z := 2.
Definition kContextualSearchServerEndpoint : string := "_/contextualsearch?".
Definition kDiscourseContextHeaderPrefix : string := "X-Additional-Discourse-Context: ".
Definition kDoPreventPreloadValue : string := "1".
(** [)]}'] and a line feed *)
Definition kXssiEscape : text := text_of ")]}'" ++ ["010"%char].
Definition kContextualCardsNoIntegration : Z := 0.
(** One second. *)
Definition kMinimumDelayBetweenRequest : Z := 1 * 1000000.
(** [net::URLFetcher::RESPONSE_CODE_INVALID] *)
Definition RESPONSE_CODE_INVALID : Z := -1.

Section delegate.
Context `{ContextualSearchApi}.

(** ** Data *)
Record ContextualSearchContext := {
  selected_text : string;
  use_resolved_search_term : bool;
  page_url : GURL;
  encoding : string;
  surrounding_text : string;
  start_offset : Z;
  end_offset : Z;
}.

Definition ContextualSearchContext_new (selected_text : string) (use_resolved : bool)
    (page_url : GURL) (encoding : string) : ContextualSearchContext :=
  {| selected_text := selected_text; use_resolved_search_term := use_resolved;
     page_url := page_url; encoding := encoding; surrounding_text := "";
     start_offset := -1; end_offset := -1 |}.

Definition HasSurroundingText (c : ContextualSearchContext) : bool :=
  negb (start_offset c =? -1) && negb (end_offset c =? -1) &&
  negb (String.eqb (surrounding_text c) "").

Record SearchResolution := {
  is_invalid : bool;
  response_code : Z;
  search_term : string;
  display_text : string;
  alternate_term : string;
  prevent_preload : bool;
  result_start : Z;
  result_end : Z;
}.

Record URLFetcher := { original_url : GURL; extra_headers : list string; completed : bool }.

Record Delegate := {
  search_term_fetcher_ : option URLFetcher;
  context_ : option ContextualSearchContext;
  last_request_startup_time_ : Z;
  request_pending_ : bool;
  delayed : list Z;
  started : list (Z * ContextualSearchContext);
  results : list SearchResolution;
}.

#[export] Instance delegate_fields : Fields Delegate := fun d =>
  {| search_term_fetcher_ := search_term_fetcher_ d; context_ := context_ d;
     last_request_startup_time_ := last_request_startup_time_ d;
     request_pending_ := request_pending_ d; delayed := delayed d; started := started d;
     results := results d |}.

Implicit Types (d : Delegate) (c : ContextualSearchContext).

(** [request_pending_] is not initialized: it holds what the memory held. *)
Definition Delegate_new (memory : bool) : Delegate :=
  {| search_term_fetcher_ := None; context_ := None; last_request_startup_time_ := 0;
     request_pending_ := memory; delayed := []; started := []; results := [] |}.

(** ** The answer of the server *)

(** The out parameters of [DecodeSearchTermsFromJsonResponse]. *)
Record SearchTerms := {
  t_search_term : string;
  t_display_text : string;
  t_alternate_term : string;
  t_prevent_preload : string;
  t_start_offset : Z;
  t_end_offset : Z;
}.

Definition without_escape (response : text) : text :=
  match find response kXssiEscape 0 with
  | Some O => drop (length kXssiEscape) response
  | _ => response
  end.

(** [list->GetInteger(i, &out)] *)
Definition IntegerAt (l : ListValue) (i : nat) : option Z := list_elements l !! i ≫= as_int.

Definition decode_mentions (dict : DictionaryValue) (t : SearchTerms) : chk (Z * Z) :=
  match GetList dict kContextualSearchResponseMentionsParam with
  | Some mentionsList =>
      _ ← dcheck (GetSize mentionsList =? 2)%nat;
      mret (or_keep (IntegerAt mentionsList 0) (t_start_offset t),
            or_keep (IntegerAt mentionsList 1) (t_end_offset t))
  | None => mret (t_start_offset t, t_end_offset t)
  end.

Definition DecodeSearchTermsFromJsonResponse (response : string) (t : SearchTerms)
    : chk SearchTerms :=
  let proper_json := String.string_of_list_ascii (without_escape (text_of response)) in
  match Deserialize proper_json ≫= as_dictionary with
  | Some dict =>
      let prevent_preload :=
        or_keep (GetString dict kContextualSearchPreventPreload) (t_prevent_preload t) in
      let search_term :=
        or_keep (GetString dict kContextualSearchResponseSearchTermParam) (t_search_term t) in
      let display_text :=
        or_keep (GetString dict kContextualSearchResponseDisplayTextParam) search_term in
      let selected_text :=
        or_keep (GetString dict kContextualSearchResponseSelectedTextParam) "" in
      '(start_offset, end_offset) ← decode_mentions dict t;
      let alternate_term :=
        if negb (String.eqb selected_text search_term) then selected_text
        else
          let resolved_term :=
            or_keep (GetString dict kContextualSearchResponseResolvedTermParam) "" in
          if negb (String.eqb resolved_term search_term) then resolved_term
          else t_alternate_term t in
      mret {| t_search_term := search_term; t_display_text := display_text;
              t_alternate_term := alternate_term; t_prevent_preload := prevent_preload;
              t_start_offset := start_offset; t_end_offset := end_offset |}
  | None => mret t
  end.

(** ** Requests *)
Definition RequestLocalSearchTerm c d : Delegate :=
  d <| results := results d ++
         [{| is_invalid := false; response_code := 200; search_term := selected_text c;
             display_text := selected_text c; alternate_term := selected_text c;
             prevent_preload := false; result_start := -1; result_end := -1 |}] |>.

(** The replacement URL goes up to the end of the endpoint. *)
Definition substitute_resolver (replacement_url request : text) : text :=
  let endpoint := text_of kContextualSearchServerEndpoint in
  match replacement_url with
  | [] => request
  | _ =>
      match find request endpoint 0 with
      | Some pos => replace request 0 (pos + length endpoint) replacement_url
      | None => request
      end
  end.

Definition replacement_url : string :=
  match resolver_switch with Some url => url | None => resolver_param end.

Definition GetSearchTermResolutionUrlString (request : string) : string :=
  String.string_of_list_ascii (substitute_resolver (text_of replacement_url) (text_of request)).

Definition BuildRequestUrl : GURL :=
  match contextual_search_url kContextualSearchRequestVersion kContextualCardsNoIntegration with
  | None => GURL_empty
  | Some request => GURL_of_string (GetSearchTermResolutionUrlString request)
  end.

(** [std::replace] on the encoding that the server expects to be web-safe. *)
Definition web_safe_char (a : ascii) : ascii :=
  if Ascii.eqb a "+" then "-" else if Ascii.eqb a "/" then "_" else a.

Definition web_safe (s : string) : string :=
  String.string_of_list_ascii (web_safe_char <$> text_of s).

Definition discourse_header c : string :=
  let display :=
    {| display_uri := spec (page_url c); media_mime_type := encoding c;
       selection_content := EscapeQueryParamValue (surrounding_text c);
       selection_start := start_offset c; selection_end := end_offset c |} in
  String.append kDiscourseContextHeaderPrefix
    (web_safe (Base64Encode (SerializeToString [display]))).

Definition SetDiscourseContextAndAddToHeader c (f : URLFetcher) : URLFetcher :=
  {| original_url := original_url f; extra_headers := extra_headers f ++ [discourse_header c];
     completed := completed f |}.

Definition RequestServerSearchTerm c d : chk Delegate :=
  let request_url := BuildRequestUrl in
  _ ← dcheck (is_valid request_url);
  let fetcher :=
    {| original_url := request_url; extra_headers := [VariationHeaders request_url];
       completed := false |} in
  mret (d <| search_term_fetcher_ := Some (SetDiscourseContextAndAddToHeader c fetcher) |>).

Definition StartPendingSearchTermRequest (now : Z) d : chk Delegate :=
  match context_ d with
  | Some c =>
      if request_pending_ d then
        let d := d <| request_pending_ := false |> <| last_request_startup_time_ := now |>
                   <| started := started d ++ [(now, c)] |> in
        if HasSurroundingText c then RequestServerSearchTerm c d
        else mret (RequestLocalSearchTerm c d)
      else mret d
  | None => mret d
  end.

(** [now] is when the delay is computed, [later] when a request that need not
    wait is started. *)
Definition PostSearchTermRequest c (now later : Z) d : chk Delegate :=
  let d := d <| context_ := Some c |> in
  if request_pending_ d then mret d else
  let d := d <| request_pending_ := true |> in
  let interval := kMinimumDelayBetweenRequest in
  if now >? last_request_startup_time_ d + interval then StartPendingSearchTermRequest later d
  else
    let delay := last_request_startup_time_ d + interval - now in
    mret (d <| delayed := delayed d ++ [now + delay] |>).

Definition CancelSearchTermRequest d : Delegate :=
  d <| search_term_fetcher_ := None |> <| context_ := None |>.

(** [memory] is what the offsets of the resolution, which are not initialized,
    held. *)
Definition OnURLFetchComplete (is_success : bool) (code : Z) (response : option string)
    (memory : Z * Z) d : chk Delegate :=
  _ ← deref (search_term_fetcher_ d);
  let blank := {| t_search_term := ""; t_display_text := ""; t_alternate_term := "";
                  t_prevent_preload := ""; t_start_offset := memory.1;
                  t_end_offset := memory.2 |} in
  t ← (if is_success && (code =? 200) then
         response ← deref response;
         DecodeSearchTermsFromJsonResponse response
           {| t_search_term := ""; t_display_text := ""; t_alternate_term := "";
              t_prevent_preload := ""; t_start_offset := -1; t_end_offset := -1 |}
       else mret blank);
  mret (d <| results := results d ++
               [{| is_invalid := code =? RESPONSE_CODE_INVALID; response_code := code;
                   search_term := t_search_term t; display_text := t_display_text t;
                   alternate_term := t_alternate_term t;
                   prevent_preload := String.eqb (t_prevent_preload t) kDoPreventPreloadValue;
                   result_start := t_start_offset t; result_end := t_end_offset t |}] |>).

Definition GetURLForResolvedSearch (resolution : SearchResolution) (should_prefetch : bool) : GURL :=
  if String.eqb (search_term resolution) "" then GURL_empty
  else
    let url := GetDefaultSearchURLForSearchTerms (search_term resolution) in
    if IsGoogleSearchUrl url then
      let url := AppendQueryParameter url "ctxs" "2" in
      let url := if should_prefetch then AppendQueryParameter url "pf" "c" else url in
      if String.eqb (alternate_term resolution) "" then url
      else AppendQueryParameter url "ctxsl_alternate_term" (alternate_term resolution)
    else url.

(** ** Events *)

(** A delayed task that is due, and a request under way that ends once. *)
Definition run_delayed (k : nat) (now : Z) d : chk Delegate :=
  match delayed d !! k with
  | Some due =>
      if due <=? now then
        StartPendingSearchTermRequest now (d <| delayed := delete k (delayed d) |>)
      else mret d
  | None => mret d
  end.

Definition complete (is_success : bool) (code : Z) (response : option string) (memory : Z * Z) d
    : chk Delegate :=
  match search_term_fetcher_ d with
  | Some f =>
      if completed f then mret d
      else
        OnURLFetchComplete is_success code response memory
          (d <| search_term_fetcher_ :=
                  Some {| original_url := original_url f; extra_headers := extra_headers f;
                          completed := true |} |>)
  | None => mret d
  end.

Inductive event :=
| EPost c (now later : Z)
| EDelayed (k : nat) (now : Z)
| EStart (now : Z)
| ECancel
| EComplete (is_success : bool) (code : Z) (response : option string) (memory : Z * Z).

Definition handle (e : event) d : chk Delegate :=
  match e with
  | EPost c now later => PostSearchTermRequest c now later d
  | EDelayed k now => run_delayed k now d
  | EStart now => StartPendingSearchTermRequest now d
  | ECancel => mret (CancelSearchTermRequest d)
  | EComplete is_success code response memory => complete is_success code response memory d
  end.

Fixpoint handle_all (es : list event) d : chk Delegate :=
  match es with
  | [] => mret d
  | e :: es => d ← handle e d; handle_all es d
  end.

(** ** The pace of the requests *)

Lemma StartPending_run now d d' :
  StartPendingSearchTermRequest now d = Ok d' ->
  context_ d' = context_ d /\ delayed d' = delayed d /\
  ((d' = d /\ (request_pending_ d = false \/ context_ d = None)) \/
   exists c, context_ d = Some c /\ request_pending_ d = true /\ request_pending_ d' = false /\
     last_request_startup_time_ d' = now /\ started d' = started d ++ [(now, c)]).
Proof.
  unfold StartPendingSearchTermRequest. destruct (context_ d) as [c |] eqn:Hc.
  2: { intros [= <-]. by repeat split; eauto. }
  destruct (request_pending_ d) eqn:Hp; [| intros [= <-]; by repeat split; eauto].
  intros Hrun. destruct (HasSurroundingText c); [unfold RequestServerSearchTerm in Hrun |];
    run_inv Hrun; simpl; split_and!; try done; right; by exists c.
Qed.

Lemma StartPending_Ok c now d :
  is_valid BuildRequestUrl = true -> context_ d = Some c -> request_pending_ d = true ->
  is_ok (StartPendingSearchTermRequest now d).
Proof.
  intros Hurl Hc Hp. unfold StartPendingSearchTermRequest, RequestServerSearchTerm.
  rewrite Hc, Hp, Hurl. destruct (HasSurroundingText c); by eexists.
Qed.

(** At most one task waits, for the second after the last request. *)
Record paced d : Prop := {
  p_idle : request_pending_ d = false -> delayed d = [];
  p_due : delayed d = [] \/ delayed d = [last_request_startup_time_ d + kMinimumDelayBetweenRequest];
  p_last t c : last (started d) = Some (t, c) -> last_request_startup_time_ d = t;
}.

(** A request is never started directly, and time goes forward in a post. *)
Definition posted (e : event) : Prop :=
  match e with EStart _ => False | EPost _ now later => now <= later | _ => True end.

(** The text the user has chosen last, unless the choice was cancelled. *)
Definition choose (latest : option ContextualSearchContext) (e : event) :=
  match e with EPost c _ _ => Some c | ECancel => None | _ => latest end.

Definition latest (es : list event) : option ContextualSearchContext := foldl choose None es.

Lemma Start_paced now d d' :
  last_request_startup_time_ d + kMinimumDelayBetweenRequest <= now ->
  delayed d = [] -> (forall t c, last (started d) = Some (t, c) -> last_request_startup_time_ d = t) ->
  StartPendingSearchTermRequest now d = Ok d' ->
  paced d' /\ context_ d' = context_ d /\
  (started d' = started d \/
   exists t c, started d' = started d ++ [(t, c)] /\ context_ d = Some c /\
     forall t0 c0, last (started d) = Some (t0, c0) -> t0 + kMinimumDelayBetweenRequest <= t).
Proof.
  intros Hnow Hdel Hlast Hrun. apply StartPending_run in Hrun as (Hc & Hd & Hrun).
  destruct Hrun as [[-> _] | (c & Hctx & Hp & Hp' & Hl & Hs)].
  - split; [| by auto]. split; auto.
  - split; [| split; [done |]].
    + split; [by rewrite Hd | left; by rewrite Hd |]. intros t c'. rewrite Hs, last_snoc, Hl.
      by intros [= -> _].
    + right. exists now, c. split_and!; try done. intros t0 c0 Ht. apply Hlast in Ht. lia.
Qed.

Lemma handle_paced e d d' :
  paced d -> posted e -> handle e d = Ok d' ->
  paced d' /\ context_ d' = choose (context_ d) e /\
  (started d' = started d \/
   exists t c, started d' = started d ++ [(t, c)] /\ choose (context_ d) e = Some c /\
     forall t0 c0, last (started d) = Some (t0, c0) -> t0 + kMinimumDelayBetweenRequest <= t).
Proof.
  intros [Hidle Hdue Hlast] Hposted Hrun.
  destruct e as [c now later | k now | now | | ok code response memory]; simpl in *.
  - unfold PostSearchTermRequest in Hrun. simpl in Hrun.
    destruct (request_pending_ d) eqn:Hp.
    { injection Hrun as <-. split; [split; simpl; try done; congruence | by auto]. }
    simpl in Hrun. destruct (Z.gtb_spec now (last_request_startup_time_ d + kMinimumDelayBetweenRequest)).
    + eapply Start_paced in Hrun; simpl; try done; [lia | by apply Hidle].
    + injection Hrun as <-. split; [| by auto]. split; simpl; try done.
      right. rewrite (Hidle eq_refl). simpl. f_equal. lia.
  - unfold run_delayed in Hrun. destruct (delayed d !! k) as [due |] eqn:Hk.
    2: { injection Hrun as <-. split; [by split | by auto]. }
    destruct Hdue as [Hd | Hd]; rewrite Hd in Hk; [done |]. destruct k as [| k]; [| done].
    simpl in Hk. injection Hk as <-. rewrite Hd in Hrun. simpl in Hrun.
    destruct (Z.leb_spec (last_request_startup_time_ d + kMinimumDelayBetweenRequest) now).
    + eapply Start_paced in Hrun; simpl; done.
    + injection Hrun as <-. split; [split; auto | by auto].
  - done.
  - injection Hrun as <-. split; [by split | by auto].
  - assert (Heq : d' = d \/ exists f r, d' = d <| search_term_fetcher_ := f |> <| results := r |>).
    { unfold complete in Hrun. destruct (search_term_fetcher_ d) as [f |]; [| injection Hrun as <-; by left].
      destruct (completed f); [injection Hrun as <-; by left |].
      unfold OnURLFetchComplete in Hrun. run_inv Hrun. right. eexists _, _. reflexivity. }
    destruct Heq as [-> | (f & r & ->)]; (split; [by split | by auto]).
Qed.

(** C34. Requests of contextual search that are posted do not follow each other
    too fast: in every history without a direct start, an event starts at most
    one request, at least a second after the one before, and it is about the
    text chosen last, however many were chosen while it waited. *)
Theorem requests_are_spaced es e d d' :
  Forall posted (es ++ [e]) ->
  handle_all es (Delegate_new false) = Ok d -> handle e d = Ok d' ->
  started d' = started d \/
  exists t c, started d' = started d ++ [(t, c)] /\ latest (es ++ [e]) = Some c /\
    forall t0 c0, last (started d) = Some (t0, c0) -> t0 + kMinimumDelayBetweenRequest <= t.
Proof.
  intros [Hes He]%Forall_app Hrun Hrun'. rewrite Forall_singleton in He.
  assert (Hinv : forall d0 o, paced d0 -> context_ d0 = o -> handle_all es d0 = Ok d ->
            paced d /\ context_ d = foldl choose o es).
  { clear Hrun. revert Hes. clear. induction es as [| e es IH]; intros Hes d0 o Hp Hc Hrun.
    - injection Hrun as <-. done.
    - inversion_clear Hes as [| ? ? He Hes']. simpl in Hrun.
      apply bind_Ok_inv in Hrun as (d1 & Hrun1 & Hrun).
      destruct (handle_paced e d0 d1 Hp He Hrun1) as (Hp1 & Hc1 & _).
      apply (IH Hes' d1); [done | by rewrite Hc1, Hc | done]. }
  destruct (Hinv (Delegate_new false) None) as [Hp Hc]; [by split; try left | done | done |].
  destruct (handle_paced e d d' Hp He Hrun') as (_ & _ & Hs).
  unfold latest. rewrite foldl_snoc, <- Hc. exact Hs.
Qed.

(** A text chosen too early waits for its second: whatever is chosen in the
    meantime, one task waits, and when it is due it starts a request for the
    text chosen last. *)
Lemma latest_post_is_served (c0 : ContextualSearchContext) (now0 later0 : Z)
    (posts : list (ContextualSearchContext * Z * Z)) d :
  is_valid BuildRequestUrl = true -> request_pending_ d = false -> delayed d = [] ->
  let due := last_request_startup_time_ d + kMinimumDelayBetweenRequest in
  now0 <= due ->
  exists d', handle_all (EPost c0 now0 later0 :: ((fun '(c, now, later) => EPost c now later) <$> posts)) d
             = Ok d' /\
    started d' = started d /\ delayed d' = [due] /\
    forall t, due <= t -> exists d'', handle (EDelayed 0 t) d' = Ok d'' /\
      started d'' = started d ++ [(t, (default (c0, now0, later0) (last posts)).1.1)].
Proof.
  intros Hurl Hidle Hdel due Hnow. cbn [handle_all handle]. unfold PostSearchTermRequest at 1.
  cbv zeta. change (request_pending_ (d <| context_ := Some c0 |>)) with (request_pending_ d).
  rewrite Hidle. cbv zeta.
  change (last_request_startup_time_ _ + _) with due.
  destruct (Z.gtb_spec now0 due); [lia |]. cbn [mbind chk_bind mret chk_ret].
  replace (now0 + (due - now0)) with due by lia.
  set (d1 := _ <| delayed := _ |>).
  assert (Hposts : forall d1, request_pending_ d1 = true ->
    handle_all ((fun '(c, now, later) => EPost c now later) <$> posts) d1 =
    Ok (match last posts with Some (c, _, _) => d1 <| context_ := Some c |> | None => d1 end)).
  { clear. induction posts as [| [[c now] later] posts IH]; intros d1 Hp; [done |].
    simpl. unfold PostSearchTermRequest. simpl. rewrite Hp. simpl. rewrite IH by done.
    destruct posts as [| p posts]; [done |]. rewrite last_cons_cons.
    destruct (last (p :: posts)) as [[[c' ?] ?] |] eqn:Hl; [done |].
    by apply last_None in Hl. }
  rewrite Hposts by done. eexists. split; [reflexivity |].
  set (d2 := match last posts with Some _ => _ | None => _ end).
  assert (Hd2 : started d2 = started d /\ delayed d2 = [due] /\ request_pending_ d2 = true /\
               context_ d2 = Some (default (c0, now0, later0) (last posts)).1.1).
  { unfold d2. destruct (last posts) as [[[c ?] ?] |]; simpl; by rewrite Hdel. }
  destruct Hd2 as (Hs & Hd & Hp & Hc). clearbody d2. split_and!; [done | done |].
  intros t Ht. simpl. unfold run_delayed. rewrite Hd. simpl.
  destruct (Z.leb_spec due t); [| lia].
  set (d3 := set_field _ _).
  destruct (StartPending_Ok (default (c0, now0, later0) (last posts)).1.1 t d3 Hurl Hc Hp)
    as [d4 Hrun].
  exists d4. split; [exact Hrun |].
  apply StartPending_run in Hrun as (_ & _ & [[_ [Hf | Hf]] | (c & Hc' & _ & _ & _ & Hs')]).
  - change (request_pending_ d2 = false) in Hf. congruence.
  - change (context_ d2 = None) in Hf. congruence.
  - change (context_ d2 = Some c) in Hc'. rewrite Hc in Hc'. injection Hc' as ->.
    rewrite Hs'. change (started d3) with (started d2). by rewrite Hs.
Qed.

(** ** What goes wrong *)

(** A request that waits, once its task ran without a text, is never started. *)
Lemma stuck_forever es d d' :
  Forall posted es -> request_pending_ d = true -> delayed d = [] ->
  handle_all es d = Ok d' -> started d' = started d.
Proof.
  revert d. induction es as [| e es IH]; intros d Hes Hp Hd Hrun.
  - by injection Hrun as <-.
  - inversion_clear Hes as [| ? ? He Hes']. simpl in Hrun.
    apply bind_Ok_inv in Hrun as (d1 & Hrun1 & Hrun).
    assert (Hsame : request_pending_ d1 = true /\ delayed d1 = [] /\ started d1 = started d).
    { destruct e as [c now later | k now | now | | ok code response memory]; simpl in *.
      - unfold PostSearchTermRequest in Hrun1. simpl in Hrun1. rewrite Hp in Hrun1.
        by injection Hrun1 as <-.
      - unfold run_delayed in Hrun1. rewrite Hd in Hrun1. by injection Hrun1 as <-.
      - done.
      - by injection Hrun1 as <-.
      - unfold complete in Hrun1. destruct (search_term_fetcher_ d) as [f |]; [| by injection Hrun1 as <-].
        destruct (completed f); [by injection Hrun1 as <- |].
        unfold OnURLFetchComplete in Hrun1. by run_inv Hrun1. }
    destruct Hsame as (Hp1 & Hd1 & <-). by apply (IH d1).
Qed.

(** A choice that is cancelled during its delay blocks the delegate: when its
    task ran, no request that is posted later is started. *)
Lemma cancel_blocks_requests c now later t es d d' :
  request_pending_ d = false -> delayed d = [] ->
  now <= last_request_startup_time_ d + kMinimumDelayBetweenRequest <= t ->
  Forall posted es ->
  handle_all (EPost c now later :: ECancel :: EDelayed 0 t :: es) d = Ok d' -> started d' = started d.
Proof.
  intros Hp Hd [Hnow Ht] Hes Hrun. cbn [handle_all handle] in Hrun.
  unfold PostSearchTermRequest in Hrun. cbv zeta in Hrun.
  change (request_pending_ (d <| context_ := Some c |>)) with (request_pending_ d) in Hrun.
  rewrite Hp in Hrun.
  change (last_request_startup_time_ (_ <| request_pending_ := true |>))
    with (last_request_startup_time_ d) in Hrun.
  destruct (Z.gtb_spec now (last_request_startup_time_ d + kMinimumDelayBetweenRequest)); [lia |].
  cbn [mbind chk_bind mret chk_ret] in Hrun. unfold run_delayed at 1 in Hrun.
  simpl in Hrun. rewrite Hd in Hrun. simpl in Hrun.
  replace (now + _) with (last_request_startup_time_ d + kMinimumDelayBetweenRequest) in Hrun by lia.
  destruct (Z.leb_spec (last_request_startup_time_ d + kMinimumDelayBetweenRequest) t); [| lia].
  unfold StartPendingSearchTermRequest in Hrun. simpl in Hrun.
  by apply (stuck_forever es) in Hrun.
Qed.

(** When the memory of the flag held another value than 0, nothing is ever
    started. *)
Lemma uninitialized_flag_blocks es d :
  Forall posted es -> handle_all es (Delegate_new true) = Ok d -> started d = [].
Proof. intros Hes Hrun. by apply (stuck_forever es (Delegate_new true)). Qed.

(** ** The parts of a request *)

(** The header of a request is web-safe, whatever the encoder gives. *)
Lemma web_safe_spec s a :
  In a (String.list_ascii_of_string (web_safe s)) -> a <> "+"%char /\ a <> "/"%char.
Proof.
  unfold web_safe. rewrite String.list_ascii_of_string_of_list_ascii.
  intros Ha%list_elem_of_In. apply list_elem_of_fmap in Ha as (b & -> & _). unfold web_safe_char.
  destruct (Ascii.eqb_spec b "+"); [done |]. by destruct (Ascii.eqb_spec b "/").
Qed.

(** The resolver replaces everything up to the end of the endpoint. *)
Lemma substitute_resolver_spec by_ pre post :
  by_ <> [] -> find_first (text_of kContextualSearchServerEndpoint)
                 (pre ++ text_of kContextualSearchServerEndpoint ++ post) = Some (length pre) ->
  substitute_resolver by_ (pre ++ text_of kContextualSearchServerEndpoint ++ post) = by_ ++ post.
Proof.
  intros Hby Hf. unfold substitute_resolver. destruct by_ as [| b by_]; [done |].
  rewrite find_0, Hf. unfold replace. clear Hf.
  generalize (text_of kContextualSearchServerEndpoint) as endpoint. intros endpoint.
  change (take 0 ?l) with (@nil ascii). rewrite app_nil_l, Nat.add_0_l. f_equal.
  rewrite app_assoc, <- length_app. apply drop_app_length.
Qed.

(** The escape that guards against inclusion as a script is taken off. *)
Lemma without_escape_spec response : without_escape (kXssiEscape ++ response) = response.
Proof. reflexivity. Qed.
End delegate.

(** ** A concrete delegate *)
Module ConcreteSearch.
Import ConcreteUrl ConcreteValues.

(** JSON is a word that stands for a dictionary. *)
#[export] Instance search : ContextualSearchApi := {|
  spec u := ConcreteUrl.host u;
  GURL_of_string s := mk_url "https" s "" None;
  contextual_search_url _ _ := Some "google.com/_/contextualsearch?q";
  resolver_switch := None;
  resolver_param := "test.org/resolve?";
  VariationHeaders _ := "X-Client-Data: none";
  EscapeQueryParamValue s := s;
  SerializeToString _ := "a";
  Base64Encode _ := "YQ+/";
  Deserialize s :=
    if String.eqb s "answer" then
      Some (VDictionary [("search_term", VString "term"); ("selected_text", VString "term");
                         ("resolved_term", VString "resolved"); ("prevent_preload", VString "1");
                         ("mentions", VList [VInt 3; VInt 7])])
    else if String.eqb s "long" then
      Some (VDictionary [("mentions", VList [VInt 1; VInt 2; VInt 3])])
    else None;
  GetDefaultSearchURLForSearchTerms s := mk_url "https" "google.com" s None;
  IsGoogleSearchUrl _ := true;
  AppendQueryParameter u k v :=
    mk_url (scheme u) (ConcreteUrl.host u) (path u ++ "&" ++ k ++ "=" ++ v)%string None;
|}.

Definition word (s : string) : ContextualSearchContext :=
ContextualSearchContext_new s true (mk_url "https" "page.org" "" None) "UTF-8".

(** A word inside a text needs the server. *)
Definition word_in_text (s : string) : ContextualSearchContext :=
  {| selected_text := s; use_resolved_search_term := true;
     page_url := mk_url "https" "page.org" "" None; encoding := "UTF-8";
     surrounding_text := ("some " ++ s)%string; start_offset := 5; end_offset := 9 |}.

Definition second (n : Z) : Z := n * 1000000.

Definition idle : Delegate := Delegate_new false.

Example server_request :
  search_term_fetcher_
    (from_ok idle (handle (EPost (word_in_text "word") (second 100) (second 100)) idle))
  = Some {| original_url := mk_url "https" "test.org/resolve?q" "" None;
            extra_headers := ["X-Client-Data: none"; "X-Additional-Discourse-Context: YQ-_"];
            completed := false |}.
Proof. reflexivity. Qed.

Definition request_and (e : event) : list event :=
  [EPost (word_in_text "word") (second 100) (second 100); e].

Definition answered (e : event) : list SearchResolution :=
  results (from_ok idle (handle_all (request_and e) idle)).

Example answer_is_decoded :
  answered (EComplete true 200 (Some (String.string_of_list_ascii (kXssiEscape ++ text_of "answer")))
              (0, 0))
  = [{| is_invalid := false; response_code := 200; search_term := "term"; display_text := "term";
        alternate_term := "resolved"; prevent_preload := true; result_start := 3;
        result_end := 7 |}].
Proof. reflexivity. Qed.

(** A failure that has a response code reaches the callback as valid, with
    offsets that were never set. *)
Example failure_has_random_offsets :
  answered (EComplete true 503 None (17, 42))
  = [{| is_invalid := false; response_code := 503; search_term := ""; display_text := "";
        alternate_term := ""; prevent_preload := false; result_start := 17; result_end := 42 |}].
Proof. reflexivity. Qed.

(** An answer with three mentions fails a check. *)
Example three_mentions_fault :
  handle_all (request_and (EComplete true 200 (Some "long") (0, 0))) idle = Fault.
Proof. reflexivity. Qed.

(** A task left over by a direct start starts the next request too early. *)
Example direct_start_breaks_pace :
  started (from_ok idle (handle_all
    [EPost (word "a") (second 100) (second 100); EPost (word "b") (second 100) (second 100);
     EStart (second 100 + 300000); EPost (word "c") (second 100 + 400000) (second 100 + 400000);
     EDelayed 0 (second 101)] idle))
  = [(second 100, word "a"); (second 100 + 300000, word "b"); (second 101, word "c")].
Proof. reflexivity. Qed.

Definition three_taps : list event :=
  [EPost (word "a") (second 100) (second 100); EPost (word "b") (second 100) (second 100);
   EPost (word_in_text "c") (second 100 + 500000) (second 100 + 500000)].

Lemma requests_are_spaced_witness :
  let d := from_ok idle (handle_all three_taps idle) in
  let d' := from_ok idle (handle (EDelayed 0 (second 101)) d) in
  started d' = started d \/
  exists t c, started d' = started d ++ [(t, c)] /\
    latest (three_taps ++ [EDelayed 0 (second 101)]) = Some c /\
    forall t0 c0, last (started d) = Some (t0, c0) -> t0 + kMinimumDelayBetweenRequest <= t.
Proof.
  intros d d'. apply (requests_are_spaced three_taps (EDelayed 0 (second 101)) d d').
  - repeat constructor; simpl; lia.
  - reflexivity.
  - reflexivity.
Defined.

Lemma latest_post_is_served_witness :
  exists d', handle_all [EPost (word "a") 0 0; EPost (word "b") 5 6] idle = Ok d' /\
    started d' = [] /\ delayed d' = [second 1] /\
    forall t, second 1 <= t -> exists d'', handle (EDelayed 0 t) d' = Ok d'' /\
      started d'' = [(t, word "b")].
Proof.
  apply (latest_post_is_served (word "a") 0 0 [(word "b", 5, 6)] idle); try reflexivity.
  vm_compute. discriminate.
Defined.
End ConcreteSearch.
