(* ===== verification/HttpCacheHelper.v ===== *)
(** * Counting and clearing the HTTP cache

    [net/http_cache_helper.cc] and
    [chrome/browser/browsing_data/cache_counter.cc].  Both ask the cache for
    its backend and then the backend for something; each request is answered
    at once or by a callback.

    The disk cache is a parameter: what each request returns, and whether the
    backend is there.  A request that returns [ERR_IO_PENDING] runs its
    callback later, and one that returns anything else never runs it. *)
From S2P Require Import Prelude.

(** [net/base/net_errors.h] *)
Definition NET_OK : Z := 0.
Definition ERR_IO_PENDING : Z := -1.

(** ** [CacheCounter] *)
Section counter.

Inductive Step := STEP_GET_BACKEND | STEP_COUNT | STEP_CALLBACK | STEP_DONE.

#[export] Instance Step_eq_dec : EqDecision Step.
Proof. solve_decision. Defined.

(** What the cache answers at once: the result of [GetBackend], whether it set
    the pointer, and the result of [CalculateSizeOfAllEntries]. *)
Record CacheAnswers := { get_backend : Z; backend_is_set : bool; calculate_size : Z }.

(** [posted_finished] counts the tasks posted to the UI thread; [reported] is
    what the result callback was run with, and [deleted] that the counter
    deleted itself. *)
Record IOThreadCacheCounter := {
  next_step_ : Step;
  result_ : Z;
  backend_ : bool;
  posted_finished : nat;
  reported : list Z;
  deleted : bool;
}.

#[export] Instance counter_fields : Fields IOThreadCacheCounter := fun c =>
  {| next_step_ := next_step_ c; result_ := result_ c; backend_ := backend_ c;
     posted_finished := posted_finished c; reported := reported c; deleted := deleted c |}.

Definition IOThreadCacheCounter_new : IOThreadCacheCounter :=
  {| next_step_ := STEP_GET_BACKEND; result_ := 0; backend_ := false; posted_finished := 0;
     reported := []; deleted := false |}.

(** One round of the loop of [CountInternal], with the result it leaves. *)
Definition count_step (answers : CacheAnswers) (rv : Z) (c : IOThreadCacheCounter)
    : chk (Z * IOThreadCacheCounter) :=
  let c := if rv <? 0 then c <| next_step_ := STEP_CALLBACK |> else c in
  match next_step_ c with
  | STEP_GET_BACKEND =>
      let c := c <| next_step_ := STEP_COUNT |> in
      mret (get_backend answers, c <| backend_ := backend_is_set answers |>)
  | STEP_COUNT =>
      let c := c <| next_step_ := STEP_CALLBACK |> in
      _ ← dcheck (backend_ c);
      mret (calculate_size answers, c)
  | STEP_CALLBACK =>
      let c := c <| next_step_ := STEP_DONE |> <| result_ := rv |> in
      mret (rv, c <| posted_finished := S (posted_finished c) |>)
  | STEP_DONE => Fault
  end.

Fixpoint CountInternal (fuel : nat) (answers : CacheAnswers) (rv : Z) (c : IOThreadCacheCounter)
    : chk IOThreadCacheCounter :=
  if negb (rv =? ERR_IO_PENDING) && negb (bool_decide (next_step_ c = STEP_DONE)) then
    match fuel with
    | O => Fault
    | S fuel => '(rv, c) ← count_step answers rv c; CountInternal fuel answers rv c
    end
  else mret c.

(** The loop takes at most one round for each step. *)
Definition rounds : nat := 3.

Definition Count (answers : CacheAnswers) (c : IOThreadCacheCounter) : chk IOThreadCacheCounter :=
  CountInternal rounds answers NET_OK c.

Definition OnCountingFinished (c : IOThreadCacheCounter) : IOThreadCacheCounter :=
  c <| reported := reported c ++ [result_ c] |> <| deleted := true |>.

(** [CacheCounter::OnCacheSizeCalculated]: what [ReportResult] is called with. *)
Definition OnCacheSizeCalculated (result_bytes : Z) : option Z :=
  if result_bytes <? 0 then None else Some result_bytes.

(** What comes back later: the backend with its pointer, and the size. *)
Definition backend_ready (answers : CacheAnswers) (rv : Z) (set : bool) (c : IOThreadCacheCounter)
    : chk IOThreadCacheCounter :=
  CountInternal rounds answers rv (c <| backend_ := set |>).

Definition size_ready (answers : CacheAnswers) (rv : Z) (c : IOThreadCacheCounter)
    : chk IOThreadCacheCounter :=
  CountInternal rounds answers rv c.

(** A whole count: [later_backend] and [later_size] are the answers that come
    for the requests that were pending. *)
Definition count_cache (answers : CacheAnswers) (later_backend : Z * bool) (later_size : Z)
    : chk IOThreadCacheCounter :=
  c ← Count answers IOThreadCacheCounter_new;
  c ← (if get_backend answers =? ERR_IO_PENDING
       then backend_ready answers later_backend.1 later_backend.2 c else mret c);
  c ← (if bool_decide (next_step_ c = STEP_CALLBACK) then size_ready answers later_size c
       else mret c);
  mret (Nat.iter (posted_finished c) OnCountingFinished c).

(** The answer to a request in the end. *)
Definition in_the_end (at_once later : Z) : Z := if at_once =? ERR_IO_PENDING then later else at_once.

Definition count_result (answers : CacheAnswers) (later_backend : Z * bool) (later_size : Z) : Z :=
  let backend := in_the_end (get_backend answers) later_backend.1 in
  if backend <? 0 then backend else in_the_end (calculate_size answers) later_size.

(** The size of the cache is counted: however the requests are answered, at
    once or later, the loop ends, no check fails, the callback runs exactly once,
    with the error of the first request that fails or else with the size, and
    the counter deletes itself. *)
Lemma count_cache_spec answers later_backend later_size :
  later_backend.1 <> ERR_IO_PENDING -> later_size <> ERR_IO_PENDING ->
  (0 <= get_backend answers -> backend_is_set answers = true) ->
  (0 <= later_backend.1 -> later_backend.2 = true) ->
  exists c, count_cache answers later_backend later_size = Ok c /\
    reported c = [count_result answers later_backend later_size] /\
    next_step_ c = STEP_DONE /\ deleted c = true.
Proof.
  destruct answers as [gb set size], later_backend as [lb lset]. cbn.
  unfold count_result, in_the_end, count_cache, Count, rounds, ERR_IO_PENDING, NET_OK. simpl.
  intros Hlb Hls Hset Hlset.
  destruct (Z.eqb_spec gb (-1)) as [-> | Hgb]; simpl; unfold backend_ready, size_ready; simpl.
  - destruct (Z.eqb_spec lb (-1)); [done |]. unfold count_step. simpl.
    destruct (Z.ltb_spec lb 0); simpl.
    + destruct (Z.eqb_spec lb (-1)); [done |]. simpl. by eexists.
    + rewrite (Hlset ltac:(lia)). simpl.
      destruct (Z.eqb_spec size (-1)) as [-> | Hsize]; simpl; unfold count_step; simpl.
      * destruct (Z.eqb_spec later_size (-1)); [done |]. simpl.
        destruct (Z.ltb_spec later_size 0); simpl; destruct (Z.eqb_spec later_size (-1));
          try done; simpl; by eexists.
      * destruct (Z.ltb_spec size 0); simpl; destruct (Z.eqb_spec size (-1)); try done; simpl;
          by eexists.
  - unfold count_step. simpl. destruct (Z.ltb_spec gb 0); simpl.
    + destruct (Z.eqb_spec gb (-1)); [done |]. simpl. by eexists.
    + rewrite (Hset ltac:(lia)). simpl.
      destruct (Z.eqb_spec size (-1)) as [-> | Hsize]; simpl; unfold count_step; simpl.
      * destruct (Z.eqb_spec later_size (-1)); [done |]. simpl.
        destruct (Z.ltb_spec later_size 0); simpl; destruct (Z.eqb_spec later_size (-1));
          try done; simpl; by eexists.
      * destruct (Z.ltb_spec size 0); simpl; destruct (Z.eqb_spec size (-1)); try done; simpl;
          by eexists.
Qed.

Lemma count_cache_spec_witness :
  exists c, count_cache {| get_backend := ERR_IO_PENDING; backend_is_set := false;
                           calculate_size := 4096 |} (NET_OK, true) 0 = Ok c /\
    reported c = [4096] /\ next_step_ c = STEP_DONE /\ deleted c = true.
Proof.
  apply (count_cache_spec {| get_backend := ERR_IO_PENDING; backend_is_set := false;
                             calculate_size := 4096 |} (NET_OK, true) 0); vm_compute; congruence.
Defined.
End counter.

(** ** [ClearHttpCache] *)
Section clear.

(** What the cache does: the result of [GetBackend] and whether the pointer is
    set at once, the result and the pointer that come later, and what
    [DoomEntriesBetween] returns and later gives to its callback. *)
Record HttpCache := {
  backend_rv : Z;
  backend_now : bool;
  later_backend : Z * bool;
  doom_rv : Z;
  later_doom : Z;
  has_sdch_manager : bool;
}.

(** The tasks and callbacks of one clearing, each run once. *)
Inductive cache_task :=
| ClearHttpCacheOnIOThread
| DoomHttpCache (backend : bool) (error : Z)
| PostCallback (error : Z)
| ClientCallback (error : Z).

Inductive cache_effect := QuicCleared | SdchCleared | EntriesDoomed (delete_begin delete_end : Z).

(** [DoomHttpCache]: with a backend, its return value is not looked at. *)
Definition doom (cache : HttpCache) (begin_ end_ : Z) (backend : bool) (error : Z)
    : list cache_effect * list cache_task :=
  if backend then
    ([EntriesDoomed begin_ end_],
     if doom_rv cache =? ERR_IO_PENDING then [PostCallback (later_doom cache)] else [])
  else ([], [ClientCallback error]).

(** What running a task does, and the tasks it leads to. *)
Definition run_cache_task (cache : HttpCache) (begin_ end_ : Z) (t : cache_task)
    : list cache_effect * list cache_task :=
  match t with
  | ClearHttpCacheOnIOThread =>
      let cleared := QuicCleared :: (if has_sdch_manager cache then [SdchCleared] else []) in
      if backend_rv cache =? ERR_IO_PENDING then
        (cleared, [DoomHttpCache (later_backend cache).2 (later_backend cache).1])
      else
        let '(effects, tasks) := doom cache begin_ end_ (backend_now cache) (backend_rv cache) in
        (cleared ++ effects, tasks)
  | DoomHttpCache backend error => doom cache begin_ end_ backend error
  | PostCallback error => ([], [ClientCallback error])
  | ClientCallback _ => ([], [])
  end.

(** [ClearHttpCache] posts the first task. *)
Definition ClearHttpCache (delete_end : Z) : chk cache_task :=
  _ ← dcheck (negb (delete_end =? 0)); mret ClearHttpCacheOnIOThread.

(** How many tasks are still to run. *)
Definition task_measure (t : cache_task) : nat :=
  match t with
  | ClearHttpCacheOnIOThread => 4
  | DoomHttpCache _ _ => 3
  | PostCallback _ => 2
  | ClientCallback _ => 1
  end.

(** A task that is not the client's callback leads to exactly one other, which
    has less to do, unless the backend dooms the entries at once. *)
Lemma cache_task_goes_on cache begin_ end_ t :
  doom_rv cache = ERR_IO_PENDING -> (forall error, t <> ClientCallback error) ->
  exists t', (run_cache_task cache begin_ end_ t).2 = [t'] /\
    (task_measure t' < task_measure t)%nat.
Proof.
  intros Hd Ht. destruct t as [| [|] error | error | error]; simpl; unfold doom;
    rewrite ?Hd; simpl; try (by eexists; split; [reflexivity | simpl; lia]); [| by destruct (Ht error)].
  destruct (backend_rv cache =? ERR_IO_PENDING); [eexists; split; [reflexivity | simpl; lia] |].
  destruct (backend_now cache); simpl; (eexists; split; [reflexivity | simpl; lia]).
Qed.

(** In general it leads to one that has less to do, or to none, when the backend
    dooms the entries at once. *)
Lemma cache_task_next cache begin_ end_ t :
  (forall error, t <> ClientCallback error) ->
  (exists t', (run_cache_task cache begin_ end_ t).2 = [t'] /\
     (task_measure t' < task_measure t)%nat) \/
  ((run_cache_task cache begin_ end_ t).2 = [] /\ doom_rv cache <> ERR_IO_PENDING).
Proof.
  intros Ht. destruct (decide (doom_rv cache = ERR_IO_PENDING)) as [Hd | Hd].
  { left. by apply cache_task_goes_on. }
  pose proof (proj2 (Z.eqb_neq _ _) Hd) as Hb.
  destruct t as [| [|] error | error | error]; simpl; unfold doom; rewrite ?Hb; simpl;
    try (left; eexists; split; [reflexivity | simpl; lia]); [| by right | by destruct (Ht error)].
  destruct (backend_rv cache =? ERR_IO_PENDING); [left; eexists; split; [reflexivity | simpl; lia] |].
  destruct (backend_now cache); simpl; [by right | left; eexists; split; [reflexivity | simpl; lia]].
Qed.

(** A backend that dooms its entries at once does not run the callback, and
    nobody else does. *)
Lemma synchronous_doom_loses_callback cache begin_ end_ error :
  doom_rv cache <> ERR_IO_PENDING ->
  (run_cache_task cache begin_ end_ (DoomHttpCache true error)).2 = [].
Proof. intros Hd. simpl. by destruct (Z.eqb_spec (doom_rv cache) ERR_IO_PENDING). Qed.
End clear.
