(* ===== verification/BrowsingDataRemover.v ===== *)
(** * Removal of browsing data

    [chrome/browser/browsing_data/ios_chrome_browsing_data_remover.mm], which
    removes the data of one browser state, and
    [browsing_data_remover_helper.cc], which runs the removals one after the
    other.

    A remover starts work on other threads and in other services, each with a
    closure that comes back; [closures] are those that have not run.  The
    services are parameters; all of them but the cache call back later.  The
    cache may also do the work at once and never call back, as
    [HttpCacheHelper] says: then the removal that waits for it waits for ever.
    A browser state is known by its address and a callback by a number; what a
    callback does when it runs is a parameter, and it may ask for a removal. *)
From S2P Require Import Prelude HttpCacheHelper.

(** ** Constants *)
Definition REMOVE_CACHE : Z := Z.shiftl 1 1.
Definition REMOVE_COOKIES : Z := Z.shiftl 1 2.
Definition REMOVE_FORM_DATA : Z := Z.shiftl 1 4.
Definition REMOVE_HISTORY : Z := Z.shiftl 1 5.
Definition REMOVE_PASSWORDS : Z := Z.shiftl 1 8.
Definition REMOVE_CHANNEL_IDS : Z := Z.shiftl 1 10.

(** [mask & bit] as a condition *)
Definition has_bit (mask bit : Z) : bool := negb (Z.land mask bit =? 0).

(** [browsing_data::TimePeriod] *)
Inductive TimePeriod := LAST_HOUR | LAST_DAY | LAST_WEEK | FOUR_WEEKS | ALL_TIME.

#[export] Instance TimePeriod_eq_dec : EqDecision TimePeriod.
Proof. solve_decision. Defined.

(** The services a browser state has, and the functions of [base] and
    [components] that give times. *)
Class BrowsingServices := {
  has_history_service : bool;
  has_io_thread : bool;
  IsOffTheRecord : nat -> bool;
(** The search engines, and whether they are loaded. *)
keywords_model : option bool;
has_tab_service : bool;
has_web_data_service : bool;
has_data_manager : bool;
has_language_model : bool;
has_request_context : bool;
has_password_store : bool;
http_cache : HttpCache;
CalculateBeginDeleteTime : TimePeriod -> Z;
Time_Max : Z;
}.

(** ** State *)

(** What is done to the data, with the range of time where there is one. *)
Inductive effect :=
| HistoryExpired (delete_begin delete_end : Z)
| HostCacheCleared
| AutoGeneratedRemoved (delete_begin delete_end : Z)
| TabEntriesCleared
| LastSessionDeleted
| OriginURLsRemoved (delete_begin delete_end : Z)
| PersonalDataRefreshed
| LanguageHistoryCleared (delete_begin delete_end : Z)
| CookiesDeleted (delete_begin delete_end : Z)
| ChannelIDsDeleted (delete_begin delete_end : Z)
| SSLConfigChanged
| LoginsRemoved (delete_begin delete_end : Z)
| FormElementsRemoved (delete_begin delete_end : Z)
| AutofillDataRemoved (delete_begin delete_end : Z)
| CacheEffect (e : cache_effect)
| ZeroSuggestCleared
| NetworkingHistoryCleared (delete_begin : Z).

(** What waits to run: a task posted to a thread with the reply it has, or the
    callback given to a service. *)
Inductive closure :=
| HistoryDeletionDone
| ClearHostCache | HostCacheReply
| KeywordsLoaded
| AutofillDB | AutofillReply
| ClearCookiesOnIOThread | ClearedCookiesIO | ClearedCookiesUI
| ClearChannelIDsOnIOThread | ClearedChannelIDsOnIOThread | ClearedChannelIDs
| ClearedPasswords
| FormDB | FormReply
| CacheTask (t : cache_task)
| ClearedNetworkingHistory.

Record Remover := {
  browser_state_ : nat;
  delete_begin_ : Z;
  delete_end_ : Z;
  waiting_for_clear_autofill_origin_urls_ : bool;
  waiting_for_clear_cache_ : bool;
  waiting_for_clear_channel_ids_ : bool;
  waiting_for_clear_cookies_count_ : Z;
  waiting_for_clear_form_ : bool;
  waiting_for_clear_history_ : bool;
  waiting_for_clear_hostname_resolution_cache_ : bool;
  waiting_for_clear_keyword_data_ : bool;
  waiting_for_clear_networking_history_ : bool;
  waiting_for_clear_passwords_ : bool;
  remove_mask_ : Z;
  closures : list closure;
  effects : list effect;
}.

#[export] Instance remover_fields : Fields Remover := fun r =>
  {| browser_state_ := browser_state_ r; delete_begin_ := delete_begin_ r;
     delete_end_ := delete_end_ r;
     waiting_for_clear_autofill_origin_urls_ := waiting_for_clear_autofill_origin_urls_ r;
     waiting_for_clear_cache_ := waiting_for_clear_cache_ r;
     waiting_for_clear_channel_ids_ := waiting_for_clear_channel_ids_ r;
     waiting_for_clear_cookies_count_ := waiting_for_clear_cookies_count_ r;
     waiting_for_clear_form_ := waiting_for_clear_form_ r;
     waiting_for_clear_history_ := waiting_for_clear_history_ r;
     waiting_for_clear_hostname_resolution_cache_ :=
       waiting_for_clear_hostname_resolution_cache_ r;
     waiting_for_clear_keyword_data_ := waiting_for_clear_keyword_data_ r;
     waiting_for_clear_networking_history_ := waiting_for_clear_networking_history_ r;
     waiting_for_clear_passwords_ := waiting_for_clear_passwords_ r;
     remove_mask_ := remove_mask_ r; closures := closures r; effects := effects r |}.

Implicit Types (r : Remover) (c : closure).

(** The constructor: an end that is the null time is the end of time. *)
Definition Remover_new `{BrowsingServices} (browser_state : nat) (delete_begin delete_end : Z)
    : chk Remover :=
  _ ← dcheck (negb (delete_end =? 0));
  mret {| browser_state_ := browser_state; delete_begin_ := delete_begin;
          delete_end_ := if delete_end =? 0 then Time_Max else delete_end;
          waiting_for_clear_autofill_origin_urls_ := false; waiting_for_clear_cache_ := false;
          waiting_for_clear_channel_ids_ := false; waiting_for_clear_cookies_count_ := 0;
          waiting_for_clear_form_ := false; waiting_for_clear_history_ := false;
          waiting_for_clear_hostname_resolution_cache_ := false;
          waiting_for_clear_keyword_data_ := false;
          waiting_for_clear_networking_history_ := false;
          waiting_for_clear_passwords_ := false; remove_mask_ := 0; closures := [];
          effects := [] |}.

Definition CreateForPeriod `{BrowsingServices} (browser_state : nat) (period : TimePeriod)
    : chk Remover :=
  Remover_new browser_state (CalculateBeginDeleteTime period) Time_Max.

Definition AllDone r : bool :=
  negb (waiting_for_clear_autofill_origin_urls_ r) &&
  negb (waiting_for_clear_cache_ r) && negb (waiting_for_clear_channel_ids_ r) &&
  (waiting_for_clear_cookies_count_ r =? 0) && negb (waiting_for_clear_form_ r) &&
  negb (waiting_for_clear_history_ r) &&
  negb (waiting_for_clear_hostname_resolution_cache_ r) &&
  negb (waiting_for_clear_keyword_data_ r) &&
  negb (waiting_for_clear_networking_history_ r) &&
  negb (waiting_for_clear_passwords_ r).

(** Something is done now; something is started with the closure that comes
    back. *)
Definition do_effect (e : effect) r : Remover := r <| effects := effects r ++ [e] |>.
Definition start c r : Remover := r <| closures := closures r ++ [c] |>.

Definition when (b : bool) (f : Remover -> Remover) r : Remover := if b then f r else r.

(** ** [RemoveImpl] *)
Section removal.
Context `{BrowsingServices}.

Definition remove_history r : Remover :=
  let b := delete_begin_ r in let e := delete_end_ r in
  let r := when has_history_service (fun r =>
    start HistoryDeletionDone
      (do_effect (HistoryExpired b e) (r <| waiting_for_clear_history_ := true |>))) r in
  let r := when has_io_thread (fun r =>
    start ClearHostCache (r <| waiting_for_clear_hostname_resolution_cache_ := true |>)) r in
  let r :=
    if IsOffTheRecord (browser_state_ r) then r
    else match keywords_model with
         | Some false => start KeywordsLoaded r <| waiting_for_clear_keyword_data_ := true |>
         | Some true => do_effect (AutoGeneratedRemoved b e) r
         | None => r
         end in
  let r := when has_tab_service (fun r =>
    do_effect LastSessionDeleted (do_effect TabEntriesCleared r)) r in
  let r := when has_web_data_service (fun r =>
    let r := r <| waiting_for_clear_autofill_origin_urls_ := true |> in
    let r := start AutofillDB (do_effect (OriginURLsRemoved b e) r) in
    when has_data_manager (do_effect PersonalDataRefreshed) r) r in
  when has_language_model (do_effect (LanguageHistoryCleared b e)) r.

Definition remove_cookies r : Remover :=
  start ClearCookiesOnIOThread
    (r <| waiting_for_clear_cookies_count_ := waiting_for_clear_cookies_count_ r + 1 |>).

Definition remove_channel_ids r : Remover :=
  when has_request_context (fun r =>
    start ClearChannelIDsOnIOThread (r <| waiting_for_clear_channel_ids_ := true |>)) r.

Definition remove_passwords r : Remover :=
  when has_password_store (fun r =>
    start ClearedPasswords
      (do_effect (LoginsRemoved (delete_begin_ r) (delete_end_ r))
         (r <| waiting_for_clear_passwords_ := true |>))) r.

Definition remove_form_data r : Remover :=
  let b := delete_begin_ r in let e := delete_end_ r in
  when has_web_data_service (fun r =>
    let r := r <| waiting_for_clear_form_ := true |> in
    let r := do_effect (AutofillDataRemoved b e) (do_effect (FormElementsRemoved b e) r) in
    when has_data_manager (do_effect PersonalDataRefreshed) (start FormDB r)) r.

Definition remove_cache r : Remover :=
  start (CacheTask ClearHttpCacheOnIOThread) (r <| waiting_for_clear_cache_ := true |>).

Definition clear_networking_history r : Remover :=
  start ClearedNetworkingHistory
    (do_effect (NetworkingHistoryCleared (delete_begin_ r))
       (r <| waiting_for_clear_networking_history_ := true |>)).

(** Without [set_removing], which is the caller's. *)
Definition RemoveImpl (remove_mask : Z) r : Remover :=
  let has := has_bit remove_mask in
  let r := r <| remove_mask_ := remove_mask |> in
  let r := when (has REMOVE_HISTORY) remove_history r in
  let r := when (has REMOVE_COOKIES) remove_cookies r in
  let r := when (has REMOVE_CHANNEL_IDS) remove_channel_ids r in
  let r := when (has REMOVE_PASSWORDS) remove_passwords r in
  let r := when (has REMOVE_FORM_DATA) remove_form_data r in
  let r := when (has REMOVE_CACHE) remove_cache r in
  let r := when (has (Z.lor REMOVE_CACHE REMOVE_COOKIES)) (do_effect ZeroSuggestCleared) r in
  clear_networking_history r.

(** ** The closures *)

(** What a closure does; [true] when it ends with [NotifyAndDeleteIfDone]. *)
Definition run_closure c r : chk (Remover * bool) :=
  let b := delete_begin_ r in let e := delete_end_ r in
  match c with
  | HistoryDeletionDone => mret (r <| waiting_for_clear_history_ := false |>, true)
  | ClearHostCache => mret (start HostCacheReply (do_effect HostCacheCleared r), false)
  | HostCacheReply =>
      mret (r <| waiting_for_clear_hostname_resolution_cache_ := false |>, true)
  | KeywordsLoaded =>
      mret (do_effect (AutoGeneratedRemoved b e) r <| waiting_for_clear_keyword_data_ := false |>,
            true)
  | AutofillDB => mret (start AutofillReply r, false)
  | AutofillReply => mret (r <| waiting_for_clear_autofill_origin_urls_ := false |>, true)
  | ClearCookiesOnIOThread =>
      mret (start ClearedCookiesIO (do_effect (CookiesDeleted b e) r), false)
  | ClearedCookiesIO => mret (start ClearedCookiesUI r, false)
  | ClearedCookiesUI =>
      _ ← dcheck (0 <? waiting_for_clear_cookies_count_ r);
      mret (r <| waiting_for_clear_cookies_count_ := waiting_for_clear_cookies_count_ r - 1 |>, true)
  | ClearChannelIDsOnIOThread =>
      mret (start ClearedChannelIDsOnIOThread (do_effect (ChannelIDsDeleted b e) r), false)
  | ClearedChannelIDsOnIOThread =>
      mret (start ClearedChannelIDs (do_effect SSLConfigChanged r), false)
  | ClearedChannelIDs => mret (r <| waiting_for_clear_channel_ids_ := false |>, true)
  | ClearedPasswords => mret (r <| waiting_for_clear_passwords_ := false |>, true)
  | FormDB => mret (start FormReply r, false)
  | FormReply => mret (r <| waiting_for_clear_form_ := false |>, true)
  | CacheTask (ClientCallback _) => mret (r <| waiting_for_clear_cache_ := false |>, true)
  | CacheTask t =>
      let '(es, ts) := run_cache_task http_cache b e t in
      mret (r <| effects := effects r ++ (CacheEffect <$> es) |>
              <| closures := closures r ++ (CacheTask <$> ts) |>, false)
  | ClearedNetworkingHistory =>
      mret (r <| waiting_for_clear_networking_history_ := false |>, true)
  end.

(** ** The helper *)
Record BrowsingDataRemovalInfo := {
  remove_mask : Z;
  time_period : TimePeriod;
  callbacks : list nat;
}.

(** [remover] is the remover that exists, [is_removing_] the static flag;
    [pending_removals_] is sorted by key.  [ran] are the callbacks that ran,
    [finished] the removals that ended: of which browser state, with which mask,
    period and callbacks, and what was done. *)
Record World := {
  is_removing_ : bool;
  remover : option Remover;
  current_remover_ : bool;
  current_removal_info_ : option BrowsingDataRemovalInfo;
  pending_removals_ : list (nat * BrowsingDataRemovalInfo);
  ran : list nat;
  finished : list (nat * BrowsingDataRemovalInfo * list effect);
}.

#[export] Instance world_fields : Fields World := fun w =>
  {| is_removing_ := is_removing_ w; remover := remover w;
     current_remover_ := current_remover_ w;
     current_removal_info_ := current_removal_info_ w;
     pending_removals_ := pending_removals_ w; ran := ran w; finished := finished w |}.

Implicit Types (w : World) (info : BrowsingDataRemovalInfo).

Definition World_new : World :=
  {| is_removing_ := false; remover := None; current_remover_ := false;
     current_removal_info_ := None; pending_removals_ := []; ran := []; finished := [] |}.

Definition set_removing (is_removing : bool) w : chk World :=
  _ ← dcheck (negb (Bool.eqb (is_removing_ w) is_removing));
  mret (w <| is_removing_ := is_removing |>).

(** [Remove] of the remover that was just created. *)
Definition Remove_by_remover (mask : Z) (new_remover : Remover) w : chk World :=
  w ← set_removing true w;
  mret (w <| remover := Some (RemoveImpl mask new_remover) |>).

Definition DoRemove (browser_state : nat) info w : chk World :=
  _ ← dcheck (negb (current_remover_ w) && negb (is_removing_ w));
  let w := w <| current_removal_info_ := Some info |> in
  new_remover ← CreateForPeriod browser_state (time_period info);
  let w := w <| current_remover_ := true |> in
  Remove_by_remover (remove_mask info) new_remover w.

(** [std::map]: the entry of a key, and insertion in the order of the keys. *)
Fixpoint map_find (k : nat) (m : list (nat * BrowsingDataRemovalInfo))
    : option BrowsingDataRemovalInfo :=
  match m with
  | [] => None
  | (k', i) :: m => if (k =? k')%nat then Some i else map_find k m
  end.

Fixpoint map_set (k : nat) info (m : list (nat * BrowsingDataRemovalInfo))
    : list (nat * BrowsingDataRemovalInfo) :=
  match m with
  | [] => [(k, info)]
  | (k', i) :: m' =>
      if (k =? k')%nat then (k, info) :: m'
      else if (k <? k')%nat then (k, info) :: m else (k', i) :: map_set k info m'
  end.

Definition info_new (mask : Z) (period : TimePeriod) (callback : nat) : BrowsingDataRemovalInfo :=
  {| remove_mask := mask; time_period := period; callbacks := [callback] |}.

Definition info_merge (mask : Z) (callback : nat) info : BrowsingDataRemovalInfo :=
  {| remove_mask := Z.lor (remove_mask info) mask; time_period := time_period info;
     callbacks := callbacks info ++ [callback] |}.

(** [BrowsingDataRemoverHelper::Remove] *)
Definition Remove (browser_state : nat) (mask : Z) (period : TimePeriod) (callback : nat) w
    : chk World :=
  _ ← dcheck (negb (IsOffTheRecord browser_state));
  if current_remover_ w || is_removing_ w then
    _ ← dcheck (current_remover_ w);
    let info :=
      match map_find browser_state (pending_removals_ w) with
      | None => info_new mask period callback
      | Some info => info_merge mask callback info
      end in
    mret (w <| pending_removals_ := map_set browser_state info (pending_removals_ w) |>)
  else DoRemove browser_state (info_new mask period callback) w.

(** What a callback asks the helper for when it runs, if anything. *)
Context (on_run : nat -> option (nat * Z * TimePeriod * nat)).

Definition run_callback (callback : nat) w : chk World :=
  let w := w <| ran := ran w ++ [callback] |> in
  match on_run callback with
  | Some (browser_state, mask, period, callback) => Remove browser_state mask period callback w
  | None => mret w
  end.

(** The loop over [current_removal_info_->callbacks].  A removal that starts in
    a callback replaces the info, and with it the vector the loop reads: to read
    on is a fault. *)
Fixpoint run_callbacks (cs : list nat) w : chk World :=
  match cs with
  | [] => mret w
  | callback :: cs =>
      _ ← dcheck (negb (current_remover_ w));
      w ← run_callback callback w; run_callbacks cs w
  end.

Definition OnIOSChromeBrowsingDataRemoverDone w : chk World :=
  let w := w <| current_remover_ := false |> in
  info ← deref (current_removal_info_ w);
  w ← run_callbacks (callbacks info) w;
  let w := w <| current_removal_info_ := None |> in
  match pending_removals_ w with
  | [] => mret w
  | (next_browser_state, removal_info) :: rest =>
      DoRemove next_browser_state removal_info (w <| pending_removals_ := rest |>)
  end.

(** The remover is deleted once its observer was told; its destructor checks
    that all is done. *)
Definition NotifyAndDelete r w : chk World :=
  w ← set_removing false w;
  let w := match current_removal_info_ w with
           | Some info =>
               w <| finished := finished w ++ [(browser_state_ r, info, effects r)] |>
           | None => w
           end in
  _ ← dcheck (AllDone r);
  OnIOSChromeBrowsingDataRemoverDone (w <| remover := None |>).

Definition NotifyAndDeleteIfDone r w : chk World :=
  if AllDone r then NotifyAndDelete r w else mret (w <| remover := Some r |>).

(** ** Events *)
Inductive event :=
| ERemove (browser_state : nat) (mask : Z) (period : TimePeriod) (callback : nat)
| ERun (k : nat).

(** The [k]-th closure that waits runs. *)
Definition run_kth (k : nat) w : chk World :=
  match remover w with
  | Some r =>
      match closures r !! k with
      | Some c =>
          '(r, ends) ← run_closure c (r <| closures := delete k (closures r) |>);
          if (ends : bool) then NotifyAndDeleteIfDone r w else mret (w <| remover := Some r |>)
      | None => mret w
      end
  | None => mret w
  end.

Definition handle (e : event) w : chk World :=
  match e with
  | ERemove browser_state mask period callback => Remove browser_state mask period callback w
  | ERun k => run_kth k w
  end.

Fixpoint handle_all (es : list event) w : chk World :=
  match es with
  | [] => mret w
  | e :: es => w ← handle e w; handle_all es w
  end.

(** ** Flags and closures *)
Inductive family :=
| FHistory | FHost | FKeyword | FAutofill | FCookies | FChannel | FPasswords | FForm | FCache
| FNetwork.

#[export] Instance family_eq_dec : EqDecision family.
Proof. solve_decision. Defined.

(** The flag that a closure clears in the end. *)
Definition family_of c : family :=
  match c with
  | HistoryDeletionDone => FHistory
  | ClearHostCache | HostCacheReply => FHost
  | KeywordsLoaded => FKeyword
  | AutofillDB | AutofillReply => FAutofill
  | ClearCookiesOnIOThread | ClearedCookiesIO | ClearedCookiesUI => FCookies
  | ClearChannelIDsOnIOThread | ClearedChannelIDsOnIOThread | ClearedChannelIDs => FChannel
  | ClearedPasswords => FPasswords
  | FormDB | FormReply => FForm
  | CacheTask _ => FCache
  | ClearedNetworkingHistory => FNetwork
  end.

Definition flag (f : family) r : bool :=
  match f with
  | FHistory => waiting_for_clear_history_ r
  | FHost => waiting_for_clear_hostname_resolution_cache_ r
  | FKeyword => waiting_for_clear_keyword_data_ r
  | FAutofill => waiting_for_clear_autofill_origin_urls_ r
  | FCookies => negb (waiting_for_clear_cookies_count_ r =? 0)
  | FChannel => waiting_for_clear_channel_ids_ r
  | FPasswords => waiting_for_clear_passwords_ r
  | FForm => waiting_for_clear_form_ r
  | FCache => waiting_for_clear_cache_ r
  | FNetwork => waiting_for_clear_networking_history_ r
  end.

Definition families r : list family := family_of <$> closures r.

(** The flag of the cache is set, and no closure will clear it: the backend doomed
    its entries at once. *)
Definition lost (f : family) r : Prop :=
  f = FCache /\ waiting_for_clear_cache_ r = true /\ FCache ∉ families r /\
  doom_rv http_cache <> ERR_IO_PENDING.

(** Every flag that is set has exactly one closure that will clear it, but for a
    lost one. *)
Record tracks r : Prop := {
  t_distinct : NoDup (families r);
  t_closures f : f ∈ families r -> flag f r = true;
  t_flags f : flag f r = true -> f ∈ families r \/ lost f r;
  t_cookies : 0 <= waiting_for_clear_cookies_count_ r <= 1;
}.

Lemma AllDone_spec r : AllDone r = true <-> forall f, flag f r = false.
Proof.
  unfold AllDone. split.
  - intros Hd. repeat (apply andb_prop in Hd as [Hd ?]). intros []; simpl;
      first [by apply negb_true_iff | by apply negb_false_iff].
  - intros Hf. pose proof (Hf FHistory). pose proof (Hf FHost). pose proof (Hf FKeyword).
    pose proof (Hf FAutofill). pose proof (Hf FCookies) as Hc. pose proof (Hf FChannel).
    pose proof (Hf FPasswords). pose proof (Hf FForm). pose proof (Hf FCache).
    pose proof (Hf FNetwork). simpl in *. apply negb_false_iff in Hc.
    by repeat (apply andb_true_intro; split); try apply negb_true_iff.
Qed.

Lemma tracks_done r : tracks r -> AllDone r = true -> closures r = [].
Proof.
  intros [_ Hf _ _] Hno. rewrite AllDone_spec in Hno. destruct (closures r) as [| c cs] eqn:Hc; [done |].
  specialize (Hno (family_of c)). assert (flag (family_of c) r = true) by
    (apply Hf; unfold families; rewrite Hc; left). congruence.
Qed.

(** Without a closure, a remover is done or has lost the callback of the cache. *)
Lemma tracks_left_over r : tracks r -> closures r = [] -> AllDone r = true \/ lost FCache r.
Proof.
  intros Ht Hc. destruct (waiting_for_clear_cache_ r) eqn:Hw; [right | left].
  - destruct (t_flags _ Ht FCache Hw) as [Hin | Hl]; [| done].
    unfold families in Hin. rewrite Hc in Hin. by apply elem_of_nil in Hin.
  - apply AllDone_spec. intros f. destruct (flag f r) eqn:E; [| done].
    destruct (t_flags _ Ht f E) as [Hin | (_ & Hl & _)]; [| congruence].
    unfold families in Hin. rewrite Hc in Hin. by apply elem_of_nil in Hin.
Qed.

(** Among the families of [S]. *)
Record within (S : list family) r : Prop := {
  w_distinct : NoDup (families r);
  w_flags f : flag f r = true <-> f ∈ families r;
  w_cookies : 0 <= waiting_for_clear_cookies_count_ r <= 1;
  w_among f : flag f r = true -> f ∈ S;
}.

Lemma within_tracks S r : within S r -> tracks r.
Proof.
  intros [Hd Hf Hk _]. split; try done; intros f Hin; [by apply Hf |]. left. by apply Hf.
Qed.

Lemma within_start S c r r' :
  within S r -> family_of c ∉ S -> closures r' = closures r ++ [c] ->
  (forall f, flag f r' = bool_decide (f = family_of c) || flag f r) ->
  0 <= waiting_for_clear_cookies_count_ r' <= 1 ->
  within (family_of c :: S) r'.
Proof.
  intros [Hd Hf Hk HS] Hnew Hc Hflag Hk'.
  assert (Hfam : families r' = families r ++ [family_of c]).
  { unfold families. by rewrite Hc, fmap_app. }
  assert (Hno : family_of c ∉ families r).
  { intros Hin. apply Hf, HS in Hin. done. }
  split; rewrite ?Hfam; try done.
  - apply NoDup_app. split_and!; [done | | apply NoDup_singleton].
    intros f Hin ->%list_elem_of_singleton. done.
  - intros f. rewrite Hflag, elem_of_app, list_elem_of_singleton, orb_true_iff, bool_decide_eq_true, <- Hf.
    tauto.
  - intros f Hff. rewrite Hflag in Hff. apply orb_true_iff in Hff as [->%bool_decide_eq_true | Hff]; [left |].
    right. by apply HS.
Qed.

Lemma within_same S S' r r' :
  within S r -> S ⊆ S' -> closures r' = closures r -> (forall f, flag f r' = flag f r) ->
  waiting_for_clear_cookies_count_ r' = waiting_for_clear_cookies_count_ r -> within S' r'.
Proof.
  intros [Hd Hf Hk HS] Hsub Hc Hflag Hk'. split.
  - unfold families. by rewrite Hc.
  - intros f. unfold families. rewrite Hflag, Hc. apply Hf.
  - by rewrite Hk'.
  - intros f. rewrite Hflag. intros Hff. by apply Hsub, HS.
Qed.

Lemma within_when S S' b f r :
  within S r -> S ⊆ S' -> (within S r -> within S' (f r)) -> within S' (when b f r).
Proof.
  intros Hw Hsub Hf. destruct b; [by apply Hf |]. simpl. by eapply within_same.
Qed.

Lemma within_effect S e r : within S r -> within S (do_effect e r).
Proof. intros Hw. by eapply within_same. Qed.

(** Something that was started, with what was done before. *)
Ltac started c :=
  let Hw := fresh "Hw" in intros Hw;
  eapply (within_start _ c); [exact Hw | decide_closed | reflexivity | by intros [] |];
  simpl; destruct Hw as [_ _ ? _]; simpl in *; lia.

Definition S_history : list family := [FAutofill; FKeyword; FHost; FHistory].

Lemma remove_history_within r : within [] r -> within S_history (remove_history r).
Proof.
  intros Hw. unfold remove_history. cbv zeta.
  eapply within_when; [| done | intros; by apply within_effect].
  eapply (within_when [FKeyword; FHost; FHistory]); [| decide_closed |].
  2: { intros Hr. eapply (within_when S_history); [revert Hr | done | intros; by apply within_effect].
       started AutofillDB. }
  eapply within_when; [| done | intros; by do 2 apply within_effect].
  match goal with |- context [browser_state_ ?x] => set (r2 := x) end.
  assert (H2 : within [FHost; FHistory] r2).
  { unfold r2. eapply (within_when [FHistory]); [| decide_closed | started ClearHostCache].
    eapply within_when; [exact Hw | decide_closed | started HistoryDeletionDone]. }
  clearbody r2. destruct (IsOffTheRecord _); [eapply within_same; [exact H2 | decide_closed | done ..] |].
  destruct keywords_model as [[|] |]; revert H2; [| started KeywordsLoaded |].
  all: intros Hr; eapply within_same; [exact Hr | decide_closed | done ..].
Qed.

(** Every removal of a fresh remover waits for the networking history at least,
    and for nothing without a closure. *)
Definition fresh r : Prop := closures r = [] /\ forall f, flag f r = false.

Lemma RemoveImpl_tracks mask r :
  fresh r -> tracks (RemoveImpl mask r) /\ closures (RemoveImpl mask r) <> [].
Proof.
  intros [Hc Hf].
  assert (H0 : within [] (r <| remove_mask_ := mask |>)).
  { pose proof (Hf FCookies) as Hk. simpl in Hk. apply negb_false_iff, Z.eqb_eq in Hk.
    split; unfold families; simpl; rewrite ?Hc; simpl.
    - constructor.
    - intros f. change (flag f r = true <-> f ∈ []). rewrite Hf. split; [done | by intros ?%elem_of_nil].
    - lia.
    - intros f. change (flag f r = true -> f ∈ []). by rewrite Hf. }
  unfold RemoveImpl. cbv zeta.
  match goal with |- tracks (clear_networking_history ?x) /\ _ => set (r7 := x) end.
  assert (H7 : within (FCache :: FForm :: FPasswords :: FChannel :: FCookies :: S_history) r7).
  { unfold r7. eapply within_when; [| done | by intros; apply within_effect].
    eapply (within_when (FForm :: FPasswords :: FChannel :: FCookies :: S_history));
      [| decide_closed | unfold remove_cache; started (CacheTask ClearHttpCacheOnIOThread)].
    eapply (within_when (FPasswords :: FChannel :: FCookies :: S_history)); [| decide_closed |].
    2: { intros Hr. unfold remove_form_data. cbv zeta.
         eapply within_when; [exact Hr | decide_closed |]. clear Hr. intros Hr.
         eapply (within_when (FForm :: FPasswords :: FChannel :: FCookies :: S_history));
           [revert Hr; started FormDB | done | by intros; apply within_effect]. }
    eapply (within_when (FChannel :: FCookies :: S_history)); [| decide_closed |].
    2: { intros Hr. eapply within_when; [exact Hr | decide_closed | started ClearedPasswords]. }
    eapply (within_when (FCookies :: S_history)); [| decide_closed |].
    2: { intros Hr. eapply within_when; [exact Hr | decide_closed | started ClearChannelIDsOnIOThread]. }
    eapply (within_when S_history); [| decide_closed |].
    2: { unfold remove_cookies. intros Hr.
         assert (Hz : waiting_for_clear_cookies_count_
                        (when (has_bit mask REMOVE_HISTORY) remove_history (r <| remove_mask_ := mask |>)) = 0).
         { destruct Hr as [_ _ _ Hr]. specialize (Hr FCookies). simpl in Hr.
           destruct (Z.eqb_spec (waiting_for_clear_cookies_count_ (when (has_bit mask REMOVE_HISTORY)
             remove_history (r <| remove_mask_ := mask |>))) 0); [done |]. exfalso.
           specialize (Hr eq_refl). revert Hr. apply (bool_decide_unpack (FCookies ∉ S_history)). by vm_compute. }
         revert Hz Hr. generalize (when (has_bit mask REMOVE_HISTORY) remove_history (r <| remove_mask_ := mask |>)).
         intros r1 Hz Hr. eapply (within_start _ ClearCookiesOnIOThread); [exact Hr | decide_closed | reflexivity | |].
         - intros []; try done. simpl. by rewrite Hz.
         - simpl. rewrite Hz. lia. }
    eapply within_when; [exact H0 | decide_closed | apply remove_history_within]. }
  clearbody r7. split; [| unfold clear_networking_history, start; simpl; by destruct (closures r7)].
  revert H7. unfold clear_networking_history. intros H7.
  eapply within_tracks. refine (within_start _ ClearedNetworkingHistory r7 _ H7 _ _ _ _);
    [decide_closed | reflexivity | by intros [] |]. destruct H7 as [_ _ ? _]. done.
Qed.

(** ** Running a closure *)

(** How many closures it takes until the flag is cleared. *)
Definition closure_measure c : nat :=
  match c with
  | ClearHostCache | AutofillDB | FormDB | ClearedCookiesIO | ClearedChannelIDsOnIOThread => 2
  | ClearCookiesOnIOThread | ClearChannelIDsOnIOThread => 3
  | CacheTask t => task_measure t
  | _ => 1
  end.

Definition left_to_run (cs : list closure) : nat := sum_list_with closure_measure cs.

Lemma closure_measure_pos c : (0 < closure_measure c)%nat.
Proof. destruct c as [| | | | | | | | | | | | | | | [] |]; simpl; lia. Qed.

Lemma left_to_run_delete k c cs :
  cs !! k = Some c -> left_to_run cs = (closure_measure c + left_to_run (delete k cs))%nat.
Proof.
  revert k. induction cs as [| c' cs IH]; intros [| k] Hk; simpl in *; try done.
  - by injection Hk as ->.
  - unfold left_to_run in *. simpl. rewrite (IH k Hk). lia.
Qed.

Lemma fmap_delete {A B} (f : A -> B) (l : list A) k : f <$> delete k l = delete k (f <$> l).
Proof. revert k. induction l as [| x l IH]; intros [| k]; simpl; try done. by rewrite IH. Qed.

Lemma families_delete k c r :
  closures r !! k = Some c -> families r ≡ₚ family_of c :: (family_of <$> delete k (closures r)).
Proof.
  intros Hk. unfold families. rewrite fmap_delete. apply delete_Permutation.
  by rewrite list_lookup_fmap, Hk.
Qed.

Lemma tracks_end k c r r' :
  tracks r -> closures r !! k = Some c -> closures r' = delete k (closures r) ->
  (forall f, flag f r' = flag f r && negb (bool_decide (f = family_of c))) ->
  0 <= waiting_for_clear_cookies_count_ r' <= 1 -> tracks r'.
Proof.
  intros [Hd Hcl Hf _] Hk Hc Hflag Hcook. pose proof (families_delete k c r Hk) as Hp.
  assert (Hfam : families r' = family_of <$> delete k (closures r)) by (unfold families; by rewrite Hc).
  rewrite <- Hfam in Hp. rewrite Hp in Hd. inversion_clear Hd as [| ? ? Hno Hd'].
  split; [done | | | done].
  - intros f Hin. rewrite Hflag, andb_true_iff, negb_true_iff, bool_decide_eq_false.
    split; [apply Hcl; rewrite Hp; by right | by intros ->].
  - intros f. rewrite Hflag, andb_true_iff, negb_true_iff, bool_decide_eq_false. intros [Hff Hne].
    destruct (Hf f Hff) as [Hin | (-> & Hw & Hnin & Hdoom)].
    + rewrite Hp, elem_of_cons in Hin. tauto.
    + right. split_and!; try done; [| rewrite Hp in Hnin; set_solver].
      pose proof (Hflag FCache) as Hw'. simpl in Hw'. rewrite Hw', Hw.
      by rewrite bool_decide_eq_false_2.
Qed.

(** The backend doomed its entries at once. *)
Lemma tracks_lost k t r r' :
  tracks r -> closures r !! k = Some (CacheTask t) -> doom_rv http_cache <> ERR_IO_PENDING ->
  closures r' = delete k (closures r) -> (forall f, flag f r' = flag f r) ->
  waiting_for_clear_cookies_count_ r' = waiting_for_clear_cookies_count_ r -> tracks r'.
Proof.
  intros [Hd Hcl Hf Hcook] Hk Hdoom Hc Hflag Hcc. pose proof (families_delete k _ r Hk) as Hp.
  assert (Hfam : families r' = family_of <$> delete k (closures r)) by (unfold families; by rewrite Hc).
  rewrite <- Hfam in Hp. rewrite Hp in Hd. inversion_clear Hd as [| ? ? Hno Hd']. simpl in *.
  assert (Hset : flag FCache r = true) by (apply Hcl; rewrite Hp; left).
  split; [done | | | by rewrite Hcc].
  - intros f Hin. rewrite Hflag. apply Hcl. rewrite Hp. by right.
  - intros f. rewrite Hflag. intros Hff. destruct (decide (f = FCache)) as [-> | Hne].
    + right. split_and!; try done. pose proof (Hflag FCache) as Hw. simpl in Hw, Hset. congruence.
    + left. destruct (Hf f Hff) as [Hin | [-> _]]; [| done]. rewrite Hp, elem_of_cons in Hin. tauto.
Qed.

Lemma tracks_continue k c c' r r' :
  tracks r -> closures r !! k = Some c -> closures r' = delete k (closures r) ++ [c'] ->
  family_of c' = family_of c -> (forall f, flag f r' = flag f r) ->
  waiting_for_clear_cookies_count_ r' = waiting_for_clear_cookies_count_ r -> tracks r'.
Proof.
  intros [Hd Hcl Hf Hcook] Hk Hc Hfc Hflag Hcc. pose proof (families_delete k c r Hk) as Hp.
  assert (Hfam : families r' ≡ₚ families r).
  { rewrite Hp. unfold families. rewrite Hc, fmap_app.
    change (family_of <$> [c']) with [family_of c']. rewrite Hfc.
    by rewrite <- Permutation_cons_append. }
  assert (Hin : forall f, f ∈ families r' <-> f ∈ families r) by (intros f; by rewrite Hfam).
  split; [by rewrite Hfam | | | by rewrite Hcc]; intros f; rewrite Hflag; [rewrite Hin; apply Hcl |].
  intros [? | (-> & Hw & Hnin & Hdoom)]%Hf; [left; by apply Hin | right].
  split_and!; [done | | by rewrite Hin | done]. pose proof (Hflag FCache) as Hw'. simpl in Hw'. congruence.
Qed.

Lemma run_closure_tracks k c r :
  tracks r -> closures r !! k = Some c ->
  exists r' ends, run_closure c (r <| closures := delete k (closures r) |>) = Ok (r', ends) /\
    tracks r' /\ (left_to_run (closures r') < left_to_run (closures r))%nat /\
    (ends = false -> closures r' <> [] \/ lost FCache r') /\ browser_state_ r' = browser_state_ r.
Proof.
  intros Ht Hk. pose proof (left_to_run_delete k c _ Hk) as Hleft.
  pose proof (closure_measure_pos c) as Hpos.
  assert (Hcookies : family_of c = FCookies -> waiting_for_clear_cookies_count_ r = 1).
  { intros Hfc. assert (Hin : flag FCookies r = true).
    { apply (t_closures _ Ht). rewrite <- Hfc. unfold families. apply list_elem_of_fmap_2.
      by apply list_elem_of_lookup_2 in Hk. }
    simpl in Hin. apply negb_true_iff, Z.eqb_neq in Hin. pose proof (t_cookies _ Ht). lia. }
  assert (Hend : forall r', closures r' = delete k (closures r) -> browser_state_ r' = browser_state_ r ->
    (forall f, flag f r' = flag f r && negb (bool_decide (f = family_of c))) ->
    0 <= waiting_for_clear_cookies_count_ r' <= 1 ->
    run_closure c (r <| closures := delete k (closures r) |>) = Ok (r', true) ->
    exists r' ends, run_closure c (r <| closures := delete k (closures r) |>) = Ok (r', ends) /\
      tracks r' /\ (left_to_run (closures r') < left_to_run (closures r))%nat /\
      (ends = false -> closures r' <> [] \/ lost FCache r') /\ browser_state_ r' = browser_state_ r).
  { intros r' Hc Hb Hflag Hcook Hrun. exists r', true. split_and!; try done.
    - by eapply tracks_end.
    - rewrite Hc. lia. }
  assert (Hcont : forall c' r', closures r' = delete k (closures r) ++ [c'] ->
    browser_state_ r' = browser_state_ r -> family_of c' = family_of c ->
    (forall f, flag f r' = flag f r) ->
    waiting_for_clear_cookies_count_ r' = waiting_for_clear_cookies_count_ r ->
    (closure_measure c' < closure_measure c)%nat ->
    run_closure c (r <| closures := delete k (closures r) |>) = Ok (r', false) ->
    exists r' ends, run_closure c (r <| closures := delete k (closures r) |>) = Ok (r', ends) /\
      tracks r' /\ (left_to_run (closures r') < left_to_run (closures r))%nat /\
      (ends = false -> closures r' <> [] \/ lost FCache r') /\ browser_state_ r' = browser_state_ r).
  { intros c' r' Hc Hb Hfc Hflag Hcook Hm Hrun. exists r', false. split_and!; try done.
    - by eapply tracks_continue.
    - rewrite Hc. unfold left_to_run in *. rewrite sum_list_with_app. simpl. lia.
    - rewrite Hc. intros _. left. by destruct (delete k (closures r)). }
  pose proof (t_cookies _ Ht) as Hrange.
  destruct c; cbn [run_closure] in *;
    try (eapply Hend; [| | | | reflexivity]; [reflexivity .. | intros []; simpl; by rewrite ?andb_true_r, ?andb_false_r | done]);
    try (eapply Hcont; [| | | | | | reflexivity]; first [reflexivity | by intros [] | simpl; lia]).
  - specialize (Hcookies eq_refl).
    change (waiting_for_clear_cookies_count_ (r <| closures := _ |>)) with
      (waiting_for_clear_cookies_count_ r) in *.
    rewrite Hcookies in *. eapply Hend; [| | | | reflexivity]; try reflexivity.
    + intros []; simpl; rewrite ?Hcookies; simpl; by rewrite ?andb_true_r.
    + done.
  - assert (Hcases : (exists error, t = ClientCallback error) \/
                     ~ exists error, t = ClientCallback error).
    { destruct t; [right | right | right | left]; [by intros [? ?] .. | by eexists]. }
    destruct Hcases as [[error ->] | Hno].
    + eapply Hend; [| | | | reflexivity]; try reflexivity; [| done].
      intros []; simpl; by rewrite ?andb_true_r, ?andb_false_r.
    + assert (Heq : forall A (x y : A), match t with ClientCallback _ => x | _ => y end = y).
      { intros A x y. destruct t; try done. exfalso. apply Hno. by eexists. }
      change (delete_begin_ (r <| closures := _ |>)) with (delete_begin_ r) in *.
      change (delete_end_ (r <| closures := _ |>)) with (delete_end_ r) in *.
      pose proof (cache_task_next http_cache (delete_begin_ r) (delete_end_ r) t) as Hnext.
      destruct (run_cache_task http_cache (delete_begin_ r) (delete_end_ r) t) as [es ts].
      simpl in Hnext. rewrite !Heq in *.
      destruct Hnext as [(t' & -> & Hm) | [-> Hdoom]];
        [intros error ->; apply Hno; by eexists | |].
      * eapply (Hcont (CacheTask t')); [| | | | | | reflexivity]; try reflexivity; exact Hm.
      * eexists _, false. split; [reflexivity |].
        match goal with |- tracks ?x /\ _ => set (r' := x) end.
        assert (Hc' : closures r' = delete k (closures r)) by apply app_nil_r.
        assert (Ht' : tracks r') by by apply (tracks_lost k t r).
        split_and!; [done | rewrite Hc'; lia | intros _; right | done].
        destruct (t_flags _ Ht' FCache) as [Hin | Hl]; [| | done].
        -- apply (t_closures _ Ht FCache). unfold families. apply list_elem_of_fmap.
           exists (CacheTask t). split; [done |]. by apply list_elem_of_lookup_2 in Hk.
        -- exfalso. pose proof (families_delete k _ r Hk) as Hp. pose proof (t_distinct _ Ht) as Hd.
           rewrite Hp in Hd. inversion_clear Hd as [| ? ? Hnin _]. apply Hnin.
           unfold families in Hin. by rewrite Hc' in Hin.
Qed.

(** The cache is waited for only when it is asked for. *)
Lemma RemoveImpl_cache mask r :
  waiting_for_clear_cache_ r = false ->
  waiting_for_clear_cache_ (RemoveImpl mask r) = true -> has_bit mask REMOVE_CACHE = true.
Proof.
  intros Hr. destruct (has_bit mask REMOVE_CACHE) eqn:Hbit; [done |].
  assert (Hh : forall r, waiting_for_clear_cache_ (remove_history r) = waiting_for_clear_cache_ r).
  { intros r'. unfold remove_history. destruct has_history_service, has_io_thread, has_tab_service,
      has_web_data_service, has_data_manager, has_language_model, keywords_model as [[] |]; simpl;
      by destruct (IsOffTheRecord _). }
  unfold RemoveImpl. rewrite Hbit.
  destruct (has_bit mask REMOVE_HISTORY), (has_bit mask REMOVE_COOKIES),
    (has_bit mask REMOVE_CHANNEL_IDS), (has_bit mask REMOVE_PASSWORDS),
    (has_bit mask REMOVE_FORM_DATA), (has_bit mask (Z.lor REMOVE_CACHE REMOVE_COOKIES)); simpl;
    unfold remove_channel_ids, remove_passwords, remove_form_data;
    destruct has_request_context, has_password_store, has_web_data_service, has_data_manager; simpl;
    rewrite ?Hh; simpl; congruence.
Qed.

Lemma run_closure_cache c r r' ends :
  run_closure c r = Ok (r', ends) -> waiting_for_clear_cache_ r' = true -> waiting_for_clear_cache_ r = true.
Proof.
  intros Hrun. destruct c; cbn [run_closure] in Hrun;
    try (injection Hrun as <- _; done); try (run_inv Hrun; simpl; done).
  destruct t; try (destruct (run_cache_task http_cache _ _ _); by injection Hrun as <- _).
  by injection Hrun as <- _.
Qed.

(** ** What a remover does in the end *)

(** What the closure and those it leads to will do. *)
Definition doomed (begin_ end_ : Z) (backend : bool) : list cache_effect :=
  if backend then [EntriesDoomed begin_ end_] else [].

Definition cache_will (begin_ end_ : Z) (t : cache_task) : list cache_effect :=
  match t with
  | ClearHttpCacheOnIOThread =>
      (QuicCleared :: if has_sdch_manager http_cache then [SdchCleared] else []) ++
      doomed begin_ end_ (if backend_rv http_cache =? ERR_IO_PENDING
                          then (later_backend http_cache).2 else backend_now http_cache)
  | DoomHttpCache backend _ => doomed begin_ end_ backend
  | PostCallback _ | ClientCallback _ => []
  end.

Definition will_do (begin_ end_ : Z) c : list effect :=
  match c with
  | ClearHostCache => [HostCacheCleared]
  | KeywordsLoaded => [AutoGeneratedRemoved begin_ end_]
  | ClearCookiesOnIOThread => [CookiesDeleted begin_ end_]
  | ClearChannelIDsOnIOThread => [ChannelIDsDeleted begin_ end_; SSLConfigChanged]
  | ClearedChannelIDsOnIOThread => [SSLConfigChanged]
  | CacheTask t => CacheEffect <$> cache_will begin_ end_ t
  | _ => []
  end.

(** What is done, and what is still to be done. *)
Definition promise r : list effect :=
  effects r ++ (closures r ≫= will_do (delete_begin_ r) (delete_end_ r)).

Lemma bind_delete k c cs (f : closure -> list effect) :
  cs !! k = Some c -> cs ≫= f ≡ₚ f c ++ (delete k cs ≫= f).
Proof.
  intros Hk. by rewrite (delete_Permutation cs k c Hk) at 1.
Qed.

Lemma cache_task_will begin_ end_ t :
  cache_will begin_ end_ t ≡ₚ
    (run_cache_task http_cache begin_ end_ t).1 ++
    ((run_cache_task http_cache begin_ end_ t).2 ≫= cache_will begin_ end_).
Proof.
  destruct t as [| [|] error | error | error]; simpl; unfold doom, doomed; try done.
  - destruct (backend_rv http_cache =? ERR_IO_PENDING); simpl.
    + by rewrite app_nil_r.
    + destruct (backend_now http_cache); simpl; [destruct (doom_rv http_cache =? ERR_IO_PENDING) |];
        simpl; by rewrite ?app_nil_r.
  - by destruct (doom_rv http_cache =? ERR_IO_PENDING).
Qed.

Lemma bind_fmap_cache begin_ end_ ts :
  (CacheTask <$> ts) ≫= will_do begin_ end_ = CacheEffect <$> (ts ≫= cache_will begin_ end_).
Proof. induction ts as [| t ts IH]; [done |]. by rewrite fmap_cons, !bind_cons, fmap_app, IH. Qed.

Lemma run_closure_promise k c r r' ends :
  closures r !! k = Some c ->
  run_closure c (r <| closures := delete k (closures r) |>) = Ok (r', ends) ->
  promise r' ≡ₚ promise r /\ delete_begin_ r' = delete_begin_ r /\ delete_end_ r' = delete_end_ r.
Proof.
  intros Hk Hrun. unfold promise.
  rewrite (bind_delete k c (closures r) (will_do (delete_begin_ r) (delete_end_ r)) Hk).
  assert (Hnext : forall e1 c', (effects r ++ e1) ++
      ((delete k (closures r) ++ [c']) ≫= will_do (delete_begin_ r) (delete_end_ r)) ≡ₚ
      effects r ++ (e1 ++ will_do (delete_begin_ r) (delete_end_ r) c') ++
      (delete k (closures r) ≫= will_do (delete_begin_ r) (delete_end_ r))).
  { intros e1 c'. rewrite bind_app. simpl. rewrite app_nil_r, <- !app_assoc.
    do 2 f_equiv. by rewrite Permutation_app_comm. }
  assert (Hnext0 : forall c', effects r ++
      ((delete k (closures r) ++ [c']) ≫= will_do (delete_begin_ r) (delete_end_ r)) ≡ₚ
      effects r ++ will_do (delete_begin_ r) (delete_end_ r) c' ++
      (delete k (closures r) ≫= will_do (delete_begin_ r) (delete_end_ r))).
  { intros c'. pose proof (Hnext [] c') as Hn. by rewrite app_nil_r in Hn. }
  destruct c; cbn [run_closure] in Hrun; try (run_inv Hrun; simpl; rewrite ?app_nil_r; done);
    try (injection Hrun as <- _; split; [| done]; unfold start, do_effect; simpl;
         first [apply Hnext0 | rewrite <- app_assoc; simpl; reflexivity
               | setoid_rewrite (Hnext [_]); reflexivity]).
  assert (Hcache : forall es ts, run_cache_task http_cache (delete_begin_ r) (delete_end_ r) t = (es, ts) ->
    effects r ++ (CacheEffect <$> es) ++
      ((delete k (closures r) ++ (CacheTask <$> ts)) ≫= will_do (delete_begin_ r) (delete_end_ r)) ≡ₚ
    effects r ++ (CacheEffect <$> cache_will (delete_begin_ r) (delete_end_ r) t) ++
      (delete k (closures r) ≫= will_do (delete_begin_ r) (delete_end_ r))).
  { intros es ts Ht. rewrite (cache_task_will _ _ t), Ht. simpl.
    rewrite bind_app, bind_fmap_cache, fmap_app, <- app_assoc. do 2 f_equiv. apply Permutation_app_comm. }
  destruct t as [| backend error | error | error];
    try (destruct (run_cache_task http_cache _ _ _) as [es ts] eqn:Ht in Hrun;
         injection Hrun as <- _; split; [| done]; simpl; rewrite <- app_assoc; by apply Hcache).
  injection Hrun as <- _. by split.
Qed.

(** ** The map of pending removals *)
Definition pending_map := list (nat * BrowsingDataRemovalInfo).

Implicit Types (m : pending_map) (i : BrowsingDataRemovalInfo).

Fixpoint sorted m : Prop :=
  match m with
  | [] => True
  | (k, _) :: m => Forall (fun e => (k < e.1)%nat) m /\ sorted m
  end.

Definition all_callbacks m : list nat := m ≫= (fun e => callbacks e.2).

Lemma map_set_Forall (P : nat * BrowsingDataRemovalInfo -> Prop) k i m :
  Forall P m -> P (k, i) -> Forall P (map_set k i m).
Proof.
  intros Hm Hk. induction m as [| [k' i'] m IH]; simpl; [by constructor |].
  inversion_clear Hm. destruct (k =? k')%nat; [by constructor |].
  destruct (k <? k')%nat; constructor; try done; [by constructor | by apply IH].
Qed.

Lemma map_set_sorted k i m : sorted m -> sorted (map_set k i m).
Proof.
  induction m as [| [k' i'] m IH]; simpl; [done |]. intros [Hk Hm].
  destruct (Nat.eqb_spec k k') as [-> | Hne]; [done |]. destruct (Nat.ltb_spec k k').
  - split; [| done]. constructor; [done |]. eapply Forall_impl; [exact Hk |]. simpl. intros e He. lia.
  - split; [| by apply IH]. apply map_set_Forall; [done | simpl; lia].
Qed.

Lemma map_find_elem k i m : map_find k m = Some i -> (k, i) ∈ m.
Proof.
  induction m as [| [k' i'] m IH]; simpl; [done |].
  destruct (Nat.eqb_spec k k') as [-> | Hne]; [intros [= ->]; left | intros Hf; right; by apply IH].
Qed.

Lemma map_find_below k k' m :
  Forall (fun e => (k' < e.1)%nat) m -> (k <= k')%nat -> map_find k m = None.
Proof.
  intros Hm Hk. induction Hm as [| [k2 i2] m Hk2 _ IH]; simpl; [done |]. simpl in Hk2.
  destruct (Nat.eqb_spec k k2); [lia | done].
Qed.

(** Registering one more callback for a browser state. *)
Definition registered k mask period callback m : BrowsingDataRemovalInfo :=
  match map_find k m with
  | None => info_new mask period callback
  | Some i => info_merge mask callback i
  end.

Lemma registered_callbacks k mask period callback m :
  sorted m ->
  all_callbacks (map_set k (registered k mask period callback m) m) ≡ₚ all_callbacks m ++ [callback].
Proof.
  unfold all_callbacks, registered. induction m as [| [k' i'] m IH]; simpl; [done |]. intros [Hk Hm].
  destruct (Nat.eqb_spec k k') as [-> | Hne].
  - rewrite !bind_cons. simpl. rewrite <- !app_assoc. f_equiv. apply Permutation_app_comm.
  - destruct (Nat.ltb_spec k k').
    + rewrite (map_find_below k k') by (done || lia). rewrite !bind_cons. simpl.
      apply Permutation_cons_append.
    + rewrite !bind_cons, IH by done. by rewrite app_assoc.
Qed.

(** ** What a removal does to the data *)
Definition asked_history (browser_state : nat) (b e : Z) : list effect :=
  (if has_history_service then [HistoryExpired b e] else []) ++
  (if has_io_thread then [HostCacheCleared] else []) ++
  (if IsOffTheRecord browser_state then []
   else match keywords_model with Some _ => [AutoGeneratedRemoved b e] | None => [] end) ++
  (if has_tab_service then [TabEntriesCleared; LastSessionDeleted] else []) ++
  (if has_web_data_service
   then OriginURLsRemoved b e :: (if has_data_manager then [PersonalDataRefreshed] else [])
   else []) ++
  (if has_language_model then [LanguageHistoryCleared b e] else []).

Definition asked_form (b e : Z) : list effect :=
  if has_web_data_service
  then FormElementsRemoved b e :: AutofillDataRemoved b e ::
       (if has_data_manager then [PersonalDataRefreshed] else [])
  else [].

(** The data that [mask] names, over the range of time. *)
Definition asked (browser_state : nat) (mask b e : Z) : list effect :=
  let only bit (l : list effect) := if has_bit mask bit then l else [] in
  only REMOVE_HISTORY (asked_history browser_state b e) ++
  only REMOVE_COOKIES [CookiesDeleted b e] ++
  only REMOVE_CHANNEL_IDS
    (if has_request_context then [ChannelIDsDeleted b e; SSLConfigChanged] else []) ++
  only REMOVE_PASSWORDS (if has_password_store then [LoginsRemoved b e] else []) ++
  only REMOVE_FORM_DATA (asked_form b e) ++
  only REMOVE_CACHE (CacheEffect <$> cache_will b e ClearHttpCacheOnIOThread) ++
  only (Z.lor REMOVE_CACHE REMOVE_COOKIES) [ZeroSuggestCleared] ++
  [NetworkingHistoryCleared b].

(** A step of [RemoveImpl] promises what it names, and leaves the rest of the
    remover's promise. *)
Record adds (l : list effect) r r' : Prop := {
  adds_promise : promise r' ≡ₚ promise r ++ l;
  adds_begin : delete_begin_ r' = delete_begin_ r;
  adds_end : delete_end_ r' = delete_end_ r;
  adds_state : browser_state_ r' = browser_state_ r;
}.

Lemma adds_trans l1 l2 r r1 r2 : adds l1 r r1 -> adds l2 r1 r2 -> adds (l1 ++ l2) r r2.
Proof.
  intros [Hp1 Hb1 He1 Hs1] [Hp2 Hb2 He2 Hs2].
  split; [by rewrite Hp2, Hp1, app_assoc | congruence ..].
Qed.

Lemma adds_flags r r' :
  effects r' = effects r -> closures r' = closures r -> delete_begin_ r' = delete_begin_ r ->
  delete_end_ r' = delete_end_ r -> browser_state_ r' = browser_state_ r -> adds [] r r'.
Proof.
  intros Hx Hc Hb He Hs. split; [| done ..]. unfold promise. by rewrite Hx, Hc, Hb, He, app_nil_r.
Qed.

Lemma adds_effect e r : adds [e] r (do_effect e r).
Proof.
  split; [| done ..]. unfold promise, do_effect. simpl. rewrite <- !app_assoc. f_equiv.
  apply Permutation_app_comm.
Qed.

Lemma adds_start c r : adds (will_do (delete_begin_ r) (delete_end_ r) c) r (start c r).
Proof.
  split; [| done ..]. unfold promise, start. simpl. rewrite bind_app. simpl.
  by rewrite app_nil_r, app_assoc.
Qed.

Lemma adds_when (bit : bool) (l : list effect) (f : Remover -> Remover) r :
  adds l r (f r) -> adds (if bit then l else []) r (when bit f r).
Proof. destruct bit; [done |]. intros _. by apply adds_flags. Qed.

Section stages.
Context (b e : Z) (k : nat).

(** The remover removes the range of time from [b] to [e], of [k]. *)
Definition removes r : Prop := delete_begin_ r = b /\ delete_end_ r = e /\ browser_state_ r = k.

(** A step from such a remover. *)
Definition stage (l : list effect) r r' : Prop := removes r -> adds l r r'.

Lemma stage_trans l1 l2 r r1 r2 : stage l1 r r1 -> stage l2 r1 r2 -> stage (l1 ++ l2) r r2.
Proof.
  intros H1 H2 Hr. pose proof (H1 Hr) as Ha. eapply adds_trans; [exact Ha |]. apply H2.
  destruct Ha as [_ Hb He Hs]. unfold removes in *. by rewrite Hb, He, Hs.
Qed.

Lemma stage_flags r r' :
  effects r' = effects r -> closures r' = closures r -> delete_begin_ r' = delete_begin_ r ->
  delete_end_ r' = delete_end_ r -> browser_state_ r' = browser_state_ r -> stage [] r r'.
Proof. intros ????? _. by apply adds_flags. Qed.

Lemma stage_effect x r : stage [x] r (do_effect x r).
Proof. intros _. apply adds_effect. Qed.

Lemma stage_start c r : stage (will_do b e c) r (start c r).
Proof. intros (<- & <- & _). apply adds_start. Qed.

Lemma stage_when (bit : bool) (l : list effect) (f : Remover -> Remover) r :
  stage l r (f r) -> stage (if bit then l else []) r (when bit f r).
Proof. intros Hs Hr. apply adds_when. by apply Hs. Qed.

(** With the flag that a step sets before it. *)
Lemma stage_after r0 l r r' :
  stage [] r0 r -> stage l r r' -> stage l r0 r'.
Proof. intros H1 H2. exact (stage_trans [] l r0 r r' H1 H2). Qed.

Lemma stage_flagged_start r0 c r :
  stage [] r0 r -> stage (will_do b e c) r0 (start c r).
Proof. intros Hf. eapply stage_after; [exact Hf | apply stage_start]. Qed.

(** The flag is set, something is done, and a closure comes back that does no
    more. *)
Lemma stage_done_start r0 x c r :
  stage [] r0 r -> will_do b e c = [] -> stage [x] r0 (start c (do_effect x r)).
Proof.
  intros Hf Hc. eapply stage_after; [exact Hf |]. eapply (stage_trans [x] []); [apply stage_effect |].
  rewrite <- Hc. apply stage_start.
Qed.

Ltac flags := apply stage_flags; reflexivity.

Lemma remove_history_adds r : stage (asked_history k b e) r (remove_history r).
Proof.
  intros Hr. pose proof Hr as (Hb & He & Hs). revert Hr.
  change (stage (asked_history k b e) r (remove_history r)).
  unfold remove_history, asked_history. cbv zeta. rewrite Hb, He, !app_assoc.
  eapply stage_trans; [| apply stage_when, stage_effect].
  eapply stage_trans; [| apply stage_when].
  2: { eapply (stage_trans [_]); [| apply stage_when, stage_effect].
       apply stage_done_start; [flags | reflexivity]. }
  eapply stage_trans; [| apply stage_when; eapply (stage_trans [_] [_]); [| apply stage_effect];
                         apply stage_effect].
  eapply stage_trans.
  2: { match goal with |- stage _ ?r1 (if IsOffTheRecord (browser_state_ ?x) then _ else _) =>
         unify r1 x; generalize x end.
       intros r2 Hr2. pose proof Hr2 as (_ & _ & Hs2). rewrite Hs2.
       destruct (IsOffTheRecord k); [by apply adds_flags |].
       destruct keywords_model as [[|] |]; [apply adds_effect | | by apply adds_flags].
       revert Hr2. change (stage [AutoGeneratedRemoved b e] r2
         (start KeywordsLoaded r2 <| waiting_for_clear_keyword_data_ := true |>)).
       eapply (stage_trans [_] []); [apply (stage_start KeywordsLoaded) | flags]. }
  eapply stage_trans; [| apply stage_when, (stage_flagged_start _ ClearHostCache); flags].
  apply stage_when, stage_done_start; [flags | reflexivity].
Qed.

Lemma remove_form_data_adds r : stage (asked_form b e) r (remove_form_data r).
Proof.
  intros Hr. pose proof Hr as (Hb & He & _). revert Hr.
  change (stage (asked_form b e) r (remove_form_data r)).
  unfold remove_form_data. cbv zeta. rewrite Hb, He. apply stage_when.
  eapply (stage_trans [_; _]); [| apply stage_when, stage_effect].
  eapply (stage_trans [_; _] []); [| apply (stage_start FormDB)].
  eapply (stage_trans [_] [_]); [| apply stage_effect].
  eapply stage_after; [| apply stage_effect]. flags.
Qed.

Lemma remove_passwords_adds r :
  stage (if has_password_store then [LoginsRemoved b e] else []) r (remove_passwords r).
Proof.
  intros Hr. pose proof Hr as (Hb & He & _). revert Hr.
  change (stage (if has_password_store then [LoginsRemoved b e] else []) r (remove_passwords r)).
  unfold remove_passwords. apply stage_when. rewrite Hb, He.
  apply stage_done_start; [flags | reflexivity].
Qed.

Lemma clear_networking_history_adds r :
  stage [NetworkingHistoryCleared b] r (clear_networking_history r).
Proof.
  intros Hr. pose proof Hr as (Hb & _). revert Hr.
  change (stage [NetworkingHistoryCleared b] r (clear_networking_history r)).
  unfold clear_networking_history. rewrite Hb. apply stage_done_start; [flags | reflexivity].
Qed.

Lemma RemoveImpl_adds mask r : stage (asked k mask b e) r (RemoveImpl mask r).
Proof.
  unfold RemoveImpl, asked. cbv zeta. rewrite !app_assoc.
  eapply stage_trans; [| apply clear_networking_history_adds].
  eapply stage_trans; [| apply stage_when, stage_effect].
  eapply stage_trans; [| apply stage_when, (stage_flagged_start _ (CacheTask _)); flags].
  eapply stage_trans; [| apply stage_when, remove_form_data_adds].
  eapply stage_trans; [| apply stage_when, remove_passwords_adds].
  eapply stage_trans;
    [| apply stage_when, stage_when, (stage_flagged_start _ ClearChannelIDsOnIOThread); flags].
  eapply stage_trans; [| apply stage_when, (stage_flagged_start _ ClearCookiesOnIOThread); flags].
  eapply stage_after; [| apply stage_when, remove_history_adds]. flags.
Qed.
End stages.


(** ** How long a removal takes *)
Definition family_weight (f : family) : nat :=
  match f with
  | FHistory | FKeyword | FPasswords | FNetwork => 1
  | FHost | FAutofill | FForm => 2
  | FCookies | FChannel => 3
  | FCache => 4
  end.

Definition all_families : list family :=
  [FHistory; FHost; FKeyword; FAutofill; FCookies; FChannel; FPasswords; FForm; FCache; FNetwork].

(** No remover has more than this many closures to run. *)
Definition kMostToRun : nat := 20.

Lemma weight_submseteq (l l' : list family) :
  l ⊆+ l' -> (sum_list_with family_weight l <= sum_list_with family_weight l')%nat.
Proof. induction 1; simpl in *; lia. Qed.

Lemma tracks_left r : tracks r -> (left_to_run (closures r) <= kMostToRun)%nat.
Proof.
  intros [Hd _ _].
  assert (Hsub : families r ⊆+ all_families).
  { apply NoDup_submseteq; [done |]. intros [] _; unfold all_families; set_solver. }
  apply weight_submseteq in Hsub. unfold kMostToRun.
  change (sum_list_with family_weight all_families) with 20%nat in Hsub.
  unfold families in *. clear Hd. unfold left_to_run.
  enough (forall cs, (sum_list_with closure_measure cs <=
                      sum_list_with family_weight (family_of <$> cs))%nat) as Hle
    by (specialize (Hle (closures r)); lia).
  intros cs. induction cs as [| c cs IH]; [done |]. rewrite fmap_cons. cbn [sum_list_with].
  assert (closure_measure c <= family_weight (family_of c))%nat
    by (destruct c as [| | | | | | | | | | | | | | | [] |]; simpl; lia).
  lia.
Qed.

(** ** The invariant of the helper *)
Definition asked_info (k : nat) i : list effect :=
  asked k (remove_mask i) (CalculateBeginDeleteTime (time_period i)) Time_Max.

Definition request : Type := nat * Z * TimePeriod * nat.

Definition callback_of (q : request) : nat := q.2.

(** Each callback comes from a request for the same browser state, all of whose
    data the removal removes. *)
Definition covered (reqs : list request) (k : nat) i : Prop :=
  forall cb, cb ∈ callbacks i ->
    exists mask period, (k, mask, period, cb) ∈ reqs /\ Z.lor (remove_mask i) mask = remove_mask i.

Definition current w : pending_map :=
  match remover w, current_removal_info_ w with
  | Some r, Some i => [(browser_state_ r, i)]
  | _, _ => []
  end.

Record idle w : Prop := {
  i_remover : remover w = None;
  i_removing : is_removing_ w = false;
  i_current : current_remover_ w = false;
  i_info : current_removal_info_ w = None;
  i_pending : pending_removals_ w = [];
}.

Record busy w r i : Prop := {
  b_remover : remover w = Some r;
  b_removing : is_removing_ w = true;
  b_current : current_remover_ w = true;
  b_info : current_removal_info_ w = Some i;
  b_tracks : tracks r;
  b_closures : closures r <> [] \/ lost FCache r;
  b_cache : waiting_for_clear_cache_ r = true -> has_bit (remove_mask i) REMOVE_CACHE = true;
  b_promise : promise r ≡ₚ asked_info (browser_state_ r) i;
}.

Record accounted (reqs : list request) w : Prop := {
  a_sorted : sorted (pending_removals_ w);
  a_covered : Forall (fun e => covered reqs e.1 e.2) (current w ++ pending_removals_ w);
  a_finished : Forall (fun '(k, i, done) => covered reqs k i /\ done ≡ₚ asked_info k i) (finished w);
  a_ran : ran w = finished w ≫= (fun '(_, i, _) => callbacks i);
  a_callbacks : ran w ++ all_callbacks (current w ++ pending_removals_ w) ≡ₚ callback_of <$> reqs;
}.

Definition good (reqs : list request) w : Prop :=
  accounted reqs w /\ (idle w \/ exists r i, busy w r i).

(** The end of a removal, before the next one. *)
Definition after_removal r i w : World :=
  {| is_removing_ := false; remover := None; current_remover_ := false;
     current_removal_info_ := None; pending_removals_ := pending_removals_ w;
     ran := ran w ++ callbacks i;
     finished := finished w ++ [(browser_state_ r, i, effects r)] |}.

(** The end of time is not the null time. *)
Context (end_of_time : Time_Max <> 0).

(** The callbacks ask for no other removal. *)
Definition asks_nothing (cs : list nat) : Prop := forall cb, cb ∈ cs -> on_run cb = None.

Lemma run_callbacks_ok cs w :
  asks_nothing cs -> current_remover_ w = false ->
  run_callbacks cs w = Ok (w <| ran := ran w ++ cs |>).
Proof.
  revert w. induction cs as [| cb cs IH]; intros w Hno Hw; cbn [run_callbacks].
  - rewrite app_nil_r. by destruct w.
  - rewrite Hw. unfold run_callback. rewrite Hno by left.
    assert (Hcs : asks_nothing cs) by (intros cb' Hin; apply Hno; by right). cbn [negb dcheck mbind chk_bind mret chk_ret].
    rewrite IH by done. simpl. by rewrite <- app_assoc.
Qed.

Definition begin_next w : chk World :=
  match pending_removals_ w with
  | [] => Ok w
  | (k, i) :: rest => DoRemove k i (w <| pending_removals_ := rest |>)
  end.

Lemma NotifyAndDelete_ok r i w :
  asks_nothing (callbacks i) ->
  is_removing_ w = true -> current_removal_info_ w = Some i -> AllDone r = true ->
  NotifyAndDelete r w = begin_next (after_removal r i w).
Proof.
  intros Hno Hrem Hinfo Hdone. unfold NotifyAndDelete, set_removing. rewrite Hrem, Hdone.
  cbn [Bool.eqb negb dcheck mbind chk_bind mret chk_ret].
  change (current_removal_info_ (w <| is_removing_ := false |>)) with (current_removal_info_ w).
  rewrite Hinfo. unfold OnIOSChromeBrowsingDataRemoverDone. simpl. rewrite Hinfo.
  cbn [deref mbind chk_bind]. rewrite run_callbacks_ok by done. unfold begin_next.
  cbn [mbind chk_bind]. simpl. by destruct (pending_removals_ w) as [| [k i'] rest].
Qed.

Lemma CreateForPeriod_ok k period :
  exists r, CreateForPeriod k period = Ok r /\ fresh r /\ effects r = [] /\
    removes (CalculateBeginDeleteTime period) Time_Max k r.
Proof.
  unfold CreateForPeriod, Remover_new. destruct (Z.eqb_spec Time_Max 0); [done |].
  eexists. split; [reflexivity |]. by repeat split; try intros [].
Qed.

Lemma DoRemove_ok k i w :
  current_remover_ w = false -> is_removing_ w = false ->
  exists r w', DoRemove k i w = Ok w' /\ busy w' r i /\ browser_state_ r = k /\
    pending_removals_ w' = pending_removals_ w /\ ran w' = ran w /\ finished w' = finished w.
Proof.
  intros Hc Hr. destruct (CreateForPeriod_ok k (time_period i)) as (r & Hnew & Hfresh & Hx & Hrem).
  destruct (RemoveImpl_adds _ _ _ (remove_mask i) r Hrem) as [Hp _ _ Hs].
  destruct (RemoveImpl_tracks (remove_mask i) r Hfresh) as [Ht Hcl].
  pose proof (RemoveImpl_cache (remove_mask i) r (proj2 Hfresh FCache)) as Hcache.
  destruct Hrem as (_ & _ & Hk). rewrite Hk in Hs.
  eassert (Hdo : DoRemove k i w = Ok _).
  { unfold DoRemove, Remove_by_remover, set_removing. rewrite Hc, Hr, Hnew.
    cbn [Bool.eqb negb andb dcheck mbind chk_bind mret chk_ret]. simpl. rewrite Hr. reflexivity. }
  eexists _, _. split; [exact Hdo |]. split_and!; [split; simpl; try done | done ..]; [by left |].
  rewrite Hs, Hp. unfold promise. destruct Hfresh as [-> _]. by rewrite Hx.
Qed.
(** ** Running a closure in the helper *)

(** Closures that can still run, now and for the removals that wait. *)
Definition rank w : nat :=
  match remover w with
  | Some r => left_to_run (closures r) + kMostToRun * length (pending_removals_ w)
  | None => 0
  end.

Lemma begin_next_good reqs w :
  remover w = None -> is_removing_ w = false -> current_remover_ w = false ->
  current_removal_info_ w = None -> accounted reqs w ->
  exists w', begin_next w = Ok w' /\ good reqs w' /\
    (rank w' <= kMostToRun * length (pending_removals_ w))%nat.
Proof.
  intros Hr Hf Hc Hi Ha. unfold begin_next. destruct (pending_removals_ w) as [| [k i] rest] eqn:Hp.
  - exists w. unfold rank. rewrite Hr. split; [done |]. split; [split; [done | by left] | lia].
  - match goal with |- context [DoRemove k i ?w0] =>
      destruct (DoRemove_ok k i w0 Hc Hf) as (r & w' & Hdo & Hb & Hk & Hp' & Hran & Hfin) end.
    assert (Hcur : current w' = [(k, i)]).
    { unfold current. by rewrite (b_remover _ _ _ Hb), (b_info _ _ _ Hb), Hk. }
    assert (Hcur0 : current w = []) by (unfold current; by rewrite Hr).
    simpl in Hp', Hran, Hfin.
    exists w'. split; [done | split].
    + split; [| right; by eexists _, _]. destruct Ha as [Hs Hcov Hfi Hra Hcb].
      rewrite Hcur0, Hp in *. split; rewrite ?Hcur, ?Hp', ?Hran, ?Hfin; try done. apply Hs.
    + unfold rank. rewrite (b_remover _ _ _ Hb), Hp'. cbn [length].
      pose proof (tracks_left _ (b_tracks _ _ _ Hb)). unfold kMostToRun in *. lia.
Qed.

Lemma after_removal_accounted reqs w r0 r i :
  accounted reqs w -> remover w = Some r0 -> current_removal_info_ w = Some i ->
  browser_state_ r = browser_state_ r0 -> effects r ≡ₚ asked_info (browser_state_ r) i ->
  accounted reqs (after_removal r i w).
Proof.
  intros [Hs Hcov Hfi Hra Hcb] Hr Hi Hbs Heff.
  assert (Hcur : current w = [(browser_state_ r, i)]) by (unfold current; by rewrite Hr, Hi, Hbs).
  rewrite Hcur in *. simpl in Hcov. inversion_clear Hcov as [| ? ? Hci Hcp]. simpl in Hci.
  split; simpl; try done.
  - apply Forall_app. split; [done |]. by constructor.
  - rewrite bind_app. simpl. by rewrite app_nil_r, Hra.
  - rewrite <- Hcb, <- app_assoc. reflexivity.
Qed.

Lemma run_kth_good reqs w r i k :
  asks_nothing (callback_of <$> reqs) ->
  accounted reqs w -> busy w r i -> (k < length (closures r))%nat ->
  exists w', run_kth k w = Ok w' /\ good reqs w' /\ (rank w' < rank w)%nat.
Proof.
  intros Hno Ha [Hr Hrem Hc Hi Ht Hcl Hbit Hp] Hk.
  destruct (lookup_lt_is_Some_2 (closures r) k Hk) as [c Hlook].
  destruct (run_closure_tracks k c r Ht Hlook)
    as (r' & ends & Hrun & Ht' & Hleft & Hmore & Hbs).
  destruct (run_closure_promise k c r r' ends Hlook Hrun) as (Hp' & _ & _).
  rewrite Hp, <- Hbs in Hp'. unfold run_kth. rewrite Hr, Hlook. setoid_rewrite Hrun.
  cbn [mbind chk_bind].
  assert (Hbit' : waiting_for_clear_cache_ r' = true -> has_bit (remove_mask i) REMOVE_CACHE = true).
  { intros Hw. apply Hbit. apply (run_closure_cache _ _ _ _ Hrun Hw). }
  assert (Hquiet : asks_nothing (callbacks i)).
  { pose proof (a_covered _ _ Ha) as Hcov. unfold current in Hcov. rewrite Hr, Hi in Hcov.
    apply Forall_cons in Hcov as [Hcov _]. intros cb Hcb.
    destruct (Hcov cb Hcb) as (mask & period & Hin & _). apply Hno.
    apply list_elem_of_fmap. by exists (browser_state_ r, mask, period, cb). }
  assert (Hgo : closures r' <> [] \/ lost FCache r' ->
    exists w', mret (w <| remover := Some r' |>) = Ok w' /\ good reqs w' /\ (rank w' < rank w)%nat).
  { intros Hne. eexists. split; [reflexivity | split; [split |]].
    - destruct Ha as [Hs Hcov Hfi Hra Hcb].
      assert (Hcur : current (w <| remover := Some r' |>) = current w).
      { unfold current. simpl. by rewrite Hr, Hi, Hbs. }
      split; rewrite ?Hcur; done.
    - right. exists r', i. by split.
    - unfold rank. simpl. rewrite Hr. lia. }
  destruct ends; [| by apply Hgo, Hmore].
  unfold NotifyAndDeleteIfDone. destruct (AllDone r') eqn:Hd.
  2: { apply Hgo. destruct (closures r') as [| c' cs'] eqn:He; [right | by left].
       destruct (tracks_left_over _ Ht' He); [congruence | done]. }
  rewrite (NotifyAndDelete_ok r' i w Hquiet Hrem Hi Hd).
  assert (Heff : effects r' ≡ₚ asked_info (browser_state_ r') i).
  { rewrite <- Hp'. unfold promise. apply (tracks_done _ Ht') in Hd. by rewrite Hd, app_nil_r. }
  destruct (begin_next_good reqs (after_removal r' i w)) as (w' & Hn & Hg & Hrk); try done.
  { by apply (after_removal_accounted reqs w r). }
  exists w'. split; [done | split; [done |]]. cbn [pending_removals_ after_removal] in Hrk.
  unfold rank at 2. rewrite Hr. lia.
Qed.

(** ** Asking for a removal *)
Lemma covered_mono reqs q k i : covered reqs k i -> covered (reqs ++ [q]) k i.
Proof.
  intros Hc cb Hcb. destruct (Hc cb Hcb) as (mask & period & Hin & Hm). exists mask, period.
  split; [| done]. rewrite elem_of_app. by left.
Qed.

Lemma covered_registered reqs k mask period cb m :
  Forall (fun e => covered reqs e.1 e.2) m ->
  covered (reqs ++ [(k, mask, period, cb)]) k (registered k mask period cb m).
Proof.
  intros Hm cb' Hcb. unfold registered in *.
  assert (Hnew : (k, mask, period, cb) ∈ reqs ++ [(k, mask, period, cb)])
    by (apply elem_of_app; right; left).
  destruct (map_find k m) as [i |] eqn:Hf; simpl in *.
  - apply map_find_elem in Hf. rewrite Forall_forall in Hm. specialize (Hm _ Hf). simpl in Hm.
    rewrite elem_of_app, list_elem_of_singleton in Hcb. destruct Hcb as [Hcb | ->].
    + destruct (covered_mono _ (k, mask, period, cb) _ _ Hm cb' Hcb) as (mk & pd & Hin & Hor).
      exists mk, pd. split; [done |]. rewrite <- Z.lor_assoc, (Z.lor_comm mask mk), Z.lor_assoc. by rewrite Hor.
    + exists mask, period. split; [done |]. by rewrite <- Z.lor_assoc, Z.lor_diag.
  - apply list_elem_of_singleton in Hcb as ->. exists mask, period. split; [done |]. apply Z.lor_diag.
Qed.

Lemma Remove_good reqs w k mask period cb :
  good reqs w -> IsOffTheRecord k = false ->
  exists w', Remove k mask period cb w = Ok w' /\ good (reqs ++ [(k, mask, period, cb)]) w'.
Proof.
  intros [[Hs Hcov Hfi Hra Hcb] Hst] Hk. unfold Remove. rewrite Hk.
  set (q := (k, mask, period, cb)).
  assert (Hfin' : Forall (fun '(k, i, done) => covered (reqs ++ [q]) k i /\ done ≡ₚ asked_info k i) (finished w)).
  { eapply Forall_impl; [exact Hfi |]. intros [[k' i'] done] [Hc Hd]. split; [by apply covered_mono | done]. }
  assert (Hcov' : Forall (fun e => covered (reqs ++ [q]) e.1 e.2) (current w ++ pending_removals_ w)).
  { eapply Forall_impl; [exact Hcov |]. intros e. apply covered_mono. }
  cbn [negb dcheck mbind chk_bind]. destruct Hst as [[Hr Hf Hc Hi Hp] | (r & i & Hb)].
  - rewrite Hc, Hf. cbn [orb].
    destruct (DoRemove_ok k (info_new mask period cb) w Hc Hf) as (r & w' & Hdo & Hb & Hbk & Hp' & Hran & Hfn).
    exists w'. split; [done |]. split; [| right; by eexists _, _].
    assert (Hcur : current w' = [(k, info_new mask period cb)]).
    { unfold current. by rewrite (b_remover _ _ _ Hb), (b_info _ _ _ Hb), Hbk. }
    assert (Hcur0 : current w = []) by (unfold current; by rewrite Hr).
    rewrite Hcur0, Hp in *.
    split; rewrite ?Hcur, ?Hp', ?Hran, ?Hfn; try done.
    + repeat constructor. simpl. by apply (covered_registered reqs k mask period cb []).
    + rewrite fmap_app. rewrite <- Hcb. simpl. by rewrite app_nil_r.
  - rewrite (b_current _ _ _ Hb). cbn [orb dcheck mbind chk_bind mret chk_ret].
    match goal with |- context [map_set k ?i _] =>
      change i with (registered k mask period cb (pending_removals_ w)) end.
    eexists. split; [reflexivity |].
    set (m := map_set k _ _). assert (Hcur : current (w <| pending_removals_ := m |>) = current w) by done.
    apply Forall_app in Hcov as [Hcv1 Hcv2], Hcov' as [Hcw1 Hcw2].
    split; [split; rewrite ?Hcur; simpl; try done |].
    + by apply map_set_sorted.
    + apply Forall_app. split; [done |]. apply map_set_Forall; [done |]. by apply covered_registered.
    + rewrite fmap_app, <- Hcb. unfold all_callbacks. rewrite !bind_app.
      pose proof (registered_callbacks k mask period cb _ Hs) as Hreg. unfold all_callbacks in Hreg.
      fold m in Hreg. rewrite Hreg. by rewrite <- !app_assoc.
    + right. exists r, i. by destruct Hb.
Qed.
Definition requests_of (es : list event) : list request :=
  es ≫= (fun e => match e with
                  | ERemove k mask period cb => [(k, mask, period, cb)]
                  | ERun _ => []
                  end).

(** A removal is asked for a browser state that is not off the record. *)
Definition recorded (e : event) : Prop :=
  match e with ERemove k _ _ _ => IsOffTheRecord k = false | ERun _ => True end.

(** The callbacks of a history. *)
Definition callbacks_of (es : list event) : list nat := callback_of <$> requests_of es.

Lemma removal_event_good reqs w e :
  asks_nothing (callback_of <$> reqs) ->
  good reqs w -> recorded e -> exists w', handle e w = Ok w' /\ good (reqs ++ requests_of [e]) w'.
Proof.
  intros Hno Hg He. destruct e as [k mask period cb | k]; simpl in *.
  - rewrite ?app_nil_r. by apply Remove_good.
  - rewrite app_nil_r. pose proof Hg as [Ha Hst]. destruct Hst as [Hi | (r & i & Hb)].
    + exists w. split; [| done]. unfold run_kth. by rewrite (i_remover _ Hi).
    + destruct (decide (k < length (closures r))%nat) as [Hk | Hk].
      * destruct (run_kth_good reqs w r i k Hno Ha Hb Hk) as (w' & Hrun & Hg' & _). by exists w'.
      * exists w. split; [| done]. unfold run_kth. rewrite (b_remover _ _ _ Hb).
        by rewrite (proj2 (lookup_ge_None _ _)) by lia.
Qed.

Lemma asks_nothing_app l1 l2 : asks_nothing (l1 ++ l2) <-> asks_nothing l1 /\ asks_nothing l2.
Proof. unfold asks_nothing. setoid_rewrite elem_of_app. naive_solver. Qed.

Lemma requests_of_cons e es : requests_of (e :: es) = requests_of [e] ++ requests_of es.
Proof. unfold requests_of. rewrite !bind_cons. simpl. by rewrite app_nil_r. Qed.

Lemma removal_history_good reqs w es :
  asks_nothing ((callback_of <$> reqs) ++ callbacks_of es) ->
  good reqs w -> Forall recorded es ->
  exists w', handle_all es w = Ok w' /\ good (reqs ++ requests_of es) w'.
Proof.
  revert reqs w. induction es as [| e es IH]; intros reqs w Hno Hg Hes.
  - exists w. split; [done |]. by rewrite app_nil_r.
  - inversion_clear Hes as [| ? ? He Hes'].
    destruct (removal_event_good reqs w e) as (w1 & H1 & Hg1); [by apply asks_nothing_app in Hno as [? _] | done..|].
    destruct (IH (reqs ++ requests_of [e]) w1) as (w' & H2 & Hg2); [| done..|].
    { unfold callbacks_of in *. rewrite requests_of_cons in Hno. by rewrite !fmap_app, <- app_assoc in *. }
    exists w'. cbn [handle_all]. rewrite H1. split; [exact H2 |].
    by rewrite requests_of_cons, app_assoc.
Qed.

Lemma World_new_good : good [] World_new.
Proof. split; [by split; try constructor | by left]. Qed.

(** Closures run, in the order that [pick] chooses, until no removal is left or
    the fuel is spent. *)
Fixpoint drain (pick : World -> nat) (n : nat) w : chk World :=
  match n, remover w with
  | S n, Some r => w ← run_kth (pick w mod length (closures r)) w; drain pick n w
  | _, _ => mret w
  end.

(** Nothing is left to run, and the removal under way waits for a callback of the
    cache that never comes: all of its data is gone. *)
Definition waits_for_ever w : Prop :=
  exists r i, remover w = Some r /\ current_removal_info_ w = Some i /\ closures r = [] /\
    waiting_for_clear_cache_ r = true /\ doom_rv http_cache <> ERR_IO_PENDING /\
    has_bit (remove_mask i) REMOVE_CACHE = true /\
    effects r ≡ₚ asked_info (browser_state_ r) i.

Lemma busy_waits w r i : busy w r i -> closures r = [] -> waits_for_ever w.
Proof.
  intros [Hr _ _ Hi _ [Hcl | (_ & Hw & _ & Hdoom)] Hbit Hp] Hc; [congruence |].
  exists r, i. unfold promise in Hp. rewrite Hc in Hp. simpl in Hp. rewrite app_nil_r in Hp.
  split_and!; try done. by apply Hbit.
Qed.

Lemma drain_good pick reqs n w :
  asks_nothing (callback_of <$> reqs) -> good reqs w -> (rank w <= n)%nat ->
  exists w', drain pick n w = Ok w' /\ accounted reqs w' /\ (idle w' \/ waits_for_ever w').
Proof.
  intros Hno. revert w. induction n as [| n IH]; intros w [Ha Hst] Hn.
  - exists w. destruct Hst as [Hi | (r & i & Hb)]; [by split; [| split; [| left]] |].
    split; [done | split; [done | right]]. apply (busy_waits w r i Hb).
    unfold rank in Hn. rewrite (b_remover _ _ _ Hb) in Hn.
    destruct (closures r) as [| c cs]; [done |]. pose proof (closure_measure_pos c).
    unfold left_to_run in Hn. simpl in Hn. lia.
  - cbn [drain]. destruct Hst as [Hi | (r & i & Hb)].
    + exists w. rewrite (i_remover _ Hi). by split; [| split; [| left]].
    + rewrite (b_remover _ _ _ Hb).
      destruct (closures r) as [| c cs] eqn:Hc.
      * assert (Hstay : forall k, run_kth k w = Ok w).
        { intros k. unfold run_kth. by rewrite (b_remover _ _ _ Hb), Hc. }
        assert (Hdrain : forall n', drain pick n' w = Ok w).
        { induction n' as [| n' IHn]; [done |]. cbn [drain]. rewrite (b_remover _ _ _ Hb), Hstay. exact IHn. }
        rewrite Hstay. cbn [mbind chk_bind]. exists w. split; [apply Hdrain |].
        split; [done | right]. by apply (busy_waits w r i).
      * assert (Hk : (pick w mod length (closures r) < length (closures r))%nat).
        { apply Nat.mod_upper_bound. by rewrite Hc. }
        rewrite <- Hc. destruct (run_kth_good reqs w r i _ Hno Ha Hb Hk) as (w1 & Hrun & Hg & Hrk).
        rewrite Hrun. cbn [mbind chk_bind]. apply IH; [done | lia].
Qed.

(** C18. As long as no callback asks for another removal when it runs, and all
    removals are for browser states that are not off the record, no check fails,
    in whatever order the closures of the removers run between the requests.
    From then on the removals end, whichever closure runs next: after at most 20
    closures for the removal under way and 20 for each one that waits, no remover
    is left, no removal waits, and every callback ran exactly as often as it was
    given to [Remove]; or else the removal under way asked for the cache, whose
    backend doomed its entries at once without a call of its callback: then
    nothing is left to run, all the data of that removal is gone, and it waits
    for ever. *)
Theorem removals_finish (es : list event) (H_recorded : Forall recorded es)
    (H_callbacks : asks_nothing (callbacks_of es)) :
  exists w, handle_all es World_new = Ok w /\
  forall pick : World -> nat, exists w',
    drain pick (kMostToRun * S (length (pending_removals_ w))) w = Ok w' /\
    (remover w' = None /\ is_removing_ w' = false /\ current_remover_ w' = false /\
       pending_removals_ w' = [] /\ ran w' ≡ₚ callbacks_of es \/
     waits_for_ever w').
Proof.
  destruct (removal_history_good [] World_new es H_callbacks World_new_good H_recorded) as (w & Hrun & Hg).
  simpl in Hg. exists w. split; [done |]. intros pick.
  assert (Hrank : (rank w <= kMostToRun * S (length (pending_removals_ w)))%nat).
  { destruct Hg as [_ [Hi | (r & i & Hb)]]; unfold rank.
    - rewrite (i_remover _ Hi). lia.
    - rewrite (b_remover _ _ _ Hb). pose proof (tracks_left _ (b_tracks _ _ _ Hb)). lia. }
  destruct (drain_good pick _ _ w H_callbacks Hg Hrank)
    as (w' & Hd & [_ _ _ _ Hcb] & [[Hr Hf Hc Hi Hp] | Hever]); exists w'; (split; [done |]); [left | by right].
  do 4 (split; [done |]). unfold current in Hcb. rewrite Hr, Hp in Hcb.
  by rewrite app_nil_r in Hcb.
Qed.

End removal.

(** ** A browser with all its services *)
Module ConcreteRemoval.
Definition cache : HttpCache :=
  {| backend_rv := ERR_IO_PENDING; backend_now := false; later_backend := (0, true);
     doom_rv := ERR_IO_PENDING; later_doom := 0; has_sdch_manager := true |}.

(** The cache of a backend that dooms its entries at once. *)
Definition synchronous_cache : HttpCache :=
  {| backend_rv := 0; backend_now := true; later_backend := (0, true);
     doom_rv := 0; later_doom := 0; has_sdch_manager := true |}.

Definition services (c : HttpCache) : BrowsingServices :=
  {| has_history_service := true; has_io_thread := true; IsOffTheRecord := fun k => (k =? 9)%nat;
     keywords_model := Some false; has_tab_service := true; has_web_data_service := true;
     has_data_manager := true; has_language_model := true; has_request_context := true;
     has_password_store := true; http_cache := c;
     CalculateBeginDeleteTime := fun period => match period with
       | LAST_HOUR => 900 | LAST_DAY => 800 | LAST_WEEK => 700 | FOUR_WEEKS => 600
       | ALL_TIME => 1 end;
     Time_Max := 100000 |}.

#[local] Instance browser : BrowsingServices := services cache.

Definition quiet (cb : nat) : option (nat * Z * TimePeriod * nat) := None.

Definition all_data : Z :=
  Z.lor (Z.lor (Z.lor REMOVE_CACHE REMOVE_COOKIES) (Z.lor REMOVE_FORM_DATA REMOVE_HISTORY))
        (Z.lor REMOVE_PASSWORDS REMOVE_CHANNEL_IDS).

(** Two browser states and a second request for the first, while it is busy. *)
Definition history : list event :=
  [ERemove 1 all_data ALL_TIME 10; ERun 3; ERemove 2 REMOVE_CACHE LAST_DAY 11;
   ERemove 1 REMOVE_COOKIES LAST_HOUR 12; ERun 0; ERemove 2 REMOVE_PASSWORDS LAST_DAY 13].

Definition result (m : chk World) : World := from_ok World_new m.

Definition last_first (w : World) : nat :=
  match remover w with Some r => (length (closures r) - 1)%nat | None => 0%nat end.

Definition finished_history : World :=
  result (w ← handle_all quiet history World_new; drain quiet last_first 60 w).

(** The browser states are served in the order of their addresses. *)
Example history_ends :
  ran finished_history = [10; 12; 11; 13]%nat /\
  (fun '(k, i, _) => (k, callbacks i)) <$> finished finished_history =
    [(1, [10]); (1, [12]); (2, [11; 13])]%nat.
Proof. split; vm_compute; reflexivity. Qed.

Definition is_cookies (x : effect) : bool :=
  match x with CookiesDeleted _ _ => true | _ => false end.

(** The first request of a pending removal sets the range of time: the second
    callback runs, and the cookies of the time it named are still there. *)
Example merged_period_is_lost :
  let w := result (w ← handle_all quiet
    [ERemove 1 REMOVE_CACHE ALL_TIME 10; ERemove 1 REMOVE_COOKIES LAST_HOUR 11;
     ERemove 1 REMOVE_COOKIES ALL_TIME 12] World_new; drain quiet last_first 40 w) in
  ran w = [10; 11; 12]%nat /\ remover w = None /\
  (finished w ≫= (fun '(_, _, done) => List.filter is_cookies done)) =
    [CookiesDeleted 900 100000].
Proof. split_and!; vm_compute; reflexivity. Qed.

(** A callback that asks for another removal starts one whose end finds no
    removal info. *)
Definition asks_again (cb : nat) : option (nat * Z * TimePeriod * nat) :=
  if (cb =? 10)%nat then Some (2%nat, REMOVE_COOKIES, LAST_HOUR, 11%nat) else None.

Example reentrant_removal_faults :
  okb (handle_all asks_again [ERemove 1 REMOVE_COOKIES ALL_TIME 10] World_new) = true /\
  okb (w ← handle_all asks_again [ERemove 1 REMOVE_COOKIES ALL_TIME 10] World_new;
       drain asks_again last_first 40 w) = false.
Proof. split; vm_compute; reflexivity. Qed.

(** A backend that dooms its entries at once: the callback never comes, and the
    removal never ends. *)
Example synchronous_doom_never_ends :
  let w := result (w ← @handle_all (services synchronous_cache) quiet
    [ERemove 1 REMOVE_CACHE ALL_TIME 10; ERemove 2 REMOVE_COOKIES ALL_TIME 11] World_new;
    @drain (services synchronous_cache) quiet last_first 1000 w) in
  closures <$> remover w = Some [] /\ ran w = [] /\ length (pending_removals_ w) = 1%nat.
Proof. split_and!; vm_compute; reflexivity. Qed.

Lemma history_recorded : Forall recorded history.
Proof. repeat constructor. Qed.

Lemma removals_finish_witness :
  exists w, handle_all quiet history World_new = Ok w /\
  forall pick : World -> nat, exists w',
    drain quiet pick (kMostToRun * S (length (pending_removals_ w))) w = Ok w' /\
    (remover w' = None /\ is_removing_ w' = false /\ current_remover_ w' = false /\
       pending_removals_ w' = [] /\ ran w' ≡ₚ callbacks_of history \/
     waits_for_ever w').
Proof.
  apply (removals_finish quiet); [discriminate | exact history_recorded | by intros cb _].
Defined.



End ConcreteRemoval.
