(* ===== verification/CRLSetFetcher.v ===== *)
(** * The fetcher of the set of revoked certificates

    [chrome/browser/net/crl_set_fetcher.cc]: the fetcher loads the set of the
    last run from the disk, registers itself with the component updater, and
    installs the full sets and the deltas the updater hands it.

    Its functions run on three threads and on the updater's; an event is one
    call or one task.  The format of the sets ([net::CRLSetStorage]), the
    threads' readiness and the answer of the updater are parameters.  The sets
    in use are those of [net::SSLConfigService], a global variable. *)
From S2P Require Import Prelude.

(** The sets and their format, of [net]; [FilePath::Append] of [base].
    [thread_runs] is what [WebThread::PostTask] returns, [registers] what the
    updater's [RegisterComponent] returns. *)
Class CRLSets := {
  CRLSet : Type;
  sequence : CRLSet -> Z;
  Parse : string -> option CRLSet;
  GetIsDeltaUpdate : string -> option bool;
  ApplyDelta : CRLSet -> string -> option CRLSet;
  Serialize : CRLSet -> string;
  Append : string -> string -> string;
  FILE_runs : bool;
  UI_runs : bool;
  IO_runs : bool;
  registers : bool;
}.

Definition kIOSChromeCRLSetFilename : string := "Certificate Revocation Lists".

(** ** State *)
Section fetcher.
Context `{CRLSets}.

Record CRLSetFetcher := {
  cus_ : bool;
  crl_path_ : string;
  crl_set_ : option CRLSet;
}.

#[export] Instance fetcher_fields : Fields CRLSetFetcher := fun f =>
  {| cus_ := cus_ f; crl_path_ := crl_path_ f; crl_set_ := crl_set_ f |}.

Inductive file_task := InitialLoad | Delete.

(** What [base::WriteFile] does: all is written, or the call returns another
    size and the file holds something else. *)
Inductive write := Complete | Short (held : string).

(** The fetcher with the tasks that wait on each thread, the files, the version
    that the updater was told, and the set in use. *)
Record World := {
  fetcher : CRLSetFetcher;
  FILE : list file_task;
  UI : list Z;
  IO : list CRLSet;
  disk : gmap string string;
  registered : option Z;
  installed : option CRLSet;
}.

#[export] Instance world_fields : Fields World := fun w =>
  {| fetcher := fetcher w; FILE := FILE w; UI := UI w; IO := IO w; disk := disk w;
     registered := registered w; installed := installed w |}.

Implicit Types (w : World) (f : CRLSetFetcher) (s : CRLSet).

Definition CRLSetFetcher_new : CRLSetFetcher :=
  {| cus_ := false; crl_path_ := ""; crl_set_ := None |}.

(** A process starts with the files that the last one left. *)
Definition restart (files : gmap string string) : World :=
  {| fetcher := CRLSetFetcher_new; FILE := []; UI := []; IO := []; disk := files;
     registered := None; installed := None |}.

(** ** Operations *)
Definition SetCRLSetFilePath (path : string) f : CRLSetFetcher :=
  f <| crl_path_ := Append path kIOSChromeCRLSetFilename |>.

Definition post_FILE (t : file_task) w : chk World :=
  _ ← dcheck FILE_runs; mret (w <| FILE := FILE w ++ [t] |>).
Definition post_UI (version : Z) w : chk World :=
  _ ← dcheck UI_runs; mret (w <| UI := UI w ++ [version] |>).
Definition post_IO s w : chk World :=
  _ ← dcheck IO_runs; mret (w <| IO := IO w ++ [s] |>).

Definition StartInitialLoad (path : string) w : chk World :=
  if bool_decide (path = "") then mret w
  else
    let f := SetCRLSetFilePath path (fetcher w) in
    let w := w <| fetcher := f <| cus_ := true |> |> in
    post_FILE InitialLoad w.

Definition DeleteFromDisk (path : string) w : chk World :=
  if bool_decide (path = "") then mret w
  else post_FILE Delete (w <| fetcher := SetCRLSetFilePath path (fetcher w) |>).

(** [out_crl_set] is the fetcher's [crl_set_]. *)
Definition LoadFromDisk (path : string) w : chk World :=
  match disk w !! path with
  | None => mret w
  | Some crl_set_bytes =>
      match Parse crl_set_bytes with
      | None => mret w
      | Some s => post_IO s (w <| fetcher := fetcher w <| crl_set_ := Some s |> |>)
      end
  end.

Definition DoInitialLoadFromDisk w : chk World :=
  w ← LoadFromDisk (crl_path_ (fetcher w)) w;
  post_UI (match crl_set_ (fetcher w) with Some s => sequence s | None => 0 end) w.

Definition DoDeleteFromDisk w : World := w <| disk := delete (crl_path_ (fetcher w)) (disk w) |>.

Definition SetCRLSetIfNewer s w : World :=
  match installed w with
  | Some old => if sequence s <? sequence old then w else w <| installed := Some s |>
  | None => w <| installed := Some s |>
  end.

Definition RegisterComponent (sequence_of_loaded_crl : Z) w : chk World :=
  _ ← dcheck (cus_ (fetcher w));
  _ ← dcheck registers;
  mret (w <| registered := Some sequence_of_loaded_crl |>).

(** [base::checked_cast<int>] of the size, then the write. *)
Definition save (bytes : string) (result : write) w : chk World :=
  _ ← dcheck (Z.of_nat (String.length bytes) <=? INT_MAX);
  mret (w <| disk := <[crl_path_ (fetcher w) :=
                       match result with Complete => bytes | Short held => held end]> (disk w) |>).

(** [crx] is the file of the update, if there is one; the answer is whether the
    update was installed. *)
Definition DoInstall (crx : option string) (result : write) w : chk (World * bool) :=
  match crx with
  | None => mret (w, false)
  | Some crl_set_bytes =>
      match GetIsDeltaUpdate crl_set_bytes, crl_set_ (fetcher w) with
      | None, _ => mret (w, false)
      | Some true, None => mret (w, false)
      | Some false, _ =>
          match Parse crl_set_bytes with
          | None => mret (w, false)
          | Some s =>
              w ← save crl_set_bytes result (w <| fetcher := fetcher w <| crl_set_ := Some s |> |>);
              w ← post_IO s w; mret (w, true)
          end
      | Some true, Some base =>
          match ApplyDelta base crl_set_bytes with
          | None => mret (w, false)
          | Some s =>
              w ← save (Serialize s) result w;
              w ← post_IO s (w <| fetcher := fetcher w <| crl_set_ := Some s |> |>);
              mret (w, true)
          end
      end
  end.

(** ** Events *)

(** Calls, the first task of a thread, an update, and the end of the process.
    The updater hands updates to the components it knows. *)
Inductive event :=
| EStart (path : string)
| EDelete (path : string)
| EFile
| EUi
| EIo
| EInstall (crx : option string) (result : write)
| ERestart.

Definition handle (e : event) w : chk World :=
  match e with
  | EStart path => StartInitialLoad path w
  | EDelete path => DeleteFromDisk path w
  | EFile =>
      match FILE w with
      | [] => mret w
      | InitialLoad :: rest => DoInitialLoadFromDisk (w <| FILE := rest |>)
      | Delete :: rest => mret (DoDeleteFromDisk (w <| FILE := rest |>))
      end
  | EUi =>
      match UI w with
      | [] => mret w
      | version :: rest => RegisterComponent version (w <| UI := rest |>)
      end
  | EIo =>
      match IO w with
      | [] => mret w
      | s :: rest => mret (SetCRLSetIfNewer s (w <| IO := rest |>))
      end
  | EInstall crx result =>
      match registered w with
      | Some _ => wb ← DoInstall crx result w; mret wb.1
      | None => mret w
      end
  | ERestart => mret (restart (disk w))
  end.

Fixpoint handle_all (es : list event) w : chk World :=
  match es with
  | [] => mret w
  | e :: es => w ← handle e w; handle_all es w
  end.
(** ** The set in use *)
Definition at_least (o : option CRLSet) s : Prop :=
  exists t, o = Some t /\ sequence s <= sequence t.

Definition no_restart (e : event) : bool := match e with ERestart => false | _ => true end.

(** What an event leaves of the sets in use and of those that wait for it. *)
Record advances w w' : Prop := {
  adv_installed s : at_least (installed w) s -> at_least (installed w') s;
  adv_waiting s : s ∈ IO w -> s ∈ IO w' \/ at_least (installed w') s;
}.

Lemma advances_refl w : advances w w.
Proof. split; [done | by left]. Qed.

Lemma advances_trans w1 w2 w3 : advances w1 w2 -> advances w2 w3 -> advances w1 w3.
Proof.
  intros [Hi1 Hw1] [Hi2 Hw2]. split; [auto |]. intros s Hs.
  destruct (Hw1 s Hs) as [Hs2 | Hs2]; auto.
Qed.

Lemma advances_append w w' l : installed w' = installed w -> IO w' = IO w ++ l -> advances w w'.
Proof.
  intros Hi Hio. split; [by rewrite Hi |]. intros s Hs. left. rewrite Hio, elem_of_app. by left.
Qed.

(** The fetcher's set is in use, or a newer one is, or it waits. *)
Definition offered w : Prop :=
  forall s, crl_set_ (fetcher w) = Some s -> s ∈ IO w \/ at_least (installed w) s.

Lemma offered_same w w' :
  advances w w' -> crl_set_ (fetcher w') = crl_set_ (fetcher w) -> offered w -> offered w'.
Proof.
  intros [Hi Hw] Hc Ho s Hs. rewrite Hc in Hs. destruct (Ho s Hs) as [Hs' | Hs']; auto.
Qed.

Lemma SetCRLSetIfNewer_advances s rest w :
  IO w = s :: rest -> advances w (SetCRLSetIfNewer s (w <| IO := rest |>)).
Proof.
  intros Hio. unfold SetCRLSetIfNewer. simpl. split; rewrite ?Hio; simpl.
  - intros t (old & Hold & Ht). rewrite Hold. destruct (Z.ltb_spec (sequence s) (sequence old)); simpl.
    + exists old. done.
    + exists s. split; [done | lia].
  - intros t [-> | Ht]%elem_of_cons.
    + right. destruct (installed w) as [old |] eqn:Hold; [destruct (Z.ltb_spec (sequence s) (sequence old)) |];
        simpl; eexists; (split; [done | lia]).
    + left. by destruct (installed w) as [old |]; [destruct (_ <? _) |].
Qed.

(** A step that posts the set the fetcher now has. *)
Lemma posted_advances s w w' :
  installed w' = installed w -> IO w' = IO w ++ [s] -> crl_set_ (fetcher w') = Some s ->
  advances w w' /\ offered w'.
Proof.
  intros Hi Hio Hc. split; [by eapply advances_append |].
  intros t Ht. left. rewrite Hc in Ht. injection Ht as <-. rewrite Hio, elem_of_app. by right; left.
Qed.

Lemma LoadFromDisk_advances path w w' :
  LoadFromDisk path w = Ok w' -> offered w -> advances w w' /\ offered w'.
Proof.
  unfold LoadFromDisk. intros Hrun Ho.
  destruct (disk w !! path) as [b |]; [destruct (Parse b) as [s |] |]; run_inv Hrun;
    try (by split; [apply advances_refl |]).
  unfold post_IO in *. run_all Hrun. by eapply (posted_advances s).
Qed.

Lemma DoInstall_advances crx result w w' installed_it :
  DoInstall crx result w = Ok (w', installed_it) -> offered w -> advances w w' /\ offered w'.
Proof.
  unfold DoInstall. intros Hrun Ho.
  destruct crx as [b |]; [| run_inv Hrun; by split; [apply advances_refl |]].
  destruct (GetIsDeltaUpdate b) as [[|] |]; [destruct (crl_set_ (fetcher w)) as [base |] | |];
    [destruct (ApplyDelta base b) as [s |] | | destruct (Parse b) as [s |] |];
    try (run_inv Hrun; by split; [apply advances_refl |]).
  all: unfold save, post_IO in *; run_all Hrun; by eapply (posted_advances s).
Qed.
Lemma handle_advances e w w' :
  handle e w = Ok w' -> no_restart e = true -> offered w -> advances w w' /\ offered w'.
Proof.
  intros Hrun He Ho.
  assert (Hsame : forall w1, installed w1 = installed w -> IO w1 = IO w ->
    crl_set_ (fetcher w1) = crl_set_ (fetcher w) -> advances w w1 /\ offered w1).
  { intros w1 Hi Hio Hc. assert (Ha : advances w w1)
      by (apply (advances_append _ _ []); [done | by rewrite app_nil_r]).
    split; [done | by eapply offered_same]. }
  destruct e as [path | path | | | | crx result |]; cbn [handle] in Hrun; [| | | | | | done].
  - unfold StartInitialLoad, post_FILE in *. destruct (bool_decide (path = ""));
      run_all Hrun; by apply Hsame.
  - unfold DeleteFromDisk, post_FILE in *. destruct (bool_decide (path = ""));
      run_all Hrun; by apply Hsame.
  - destruct (FILE w) as [| [|] rest]; [run_inv Hrun; by apply Hsame | | run_inv Hrun; by apply Hsame].
    unfold DoInitialLoadFromDisk, post_UI in *. apply bind_Ok_inv in Hrun as (w1 & Hload & Hrun).
    run_all Hrun. destruct (LoadFromDisk_advances _ _ _ Hload Ho) as [[Hi Hw] Ho1].
    by split.
  - destruct (UI w) as [| version rest]; [run_inv Hrun; by apply Hsame |].
    unfold RegisterComponent in *. run_all Hrun. by apply Hsame.
  - destruct (IO w) as [| s rest] eqn:Hio; [run_inv Hrun; by apply Hsame |]. run_inv Hrun.
    pose proof (SetCRLSetIfNewer_advances s rest w Hio) as Ha. split; [done |].
    eapply offered_same; [exact Ha | | done]. unfold SetCRLSetIfNewer. simpl.
    by destruct (installed w) as [old |]; [destruct (_ <? _) |].
  - destruct (registered w); [| run_inv Hrun; by apply Hsame].
    apply bind_Ok_inv in Hrun as ([w1 b] & Hinst & Hrun). run_inv Hrun. by eapply DoInstall_advances.
Qed.

Lemma handle_all_advances es w w' :
  handle_all es w = Ok w' -> forallb no_restart es = true -> offered w -> advances w w' /\ offered w'.
Proof.
  revert w. induction es as [| e es IH]; intros w Hrun Hes Ho; cbn [handle_all forallb] in *.
  - run_inv Hrun. by split; [apply advances_refl |].
  - apply andb_prop in Hes as [He Hes]. apply bind_Ok_inv in Hrun as (w1 & H1 & Hrun).
    destruct (handle_advances e w w1 H1 He Ho) as [Ha Ho1].
    destruct (IH w1 Hrun Hes Ho1) as [Ha' Ho']. split; [by eapply advances_trans | done].
Qed.

(** C36. Within a process, the sets in use are never replaced by older ones, and
    what the fetcher gets comes into use: a set that is in use, or that the
    fetcher loaded or was handed, after some events is in use once the tasks of
    the IO thread have run, whatever else happened in between, or one at least as
    new is. *)
Theorem sets_in_use_advance (files : gmap string string) (es es' : list event) w w' s
    (H_process : forallb no_restart (es ++ es') = true)
    (H_run : handle_all es (restart files) = Ok w) (H_more : handle_all es' w = Ok w')
    (H_had : installed w = Some s \/ crl_set_ (fetcher w) = Some s) (H_io : IO w' = []) :
  exists t, installed w' = Some t /\ sequence s <= sequence t.
Proof.
  rewrite forallb_app in H_process. apply andb_prop in H_process as [He He'].
  destruct (handle_all_advances es _ w H_run He) as [_ Ho]; [done |].
  destruct (handle_all_advances es' w w' H_more He' Ho) as [[Hi Hw] _].
  destruct H_had as [Hs | Hs].
  - apply (Hi s). by exists s.
  - destruct (Ho s Hs) as [Hin | Hin]; [| by apply Hi].
    destruct (Hw s Hin) as [Hin' |]; [| done]. rewrite H_io in Hin'. by apply elem_of_nil in Hin'.
Qed.

(** An update that is refused changes nothing. *)
Lemma refused_update_changes_nothing crx result w w' :
  DoInstall crx result w = Ok (w', false) -> w' = w.
Proof.
  unfold DoInstall. intros Hrun. destruct crx as [b |]; [| by run_inv Hrun].
  destruct (GetIsDeltaUpdate b) as [[|] |]; [destruct (crl_set_ (fetcher w)) as [base |] | |];
    [destruct (ApplyDelta base b) as [s |] | | destruct (Parse b) as [s |] |];
    try (by run_inv Hrun).
  all: unfold save, post_IO in *; run_all Hrun; discriminate.
Qed.

(** ** What a process leaves for the next one *)
Context (path : string).

Definition crl_file : string := Append path kIOSChromeCRLSetFilename.

(** The browser starts the fetcher for one directory, deletes nothing, and the
    writes of files of a size that an [int] holds are complete. *)
Definition regular (e : event) : Prop :=
  match e with
  | EStart p => p = path
  | EDelete _ => False
  | EInstall crx result =>
      result = Complete /\ forall b, crx = Some b -> Z.of_nat (String.length b) <= INT_MAX
  | _ => True
  end.

Record saved w : Prop := {
  sv_file : Forall (fun t => t = InitialLoad) (FILE w);
  sv_new : cus_ (fetcher w) = false -> FILE w = [] /\ UI w = [] /\ registered w = None;
  sv_path : cus_ (fetcher w) = true -> crl_path_ (fetcher w) = crl_file;
  sv_unset : cus_ (fetcher w) = false -> crl_set_ (fetcher w) = None;
  sv_disk s : crl_set_ (fetcher w) = Some s -> exists b, disk w !! crl_file = Some b /\ Parse b = Some s;
}.

Lemma restart_saved files : saved (restart files).
Proof. by split; try constructor. Qed.

(** Every thread runs, the updater takes the component, and a set can be read
    back from what is written, whose size an [int] holds. *)
Record working : Prop := {
  wk_path : path <> "";
  wk_FILE : FILE_runs = true;
  wk_UI : UI_runs = true;
  wk_IO : IO_runs = true;
  wk_registers : registers = true;
  wk_written s : Parse (Serialize s) = Some s;
  wk_size s : Z.of_nat (String.length (Serialize s)) <= INT_MAX;
}.

Context (works : working).

Lemma cus_when w : saved w -> (FILE w <> [] \/ UI w <> [] \/ registered w <> None) ->
  cus_ (fetcher w) = true.
Proof.
  intros Hs Hw. destruct (cus_ (fetcher w)) eqn:E; [done |]. exfalso.
  destruct (sv_new w Hs E) as (? & ? & ?). tauto.
Qed.

Lemma dcheck_runs (b : bool) {A} (k : unit -> chk A) : b = true -> (dcheck b ≫= k) = k tt.
Proof. by intros ->. Qed.

(** A change of the fetcher's set together with the file it is saved to. *)
Lemma saved_update w w' s b :
  saved w -> cus_ (fetcher w) = true -> FILE w' = FILE w \/ FILE w = InitialLoad :: FILE w' ->
  cus_ (fetcher w') = true -> crl_path_ (fetcher w') = crl_path_ (fetcher w) ->
  crl_set_ (fetcher w') = Some s -> disk w' !! crl_file = Some b -> Parse b = Some s -> saved w'.
Proof.
  intros [Hf Hn Hp Hu Hd] Hc Hf' Hc' Hp' Hs Hb Hpar. split; rewrite ?Hc'; try done.
  - destruct Hf' as [-> | Hf']; [done |]. rewrite Hf' in Hf. by inversion_clear Hf.
  - rewrite Hp'. auto.
  - intros s'. rewrite Hs. intros [= <-]. by exists b.
Qed.

Lemma DoInitialLoadFromDisk_saved rest w :
  saved w -> FILE w = InitialLoad :: rest ->
  exists w', DoInitialLoadFromDisk (w <| FILE := rest |>) = Ok w' /\ saved w'.
Proof.
  intros Hs Hfile. assert (Hc : cus_ (fetcher w) = true).
  { apply cus_when; [done |]. left. by rewrite Hfile. }
  pose proof (sv_path w Hs Hc) as Hp. unfold DoInitialLoadFromDisk, LoadFromDisk. simpl. rewrite Hp.
  assert (Hsame : saved (w <| FILE := rest |>)).
  { destruct Hs as [Hf Hn Hp' Hu Hd]. rewrite Hfile in Hf. inversion_clear Hf.
    split; simpl; rewrite ?Hc in *; done. }
  unfold post_UI, post_IO.
  destruct (disk w !! crl_file) as [b |] eqn:Hb; [destruct (Parse b) as [s |] eqn:Hpar |];
    rewrite ?(wk_IO works), ?(wk_UI works); cbn [dcheck mbind chk_bind mret chk_ret];
    (eexists; split; [reflexivity |]).
  - eapply (saved_update w _ s b); try done. by right.
  - destruct Hsame as [Hf Hn Hp' Hu Hd]. simpl in *. split; simpl; rewrite ?Hc in *; done.
  - destruct Hsame as [Hf Hn Hp' Hu Hd]. simpl in *. split; simpl; rewrite ?Hc in *; done.
Qed.

Lemma DoInstall_saved crx w :
  saved w -> cus_ (fetcher w) = true ->
  (forall b, crx = Some b -> Z.of_nat (String.length b) <= INT_MAX) ->
  exists w' b, DoInstall crx Complete w = Ok (w', b) /\ saved w'.
Proof.
  intros Hs Hc Hsize. pose proof (sv_path w Hs Hc) as Hp. unfold DoInstall.
  destruct crx as [b |]; [| by eexists _, _].
  destruct (GetIsDeltaUpdate b) as [[|] |]; [destruct (crl_set_ (fetcher w)) as [base |] | |];
    [destruct (ApplyDelta base b) as [s |] | | destruct (Parse b) as [s |] eqn:Hpar |];
    try (by eexists _, _).
  all: unfold save, post_IO; rewrite (wk_IO works).
  - pose proof (wk_size works s). rewrite (proj2 (Z.leb_le _ _)) by lia.
    cbn [dcheck mbind chk_bind mret chk_ret]. eexists _, _. split; [reflexivity |].
    eapply (saved_update w _ s (Serialize s)); try done; [by left | | apply (wk_written works)].
    simpl. rewrite Hp. by rewrite lookup_insert_eq.
  - rewrite (proj2 (Z.leb_le _ _)) by (by apply Hsize).
    cbn [dcheck mbind chk_bind mret chk_ret]. eexists _, _. split; [reflexivity |].
    eapply (saved_update w _ s b); try done; [by left |].
    simpl. rewrite Hp. by rewrite lookup_insert_eq.
Qed.

Lemma handle_saved e w : saved w -> regular e -> exists w', handle e w = Ok w' /\ saved w'.
Proof.
  intros Hs He. destruct e as [p | p | | | | crx result |]; cbn [handle regular] in *.
  - subst p. unfold StartInitialLoad, post_FILE. rewrite bool_decide_eq_false_2 by apply (wk_path works).
    rewrite (wk_FILE works). cbn [dcheck mbind chk_bind mret chk_ret]. eexists. split; [reflexivity |].
    destruct Hs as [Hf Hn Hp Hu Hd]. split; simpl; try done. apply Forall_app. by repeat constructor.
  - done.
  - destruct (FILE w) as [| [|] rest] eqn:Hf; [by eexists | by apply DoInitialLoadFromDisk_saved |].
    exfalso. pose proof (sv_file w Hs) as Hall. rewrite Hf in Hall. by inversion_clear Hall.
  - destruct (UI w) as [| version rest] eqn:Hui; [by eexists |].
    assert (Hc : cus_ (fetcher w) = true). { apply cus_when; [done |]. right; left. by rewrite Hui. }
    unfold RegisterComponent. simpl. rewrite Hc, (wk_registers works).
    cbn [dcheck mbind chk_bind mret chk_ret]. eexists. split; [reflexivity |].
    destruct Hs as [Hf Hn Hp Hu Hd]. split; simpl; rewrite ?Hc in *; done.
  - destruct (IO w) as [| s rest]; [by eexists |]. eexists. split; [reflexivity |].
    destruct Hs as [Hf Hn Hp Hu Hd]. unfold SetCRLSetIfNewer. simpl.
    destruct (installed w) as [old |]; [destruct (_ <? _) |]; by split.
  - destruct He as [-> Hsize]. destruct (registered w) as [v |] eqn:Hr; [| by eexists].
    assert (Hc : cus_ (fetcher w) = true). { apply cus_when; [done |]. right; right. by rewrite Hr. }
    destruct (DoInstall_saved crx w Hs Hc Hsize) as (w' & b & Hrun & Hs'). rewrite Hrun. by exists w'.
  - eexists. split; [reflexivity |]. apply restart_saved.
Qed.

Lemma handle_all_saved es w :
  saved w -> Forall regular es -> exists w', handle_all es w = Ok w' /\ saved w'.
Proof.
  intros Hs Hes. revert w Hs. induction Hes as [| e es He _ IH]; intros w Hs; [by exists w |].
  destruct (handle_saved e w Hs He) as (w1 & H1 & Hs1). destruct (IH w1 Hs1) as (w' & H2 & Hs').
  exists w'. cbn [handle_all]. by rewrite H1.
Qed.

(** C24. Whatever sets and deltas the updater has handed the fetcher, in however
    many processes, no check fails, and the set the fetcher has at the end of a
    process survives it: the next process reads that set from the disk, tells the
    updater its sequence number, and has it in use once the tasks of its threads
    have run. *)
Theorem update_survives_restart (files : gmap string string) (es : list event)
    (H_regular : Forall regular es) :
  exists w, handle_all es (restart files) = Ok w /\
  forall s, crl_set_ (fetcher w) = Some s ->
    exists w', handle_all [ERestart; EStart path; EFile; EUi; EIo] w = Ok w' /\
      crl_set_ (fetcher w') = Some s /\ registered w' = Some (sequence s) /\
      installed w' = Some s /\ disk w' = disk w.
Proof.
  destruct (handle_all_saved es _ (restart_saved files) H_regular) as (w & Hrun & Hs).
  exists w. split; [done |]. intros s Hc. destruct (sv_disk w Hs s Hc) as (b & Hb & Hpar).
  cbn [handle_all handle mbind chk_bind mret chk_ret]. unfold StartInitialLoad, post_FILE.
  rewrite bool_decide_eq_false_2 by apply (wk_path works). rewrite (wk_FILE works).
  cbn [dcheck mbind chk_bind mret chk_ret]. simpl.
  unfold DoInitialLoadFromDisk, LoadFromDisk. simpl. fold crl_file. rewrite Hb, Hpar.
  unfold post_IO, post_UI. rewrite (wk_IO works), (wk_UI works). simpl.
  unfold RegisterComponent. simpl. rewrite (wk_registers works). simpl. by eexists.
Qed.
End fetcher.

(** ** Three sets *)
Module ConcreteCRLSets.
Inductive crl_set := First | Second | Third.

Definition parse (b : string) : option crl_set :=
  if (b =? "F1")%string then Some First
  else if (b =? "F2")%string then Some Second
  else if (b =? "F3")%string then Some Third else None.

Definition is_delta (b : string) : option bool :=
  if String.prefix "F" b then Some false else if String.prefix "D" b then Some true else None.

#[local] Instance sets : CRLSets :=
  {| CRLSet := crl_set;
     sequence := fun s => match s with First => 1 | Second => 2 | Third => 3 end;
     Parse := parse; GetIsDeltaUpdate := is_delta;
     ApplyDelta := fun base b => if (b =? "D")%string then
         match base with First => Some Second | Second => Some Third | Third => None end
       else None;
     Serialize := fun s => match s with First => "F1" | Second => "F2" | Third => "F3" end;
     Append := fun p n => (p ++ "/" ++ n)%string;
     FILE_runs := true; UI_runs := true; IO_runs := true; registers := true |}.

Lemma working_sets : working "data".
Proof. split; try done; intros []; first [reflexivity | discriminate]. Qed.

(** The first run gets a full set and a delta. *)
Definition first_run : list event :=
  [EStart "data"; EFile; EUi; EInstall (Some "D") Complete; EInstall (Some "F1") Complete; EIo;
   EInstall (Some "D") Complete; EInstall (Some "junk") Complete]%string.

Definition result (m : chk World) : World := from_ok (restart ∅) m.

Definition after_first : World := result (handle_all first_run (restart ∅)).

Lemma first_run_runs : handle_all first_run (restart ∅) = Ok after_first.
Proof. apply okb_run. vm_cast_no_check (@eq_refl bool true). Qed.

Example first_run_state :
  crl_set_ (fetcher after_first) = Some Second /\ installed after_first = Some First /\
  IO after_first = [Second] /\ registered after_first = Some 0.
Proof. split_and!; vm_compute; reflexivity. Qed.

(** The set in use is not replaced by the older one of a full update, but the
    older one is on the disk, and the next process uses it. *)
Example downgrade_after_restart :
  let w := result (handle_all
    (first_run ++ [EIo; EInstall (Some "F1"%string) Complete; EIo]) (restart ∅)) in
  installed w = Some Second /\
  installed (result (handle_all [ERestart; EStart "data"%string; EFile; EUi; EIo] w)) =
    Some First.
Proof. split; vm_compute; reflexivity. Qed.

Lemma sets_in_use_advance_witness :
  exists t, installed (result (handle_all [EIo] after_first)) = Some t /\
    sequence (Second : CRLSet) <= sequence t.
Proof.
  refine (sets_in_use_advance ∅ first_run [EIo] after_first _ Second _ first_run_runs _ _ _).
  - vm_cast_no_check (@eq_refl bool true).
  - apply okb_run. vm_cast_no_check (@eq_refl bool true).
  - right. vm_compute. reflexivity.
  - vm_compute. reflexivity.
Defined.

Lemma update_survives_restart_witness :
  exists w, handle_all first_run (restart ∅) = Ok w /\
  forall s, crl_set_ (fetcher w) = Some s ->
    exists w', handle_all [ERestart; EStart "data"%string; EFile; EUi; EIo] w = Ok w' /\
      crl_set_ (fetcher w') = Some s /\ registered w' = Some (sequence s) /\
      installed w' = Some s /\ disk w' = disk w.
Proof.
  apply (update_survives_restart "data" working_sets).
  repeat constructor; by intros b [= <-].
Defined.
End ConcreteCRLSets.
