(* ===== verification/CookieCreationTimeManager.v ===== *)
(** * Creation times of cookies

    [net/cookies/cookie_creation_time_manager.mm]: the creation time of a
    cookie of the system, which is unique among the cookies, as [CookieMonster]
    requires.

    A time is a number of microseconds, 0 the null time.  [unique_times_], a
    [std::set], is the list of its elements in ascending order, and an iterator
    of it what follows in that list. *)
From stdpp Require Import sorting.
From Stdlib Require Import Ascii.
From S2P Require Import Prelude.
#[local] Open Scope Z_scope.

(** The numbers of Foundation: whether one is below 2.0, and the time so many
    seconds after January 1st, 2001. *)
Class NSTimeApi := {
  CFAbsoluteTime : Type;
  below_two : CFAbsoluteTime -> bool;
  FromCFAbsoluteTime : CFAbsoluteTime -> Z;
}.

Section manager.
Context `{NSTimeApi}.

(** [NSHTTPCookie] with its undocumented property [Created].  Every cookie of
    Foundation has this property, a number: the source demands so with a check,
    which holds of a field that is not optional. *)
Record NSHTTPCookie := {
  ns_name : string;
  ns_value : string;
  ns_domain : string;
  ns_path : string;
  expiresDate : option Z;
  isSessionOnly : bool;
  isSecure : bool;
  isHTTPOnly : bool;
  Created : CFAbsoluteTime;
}.

#[export] Instance nscookie_fields : Fields NSHTTPCookie := fun c =>
  {| ns_name := ns_name c; ns_value := ns_value c; ns_domain := ns_domain c;
     ns_path := ns_path c; expiresDate := expiresDate c; isSessionOnly := isSessionOnly c;
     isSecure := isSecure c; isHTTPOnly := isHTTPOnly c; Created := Created c |}.

Implicit Types (c : NSHTTPCookie) (t : Z).

(** A cookie made from a dictionary of properties has a [Created] of 1.0; its
    creation time is the null time.  The check that [Created] is a number holds by
    the type of the field, and the null time for a cookie without it is not
    modelled. *)
Definition GetCreationTimeFromObject c : Z :=
  if below_two (Created c) then 0 else FromCFAbsoluteTime (Created c).

Definition GetCookieUniqueID c : string :=
  (ns_name c +:+ ";" +:+ ns_domain c +:+ ";" +:+ ns_path c)%string.

Record CookieCreationTimeManager := {
  creation_times_ : gmap string Z;
  unique_times_ : list Z;
}.

Implicit Types (m : CookieCreationTimeManager).

Definition CookieCreationTimeManager_new : CookieCreationTimeManager :=
  {| creation_times_ := ∅; unique_times_ := [] |}.

(** [std::set<base::Time>] *)
Fixpoint find_time t (l : list Z) : list Z :=
  match l with
  | [] => []
  | x :: l' => if x =? t then l else find_time t l'
  end.

Fixpoint insert_time t (l : list Z) : list Z :=
  match l with
  | [] => [t]
  | x :: l' => if t <? x then t :: l else if t =? x then l else x :: insert_time t l'
  end.

Definition erase_time t (l : list Z) : list Z := filter (fun x => x <> t) l.

(** The number of elements that [erase] erased is 1. *)
Definition erases_one t (l : list Z) : bool := bool_decide (t ∈ l).

Definition SetCreationTime c t m : chk CookieCreationTimeManager :=
  _ ← dcheck (match find_time t (unique_times_ m) with [] => true | _ => false end);
  unique ← match creation_times_ m !! GetCookieUniqueID c with
           | Some old =>
               _ ← dcheck (erases_one old (unique_times_ m));
               mret (erase_time old (unique_times_ m))
           | None => mret (unique_times_ m)
           end;
  mret {| creation_times_ := <[GetCookieUniqueID c := t]> (creation_times_ m);
          unique_times_ := insert_time t unique |}.

(** The loop, with the iterator at an element. *)
Fixpoint next_free t (it : list Z) : chk Z :=
  match it with
  | [] => Fault
  | x :: it =>
      _ ← dcheck (t =? x);
      match it with
      | y :: _ => if y =? t + 1 then next_free (t + 1) it else mret (t + 1)
      | [] => mret (t + 1)
      end
  end.

Definition MakeUniqueCreationTime t m : chk Z :=
  match find_time t (unique_times_ m) with
  | [] => mret t
  | it => next_free t it
  end.

Definition GetCreationTime c m : chk (Z * CookieCreationTimeManager) :=
  match creation_times_ m !! GetCookieUniqueID c with
  | Some t => mret (t, m)
  | None =>
      t ← MakeUniqueCreationTime (GetCreationTimeFromObject c) m;
      m ← SetCreationTime c t m; mret (t, m)
  end.

Definition DeleteCreationTime c m : chk CookieCreationTimeManager :=
  match creation_times_ m !! GetCookieUniqueID c with
  | Some t =>
      _ ← dcheck (erases_one t (unique_times_ m));
      mret {| creation_times_ := delete (GetCookieUniqueID c) (creation_times_ m);
              unique_times_ := erase_time t (unique_times_ m) |}
  | None => mret m
  end.

Definition Clear : CookieCreationTimeManager := CookieCreationTimeManager_new.

(** ** Identifiers *)

(** A name or a domain of a cookie holds no semicolon. *)
Fixpoint no_semicolon (s : string) : bool :=
  match s with
  | EmptyString => true
  | String a s => negb (Ascii.eqb a ";"%char) && no_semicolon s
  end.

Lemma semicolon_split s1 s2 r1 r2 :
  no_semicolon s1 = true -> no_semicolon s2 = true ->
  (s1 +:+ ";" +:+ r1)%string = (s2 +:+ ";" +:+ r2)%string -> s1 = s2 /\ r1 = r2.
Proof.
  revert s2. induction s1 as [| a s1 IH]; intros [| b s2]; simpl; intros H1 H2 Heq.
  - by injection Heq.
  - injection Heq as <- _. discriminate.
  - injection Heq as -> _. discriminate.
  - apply andb_prop in H1 as [_ H1], H2 as [_ H2]. injection Heq as -> Heq.
    by destruct (IH s2 H1 H2 Heq) as [-> ->].
Qed.

(** What identifies a cookie for the system. *)
Definition cookie_key c : string * string * string := (ns_name c, ns_domain c, ns_path c).

Definition well_named c : Prop := no_semicolon (ns_name c) = true /\ no_semicolon (ns_domain c) = true.

Lemma unique_id_key c c' :
  well_named c -> well_named c' ->
  GetCookieUniqueID c = GetCookieUniqueID c' <-> cookie_key c = cookie_key c'.
Proof.
  intros [Hn Hd] [Hn' Hd']. unfold GetCookieUniqueID, cookie_key. split.
  - intros Heq. apply semicolon_split in Heq as [-> Heq]; try done.
    by apply semicolon_split in Heq as [-> ->].
  - by intros [= -> -> ->].
Qed.

(** ** The set of times *)
Abbreviation ascending := (StronglySorted Z.lt).

Lemma find_time_spec t l :
  ascending l ->
  (t ∉ l /\ find_time t l = []) \/
  (exists l1 l2, l = l1 ++ t :: l2 /\ find_time t l = t :: l2 /\ Forall (fun x => x < t) l1).
Proof.
  induction 1 as [| x l Hs IH Hall]; simpl; [left; split; [by intros ?%elem_of_nil | done] |].
  destruct (Z.eqb_spec x t) as [-> | Hne].
  - right. by exists [], l.
  - destruct IH as [[Hno Hf] | (l1 & l2 & -> & Hf & Hlt)].
    + left. split; [| done]. rewrite elem_of_cons. intros [-> | ?]; done.
    + right. exists (x :: l1), l2. split_and!; [done | done |]. constructor; [| done].
      rewrite Forall_app, Forall_cons in Hall. tauto.
Qed.

Lemma elem_of_insert_time t l x : x ∈ insert_time t l <-> x = t \/ x ∈ l.
Proof.
  induction l as [| y l IH]; simpl; [set_solver |].
  destruct (t <? y); [set_solver |]. destruct (Z.eqb_spec t y) as [-> |]; [set_solver |].
  rewrite !elem_of_cons, IH. tauto.
Qed.

Lemma insert_time_ascending t l : ascending l -> ascending (insert_time t l).
Proof.
  induction 1 as [| y l Hs IH Hall]; simpl; [by repeat constructor |].
  destruct (Z.ltb_spec t y).
  - constructor; [by constructor |]. constructor; [done |].
    eapply Forall_impl; [exact Hall |]. simpl. lia.
  - destruct (Z.eqb_spec t y) as [-> |]; [by constructor |]. constructor; [done |].
    apply Forall_forall. intros z [-> | Hz]%elem_of_insert_time; [lia |].
    by apply (proj1 (Forall_forall _ _) Hall).
Qed.

Lemma erase_time_ascending t l : ascending l -> ascending (erase_time t l).
Proof.
  induction 1 as [| y l Hs IH Hall]; [constructor |]. unfold erase_time. rewrite filter_cons.
  case_decide; [| done]. constructor; [done |]. apply Forall_forall.
  intros z [_ Hz]%list_elem_of_filter. by apply (proj1 (Forall_forall _ _) Hall).
Qed.

(** The search for a free time ends at the first one. *)
Lemma next_free_spec t l :
  ascending (t :: l) ->
  exists t', next_free t (t :: l) = Ok t' /\ t < t' /\ t' ∉ t :: l /\
    forall x, t <= x < t' -> x ∈ t :: l.
Proof.
  revert t. induction l as [| y l IH]; intros t Hs; cbn [next_free]; rewrite Z.eqb_refl;
    cbn [dcheck mbind chk_bind].
  - exists (t + 1). split_and!; [done | lia | rewrite list_elem_of_singleton; lia |].
    intros x Hx. assert (x = t) as -> by lia. left.
  - apply StronglySorted_inv in Hs as [Hs Hall]. pose proof Hs as [_ Hall']%StronglySorted_inv.
    apply Forall_cons in Hall as [Hty Hall]. destruct (Z.eqb_spec y (t + 1)) as [-> | Hne].
    + destruct (IH (t + 1) Hs) as (t' & Hrun & Hlt & Hno & Hin). exists t'.
      split_and!; [exact Hrun | lia | rewrite elem_of_cons; intros [-> | ?]; [lia | done] |].
      intros x Hx. destruct (decide (x = t)) as [-> | Hx']; [left | right; apply Hin; lia].
    + exists (t + 1). split_and!; [done | lia | |].
      * rewrite !elem_of_cons. intros [? | [? | Hin]]; [lia | lia |].
        rewrite Forall_forall in Hall'. specialize (Hall' _ Hin). lia.
      * intros x Hx. assert (x = t) as -> by lia. left.
Qed.

(** ** The invariant *)
Record manager_ok m : Prop := {
  mk_ascending : ascending (unique_times_ m);
  mk_times t : t ∈ unique_times_ m <-> exists i, creation_times_ m !! i = Some t;
  mk_unique i j t : creation_times_ m !! i = Some t -> creation_times_ m !! j = Some t -> i = j;
}.

Lemma new_manager_ok : manager_ok CookieCreationTimeManager_new.
Proof.
  split; simpl; [constructor | | by intros i j t; rewrite lookup_empty].
  intros t. split; [by intros ?%elem_of_nil | intros [i Hi]; by rewrite lookup_empty in Hi].
Qed.

(** The time is that which was asked for if it is free, and the first free one
    after it otherwise. *)
Lemma MakeUniqueCreationTime_spec t m :
  manager_ok m ->
  exists t', MakeUniqueCreationTime t m = Ok t' /\ t <= t' /\ t' ∉ unique_times_ m /\
    forall x, t <= x < t' -> x ∈ unique_times_ m.
Proof.
  intros [Hs _ _]. unfold MakeUniqueCreationTime.
  destruct (find_time_spec t (unique_times_ m) Hs) as [[Hno ->] | (l1 & l2 & Hl & -> & Hlt)].
  - exists t. split_and!; [done | lia | done | lia].
  - rewrite Hl in *. apply StronglySorted_app in Hs as (_ & _ & Hs).
    destruct (next_free_spec t l2 Hs) as (t' & -> & Hlt' & Hno & Hin).
    exists t'. split_and!; [done | lia | |].
    + rewrite elem_of_app. intros [Hin' | Hin']; [| done].
      rewrite Forall_forall in Hlt. specialize (Hlt _ Hin'). lia.
    + intros x Hx. apply elem_of_app. right. by apply Hin.
Qed.

Lemma SetCreationTime_ok c t m :
  manager_ok m -> t ∉ unique_times_ m ->
  exists m', SetCreationTime c t m = Ok m' /\ manager_ok m' /\
    creation_times_ m' = <[GetCookieUniqueID c := t]> (creation_times_ m).
Proof.
  intros Hm Hno. pose proof Hm as [Hs Ht Hu]. unfold SetCreationTime. set (i := GetCookieUniqueID c).
  destruct (find_time_spec t (unique_times_ m) Hs) as [[_ ->] | (l1 & l2 & Hl & _)].
  2: { exfalso. apply Hno. rewrite Hl. apply elem_of_app. right; left. }
  cbn [dcheck mbind chk_bind].
  set (unique := match creation_times_ m !! i with
                 | Some old => erase_time old (unique_times_ m) | None => unique_times_ m end).
  assert (Hrun : match creation_times_ m !! i with
                 | Some old => _ ← dcheck (erases_one old (unique_times_ m));
                               mret (erase_time old (unique_times_ m))
                 | None => mret (unique_times_ m) end = Ok unique).
  { unfold unique. destruct (creation_times_ m !! i) as [old |] eqn:Hi; [| done].
    unfold erases_one. rewrite bool_decide_eq_true_2; [done |]. apply Ht. by exists i. }
  cbn [mbind chk_bind] in Hrun |- *. rewrite Hrun. eexists. split; [reflexivity |]. split; [| done].
  assert (Hun : forall x, x ∈ unique <-> exists j, j <> i /\ creation_times_ m !! j = Some x).
  { intros x. unfold unique. destruct (creation_times_ m !! i) as [old |] eqn:Hi.
    - unfold erase_time. rewrite list_elem_of_filter, Ht. split.
      + intros [Hx [j Hj]]. exists j. split; [| done]. intros ->. congruence.
      + intros (j & Hj & Hx). split; [| by exists j]. intros ->. by apply Hj, (Hu _ _ old).
    - rewrite Ht. split; intros [j Hj]; exists j; [split; [| done]; congruence | tauto]. }
  split; simpl.
  - apply insert_time_ascending. unfold unique. destruct (creation_times_ m !! i); [| done].
    by apply erase_time_ascending.
  - intros x. rewrite elem_of_insert_time, Hun. split.
    + intros [-> | (j & Hj & Hx)]; [exists i; by rewrite lookup_insert_eq |].
      exists j. by rewrite lookup_insert_ne.
    + intros [j Hj]. apply lookup_insert_Some in Hj as [[-> ->] | [Hne Hj]]; [by left |].
      right. by exists j.
  - assert (Hfree : forall j, creation_times_ m !! j = Some t -> False).
    { intros j Hj. apply Hno, Ht. by exists j. }
    intros j k x. rewrite !lookup_insert_Some.
    intros [[<- <-] | [? Hj]] [[<- Hk] | [? Hk]]; subst; try done.
    + by destruct (Hfree k).
    + by destruct (Hfree j).
    + by eapply Hu.
Qed.

Lemma DeleteCreationTime_ok c m :
  manager_ok m ->
  exists m', DeleteCreationTime c m = Ok m' /\ manager_ok m' /\
    creation_times_ m' = delete (GetCookieUniqueID c) (creation_times_ m).
Proof.
  intros Hm. pose proof Hm as [Hs Ht Hu]. unfold DeleteCreationTime. set (i := GetCookieUniqueID c).
  destruct (creation_times_ m !! i) as [t |] eqn:Hi.
  2: { exists m. by rewrite delete_id. }
  unfold erases_one. rewrite bool_decide_eq_true_2 by (apply Ht; by exists i).
  eexists. split; [reflexivity |]. split; [| done]. split; simpl.
  - by apply erase_time_ascending.
  - intros x. unfold erase_time. rewrite list_elem_of_filter, Ht. split.
    + intros [Hx [j Hj]]. exists j. apply lookup_delete_Some. split; [| done]. congruence.
    + intros [j [Hj Hx]%lookup_delete_Some]. split; [| by exists j]. intros ->. by apply Hj, (Hu _ _ t).
  - intros j k x [_ Hj]%lookup_delete_Some [_ Hk]%lookup_delete_Some. by eapply Hu.
Qed.

(** A cookie keeps the time it is given, and the others keep theirs. *)
Lemma GetCreationTime_ok c m :
  manager_ok m ->
  exists t m', GetCreationTime c m = Ok (t, m') /\ manager_ok m' /\
    creation_times_ m' !! GetCookieUniqueID c = Some t /\ creation_times_ m ⊆ creation_times_ m'.
Proof.
  intros Hm. unfold GetCreationTime. destruct (creation_times_ m !! GetCookieUniqueID c) as [t |] eqn:Hi.
  - by exists t, m.
  - destruct (MakeUniqueCreationTime_spec (GetCreationTimeFromObject c) m Hm) as (t & -> & _ & Hno & _).
    destruct (SetCreationTime_ok c t m Hm Hno) as (m' & Hset & Hm' & Heq).
    cbn [mbind chk_bind]. rewrite Hset. exists t, m'. rewrite Heq, lookup_insert_eq.
    split_and!; try done. by apply insert_subseteq.
Qed.

Lemma GetCreationTime_known c m t :
  creation_times_ m !! GetCookieUniqueID c = Some t -> GetCreationTime c m = Ok (t, m).
Proof. unfold GetCreationTime. by intros ->. Qed.
End manager.
