(* ===== verification/CookieStoreIOS.v ===== *)
(** * The cookie store

    [net/cookies/cookie_store_ios.mm], the cookie store of the network stack on
    top of the cookie storage of the system, and
    [net/cookies/system_cookie_util.mm], the two kinds of cookies.

    The storage of the system keeps one cookie for a name, a domain and a path;
    which of its cookies are sent to a URL, the parsers of Foundation and of
    [net], and URLs are parameters.  The backing [CookieMonster] is the list of
    the calls made to it.  Times are in microseconds, [Time::FromDoubleT] keeps
    0 as the null time, and [sortedArrayUsingFunction:] is an insertion sort.
    Histories keep the accept policy of the system as it is at the start.

    Not modelled: metrics, the subclass without synchronization and what only
    it uses (GotCookieListFor, UpdateCaches..., Wrap...), and ClearSystemStore
    and DidClear..., which nothing calls. *)
From stdpp Require Import sorting.
From S2P Require Import Prelude CookieCache CookieCreationTimeManager.
#[local] Open Scope Z_scope.

(** Foundation, [net::ParsedCookie], [net::cookie_util], [url] and the order of
    URLs.  [cf_one] is the [Created] of a cookie that is made from a dictionary;
    [accepts_properties] tells whether one is made. *)
Class CookieEnvironment `{NSTimeApi} (URL : Type) := {
  cookies_with_header : string -> URL -> list NSHTTPCookie;
  requestHeaderFields : list NSHTTPCookie -> string;
  is_utf8 : string -> bool;
  cf_one : CFAbsoluteTime;
  accepts_properties : NSHTTPCookie -> bool;
  sent_to : URL -> NSHTTPCookie -> bool;
  ParseTokenString : string -> string;
  ParseValueString : string -> string;
  HasDomain : string -> bool;
  GetCookieDomainWithString : URL -> string -> option string;
  CanonPathWithString : URL -> string -> string;
  CanonicalizePath : string -> string;
  SchemeIsCryptographic : URL -> bool;
  URL_less : URL -> URL -> bool;
}.

(** [net::CanonicalCookie] without the fields that are always the default. *)
Record CanonicalCookie := {
  cc_name : string;
  cc_value : string;
  cc_domain : string;
  cc_path : string;
  CreationDate : Z;
  ExpiryDate : Z;
  IsSecure : bool;
  IsHttpOnly : bool;
}.

#[export] Instance canonical_cookies : CookieApi :=
  {| CookieCache.CanonicalCookie := CanonicalCookie; Domain := cc_domain; Path := cc_path;
     Name := cc_name; Value := cc_value |}.

Inductive ChangeCause := INSERTED | UNKNOWN_DELETION.

Section store.
Context `{NSTimeApi} {URL : Type} `{Countable URL} `{!CookieEnvironment URL}.

(** ** The storage of the system *)
Record NSHTTPCookieStorage := { stored : list NSHTTPCookie; policy_never : bool }.

#[export] Instance storage_fields : Fields NSHTTPCookieStorage := fun s =>
  {| stored := stored s; policy_never := policy_never s |}.

Definition remove_key (c : NSHTTPCookie) (l : list NSHTTPCookie) : list NSHTTPCookie :=
  filter (fun c' => cookie_key c' <> cookie_key c) l.

Definition setCookie (c : NSHTTPCookie) (s : NSHTTPCookieStorage) : NSHTTPCookieStorage :=
  if policy_never s then s else s <| stored := remove_key c (stored s) ++ [c] |>.

Definition deleteCookie (c : NSHTTPCookie) (s : NSHTTPCookieStorage) : NSHTTPCookieStorage :=
  s <| stored := remove_key c (stored s) |>.

Definition cookiesForURL (u : URL) (s : NSHTTPCookieStorage) : list NSHTTPCookie :=
  List.filter (sent_to u) (stored s).

(** ** The two kinds of cookies *)
Definition CanonicalCookieFromSystemCookie (c : NSHTTPCookie) (creation_time : Z) : CanonicalCookie :=
  {| cc_name := ns_name c; cc_value := ns_value c; cc_domain := ns_domain c; cc_path := ns_path c;
     CreationDate := creation_time; ExpiryDate := default 0 (expiresDate c);
     IsSecure := isSecure c; IsHttpOnly := isHTTPOnly c |}.

Definition IsPersistent (c : CanonicalCookie) : bool := negb (ExpiryDate c =? 0).

Definition cookieWithProperties (c : NSHTTPCookie) : option NSHTTPCookie :=
  if accepts_properties c then Some (c <| Created := cf_one |>) else None.

Definition SystemCookieFromCanonicalCookie (c : CanonicalCookie) : chk (option NSHTTPCookie) :=
  if is_utf8 (cc_domain c) && is_utf8 (cc_name c) && is_utf8 (cc_path c) && is_utf8 (cc_value c) then
    system_cookie ← deref (cookieWithProperties
      {| ns_name := cc_name c; ns_value := cc_value c; ns_domain := cc_domain c;
         ns_path := cc_path c;
         expiresDate := if IsPersistent c then Some (ExpiryDate c) else None;
         isSessionOnly := negb (IsPersistent c); isSecure := IsSecure c;
         isHTTPOnly := IsHttpOnly c; Created := cf_one |});
    mret (Some system_cookie)
  else mret None.

(** A cookie of a header line; [now] is read when the clock is corrected, and
    [server_time] is 0 when it is not known. *)
Definition GetNSHTTPCookieFromCookieLine (cookie_line : string) (u : URL) (server_time now : Z)
    : chk (option NSHTTPCookie) :=
  if is_utf8 cookie_line then
    match cookies_with_header cookie_line u with
    | [cookie] =>
        match expiresDate cookie with
        | Some expires =>
            if server_time =? 0 then mret (Some cookie)
            else
              let clock_skew := now - server_time in
              corrected ← deref (cookieWithProperties
                (cookie <| expiresDate := Some (expires + clock_skew) |>));
              mret (Some corrected)
        | None => mret (Some cookie)
        end
    | _ => mret None
    end
  else mret None.

(** ** State *)
Definition CookieKey : Type := URL * string.

Inductive monster_call :=
| SetAllCookies (l : list CanonicalCookie)
| MonsterFlush
| MonsterGetCookieList (u : URL)
| MonsterGetAllCookies.

(** What a callback of [AddCallbackForCookie] is run with. *)
Record notification := { callback : nat; about : CanonicalCookie; cause : ChangeCause }.

(** [flush_closure_] is the time its task is due, while it is not cancelled. *)
Record CookieStoreIOS := {
  cookie_monster_ : list monster_call;
  system_store_ : NSHTTPCookieStorage;
  creation_time_manager_ : CookieCreationTimeManager;
  flush_closure_ : option Z;
  cookie_cache_ : CookieCache (URL := URL);
  hook_map_ : list (CookieKey * list nat);
  notified : list notification;
}.

#[export] Instance store_fields : Fields CookieStoreIOS := fun w =>
  {| cookie_monster_ := cookie_monster_ w; system_store_ := system_store_ w;
     creation_time_manager_ := creation_time_manager_ w; flush_closure_ := flush_closure_ w;
     cookie_cache_ := cookie_cache_ w; hook_map_ := hook_map_ w; notified := notified w |}.

Implicit Types (w : CookieStoreIOS) (c : NSHTTPCookie) (cs : list NSHTTPCookie)
  (m : CookieCreationTimeManager) (k : CookieKey) (u : URL) (t : Z).

Definition CookieStoreIOS_new (storage : NSHTTPCookieStorage) : CookieStoreIOS :=
  {| cookie_monster_ := []; system_store_ := storage;
     creation_time_manager_ := CookieCreationTimeManager_new; flush_closure_ := None;
     cookie_cache_ := CookieCache_new; hook_map_ := []; notified := [] |}.

Definition SystemCookiesAllowed w : bool := negb (policy_never (system_store_ w)).

Definition set_times m w : CookieStoreIOS := w <| creation_time_manager_ := m |>.

(** ** Reading *)

(** The cookies as [CookieMonster] knows them, one after the other. *)
Fixpoint canonical_list cs m : chk (list CanonicalCookie * CookieCreationTimeManager) :=
  match cs with
  | [] => mret ([], m)
  | c :: cs =>
      '(created, m) ← GetCreationTime c m;
      '(l, m) ← canonical_list cs m;
      mret (CanonicalCookieFromSystemCookie c created :: l, m)
  end.

Definition CanonicalCookieListFromSystemCookies cs w : chk (list CanonicalCookie * CookieStoreIOS) :=
  '(l, m) ← canonical_list cs (creation_time_manager_ w); mret (l, set_times m w).

(** [Lt] is [NSOrderedAscending]. *)
Definition CompareCookies (a b : NSHTTPCookie) m : chk (comparison * CookieCreationTimeManager) :=
  let path_length_a := String.length (ns_path a) in
  let path_length_b := String.length (ns_path b) in
  if (path_length_a <? path_length_b)%nat then mret (Gt, m)
  else if (path_length_b <? path_length_a)%nat then mret (Lt, m)
  else
    '(created_a, m) ← GetCreationTime a m;
    '(created_b, m) ← GetCreationTime b m;
    mret (created_a ?= created_b, m).

(** [sortedArrayUsingFunction:], as an insertion sort; the comparisons may give
    cookies their creation times. *)
Fixpoint insert_sorted c cs m : chk (list NSHTTPCookie * CookieCreationTimeManager) :=
  match cs with
  | [] => mret ([c], m)
  | x :: cs' =>
      '(o, m) ← CompareCookies x c m;
      match o with
      | Gt => mret (c :: cs, m)
      | _ => '(l, m) ← insert_sorted c cs' m; mret (x :: l, m)
      end
  end.

Fixpoint sort_cookies cs (sorted : list NSHTTPCookie) m
    : chk (list NSHTTPCookie * CookieCreationTimeManager) :=
  match cs with
  | [] => mret (sorted, m)
  | c :: cs => '(sorted, m) ← insert_sorted c sorted m; sort_cookies cs sorted m
  end.

Definition GetCookiesForURL u w : chk (list NSHTTPCookie * CookieStoreIOS) :=
  '(l, m) ← sort_cookies (cookiesForURL u (system_store_ w)) [] (creation_time_manager_ w);
  mret (l, set_times m w).

Definition GetAllCookies w : chk (list NSHTTPCookie * CookieStoreIOS) :=
  '(l, m) ← sort_cookies (stored (system_store_ w)) [] (creation_time_manager_ w);
  mret (l, set_times m w).

Definition GetCookiesWithOptionsAsync u (exclude_httponly : bool) w : chk (string * CookieStoreIOS) :=
  _ ← dcheck (SystemCookiesAllowed w);
  _ ← dcheck (negb exclude_httponly);
  '(cs, w) ← GetCookiesForURL u w;
  mret (requestHeaderFields cs, w).

(** No list when the [CookieMonster] is asked, which answers later. *)
Definition GetCookieListWithOptionsAsync u w
    : chk (option (list CanonicalCookie) * CookieStoreIOS) :=
  if negb (SystemCookiesAllowed w) then
    mret (None, w <| cookie_monster_ := cookie_monster_ w ++ [MonsterGetCookieList u] |>)
  else
    '(cs, w) ← GetCookiesForURL u w;
    '(l, w) ← CanonicalCookieListFromSystemCookies cs w;
    mret (Some l, w).

Definition GetAllCookiesAsync w : chk (option (list CanonicalCookie) * CookieStoreIOS) :=
  if negb (SystemCookiesAllowed w) then
    mret (None, w <| cookie_monster_ := cookie_monster_ w ++ [MonsterGetAllCookies] |>)
  else
    '(cs, w) ← GetAllCookies w;
    '(l, w) ← CanonicalCookieListFromSystemCookies cs w;
    mret (Some l, w).
(** ** Setting *)

(** The cookie is stored and gets a creation time as close as possible to [t]. *)
Definition add_cookie c t w : chk CookieStoreIOS :=
  let w := w <| system_store_ := setCookie c (system_store_ w) |> in
  t ← MakeUniqueCreationTime t (creation_time_manager_ w);
  m ← SetCreationTime c t (creation_time_manager_ w);
  mret (set_times m w).

(** [now] and [later] are read from the clock, one after the other. *)
Definition SetCookieWithOptionsAsync u (cookie_line : string) (exclude_httponly : bool)
    (server_time now later : Z) w : chk (bool * CookieStoreIOS) :=
  _ ← dcheck (negb exclude_httponly);
  _ ← dcheck (SystemCookiesAllowed w);
  cookie ← GetNSHTTPCookieFromCookieLine cookie_line u server_time now;
  let domain_string := match cookie with Some c => ns_domain c | None => ""%string end in
  let has_explicit_domain := HasDomain cookie_line in
  let has_valid_domain :=
    match GetCookieDomainWithString u domain_string with Some _ => true | None => false end in
  match cookie with
  | Some c =>
      if negb (String.eqb domain_string "") && (negb has_explicit_domain || has_valid_domain)
      then w ← add_cookie c later w; mret (true, w)
      else mret (false, w)
  | None => mret (false, w)
  end.

Definition SetCookieWithDetailsAsync u (name value domain path : string)
    (creation_time expiration_time : Z) (secure http_only : bool) (now : Z) w
    : chk (bool * CookieStoreIOS) :=
  _ ← dcheck (SystemCookiesAllowed w);
  let creation_time := if creation_time =? 0 then now else creation_time in
  if negb (String.eqb (ParseTokenString name) name) || negb (String.eqb (ParseValueString value) value)
     || negb (String.eqb (ParseValueString domain) domain)
     || negb (String.eqb (ParseValueString path) path)
  then mret (false, w) else
  let cookie_path := CanonPathWithString u path in
  if secure && negb (SchemeIsCryptographic u) then mret (false, w) else
  match GetCookieDomainWithString u domain with
  | None => mret (false, w)
  | Some cookie_domain =>
      if negb (String.eqb path "") && negb (String.eqb cookie_path path) then mret (false, w) else
      let canonical_cookie :=
        {| cc_name := name; cc_value := value; cc_domain := cookie_domain;
           cc_path := CanonicalizePath cookie_path; CreationDate := creation_time;
           ExpiryDate := expiration_time; IsSecure := secure; IsHttpOnly := http_only |} in
      cookie ← SystemCookieFromCanonicalCookie canonical_cookie;
      match cookie with
      | Some c => w ← add_cookie c (CreationDate canonical_cookie) w; mret (true, w)
      | None => mret (false, w)
      end
  end.

(** ** Deleting *)
Definition delete_cookie c w : chk CookieStoreIOS :=
  let w := w <| system_store_ := deleteCookie c (system_store_ w) |> in
  m ← DeleteCreationTime c (creation_time_manager_ w);
  mret (set_times m w).

Fixpoint delete_cookies cs w : chk CookieStoreIOS :=
  match cs with
  | [] => mret w
  | c :: cs => w ← delete_cookie c w; delete_cookies cs w
  end.

(** A null end of the range is the end of time. *)
Definition IsCookieCreatedBetween (time_begin time_end : Z) c (creation_time : Z) : bool :=
  (time_begin <=? creation_time) && ((time_end =? 0) || (creation_time <=? time_end)).

Definition IsCookieCreatedBetweenWithPredicate (time_begin time_end : Z)
    (predicate : option (CanonicalCookie -> bool)) c (creation_time : Z) : bool :=
  match predicate with
  | None => false
  | Some predicate =>
      IsCookieCreatedBetween time_begin time_end c creation_time &&
      predicate (CanonicalCookieFromSystemCookie c creation_time)
  end.

Definition IsCookieSessionCookie c (creation_time : Z) : bool := isSessionOnly c.

(** The cookies to delete. *)
Fixpoint collect (pred : NSHTTPCookie -> Z -> bool) cs m
    : chk (list NSHTTPCookie * CookieCreationTimeManager) :=
  match cs with
  | [] => mret ([], m)
  | c :: cs =>
      '(creation_time, m) ← GetCreationTime c m;
      '(l, m) ← collect pred cs m;
      mret (if pred c creation_time then c :: l else l, m)
  end.

(** The number of cookies deleted goes to the callback. *)
Definition DeleteCookiesWithFilter (pred : NSHTTPCookie -> Z -> bool) w : chk (nat * CookieStoreIOS) :=
  '(to_delete, m) ← collect pred (stored (system_store_ w)) (creation_time_manager_ w);
  w ← delete_cookies to_delete (set_times m w);
  mret (length to_delete, w).

Definition DeleteCookieAsync u (cookie_name : string) w : chk CookieStoreIOS :=
  '(cs, w) ← GetCookiesForURL u w;
  delete_cookies
    (List.filter (fun c => is_utf8 cookie_name && String.eqb (ns_name c) cookie_name) cs) w.

Definition DeleteCanonicalCookieAsync (cookie : CanonicalCookie) w : chk (nat * CookieStoreIOS) :=
  DeleteCookiesWithFilter (IsCookieCreatedBetween (CreationDate cookie) (CreationDate cookie)) w.

Definition DeleteAllCreatedBetweenAsync (delete_begin delete_end : Z) w
    : chk (nat * CookieStoreIOS) :=
  DeleteCookiesWithFilter (IsCookieCreatedBetween delete_begin delete_end) w.

Definition DeleteAllCreatedBetweenWithPredicateAsync (delete_begin delete_end : Z)
    (predicate : option (CanonicalCookie -> bool)) w : chk (nat * CookieStoreIOS) :=
  DeleteCookiesWithFilter (IsCookieCreatedBetweenWithPredicate delete_begin delete_end predicate) w.

Definition DeleteSessionCookiesAsync w : chk (nat * CookieStoreIOS) :=
  DeleteCookiesWithFilter IsCookieSessionCookie w.

(** ** Writing to the backing store *)
Definition WriteToCookieMonster cs w : chk CookieStoreIOS :=
  '(l, w) ← CanonicalCookieListFromSystemCookies cs w;
  mret (w <| cookie_monster_ := cookie_monster_ w ++ [SetAllCookies l] |>).

Definition FlushStore w : chk CookieStoreIOS :=
  w ← (if SystemCookiesAllowed w then WriteToCookieMonster (stored (system_store_ w)) w
       else mret w);
  mret (w <| cookie_monster_ := cookie_monster_ w ++ [MonsterFlush] |> <| flush_closure_ := None |>).

(** ** Hooks *)
Definition hook_find k (l : list (CookieKey * list nat)) : option (list nat) :=
  snd <$> find (fun e => bool_decide (e.1 = k)) l.

(** [operator<] of [std::pair]. *)
Definition key_less k1 k2 : bool :=
  URL_less k1.1 k2.1 || (negb (URL_less k2.1 k1.1) && String.ltb k1.2 k2.2).

(** [hook_map_[k] = v], in the order of the keys. *)
Fixpoint hook_set k (v : list nat) (l : list (CookieKey * list nat)) : list (CookieKey * list nat) :=
  match l with
  | [] => [(k, v)]
  | (k', v') :: l' =>
      if bool_decide (k' = k) then (k, v) :: l'
      else if key_less k k' then (k, v) :: l else (k', v') :: hook_set k v l'
  end.

Definition GetSystemCookies u (name : string) w
    : chk (bool * list CanonicalCookie * CookieStoreIOS) :=
  '(l, w) ← CanonicalCookieListFromSystemCookies
              (List.filter (fun c => String.eqb (ns_name c) name) (cookiesForURL u (system_store_ w))) w;
  mret (negb (bool_decide (length l = 0%nat)), l, w).

Definition UpdateCacheForCookieFromSystem u (name : string)
    (out_removed_cookies out_added_cookies : option (list CanonicalCookie)) w
    : chk (bool * option (list CanonicalCookie) * option (list CanonicalCookie) * CookieStoreIOS) :=
  '(_, system_cookies, w) ← GetSystemCookies u name w;
  let '(cache, changed, removed, added) :=
    Update u name system_cookies out_removed_cookies out_added_cookies (cookie_cache_ w) in
  mret (changed, removed, added, w <| cookie_cache_ := cache |>).

(** [Notify] of the list of callbacks. *)
Fixpoint notify_all (callbacks : list nat) (name : string) (cookies : list CanonicalCookie)
    (cause : ChangeCause) w : chk CookieStoreIOS :=
  match cookies with
  | [] => mret w
  | cookie :: cookies =>
      _ ← dcheck (String.eqb name (cc_name cookie));
      notify_all callbacks name cookies cause
        (w <| notified := notified w ++
                ((fun f => {| callback := f; about := cookie; cause := cause |}) <$> callbacks) |>)
  end.

Definition RunCallbacksForCookies u (name : string) (cookies : list CanonicalCookie)
    (cause : ChangeCause) w : chk CookieStoreIOS :=
  match cookies with
  | [] => mret w
  | _ => callbacks ← deref (hook_find (u, name) (hook_map_ w)); notify_all callbacks name cookies cause w
  end.

(** One entry of the hook map. *)
Definition update_hook k w : chk CookieStoreIOS :=
  '(changed, removed, added, w) ← UpdateCacheForCookieFromSystem k.1 k.2 (Some []) (Some []) w;
  if (changed : bool) then
    w ← RunCallbacksForCookies k.1 k.2 (default [] removed) UNKNOWN_DELETION w;
    RunCallbacksForCookies k.1 k.2 (default [] added) INSERTED w
  else mret w.

Fixpoint update_hooks (ks : list CookieKey) w : chk CookieStoreIOS :=
  match ks with
  | [] => mret w
  | k :: ks => w ← update_hook k w; update_hooks ks w
  end.

Definition flush_delay : Z := 10 * 1000000.

Definition OnSystemCookiesChanged (now : Z) w : chk CookieStoreIOS :=
  w ← update_hooks (hook_map_ w).*1 w;
  match flush_closure_ w with
  | Some _ => mret w
  | None => mret (w <| flush_closure_ := Some (now + flush_delay) |>)
  end.

Definition AddCallbackForCookie u (name : string) (f : nat) w : chk CookieStoreIOS :=
  let k := (u, name) in
  w ← (match hook_find k (hook_map_ w) with
       | Some _ => mret w
       | None =>
           '(_, _, _, w) ← UpdateCacheForCookieFromSystem u name None None w;
           mret (w <| hook_map_ := hook_set k [] (hook_map_ w) |>)
       end);
  callbacks ← deref (hook_find k (hook_map_ w));
  mret (w <| hook_map_ := hook_set k (callbacks ++ [f]) (hook_map_ w) |>).
(** ** Reading, in the manager's terms *)

Definition times m : gmap string Z := creation_times_ m.

(** The time the manager has for a cookie, and the cookie with that time. *)
Definition time_known m c : Z := default 0 (times m !! GetCookieUniqueID c).

Definition canonical m c : CanonicalCookie := CanonicalCookieFromSystemCookie c (time_known m c).

Definition known m c : Prop := is_Some (times m !! GetCookieUniqueID c).

(** The manager has learnt creation times, and forgotten none. *)
Record learns m m' : Prop := {
  learns_ok : manager_ok m';
  learns_times : times m ⊆ times m';
}.

Lemma learns_refl m : manager_ok m -> learns m m.
Proof. by split. Qed.

Lemma learns_trans m1 m2 m3 : learns m1 m2 -> learns m2 m3 -> learns m1 m3.
Proof. intros [_ H12] [Hok H23]. split; [done | by transitivity (times m2)]. Qed.

Lemma learns_known m m' c : learns m m' -> known m c -> known m' c /\ time_known m' c = time_known m c.
Proof.
  intros [_ Hsub] [t Ht]. unfold known, time_known. rewrite (lookup_weaken _ _ _ _ Ht Hsub), Ht.
  by split; [eexists |].
Qed.

Lemma GetCreationTime_learns c m :
  manager_ok m -> exists m', GetCreationTime c m = Ok (time_known m' c, m') /\ learns m m' /\ known m' c.
Proof.
  intros Hm. destruct (GetCreationTime_ok c m Hm) as (t & m' & Hrun & Hm' & Ht & Hsub).
  exists m'. unfold time_known, known, times. rewrite Ht. split_and!; [done | by split | by eexists].
Qed.

Lemma canonical_list_learns cs m :
  manager_ok m ->
  exists m', canonical_list cs m = Ok (canonical m' <$> cs, m') /\ learns m m' /\ Forall (known m') cs.
Proof.
  revert m. induction cs as [| c cs IH]; intros m Hm; cbn [canonical_list].
  - exists m. split_and!; [done | by apply learns_refl | constructor].
  - destruct (GetCreationTime_learns c m Hm) as (m1 & -> & Hl1 & Hk1). cbn [mbind chk_bind].
    destruct (IH m1 (learns_ok _ _ Hl1)) as (m' & -> & Hl' & Hks). cbn [mbind chk_bind mret chk_ret].
    destruct (learns_known m1 m' c Hl' Hk1) as [Hk Ht].
    exists m'. split_and!; [| by eapply learns_trans | by constructor].
    rewrite fmap_cons. unfold canonical at 2. by rewrite Ht.
Qed.

Lemma canonical_learns m m' cs :
  learns m m' -> Forall (known m) cs -> canonical m' <$> cs = canonical m <$> cs.
Proof.
  intros Hl Hk. apply list_fmap_ext. intros i c Hi. unfold canonical. f_equal.
  apply learns_known; [done |]. rewrite Forall_forall in Hk. apply Hk. by eapply list_elem_of_lookup_2.
Qed.

(** *** The order of RFC 6265 *)
Definition before m (a b : NSHTTPCookie) : Prop :=
  (String.length (ns_path b) < String.length (ns_path a))%nat \/
  (String.length (ns_path b) = String.length (ns_path a) /\ known m a /\ known m b /\
   time_known m a <= time_known m b).

Lemma before_trans m a b c : before m a b -> before m b c -> before m a c.
Proof.
  unfold before. intros [H1 | (H1 & Ka & Kb & Ht1)] [H2 | (H2 & _ & Kc & Ht2)];
    [left; lia | left; lia | left; lia |]. right. split_and!; [lia | done | done | lia].
Qed.

Lemma before_learns m m' a b : learns m m' -> before m a b -> before m' a b.
Proof.
  intros Hl [Hlt | (Heq & Ka & Kb & Ht)]; [by left | right].
  destruct (learns_known m m' a Hl Ka) as [Ka' ->], (learns_known m m' b Hl Kb) as [Kb' ->]. done.
Qed.

Abbreviation rfc_sorted m := (StronglySorted (before m)).

Lemma rfc_sorted_learns m m' l : learns m m' -> rfc_sorted m l -> rfc_sorted m' l.
Proof.
  intros Hl. induction 1 as [| x l Hs IH Hall]; constructor; [done |].
  eapply Forall_impl; [exact Hall |]. intros y. by apply before_learns.
Qed.

Lemma CompareCookies_learns a b m :
  manager_ok m ->
  exists o m', CompareCookies a b m = Ok (o, m') /\ learns m m' /\
    if bool_decide (o = Gt) then before m' b a else before m' a b.
Proof.
  intros Hm. unfold CompareCookies, before.
  destruct (Nat.ltb_spec (String.length (ns_path a)) (String.length (ns_path b))).
  { exists Gt, m. split_and!; [done | by apply learns_refl |]. simpl. by left. }
  destruct (Nat.ltb_spec (String.length (ns_path b)) (String.length (ns_path a))).
  { exists Lt, m. split_and!; [done | by apply learns_refl |]. simpl. by left. }
  destruct (GetCreationTime_learns a m Hm) as (m1 & -> & Hl1 & Ka). cbn [mbind chk_bind].
  destruct (GetCreationTime_learns b m1 (learns_ok _ _ Hl1)) as (m' & -> & Hl' & Kb).
  cbn [mbind chk_bind mret chk_ret]. destruct (learns_known m1 m' a Hl' Ka) as [Ka' <-].
  eexists _, m'. split_and!; [reflexivity | by eapply learns_trans |].
  destruct (Z.compare_spec (time_known m' a) (time_known m' b)); simpl;
    right; (split_and!; [lia | done | done | lia]).
Qed.

Lemma insert_sorted_learns c cs m :
  manager_ok m -> rfc_sorted m cs ->
  exists l m', insert_sorted c cs m = Ok (l, m') /\ learns m m' /\ rfc_sorted m' l /\ l ≡ₚ c :: cs.
Proof.
  revert m. induction cs as [| x cs IH]; intros m Hm Hs; cbn [insert_sorted].
  - exists [c], m. split_and!; [done | by apply learns_refl | by repeat constructor | done].
  - destruct (CompareCookies_learns x c m Hm) as (o & m1 & -> & Hl1 & Ho). cbn [mbind chk_bind].
    pose proof (rfc_sorted_learns m m1 _ Hl1 Hs) as Hs1. pose proof Hs1 as [Hs2 Hall]%StronglySorted_inv.
    assert (Hnext : o <> Gt -> exists l m',
      ('(l, m) ← insert_sorted c cs m1; mret (x :: l, m)) = Ok (l, m') /\ learns m m' /\
      rfc_sorted m' l /\ l ≡ₚ c :: x :: cs).
    { intros Hne. rewrite bool_decide_eq_false_2 in Ho by done.
      destruct (IH m1 (learns_ok _ _ Hl1) Hs2) as (l & m' & -> & Hl' & Hsl & Hp).
      eexists _, m'. split_and!; [reflexivity | by eapply learns_trans | | rewrite Hp; constructor].
      constructor; [done |]. rewrite Hp. constructor; [by eapply before_learns |].
      eapply Forall_impl; [exact Hall |]. intros y. by apply before_learns. }
    destruct o; [by apply Hnext | by apply Hnext |]. simpl in Ho.
    eexists _, m1. split_and!; [reflexivity | done | | done].
    constructor; [done |]. constructor; [done |].
    eapply Forall_impl; [exact Hall |]. intros y. by apply before_trans.
Qed.

Lemma sort_cookies_learns cs sorted m :
  manager_ok m -> rfc_sorted m sorted ->
  exists l m', sort_cookies cs sorted m = Ok (l, m') /\ learns m m' /\ rfc_sorted m' l /\
    l ≡ₚ cs ++ sorted.
Proof.
  revert sorted m. induction cs as [| c cs IH]; intros sorted m Hm Hs; cbn [sort_cookies].
  - exists sorted, m. split_and!; [done | by apply learns_refl | done | done].
  - destruct (insert_sorted_learns c sorted m Hm Hs) as (l1 & m1 & -> & Hl1 & Hs1 & Hp1).
    cbn [mbind chk_bind]. destruct (IH l1 m1 (learns_ok _ _ Hl1) Hs1) as (l & m' & -> & Hl' & Hs' & Hp).
    exists l, m'. split_and!; [done | by eapply learns_trans | done |].
    rewrite Hp, Hp1. by rewrite <- Permutation_middle.
Qed.

Lemma sorted_list_learns cs m :
  manager_ok m ->
  exists l m', sort_cookies cs [] m = Ok (l, m') /\ learns m m' /\ rfc_sorted m' l /\ l ≡ₚ cs.
Proof.
  intros Hm. destruct (sort_cookies_learns cs [] m Hm) as (l & m' & Hrun & Hl & Hs & Hp); [constructor |].
  exists l, m'. by rewrite app_nil_r in Hp.
Qed.
(** ** The invariant of the store *)
Definition cached_names (cache : CookieCache (URL := URL)) : Prop :=
  forall k, Forall (fun x : CanonicalCookie => cc_name x = k.2) (cached cache k).

Record ok w : Prop := {
  ok_manager : manager_ok (creation_time_manager_ w);
  ok_keys : NoDup (cookie_key <$> stored (system_store_ w));
  ok_named : Forall well_named (stored (system_store_ w));
  ok_allowed : policy_never (system_store_ w) = false;
  ok_cache : cache_ok (cookie_cache_ w);
  ok_names : cached_names (cookie_cache_ w);
}.

(** What the parsers of Foundation and of [net] guarantee: no semicolon in a
    name or a domain, and a cookie for the properties of a cookie. *)
Record parser_laws : Prop := {
  law_header line u c : c ∈ cookies_with_header line u -> well_named c;
  law_token s : ParseTokenString s = s -> no_semicolon s = true;
  law_domain u s d : GetCookieDomainWithString u s = Some d -> no_semicolon d = true;
  law_accepts c : accepts_properties c = true;
}.

Context (laws : parser_laws).

Lemma ok_set_times m w : ok w -> learns (creation_time_manager_ w) m -> ok (set_times m w).
Proof. intros [Hm Hk Hn Ha Hc Hcn] [Hm' _]. by split. Qed.

Lemma NoDup_remove_key c cs : NoDup (cookie_key <$> cs) -> NoDup (cookie_key <$> remove_key c cs).
Proof.
  unfold remove_key. induction cs as [| x cs IH]; [done |].
  rewrite fmap_cons, filter_cons. intros [Hno Hnd]%NoDup_cons.
  case_decide; [| by apply IH]. rewrite fmap_cons. apply NoDup_cons. split; [| by apply IH].
  intros (y & Heq & [_ Hy]%list_elem_of_filter)%list_elem_of_fmap. apply Hno. rewrite Heq.
  by apply list_elem_of_fmap_2.
Qed.

Lemma remove_key_named c cs : Forall well_named cs -> Forall well_named (remove_key c cs).
Proof.
  rewrite !Forall_forall. intros Hn x [_ Hx]%list_elem_of_filter. by apply Hn.
Qed.

Lemma add_cookie_ok c t w :
  ok w -> well_named c ->
  exists w', add_cookie c t w = Ok w' /\ ok w' /\
    stored (system_store_ w') = remove_key c (stored (system_store_ w)) ++ [c] /\
    hook_map_ w' = hook_map_ w /\ cookie_cache_ w' = cookie_cache_ w /\
    notified w' = notified w /\ flush_closure_ w' = flush_closure_ w.
Proof.
  intros [Hm Hk Hn Ha Hc Hcn] Hw. unfold add_cookie. simpl.
  destruct (MakeUniqueCreationTime_spec t _ Hm) as (t' & -> & _ & Hno & _). cbn [mbind chk_bind].
  destruct (SetCreationTime_ok c t' _ Hm Hno) as (m' & -> & Hm' & _). cbn [mbind chk_bind mret chk_ret].
  unfold setCookie. rewrite Ha. eexists. split; [reflexivity |]. split; [| done]. split; simpl; try done.
  - rewrite fmap_app. apply NoDup_app. split_and!; [by apply NoDup_remove_key | | apply NoDup_singleton].
    intros k Hin ->%list_elem_of_singleton. apply list_elem_of_fmap in Hin as (y & Heq & Hy).
    apply list_elem_of_filter in Hy as [Hne _]. by apply Hne.
  - apply Forall_app. split; [by apply remove_key_named | by constructor].
Qed.

(** The storage without some cookies. *)
Definition without_keys (gone cs : list NSHTTPCookie) : list NSHTTPCookie :=
  filter (fun c => cookie_key c ∉ cookie_key <$> gone) cs.

Lemma remove_key_without c gone cs :
  without_keys gone (remove_key c cs) = without_keys (c :: gone) cs.
Proof.
  unfold without_keys, remove_key. rewrite list_filter_filter. apply list_filter_iff. intros x.
  rewrite fmap_cons, not_elem_of_cons. tauto.
Qed.

Lemma delete_cookies_ok gone w :
  ok w ->
  exists w', delete_cookies gone w = Ok w' /\ ok w' /\
    stored (system_store_ w') = without_keys gone (stored (system_store_ w)) /\
    hook_map_ w' = hook_map_ w /\ cookie_cache_ w' = cookie_cache_ w /\
    notified w' = notified w /\ flush_closure_ w' = flush_closure_ w.
Proof.
  revert w. induction gone as [| c gone IH]; intros w Hw; cbn [delete_cookies].
  - exists w. split; [done |]. split; [done |]. split; [| done]. unfold without_keys.
    induction (stored (system_store_ w)) as [| x cs IH]; [done |].
    rewrite filter_cons, <- IH. by rewrite decide_True by (by intros ?%elem_of_nil).
  - destruct Hw as [Hm Hk Hn Ha Hc Hcn]. unfold delete_cookie. simpl.
    destruct (DeleteCreationTime_ok c _ Hm) as (m' & -> & Hm' & _). cbn [mbind chk_bind mret chk_ret].
    match goal with |- context [delete_cookies gone ?w1] =>
      destruct (IH w1) as (w' & Hrun & Hok & Hst & Hrest) end.
    { split; simpl; try done; [by apply NoDup_remove_key | by apply remove_key_named]. }
    exists w'. split; [done |]. split; [done |]. split; [| exact Hrest].
    rewrite Hst. simpl. apply remove_key_without.
Qed.
(** What reading leaves alone. *)
Definition same_but_times w w' : Prop :=
  exists m, learns (creation_time_manager_ w) m /\ w' = set_times m w.

Lemma same_but_times_ok w w' : ok w -> same_but_times w w' -> ok w'.
Proof. intros Hw (m & Hl & ->). by apply ok_set_times. Qed.

Lemma collect_learns pred cs m :
  manager_ok m ->
  exists m', collect pred cs m = Ok (List.filter (fun c => pred c (time_known m' c)) cs, m') /\
    learns m m' /\ Forall (known m') cs.
Proof.
  revert m. induction cs as [| c cs IH]; intros m Hm; cbn [collect].
  - exists m. split_and!; [done | by apply learns_refl | constructor].
  - destruct (GetCreationTime_learns c m Hm) as (m1 & -> & Hl1 & Hk1). cbn [mbind chk_bind].
    destruct (IH m1 (learns_ok _ _ Hl1)) as (m' & -> & Hl' & Hks). cbn [mbind chk_bind mret chk_ret].
    destruct (learns_known m1 m' c Hl' Hk1) as [Hk <-].
    exists m'. split_and!; [done | by eapply learns_trans | by constructor].
Qed.

Lemma DeleteCookiesWithFilter_ok pred w :
  ok w ->
  exists m w', learns (creation_time_manager_ w) m /\ Forall (known m) (stored (system_store_ w)) /\
    let gone := List.filter (fun c => pred c (time_known m c)) (stored (system_store_ w)) in
    DeleteCookiesWithFilter pred w = Ok (length gone, w') /\ ok w' /\
    stored (system_store_ w') = without_keys gone (stored (system_store_ w)) /\
    hook_map_ w' = hook_map_ w /\ cookie_cache_ w' = cookie_cache_ w /\
    notified w' = notified w /\ flush_closure_ w' = flush_closure_ w.
Proof.
  intros Hw. unfold DeleteCookiesWithFilter.
  destruct (collect_learns pred (stored (system_store_ w)) _ (ok_manager w Hw)) as (m & -> & Hl & Hk).
  cbn [mbind chk_bind]. set (gone := List.filter _ _).
  destruct (delete_cookies_ok gone (set_times m w)) as (w' & Hrun & Hrest); [by apply ok_set_times |].
  exists m, w'. split; [done |]. split; [done |]. cbv zeta. rewrite Hrun. split; [done | exact Hrest].
Qed.

Lemma canonical_cookies_ok cs w :
  ok w ->
  exists m, CanonicalCookieListFromSystemCookies cs w = Ok (canonical m <$> cs, set_times m w) /\
    learns (creation_time_manager_ w) m /\ Forall (known m) cs.
Proof.
  intros Hw. unfold CanonicalCookieListFromSystemCookies.
  destruct (canonical_list_learns cs _ (ok_manager w Hw)) as (m & -> & Hl & Hk). by exists m.
Qed.

Lemma sorted_cookies_ok cs w :
  ok w ->
  exists l m, ('(l, m) ← sort_cookies cs [] (creation_time_manager_ w); mret (l, set_times m w)) =
      Ok (l, set_times m w) /\
    learns (creation_time_manager_ w) m /\ rfc_sorted m l /\ l ≡ₚ cs.
Proof.
  intros Hw. destruct (sorted_list_learns cs _ (ok_manager w Hw)) as (l & m & -> & Hrest). by exists l, m.
Qed.

(** The cookies of a list, sorted and with their times. *)
Lemma read_sorted_ok cs w :
  ok w ->
  exists l m, ('(cs, w) ← ('(l, m) ← sort_cookies cs [] (creation_time_manager_ w);
                           mret (l, set_times m w));
               '(l, w) ← CanonicalCookieListFromSystemCookies cs w; mret (Some l, w)) =
      Ok (Some (canonical m <$> l), set_times m w) /\
    learns (creation_time_manager_ w) m /\ rfc_sorted m l /\ l ≡ₚ cs /\ Forall (known m) l.
Proof.
  intros Hw. destruct (sorted_cookies_ok cs w Hw) as (l & m1 & -> & Hl1 & Hs & Hp).
  cbn [mbind chk_bind].
  destruct (canonical_cookies_ok l (set_times m1 w)) as (m & -> & Hl & Hk); [by apply ok_set_times |].
  exists l, m. split; [done |]. split; [by eapply learns_trans |].
  split; [by eapply rfc_sorted_learns | done].
Qed.

(** ** Events *)
Inductive event :=
| ESetLine u (cookie_line : string) (server_time now later : Z)
| ESetDetails u (name value domain path : string) (creation_time expiration_time : Z)
    (secure http_only : bool) (now : Z)
| EGetLine u
| EGetList u
| EGetAll
| EDelete u (cookie_name : string)
| EDeleteCanonical (cookie : CanonicalCookie)
| EDeleteBetween (delete_begin delete_end : Z)
| EDeletePredicate (delete_begin delete_end : Z) (predicate : option (CanonicalCookie -> bool))
| EDeleteSession
| EHook u (name : string) (f : nat)
(** The system changes its cookies, and tells the store later. *)
| ESystem (cs : list NSHTTPCookie)
| ENotify (now : Z)
| EFlush
(** The time is [now], and the task of [flush_closure_] runs if it is due. *)
| ETimer (now : Z).

Definition handle (e : event) w : chk CookieStoreIOS :=
  match e with
  | ESetLine u line server_time now later =>
      r ← SetCookieWithOptionsAsync u line false server_time now later w; mret r.2
  | ESetDetails u name value domain path creation expiration secure http_only now =>
      r ← SetCookieWithDetailsAsync u name value domain path creation expiration secure http_only now w;
      mret r.2
  | EGetLine u => r ← GetCookiesWithOptionsAsync u false w; mret r.2
  | EGetList u => r ← GetCookieListWithOptionsAsync u w; mret r.2
  | EGetAll => r ← GetAllCookiesAsync w; mret r.2
  | EDelete u name => DeleteCookieAsync u name w
  | EDeleteCanonical cookie => r ← DeleteCanonicalCookieAsync cookie w; mret r.2
  | EDeleteBetween b e => r ← DeleteAllCreatedBetweenAsync b e w; mret r.2
  | EDeletePredicate b e p => r ← DeleteAllCreatedBetweenWithPredicateAsync b e p w; mret r.2
  | EDeleteSession => r ← DeleteSessionCookiesAsync w; mret r.2
  | EHook u name f => AddCallbackForCookie u name f w
  | ESystem cs => mret (w <| system_store_ := system_store_ w <| stored := cs |> |>)
  | ENotify now => OnSystemCookiesChanged now w
  | EFlush => FlushStore w
  | ETimer now =>
      match flush_closure_ w with
      | Some due => if due <=? now then FlushStore w else mret w
      | None => mret w
      end
  end.

Fixpoint handle_all (es : list event) w : chk CookieStoreIOS :=
  match es with
  | [] => mret w
  | e :: es => w ← handle e w; handle_all es w
  end.

(** The system keeps one well named cookie for a name, a domain and a path. *)
Definition system_cookies (cs : list NSHTTPCookie) : Prop :=
  NoDup (cookie_key <$> cs) /\ Forall well_named cs.

Definition regular (e : event) : Prop := match e with ESystem cs => system_cookies cs | _ => True end.
(** ** Setting a cookie *)
Lemma header_cookie_ok line u server_time now :
  exists r, GetNSHTTPCookieFromCookieLine line u server_time now = Ok r /\
    forall c, r = Some c -> well_named c.
Proof.
  unfold GetNSHTTPCookieFromCookieLine, cookieWithProperties.
  destruct (is_utf8 line); [| by eexists].
  destruct (cookies_with_header line u) as [| c [|]] eqn:Hc; [by eexists | | by eexists].
  assert (Hw : well_named c) by (apply (law_header laws line u); rewrite Hc; left).
  destruct (expiresDate c); [destruct (server_time =? 0) |];
    try (eexists; split; [reflexivity |]; by intros c' [= <-]).
  rewrite (law_accepts laws). eexists. split; [reflexivity |]. by intros c' [= <-].
Qed.

Lemma SetCookieWithOptionsAsync_ok u line server_time now later w :
  ok w -> exists b w', SetCookieWithOptionsAsync u line false server_time now later w = Ok (b, w') /\ ok w' /\
    hook_map_ w' = hook_map_ w /\ cookie_cache_ w' = cookie_cache_ w /\ notified w' = notified w /\
    flush_closure_ w' = flush_closure_ w.
Proof.
  intros Hw. unfold SetCookieWithOptionsAsync, SystemCookiesAllowed. rewrite (ok_allowed w Hw).
  cbn [negb dcheck mbind chk_bind]. destruct (header_cookie_ok line u server_time now) as (r & -> & Hr).
  cbn [mbind chk_bind]. destruct r as [c |]; [| by exists false, w].
  destruct (negb (String.eqb (ns_domain c) "") && _); [| by exists false, w].
  destruct (add_cookie_ok c later w Hw (Hr c eq_refl)) as (w' & -> & Hok & _ & Hrest).
  cbn [mbind chk_bind mret chk_ret]. by exists true, w'.
Qed.

Lemma SetCookieWithDetailsAsync_ok u name value domain path creation expiration secure http_only now w :
  ok w -> exists b w',
    SetCookieWithDetailsAsync u name value domain path creation expiration secure http_only now w = Ok (b, w') /\
    ok w' /\ hook_map_ w' = hook_map_ w /\ cookie_cache_ w' = cookie_cache_ w /\ notified w' = notified w /\
    flush_closure_ w' = flush_closure_ w.
Proof.
  intros Hw. unfold SetCookieWithDetailsAsync, SystemCookiesAllowed. rewrite (ok_allowed w Hw).
  cbn [negb dcheck mbind chk_bind].
  destruct (String.eqb_spec (ParseTokenString name) name) as [Hname |]; [| by exists false, w].
  destruct (negb true || _ || _ || _); [by exists false, w |].
  destruct (secure && _); [by exists false, w |].
  destruct (GetCookieDomainWithString u domain) as [d |] eqn:Hd; [| by exists false, w].
  destruct (negb (String.eqb path "") && _); [by exists false, w |].
  unfold SystemCookieFromCanonicalCookie, cookieWithProperties. rewrite (law_accepts laws).
  destruct (is_utf8 _ && _ && _ && _); cbn [deref mbind chk_bind mret chk_ret]; [| by exists false, w].
  match goal with |- context [add_cookie ?c ?t w] => destruct (add_cookie_ok c t w Hw)
    as (w' & -> & Hok & _ & Hrest) end.
  { split; simpl; [by apply (law_token laws) | by apply (law_domain laws u domain)]. }
  cbn [mbind chk_bind mret chk_ret]. by exists true, w'.
Qed.

(** ** Updating a hook *)
Definition system_tuple c : list string := [ns_domain c; ns_path c; ns_name c; ns_value c].

(** The cookies of a name that the system sends to a URL, up to their times and
    attributes. *)
Definition visible k w : gset (list string) :=
  list_to_set (system_tuple <$> List.filter (fun c => String.eqb (ns_name c) k.2)
                                   (cookiesForURL k.1 (system_store_ w))).

Lemma same_key_same_cookie cs c c' :
  NoDup (cookie_key <$> cs) -> c ∈ cs -> c' ∈ cs -> cookie_key c = cookie_key c' -> c = c'.
Proof.
  intros Hnd [i Hi]%list_elem_of_lookup [j Hj]%list_elem_of_lookup Hk.
  assert (i = j) as ->; [| congruence].
  eapply NoDup_lookup; [exact Hnd | |]; rewrite list_lookup_fmap; [by rewrite Hi | by rewrite Hj, Hk].
Qed.

Lemma singleton_list {A} (l : list A) a : NoDup l -> (forall x, x ∈ l <-> x = a) -> l = [a].
Proof.
  intros Hnd Hl. destruct l as [| x [| y l]].
  - destruct (proj1 (elem_of_nil a)). by apply Hl.
  - f_equal. apply Hl. left.
  - apply NoDup_cons in Hnd as [Hno _]. destruct Hno.
    rewrite (proj1 (Hl x) ltac:(left)), (proj1 (Hl y) ltac:(right; left)). left.
Qed.

Lemma elem_of_CookieSet_of (x : CanonicalCookie) (l : list CanonicalCookie) :
  x ∈ (CookieSet_of l : list CanonicalCookie) -> x ∈ l.
Proof. exact (elem_of_set_of_range _ _ (CookieComparator_lex (H := canonical_cookies)) x l). Qed.

Lemma canonical_tuples m cs :
  NoDup (cookie_key <$> cs) ->
  tuples (CookieSet_of (canonical m <$> cs)) = list_to_set (system_tuple <$> cs).
Proof.
  intros Hnd. apply set_eq. intros t. rewrite elem_of_tuples, elem_of_list_to_set, !list_elem_of_fmap.
  split.
  - intros (x & -> & Hx). apply (elem_of_set_of_range _ _ CookieComparator_lex) in Hx.
    apply list_elem_of_fmap in Hx as (c & -> & Hc). by exists c.
  - intros (c & -> & Hc).
    assert (Hid : @identity canonical_cookies (canonical m c) ∈
                  @identity canonical_cookies <$> CookieSet_of (canonical m <$> cs)).
    { apply (set_of_range_keys _ identity CookieComparator_lex). by do 2 apply list_elem_of_fmap_2. }
    apply list_elem_of_fmap in Hid as (x & Heq & Hx). pose proof Hx as Hx'.
    apply (elem_of_set_of_range _ _ CookieComparator_lex) in Hx'.
    apply list_elem_of_fmap in Hx' as (c' & -> & Hc').
    exists (canonical m c'). split; [| done]. injection Heq as Hd Hp Hn.
    rewrite (same_key_same_cookie cs c c' Hnd Hc Hc'); [done |].
    unfold cookie_key. by rewrite Hd, Hp, Hn.
Qed.

Lemma NoDup_key_filter (P : NSHTTPCookie -> bool) cs :
  NoDup (cookie_key <$> cs) -> NoDup (cookie_key <$> List.filter P cs).
Proof.
  induction cs as [| c cs IH]; [done |]. rewrite fmap_cons. intros [Hno Hnd]%NoDup_cons. simpl.
  destruct (P c); [| by apply IH]. rewrite fmap_cons. apply NoDup_cons. split; [| by apply IH].
  intros (x & Heq & Hx)%list_elem_of_fmap. apply Hno. rewrite Heq. apply list_elem_of_fmap_2.
  apply list_elem_of_In, filter_In in Hx as [Hx _]. by apply list_elem_of_In.
Qed.

(** The notifications of some cookies. *)
Definition notes (fs : list nat) (cookies : list CanonicalCookie) (cause : ChangeCause)
    : list notification :=
  cookies ≫= fun x => (fun f => {| callback := f; about := x; cause := cause |}) <$> fs.

Lemma notify_all_run fs name cookies cause w :
  Forall (fun x => cc_name x = name) cookies ->
  notify_all fs name cookies cause w = Ok (w <| notified := notified w ++ notes fs cookies cause |>).
Proof.
  intros Hn. revert w. induction Hn as [| x l Hx _ IH]; intros w; cbn [notify_all].
  - unfold notes. simpl. rewrite app_nil_r. by destruct w.
  - rewrite Hx, String.eqb_refl. cbn [dcheck mbind chk_bind]. rewrite IH. unfold notes.
    rewrite bind_cons. simpl. by rewrite app_assoc.
Qed.

Lemma RunCallbacksForCookies_run u name fs cookies cause w :
  hook_find (u, name) (hook_map_ w) = Some fs -> Forall (fun x => cc_name x = name) cookies ->
  RunCallbacksForCookies u name cookies cause w =
    Ok (w <| notified := notified w ++ notes fs cookies cause |>).
Proof.
  intros Hf Hn. unfold RunCallbacksForCookies. destruct cookies as [| x l].
  - unfold notes. simpl. rewrite app_nil_r. by destruct w.
  - rewrite Hf. cbn [deref mbind chk_bind]. by apply notify_all_run.
Qed.
(** What an update of the cache for a key does to the store. *)
Record updated_cache k w w' : Prop := {
  uc_ok : ok w';
  uc_storage : system_store_ w' = system_store_ w;
  uc_hooks : hook_map_ w' = hook_map_ w;
  uc_flush : flush_closure_ w' = flush_closure_ w;
  uc_cached : tuples (cached (cookie_cache_ w') k) = visible k w;
  uc_others k' : k' <> k -> cached (cookie_cache_ w') k' = cached (cookie_cache_ w) k';
}.

Lemma Forall_filter_list (P Q : CanonicalCookie -> Prop) `{forall x, Decision (Q x)} l :
  Forall P l -> Forall P (filter Q l).
Proof. rewrite !Forall_forall. intros Hl x [_ Hx]%list_elem_of_filter. by apply Hl. Qed.

(** An update finds the changes of the cookies that are visible. *)
Lemma UpdateCacheForCookieFromSystem_ok k out_removed out_added w :
  ok w ->
  exists changed gone come w',
    UpdateCacheForCookieFromSystem k.1 k.2 out_removed out_added w =
      Ok (changed, (fun out => out ++ gone) <$> out_removed, (fun out => out ++ come) <$> out_added, w') /\
    updated_cache k w w' /\ notified w' = notified w /\
    Forall (fun x : CanonicalCookie => cc_name x = k.2) gone /\
    Forall (fun x : CanonicalCookie => cc_name x = k.2) come /\
    tuples gone = tuples (cached (cookie_cache_ w) k) ∖ visible k w /\
    tuples come = visible k w ∖ tuples (cached (cookie_cache_ w) k) /\
    (changed = false -> gone = [] /\ come = []).
Proof.
  intros Hw. unfold UpdateCacheForCookieFromSystem, GetSystemCookies.
  set (cs := List.filter _ _). assert (Hnd : NoDup (cookie_key <$> cs)).
  { do 2 apply NoDup_key_filter. apply (ok_keys w Hw). }
  destruct (canonical_cookies_ok cs w Hw) as (m & -> & Hl & _). cbn [mbind chk_bind mret chk_ret].
  pose proof (ok_set_times m w Hw Hl) as [Hm' Hk' Hn' Ha' Hc' Hcn'].
  change (cookie_cache_ (set_times m w)) with (cookie_cache_ w) in *.
  destruct (Update_run (H := canonical_cookies) k.1 k.2 (canonical m <$> cs) out_removed out_added (cookie_cache_ w) Hc')
    as (c' & changed & Hrun & Hok & Hch & Hsame & Hother).
  rewrite Hrun. replace (k.1, k.2) with k in * by (by destruct k).
  set (old := cached (cookie_cache_ w) k) in *. set (new := CookieSet_of (canonical m <$> cs)) in *.
  assert (Hvis : tuples new = visible k w) by (by apply canonical_tuples).
  assert (Hold : Forall (fun x : CanonicalCookie => cc_name x = k.2) old) by apply Hcn'.
  assert (Hnew : Forall (fun x : CanonicalCookie => cc_name x = k.2) new).
  { apply Forall_forall. intros x Hx%elem_of_CookieSet_of.
    apply list_elem_of_fmap in Hx as (c & -> & Hc). unfold cs in Hc.
    apply list_elem_of_In, filter_In in Hc as [_ Hc]. by apply String.eqb_eq in Hc. }
  eexists changed, _, _, _. split; [reflexivity |]. split_and!.
  - split; try done; simpl.
    + split; simpl; try done. intros k'. destruct (decide (k' = k)) as [-> | Hne].
      * rewrite Hsame. by destruct changed.
      * rewrite (Hother k' Hne). apply Hcn'.
    + rewrite Hsame, <- Hvis. destruct changed; [done |]. apply dec_stable. by intros ?%Hch.
  - done.
  - by apply Forall_filter_list.
  - by apply Forall_filter_list.
  - by rewrite tuples_filter, Hvis.
  - by rewrite tuples_filter, Hvis.
  - intros ->. assert (Heq : tuples old = tuples new) by (apply dec_stable; by intros ?%Hch).
    split; apply (tuples_nil (H := canonical_cookies)); rewrite tuples_filter, Heq;
      apply difference_diag_L.
Qed.

Lemma update_hook_run k fs w :
  ok w -> hook_find k (hook_map_ w) = Some fs ->
  exists gone come w', update_hook k w = Ok w' /\ updated_cache k w w' /\
    notified w' = notified w ++ notes fs gone UNKNOWN_DELETION ++ notes fs come INSERTED /\
    tuples gone = tuples (cached (cookie_cache_ w) k) ∖ visible k w /\
    tuples come = visible k w ∖ tuples (cached (cookie_cache_ w) k).
Proof.
  intros Hw Hf. unfold update_hook.
  destruct (UpdateCacheForCookieFromSystem_ok k (Some []) (Some []) w Hw)
    as (changed & gone & come & w1 & -> & Hu & Hnot & Hng & Hnc & Hg & Hc & Hno).
  cbn [mbind chk_bind]. simpl. exists gone, come. destruct changed.
  - assert (Hf1 : hook_find (k.1, k.2) (hook_map_ w1) = Some fs).
    { rewrite (uc_hooks _ _ _ Hu). by destruct k. }
    rewrite (RunCallbacksForCookies_run _ _ _ _ _ _ Hf1 Hng). cbn [mbind chk_bind].
    rewrite (RunCallbacksForCookies_run _ _ fs); [| done | done].
    eexists. split; [reflexivity |]. split; [| split; [| done]].
    + destruct Hu as [[? ? ? ? ? ?] ? ? ? ? ?]. by split.
    + simpl. by rewrite Hnot, <- app_assoc.
  - destruct (Hno eq_refl) as [-> ->]. exists w1. unfold notes. simpl.
    by rewrite app_nil_r, Hnot.
Qed.

Lemma hook_find_fst k l : k ∈ l.*1 -> exists fs, hook_find k l = Some fs.
Proof.
  unfold hook_find. induction l as [| [k' fs] l IH]; simpl; [by intros ?%elem_of_nil |].
  destruct (bool_decide_reflect (k' = k)) as [-> | Hne]; [by exists fs |].
  intros [-> | Hin]%elem_of_cons; [done | by apply IH].
Qed.


Lemma update_hooks_ok ks w :
  ok w -> ks ⊆ (hook_map_ w).*1 ->
  exists w', update_hooks ks w = Ok w' /\ ok w' /\ system_store_ w' = system_store_ w /\
    hook_map_ w' = hook_map_ w /\ flush_closure_ w' = flush_closure_ w.
Proof.
  revert w. induction ks as [| k ks IH]; intros w Hw Hks; cbn [update_hooks]; [by exists w |].
  destruct (hook_find_fst k (hook_map_ w)) as [fs Hf]; [apply Hks; left |].
  destruct (update_hook_run k fs w Hw Hf) as (gone & come & w1 & -> & Hu & _). cbn [mbind chk_bind].
  destruct (IH w1) as (w' & -> & Hok & Hst & Hh & Hfl).
  - apply (uc_ok _ _ _ Hu).
  - rewrite (uc_hooks _ _ _ Hu). intros k' Hk'. apply Hks. by right.
  - destruct Hu. exists w'. split_and!; try done; congruence.
Qed.

Lemma hook_find_set k k' v l :
  hook_find k (hook_set k' v l) = if bool_decide (k = k') then Some v else hook_find k l.
Proof.
  induction l as [| [k1 v1] l IH]; unfold hook_find in *; simpl.
  - destruct (bool_decide_reflect (k' = k)), (bool_decide_reflect (k = k')); simpl; congruence.
  - destruct (bool_decide_reflect (k1 = k')) as [-> | Hne]; simpl.
    + destruct (bool_decide_reflect (k' = k)), (bool_decide_reflect (k = k')); simpl; congruence.
    + destruct (key_less k' k1); simpl.
      * destruct (bool_decide_reflect (k' = k)), (bool_decide_reflect (k = k')); simpl; congruence.
      * destruct (bool_decide_reflect (k1 = k)) as [-> | Hne']; [| exact IH].
        simpl. by rewrite bool_decide_eq_false_2 by done.
Qed.
(** ** Histories *)
Lemma FlushStore_ok w :
  ok w ->
  exists m, FlushStore w = Ok (set_times m w
      <| cookie_monster_ := cookie_monster_ w ++ [SetAllCookies (canonical m <$> stored (system_store_ w))]
                            ++ [MonsterFlush] |> <| flush_closure_ := None |>) /\
    learns (creation_time_manager_ w) m /\ Forall (known m) (stored (system_store_ w)).
Proof.
  intros Hw. unfold FlushStore, SystemCookiesAllowed, WriteToCookieMonster. rewrite (ok_allowed w Hw).
  destruct (canonical_cookies_ok (stored (system_store_ w)) w Hw) as (m & -> & Hl & Hk).
  cbn [negb mbind chk_bind mret chk_ret]. exists m. split; [| done]. simpl. by rewrite <- app_assoc.
Qed.

Lemma AddCallbackForCookie_ok u name f w :
  ok w ->
  let k := (u, name) in
  exists w', AddCallbackForCookie u name f w = Ok w' /\ ok w' /\
    system_store_ w' = system_store_ w /\ flush_closure_ w' = flush_closure_ w /\
    notified w' = notified w /\
    (forall k', hook_find k' (hook_map_ w') =
       if bool_decide (k' = k) then Some (default [] (hook_find k (hook_map_ w)) ++ [f])
       else hook_find k' (hook_map_ w)) /\
    (forall k', k' <> k -> cached (cookie_cache_ w') k' = cached (cookie_cache_ w) k') /\
    match hook_find k (hook_map_ w) with
    | Some _ => cookie_cache_ w' = cookie_cache_ w
    | None => tuples (cached (cookie_cache_ w') k) = visible k w
    end.
Proof.
  intros Hw k. unfold AddCallbackForCookie. fold k.
  destruct (hook_find k (hook_map_ w)) as [fs |] eqn:Hf; cbn [mbind chk_bind mret chk_ret].
  - rewrite Hf. cbn [deref mbind chk_bind mret chk_ret]. eexists. split; [reflexivity |].
    split; [by destruct Hw; split |]. do 3 (split; [done |]). split; [| done].
    intros k'. apply hook_find_set.
  - destruct (UpdateCacheForCookieFromSystem_ok k None None w Hw)
      as (changed & gone & come & w1 & Hrun & Hu & Hnot & _).
    unfold k in Hrun at 1 2. simpl in Hrun. rewrite Hrun. cbn [mbind chk_bind mret chk_ret]. simpl.
    rewrite hook_find_set, bool_decide_eq_true_2 by done. cbn [deref mbind chk_bind mret chk_ret].
    destruct Hu as [Hok Hst Hh Hfl Hc Hother]. eexists. split; [reflexivity |].
    split; [by destruct Hok; split |]. do 3 (split; [done |]). split; [| done].
    intros k'. simpl. rewrite !hook_find_set, Hh.
    by destruct (bool_decide_reflect (k' = k)).
Qed.

(** What the hooks see of an event, unless it is about them. *)
Definition hooks_same w w' : Prop :=
  hook_map_ w' = hook_map_ w /\ cookie_cache_ w' = cookie_cache_ w /\ notified w' = notified w.

Definition about_hooks (e : event) : bool :=
  match e with ENotify _ | EHook _ _ _ => true | _ => false end.

Definition about_flush (e : event) : bool :=
  match e with ENotify _ | EFlush | ETimer _ => true | _ => false end.

Definition step_ok (e : event) w w' : Prop :=
  ok w' /\ (about_hooks e = false -> hooks_same w w') /\
  (about_flush e = false -> flush_closure_ w' = flush_closure_ w).

Lemma filter_step (e : event) pred w :
  ok w -> about_hooks e = false ->
  exists w', (r ← DeleteCookiesWithFilter pred w; mret r.2) = Ok w' /\ step_ok e w w'.
Proof.
  intros Hw He. destruct (DeleteCookiesWithFilter_ok pred w Hw) as (m & w' & _ & _ & Hrun & Hok & _ & Hrest).
  rewrite Hrun. exists w'. split; [done |]. split; [done |]. by destruct Hrest as (? & ? & ? & ?).
Qed.

Lemma times_step (e : event) m w :
  ok w -> learns (creation_time_manager_ w) m -> step_ok e w (set_times m w).
Proof. intros Hw Hl. split; [by apply ok_set_times | done]. Qed.

Lemma OnSystemCookiesChanged_ok now w :
  ok w ->
  exists w', OnSystemCookiesChanged now w = Ok w' /\ ok w' /\ system_store_ w' = system_store_ w /\
    hook_map_ w' = hook_map_ w /\
    flush_closure_ w' = Some (default (now + flush_delay) (flush_closure_ w)).
Proof.
  intros Hw. unfold OnSystemCookiesChanged.
  destruct (update_hooks_ok (hook_map_ w).*1 w Hw) as (w1 & -> & Hok & Hst & Hh & Hfl); [done |].
  cbn [mbind chk_bind]. rewrite Hfl. destruct (flush_closure_ w) as [d |] eqn:Hd; eexists.
  - split; [reflexivity |]. split_and!; done.
  - split; [reflexivity |]. split; [by destruct Hok; split |]. split_and!; done.
Qed.

Lemma cookie_event_ok e w : ok w -> regular e -> exists w', handle e w = Ok w' /\ step_ok e w w'.
Proof.
  intros Hw He. destruct e as [u line st now later | u n v d p ct et s h now | u | u | | u n | x | b e
    | b e p | | u n f | cs | now | | now]; cbn [handle regular] in *;
    try (by apply (filter_step _ _ w Hw)).
  - destruct (SetCookieWithOptionsAsync_ok u line st now later w Hw) as (b & w' & -> & Hok & ? & ? & ? & ?).
    by exists w'.
  - destruct (SetCookieWithDetailsAsync_ok u n v d p ct et s h now w Hw) as (b & w' & -> & Hok & ? & ? & ? & ?).
    by exists w'.
  - unfold GetCookiesWithOptionsAsync, SystemCookiesAllowed. rewrite (ok_allowed w Hw).
    cbn [negb dcheck mbind chk_bind]. unfold GetCookiesForURL.
    destruct (sorted_cookies_ok (cookiesForURL u (system_store_ w)) w Hw) as (l & m & -> & Hl & _).
    eexists. split; [reflexivity |]. by apply times_step.
  - unfold GetCookieListWithOptionsAsync, SystemCookiesAllowed. rewrite (ok_allowed w Hw).
    destruct (read_sorted_ok (cookiesForURL u (system_store_ w)) w Hw) as (l & m & Hrun & Hl & _).
    unfold GetCookiesForURL. cbn [negb]. rewrite Hrun. eexists. split; [reflexivity |]. by apply times_step.
  - unfold GetAllCookiesAsync, SystemCookiesAllowed. rewrite (ok_allowed w Hw).
    destruct (read_sorted_ok (stored (system_store_ w)) w Hw) as (l & m & Hrun & Hl & _).
    unfold GetAllCookies. cbn [negb]. rewrite Hrun. eexists. split; [reflexivity |]. by apply times_step.
  - unfold DeleteCookieAsync, GetCookiesForURL.
    destruct (sorted_cookies_ok (cookiesForURL u (system_store_ w)) w Hw) as (l & m & -> & Hl & _).
    cbn [mbind chk_bind].
    destruct (delete_cookies_ok (List.filter (fun c => is_utf8 n && String.eqb (ns_name c) n) l) (set_times m w))
      as (w' & Hrun & Hok & _ & ? & ? & ? & ?); [by apply ok_set_times |].
    rewrite Hrun. exists w'. split; [done |]. by split.
  - destruct (AddCallbackForCookie_ok u n f w Hw) as (w' & Hrun & Hok & _ & Hfl & _).
    exists w'. split; [done |]. split; [done |]. split; [discriminate | done].
  - eexists. split; [reflexivity |]. split; [| done]. destruct He as [Hk Hn], Hw. by split.
  - destruct (OnSystemCookiesChanged_ok now w Hw) as (w' & Hrun & Hok & _).
    exists w'. split; [done |]. split; [done | split; discriminate].
  - destruct (FlushStore_ok w Hw) as (m & -> & Hl & _). eexists. split; [reflexivity |].
    split; [| done]. destruct (ok_set_times m w Hw Hl). by split.
  - destruct (flush_closure_ w) as [due |]; [destruct (due <=? now) |];
      [| exists w; split; [done |]; by split .. ].
    destruct (FlushStore_ok w Hw) as (m & -> & Hl & _). eexists. split; [reflexivity |].
    split; [| done]. destruct (ok_set_times m w Hw Hl). by split.
Qed.

Lemma cookie_history_ok es w : ok w -> Forall regular es -> exists w', handle_all es w = Ok w' /\ ok w'.
Proof.
  intros Hw Hes. revert w Hw. induction Hes as [| e es He _ IH]; intros w Hw; [by exists w |].
  destruct (cookie_event_ok e w Hw He) as (w1 & H1 & Hok & _). destruct (IH w1 Hok) as (w' & H2 & Hok').
  exists w'. cbn [handle_all]. by rewrite H1.
Qed.


Lemma CookieStoreIOS_new_ok storage :
  system_cookies (stored storage) -> policy_never storage = false -> ok (CookieStoreIOS_new storage).
Proof.
  intros [Hk Hn] Ha. split; try done; [apply new_manager_ok |].
  intros k. unfold cached. simpl. rewrite lookup_empty. constructor.
Qed.
(** ** Unique creation times *)
Lemma same_time_same_key m c c' :
  manager_ok m -> well_named c -> well_named c' -> known m c -> known m c' ->
  time_known m c = time_known m c' -> cookie_key c = cookie_key c'.
Proof.
  intros Hm Hw Hw' [t Ht] [t' Ht']. unfold time_known. rewrite Ht, Ht'. simpl. intros <-.
  apply unique_id_key; [done | done |]. by apply (mk_unique m Hm _ _ t).
Qed.

Lemma NoDup_times m cs :
  manager_ok m -> NoDup (cookie_key <$> cs) -> Forall well_named cs -> Forall (known m) cs ->
  NoDup (CreationDate <$> (canonical m <$> cs)).
Proof.
  intros Hm Hnd Hw Hk. induction cs as [| c cs IH]; [constructor |].
  rewrite !fmap_cons in *. apply NoDup_cons in Hnd as [Hno Hnd].
  apply Forall_cons in Hw as [Hwc Hw], Hk as [Hkc Hk]. apply NoDup_cons. split; [| by apply IH].
  intros (x & Heq & (c' & -> & Hc')%list_elem_of_fmap)%list_elem_of_fmap. apply Hno.
  rewrite Forall_forall in Hw, Hk. rewrite (same_time_same_key m c c'); [| auto ..].
  by apply list_elem_of_fmap_2.
Qed.

(** A cookie without its creation time. *)
Definition undated (x : CanonicalCookie) : CanonicalCookie :=
  {| cc_name := cc_name x; cc_value := cc_value x; cc_domain := cc_domain x; cc_path := cc_path x;
     CreationDate := 0; ExpiryDate := ExpiryDate x; IsSecure := IsSecure x; IsHttpOnly := IsHttpOnly x |}.

(** Longer paths first, then earlier creation times. *)
Definition rfc_before (a b : CanonicalCookie) : Prop :=
  (String.length (cc_path b) < String.length (cc_path a))%nat \/
  (String.length (cc_path b) = String.length (cc_path a) /\ CreationDate a < CreationDate b).

Lemma rfc_sorted_canonical m l :
  rfc_sorted m l -> NoDup (CreationDate <$> (canonical m <$> l)) ->
  StronglySorted rfc_before (canonical m <$> l).
Proof.
  induction 1 as [| c l Hs IH Hall]; [constructor |]. rewrite !fmap_cons.
  intros [Hno Hnd]%NoDup_cons. constructor; [by apply IH |].
  apply Forall_forall. intros x (c' & -> & Hc')%list_elem_of_fmap. rewrite Forall_forall in Hall.
  unfold rfc_before. simpl. destruct (Hall c' Hc') as [Hlt | (Heq & _ & _ & Ht)]; [by left | right].
  split; [done |]. assert (time_known m c <> time_known m c'); [| lia]. intros Hsame. apply Hno.
  simpl. rewrite Hsame. change (time_known m c') with (CreationDate (canonical m c')).
  by do 2 apply list_elem_of_fmap_2.
Qed.

Lemma GetAllCookies_ok w :
  ok w ->
  exists cs m, GetAllCookiesAsync w = Ok (Some (canonical m <$> cs), set_times m w) /\
    ok (set_times m w) /\ cs ≡ₚ stored (system_store_ w) /\ Forall (known m) cs /\ rfc_sorted m cs.
Proof.
  intros Hw. unfold GetAllCookiesAsync, SystemCookiesAllowed. rewrite (ok_allowed w Hw).
  destruct (read_sorted_ok (stored (system_store_ w)) w Hw) as (l & m & Hrun & Hl & Hs & Hp & Hk).
  unfold GetAllCookies. cbn [negb]. rewrite Hrun. exists l, m.
  split; [done |]. split; [by apply ok_set_times | done].
Qed.

Section history.
Context (storage : NSHTTPCookieStorage).
Context (H_system : system_cookies (stored storage)) (H_allowed : policy_never storage = false).

(** C22. Whatever is set, deleted, read or changed by the system before, all
    cookies can be read: no check fails, exactly the cookies of the system are
    returned, with creation times no two of them share, the longest path first
    and then the earliest creation time. *)
Theorem all_cookies_are_read (es : list event) (H_regular : Forall regular es) :
  exists w l w', handle_all es (CookieStoreIOS_new storage) = Ok w /\
    GetAllCookiesAsync w = Ok (Some l, w') /\ system_store_ w' = system_store_ w /\
    undated <$> l ≡ₚ (fun c => CanonicalCookieFromSystemCookie c 0) <$> stored (system_store_ w) /\
    NoDup (CreationDate <$> l) /\ StronglySorted rfc_before l.
Proof.
  destruct (cookie_history_ok es _ (CookieStoreIOS_new_ok storage H_system H_allowed) H_regular)
    as (w & Hrun & Hw).
  destruct (GetAllCookies_ok w Hw) as (cs & m & Hall & Hok & Hp & Hk & Hs).
  exists w, (canonical m <$> cs), (set_times m w). do 3 (split; [done |]).
  assert (Hnd : NoDup (CreationDate <$> (canonical m <$> cs))).
  { apply NoDup_times; [apply (ok_manager _ Hok) | | | done].
    - rewrite Hp. apply (ok_keys _ Hok).
    - rewrite Hp. apply (ok_named _ Hok). }
  split; [| split; [done | by apply rfc_sorted_canonical]].
  rewrite <- Hp, <- list_fmap_compose. done.
Qed.

(** C21. To delete one of the cookies that were read deletes that cookie and no
    other, unless its creation time is the null time. *)
Theorem one_cookie_is_deleted (es : list event) w l w' x (H_regular : Forall regular es)
    (H_run : handle_all es (CookieStoreIOS_new storage) = Ok w)
    (H_read : GetAllCookiesAsync w = Ok (Some l, w')) (H_in : x ∈ l) (H_dated : CreationDate x <> 0) :
  exists w'', DeleteCanonicalCookieAsync x w' = Ok (1%nat, w'') /\
    stored (system_store_ w'') =
      filter (fun c => cookie_key c <> (cc_name x, cc_domain x, cc_path x)) (stored (system_store_ w')).
Proof.
  destruct (cookie_history_ok es _ (CookieStoreIOS_new_ok storage H_system H_allowed) H_regular)
    as (w1 & Hrun & Hw). rewrite H_run in Hrun. injection Hrun as <-.
  destruct (GetAllCookies_ok w Hw) as (cs & m & Hall & Hok & Hp & Hk & _).
  rewrite H_read in Hall. injection Hall as -> ->.
  apply list_elem_of_fmap in H_in as (c0 & -> & Hc0). simpl in H_dated.
  pose proof Hc0 as Hst. rewrite Hp in Hst.
  destruct (DeleteCookiesWithFilter_ok (IsCookieCreatedBetween (time_known m c0) (time_known m c0)) (set_times m w) Hok)
    as (m' & w'' & Hl & Hk' & Hdel & _ & Hafter & _). exists w''.
  change (stored (system_store_ (set_times m w))) with (stored (system_store_ w)) in *.
  change (creation_time_manager_ (set_times m w)) with m in Hl.
  assert (Hkeep : forall c, c ∈ stored (system_store_ w) -> time_known m' c = time_known m c).
  { intros c Hc. apply learns_known; [done |]. rewrite Forall_forall in Hk. apply Hk. by rewrite Hp. }
  set (gone := List.filter _ _) in Hdel, Hafter.
  assert (Hgone : forall c, c ∈ gone <-> c = c0).
  { intros c. unfold gone. rewrite list_elem_of_In, filter_In, <- list_elem_of_In.
    unfold IsCookieCreatedBetween. rewrite (proj2 (Z.eqb_neq _ _) H_dated). simpl. split.
    - intros [Hc Ht]. rewrite Hkeep in Ht by done. rewrite Forall_forall in Hk.
      assert (Hsame : cookie_key c = cookie_key c0).
      { pose proof (ok_named _ Hok) as Hn. rewrite Forall_forall in Hn.
        apply (same_time_same_key m); [apply (ok_manager _ Hok) | auto .. | lia].
        - apply Hk. by rewrite Hp. }
      exact (same_key_same_cookie _ _ _ (ok_keys _ Hok) Hc Hst Hsame).
    - intros ->. split; [done |]. rewrite Hkeep by done. lia. }
  assert (Hone : gone = [c0]).
  { apply singleton_list; [| done].
    apply NoDup_fmap_1 with (f := cookie_key), NoDup_key_filter, (ok_keys _ Hok). }
  rewrite Hone in Hdel, Hafter. split; [exact Hdel |]. rewrite Hafter. unfold without_keys.
  apply list_filter_iff. intros c. simpl. by rewrite list_elem_of_singleton.
Qed.
(** ** The delayed flush *)
Definition notifies_by (now : Z) (e : event) : Prop :=
  match e with ENotify t => t <= now | _ => True end.

Definition flushes (e : event) : bool := match e with EFlush | ETimer _ => true | _ => false end.

(** The task of a flush that was not cancelled is due at most the delay later. *)
Definition due_by (now : Z) w : Prop := forall d, flush_closure_ w = Some d -> d <= now + flush_delay.

Lemma due_by_step now e w w' :
  ok w -> regular e -> notifies_by now e -> handle e w = Ok w' -> due_by now w -> due_by now w'.
Proof.
  intros Hw He Hn Hrun Hd. destruct (cookie_event_ok e w Hw He) as (w1 & Hrun1 & _ & _ & Hsame).
  rewrite Hrun in Hrun1. injection Hrun1 as <-. unfold due_by in *.
  destruct e; try (by rewrite Hsame); cbn [handle notifies_by] in *.
  - destruct (OnSystemCookiesChanged_ok now0 w Hw) as (w1 & Hrun1 & _ & _ & _ & Hf).
    rewrite Hrun in Hrun1. injection Hrun1 as <-. rewrite Hf. intros d [= <-].
    destruct (flush_closure_ w) as [d |]; simpl; [by apply Hd | lia].
  - destruct (FlushStore_ok w Hw) as (m & Hf & _). rewrite Hf in Hrun. injection Hrun as <-. done.
  - destruct (flush_closure_ w) as [due |] eqn:Hfl; [destruct (due <=? now0) |];
      [| injection Hrun as <-; by rewrite Hfl ..].
    destruct (FlushStore_ok w Hw) as (m & Hf & _). rewrite Hf in Hrun. injection Hrun as <-. done.
Qed.

Lemma due_by_history now es w w' :
  ok w -> Forall regular es -> Forall (notifies_by now) es -> handle_all es w = Ok w' ->
  due_by now w -> due_by now w'.
Proof.
  intros Hw He. revert w Hw. induction He as [| e es He _ IH]; intros w Hw Hn Hrun Hd;
    cbn [handle_all] in Hrun; [by injection Hrun as <- |].
  apply Forall_cons in Hn as [Hne Hn]. apply bind_Ok_inv in Hrun as (w1 & H1 & Hrun).
  destruct (cookie_event_ok e w Hw He) as (w1' & H1' & Hok & _). rewrite H1 in H1'. injection H1' as <-.
  apply (IH w1); try done. exact (due_by_step now e w w1 Hw He Hne H1 Hd).
Qed.

(** Until the flush the task stays the same. *)
Lemma flush_stays es w w' d :
  ok w -> Forall regular es -> forallb (fun e => negb (flushes e)) es = true ->
  handle_all es w = Ok w' -> flush_closure_ w = Some d -> flush_closure_ w' = Some d.
Proof.
  intros Hw He. revert w Hw. induction He as [| e es He _ IH]; intros w Hw Hn Hrun Hd;
    cbn [handle_all forallb] in *; [by injection Hrun as <- |].
  apply andb_prop in Hn as [Hne Hn]. apply bind_Ok_inv in Hrun as (w1 & H1 & Hrun).
  destruct (cookie_event_ok e w Hw He) as (w1' & H1' & Hok & _ & Hsame). rewrite H1 in H1'.
  injection H1' as <-. apply (IH w1); try done. clear IH Hrun.
  destruct e; try discriminate; try (by rewrite Hsame).
  destruct (OnSystemCookiesChanged_ok now w Hw) as (w2 & H2 & _ & _ & _ & Hf).
  cbn [handle] in H1. rewrite H1 in H2. injection H2 as <-. by rewrite Hf, Hd.
Qed.

(** C35. A change of the system's cookies reaches the backing store: when the
    store is told of it at a time [now], then ten seconds later, unless it is
    flushed before, all cookies of the system are written to it, with creation
    times no two of them share, and it is flushed. *)
Theorem changes_are_flushed (es es' : list event) (now t : Z) w w1 w2
    (H_regular : Forall regular (es ++ es')) (H_clock : Forall (notifies_by now) es)
    (H_before : handle_all es (CookieStoreIOS_new storage) = Ok w)
    (H_notify : handle (ENotify now) w = Ok w1)
    (H_quiet : forallb (fun e => negb (flushes e)) es' = true)
    (H_after : handle_all es' w1 = Ok w2) (H_due : now + flush_delay <= t) :
  exists l w3, handle (ETimer t) w2 = Ok w3 /\
    cookie_monster_ w3 = cookie_monster_ w2 ++ [SetAllCookies l; MonsterFlush] /\
    undated <$> l = (fun c => CanonicalCookieFromSystemCookie c 0) <$> stored (system_store_ w2) /\
    NoDup (CreationDate <$> l) /\ flush_closure_ w3 = None.
Proof.
  apply Forall_app in H_regular as [He He'].
  pose proof (CookieStoreIOS_new_ok storage H_system H_allowed) as H0'.
  destruct (cookie_history_ok es _ H0' He) as (w' & Hrun & Hw). rewrite H_before in Hrun.
  injection Hrun as <-. assert (Hd : due_by now w).
  { by apply (due_by_history now es (CookieStoreIOS_new storage) w H0' He H_clock H_before). }
  destruct (OnSystemCookiesChanged_ok now w Hw) as (w1' & Hrun & Hw1 & _ & _ & Hf).
  cbn [handle] in H_notify. rewrite H_notify in Hrun. injection Hrun as <-.
  destruct (cookie_history_ok es' w1 Hw1 He') as (w2' & Hrun & Hw2). rewrite H_after in Hrun.
  injection Hrun as <-. pose proof (flush_stays es' w1 w2 _ Hw1 He' H_quiet H_after Hf) as Hf2.
  cbn [handle]. rewrite Hf2. rewrite (proj2 (Z.leb_le _ _)).
  2: { destruct (flush_closure_ w) as [d |] eqn:Hfw; simpl; [specialize (Hd d Hfw); lia | lia]. }
  destruct (FlushStore_ok w2 Hw2) as (m & -> & Hl & Hk). eexists _, _. split; [reflexivity |].
  split; [reflexivity |]. split; [by rewrite <- list_fmap_compose |]. split; [| done].
  apply NoDup_times; [apply Hl | apply (ok_keys _ Hw2) | apply (ok_named _ Hw2) | done].
Qed.


















End history.
End store.

(** ** Example *)
Module ConcreteStore.
#[local] Instance seconds : NSTimeApi :=
  {| CFAbsoluteTime := Z; below_two := fun t => t <? 2; FromCFAbsoluteTime := fun t => t * 1000000 |}.

Definition system_cookie (name value domain path : string) (created : Z) : NSHTTPCookie :=
  {| ns_name := name; ns_value := value; ns_domain := domain; ns_path := path;
     expiresDate := None; isSessionOnly := true; isSecure := false; isHTTPOnly := false;
     Created := created |}.

Definition plain (s : string) : option string := if no_semicolon s then Some s else None.

Definition explicit_domain (u s : string) : option string := plain (if String.eqb s "" then u else s).

(** A URL is a host, and a line the value of the cookie [id]. *)
#[local] Instance foundation : CookieEnvironment string := {|
  cookies_with_header := fun line u =>
    match plain u with Some d => [system_cookie "id" line d "/" 900] | None => [] end;
  requestHeaderFields := foldr (fun c s => (ns_name c ++ "=" ++ ns_value c ++ "; " ++ s)%string) ""%string;
  is_utf8 := fun _ => true;
  cf_one := 1;
  accepts_properties := fun _ => true;
  sent_to := fun u c => String.eqb (ns_domain c) u;
  ParseTokenString := fun s => default ""%string (plain s);
  ParseValueString := fun s => s;
  HasDomain := fun _ => false;
  GetCookieDomainWithString := explicit_domain;
  CanonPathWithString := fun _ path => path;
  CanonicalizePath := fun path => path;
  SchemeIsCryptographic := fun _ => true;
  URL_less := fun u u' => String.ltb u u'; |}.

Lemma plain_law s s' : plain s = Some s' -> no_semicolon s' = true.
Proof. unfold plain. destruct (no_semicolon s) eqn:Hs; [| done]. by intros [= <-]. Qed.

Lemma foundation_laws : parser_laws (URL := string).
Proof.
  split.
  - intros line u c. simpl. destruct (plain u) eqn:Hu; [| by intros ?%elem_of_nil].
    intros ->%list_elem_of_singleton. split; [done |]. by apply (plain_law u).
  - intros s. simpl. unfold plain. destruct (no_semicolon s) eqn:Hs; [done |]. by intros <-.
  - intros u s d. apply plain_law.
  - done.
Qed.

(** A cookie the system made, and one made from properties before the last
    start of the application. *)
Definition storage : NSHTTPCookieStorage :=
  {| stored := [system_cookie "a" "1" "x.org" "/" 500; system_cookie "b" "2" "x.org" "/dir" 1];
     policy_never := false |}.

Lemma storage_ok : system_cookies (stored storage).
Proof. split; [| by repeat constructor]. apply NoDup_cons. split; [| by apply NoDup_singleton].
  by intros [=]%list_elem_of_singleton. Qed.

Definition history : list (event (URL := string)) :=
  [ESetLine "x.org" "7" 0 0 1000; ESetDetails "y.org" "c" "3" "" "/p" 1000 0 false false 2000;
   EGetLine "x.org"; EHook "x.org" "a" 4].

Definition result (m : chk (CookieStoreIOS (URL := string))) : CookieStoreIOS :=
  from_ok (CookieStoreIOS_new storage) m.

Definition after_history : CookieStoreIOS := result (handle_all history (CookieStoreIOS_new storage)).

Lemma history_runs : handle_all history (CookieStoreIOS_new storage) = Ok after_history.
Proof. apply okb_run. vm_cast_no_check (@eq_refl bool true). Qed.

Definition all_of (w : CookieStoreIOS (URL := string)) : list CanonicalCookie :=
  match GetAllCookiesAsync w with Ok (Some l, _) => l | _ => [] end.

(** The longest paths first; the second cookie with the time 1000 gets 1001. *)
Example history_cookies :
  (fun x => (cc_name x, CreationDate x)) <$> all_of after_history =
  [("b", 0); ("c", 1001); ("id", 1000); ("a", 500000000)]%string.
Proof. vm_compute. reflexivity. Qed.

Definition null_dated : CanonicalCookie :=
  {| cc_name := "b"; cc_value := "2"; cc_domain := "x.org"; cc_path := "/dir"; CreationDate := 0;
     ExpiryDate := 0; IsSecure := false; IsHttpOnly := false |}.

Definition read_history : CookieStoreIOS (URL := string) :=
  match GetAllCookiesAsync after_history with Ok (_, w) => w | Fault => after_history end.

(** To delete a cookie whose creation time is the null time deletes every
    cookie: as the end of the range that time is the end of time. *)
Example delete_null_dated_deletes_all :
  head (all_of after_history) = Some null_dated /\
  all_of (match DeleteCanonicalCookieAsync null_dated read_history with
          | Ok (_, w) => w | Fault => read_history end) = [].
Proof. split; vm_compute; reflexivity. Qed.

Definition dated : CanonicalCookie :=
  {| cc_name := "a"; cc_value := "1"; cc_domain := "x.org"; cc_path := "/"; CreationDate := 500000000;
     ExpiryDate := 0; IsSecure := false; IsHttpOnly := false |}.

Lemma history_read : GetAllCookiesAsync after_history = Ok (Some (all_of after_history), read_history).
Proof. vm_cast_no_check (@eq_refl _ (GetAllCookiesAsync after_history)). Qed.

Lemma regular_history : Forall regular history.
Proof. by repeat constructor. Qed.

Lemma all_cookies_are_read_witness :
  exists w l w', handle_all history (CookieStoreIOS_new storage) = Ok w /\
    GetAllCookiesAsync w = Ok (Some l, w') /\ system_store_ w' = system_store_ w /\
    undated <$> l ≡ₚ (fun c => CanonicalCookieFromSystemCookie c 0) <$> stored (system_store_ w) /\
    NoDup (CreationDate <$> l) /\ StronglySorted rfc_before l.
Proof. exact (all_cookies_are_read foundation_laws storage storage_ok eq_refl history regular_history). Defined.

Lemma one_cookie_is_deleted_witness :
  exists w'', DeleteCanonicalCookieAsync dated read_history = Ok (1%nat, w'') /\
    stored (system_store_ w'') =
      filter (fun c => cookie_key c <> ("a", "x.org", "/")%string) (stored (system_store_ read_history)).
Proof.
  refine (one_cookie_is_deleted foundation_laws storage storage_ok eq_refl history after_history
    (all_of after_history) read_history dated regular_history history_runs history_read _ _).
  - apply list_elem_of_lookup. exists 3%nat. vm_cast_no_check (@eq_refl _ (Some dated)).
  - discriminate.
Defined.

(** The system is changed, the store is told of it and a line is set. *)
Definition changed : list NSHTTPCookie := [system_cookie "a" "9" "x.org" "/" 600].

Definition told : CookieStoreIOS (URL := string) :=
  result (handle (ENotify 5000000) (result (handle_all (history ++ [ESystem changed])
    (CookieStoreIOS_new storage)))).

Definition later : list (event (URL := string)) := [ESetLine "x.org" "8" 0 0 3000; ENotify 6000000].

Lemma told_runs :
  handle (ENotify 5000000) (result (handle_all (history ++ [ESystem changed]) (CookieStoreIOS_new storage))) =
    Ok told.
Proof. apply okb_run. vm_cast_no_check (@eq_refl bool true). Qed.

Lemma later_runs : handle_all later told = Ok (result (handle_all later told)).
Proof. apply okb_run. vm_cast_no_check (@eq_refl bool true). Qed.

Lemma changed_regular : Forall regular ((history ++ [ESystem changed]) ++ later).
Proof.
  unfold history, later. simpl. do 4 (constructor; [done |]). constructor; [| by repeat constructor].
  split; [apply NoDup_singleton | by repeat constructor].
Qed.

Lemma changes_are_flushed_witness :
  exists l w3, handle (ETimer 15000000) (result (handle_all later told)) = Ok w3 /\
    cookie_monster_ w3 =
      cookie_monster_ (result (handle_all later told)) ++ [SetAllCookies l; MonsterFlush] /\
    undated <$> l = (fun c => CanonicalCookieFromSystemCookie c 0) <$>
      stored (system_store_ (result (handle_all later told))) /\
    NoDup (CreationDate <$> l) /\ flush_closure_ w3 = None.
Proof.
  refine (changes_are_flushed foundation_laws storage storage_ok eq_refl
    (history ++ [ESystem changed]) later 5000000 15000000 _ told (result (handle_all later told))
    changed_regular _ _ told_runs eq_refl later_runs _).
  - by repeat constructor.
  - apply okb_run. vm_cast_no_check (@eq_refl bool true).
  - done.
Defined.

End ConcreteStore.
