(* ===== verification/ProtocolHandlerUtil.v ===== *)
(** * Requests and responses of the system

    [net/protocol_handler_util.mm]: the response that the system is given for
    a request of the network stack, the headers a request of the system has
    there, and the errors.  UTF-8, the detection of encodings, the comparison
    of strings without case and the header lists of [net] are parameters. *)
From stdpp Require Import pretty.
From Stdlib Require Import Ascii Init.Byte.
From S2P Require Import Prelude.
#[local] Open Scope Z_scope.

(** Foundation and [base].  [recode] is [DetectEncoding] followed by
    [ConvertToUtf8AndNormalize]. *)
Class HeaderApi := {
  utf8 : string -> bool;
  recode : string -> option string;
  same_ignoring_case : string -> string -> bool;
  HttpRequestHeaders : Type;
  no_headers : HttpRequestHeaders;
  SetHeader : string -> string -> HttpRequestHeaders -> HttpRequestHeaders;
  SetHeaderIfMissing : string -> string -> HttpRequestHeaders -> HttpRequestHeaders;
}.

(** [net::HttpResponseHeaders] *)
Record HttpResponseHeaders := {
  header_lines : list (string * string);
  major_value : N;
  minor_value : N;
}.

(** What a [net::URLRequest] says of its response.  No [response_url] when the
    URL cannot be made an [NSURL]. *)
Record response_info := {
  response_url : option string;
  is_data_url : bool;
  mime_type : string;
  charset : string;
  response_headers : option HttpResponseHeaders;
  GetResponseCode : Z;
}.

Inductive NSURLResponse :=
| PlainResponse (url mime_type charset : string)
| HTTPResponse (url : string) (status_code : Z) (version : string) (fields : gmap string string).

Record NSError := {
  error_code : Z;
  underlying_code : Z;
  failing_url : string;
  creation_date : Z;
}.

Definition GetIOSError (ns_error_code net_error_code : Z) (url : option string) (creation_time : Z)
    : chk NSError :=
  url ← deref url;
  mret {| error_code := ns_error_code; underlying_code := net_error_code; failing_url := url;
          creation_date := creation_time |}.

Inductive NSURLRequestCachePolicy :=
| UseProtocolCachePolicy
| ReloadIgnoringLocalCacheData
| ReloadIgnoringLocalAndRemoteCacheData
| ReturnCacheDataElseLoad
| ReturnCacheDataDontLoad
| ReloadRevalidatingCacheData.

(** [NSURLRequest]; a URL is its text. *)
Record NSURLRequest := {
  URL : string;
  HTTPMethod : string;
  HTTPBody : option (list byte);
  HTTPBodyStream : bool;
  allHTTPHeaderFields : list (string * string);
  mainDocumentURL : string;
  cachePolicy : NSURLRequestCachePolicy;
  HTTPShouldHandleCookies : bool;
}.

#[export] Instance nsrequest_fields : Fields NSURLRequest := fun r =>
  {| URL := URL r; HTTPMethod := HTTPMethod r; HTTPBody := HTTPBody r;
     HTTPBodyStream := HTTPBodyStream r; allHTTPHeaderFields := allHTTPHeaderFields r;
     mainDocumentURL := mainDocumentURL r; cachePolicy := cachePolicy r;
     HTTPShouldHandleCookies := HTTPShouldHandleCookies r |}.

(** [rangeOfString:@","] and [substringToIndex:] *)
Fixpoint before_comma (s : string) : string :=
  match s with
  | EmptyString => EmptyString
  | String a s => if Ascii.eqb a ","%char then EmptyString else String a (before_comma s)
  end.

Section util.
Context `{HeaderApi}.

Definition SysUTF8ToNSString (s : string) : option string := if utf8 s then Some s else None.

(** ** Responses *)

(** The value of a header line, without one when its encoding is unknown. *)
Definition header_value (value : string) : chk (option string) :=
  match SysUTF8ToNSString value with
  | Some v => mret (Some v)
  | None =>
      match recode value with
      | None => mret None
      | Some value_utf8 => v ← deref (SysUTF8ToNSString value_utf8); mret (Some v)
      end
  end.

Definition add_header_line (line : string * string) (has_content_type_header : bool)
    (header_fields : gmap string string) : chk (bool * gmap string string) :=
  match SysUTF8ToNSString line.1 with
  | None => mret (has_content_type_header, header_fields)
  | Some key =>
      if same_ignoring_case key "cache-control" then mret (has_content_type_header, header_fields)
      else
        let is_content_type := same_ignoring_case key "Content-Type" in
        let key := if is_content_type then "Content-Type"%string else key in
        let has_content_type_header := is_content_type || has_content_type_header in
        v ← header_value line.2;
        match v with
        | None => mret (has_content_type_header, header_fields)
        | Some v =>
            let v := match header_fields !! key with
                     | Some existing => (existing +:+ "," +:+ v)%string
                     | None => v
                     end in
            mret (has_content_type_header, <[key := v]> header_fields)
        end
  end.

Fixpoint add_header_lines (lines : list (string * string)) (has_content_type_header : bool)
    (header_fields : gmap string string) : chk (bool * gmap string string) :=
  match lines with
  | [] => mret (has_content_type_header, header_fields)
  | line :: lines =>
      '(has_content_type_header, header_fields) ←
        add_header_line line has_content_type_header header_fields;
      add_header_lines lines has_content_type_header header_fields
  end.

(** The type of the content, when no header says it, and its first part. *)
Definition fix_content_type (mime_type : string) (has_content_type_header : bool)
    (header_fields : gmap string string) : gmap string string :=
  let header_fields :=
    if has_content_type_header then header_fields
    else match SysUTF8ToNSString mime_type with
         | Some type => if String.eqb type "" then header_fields
                        else <["Content-Type"%string := type]> header_fields
         | None => header_fields
         end in
  match header_fields !! "Content-Type"%string with
  | Some content_type => <["Content-Type"%string := before_comma content_type]> header_fields
  | None => header_fields
  end.

Definition http_version (headers : option HttpResponseHeaders) : string :=
  match headers with
  | Some h => ("HTTP/" +:+ pretty (major_value h) +:+ "." +:+ pretty (minor_value h))%string
  | None => "HTTP/1.1"
  end.

Definition GetNSURLResponseForRequest (request : response_info) : chk NSURLResponse :=
  url ← deref (response_url request);
  if is_data_url request then
    mime ← deref (SysUTF8ToNSString (mime_type request));
    charset ← deref (SysUTF8ToNSString (charset request));
    mret (PlainResponse url mime charset)
  else
    let lines := match response_headers request with Some h => header_lines h | None => [] end in
    '(has_content_type_header, header_fields) ← add_header_lines lines false ∅;
    let header_fields := fix_content_type (mime_type request) has_content_type_header header_fields in
    mret (HTTPResponse url (GetResponseCode request) (http_version (response_headers request))
            (<["Cache-Control"%string := "no-store"%string]> header_fields)).

(** ** Requests *)

(** What [CopyHttpHeaders] sets of a [net::URLRequest]. *)
Record copied_headers := {
  extra_request_headers : HttpRequestHeaders;
  referrer : option string;
}.

Definition copy_header (header : string * string) (out : copied_headers) : copied_headers :=
  if String.eqb header.1 "Referer" then
    {| extra_request_headers := extra_request_headers out; referrer := Some header.2 |}
  else if String.eqb header.1 "User-Agent" then out
  else {| extra_request_headers := SetHeader header.1 header.2 (extra_request_headers out);
          referrer := referrer out |}.

(** [headers] is a dictionary, in the order of its enumeration. *)
Definition CopyHttpHeaders (headers : list (string * string)) (has_upload : bool) (method : string)
    : copied_headers :=
  let out := foldl (fun out h => copy_header h out)
               {| extra_request_headers := no_headers; referrer := None |} headers in
  let net_headers := SetHeaderIfMissing "Accept" "*/*" (extra_request_headers out) in
  let net_headers :=
    if has_upload && String.eqb method "POST"
    then SetHeaderIfMissing "Content-Type" "application/x-www-form-urlencoded" net_headers
    else net_headers in
  {| extra_request_headers := net_headers; referrer := referrer out |}.

(** ** The header fields of a response *)

(** The key under which a line is put, if it is not left out. *)
Definition line_key (name : string) : option string :=
  if negb (utf8 name) || same_ignoring_case name "cache-control" then None
  else if same_ignoring_case name "Content-Type" then Some "Content-Type"%string else Some name.

Definition line_value (value : string) : option string :=
  if utf8 value then Some value else recode value.

(** The values of the lines of a key, in their order. *)
Definition values_of (key : string) (lines : list (string * string)) : list string :=
  omap (fun line => if bool_decide (line_key line.1 = Some key) then line_value line.2 else None) lines.

(** The values of a header with several lines, RFC 2616. *)
Definition joined (values : list string) : option string :=
  match values with
  | [] => None
  | v :: vs => Some (foldl (fun s v => s +:+ "," +:+ v)%string v vs)
  end.

Definition has_line (key : string) (lines : list (string * string)) : bool :=
  existsb (fun line => bool_decide (line_key line.1 = Some key)) lines.

(** What the conversion of encodings and the comparison guarantee. *)
Record header_laws : Prop := {
  law_recode s s' : recode s = Some s' -> utf8 s' = true;
  law_same s : same_ignoring_case s s = true;
}.

Context (laws : header_laws).

Lemma header_value_run value : header_value value = Ok (line_value value).
Proof.
  unfold header_value, line_value, SysUTF8ToNSString. destruct (utf8 value); [done |].
  destruct (recode value) as [v |] eqn:Hv; [| done]. by rewrite (law_recode laws _ _ Hv).
Qed.

Definition add_value (v : string) (old : option string) : string :=
  match old with Some s => (s +:+ "," +:+ v)%string | None => v end.

Definition with_line (line : string * string) (fields : gmap string string) : gmap string string :=
  match line_key line.1, line_value line.2 with
  | Some key, Some v => <[key := add_value v (fields !! key)]> fields
  | _, _ => fields
  end.

Lemma add_header_line_run line has fields :
  add_header_line line has fields =
    Ok (bool_decide (line_key line.1 = Some "Content-Type"%string) || has, with_line line fields).
Proof.
  unfold with_line.
  unfold add_header_line, line_key, SysUTF8ToNSString.
  destruct (utf8 line.1); simpl; [| done].
  destruct (same_ignoring_case line.1 "cache-control"); [done |].
  rewrite header_value_run. cbn [mbind chk_bind].
  destruct (same_ignoring_case line.1 "Content-Type") eqn:Hct.
  - by destruct (line_value line.2).
  - rewrite bool_decide_eq_false_2; [by destruct (line_value line.2) |].
    intros [= Heq]. by rewrite Heq, (law_same laws) in Hct.
Qed.

(** The values that are added to a field. *)
Definition extended (old : option string) (values : list string) : option string :=
  foldl (fun old v => Some (add_value v old)) old values.

Lemma extended_None values : extended None values = joined values.
Proof.
  destruct values as [| v values]; [done |]. simpl. unfold extended. simpl.
  revert v. induction values as [| v' values IH]; intros v; [done |]. simpl. apply IH.
Qed.

Lemma add_header_lines_run lines has fields :
  exists fields', add_header_lines lines has fields =
      Ok (has || has_line "Content-Type" lines, fields') /\
    forall key, fields' !! key = extended (fields !! key) (values_of key lines).
Proof.
  revert has fields. induction lines as [| line lines IH]; intros has fields; cbn [add_header_lines].
  - exists fields. by rewrite orb_false_r.
  - rewrite add_header_line_run. cbn [mbind chk_bind].
    destruct (IH (bool_decide (line_key line.1 = Some "Content-Type"%string) || has) (with_line line fields))
      as (fields' & -> & Hf).
    exists fields'. unfold has_line. simpl. split; [do 2 f_equal; by destruct has, (bool_decide (line_key line.1 = Some "Content-Type"%string)) |].
    intros key. rewrite Hf. unfold values_of. simpl. unfold with_line.
    destruct (line_key line.1) as [k |]; [destruct (line_value line.2) as [v |] |];
      [| by destruct (bool_decide _) | done].
    destruct (decide (k = key)) as [-> | Hne].
    + rewrite bool_decide_eq_true_2 by done. by rewrite lookup_insert_eq.
    + rewrite bool_decide_eq_false_2 by congruence. by rewrite lookup_insert_ne.
Qed.

(** The type of the content: that of the lines, else the MIME type. *)
Definition content_type (mime : string) (lines : list (string * string)) : option string :=
  if has_line "Content-Type" lines then joined (values_of "Content-Type" lines)
  else if utf8 mime && negb (String.eqb mime "") then Some mime else None.

Lemma values_of_nothing key lines : has_line key lines = false -> values_of key lines = [].
Proof.
  unfold has_line, values_of. induction lines as [| line lines IH]; [done |]. simpl.
  intros [-> Hno]%orb_false_iff. by apply IH.
Qed.

Lemma fix_content_type_lookup mime lines fields key :
  fields !! "Content-Type"%string = joined (values_of "Content-Type" lines) ->
  fix_content_type mime (has_line "Content-Type" lines) fields !! key =
    if bool_decide (key = "Content-Type"%string) then before_comma <$> content_type mime lines
    else fields !! key.
Proof.
  intros Hct. unfold fix_content_type, content_type, SysUTF8ToNSString.
  destruct (has_line "Content-Type" lines) eqn:Hhas.
  - rewrite Hct. destruct (joined _) eqn:Hj; case_bool_decide as Hk;
      [subst; by rewrite lookup_insert_eq | by rewrite lookup_insert_ne | by subst | done].
  - rewrite (values_of_nothing _ _ Hhas) in Hct. simpl in Hct.
    destruct (utf8 mime); simpl; [destruct (String.eqb mime "") |]; simpl;
      rewrite ?lookup_insert_eq, ?Hct; case_bool_decide as Hk; subst; rewrite ?lookup_insert_eq; try done.
    by rewrite !lookup_insert_ne.
Qed.

(** C38. The response to a request that is not of a data URL has the status and
    the version of the answer, no line of the answer is lost or reordered but
    those that are left out (names and values that are no text, and
    Cache-Control, which is always no-store), and the type of the content is the
    first part of that of the lines, or the MIME type when there is no line. *)
Theorem response_headers_spec (request : response_info) url
    (H_url : response_url request = Some url) (H_http : is_data_url request = false) :
  let lines := match response_headers request with Some h => header_lines h | None => [] end in
  exists fields,
    GetNSURLResponseForRequest request =
      Ok (HTTPResponse url (GetResponseCode request) (http_version (response_headers request)) fields) /\
    fields !! "Cache-Control"%string = Some "no-store"%string /\
    fields !! "Content-Type"%string = before_comma <$> content_type (mime_type request) lines /\
    forall key, key <> "Cache-Control"%string -> key <> "Content-Type"%string ->
      fields !! key = joined (values_of key lines).
Proof.
  intros lines. unfold GetNSURLResponseForRequest. rewrite H_url, H_http. fold lines.
  cbn [deref mbind chk_bind]. destruct (add_header_lines_run lines false ∅) as (fields & -> & Hf).
  cbn [mbind chk_bind mret chk_ret orb]. eexists. split; [reflexivity |].
  assert (Hj : forall key, fields !! key = joined (values_of key lines)).
  { intros key. rewrite Hf, lookup_empty. apply extended_None. }
  split; [by rewrite lookup_insert_eq | split].
  - rewrite lookup_insert_ne by done. rewrite fix_content_type_lookup by apply Hj.
    by rewrite bool_decide_eq_true_2.
  - intros key Hc Ht. rewrite lookup_insert_ne by done. rewrite fix_content_type_lookup by apply Hj.
    by rewrite bool_decide_eq_false_2.
Qed.
End util.

(** ** Example *)
Module ConcreteHeaders.
#[local] Instance headers : HeaderApi := {|
  utf8 := fun s => negb (String.eqb s "?"); recode := fun _ => None;
  same_ignoring_case := fun s s' => String.eqb s s' ||
    (String.eqb s "content-type" && String.eqb s' "Content-Type");
  HttpRequestHeaders := list (string * string); no_headers := [];
  SetHeader := fun k v l => l ++ [(k, v)];
  SetHeaderIfMissing := fun k v l =>
    if existsb (fun h => String.eqb h.1 k) l then l else l ++ [(k, v)]; |}.

Lemma headers_laws : header_laws.
Proof. split; [done |]. intros s. simpl. by rewrite String.eqb_refl. Qed.

Definition answer (lines : list (string * string)) : response_info :=
  {| response_url := Some "http://a.org"%string; is_data_url := false; mime_type := "text/plain";
     charset := ""; response_headers := Some {| header_lines := lines; major_value := 1; minor_value := 0 |};
     GetResponseCode := 200 |}.

Definition fields_of (lines : list (string * string)) : gmap string string :=
  match GetNSURLResponseForRequest (answer lines) with Ok (HTTPResponse _ _ _ f) => f | _ => ∅ end.

(** One line whose value has a comma is cut, although there is nothing to
    choose from. *)
Example single_type_is_cut :
  fields_of [("content-type", "text/html; title=a,b")]%string !! "Content-Type"%string =
    Some "text/html; title=a"%string.
Proof. vm_compute. reflexivity. Qed.

(** A type that is no text is left out, and the MIME type is not used. *)
Example unreadable_type_is_no_type :
  fields_of [("Content-Type", "?")]%string !! "Content-Type"%string = None.
Proof. vm_compute. reflexivity. Qed.

Lemma response_headers_spec_witness :
  let lines := [("Via", "a"); ("content-type", "text/html"); ("Via", "b"); ("cache-control", "public")]%string in
  exists fields,
    GetNSURLResponseForRequest (answer lines) =
      Ok (HTTPResponse "http://a.org" 200 (http_version (response_headers (answer lines))) fields) /\
    fields !! "Cache-Control"%string = Some "no-store"%string /\
    fields !! "Content-Type"%string = before_comma <$> content_type (mime_type (answer lines)) lines /\
    forall key, key <> "Cache-Control"%string -> key <> "Content-Type"%string ->
      fields !! key = joined (values_of key lines).
Proof. exact (response_headers_spec headers_laws (answer _) "http://a.org" eq_refl eq_refl). Defined.
End ConcreteHeaders.
