(* ===== verification/ProtocolHandlerProxy.v ===== *)
(** * The proxy of a protocol handler

    [net/crn_http_protocol_handler_proxy_with_client_thread.mm]: it passes the
    calls of the network thread on to the system, on the thread on which the
    system started the request.

    The invocations posted to that thread, [posted], are run in their order.
    What the system is called with is a log.  While it is called it can call
    back: that is its [reaction].  The class is used by one request. *)
From S2P Require Import Prelude ProtocolHandlerUtil.
From Stdlib Require Import Init.Byte.
#[local] Open Scope Z_scope.

(** The calls of [NSURLProtocolClient]. *)
Inductive invocation :=
| Failed (error : NSError)
| LoadedData (data : list byte)
| ReceivedResponse (response : NSURLResponse)
| Redirected (request : NSURLRequest) (response : NSURLResponse)
| FinishedLoading.

(** The calls of [CRNNetworkClientProtocol]. *)
Inductive client_call :=
| didFailWithNSErrorCode (ns_error_code net_error_code : Z)
| didLoadData (data : list byte)
| didReceiveResponse (response : NSURLResponse)
| wasRedirectedToRequest (request : NSURLRequest) (response : NSURLResponse)
| didFinishLoading
| didCreateNativeRequest
| cancelAuthRequest.

(** [_queuedInvocations] is nil after [invalidate]. *)
Record Proxy := {
  _protocol : bool;
  _url : option string;
  _creationTime : Z;
  _requestComplete : bool;
  _paused : bool;
  _queuedInvocations : option (list invocation);
  posted : list invocation;
  received : list invocation;
}.

#[export] Instance proxy_fields : Fields Proxy := fun p =>
  {| _protocol := _protocol p; _url := _url p; _creationTime := _creationTime p;
     _requestComplete := _requestComplete p; _paused := _paused p;
     _queuedInvocations := _queuedInvocations p; posted := posted p; received := received p |}.

Implicit Types (p : Proxy) (i : invocation).

Definition initWithProtocol (url : option string) (now : Z) : Proxy :=
  {| _protocol := true; _url := url; _creationTime := now; _requestComplete := false;
     _paused := false; _queuedInvocations := Some []; posted := []; received := [] |}.

Definition invalidate p : Proxy :=
  p <| _protocol := false |> <| _requestComplete := true |> <| _queuedInvocations := None |>.

Definition pause p : Proxy := p <| _paused := true |>.

(** What the system does while it is called. *)
Inductive reaction := Returns | Pauses | Stops.

#[export] Instance reaction_eq : EqDecision reaction.
Proof. solve_decision. Defined.

Definition react (r : reaction) p : Proxy :=
  match r with
  | Returns => p
  | Pauses => pause p
  | Stops => invalidate p
  end.

(** The methods [...OnClientThread]; a call to nil does nothing. *)
Definition call_client i (r : reaction) p : Proxy :=
  if _protocol p then react r (p <| received := received p ++ [i] |>) else p.

Definition invoke i (r : reaction) p : Proxy :=
  match i with
  | Failed _ | FinishedLoading => call_client i r (p <| _requestComplete := true |>)
  | _ => call_client i r p
  end.

(** The loop; an invocation is removed after it was run. *)
Fixpoint run_queue (queue : list invocation) (rs : list reaction) p : Proxy :=
  match queue with
  | [] => p
  | i :: queue =>
      if _paused p then p
      else
        let p := invoke i (default Returns (head rs)) p in
        match _queuedInvocations p with
        | None => p
        | Some _ => run_queue queue (tail rs) (p <| _queuedInvocations := Some queue |>)
        end
  end.

Definition not_called_after_completion p : bool := negb (_requestComplete p) || negb (_protocol p).

Definition runInvocationQueueOnClientThread (rs : list reaction) p : chk Proxy :=
  _ ← dcheck (not_called_after_completion p);
  mret (run_queue (default [] (_queuedInvocations p)) rs p).

Definition resume (rs : list reaction) p : chk Proxy :=
  _ ← dcheck (not_called_after_completion p);
  runInvocationQueueOnClientThread rs (p <| _paused := false |>).

Definition postToClientThread i p : Proxy := p <| posted := posted p ++ [i] |>.

Definition invokeOnClientThread i (r : reaction) p : chk Proxy :=
  _ ← dcheck (not_called_after_completion p);
  if negb (_paused p) then mret (invoke i r p)
  else mret (p <| _queuedInvocations := (fun q => q ++ [i]) <$> _queuedInvocations p |>).

(** The first invocation that was posted is run. *)
Definition run_invocation (r : reaction) p : chk Proxy :=
  match posted p with
  | [] => mret p
  | i :: l => invokeOnClientThread i r (p <| posted := l |>)
  end.

(** The methods called from any thread. *)
Definition call_proxy (c : client_call) p : chk Proxy :=
  if negb (_protocol p) then mret p
  else
    match c with
    | didFailWithNSErrorCode ns_error_code net_error_code =>
        error ← GetIOSError ns_error_code net_error_code (_url p) (_creationTime p);
        mret (postToClientThread (Failed error) p)
    | didLoadData data => mret (postToClientThread (LoadedData data) p)
    | didReceiveResponse response => mret (postToClientThread (ReceivedResponse response) p)
    | wasRedirectedToRequest request response =>
        mret (postToClientThread (Redirected request response) p)
    | didFinishLoading => mret (postToClientThread FinishedLoading p)
    | didCreateNativeRequest | cancelAuthRequest => mret p
    end.

Fixpoint call_proxy_all (cs : list client_call) p : chk Proxy :=
  match cs with
  | [] => mret p
  | c :: cs => p ← call_proxy c p; call_proxy_all cs p
  end.

(** [didRecieveAuthChallenge:nativeRequest:callback:] runs the callback with
    this value of [auth_ok]. *)
Definition didRecieveAuthChallenge : bool := false.

(** ** The order of the calls that [NSURLProtocolClient] expects *)
Inductive stage := PreResponse | PostResponse | Ended.

#[export] Instance stage_eq : EqDecision stage.
Proof. solve_decision. Defined.

Definition next_stage (st : stage) i : option stage :=
  match st, i with
  | PreResponse, Redirected _ _ => Some PreResponse
  | PreResponse, ReceivedResponse _ => Some PostResponse
  | PostResponse, LoadedData _ => Some PostResponse
  | PostResponse, FinishedLoading => Some Ended
  | (PreResponse | PostResponse), Failed _ => Some Ended
  | _, _ => None
  end.

Fixpoint stage_from (st : stage) (l : list invocation) : option stage :=
  match l with
  | [] => Some st
  | i :: l => st ← next_stage st i; stage_from st l
  end.

Abbreviation stage_of := (stage_from PreResponse).

(** The calls are in the documented order. *)
Definition in_order (l : list invocation) : bool :=
  match stage_of l with Some _ => true | None => false end.

Lemma stage_from_app st l l' :
  stage_from st (l ++ l') = (st ← stage_from st l; stage_from st l').
Proof.
  revert st. induction l as [| i l IH]; intros st; [done |]. simpl.
  destruct (next_stage st i); [apply IH | done].
Qed.

Lemma stage_of_snoc l i : stage_of (l ++ [i]) = (st ← stage_of l; next_stage st i).
Proof.
  rewrite stage_from_app. destruct (stage_of l) as [st |]; [| done]. simpl.
  by destruct (next_stage st i).
Qed.

Lemma in_order_prefix l l' : l `prefix_of` l' -> in_order l' = true -> in_order l = true.
Proof.
  intros [k ->]. unfold in_order. rewrite stage_from_app. by destruct (stage_of l).
Qed.

(** Nothing follows a call that ends the request. *)
Lemma nothing_after_end l i l' :
  stage_of l = Some Ended -> in_order (l ++ i :: l') = true -> False.
Proof. unfold in_order. rewrite stage_from_app. by intros ->. Qed.

(** ** The calls the proxy passes on *)

(** The call of the system for a call of the network thread. *)
Definition passed_on p (c : client_call) : option invocation :=
  match c with
  | didFailWithNSErrorCode ns_error_code net_error_code =>
      (fun url => Failed {| error_code := ns_error_code; underlying_code := net_error_code;
                            failing_url := url; creation_date := _creationTime p |}) <$> _url p
  | didLoadData data => Some (LoadedData data)
  | didReceiveResponse response => Some (ReceivedResponse response)
  | wasRedirectedToRequest request response => Some (Redirected request response)
  | didFinishLoading => Some FinishedLoading
  | didCreateNativeRequest | cancelAuthRequest => None
  end.

(** Of the calls [sent], the system has received the first ones, and the others
    wait in their order unless the proxy is invalidated. *)
Record serving (sent : list invocation) p : Prop := {
  sv_url : is_Some (_url p);
  sv_order : in_order sent = true;
  sv_received : received p `prefix_of` sent;
  sv_waiting : _protocol p = true ->
    exists q, _queuedInvocations p = Some q /\ sent = received p ++ q ++ posted p;
  sv_invalid : _protocol p = false -> _queuedInvocations p = None /\ _requestComplete p = true;
  sv_complete : _protocol p = true ->
    _requestComplete p = bool_decide (stage_of (received p) = Some Ended);
}.

(** The queue is used during a pause only. *)
Record proxy_ok (sent : list invocation) p : Prop := {
  po_serving : serving sent p;
  po_idle : _protocol p = true -> _paused p = false -> _queuedInvocations p = Some [];
}.

Lemma protocol_cases p : _protocol p = false \/ _protocol p = true.
Proof. destruct (_protocol p); auto. Qed.

Lemma initWithProtocol_ok url now : proxy_ok [] (initWithProtocol (Some url) now).
Proof. split; [split; try done; intros _; by exists [] | done]. Qed.

Lemma call_proxy_ok sent c p :
  proxy_ok sent p -> in_order (sent ++ option_list (passed_on p c)) = true ->
  exists p', call_proxy c p = Ok p' /\ _protocol p' = _protocol p /\ _url p' = _url p /\
    _creationTime p' = _creationTime p /\ received p' = received p /\
    proxy_ok (sent ++ option_list (passed_on p c)) p'.
Proof.
  intros [[[url Hurl] Hord Hrec Hwait Hinv Hcomp] Hidle] Hnew.
  assert (Hmore : received p `prefix_of` sent ++ option_list (passed_on p c)) by by apply prefix_app_r.
  unfold call_proxy. destruct (protocol_cases p) as [Hp | Hp]; rewrite Hp; simpl.
  { exists p. do 5 (split; [done |]). split; [split; try done; by rewrite Hp | done]. }
  destruct (Hwait Hp) as (q & Hq & Hsent).
  assert (Hpost : forall i, passed_on p c = Some i ->
    proxy_ok (sent ++ option_list (passed_on p c)) (postToClientThread i p)).
  { intros i Hi. split; [split |]; simpl; try done.
    intros _. exists q. split; [done |]. rewrite Hi. simpl. by rewrite Hsent, <- !app_assoc. }
  assert (Hnone : passed_on p c = None -> proxy_ok (sent ++ option_list (passed_on p c)) p).
  { intros Hn. rewrite Hn. simpl. rewrite app_nil_r. split; [by split | done]. }
  destruct c; simpl in *;
    try (eexists; split; [reflexivity |]; do 4 (split; [done |]); by auto).
  unfold GetIOSError. rewrite Hurl in *. simpl. eexists. split; [reflexivity |].
  do 4 (split; [done |]). auto.
Qed.
(** ** Running invocations *)
Definition ends_request i : bool :=
  match i with Failed _ | FinishedLoading => true | _ => false end.

Lemma ended_by l i : in_order (l ++ [i]) = true ->
  bool_decide (stage_of l = Some Ended) = false /\
  bool_decide (stage_of (l ++ [i]) = Some Ended) = ends_request i.
Proof.
  unfold in_order. rewrite stage_of_snoc. destruct (stage_of l) as [[] |]; destruct i; done.
Qed.

(** One invocation that is next, and the reaction to it. *)
Lemma invoke_next sent rest i r p :
  is_Some (_url p) -> in_order sent = true -> _protocol p = true ->
  sent = received p ++ i :: rest ->
  _requestComplete p = bool_decide (stage_of (received p) = Some Ended) ->
  let p' := invoke i r p in
  not_called_after_completion p = true /\ posted p' = posted p /\ _url p' = _url p /\
  _creationTime p' = _creationTime p /\ received p' = received p ++ [i] /\
  _protocol p' = negb (bool_decide (r = Stops)) /\
  _queuedInvocations p' = (if bool_decide (r = Stops) then None else _queuedInvocations p) /\
  _requestComplete p' = (bool_decide (r = Stops) || ends_request i).
Proof.
  intros Hurl Hord Hp Hsent Hc p'.
  assert (Hi : in_order (received p ++ [i]) = true).
  { eapply in_order_prefix; [| exact Hord]. exists rest. by rewrite Hsent, <- app_assoc. }
  destruct (ended_by _ _ Hi) as [Hno _]. rewrite Hno in Hc.
  unfold not_called_after_completion. rewrite Hc. split; [done |].
  subst p'. destruct i, r; unfold invoke, call_client; simpl; rewrite ?Hp; simpl; rewrite ?Hp, ?Hc;
    split_and!; done.
Qed.

(** The proxy after an invocation that was next; [queue] and [waiting] follow it. *)
Lemma invoke_serving sent queue waiting i r p :
  is_Some (_url p) -> in_order sent = true -> _protocol p = true ->
  sent = received p ++ i :: queue ++ waiting ->
  _requestComplete p = bool_decide (stage_of (received p) = Some Ended) ->
  let p' := invoke i r p in
  posted p' = posted p /\ _url p' = _url p /\ _creationTime p' = _creationTime p /\
  if bool_decide (r = Stops)
  then serving sent p' /\ _protocol p' = false /\ _queuedInvocations p' = None
  else serving sent (p' <| _queuedInvocations := Some queue |> <| posted := waiting |>) /\
       _protocol p' = true /\ _queuedInvocations p' = _queuedInvocations p.
Proof.
  intros Hurl Hord Hp Hsent Hcomp p'.
  destruct (invoke_next sent (queue ++ waiting) i r p Hurl Hord Hp Hsent Hcomp)
    as (_ & Hpost & Hu & Ht & Hr & Hp' & Hqu & Hc). fold p' in Hpost, Hu, Ht, Hr, Hp', Hqu, Hc.
  do 3 (split; [done |]).
  assert (Hpre : received p' `prefix_of` sent).
  { rewrite Hr, Hsent. exists (queue ++ waiting). by rewrite <- app_assoc. }
  assert (Hi : in_order (received p') = true) by by eapply in_order_prefix.
  rewrite Hr in Hi. destruct (ended_by _ _ Hi) as [_ He].
  destruct (bool_decide (r = Stops)); simpl in *.
  - split; [| done]. split; rewrite ?Hu, ?Hp', ?Hqu, ?Hc; done.
  - split; [| done]. split; simpl; rewrite ?Hu, ?Hp', ?Hc, ?Hr, ?He; try done.
    + by rewrite <- Hr.
    + intros _. exists queue. split; [done |]. by rewrite Hsent, <- app_assoc.
Qed.

(** A proxy that is invalidated calls nobody. *)
Lemma invoke_invalid sent i r p : serving sent p -> _protocol p = false -> invoke i r p = p.
Proof.
  intros Hs Hp. destruct (sv_invalid _ _ Hs Hp) as [_ Hc]. unfold invoke, call_client.
  destruct i; simpl; rewrite Hp; try done; destruct p; simpl in *; by subst.
Qed.

Lemma run_queue_serving sent queue rs p :
  serving sent p -> (_protocol p = true -> _queuedInvocations p = Some queue) ->
  let p' := run_queue queue rs p in
  serving sent p' /\ posted p' = posted p /\ _url p' = _url p /\ _creationTime p' = _creationTime p /\
  (_protocol p' = true -> _paused p' = false -> _queuedInvocations p' = Some []).
Proof.
  revert rs p. induction queue as [| i queue IH]; intros rs p Hs Hq; simpl.
  { split_and!; try done. intros Hp _. by apply Hq. }
  destruct (_paused p) eqn:Hpause; [split_and!; try done; intros _; by rewrite Hpause |].
  destruct (protocol_cases p) as [Hp | Hp].
  - rewrite (invoke_invalid sent) by done. rewrite (proj1 (sv_invalid _ _ Hs Hp)).
    split_and!; try done. by rewrite Hp.
  - destruct (sv_waiting _ _ Hs Hp) as (q & Hqp & Hsent). rewrite (Hq Hp) in Hqp. injection Hqp as <-.
    destruct (invoke_serving sent queue (posted p) i (default Returns (head rs)) p (sv_url _ _ Hs)
      (sv_order _ _ Hs) Hp Hsent (sv_complete _ _ Hs Hp)) as (Hpost & Hu & Ht & Hcase).
    destruct (bool_decide _).
    + destruct Hcase as (Hs' & Hp' & ->). rewrite Hpost, Hu, Ht, Hp'. done.
    + destruct Hcase as (Hs' & Hp' & ->). rewrite (Hq Hp). rewrite <- Hpost in Hs'.
      set (p1 := invoke i _ p) in *.
      destruct (IH (tail rs) (p1 <| _queuedInvocations := Some queue |>)) as (H1 & H2 & H3 & H4 & H5);
        [by destruct p1 | done |].
      split; [done |]. rewrite H2, H3, H4. simpl. by rewrite Hpost, Hu, Ht.
Qed.

Lemma may_call sent p :
  serving sent p -> (_protocol p = true -> exists i rest, sent = received p ++ i :: rest) ->
  not_called_after_completion p = true.
Proof.
  intros [Hurl Hord Hrec Hwait Hinv Hcomp] Hnext. unfold not_called_after_completion.
  destruct (protocol_cases p) as [Hp | Hp]; rewrite Hp; [apply orb_true_r |].
  destruct (Hnext Hp) as (i & rest & Hsent). rewrite Hcomp by done. case_bool_decide as He; [| done].
  exfalso. apply (nothing_after_end (received p) i rest He). by rewrite <- Hsent.
Qed.

(** Some of what was posted is dropped by an invalid proxy. *)
Lemma serving_invalid sent l p : serving sent p -> _protocol p = false -> serving sent (p <| posted := l |>).
Proof. intros [] Hp. split; simpl; try done; by rewrite Hp. Qed.

Lemma run_posted_ok sent r p :
  proxy_ok sent p ->
  exists p', run_invocation r p = Ok p' /\ proxy_ok sent p' /\ _url p' = _url p /\
    _creationTime p' = _creationTime p.
Proof.
  intros [Hs Hidle]. unfold run_invocation, invokeOnClientThread.
  destruct (posted p) as [| i l] eqn:Hpost; [by exists p |].
  set (p1 := p <| posted := l |>). change (not_called_after_completion p1) with (not_called_after_completion p).
  rewrite (may_call sent); [| done |].
  2: { intros Hp. destruct (sv_waiting _ _ Hs Hp) as (q & _ & Hsent). rewrite Hpost in Hsent.
       destruct q as [| x q]; [by exists i, l | by exists x, (q ++ i :: l)]. }
  cbn [dcheck mbind chk_bind]. change (_paused p1) with (_paused p).
  destruct (protocol_cases p) as [Hp | Hp].
  - pose proof (serving_invalid sent l p Hs Hp) as Hs1. fold p1 in Hs1.
    rewrite (invoke_invalid sent) by done. change (_queuedInvocations p1) with (_queuedInvocations p).
    rewrite (proj1 (sv_invalid _ _ Hs Hp)). simpl.
    assert (Heq : p1 <| _queuedInvocations := None |> = p1).
    { pose proof (proj1 (sv_invalid _ _ Hs Hp)). unfold p1. destruct p; simpl in *; by subst. }
    exists p1. rewrite Heq. destruct (_paused p); simpl; (split; [done |]);
      (split; [split; [done | simpl; by rewrite Hp] | done]).
  - destruct (sv_waiting _ _ Hs Hp) as (q & Hq & Hsent). rewrite Hpost in Hsent.
    destruct (bool_dec (_paused p) true) as [Hpause | Hpause%not_true_is_false].
    + rewrite Hpause. simpl. eexists. split; [reflexivity |]. split; [| done].
      split; [| simpl; by rewrite Hpause]. destruct Hs. split; simpl; try done.
      * intros _. exists (q ++ [i]). rewrite Hq. split; [done |]. by rewrite <- app_assoc.
      * by rewrite Hp.
    + rewrite Hpause. simpl. rewrite (Hidle Hp Hpause) in Hq. injection Hq as <-. simpl in Hsent.
      destruct (invoke_serving sent [] l i r p1 (sv_url _ _ Hs) (sv_order _ _ Hs) Hp Hsent
        (sv_complete _ _ Hs Hp)) as (Hpo & Hu & Ht & Hcase).
      eexists. split; [reflexivity |]. split; [| done]. destruct (bool_decide _).
      * destruct Hcase as (Hs' & Hp' & _). split; [done |]. by rewrite Hp'.
      * destruct Hcase as (Hs' & Hp' & Hqu). change (posted p1) with l in Hpo.
        change (_queuedInvocations p1) with (_queuedInvocations p) in Hqu. rewrite (Hidle Hp Hpause) in Hqu.
        split; [| done]. destruct (invoke i r p1). simpl in *. by subst.
Qed.

Lemma pause_ok sent p : proxy_ok sent p -> proxy_ok sent (pause p).
Proof. intros [[] ?]. by split; [split |]. Qed.

Lemma invalidate_ok sent p : proxy_ok sent p -> proxy_ok sent (invalidate p).
Proof. intros [[] ?]. by split; [split |]. Qed.

Lemma resume_ok sent rs p :
  proxy_ok sent p -> not_called_after_completion p = true ->
  exists p', resume rs p = Ok p' /\ proxy_ok sent p' /\ _url p' = _url p /\
    _creationTime p' = _creationTime p.
Proof.
  intros [Hs Hidle] Hc. unfold resume, runInvocationQueueOnClientThread. rewrite Hc.
  cbn [dcheck mbind chk_bind]. set (p1 := p <| _paused := false |>).
  change (not_called_after_completion p1) with (not_called_after_completion p). rewrite Hc.
  cbn [dcheck mbind chk_bind]. change (_queuedInvocations p1) with (_queuedInvocations p).
  assert (Hs1 : serving sent p1) by (by destruct Hs; split).
  destruct (run_queue_serving sent (default [] (_queuedInvocations p)) rs p1) as (H1 & H2 & H3 & H4 & H5); [done | |].
  { intros Hp. change (_queuedInvocations p1) with (_queuedInvocations p).
    destruct (sv_waiting _ _ Hs Hp) as (q & -> & _). done. }
  eexists. split; [reflexivity |]. by split; [split |].
Qed.

(** What is not paused is passed on completely. *)
Lemma all_received sent p :
  proxy_ok sent p -> _protocol p = true -> _paused p = false -> posted p = [] -> received p = sent.
Proof.
  intros [Hs Hidle] Hp Hpause Hpost. destruct (sv_waiting _ _ Hs Hp) as (q & Hq & Hsent).
  rewrite (Hidle Hp Hpause) in Hq. injection Hq as <-. by rewrite Hsent, Hpost, app_nil_r.
Qed.

(** A proxy does not become valid again. *)
Lemma invoke_stays_invalid i r p : _protocol p = false -> _protocol (invoke i r p) = false.
Proof. intros Hp. unfold invoke, call_client. by destruct i; simpl; rewrite Hp. Qed.

Lemma run_queue_stays_invalid queue rs p : _protocol p = false -> _protocol (run_queue queue rs p) = false.
Proof.
  revert rs p. induction queue as [| i queue IH]; intros rs p Hp; simpl; [done |].
  destruct (_paused p); [done |]. pose proof (invoke_stays_invalid i (default Returns (head rs)) p Hp).
  destruct (_queuedInvocations _); [| done]. by apply IH.
Qed.

Lemma run_posted_stays_invalid r p p' : run_invocation r p = Ok p' -> _protocol p = false -> _protocol p' = false.
Proof.
  unfold run_invocation, invokeOnClientThread. intros Hrun Hp. destruct (posted p) as [| i l]; [by injection Hrun as <- |].
  apply bind_Ok_inv in Hrun as (? & _ & Hrun). destruct (negb _); injection Hrun as <-; [| done].
  by apply invoke_stays_invalid.
Qed.

Lemma resume_stays_invalid rs p p' : resume rs p = Ok p' -> _protocol p = false -> _protocol p' = false.
Proof.
  unfold resume, runInvocationQueueOnClientThread. intros Hrun Hp.
  apply bind_Ok_inv in Hrun as (? & _ & Hrun). apply bind_Ok_inv in Hrun as (? & _ & Hrun).
  injection Hrun as <-. by apply run_queue_stays_invalid.
Qed.
