(* ===== verification/HttpProtocolHandler.v ===== *)
(** * HTTP requests of the system

    [net/crn_http_protocol_handler.mm]: the protocol handler that serves a
    request of the system with the network stack.  Its core lives on the
    network thread, where it drives one [net::URLRequest], and tells its client,
    the proxy of [ProtocolHandlerProxy], what happens.

    [net::URLRequest], the stream of a body, the tracker of the request and the
    system are the environment: an [event] is a call of one of them, or one task
    of the network thread or invocation of the client's thread that runs, and
    [enabled] says when each may come, as their interfaces document.  What is
    read at once from a [URLRequest] comes with the event.  [Cancel] of a
    [URLRequest] that is deleted next and the closing of the stream are left
    out. *)
From stdpp Require Import pretty.
From Stdlib Require Import Init.Byte.
From S2P Require Import Prelude ProtocolHandlerUtil ProtocolHandlerProxy.
#[local] Open Scope Z_scope.

(** Numbers of [net] and of Foundation; [OK] is 0. *)
Class NetApi := {
  headers_of_net :: HeaderApi;
  is_valid : string -> bool;
  ERR_IO_PENDING : Z;
  ERR_ABORTED : Z;
  ERR_UNEXPECTED : Z;
  ERR_BLOCKED_BY_CLIENT : Z;
  ERR_NETWORK_CHANGED : Z;
  ERR_CONNECTION_RESET : Z;
  ERR_SSL_PROTOCOL_ERROR : Z;
  ERR_INVALID_URL : Z;
  NSURLErrorUnknown : Z;
  NSURLErrorCancelled : Z;
  NSURLErrorBadURL : Z;
  NSURLErrorCannotConnectToHost : Z;
  NSURLErrorNetworkConnectionLost : Z;
  NSURLErrorClientCertificateRequired : Z;
  LOAD_NORMAL : Z;
  LOAD_VALIDATE_CACHE : Z;
  LOAD_BYPASS_CACHE : Z;
  LOAD_SKIP_CACHE_VALIDATION : Z;
  LOAD_ONLY_FROM_CACHE : Z;
  LOAD_DISABLE_CACHE : Z;
  LOAD_DO_NOT_SAVE_COOKIES : Z;
  LOAD_DO_NOT_SEND_COOKIES : Z;
  expectedContentLength : NSURLResponse -> Z;
}.

Definition kIOBufferSize : Z := 64 * 1024.
Definition kClientMaxBufferSize : Z := 4 * kIOBufferSize.

Definition size (l : list byte) : Z := Z.of_nat (length l).

(** ** State *)

(** What a [URLRequest] waits for: to be started, for the network, for a
    decision about a certificate, to be read, or for the network with a read
    under way. *)
Inductive phase := Unstarted | Connecting | AskedCertificate | Answered | Reading.

#[export] Instance phase_eq : EqDecision phase.
Proof. solve_decision. Defined.

Section handler.
Context `{NetApi}.

Record URLRequest := {
  nr_url : string;
  nr_method : string;
  first_party_for_cookies : string;
  nr_headers : copied_headers;
  load_flags : Z;
  upload : option (list (list byte));
  nr_response : option response_info;
  auth_answers : list bool;
  nr_phase : phase;
}.

#[export] Instance urlrequest_fields : Fields URLRequest := fun r =>
  {| nr_url := nr_url r; nr_method := nr_method r;
     first_party_for_cookies := first_party_for_cookies r; nr_headers := nr_headers r;
     load_flags := load_flags r; upload := upload r; nr_response := nr_response r;
     auth_answers := auth_answers r; nr_phase := nr_phase r |}.

(** The calls of the tracker. *)
Inductive tracker_call :=
| StartRequest
| StopRequest
| StopRedirectedRequest
| CaptureHeaders
| CaptureExpectedLength (length : Z)
| CaptureReceivedBytes (byte_count : Z)
| CaptureCertificatePolicyCache
| TrackSSLCertificateError (recoverable : bool).

(** [tracker_] tells whether the tracker lives.  [stream_is_listened] is the
    stream's side of [stream_delegate_], [streamed] what was read from it,
    [given] what was read from the network, [host_callbacks] and
    [ssl_callbacks] count the callbacks the tracker has not run. *)
Record HttpProtocolHandlerCore := {
  client_ : bool;
  request_ : option NSURLRequest;
  stream_delegate_ : bool;
  stream_is_listened : bool;
  post_data_readers_ : list (list byte);
  net_request_ : option URLRequest;
  tracker_ : bool;
  tracked : list tracker_call;
  host_callbacks : nat;
  ssl_callbacks : nat;
  streamed : list byte;
  given : list byte;
  sent : list client_call;
}.

#[export] Instance core_fields : Fields HttpProtocolHandlerCore := fun c =>
  {| client_ := client_ c; request_ := request_ c; stream_delegate_ := stream_delegate_ c;
     stream_is_listened := stream_is_listened c; post_data_readers_ := post_data_readers_ c;
     net_request_ := net_request_ c; tracker_ := tracker_ c; tracked := tracked c;
     host_callbacks := host_callbacks c; ssl_callbacks := ssl_callbacks c;
     streamed := streamed c; given := given c; sent := sent c |}.

Implicit Types (c : HttpProtocolHandlerCore) (r : URLRequest) (request : NSURLRequest).

Definition HttpProtocolHandlerCore_new request : HttpProtocolHandlerCore :=
  {| client_ := false; request_ := Some request; stream_delegate_ := false;
     stream_is_listened := false; post_data_readers_ := []; net_request_ := None;
     tracker_ := false; tracked := []; host_callbacks := 0; ssl_callbacks := 0;
     streamed := []; given := []; sent := [] |}.

Definition track (t : tracker_call) c : HttpProtocolHandlerCore :=
  if tracker_ c then c <| tracked := tracked c ++ [t] |> else c.

Definition tell (x : client_call) c : HttpProtocolHandlerCore := c <| sent := sent c ++ [x] |>.

Definition in_phase (ph : phase) c : HttpProtocolHandlerCore :=
  c <| net_request_ := (fun r => r <| nr_phase := ph |>) <$> net_request_ c |>.

(** ** Ending a request *)
Definition StopListeningStream (stream : bool) c : chk HttpProtocolHandlerCore :=
  _ ← dcheck stream;
  _ ← dcheck (stream_delegate_ c);
  _ ← dcheck (stream_is_listened c);
  mret (c <| stream_is_listened := false |> <| stream_delegate_ := false |>).

(** [[request_ HTTPBodyStream]], not nil. *)
Definition has_body_stream c : bool :=
  match request_ c with Some request => HTTPBodyStream request | None => false end.

Definition StopNetRequest c : chk HttpProtocolHandlerCore :=
  let c := track StopRequest c <| net_request_ := None |> in
  if stream_delegate_ c then StopListeningStream (has_body_stream c) c else mret c.

Definition StopRequestWithError (ns_error_code net_error_code : Z) c : chk HttpProtocolHandlerCore :=
  _ ← deref (net_request_ c);
  StopNetRequest (tell (didFailWithNSErrorCode ns_error_code net_error_code) c).

Definition IOSErrorCode (os_error : Z) : Z :=
  if os_error =? ERR_SSL_PROTOCOL_ERROR then NSURLErrorClientCertificateRequired
  else if (os_error =? ERR_CONNECTION_RESET) || (os_error =? ERR_NETWORK_CHANGED)
  then NSURLErrorNetworkConnectionLost
  else if os_error =? ERR_UNEXPECTED then NSURLErrorUnknown
  else NSURLErrorCannotConnectToHost.

Definition Cancel c : chk HttpProtocolHandlerCore :=
  match net_request_ c with None => mret c | Some _ => StopNetRequest c end.

(** ** Starting *)
Definition SetLoadFlags request c : Z :=
  let load_flags := LOAD_NORMAL in
  let load_flags :=
    if HTTPShouldHandleCookies request then load_flags
    else Z.lor load_flags (Z.lor LOAD_DO_NOT_SEND_COOKIES LOAD_DO_NOT_SAVE_COOKIES) in
  if tracker_ c then load_flags
  else
    match cachePolicy request with
    | ReloadIgnoringLocalAndRemoteCacheData =>
        Z.lor (Z.lor load_flags LOAD_BYPASS_CACHE) LOAD_DISABLE_CACHE
    | ReloadIgnoringLocalCacheData => Z.lor load_flags LOAD_DISABLE_CACHE
    | ReturnCacheDataElseLoad => Z.lor load_flags LOAD_SKIP_CACHE_VALIDATION
    | ReturnCacheDataDontLoad =>
        Z.lor load_flags (Z.lor LOAD_ONLY_FROM_CACHE LOAD_SKIP_CACHE_VALIDATION)
    | ReloadRevalidatingCacheData => Z.lor load_flags LOAD_VALIDATE_CACHE
    | UseProtocolCachePolicy => load_flags
    end.

(** [lookup] is the answer of [GetRequestTracker]: an invalid tracker, or
    whether there is one. *)
Definition Start (lookup : option bool) c : chk HttpProtocolHandlerCore :=
  _ ← dcheck (negb (client_ c));
  let c := c <| client_ := true |> in
  request ← deref (request_ c);
  match lookup with
  | None => mret (tell (didFailWithNSErrorCode NSURLErrorCancelled ERR_ABORTED) c)
  | Some tracker =>
      let c := c <| tracker_ := tracker |> in
      if negb (is_valid (URL request)) then
        mret (tell (didFailWithNSErrorCode NSURLErrorBadURL ERR_INVALID_URL) c)
      else
        let r := {| nr_url := URL request; nr_method := HTTPMethod request;
                    first_party_for_cookies := mainDocumentURL request;
                    nr_headers := CopyHttpHeaders (allHTTPHeaderFields request) false
                                    (HTTPMethod request);
                    load_flags := SetLoadFlags request c; upload := None; nr_response := None;
                    auth_answers := []; nr_phase := Unstarted |} in
        let c := tell didCreateNativeRequest (c <| net_request_ := Some r |>) in
        if HTTPBodyStream request then
          mret (c <| stream_delegate_ := true |> <| stream_is_listened := true |>)
        else
          let body := default [] (HTTPBody request) in
          let r := if (0 <? size body) then r <| upload := Some [body] |> else r in
          mret (track StartRequest (in_phase Connecting (c <| net_request_ := Some r |>)))
  end.

(** The events of the stream; no data when the read fails. *)
Inductive stream_event :=
| ErrorOccurred
| EndEncountered
| HasBytesAvailable (data : option (list byte))
| OtherStreamEvent.

Definition HandleStreamEvent (event : stream_event) c : chk HttpProtocolHandlerCore :=
  _ ← dcheck (stream_delegate_ c);
  match event with
  | ErrorOccurred =>
      c ← StopListeningStream true c;
      StopRequestWithError NSURLErrorUnknown ERR_UNEXPECTED c
  | EndEncountered =>
      c ← StopListeningStream true c;
      r ← deref (net_request_ c);
      let r := match post_data_readers_ c with [] => r | l => r <| upload := Some l |> end in
      mret (track StartRequest
              (in_phase Connecting (c <| post_data_readers_ := [] |> <| net_request_ := Some r |>)))
  | HasBytesAvailable data =>
      (* -1, the length after a failure, is the greatest NSUInteger *)
      data ← deref data;
      let c := c <| streamed := streamed c ++ data |> in
      mret (if (0 <? size data) then c <| post_data_readers_ := post_data_readers_ c ++ [data] |>
            else c)
  | OtherStreamEvent => mret c
  end.

(** ** The delegate of the [URLRequest] *)
Definition StripPostSpecificHeaders request : NSURLRequest :=
  request <| allHTTPHeaderFields :=
    List.filter (fun h => negb (same_ignoring_case h.1 "Content-Length" ||
                                same_ignoring_case h.1 "Content-Type" ||
                                same_ignoring_case h.1 "Origin"))
      (allHTTPHeaderFields request) |>.

(** The request that follows a redirect. *)
Definition redirected_request (http_status_code : Z) request : NSURLRequest :=
  let was_post := String.eqb (HTTPMethod request) "POST" in
  if ((http_status_code =? 303) && negb (String.eqb (HTTPMethod request) "HEAD")) ||
     (((http_status_code =? 301) || (http_status_code =? 302)) && was_post)
  then
    let request := request <| HTTPMethod := "GET"%string |> <| HTTPBody := None |>
                           <| HTTPBodyStream := false |> in
    if was_post then StripPostSpecificHeaders request else request
  else request.

Definition OnReceivedRedirect (new_url : string) (info : response_info) c
    : chk HttpProtocolHandlerCore :=
  request ← deref (request_ c);
  if negb (is_valid new_url) then StopRequestWithError NSURLErrorBadURL ERR_INVALID_URL c
  else
    let request := request <| URL := new_url |> in
    let c := c <| request_ := Some request |> in
    c ← (if stream_delegate_ c then StopListeningStream (has_body_stream c) c else mret c);
    let request := redirected_request (GetResponseCode info) request in
    response ← GetNSURLResponseForRequest info;
    let c := tell (wasRedirectedToRequest request response) (track StopRedirectedRequest c) in
    let c := c <| request_ := None |> in
    _ ← deref (net_request_ c);
    StopNetRequest c.

(** [SetAuth] or [CancelAuth] *)
Definition answer_auth (auth_ok : bool) c : HttpProtocolHandlerCore :=
  c <| net_request_ := (fun r => r <| auth_answers := auth_answers r ++ [auth_ok] |>) <$> net_request_ c |>.

Definition CompleteAuthentication (auth_ok : bool) c : chk HttpProtocolHandlerCore :=
  mret (answer_auth auth_ok c).

Definition OnAuthRequired c : chk HttpProtocolHandlerCore :=
  if tracker_ c then CompleteAuthentication didRecieveAuthChallenge c
  else mret (answer_auth false c).

Definition OnCertificateRequested c : chk HttpProtocolHandlerCore :=
  StopRequestWithError NSURLErrorClientCertificateRequired ERR_SSL_PROTOCOL_ERROR c.

Definition ContinueAfterSSLError c : chk HttpProtocolHandlerCore := mret (in_phase Connecting c).

Definition CancelAfterSSLError c : chk HttpProtocolHandlerCore :=
  match net_request_ c with
  | Some _ => StopRequestWithError NSURLErrorCancelled ERR_BLOCKED_BY_CLIENT c
  | None => mret c
  end.

Definition SSLErrorCallback (carryOn : bool) c : chk HttpProtocolHandlerCore :=
  if carryOn then ContinueAfterSSLError c else CancelAfterSSLError c.

Definition OnSSLCertificateError (is_minor fatal : bool) c : chk HttpProtocolHandlerCore :=
  if fatal then CancelAfterSSLError (track (TrackSSLCertificateError false) c)
  else if negb (tracker_ c) then
    if is_minor then ContinueAfterSSLError c else CancelAfterSSLError c
  else mret (track (TrackSSLCertificateError (negb fatal)) c <| ssl_callbacks := S (ssl_callbacks c) |>).

(** ** Reading *)

(** What [Read] returns at once, one call after the other: some bytes each, and
    then a number that is not positive. *)
Record reads := { chunks : list (list byte); final : Z }.

(** The inner loop: [data] is filled from [buffer], which holds what was read
    last and is empty when the last number was not positive. *)
Fixpoint fill (data buffer : list byte) (more : list (list byte))
    : list byte * list byte * list (list byte) :=
  if (0 <? size buffer) && (size data + size buffer <=? kClientMaxBufferSize) then
    match more with
    | [] => (data ++ buffer, [], [])
    | buffer' :: more => fill (data ++ buffer) buffer' more
    end
  else (data, buffer, more).

(** The outer loop, with the objects it gives to the client. *)
Fixpoint read_all (fuel : nat) (buffer : list byte) (more : list (list byte)) : chk (list (list byte)) :=
  if negb (0 <? size buffer) then mret [] else
  match fuel with
  | O => Fault
  | S fuel =>
      let '(data, buffer, more) := fill [] buffer more in
      rest ← read_all fuel buffer more;
      mret (if 0 <? size data then data :: rest else rest)
  end.

(** [buffer] is what the read that completed has put there. *)
Definition OnReadCompleted (buffer : list byte) (rs : reads) c : chk HttpProtocolHandlerCore :=
  _ ← dcheck ((0 <? size buffer) || negb (final rs =? ERR_IO_PENDING));
  _ ← dcheck (kIOBufferSize <=? kClientMaxBufferSize);
  match net_request_ c with
  | None => mret c
  | Some _ =>
      data ← read_all (S (length (chunks rs))) buffer (chunks rs);
      let c := c <| sent := sent c ++ (didLoadData <$> data) |> <| given := given c ++ concat data |> in
      let c := track (CaptureReceivedBytes (size (concat data))) c in
      if final rs =? 0 then
        c ← StopNetRequest c; mret (tell didFinishLoading c)
      else if negb (final rs =? ERR_IO_PENDING) then
        StopRequestWithError (IOSErrorCode (final rs)) (final rs) c
      else mret (in_phase Reading c)
  end.

(** The first read of [rs]. *)
Definition first_read (rs : reads) : list byte * reads :=
  match chunks rs with
  | [] => ([], rs)
  | buffer :: more => (buffer, {| chunks := more; final := final rs |})
  end.

Definition StartReading (rs : reads) c : chk HttpProtocolHandlerCore :=
  match net_request_ c with
  | None => mret c
  | Some r =>
      info ← deref (nr_response r);
      response ← GetNSURLResponseForRequest info;
      let c := track CaptureHeaders c in
      let c := if 0 <? expectedContentLength response
               then track (CaptureExpectedLength (expectedContentLength response)) c else c in
      let c := tell (didReceiveResponse response) c in
      let '(buffer, rs) := first_read rs in
      if negb (0 <? size buffer) && (final rs =? ERR_IO_PENDING) then mret (in_phase Reading c)
      else if (0 <? size buffer) || (0 <=? final rs) then OnReadCompleted buffer rs c
      else StopRequestWithError (IOSErrorCode (final rs)) (final rs) c
  end.

Definition HostStateCallback (carryOn : bool) (rs : reads) c : chk HttpProtocolHandlerCore :=
  if carryOn then StartReading rs c else CancelAfterSSLError c.

(** [certificate_error] when the status of the certificate is an error that the
    session does not ignore. *)
Definition OnResponseStarted (certificate_error : bool) (net_error : Z) (rs : reads) c
    : chk HttpProtocolHandlerCore :=
  _ ← dcheck (negb (net_error =? ERR_IO_PENDING));
  match net_request_ c with
  | None => mret c
  | Some _ =>
      if negb (net_error =? 0) then StopRequestWithError (IOSErrorCode net_error) net_error c
      else if tracker_ c && certificate_error then
        mret (track CaptureCertificatePolicyCache c <| host_callbacks := S (host_callbacks c) |>)
      else StartReading rs c
  end.

(** The checks of the destructor. *)
Definition core_destroyed c : chk HttpProtocolHandlerCore :=
  let c := tell cancelAuthRequest c in
  _ ← dcheck (match net_request_ c with None => true | Some _ => false end);
  _ ← dcheck (negb (stream_delegate_ c));
  mret c.

(** ** The protocol handler *)
Inductive io_task := StartTask | CancelTask.

(** The proxy outlives the handler's reference to it.  [refused] when the client
    was told that the URL is not supported. *)
Record CRNHTTPProtocolHandler := {
  _core : HttpProtocolHandlerCore;
  _protocolProxy : option Proxy;
  _supportedURL : bool;
  io_tasks : list io_task;
  loading : bool;
  stopped : bool;
  refused : bool;
}.

#[export] Instance handler_fields : Fields CRNHTTPProtocolHandler := fun w =>
  {| _core := _core w; _protocolProxy := _protocolProxy w; _supportedURL := _supportedURL w;
     io_tasks := io_tasks w; loading := loading w; stopped := stopped w; refused := refused w |}.

Implicit Types (w : CRNHTTPProtocolHandler).

Definition initWithRequest request (supported : bool) : CRNHTTPProtocolHandler :=
  {| _core := HttpProtocolHandlerCore_new request; _protocolProxy := None;
     _supportedURL := supported; io_tasks := []; loading := false; stopped := false;
     refused := false |}.

Definition startLoading (now : Z) w : chk CRNHTTPProtocolHandler :=
  let w := w <| loading := true |> in
  if negb (_supportedURL w) then mret (w <| refused := true |>)
  else
    let w := match _protocolProxy w with
             | Some _ => w
             | None => w <| _protocolProxy :=
                 Some (initWithProtocol (URL <$> request_ (_core w)) now) |>
             end in
    mret (w <| io_tasks := io_tasks w ++ [StartTask] |>).

Definition cancelRequest w : CRNHTTPProtocolHandler :=
  w <| io_tasks := io_tasks w ++ [CancelTask] |> <| _protocolProxy := invalidate <$> _protocolProxy w |>.

Definition stopLoading w : CRNHTTPProtocolHandler := cancelRequest w <| stopped := true |>.

(** The core runs, and its client, the proxy, is told. *)
Definition with_core (f : HttpProtocolHandlerCore -> chk HttpProtocolHandlerCore) w
    : chk CRNHTTPProtocolHandler :=
  c ← f (_core w);
  let told := drop (length (sent (_core w))) (sent c) in
  match _protocolProxy w with
  | Some p => p ← call_proxy_all told p; mret (w <| _core := c |> <| _protocolProxy := Some p |>)
  | None => _ ← dcheck (bool_decide (told = [])); mret (w <| _core := c |>)
  end.

(** The client's thread runs, and the system may call [stopLoading] meanwhile. *)
Definition with_proxy (f : Proxy -> chk Proxy) w : chk CRNHTTPProtocolHandler :=
  match _protocolProxy w with
  | None => mret w
  | Some p =>
      p' ← f p;
      let w := w <| _protocolProxy := Some p' |> in
      mret (if _protocol p && negb (_protocol p') then stopLoading w else w)
  end.

Definition run_io_task (lookup : option bool) w : chk CRNHTTPProtocolHandler :=
  match io_tasks w with
  | [] => mret w
  | StartTask :: l => with_core (Start lookup) (w <| io_tasks := l |>)
  | CancelTask :: l => with_core Cancel (w <| io_tasks := l |>)
  end.

(** ** Histories *)
Inductive event :=
(** The system, on its thread. *)
| EStartLoading (now : Z)
| EStopLoading
| EPause
| EResume (rs : list reaction)
(** An invocation or a task runs. *)
| EClient (r : reaction)
| EIo (lookup : option bool)
(** The network thread. *)
| EStream (event : stream_event)
| ERedirect (new_url : string) (info : response_info)
| EAuth
| ECertificateRequested
| ECertificateError (is_minor fatal : bool)
| EResponse (certificate_error : bool) (net_error : Z) (info : response_info) (rs : reads)
| ERead (buffer : list byte) (rs : reads)
| ECertificateDecision (carryOn : bool)
| EPolicyCaptured (carryOn : bool) (rs : reads)
| ETrackerGone.

Definition answered (info : response_info) c : HttpProtocolHandlerCore :=
  c <| net_request_ := (fun r => r <| nr_response := Some info |> <| nr_phase := Answered |>)
                         <$> net_request_ c |>.

Definition handle (e : event) w : chk CRNHTTPProtocolHandler :=
  match e with
  | EStartLoading now => startLoading now w
  | EStopLoading => mret (stopLoading w)
  | EPause => mret (w <| _protocolProxy := pause <$> _protocolProxy w |>)
  | EResume rs => with_proxy (resume rs) w
  | EClient r => with_proxy (run_invocation r) w
  | EIo lookup => run_io_task lookup w
  | EStream ev => with_core (HandleStreamEvent ev) w
  | ERedirect new_url info => with_core (OnReceivedRedirect new_url info) w
  | EAuth => with_core OnAuthRequired w
  | ECertificateRequested => with_core OnCertificateRequested w
  | ECertificateError is_minor fatal =>
      with_core (fun c => OnSSLCertificateError is_minor fatal (in_phase AskedCertificate c)) w
  | EResponse certificate_error net_error info rs =>
      with_core (fun c => OnResponseStarted certificate_error net_error rs (answered info c)) w
  | ERead buffer rs => with_core (OnReadCompleted buffer rs) w
  | ECertificateDecision carryOn =>
      with_core (fun c => SSLErrorCallback carryOn (c <| ssl_callbacks := Nat.pred (ssl_callbacks c) |>)) w
  | EPolicyCaptured carryOn rs =>
      with_core (fun c => HostStateCallback carryOn rs (c <| host_callbacks := Nat.pred (host_callbacks c) |>)) w
  | ETrackerGone => mret (w <| _core := _core w <| tracker_ := false |> |>)
  end.

(** ** When an event may come *)
Definition waits_in (ph : phase) w : bool :=
  match net_request_ (_core w) with Some r => bool_decide (nr_phase r = ph) | None => false end.

(** A response with a URL, and with text where a data URL needs it. *)
Definition good_response (info : response_info) : bool :=
  match response_url info with
  | Some _ => negb (is_data_url info) || (utf8 (mime_type info) && utf8 (charset info))
  | None => false
  end.

(** A read fills the buffer at most, and ends with a number that is not positive. *)
Definition good_buffer (buffer : list byte) : bool :=
  (0 <? size buffer) && (size buffer <=? kIOBufferSize).

Definition good_reads (rs : reads) : bool := forallb good_buffer (chunks rs) && (final rs <=? 0).

Definition enabled (e : event) w : bool :=
  match e with
  | EStartLoading _ => negb (loading w)
  | EStopLoading => loading w && negb (stopped w)
  | EPause => true
  | EResume _ | EClient _ | EIo _ | ETrackerGone => true
  | EStream _ => stream_is_listened (_core w)
  | ERedirect _ info => waits_in Connecting w && good_response info
  | EAuth | ECertificateRequested | ECertificateError _ _ => waits_in Connecting w
  | EResponse _ net_error info rs =>
      waits_in Connecting w && (net_error <=? 0) && negb (net_error =? ERR_IO_PENDING) &&
      good_response info && good_reads rs
  | ERead buffer rs =>
      waits_in Reading w && good_reads rs &&
      (good_buffer buffer || bool_decide (buffer = []) && bool_decide (chunks rs = []) &&
                             negb (final rs =? ERR_IO_PENDING))
  | ECertificateDecision _ => bool_decide (ssl_callbacks (_core w) <> 0%nat)
  | EPolicyCaptured _ rs => bool_decide (host_callbacks (_core w) <> 0%nat) && good_reads rs
  end.

(** The two events that the handler is not made for: a read of the stream that
    fails, and a load that the system resumes after its client was told that it
    is complete. *)
Definition unmet (e : event) w : Prop :=
  match e with
  | EStream (HasBytesAvailable None) => True
  | EResume _ => exists p, _protocolProxy w = Some p /\ _requestComplete p = true /\ _protocol p = true
  | _ => False
  end.


Inductive reachable request (supported : bool) : CRNHTTPProtocolHandler -> Prop :=
| reach_init : reachable request supported (initWithRequest request supported)
| reach_step e w w' :
    reachable request supported w -> enabled e w = true -> handle e w = Ok w' ->
    reachable request supported w'.

(** ** What the client is told *)

(** The calls of the system, without the contents of errors. *)
Definition shape (x : client_call) : option invocation :=
  passed_on (initWithProtocol (Some ""%string) 0) x.

Definition calls (l : list client_call) : list invocation := omap shape l.

(** No call follows this one. *)
Definition final_call (i : invocation) : bool :=
  match i with Failed _ | FinishedLoading | Redirected _ _ => true | _ => false end.

Definition no_final (l : list invocation) : bool := forallb (fun i => negb (final_call i)) l.

(** The last call and no other ends the request. *)
Definition ended (l : list invocation) : Prop :=
  exists l' i, l = l' ++ [i] /\ no_final l' = true /\ final_call i = true.

Definition data_of (l : list invocation) : list (list byte) :=
  omap (fun i => match i with LoadedData d => Some d | _ => None end) l.

Lemma calls_app l l' : calls (l ++ l') = calls l ++ calls l'.
Proof. apply omap_app. Qed.

Lemma data_of_app l l' : data_of (l ++ l') = data_of l ++ data_of l'.
Proof. apply omap_app. Qed.

Lemma no_final_app l l' : no_final (l ++ l') = no_final l && no_final l'.
Proof. apply forallb_app. Qed.

Definition good_data (d : list byte) : Prop := 0 < size d <= kClientMaxBufferSize.

(** What was told so far is in order, and the data is what was read. *)
Record talk_ok c : Prop := {
  tk_order : in_order (calls (sent c)) = true;
  tk_data : concat (data_of (calls (sent c))) = given c;
  tk_sizes : Forall good_data (data_of (calls (sent c)));
}.

(** What the upload of a started request is. *)
Definition body_of request c : list byte :=
  if HTTPBodyStream request then streamed c else default [] (HTTPBody request).

Record running c r : Prop := {
  rn_client : client_ c = true;
  rn_stage : stage_of (calls (sent c)) = Some (if bool_decide (nr_phase r = Reading) then PostResponse else PreResponse);
  rn_no_final : no_final (calls (sent c)) = true;
  rn_request : exists request, request_ c = Some request /\ nr_url r = URL request /\
    nr_method r = HTTPMethod request /\
    if bool_decide (nr_phase r = Unstarted)
    then stream_delegate_ c = true /\ HTTPBodyStream request = true /\
         concat (post_data_readers_ c) = streamed c /\ upload r = None
    else stream_delegate_ c = false /\ concat (default [] (upload r)) = body_of request c;
  rn_ssl : ssl_callbacks c = if bool_decide (nr_phase r = AskedCertificate) then 1%nat else 0%nat;
  rn_host : host_callbacks c = if bool_decide (nr_phase r = Answered) then 1%nat else 0%nat;
  rn_response : nr_phase r = Answered ->
    exists info, nr_response r = Some info /\ good_response info = true;
}.

(** Not started yet. *)
Record fresh c : Prop := {
  fr_sent : sent c = [];
  fr_request : is_Some (request_ c);
  fr_given : given c = [];
  fr_streamed : streamed c = [];
  fr_readers : post_data_readers_ c = [];
  fr_ssl : ssl_callbacks c = 0%nat;
  fr_host : host_callbacks c = 0%nat;
}.

(** [s] when the request may have been cancelled. *)
Record core_ok (s : bool) c : Prop := {
  co_talk : talk_ok c;
  co_listened : stream_is_listened c = stream_delegate_ c;
  co_case :
    match net_request_ c with
    | Some r => running c r
    | None => stream_delegate_ c = false /\
              if client_ c then ended (calls (sent c)) \/ s = true else fresh c
    end;
}.

(** A step of the core: it succeeds, keeps the invariant and only adds to what
    was told. *)
Definition core_step (s : bool) c (m : chk HttpProtocolHandlerCore) : Prop :=
  exists c', m = Ok c' /\ core_ok s c' /\ sent c `prefix_of` sent c' /\
    client_ c' = client_ c.

Lemma shape_error ns net : exists e, shape (didFailWithNSErrorCode ns net) = Some (Failed e).
Proof. by eexists. Qed.

(** A call that ends the request is told. *)
Lemma talk_end c x i :
  talk_ok c -> shape x = Some i -> final_call i = true -> no_final (calls (sent c)) = true ->
  in_order (calls (sent c ++ [x])) = true ->
  ended (calls (sent c ++ [x])) /\ talk_ok (tell x c).
Proof.
  intros [Ho Hd Hs] Hx Hi Hno Hord. unfold tell.
  assert (Hcalls : calls (sent c ++ [x]) = calls (sent c) ++ [i]).
  { rewrite calls_app. unfold calls at 2. simpl. by rewrite Hx. }
  split; [by exists (calls (sent c)), i |].
  assert (Hdata : data_of (calls (sent c ++ [x])) = data_of (calls (sent c))).
  { rewrite Hcalls, data_of_app. destruct i; try done; apply app_nil_r. }
  split; simpl; [done | by rewrite Hdata | by rewrite Hdata].
Qed.

Lemma talk_track t c : talk_ok c -> talk_ok (track t c).
Proof. unfold track. destruct (tracker_ c); [by intros [] |done]. Qed.

Lemma sent_track t c : sent (track t c) = sent c.
Proof. unfold track. by destruct (tracker_ c). Qed.

(** The end of a [URLRequest]: the core listens to no stream afterwards. *)
Lemma StopNetRequest_ok s c :
  talk_ok c -> client_ c = true -> stream_is_listened c = stream_delegate_ c ->
  (stream_delegate_ c = true -> has_body_stream c = true) ->
  ended (calls (sent c)) \/ s = true ->
  exists c', StopNetRequest c = Ok c' /\ core_ok s c' /\ sent c' = sent c /\ client_ c' = true /\
    net_request_ c' = None.
Proof.
  intros Ht Hcl Hl Hb He. unfold StopNetRequest. set (c1 := track StopRequest c).
  assert (Hc1 : talk_ok c1 /\ client_ c1 = true /\ stream_is_listened c1 = stream_delegate_ c1 /\
    stream_delegate_ c1 = stream_delegate_ c /\ request_ c1 = request_ c /\ sent c1 = sent c).
  { split; [by apply talk_track |]. unfold c1, track. by destruct (tracker_ c). }
  destruct Hc1 as ([Ho Hd Hs] & Hcl1 & Hl1 & Hde & Hrq & Hse).
  assert (Hbody : has_body_stream (c1 <| net_request_ := None |>) = has_body_stream c).
  { unfold has_body_stream. simpl. by rewrite Hrq. }
  destruct (stream_delegate_ c1) eqn:Hd1; simpl; rewrite Hd1.
  - rewrite Hbody, Hb by congruence. unfold StopListeningStream. simpl. rewrite Hd1, Hl1. simpl.
    eexists. split; [reflexivity |]. split; [| done].
    split; [by split | done |]. simpl. rewrite Hcl1, Hse. done.
  - eexists. split; [reflexivity |]. split; [| done]. split; [by split | simpl; congruence |].
    simpl. rewrite Hcl1, Hse. done.
Qed.

(** A request that is under way, whatever it waits for. *)
Record under_way c : Prop := {
  uw_talk : talk_ok c;
  uw_client : client_ c = true;
  uw_listened : stream_is_listened c = stream_delegate_ c;
  uw_body : stream_delegate_ c = true -> has_body_stream c = true;
  uw_net : is_Some (net_request_ c);
  uw_no_final : no_final (calls (sent c)) = true;
  uw_stage : stage_of (calls (sent c)) = Some PreResponse \/ stage_of (calls (sent c)) = Some PostResponse;
}.

Lemma running_under_way s c r : core_ok s c -> net_request_ c = Some r -> under_way c.
Proof.
  intros [Ht Hl Hc] Hr. rewrite Hr in Hc. destruct Hc as [Hcl Hst Hno (request & Hrq & _ & _ & Hph) _ _ _].
  split; try done.
  - intros Hd. unfold has_body_stream. rewrite Hrq. destruct (bool_decide (nr_phase r = Unstarted)).
    + apply Hph.
    + destruct Hph as [Hd' _]. congruence.
  - destruct (bool_decide (nr_phase r = Reading)); auto.
Qed.

(** Changes that neither end nor tell anything. *)
Lemma under_way_keep c c' :
  under_way c -> sent c' = sent c -> given c' = given c -> client_ c' = client_ c ->
  stream_is_listened c' = stream_is_listened c -> stream_delegate_ c' = stream_delegate_ c ->
  has_body_stream c' = has_body_stream c -> is_Some (net_request_ c') -> under_way c'.
Proof.
  intros [[] Hcl Hl Hb Hn Hno Hst] Hs Hg Hc Hli Hde Hbo Hnet.
  split; rewrite ?Hs, ?Hg, ?Hc, ?Hli, ?Hde, ?Hbo; try done. split; by rewrite ?Hs, ?Hg.
Qed.

Lemma under_way_track t c : under_way c -> under_way (track t c).
Proof.
  intros Hu. pose proof (uw_net _ Hu). apply (under_way_keep c); try done; unfold track; by destruct (tracker_ c).
Qed.

Lemma under_way_phase ph c : under_way c -> under_way (in_phase ph c).
Proof. intros Hu. destruct (uw_net _ Hu) as [r Hr]. apply (under_way_keep c); try done. simpl. by rewrite Hr. Qed.

(** The end with an error, or with any other call that ends a request. *)
Lemma tell_end_ok s x i c :
  under_way c -> shape x = Some i -> final_call i = true -> in_order (calls (sent c ++ [x])) = true ->
  core_step s c (StopNetRequest (tell x c)).
Proof.
  intros [Ht Hcl Hl Hb Hn Hno Hst] Hx Hi Ho.
  destruct (talk_end c x i Ht Hx Hi Hno Ho) as [He Ht'].
  destruct (StopNetRequest_ok s (tell x c)) as (c' & Hrun & Hok & Hs & Hc & _); try done; [by left |].
  exists c'. split; [done |]. split; [done |]. rewrite Hs, Hc. split; [by apply prefix_app_r | done].
Qed.

Lemma StopRequestWithError_ok s ns net c :
  under_way c -> core_step s c (StopRequestWithError ns net c).
Proof.
  intros Hu. unfold StopRequestWithError. destruct (uw_net _ Hu) as [r ->]. cbn [deref mbind chk_bind].
  eapply tell_end_ok; [done | reflexivity | done |]. rewrite calls_app. unfold in_order.
  rewrite stage_from_app. by destruct (uw_stage _ Hu) as [-> | ->].
Qed.

Lemma core_step_from s c c1 m :
  core_step s c1 m -> sent c1 = sent c -> client_ c1 = client_ c -> core_step s c m.
Proof. intros (c' & Hrun & Hok & Hp & Hc) Hs Hcl. exists c'. by rewrite <- Hs, <- Hcl. Qed.

Lemma core_step_more s c c1 m :
  core_step s c1 m -> sent c `prefix_of` sent c1 -> client_ c1 = client_ c -> core_step s c m.
Proof. intros (c' & Hrun & Hok & Hp & Hc) Hs Hcl. exists c'. rewrite <- Hcl. split_and!; try done. by etrans. Qed.

Lemma CancelAfterSSLError_ok s c :
  under_way c \/ core_ok s c /\ net_request_ c = None -> core_step s c (CancelAfterSSLError c).
Proof.
  unfold CancelAfterSSLError. intros [Hu | [Hok ->]]; [| by exists c].
  destruct (uw_net _ Hu) as [r ->]. by apply StopRequestWithError_ok.
Qed.

Lemma Cancel_ok c : core_ok true c \/ core_ok false c -> core_step true c (Cancel c).
Proof.
  intros Hok. unfold Cancel. destruct (net_request_ c) as [r |] eqn:Hr.
  - assert (Hu : under_way c) by (destruct Hok as [Hok | Hok]; by eapply running_under_way).
    destruct (StopNetRequest_ok true c) as (c' & Hrun & Hok' & Hs & Hc & _); try apply Hu; [by right |].
    exists c'. split; [done |]. split; [done |]. rewrite Hs, Hc, (uw_client _ Hu). done.
  - exists c. split; [done |]. split; [| done]. destruct Hok as [Hok | [Ht Hl Hc]]; [done |].
    split; try done. rewrite Hr in *. destruct Hc as [Hd Hc]. split; [done |].
    destruct (client_ c); [by right | done].
Qed.

(** ** Started requests *)
Definition started c : Prop :=
  exists r request, net_request_ c = Some r /\ request_ c = Some request /\ nr_url r = URL request /\
    nr_method r = HTTPMethod request /\ stream_delegate_ c = false /\
    concat (default [] (upload r)) = body_of request c.

Lemma running_started c r : running c r -> net_request_ c = Some r -> nr_phase r <> Unstarted -> started c.
Proof.
  intros [_ _ _ (request & Hrq & Hu & Hm & Hb) _ _ _] Hr Hph.
  rewrite bool_decide_eq_false_2 in Hb by done. destruct Hb. by exists r, request.
Qed.

Lemma started_keep c c' :
  started c -> net_request_ c' = net_request_ c -> request_ c' = request_ c ->
  stream_delegate_ c' = stream_delegate_ c -> streamed c' = streamed c -> started c'.
Proof.
  intros (r & request & Hr & Hrq & Hu & Hm & Hd & Hb) H1 H2 H3 H4. exists r, request.
  unfold body_of in *. by rewrite H1, H2, H3, H4.
Qed.

Lemma started_track t c : started c -> started (track t c).
Proof. intros Hs. apply (started_keep c); try done; unfold track; by destruct (tracker_ c). Qed.

(** The request waits in another phase. *)
Lemma waiting_ok s ph c :
  under_way c -> started c -> ph <> Unstarted ->
  stage_of (calls (sent c)) = Some (if bool_decide (ph = Reading) then PostResponse else PreResponse) ->
  ssl_callbacks c = (if bool_decide (ph = AskedCertificate) then 1%nat else 0%nat) ->
  host_callbacks c = (if bool_decide (ph = Answered) then 1%nat else 0%nat) ->
  (ph = Answered -> exists r info, net_request_ c = Some r /\ nr_response r = Some info /\ good_response info = true) ->
  core_ok s (in_phase ph c).
Proof.
  intros [Ht Hcl Hl _ _ Hno _] (r & request & Hr & Hrq & Hu & Hm & Hd & Hb) Hph Hst Hssl Hhost Hinfo.
  split; [by destruct Ht | done |]. simpl. rewrite Hr. simpl. split; try done.
  - exists request. simpl. rewrite bool_decide_eq_false_2 by done. done.
  - simpl. intros Ha. destruct (Hinfo Ha) as (r' & info & Hr' & Hi). rewrite Hr in Hr'.
    injection Hr' as <-. by exists info.
Qed.

(** ** Reading *)
Lemma good_buffer_size buffer : good_buffer buffer = true -> 0 < size buffer <= kIOBufferSize.
Proof. unfold good_buffer. intros [H1 H2]%andb_prop. lia. Qed.

Lemma size_app (l l' : list byte) : size (l ++ l') = size l + size l'.
Proof. unfold size. rewrite length_app. lia. Qed.

Lemma size_nonneg (l : list byte) : 0 <= size l.
Proof. unfold size. lia. Qed.

Lemma max_size : 0 < kIOBufferSize <= kClientMaxBufferSize.
Proof. done. Qed.

(** Nothing is read and nothing follows, or the buffer holds something. *)
Definition good_rest (buffer : list byte) (more : list (list byte)) : Prop :=
  (buffer = [] /\ more = []) \/ good_buffer buffer = true.

Lemma fill_spec data buffer more :
  good_rest buffer more -> Forall (fun b => good_buffer b = true) more -> size data <= kClientMaxBufferSize ->
  exists data' buffer' more', fill data buffer more = (data', buffer', more') /\
    data' ++ buffer' ++ concat more' = data ++ buffer ++ concat more /\
    size data <= size data' <= kClientMaxBufferSize /\ good_rest buffer' more' /\
    Forall (fun b => good_buffer b = true) more' /\ (length more' <= length more)%nat /\
    (good_buffer buffer = true -> size data + size buffer <= kClientMaxBufferSize ->
     size data < size data' /\ (buffer' = [] \/ (length more' < length more)%nat)).
Proof.
  revert data buffer. induction more as [| next more IH]; intros data buffer Hr Hm Hd; simpl.
  - destruct ((0 <? size buffer) && (size data + size buffer <=? kClientMaxBufferSize)) eqn:Ht.
    + apply andb_prop in Ht as [H1 H2]. exists (data ++ buffer), [], [].
      rewrite !app_nil_r, size_app. split_and!; try done; try lia; [by left |]. intros _ _. split; [lia | by left].
    + exists data, buffer, []. split_and!; try done; try lia. intros Hb Hs. apply good_buffer_size in Hb.
      apply andb_false_iff in Ht. lia.
  - apply Forall_cons in Hm as [Hn Hm].
    destruct ((0 <? size buffer) && (size data + size buffer <=? kClientMaxBufferSize)) eqn:Ht.
    + apply andb_prop in Ht as [H1 H2].
      destruct (IH (data ++ buffer) next) as (d & b & m & -> & He & Hs & Hr' & Hm' & Hlen & _);
        [by right | done | rewrite size_app; lia |].
      exists d, b, m. rewrite size_app in Hs. split; [done |]. rewrite He, <- app_assoc. simpl.
      split_and!; try done; lia.
    + exists data, buffer, (next :: more). split_and!; try done; try lia; [by constructor |].
      intros Hb Hs. apply good_buffer_size in Hb. apply andb_false_iff in Ht. lia.
Qed.

(** The fuel is enough, and nothing is lost. *)
Lemma read_all_spec fuel buffer more :
  good_rest buffer more -> Forall (fun b => good_buffer b = true) more -> (length more < fuel)%nat ->
  exists ds, read_all fuel buffer more = Ok ds /\ concat ds = buffer ++ concat more /\ Forall good_data ds.
Proof.
  revert buffer more. induction fuel as [| fuel IH]; intros buffer more Hr Hm Hf; [lia |].
  destruct Hr as [[-> ->] | Hb]; [by exists [] |]. cbn [read_all].
  pose proof (good_buffer_size _ Hb) as Hs. pose proof max_size.
  rewrite (proj2 (Z.ltb_lt _ _)) by lia. cbn [negb].
  destruct (fill_spec [] buffer more) as (d & b & m & -> & He & Hd & Hr' & Hm' & _ & Hmore);
    [by right | done | done |]. change (size []) with 0 in *.
  destruct (Hmore Hb) as [Hlt Hnext]; [lia |].
  assert (Hrest : exists ds, read_all fuel b m = Ok ds /\ concat ds = b ++ concat m /\ Forall good_data ds).
  { destruct Hnext as [-> | Hlen]; [| apply IH; [done | done | lia]].
    destruct Hr' as [[_ ->] | Hno]; [| done]. exists []. by destruct fuel. }
  destruct Hrest as (ds & -> & Hc & Hg). cbn [mbind chk_bind mret chk_ret].
  rewrite (proj2 (Z.ltb_lt _ _)) by lia. exists (d :: ds). split; [done |]. simpl in He.
  split; [by simpl; rewrite Hc, He | by constructor; [unfold good_data; lia |]].
Qed.

Lemma calls_data ds : calls (didLoadData <$> ds) = LoadedData <$> ds.
Proof. induction ds as [| d ds IH]; [done |]. rewrite !fmap_cons, <- IH. done. Qed.

Lemma data_of_data ds : data_of (LoadedData <$> ds) = ds.
Proof. induction ds as [| d ds IH]; [done |]. change (d :: data_of (LoadedData <$> ds) = d :: ds). by rewrite IH. Qed.

Lemma stage_data ds : stage_from PostResponse (LoadedData <$> ds) = Some PostResponse.
Proof. induction ds as [| d ds IH]; [done |]. exact IH. Qed.

Lemma no_final_data ds : no_final (LoadedData <$> ds) = true.
Proof. by induction ds. Qed.

Lemma good_reads_split rs :
  good_reads rs = true -> Forall (fun b => good_buffer b = true) (chunks rs) /\ final rs <= 0.
Proof.
  unfold good_reads. intros [Hc Hf]%andb_prop. split; [| lia]. apply Forall_forall. intros b Hb.
  rewrite forallb_forall in Hc. by apply Hc, list_elem_of_In.
Qed.

(** The data that was read is told. *)
Lemma tell_data c ds :
  under_way c -> stage_of (calls (sent c)) = Some PostResponse -> Forall good_data ds ->
  let c' := c <| sent := sent c ++ (didLoadData <$> ds) |> <| given := given c ++ concat ds |> in
  under_way c' /\ stage_of (calls (sent c')) = Some PostResponse.
Proof.
  intros [[Ho Hd Hs] Hcl Hl Hb Hn Hno Hst] Hpost Hds c'.
  assert (Hcalls : calls (sent c') = calls (sent c) ++ (LoadedData <$> ds)).
  { simpl. by rewrite calls_app, calls_data. }
  assert (Hstage : stage_of (calls (sent c')) = Some PostResponse).
  { rewrite Hcalls, stage_from_app, Hpost. apply stage_data. }
  split; [| done]. split; try done; [| by rewrite Hcalls, no_final_app, Hno, no_final_data | by right].
  split.
  - unfold in_order. by rewrite Hstage.
  - rewrite Hcalls, data_of_app, data_of_data, concat_app, Hd. done.
  - rewrite Hcalls, data_of_app, data_of_data. by apply Forall_app.
Qed.

(** [idle c]: no callback of the tracker is expected. *)
Definition idle c : Prop := ssl_callbacks c = 0%nat /\ host_callbacks c = 0%nat.

Lemma idle_track t c : idle c -> idle (track t c).
Proof. unfold idle, track. by destruct (tracker_ c). Qed.

Lemma OnReadCompleted_ok s buffer rs c :
  under_way c -> started c -> idle c -> stage_of (calls (sent c)) = Some PostResponse ->
  good_reads rs = true ->
  good_buffer buffer = true \/ buffer = [] /\ chunks rs = [] /\ final rs <> ERR_IO_PENDING ->
  core_step s c (OnReadCompleted buffer rs c).
Proof.
  intros Hu Hst Hi Hpost [Hm Hf]%good_reads_split Hb. unfold OnReadCompleted.
  rewrite (dcheck_true (_ || _)). 2: { destruct Hb as [Hb%good_buffer_size | (-> & _ & Hb)];
      [by rewrite (proj2 (Z.ltb_lt _ _)) by lia |].
    apply orb_true_intro. right. by apply negb_true_iff, Z.eqb_neq. }
  cbn [mbind chk_bind dcheck]. destruct (uw_net _ Hu) as [r Hr]. rewrite Hr.
  destruct (read_all_spec (S (length (chunks rs))) buffer (chunks rs)) as (ds & -> & Hc & Hg); [| done | lia |].
  { destruct Hb as [Hb | (-> & -> & _)]; [by right | by left]. }
  cbn [mbind chk_bind]. set (c1 := c <| sent := _ |> <| given := _ |>).
  destruct (tell_data c ds Hu Hpost Hg) as [Hu1 Hp1]. fold c1 in Hu1, Hp1.
  set (c2 := track (CaptureReceivedBytes _) c1).
  assert (Hu2 : under_way c2) by by apply under_way_track.
  assert (Hs2 : sent c2 = sent c1) by apply sent_track.
  assert (Hcl : client_ c2 = client_ c) by by rewrite (uw_client _ Hu2), (uw_client _ Hu).
  assert (Hpre : sent c `prefix_of` sent c2) by (rewrite Hs2; by apply prefix_app_r).
  apply (core_step_more s c c2); [| done | done].
  destruct (Z.eqb_spec (final rs) 0) as [H0 | H0]; [| destruct (Z.eqb_spec (final rs) ERR_IO_PENDING) as [H1 | H1]]; simpl.
  - assert (Ho : in_order (calls (sent c2 ++ [didFinishLoading])) = true).
    { unfold in_order. by rewrite calls_app, stage_from_app, Hs2, Hp1. }
    destruct (talk_end c2 didFinishLoading FinishedLoading (uw_talk _ Hu2)) as [He [Ho' Hd' Hz']];
      [done | done | apply Hu2 | done |].
    destruct (StopNetRequest_ok true c2) as (c' & Hrun & Hok & Hs & Hc' & Hn); try apply Hu2; [by right |].
    rewrite Hrun. cbn [mbind chk_bind mret chk_ret]. eexists. split; [reflexivity |].
    destruct Hok as [[Ho3 Hd3 Hz3] Hl3 Hcase]. rewrite Hn in Hcase.
    split; [| simpl; rewrite Hs, Hc'; split; [by apply prefix_app_r | by rewrite (uw_client _ Hu2)]].
    split; simpl; [| done | rewrite Hn, Hc', Hs; split; [apply Hcase | by left]].
    rewrite Hs in *. split; simpl; rewrite ?Hs; [done | | done].
    rewrite <- Hd3. by rewrite calls_app, data_of_app, app_nil_r.
  - exists (in_phase Reading c2). split; [done |]. split; [| done].
    apply waiting_ok; try done; [| by rewrite Hs2 | | ].
    + apply started_track. by apply (started_keep c).
    + by apply (idle_track _ c1).
    + by apply (idle_track _ c1).
  - by apply StopRequestWithError_ok.
Qed.

Context (laws : header_laws).

Lemma response_ok info :
  good_response info = true -> exists response, GetNSURLResponseForRequest info = Ok response.
Proof.
  unfold good_response, GetNSURLResponseForRequest, SysUTF8ToNSString.
  destruct (response_url info); [| done]. cbn [deref mbind chk_bind].
  destruct (is_data_url info); simpl.
  - intros [-> ->]%andb_prop. cbn [deref mbind chk_bind mret chk_ret]. by eexists.
  - intros _. destruct (add_header_lines_run laws
      match response_headers info with Some h => header_lines h | None => [] end false ∅) as (f & -> & _).
    cbn [mbind chk_bind mret chk_ret]. by eexists.
Qed.

Lemma StartReading_ok s rs c :
  net_request_ c = None /\ core_ok s c \/
  (under_way c /\ started c /\ idle c /\ stage_of (calls (sent c)) = Some PreResponse /\
   exists r info, net_request_ c = Some r /\ nr_response r = Some info /\ good_response info = true) ->
  good_reads rs = true -> core_step s c (StartReading rs c).
Proof.
  intros Hc Hrs. unfold StartReading.
  destruct Hc as [[-> Hok] | (Hu & Hst & Hi & Hpre & r & info & Hr & Hinfo & Hgood)]; [by exists c |].
  rewrite Hr, Hinfo. cbn [deref mbind chk_bind].
  destruct (response_ok info Hgood) as [response ->]. cbn [mbind chk_bind].
  set (c1 := track CaptureHeaders c). set (c2 := if 0 <? _ then _ else c1).
  assert (H2 : under_way c2 /\ started c2 /\ idle c2 /\ sent c2 = sent c).
  { unfold c2. destruct (0 <? _); unfold c1; rewrite ?sent_track;
      (split_and!; [| | | done]); by repeat first [apply under_way_track | apply started_track | apply idle_track]. }
  destruct H2 as (Hu2 & Hst2 & Hi2 & Hs2).
  set (c3 := tell (didReceiveResponse response) c2).
  assert (Hcalls : calls (sent c3) = calls (sent c) ++ [ReceivedResponse response]).
  { unfold c3, tell. simpl. by rewrite calls_app, Hs2. }
  assert (Hp3 : stage_of (calls (sent c3)) = Some PostResponse).
  { rewrite Hcalls, stage_of_snoc, Hpre. done. }
  assert (Hu3 : under_way c3).
  { destruct Hu2 as [[Ho Hd Hz] Hcl Hl Hb Hn Hno _]. rewrite Hs2 in *.
    split; try done; [| by rewrite Hcalls, no_final_app, Hno | by right].
    split; [unfold in_order; by rewrite Hp3 | |]; rewrite Hcalls, data_of_app, app_nil_r; done. }
  assert (Hst3 : started c3) by by apply (started_keep c2).
  apply (core_step_more s c c3).
  2: { unfold c3, tell. simpl. rewrite Hs2. by apply prefix_app_r. }
  2: { by rewrite (uw_client _ Hu3), (uw_client _ Hu). }
  destruct (first_read rs) as [buffer rs'] eqn:Hf. unfold first_read in Hf.
  pose proof (good_reads_split _ Hrs) as [Hm Hle].
  destruct (chunks rs) as [| b more] eqn:Hch; injection Hf as <- <-.
  - change (0 <? size []) with false. cbn [negb orb andb].
    destruct (Z.eqb_spec (final rs) ERR_IO_PENDING).
    + exists (in_phase Reading c3). split; [done |]. split; [| done].
      by apply waiting_ok; try apply Hi2.
    + destruct (Z.leb_spec 0 (final rs)); [| by apply StopRequestWithError_ok].
      apply OnReadCompleted_ok; try done. by right.
  - apply Forall_cons in Hm as [Hb Hm]. pose proof (good_buffer_size _ Hb).
    assert (Hlt : 0 <? size b = true) by (apply Z.ltb_lt; lia). rewrite Hlt. cbn [negb orb andb].
    apply OnReadCompleted_ok; try done; [| by left]. unfold good_reads in *. simpl.
    rewrite Hch in Hrs. simpl in Hrs. by rewrite Hb in Hrs.
Qed.

(** *** The delegate's methods *)
Lemma connecting s c r :
  core_ok s c -> net_request_ c = Some r -> nr_phase r = Connecting ->
  under_way c /\ started c /\ idle c /\ stage_of (calls (sent c)) = Some PreResponse.
Proof.
  intros Hok Hr Hph. pose proof (running_under_way s c r Hok Hr) as Hu. split; [done |].
  destruct Hok as [_ _ Hc]. rewrite Hr in Hc. split; [by eapply running_started; [| | by rewrite Hph] |].
  destruct Hc as [_ Hst _ _ Hssl Hhost _]. rewrite Hph in *. done.
Qed.

Lemma OnAuthRequired_ok s c r :
  core_ok s c -> net_request_ c = Some r -> nr_phase r = Connecting -> core_step s c (OnAuthRequired c).
Proof.
  intros Hok Hr Hph. unfold OnAuthRequired, CompleteAuthentication, didRecieveAuthChallenge.
  exists (answer_auth false c). split; [by destruct (tracker_ c) |]. split; [| done].
  destruct Hok as [Ht Hl Hc]. split; [by destruct Ht | done |].
  simpl. rewrite Hr in *. simpl. by destruct Hc; split.
Qed.

Lemma OnReceivedRedirect_ok s new_url info c r :
  core_ok s c -> net_request_ c = Some r -> nr_phase r = Connecting -> good_response info = true ->
  core_step s c (OnReceivedRedirect new_url info c).
Proof.
  intros Hok Hr Hph Hinfo. destruct (connecting s c r Hok Hr Hph) as (Hu & Hst & Hi & Hpre).
  destruct Hst as (r' & request & Hr' & Hrq & _ & _ & Hd & _). unfold OnReceivedRedirect.
  rewrite Hrq. cbn [deref mbind chk_bind]. destruct (is_valid new_url); simpl; [| by apply StopRequestWithError_ok].
  rewrite Hd. cbn [mbind chk_bind mret chk_ret]. destruct (response_ok info Hinfo) as [response ->].
  cbn [mbind chk_bind]. set (request' := redirected_request _ _).
  set (c1 := track StopRedirectedRequest _).
  set (c2 := c1 <| request_ := None |>).
  assert (H1 : sent c1 = sent c /\ given c1 = given c /\ client_ c1 = client_ c /\
    stream_is_listened c1 = stream_is_listened c /\ stream_delegate_ c1 = false /\ net_request_ c1 = Some r).
  { unfold c1, track. by destruct (tracker_ _). }
  destruct H1 as (H1 & H2 & H3 & H4 & H5 & H6). simpl. rewrite H6. cbn [deref mbind chk_bind].
  change (core_step s c (StopNetRequest (tell (wasRedirectedToRequest request' response) c2))).
  apply (core_step_from s c c2); [| done | done].
  assert (Hu2 : under_way c2).
  { destruct Hu as [[] Hcl Hl Hb Hn Hno Hs]. split; simpl; rewrite ?H1, ?H3, ?H4, ?H5, ?H6; try done; [| by rewrite Hl].
    split; simpl; by rewrite ?H1, ?H2. }
  eapply tell_end_ok; [done | reflexivity | done |]. simpl. unfold in_order.
  by rewrite calls_app, stage_from_app, H1, Hpre.
Qed.

Lemma OnSSLCertificateError_ok s is_minor fatal c r :
  core_ok s c -> net_request_ c = Some r -> nr_phase r = Connecting ->
  core_step s c (OnSSLCertificateError is_minor fatal (in_phase AskedCertificate c)).
Proof.
  intros Hok Hr Hph. destruct (connecting s c r Hok Hr Hph) as (Hu & Hst & [Hs Hh] & Hpre).
  pose proof (under_way_phase AskedCertificate c Hu) as Hu1. set (c1 := in_phase AskedCertificate c) in *.
  apply (core_step_from s c c1); [| done | done]. unfold OnSSLCertificateError. destruct fatal.
  - assert (Hu2 : under_way (track (TrackSSLCertificateError false) c1)) by by apply under_way_track.
    apply (core_step_from s c1 (track (TrackSSLCertificateError false) c1)).
    + apply CancelAfterSSLError_ok. by left.
    + apply sent_track.
    + by rewrite (uw_client _ Hu1), (uw_client _ Hu2).
  - change (tracker_ c1) with (tracker_ c). destruct (tracker_ c) eqn:Htr; cbn [negb].
    + exists (in_phase AskedCertificate (track (TrackSSLCertificateError true) c <| ssl_callbacks := 1%nat |>)).
      unfold track, c1. simpl. rewrite Htr, Hs. split; [done |]. split; [| done].
      apply waiting_ok; [| by apply (started_keep c) | done | done | done | exact Hh | done].
      by apply (under_way_keep c).
    + destruct is_minor; [| by apply CancelAfterSSLError_ok; left].
      exists (in_phase Connecting c1). split; [done |]. split; [| done].
      replace (in_phase Connecting c1) with (in_phase Connecting c).
      * by apply waiting_ok.
      * unfold c1, in_phase. destruct c. simpl in *. by subst.
Qed.

Lemma in_phase_same ph c r : net_request_ c = Some r -> nr_phase r = ph -> in_phase ph c = c.
Proof. intros Hr <-. unfold in_phase. destruct c; simpl in *; subst. by destruct r. Qed.

Lemma core_ok_track s t c : core_ok s c -> core_ok s (track t c).
Proof.
  intros Hok. unfold track. destruct (tracker_ c); [| done]. destruct Hok as [[] Hl Hc].
  split; [done | done |]. simpl. destruct (net_request_ c); [by destruct Hc; split |].
  destruct Hc as [Hd Hc]. split; [done |]. destruct (client_ c); [done | by destruct Hc; split].
Qed.

(** The callbacks of the tracker leave a request that has ended alone. *)
Lemma callback_ended s c c' :
  core_ok s c -> net_request_ c = None -> client_ c = true ->
  sent c' = sent c -> given c' = given c -> client_ c' = client_ c -> net_request_ c' = None ->
  stream_is_listened c' = stream_is_listened c -> stream_delegate_ c' = stream_delegate_ c ->
  core_ok s c'.
Proof.
  intros [[] Hl Hc] Hn Hcl Hs Hg Hc' Hn' Hli Hde. rewrite Hn, Hcl in Hc.
  split; [split; by rewrite ?Hs, ?Hg | by rewrite Hli, Hde |]. by rewrite Hn', Hde, Hc', Hcl, Hs.
Qed.

Lemma no_callback_before_start s c :
  core_ok s c -> ssl_callbacks c <> 0%nat \/ host_callbacks c <> 0%nat -> client_ c = true.
Proof.
  intros [_ _ Hc] Hcb. destruct (net_request_ c); [apply Hc |]. destruct Hc as [_ Hc].
  destruct (client_ c); [done |]. destruct Hc as [? ? ? ? ? Hs Hh]. lia.
Qed.

Lemma SSLErrorCallback_ok s carryOn c :
  core_ok s c -> ssl_callbacks c <> 0%nat ->
  core_step s c (SSLErrorCallback carryOn (c <| ssl_callbacks := Nat.pred (ssl_callbacks c) |>)).
Proof.
  intros Hok Hcb. set (c1 := c <| ssl_callbacks := _ |>). apply (core_step_from s c c1); [| done | done].
  destruct (net_request_ c) as [r |] eqn:Hr.
  - pose proof (running_under_way s c r Hok Hr) as Hu. destruct Hok as [_ _ Hc]. rewrite Hr in Hc.
    pose proof Hc as [_ Hst _ _ Hssl Hhost _].
    destruct (decide (nr_phase r = AskedCertificate)) as [Hph | Hph].
    2: { rewrite bool_decide_eq_false_2 in Hssl by done. done. }
    rewrite Hph in Hst, Hssl, Hhost.
    assert (Hu1 : under_way c1) by (apply (under_way_keep c); try done; simpl; by rewrite Hr).
    assert (Hst1 : started c1).
    { apply (started_keep c); try done. eapply running_started; [done | done | by rewrite Hph]. }
    unfold SSLErrorCallback. destruct carryOn; [| by apply CancelAfterSSLError_ok; left].
    exists (in_phase Connecting c1). split; [done |]. split; [| done].
    apply waiting_ok; try done. simpl. by rewrite Hssl.
  - assert (Hok1 : core_ok s c1).
    { apply (callback_ended s c); try done. apply (no_callback_before_start s c Hok). by left. }
    unfold SSLErrorCallback. destruct carryOn; [| by apply CancelAfterSSLError_ok; right].
    exists (in_phase Connecting c1). split; [done |].
    replace (in_phase Connecting c1) with c1; [done |]. unfold c1, in_phase. destruct c. simpl in *. by subst.
Qed.

Lemma HostStateCallback_ok s carryOn rs c :
  core_ok s c -> host_callbacks c <> 0%nat -> good_reads rs = true ->
  core_step s c (HostStateCallback carryOn rs (c <| host_callbacks := Nat.pred (host_callbacks c) |>)).
Proof.
  intros Hok Hcb Hrs. set (c1 := c <| host_callbacks := _ |>). apply (core_step_from s c c1); [| done | done].
  destruct (net_request_ c) as [r |] eqn:Hr.
  - pose proof (running_under_way s c r Hok Hr) as Hu. destruct Hok as [_ _ Hc]. rewrite Hr in Hc.
    pose proof Hc as [_ Hst _ _ Hssl Hhost Hresp].
    destruct (decide (nr_phase r = Answered)) as [Hph | Hph].
    2: { rewrite bool_decide_eq_false_2 in Hhost by done. done. }
    rewrite Hph in Hst, Hssl, Hhost. destruct (Hresp Hph) as (info & Hinfo & Hgood).
    assert (Hu1 : under_way c1) by (apply (under_way_keep c); try done; simpl; by rewrite Hr).
    assert (Hst1 : started c1).
    { apply (started_keep c); try done. eapply running_started; [done | done | by rewrite Hph]. }
    unfold HostStateCallback. destruct carryOn; [| by apply CancelAfterSSLError_ok; left].
    apply StartReading_ok; [| done]. right. split_and!; try done; [| by exists r, info].
    split; [done |]. simpl. by rewrite Hhost.
  - assert (Hok1 : core_ok s c1).
    { apply (callback_ended s c); try done. apply (no_callback_before_start s c Hok). by right. }
    unfold HostStateCallback. destruct carryOn; [| by apply CancelAfterSSLError_ok; right].
    apply StartReading_ok; [by left | done].
Qed.

Lemma OnResponseStarted_ok s certificate_error net_error info rs c r :
  core_ok s c -> net_request_ c = Some r -> nr_phase r = Connecting ->
  net_error <> ERR_IO_PENDING -> good_response info = true -> good_reads rs = true ->
  core_step s c (OnResponseStarted certificate_error net_error rs (answered info c)).
Proof.
  intros Hok Hr Hph Hne Hinfo Hrs. destruct (connecting s c r Hok Hr Hph) as (Hu & Hst & Hi & Hpre).
  set (c1 := answered info c). apply (core_step_from s c c1); [| done | done].
  set (r1 := r <| nr_response := Some info |> <| nr_phase := Answered |>).
  assert (Hr1 : net_request_ c1 = Some r1) by (unfold c1, answered; simpl; by rewrite Hr).
  assert (Hu1 : under_way c1) by (apply (under_way_keep c); try done; by rewrite Hr1).
  assert (Hst1 : started c1).
  { destruct Hst as (r0 & request & Hr0 & Hst). rewrite Hr in Hr0. injection Hr0 as <-.
    by exists r1, request. }
  unfold OnResponseStarted. rewrite dcheck_true by (by apply negb_true_iff, Z.eqb_neq).
  cbn [mbind chk_bind]. rewrite Hr1. destruct (Z.eqb_spec net_error 0); simpl; [| by apply StopRequestWithError_ok].
  destruct (tracker_ c && certificate_error) eqn:Ht.
  - apply andb_prop in Ht as [Ht _]. eexists. split; [reflexivity |].
    set (c2 := track _ _ <| host_callbacks := _ |>).
    assert (H2 : c2 = track CaptureCertificatePolicyCache (c1 <| host_callbacks := 1%nat |>)).
    { unfold c2, track. change (tracker_ c1) with (tracker_ c). rewrite Ht. simpl. rewrite Ht.
      destruct Hi as [_ Hi]. change (host_callbacks (c1 <| tracked := _ |>)) with (host_callbacks c).
      by rewrite Hi. }
    rewrite H2. split; [| by rewrite sent_track; unfold track; destruct (tracker_ _)].
    apply core_ok_track. rewrite <- (in_phase_same Answered (c1 <| host_callbacks := 1%nat |>) r1) by done.
    apply waiting_ok; [| | done | done | apply Hi | done | by exists r1, info].
    + by apply (under_way_keep c1).
    + by apply (started_keep c1).
  - apply StartReading_ok; [| done]. right. split_and!; try done. by exists r1, info.
Qed.

Lemma HandleStreamEvent_ok s ev c :
  core_ok s c -> stream_is_listened c = true -> ev <> HasBytesAvailable None ->
  core_step s c (HandleStreamEvent ev c).
Proof.
  intros Hok Hl Hev. pose proof Hok as [Ht Heq Hc]. rewrite Hl in Heq.
  destruct (net_request_ c) as [r |] eqn:Hr; [| destruct Hc as [Hd _]; congruence].
  pose proof (running_under_way s c r Hok Hr) as Hu.
  destruct Hc as [Hcl Hst Hno (request & Hrq & Hurl & Hm & Hbody) Hssl Hhost Hresp].
  destruct (decide (nr_phase r = Unstarted)) as [Hph | Hph].
  2: { rewrite bool_decide_eq_false_2 in Hbody by done. destruct Hbody. congruence. }
  rewrite Hph in Hst, Hssl, Hhost, Hbody. destruct Hbody as (_ & Hhas & Hread & Hup).
  set (c1 := c <| stream_is_listened := false |> <| stream_delegate_ := false |>).
  assert (Hstop : StopListeningStream true c = Ok c1).
  { unfold StopListeningStream. rewrite Hl, <- Heq. done. }
  assert (Hu1 : under_way c1) by (destruct Hu as [[] ? ? ? ? ? ?]; by split).
  unfold HandleStreamEvent. rewrite <- Heq. cbn [dcheck mbind chk_bind].
  destruct ev as [| | [data |] |]; try done; rewrite ?Hstop; cbn [mbind chk_bind deref].
  - apply (core_step_from s c c1); [| done | done]. by apply StopRequestWithError_ok.
  - change (net_request_ c1) with (net_request_ c). rewrite Hr. cbn [deref mbind chk_bind mret chk_ret].
    change (post_data_readers_ c1) with (post_data_readers_ c).
    set (r' := match post_data_readers_ c with [] => r | l => r <| upload := Some l |> end).
    set (c2 := c1 <| post_data_readers_ := [] |> <| net_request_ := Some r' |>).
    assert (Hr' : nr_url r' = nr_url r /\ nr_method r' = nr_method r /\
                  concat (default [] (upload r')) = streamed c).
    { unfold r'. rewrite <- Hread. destruct (post_data_readers_ c); [by rewrite Hup | done]. }
    destruct Hr' as (Hu' & Hm' & Hb').
    eexists. split; [reflexivity |]. split.
    + apply core_ok_track, waiting_ok; try done; [by apply (under_way_keep c1) |].
      exists r', request. rewrite Hu', Hm'. unfold body_of. rewrite Hhas. done.
    + by rewrite sent_track; unfold track; destruct (tracker_ _).
  - eexists. split; [reflexivity |].
    assert (Hnew : forall readers, concat readers = streamed c ++ data ->
      core_ok s (c <| streamed := streamed c ++ data |> <| post_data_readers_ := readers |>)).
    { intros readers Hcat. split; [by destruct Ht | by simpl; rewrite Hl |]. simpl. rewrite Hr.
      split; simpl; rewrite ?Hph; try done. by exists request. }
    destruct (Z.ltb_spec 0 (size data)) as [Hlt | Hle].
    + split; [| done]. apply Hnew. rewrite concat_app. simpl. by rewrite Hread, app_nil_r.
    + split; [| done]. destruct data; [| by unfold size in Hle; simpl in Hle; lia].
      specialize (Hnew (post_data_readers_ c)). rewrite app_nil_r in *. apply Hnew in Hread. by destruct c.
  - by exists c.
Qed.

Lemma Start_ok s lookup c :
  core_ok s c -> client_ c = false -> net_request_ c = None ->
  exists c', Start lookup c = Ok c' /\ core_ok s c' /\ sent c `prefix_of` sent c' /\ client_ c' = true.
Proof.
  intros [_ Hl Hc] Hcl Hn. rewrite Hn, Hcl in Hc. destruct Hc as [Hd [Hs [request Hrq] Hg Hst Hrd Hssl Hhost]].
  assert (Hfail : forall ns net tr, core_ok s
    (tell (didFailWithNSErrorCode ns net) (c <| client_ := true |> <| tracker_ := tr |>))).
  { intros ns net tr. split; simpl; rewrite ?Hs, ?Hn, ?Hd, ?Hl, ?Hd; [split; simpl; rewrite ?Hs, ?Hg; [done | done | exact (Forall_nil_2 _)] | done |].
    split; [done |]. left. exists []. by eexists. }
  unfold Start. rewrite Hcl. cbn [dcheck negb mbind chk_bind]. simpl. rewrite Hrq. cbn [deref mbind chk_bind].
  destruct lookup as [tr |].
  2: { eexists. split; [reflexivity |]. specialize (Hfail NSURLErrorCancelled ERR_ABORTED (tracker_ c)).
       split; [by destruct c | simpl; rewrite Hs; split; [apply prefix_nil | done]]. }
  destruct (is_valid (URL request)); simpl.
  2: { eexists. split; [reflexivity |]. split; [apply Hfail | simpl; rewrite Hs; split; [apply prefix_nil | done]]. }
  set (r := {| nr_url := _; nr_method := _; first_party_for_cookies := _ |}).
  assert (Hprefix : forall l : list client_call, sent c `prefix_of` l) by (intros l; rewrite Hs; apply prefix_nil).
  destruct (HTTPBodyStream request) eqn:Hbs.
  - eexists. split; [reflexivity |]. split; [| simpl; by split].
    split; simpl; rewrite ?Hs; [split; simpl; rewrite ?Hs, ?Hg; [done | done | exact (Forall_nil_2 _)] | done |].
    split; simpl; rewrite ?Hs, ?Hssl, ?Hhost; try done. exists request. by rewrite Hrd, Hst.
  - eexists. split; [reflexivity |]. set (r' := if 0 <? _ then _ else r). set (c2 := tell _ _ <| net_request_ := Some r' |>).
    assert (Hr' : nr_url r' = URL request /\ nr_method r' = HTTPMethod request /\
                  concat (default [] (upload r')) = default [] (HTTPBody request)).
    { unfold r'. destruct (Z.ltb_spec 0 (size (default [] (HTTPBody request)))) as [Hlt | Hle]; simpl;
        [by rewrite app_nil_r |]. unfold size in Hle. destruct (default [] (HTTPBody request)); [done | simpl in Hle; lia]. }
    destruct Hr' as (Hu' & Hm' & Hb').
    split; [| split; [by rewrite sent_track | unfold track; by destruct (tracker_ _)]].
    apply core_ok_track, waiting_ok; try done.
    + split; simpl; rewrite ?Hs, ?Hl, ?Hd; try done; [split; simpl; rewrite ?Hs, ?Hg; [done | done | exact (Forall_nil_2 _)] | by left].
    + exists r', request. simpl. unfold body_of. rewrite Hbs, Hd. done.
    + simpl. by rewrite Hs.
Qed.

Lemma core_ok_tracker s tr c : core_ok s c -> core_ok s (c <| tracker_ := tr |>).
Proof.
  intros [[] Hl Hc]. split; [done | done |]. simpl. destruct (net_request_ c); [by destruct Hc; split |].
  destruct Hc as [Hd Hc]. split; [done |]. destruct (client_ c); [done | by destruct Hc; split].
Qed.

(** *** The request stays the one of the system until it is redirected *)
Definition keeps_request (f : HttpProtocolHandlerCore -> chk HttpProtocolHandlerCore) : Prop :=
  forall c c', f c = Ok c' ->
    net_request_ c' = None \/ (request_ c' = request_ c /\ is_Some (net_request_ c)).

Lemma StopListeningStream_net b c c' :
  StopListeningStream b c = Ok c' -> net_request_ c' = net_request_ c /\ request_ c' = request_ c.
Proof. unfold StopListeningStream. intros Hrun. by run_all Hrun. Qed.

Lemma StopNetRequest_net c c' : StopNetRequest c = Ok c' -> net_request_ c' = None.
Proof.
  unfold StopNetRequest. intros Hrun. run_all Hrun; [| done].
  by apply StopListeningStream_net in Hrun as [-> _].
Qed.

Lemma StopRequestWithError_net ns net c c' :
  StopRequestWithError ns net c = Ok c' -> net_request_ c' = None.
Proof. unfold StopRequestWithError. intros Hrun. run_all Hrun. by eapply StopNetRequest_net. Qed.

Lemma track_net t c : net_request_ (track t c) = net_request_ c /\ request_ (track t c) = request_ c.
Proof. unfold track. by destruct (tracker_ c). Qed.

Lemma Cancel_keeps : keeps_request Cancel.
Proof.
  intros c c' Hrun. unfold Cancel in Hrun. destruct (net_request_ c) eqn:Hr.
  - left. by eapply StopNetRequest_net.
  - injection Hrun as <-. by left.
Qed.

Lemma CancelAfterSSLError_keeps : keeps_request CancelAfterSSLError.
Proof.
  intros c c' Hrun. unfold CancelAfterSSLError in Hrun. destruct (net_request_ c) eqn:Hr.
  - left. by eapply StopRequestWithError_net.
  - injection Hrun as <-. by left.
Qed.

(** What keeps the request is there when it was. *)
Lemma keep_net c c' :
  request_ c' = request_ c -> (is_Some (net_request_ c') -> is_Some (net_request_ c)) ->
  net_request_ c' = None \/ (request_ c' = request_ c /\ is_Some (net_request_ c)).
Proof. intros Hq Hn. destruct (net_request_ c') as [r |]; [right; split; [done | by apply Hn] | by left]. Qed.

Lemma OnReadCompleted_keeps buffer rs : keeps_request (OnReadCompleted buffer rs).
Proof.
  intros c c' Hrun. unfold OnReadCompleted in Hrun. apply bind_Ok_inv in Hrun as (? & _ & Hrun).
  apply bind_Ok_inv in Hrun as (? & _ & Hrun). destruct (net_request_ c) as [r |] eqn:Hr.
  2: { injection Hrun as <-. by left. }
  apply bind_Ok_inv in Hrun as (ds & _ & Hrun). destruct (final rs =? 0).
  - apply bind_Ok_inv in Hrun as (c1 & H1 & Hrun). injection Hrun as <-. left. simpl.
    by eapply StopNetRequest_net.
  - destruct (negb _); [left; by eapply StopRequestWithError_net |]. injection Hrun as <-.
    right. split; [| by eexists]. simpl. by rewrite (proj2 (track_net _ _)).
Qed.

Lemma StartReading_keeps rs : keeps_request (StartReading rs).
Proof.
  intros c c' Hrun. unfold StartReading in Hrun. destruct (net_request_ c) as [r |] eqn:Hr.
  2: { injection Hrun as <-. by left. }
  apply bind_Ok_inv in Hrun as (info & _ & Hrun). apply bind_Ok_inv in Hrun as (response & _ & Hrun).
  cbv zeta in Hrun. set (c1 := if 0 <? expectedContentLength response then _ else _) in Hrun.
  assert (Hq : request_ c1 = request_ c).
  { unfold c1. destruct (0 <? _); by rewrite ?(proj2 (track_net _ _)). }
  destruct (first_read rs) as [buffer rs']. destruct (negb _ && _).
  - injection Hrun as <-. right. split; [exact Hq | by eexists].
  - destruct (_ || _); [| left; by eapply StopRequestWithError_net].
    destruct (OnReadCompleted_keeps _ _ _ _ Hrun) as [Hn | [Hn _]]; [by left | right].
    split; [by rewrite Hn | by eexists].
Qed.

Lemma HandleStreamEvent_keeps ev : keeps_request (HandleStreamEvent ev).
Proof.
  intros c c' Hrun. unfold HandleStreamEvent in Hrun. apply bind_Ok_inv in Hrun as (? & _ & Hrun).
  destruct ev as [| | data |].
  - apply bind_Ok_inv in Hrun as (c1 & _ & Hrun). left. by eapply StopRequestWithError_net.
  - apply bind_Ok_inv in Hrun as (c1 & H1 & Hrun). apply StopListeningStream_net in H1 as [Hn1 Hq1].
    rewrite <- Hn1. destruct (net_request_ c1) as [r |]; [| done]. injection Hrun as <-.
    right. split; [| by eexists]. by rewrite (proj2 (track_net _ _)), <- Hq1.
  - destruct data as [data |]; [| done]. cbn [deref mbind chk_bind] in Hrun. injection Hrun as <-.
    apply keep_net; by destruct (0 <? _).
  - injection Hrun as <-. by apply keep_net.
Qed.

Lemma OnReceivedRedirect_keeps new_url info : keeps_request (OnReceivedRedirect new_url info).
Proof.
  intros c c' Hrun. left. unfold OnReceivedRedirect in Hrun. apply bind_Ok_inv in Hrun as (q & _ & Hrun).
  destruct (negb _); [by eapply StopRequestWithError_net |].
  apply bind_Ok_inv in Hrun as (c1 & _ & Hrun). apply bind_Ok_inv in Hrun as (response & _ & Hrun).
  apply bind_Ok_inv in Hrun as (r & _ & Hrun). by eapply StopNetRequest_net.
Qed.

(** A change of the [URLRequest] or the callbacks first. *)
Lemma keeps_after (g : HttpProtocolHandlerCore -> HttpProtocolHandlerCore) f :
  (forall c, request_ (g c) = request_ c /\ (is_Some (net_request_ (g c)) -> is_Some (net_request_ c))) ->
  keeps_request f -> keeps_request (fun c => f (g c)).
Proof.
  intros Hg Hf c c' Hrun. destruct (Hg c) as [Hq Hn].
  destruct (Hf _ _ Hrun) as [Hnone | [Hr Hs]]; [by left |]. right. rewrite Hr, Hq. auto.
Qed.

Lemma mapped_net (f : URLRequest -> URLRequest) c : is_Some (f <$> net_request_ c) -> is_Some (net_request_ c).
Proof. by destruct (net_request_ c). Qed.

Lemma OnSSLCertificateError_keeps is_minor fatal : keeps_request (OnSSLCertificateError is_minor fatal).
Proof.
  intros c c' Hrun. unfold OnSSLCertificateError in Hrun. destruct fatal; [| destruct (negb _); [destruct is_minor |]].
  - apply (keeps_after (track (TrackSSLCertificateError false)) CancelAfterSSLError); [| exact CancelAfterSSLError_keeps | exact Hrun].
    intros c0. destruct (track_net (TrackSSLCertificateError false) c0) as [-> ->]. done.
  - injection Hrun as <-. apply keep_net; [done | apply mapped_net].
  - by apply CancelAfterSSLError_keeps.
  - injection Hrun as <-. apply keep_net; simpl; by rewrite ?(proj1 (track_net _ _)), ?(proj2 (track_net _ _)).
Qed.

Lemma OnResponseStarted_keeps ce ne rs : keeps_request (OnResponseStarted ce ne rs).
Proof.
  intros c c' Hrun. unfold OnResponseStarted in Hrun. apply bind_Ok_inv in Hrun as (? & _ & Hrun).
  destruct (net_request_ c) as [r |] eqn:Hr; [| injection Hrun as <-; by left].
  destruct (negb _); [left; by eapply StopRequestWithError_net |]. destruct (_ && _).
  - injection Hrun as <-. right. simpl. by rewrite (proj2 (track_net _ _)).
  - rewrite <- Hr. by eapply StartReading_keeps.
Qed.

(** The core's part of an event, unless it starts the core. *)
Definition core_part (e : event) : option (HttpProtocolHandlerCore -> chk HttpProtocolHandlerCore) :=
  match e with
  | EStream ev => Some (HandleStreamEvent ev)
  | ERedirect new_url info => Some (OnReceivedRedirect new_url info)
  | EAuth => Some OnAuthRequired
  | ECertificateRequested => Some OnCertificateRequested
  | ECertificateError is_minor fatal =>
      Some (fun c => OnSSLCertificateError is_minor fatal (in_phase AskedCertificate c))
  | EResponse certificate_error net_error info rs =>
      Some (fun c => OnResponseStarted certificate_error net_error rs (answered info c))
  | ERead buffer rs => Some (OnReadCompleted buffer rs)
  | ECertificateDecision carryOn =>
      Some (fun c => SSLErrorCallback carryOn (c <| ssl_callbacks := Nat.pred (ssl_callbacks c) |>))
  | EPolicyCaptured carryOn rs =>
      Some (fun c => HostStateCallback carryOn rs (c <| host_callbacks := Nat.pred (host_callbacks c) |>))
  | _ => None
  end.

Lemma handle_core_part e f w : core_part e = Some f -> handle e w = with_core f w.
Proof. destruct e; try discriminate; by intros [= <-]. Qed.

Lemma core_part_keeps e f : core_part e = Some f -> keeps_request f.
Proof.
  destruct e as [now | | | rs | r | lookup | ev | new_url info | | | is_minor fatal | ce ne info rs
    | buffer rs | carryOn | carryOn rs |]; try discriminate; intros [= <-].
  - apply HandleStreamEvent_keeps.
  - apply OnReceivedRedirect_keeps.
  - intros c c' Hrun. unfold OnAuthRequired, CompleteAuthentication in Hrun.
    assert (Hc : c' = answer_auth false c) by (destruct (tracker_ c); by injection Hrun as <-).
    subst c'. apply keep_net; [done | apply mapped_net].
  - intros c c' Hrun. left. by eapply StopRequestWithError_net.
  - apply (keeps_after (in_phase AskedCertificate)); [| apply OnSSLCertificateError_keeps].
    intros c. split; [done | apply mapped_net].
  - apply (keeps_after (answered info)); [| apply OnResponseStarted_keeps].
    intros c. split; [done | apply mapped_net].
  - apply OnReadCompleted_keeps.
  - apply (keeps_after (fun c => c <| ssl_callbacks := Nat.pred (ssl_callbacks c) |>)); [done |].
    destruct carryOn; [| exact CancelAfterSSLError_keeps].
    intros c c' Hrun. injection Hrun as <-. apply keep_net; [done | apply mapped_net].
  - apply (keeps_after (fun c => c <| host_callbacks := Nat.pred (host_callbacks c) |>)); [done |].
    destruct carryOn; [apply StartReading_keeps | exact CancelAfterSSLError_keeps].
Qed.

Lemma waits_in_net ph w : waits_in ph w = true -> exists r, net_request_ (_core w) = Some r /\ nr_phase r = ph.
Proof.
  unfold waits_in. destruct (net_request_ (_core w)) as [r |]; [| done].
  intros Hph%bool_decide_eq_true. by exists r.
Qed.

Lemma core_part_ok s e f w :
  core_part e = Some f -> enabled e w = true -> ~ unmet e w -> core_ok s (_core w) ->
  core_step s (_core w) (f (_core w)) /\ client_ (_core w) = true.
Proof.
  intros Hf He Hmet Hok.
  assert (Hnet : forall r, net_request_ (_core w) = Some r -> client_ (_core w) = true).
  { intros r Hr. destruct Hok as [_ _ Hc]. rewrite Hr in Hc. apply Hc. }
  destruct e as [now | | | rs | r | lookup | ev | new_url info | | | is_minor fatal | ce ne info rs
    | buffer rs | carryOn | carryOn rs |]; try discriminate; injection Hf as <-; cbn [enabled] in He.
  - assert (ev <> HasBytesAvailable None) by (intros ->; by apply Hmet).
    split; [by apply HandleStreamEvent_ok |].
    destruct (net_request_ (_core w)) as [r |] eqn:Hr; [by eapply Hnet |].
    destruct Hok as [_ Heq Hc]. rewrite Hr in Hc. destruct Hc as [Hd _]. congruence.
  - apply andb_prop in He as [(r & Hr & Hph)%waits_in_net Hinfo].
    split; [by eapply OnReceivedRedirect_ok | by eapply Hnet].
  - apply waits_in_net in He as (r & Hr & Hph). split; [by eapply OnAuthRequired_ok | by eapply Hnet].
  - apply waits_in_net in He as (r & Hr & Hph). split; [| by eapply Hnet].
    by apply StopRequestWithError_ok, (running_under_way s _ r).
  - apply waits_in_net in He as (r & Hr & Hph). split; [by eapply OnSSLCertificateError_ok | by eapply Hnet].
  - apply andb_prop in He as [[[[(r & Hr & Hph)%waits_in_net _]%andb_prop Hne]%andb_prop Hinfo]%andb_prop Hrs].
    apply negb_true_iff, Z.eqb_neq in Hne.
    split; [by eapply OnResponseStarted_ok | by eapply Hnet].
  - apply andb_prop in He as [[(r & Hr & Hph)%waits_in_net Hrs]%andb_prop Hb]. split; [| by eapply Hnet].
    pose proof (running_under_way s _ r Hok Hr) as Hu. destruct Hok as [_ _ Hc]. rewrite Hr in Hc.
    pose proof (running_started _ _ Hc Hr) as Hst. destruct Hc as [_ Hstage _ _ Hssl Hhost _].
    rewrite Hph in *. apply OnReadCompleted_ok; try done; [by apply Hst |].
    apply orb_prop in Hb as [Hb | Hb]; [by left | right].
    apply andb_prop in Hb as [[H1%bool_decide_eq_true H2%bool_decide_eq_true]%andb_prop H3%negb_true_iff%Z.eqb_neq]. done.
  - apply bool_decide_eq_true in He. split; [by apply SSLErrorCallback_ok |].
    apply (no_callback_before_start s); [done | by left].
  - apply andb_prop in He as [He%bool_decide_eq_true Hrs]. split; [by apply HostStateCallback_ok |].
    apply (no_callback_before_start s); [done | by right].
Qed.

(** ** The system's view *)

(** A call without the contents of its error. *)
Definition kind (i : invocation) : invocation :=
  match i with
  | Failed _ => Failed {| error_code := 0; underlying_code := 0; failing_url := ""; creation_date := 0 |}
  | _ => i
  end.

Lemma kind_calls p l : is_Some (_url p) -> kind <$> omap (passed_on p) l = kind <$> calls l.
Proof.
  intros [url Hu]. unfold calls. induction l as [| x l IH]; [done |].
  destruct x; cbn; rewrite ?Hu; cbn; first [exact IH | f_equal; exact IH].
Qed.

Lemma stage_kind st l : stage_from st (kind <$> l) = stage_from st l.
Proof.
  revert st. induction l as [| i l IH]; intros st; [done |]. simpl.
  replace (next_stage st (kind i)) with (next_stage st i) by (by destruct st, i).
  destruct (next_stage st i); [apply IH | done].
Qed.

Lemma in_order_calls p l : is_Some (_url p) -> in_order (omap (passed_on p) l) = in_order (calls l).
Proof. intros Hu. unfold in_order. by rewrite <- stage_kind, (kind_calls p), stage_kind. Qed.






Lemma passed_on_same (p p' : Proxy) (l : list client_call) : _url p' = _url p -> _creationTime p' = _creationTime p ->
  omap (passed_on p') l = omap (passed_on p) l.
Proof.
  intros Hu Ht. assert (Hx : forall x, passed_on p' x = passed_on p x).
  { intros x. unfold passed_on. by rewrite Hu, Ht. }
  induction l as [| x l IH]; [done |].
  change (match passed_on p' x with Some i => i :: omap (passed_on p') l | None => omap (passed_on p') l end =
          match passed_on p x with Some i => i :: omap (passed_on p) l | None => omap (passed_on p) l end).
  by rewrite IH, Hx.
Qed.

(** The proxy is told what the core told. *)
Lemma call_proxy_all_ok l new p :
  proxy_ok (omap (passed_on p) l) p -> in_order (calls (l ++ new)) = true ->
  exists p', call_proxy_all new p = Ok p' /\ proxy_ok (omap (passed_on p') (l ++ new)) p' /\
    _protocol p' = _protocol p.
Proof.
  revert l p. induction new as [| x new IH]; intros l p Hp Ho.
  { exists p. by rewrite app_nil_r. }
  pose proof (sv_url _ _ (po_serving _ _ Hp)) as Hu.
  assert (Hx : omap (passed_on p) (l ++ [x]) = omap (passed_on p) l ++ option_list (passed_on p x)).
  { rewrite omap_app. simpl. by destruct (passed_on p x). }
  assert (Ho' : in_order (calls (l ++ [x])) = true).
  { eapply in_order_prefix; [| exact Ho]. exists (calls new). by rewrite <- calls_app, <- app_assoc. }
  destruct (call_proxy_ok _ x p Hp) as (p1 & Hrun & Hpr & Hu1 & Ht1 & _ & Hp1).
  { by rewrite <- Hx, in_order_calls. }
  cbn [call_proxy_all]. rewrite Hrun. cbn [mbind chk_bind]. rewrite <- Hx in Hp1.
  rewrite <- (passed_on_same p p1) in Hp1 by done.
  destruct (IH (l ++ [x]) p1 Hp1) as (p' & Hrun' & Hp' & Hpr'); [by rewrite <- app_assoc |].
  exists p'. rewrite <- app_assoc in Hp'. by rewrite Hrun', Hpr', Hpr.
Qed.

Section request.
Context (request : NSURLRequest) (supported : bool).

Definition is_cancel (t : io_task) : bool := match t with CancelTask => true | StartTask => false end.

Record handler_ok w : Prop := {
  h_core : core_ok (stopped w) (_core w);
  h_request : (is_Some (net_request_ (_core w)) \/ client_ (_core w) = false) -> request_ (_core w) = Some request;
  h_proxy :
    match _protocolProxy w with
    | Some p => proxy_ok (omap (passed_on p) (sent (_core w))) p /\ _protocol p = negb (stopped w) /\
                loading w = true /\ refused w = false
    | None => client_ (_core w) = false /\ (loading w = true -> refused w = true)
    end;
  h_tasks :
    match io_tasks w with
    | StartTask :: l => client_ (_core w) = false /\ is_Some (_protocolProxy w) /\ forallb is_cancel l = true
    | l => forallb is_cancel l = true /\ (is_Some (_protocolProxy w) -> client_ (_core w) = true)
    end;
  h_cancels : existsb is_cancel (io_tasks w) = true -> stopped w = true;
  h_new : loading w = false -> io_tasks w = [] /\ stopped w = false /\ refused w = false;
}.

Lemma handler_new : handler_ok (initWithRequest request supported).
Proof. split; simpl; try done. Qed.

Lemma fresh_net s c : core_ok s c -> client_ c = false -> net_request_ c = None.
Proof.
  intros [_ _ Hc] Hcl. destruct (net_request_ c); [| done]. destruct Hc as [Hcl' _ _ _ _ _ _]. congruence.
Qed.

Lemma Start_request lookup c c' : Start lookup c = Ok c' -> request_ c' = request_ c.
Proof.
  unfold Start. intros Hrun. apply bind_Ok_inv in Hrun as (? & _ & Hrun).
  apply bind_Ok_inv in Hrun as (q & _ & Hrun). destruct lookup as [tr |]; [| by injection Hrun as <-].
  cbv zeta in Hrun. destruct (negb _); [by injection Hrun as <- |].
  destruct (HTTPBodyStream q); injection Hrun as <-; [done |]. by rewrite (proj2 (track_net _ _)).
Qed.

(** The core's step, seen by the whole. *)
Lemma with_core_ok f w :
  handler_ok w -> core_step (stopped w) (_core w) (f (_core w)) -> client_ (_core w) = true ->
  (forall c', f (_core w) = Ok c' -> net_request_ c' = None \/
     (request_ c' = request_ (_core w) /\ is_Some (net_request_ (_core w)))) ->
  exists w', with_core f w = Ok w' /\ handler_ok w'.
Proof.
  intros [Hc Hrq Hp Ht Hca Hnew] (c' & Hrun & Hok & [new Hs] & Hcl) Hcl1 Hkeep.
  unfold with_core. rewrite Hrun. cbn [mbind chk_bind].
  destruct (_protocolProxy w) as [p |] eqn:Hpr; [| destruct Hp; congruence].
  destruct Hp as (Hpok & Hprot & Hload & Href). rewrite Hs, drop_app_length.
  destruct (call_proxy_all_ok (sent (_core w)) new p Hpok) as (p' & -> & Hpok' & Hprot').
  { rewrite <- Hs. apply (co_talk _ _ Hok). }
  cbn [mbind chk_bind mret chk_ret]. eexists. split; [reflexivity |]. split; simpl; try done.
  - intros [Hn | Hn]; [| congruence]. destruct (Hkeep c' Hrun) as [Hno | [-> Hn']]; [| apply Hrq; by left].
    rewrite Hno in Hn. by destruct Hn.
  - rewrite Hs, Hprot'. done.
  - destruct (io_tasks w) as [| [] l]; [| destruct Ht; congruence |];
      (destruct Ht as [Hl _]; split; [done | by rewrite Hcl]).
Qed.

(** A task of the network thread. *)
Lemma run_io_task_ok lookup w :
  handler_ok w -> exists w', run_io_task lookup w = Ok w' /\ handler_ok w'.
Proof.
  intros Hw. pose proof Hw as [Hc Hrq Hp Ht Hca Hnew]. unfold run_io_task.
  destruct (io_tasks w) as [| [] l] eqn:Htasks; [by exists w | |].
  - destruct Ht as (Hcl & [p Hpr] & Hl). rewrite Hpr in Hp. destruct Hp as (Hpok & Hprot & Hload & Href).
    destruct (Start_ok (stopped w) lookup (_core w) Hc Hcl (fresh_net _ _ Hc Hcl))
      as (c' & Hrun & Hok & [new Hs] & Hcl').
    unfold with_core. simpl. rewrite Hrun, Hpr. cbn [mbind chk_bind]. rewrite Hs, drop_app_length.
    destruct (call_proxy_all_ok (sent (_core w)) new p Hpok) as (p' & -> & Hpok' & Hprot').
    { rewrite <- Hs. apply (co_talk _ _ Hok). }
    cbn [mbind chk_bind mret chk_ret]. eexists. split; [reflexivity |]. split; simpl; try done.
    + intros _. rewrite (Start_request _ _ _ Hrun). apply Hrq. by right.
    + rewrite Hs, Hprot'. done.
    + destruct l as [| [] ?]; done.
    + intros Hld. congruence.
  - destruct Ht as [Hl Hcl]. assert (Hst : stopped w = true) by by apply Hca.
    assert (Hw1 : handler_ok (w <| io_tasks := l |>)).
    { split; simpl; try done; [by destruct l as [| [] ?] |].
      intros Hld. by destruct (Hnew Hld). }
    destruct (client_ (_core w)) eqn:Hcl1.
    + apply with_core_ok; [done | | done | intros c' Hrun; by apply Cancel_keeps].
      simpl. rewrite Hst in *. apply Cancel_ok. by left.
    + unfold with_core. simpl. unfold Cancel. rewrite (fresh_net _ _ Hc Hcl1). cbn [mbind chk_bind mret chk_ret].
      rewrite drop_all. destruct (_protocolProxy w) as [p |] eqn:Hpr; [by specialize (Hcl (ex_intro _ p eq_refl)) |].
      simpl. eexists. split; [reflexivity |]. destruct Hw1. split; try done; simpl in *; by rewrite ?Hpr in *.
Qed.

Lemma core_ok_true s c : core_ok s c -> core_ok true c.
Proof.
  intros [Ht Hl Hc]. split; try done. destruct (net_request_ c); [done |]. destruct Hc as [Hd Hc].
  split; [done |]. destruct (client_ c); [by right | done].
Qed.

(** [stopLoading], called by the system at any time; [p] is the proxy then. *)
Lemma stopLoading_ok w : handler_ok w -> loading w = true -> handler_ok (stopLoading w).
Proof.
  intros [Hc Hrq Hp Ht Hca Hnew] Hl. split; simpl; try done.
  - by eapply core_ok_true.
  - destruct (_protocolProxy w) as [p |]; simpl; [| done]. destruct Hp as (Hpok & _ & _ & Href).
    rewrite (passed_on_same p (invalidate p)) by done. split_and!; try done. by apply invalidate_ok.
  - destruct (io_tasks w) as [| [] l]; simpl in *.
    + destruct Ht as [_ Ht]. split; [done |]. by intros [? [p [Hp' _]]%fmap_Some]; apply Ht; rewrite Hp'.
    + destruct Ht as (Hcl & [p Hp'] & Hf). rewrite Hp'. simpl. split_and!; [done | by eexists |].
      by rewrite forallb_app, Hf.
    + destruct Ht as [Hf Ht]. rewrite forallb_app, Hf. split; [done |].
      by intros [? [p [Hp' _]]%fmap_Some]; apply Ht; rewrite Hp'.
  - by intros Hf; rewrite Hf in Hl.
Qed.

(** The proxy's part of an event. *)
Lemma with_proxy_ok f w :
  handler_ok w ->
  (forall p sent, _protocolProxy w = Some p -> proxy_ok sent p ->
     exists p', f p = Ok p' /\ proxy_ok sent p' /\ _url p' = _url p /\ _creationTime p' = _creationTime p) ->
  (forall p p', f p = Ok p' -> _protocol p = false -> _protocol p' = false) ->
  exists w', with_proxy f w = Ok w' /\ handler_ok w'.
Proof.
  intros Hw Hf Hmono. pose proof Hw as [Hc Hrq Hp Ht Hca Hnew]. unfold with_proxy.
  destruct (_protocolProxy w) as [p |] eqn:Hpr; [| by exists w].
  destruct Hp as (Hpok & Hprot & Hload & Href).
  destruct (Hf p _ eq_refl Hpok) as (p' & Hrun & Hpok' & Hu & Htime). rewrite Hrun. cbn [mbind chk_bind mret chk_ret].
  eexists. split; [reflexivity |]. rewrite <- (passed_on_same p p') in Hpok' by done.
  assert (Hw1 : _protocol p' = negb (stopped w) -> handler_ok (w <| _protocolProxy := Some p' |>)).
  { intros Hp'. split; simpl; try done. destruct (io_tasks w) as [| [] l].
    - destruct Ht as [Hn Ht]. split; [done |]. intros _. by apply Ht.
    - destruct Ht as (? & _ & ?). split_and!; try done; by eexists.
    - destruct Ht as [Hn Ht]. split; [done |]. intros _. by apply Ht. }
  destruct (protocol_cases p) as [Hp0 | Hp0]; rewrite Hp0; simpl.
  - apply Hw1. by rewrite (Hmono p p' Hrun Hp0), <- Hprot.
  - destruct (protocol_cases p') as [Hp1 | Hp1]; rewrite Hp1; simpl.
    + set (w1 := w <| _protocolProxy := Some p' |>).
      assert (Hst : handler_ok (stopLoading w)) by by apply stopLoading_ok.
      destruct Hst as [Hc2 Hrq2 _ Ht2 Hca2 Hnew2]. split; simpl; try done.
      * simpl. rewrite (passed_on_same p' (invalidate p')) by done. split_and!; try done. by apply invalidate_ok.
      * simpl in Ht2. rewrite Hpr in Ht2. simpl in Ht2. destruct (io_tasks w) as [| [] l]; simpl in *.
        -- destruct Ht2 as [Ha Hb]. split; [done |]. intros _. by apply Hb.
        -- destruct Ht2 as (Ha & _ & Hb). split_and!; try done; by eexists.
        -- destruct Ht2 as [Ha Hb]. split; [done |]. intros _. by apply Hb.
    + apply Hw1. by rewrite Hp1, <- Hprot.
Qed.

Lemma startLoading_ok now w :
  handler_ok w -> loading w = false -> exists w', startLoading now w = Ok w' /\ handler_ok w'.
Proof.
  intros [Hc Hrq Hp Ht Hca Hnew] Hl. destruct (Hnew Hl) as (Htasks & Hst & Href). unfold startLoading. simpl.
  destruct (_protocolProxy w) as [p |] eqn:Hpr.
  { destruct Hp as (_ & _ & Hl' & _). congruence. }
  destruct Hp as [Hcl _]. destruct (_supportedURL w); simpl; (eexists; split; [reflexivity |]).
  - rewrite Htasks. pose proof Hc as [_ _ Hcase]. rewrite (fresh_net _ _ Hc Hcl), Hcl in Hcase.
    destruct Hcase as [_ [Hs _ _ _ _ _ _]]. split; simpl; rewrite ?Hst; try done.
    + by rewrite <- Hst.
    + rewrite Hs, Hrq by (by right). simpl. split; [apply initWithProtocol_ok | done].
  - rewrite Htasks in *. split; simpl; rewrite ?Htasks, ?Hst, ?Hpr; try done. by rewrite <- Hst.
Qed.

(** A check of the proxy passes unless the load is complete. *)
Lemma not_called_after p :
  ~ (_requestComplete p = true /\ _protocol p = true) <-> not_called_after_completion p = true.
Proof.
  unfold not_called_after_completion. destruct (_requestComplete p), (_protocol p); simpl;
    intuition congruence.
Qed.

(** Every event that may come is handled, but for the two. *)
Lemma handler_event_ok e w :
  handler_ok w -> enabled e w = true -> ~ unmet e w -> exists w', handle e w = Ok w' /\ handler_ok w'.
Proof.
  intros Hw He Hmet. destruct (core_part e) as [f |] eqn:Hpart.
  - rewrite (handle_core_part e f w Hpart).
    destruct (core_part_ok (stopped w) e f w Hpart He Hmet (h_core w Hw)) as [Hstep Hcl].
    apply with_core_ok; try done. intros c'. by apply (core_part_keeps e f).
  - destruct e as [now | | | rs | r | lookup | | | | | | | | | |]; try discriminate; cbn [handle enabled] in *.
    + apply startLoading_ok; [done |]. by apply negb_true_iff.
    + apply andb_prop in He as [Hl _]. eexists. split; [reflexivity |]. by apply stopLoading_ok.
    + eexists. split; [reflexivity |]. destruct Hw as [Hc Hrq Hp Ht Hca Hnew]. split; simpl; try done.
      * destruct (_protocolProxy w) as [p |]; simpl; [| done]. destruct Hp as (Hpok & Hrest).
        split; [| exact Hrest]. rewrite (passed_on_same p (pause p)) by done. by apply pause_ok.
      * destruct (_protocolProxy w) as [p |]; simpl; [| done]. destruct (io_tasks w) as [| [] l].
        -- destruct Ht as [Ha Hb]. split; [done |]. intros _. apply Hb. by eexists.
        -- destruct Ht as (Ha & _ & Hb). split_and!; try done; by eexists.
        -- destruct Ht as [Ha Hb]. split; [done |]. intros _. apply Hb. by eexists.
    + destruct (_protocolProxy w) as [p |] eqn:Hpr.
      2: { unfold with_proxy. rewrite Hpr. by exists w. }
      apply with_proxy_ok; [done | | intros p1 p2; apply resume_stays_invalid].
      intros p1 sent Hp1 Hok. rewrite Hpr in Hp1. injection Hp1 as <-. apply resume_ok; [done |].
      apply not_called_after. intros Hcomplete. apply Hmet. by exists p.
    + apply with_proxy_ok; [done | | intros p1 p2; apply run_posted_stays_invalid].
      intros p1 sent _ Hok. by apply run_posted_ok.
    + by apply run_io_task_ok.
    + eexists. split; [reflexivity |]. destruct Hw as [Hc Hrq Hp Ht Hca Hnew]. split; simpl; try done.
      by apply core_ok_tracker.
Qed.

Lemma unmet_faults e w : handler_ok w -> enabled e w = true -> unmet e w -> handle e w = Fault.
Proof.
  intros Hw He. destruct e as [| | | rs | | | [| | [|] |] | | | | | | | | |]; try done; cbn [unmet enabled] in *.
  - intros (p & Hp & Hc & Hpr). cbn [handle]. unfold with_proxy. rewrite Hp.
    unfold resume, not_called_after_completion. by rewrite Hc, Hpr.
  - intros _. cbn [handle]. unfold with_core, HandleStreamEvent.
    destruct (h_core w Hw) as [_ <- _]. by rewrite He.
Qed.

Lemma handler_reachable_ok w : reachable request supported w -> handler_ok w.
Proof.
  induction 1 as [| e w w' _ IH He Hrun]; [apply handler_new |].
  assert (Hmet : ~ unmet e w) by (intros Hu%(unmet_faults e w IH He); congruence).
  destruct (handler_event_ok e w IH He Hmet) as (w1 & Hrun1 & Hok).
  rewrite Hrun in Hrun1. by injection Hrun1 as ->.
Qed.

(** *** Properties of every history *)

(** The events of a list, one after the other. *)
Fixpoint play (es : list event) w : option CRNHTTPProtocolHandler :=
  match es with
  | [] => Some w
  | e :: es => if enabled e w then match handle e w with Ok w => play es w | Fault => None end else None
  end.

Lemma play_history es w w' :
  reachable request supported w -> play es w = Some w' -> reachable request supported w'.
Proof.
  revert w. induction es as [| e es IH]; intros w Hw; simpl; [by intros [= <-] |].
  destruct (enabled e w) eqn:He; [| done]. destruct (handle e w) as [w1 |] eqn:Hrun; [| done].
  apply IH. by eapply reach_step.
Qed.

(** What the system's client was called with. *)
Definition client_heard w : list invocation :=
  match _protocolProxy w with Some p => received p | None => [] end.





(** C14. The request that goes to the network is the one of the system: it has its
    URL and its method, and its upload is its body or all that was read from the
    stream of its body. *)
Theorem request_carries_body w r (H_reach : reachable request supported w)
    (H_net : net_request_ (_core w) = Some r) (H_started : nr_phase r <> Unstarted) :
  nr_url r = URL request /\ nr_method r = HTTPMethod request /\
  concat (default [] (upload r)) = body_of request (_core w).
Proof.
  pose proof (handler_reachable_ok w H_reach) as [[_ _ Hc] Hrq _ _ _ _]. rewrite H_net in Hc.
  destruct (running_started _ _ Hc H_net H_started) as (r' & q & Hr' & Hq & Hu & Hm & _ & Hb).
  rewrite H_net in Hr'. injection Hr' as <-. rewrite (Hrq (or_introl (ex_intro _ r H_net))) in Hq.
  injection Hq as <-. done.
Qed.
End request.
End handler.

(** ** Example *)
Module ConcreteHandler.
#[local] Instance net : NetApi := {|
  headers_of_net := ConcreteHeaders.headers; is_valid := fun u => negb (String.eqb u "");
  ERR_IO_PENDING := -1; ERR_ABORTED := -3; ERR_UNEXPECTED := -9; ERR_BLOCKED_BY_CLIENT := -20;
  ERR_NETWORK_CHANGED := -21; ERR_CONNECTION_RESET := -101; ERR_SSL_PROTOCOL_ERROR := -107;
  ERR_INVALID_URL := -300; NSURLErrorUnknown := -1; NSURLErrorCancelled := -999;
  NSURLErrorBadURL := -1000; NSURLErrorCannotConnectToHost := -1004;
  NSURLErrorNetworkConnectionLost := -1005; NSURLErrorClientCertificateRequired := -1206;
  LOAD_NORMAL := 0; LOAD_VALIDATE_CACHE := 1; LOAD_BYPASS_CACHE := 2;
  LOAD_SKIP_CACHE_VALIDATION := 4; LOAD_ONLY_FROM_CACHE := 8; LOAD_DISABLE_CACHE := 16;
  LOAD_DO_NOT_SAVE_COOKIES := 32; LOAD_DO_NOT_SEND_COOKIES := 64;
  expectedContentLength := fun _ => 3 |}.

Definition post (stream : bool) : NSURLRequest :=
  {| URL := "http://a.org"; HTTPMethod := "POST"; HTTPBody := if stream then None else Some [x61; x62];
     HTTPBodyStream := stream; allHTTPHeaderFields := []; mainDocumentURL := "http://a.org";
     cachePolicy := UseProtocolCachePolicy; HTTPShouldHandleCookies := true |}.

Definition played (es : list event) (stream : bool) : CRNHTTPProtocolHandler :=
  default (initWithRequest (post stream) true) (play es (initWithRequest (post stream) true)).

Definition present {A} (o : option A) : bool := match o with Some _ => true | None => false end.

Lemma present_default {A} (d : A) (o : option A) : present o = true -> o = Some (default d o).
Proof. by destruct o. Qed.

Lemma played_reachable es stream :
  present (play es (initWithRequest (post stream) true)) = true ->
  reachable (post stream) true (played es stream).
Proof.
  unfold played. destruct (play es _) as [w |] eqn:Hw; [| done]. intros _. simpl.
  eapply play_history; [apply reach_init | exact Hw].
Qed.

Definition ok_answer : response_info := ConcreteHeaders.answer [].

(** A load with a certificate error, a pause and two reads. *)
Definition load : list event :=
  [EStartLoading 7; EIo (Some true); ECertificateError false false; ECertificateDecision true;
   EResponse true 0 ok_answer {| chunks := []; final := 0 |};
   EPolicyCaptured true {| chunks := [[x63]]; final := -1 |};
   EClient Pauses; ERead [x64; x65] {| chunks := []; final := 0 |};
   EClient Returns; EClient Returns; EResume [Pauses; Returns]; EClient Returns; EResume [Returns; Returns]].

Example load_ends :
  let w := played load false in
  data_of (client_heard w) = [[x63]; [x64; x65]] /\ last (client_heard w) = Some FinishedLoading /\
  in_order (client_heard w) = true.
Proof. vm_compute. done. Qed.

(** A resumption after the end. *)
Example late_resume_faults :
  handle (EResume []) (played load false) = Fault.
Proof. vm_compute. reflexivity. Qed.

(** A read of the stream that fails is taken for a very long one. *)
Example failed_read_faults :
  handle (EStream (HasBytesAvailable None)) (played [EStartLoading 7; EIo (Some false)] true) = Fault.
Proof. vm_compute. reflexivity. Qed.

(** The type of a body is to be added when it is missing, but the headers are
    copied before the body is set. *)
Example no_default_type :
  (fun r => (upload r, extra_request_headers (nr_headers r)))
    <$> net_request_ (_core (played [EStartLoading 7; EIo (Some false)] false)) =
  Some (Some [[x61; x62]], [("Accept", "*/*")]%string).
Proof. vm_compute. reflexivity. Qed.




(** A body that is read from a stream. *)
Definition upload_events : list event :=
  [EStartLoading 7; EIo (Some true); EStream OtherStreamEvent; EStream (HasBytesAvailable (Some [x61]));
   EStream (HasBytesAvailable (Some [])); EStream (HasBytesAvailable (Some [x62; x63]));
   EStream EndEncountered].

Definition nothing_asked : URLRequest :=
  {| nr_url := ""; nr_method := ""; first_party_for_cookies := "";
     nr_headers := CopyHttpHeaders [] false ""; load_flags := 0; upload := None;
     nr_response := None; auth_answers := []; nr_phase := Unstarted |}.

Definition uploading : URLRequest :=
  default nothing_asked (net_request_ (_core (played upload_events true))).

Lemma request_carries_body_witness :
  nr_url uploading = URL (post true) /\ nr_method uploading = HTTPMethod (post true) /\
  concat (default [] (upload uploading)) = body_of (post true) (_core (played upload_events true)).
Proof.
  refine (request_carries_body ConcreteHeaders.headers_laws (post true) true _ uploading
    (played_reachable _ _ _) _ _).
  - vm_cast_no_check (@eq_refl bool true).
  - apply present_default. vm_cast_no_check (@eq_refl bool true).
  - vm_compute. discriminate.
Defined.
End ConcreteHandler.
