(* ===== verification/URLDataSource.v ===== *)
(** * Sources of the pages of the browser itself

    [web/public/url_data_source_ios.h]: who serves the data of a chrome:
    URL, as an interface.  It is implemented by
    [web/webui/web_ui_ios_data_source_impl.mm], a table of resources with a
    dictionary of localized strings, and by
    [web/webui/shared_resources_data_source_ios.mm], the resources that all
    pages share. *)
From S2P Require Import Prelude External Values.
From Stdlib Require Import Init.Byte.
#[local] Open Scope Z_scope.

(** [base::RefCountedMemory]. *)
Abbreviation bytes := (list byte).

(** What [StartDataRequest] does with its callback: it is run at once, with
    data or null, or kept to be run later. *)
Inductive callback_use :=
| RunNow (data : option bytes)
| RunLater.

(** ** [URLDataSourceIOS]

    [S] is the state of a source; only [StartDataRequest] changes it. *)
Class URLDataSourceIOS `{GurlApi} (S : Type) := {
  GetSource : S -> string;
  GetMimeType : string -> S -> string;
  StartDataRequest : string -> S -> chk (S * callback_use);
  ShouldReplaceExistingSource : S -> bool;
  AllowCaching : S -> bool;
  GetContentSecurityPolicyObjectSrc : S -> string;
  ShouldDenyXFrameOptions : S -> bool;
  ShouldServiceRequest : GURL -> S -> bool;
}.

(** What the client of a source relies on: the size of its data is an [int]. *)
Class SmallAnswers S `{URLDataSourceIOS S} : Prop := {
  small_answers path (s s' : S) data :
    StartDataRequest path s = Ok (s', RunNow (Some data)) -> Z.of_nat (length data) <= INT_MAX;
}.

(** Sources of two classes. *)
#[export] Instance either_source {A B} `{GurlApi} `{!URLDataSourceIOS A} `{!URLDataSourceIOS B} :
    URLDataSourceIOS (A + B) := {|
  GetSource s := match s with inl a => GetSource a | inr b => GetSource b end;
  GetMimeType path s := match s with inl a => GetMimeType path a | inr b => GetMimeType path b end;
  StartDataRequest path s :=
    match s with
    | inl a => '(a, use) ← StartDataRequest path a; mret (inl a, use)
    | inr b => '(b, use) ← StartDataRequest path b; mret (inr b, use)
    end;
  ShouldReplaceExistingSource s :=
    match s with
    | inl a => ShouldReplaceExistingSource a
    | inr b => ShouldReplaceExistingSource b
    end;
  AllowCaching s := match s with inl a => AllowCaching a | inr b => AllowCaching b end;
  GetContentSecurityPolicyObjectSrc s :=
    match s with
    | inl a => GetContentSecurityPolicyObjectSrc a
    | inr b => GetContentSecurityPolicyObjectSrc b
    end;
  ShouldDenyXFrameOptions s :=
    match s with inl a => ShouldDenyXFrameOptions a | inr b => ShouldDenyXFrameOptions b end;
  ShouldServiceRequest url s :=
    match s with inl a => ShouldServiceRequest url a | inr b => ShouldServiceRequest url b end;
|}.

#[export] Instance either_small {A B} `{GurlApi} `{!URLDataSourceIOS A} `{!URLDataSourceIOS B}
    `{!SmallAnswers A} `{!SmallAnswers B} : SmallAnswers (A + B).
Proof.
  constructor. intros path [a | b] s' data Hrun; simpl in Hrun.
  - apply bind_Ok_inv in Hrun as ([a' use] & Hrun & Heq). injection Heq as <- ->.
    exact (small_answers _ _ _ _ Hrun).
  - apply bind_Ok_inv in Hrun as ([b' use] & Hrun & Heq). injection Heq as <- ->.
    exact (small_answers _ _ _ _ Hrun).
Qed.

(** The methods with a default. *)
Section defaults.
Context `{WebClientApi}.

Definition ShouldReplaceExistingSource_default : bool := true.
Definition AllowCaching_default : bool := true.
Definition GetContentSecurityPolicyObjectSrc_default : string := "object-src 'none';".
Definition ShouldDenyXFrameOptions_default : bool := true.
Definition ShouldServiceRequest_default (url : GURL) : bool := IsAppSpecificURL url.
End defaults.

(** ** Code outside the repository *)
Class WebUiResources `{ValuesApi} := {
(** [GetWebClient()->GetLocalizedString], [GetDataResourceBytes],
    [GetApplicationLocale] *)
GetLocalizedString : Z -> string;
GetDataResourceBytes : Z -> option bytes;
GetApplicationLocale : string;
(** [webui::SetLoadTimeDataDefaults], [webui::AppendJsonJS] on an empty
    string, [webui::GetWebUiCssTextDefaults] *)
SetLoadTimeDataDefaults : string -> DictionaryValue -> DictionaryValue;
JsonJS : DictionaryValue -> string;
GetWebUiCssTextDefaults : string;
(** The generated table [kWebuiResources], and one of its numbers. *)
kWebuiResources : list (string * Z);
IDR_WEBUI_CSS_TEXT_DEFAULTS : Z;
(** [base::EndsWith(s, suffix, INSENSITIVE_ASCII)] *)
EndsWith : string -> string -> bool;
(** What [net::GetMimeTypeFromFile] leaves in an empty string. *)
MimeTypeOfFile : string -> string;
}.

(** [base::RefCountedString::TakeString] *)
Definition TakeString (s : string) : bytes := String.list_byte_of_string s.

(** ** [WebUIIOSDataSourceImpl] *)
Section webui.
Context `{WebClientApi} `{ValuesApi} {resources : WebUiResources}.

Record WebUIIOSDataSourceImpl := {
  source_name_ : string;
  default_resource_ : Z;
  json_path_ : string;
  path_to_idr_map_ : gmap string Z;
  localized_strings_ : DictionaryValue;
  deny_xframe_options_ : bool;
  replace_existing_source_ : bool;
}.

#[export] Instance webui_fields : Fields WebUIIOSDataSourceImpl := fun s =>
  {| source_name_ := source_name_ s; default_resource_ := default_resource_ s;
     json_path_ := json_path_ s; path_to_idr_map_ := path_to_idr_map_ s;
     localized_strings_ := localized_strings_ s; deny_xframe_options_ := deny_xframe_options_ s;
     replace_existing_source_ := replace_existing_source_ s |}.

Implicit Types (s : WebUIIOSDataSourceImpl) (name path : string).

Definition WebUIIOSDataSourceImpl_new name : WebUIIOSDataSourceImpl :=
  {| source_name_ := name; default_resource_ := -1; json_path_ := ""; path_to_idr_map_ := ∅;
     localized_strings_ := empty_dictionary; deny_xframe_options_ := true;
     replace_existing_source_ := true |}.

Definition AddString name (value : string) s :=
  s <| localized_strings_ := SetString name value (localized_strings_ s) |>.

Definition AddLocalizedString name (ids : Z) s :=
  s <| localized_strings_ := SetString name (GetLocalizedString ids) (localized_strings_ s) |>.

Definition AddBoolean name (value : bool) s :=
  s <| localized_strings_ := SetBoolean name value (localized_strings_ s) |>.

Definition SetJsonPath path s := s <| json_path_ := path |>.

Definition AddResourcePath path (resource_id : Z) s :=
  s <| path_to_idr_map_ := <[path := resource_id]> (path_to_idr_map_ s) |>.

Definition SetDefaultResource (resource_id : Z) s := s <| default_resource_ := resource_id |>.

Definition DisableDenyXFrameOptions s := s <| deny_xframe_options_ := false |>.

Definition WebUI_GetMimeType path : string :=
  if EndsWith path ".js" then "application/javascript"
  else if EndsWith path ".json" then "application/json"
  else if EndsWith path ".pdf" then "application/pdf"
  else if EndsWith path ".css" then "text/css"
  else if EndsWith path ".svg" then "image/svg+xml"
  else "text/html".

Definition SendLocalizedStringsAsJSON s : WebUIIOSDataSourceImpl * callback_use :=
  let strings := SetLoadTimeDataDefaults GetApplicationLocale (localized_strings_ s) in
  (s <| localized_strings_ := strings |>, RunNow (Some (TakeString (JsonJS strings)))).

Definition SendFromResourceBundle (idr : Z) : callback_use := RunNow (GetDataResourceBytes idr).

Definition WebUI_StartDataRequest path s : chk (WebUIIOSDataSourceImpl * callback_use) :=
  if negb (String.eqb (json_path_ s) "") && String.eqb path (json_path_ s) then
    mret (SendLocalizedStringsAsJSON s)
  else
    let resource_id := default (default_resource_ s) (path_to_idr_map_ s !! path) in
    _ ← dcheck (negb (resource_id =? -1));
    mret (s, SendFromResourceBundle resource_id).

#[export] Instance InternalDataSource : URLDataSourceIOS WebUIIOSDataSourceImpl := {|
  GetSource := source_name_;
  GetMimeType path _ := WebUI_GetMimeType path;
  StartDataRequest := WebUI_StartDataRequest;
  ShouldReplaceExistingSource := replace_existing_source_;
  AllowCaching _ := false;
  GetContentSecurityPolicyObjectSrc _ := GetContentSecurityPolicyObjectSrc_default;
  ShouldDenyXFrameOptions := deny_xframe_options_;
  ShouldServiceRequest url _ := ShouldServiceRequest_default url;
|}.

(** The resources the model is given have sizes that are an [int]. *)
Class SmallResources : Prop := {
  small_resource idr data :
    GetDataResourceBytes idr = Some data -> Z.of_nat (length data) <= INT_MAX;
  small_strings d : Z.of_nat (length (TakeString (JsonJS d))) <= INT_MAX;
  small_css : Z.of_nat (length (TakeString GetWebUiCssTextDefaults)) <= INT_MAX;
}.

#[export] Instance webui_small `{!SmallResources} : SmallAnswers WebUIIOSDataSourceImpl.
Proof.
  constructor. intros path s s' data Hrun. simpl in Hrun. unfold WebUI_StartDataRequest in Hrun.
  destruct (_ && _).
  - injection Hrun as <- <-. apply small_strings.
  - run_inv Hrun. by eapply small_resource.
Qed.

(** ** [SharedResourcesDataSourceIOS] *)
Inductive SharedResourcesDataSourceIOS := SharedResources.

Definition kWebUIResourcesHost : string := "resources".

Definition PathToIDR path : Z :=
  match find_index (fun r => String.eqb path r.1) kWebuiResources with
  | None => -1
  | Some i => default (-1) (snd <$> kWebuiResources !! i)
  end.

Definition Shared_StartDataRequest path : chk callback_use :=
  let idr := PathToIDR path in
  _ ← dcheck (negb (idr =? -1));
  if idr =? IDR_WEBUI_CSS_TEXT_DEFAULTS then mret (RunNow (Some (TakeString GetWebUiCssTextDefaults)))
  else mret (RunNow (GetDataResourceBytes idr)).

#[export] Instance SharedDataSource : URLDataSourceIOS SharedResourcesDataSourceIOS := {|
  GetSource _ := kWebUIResourcesHost;
  GetMimeType path _ := MimeTypeOfFile path;
  StartDataRequest path shared := use ← Shared_StartDataRequest path; mret (shared, use);
  ShouldReplaceExistingSource _ := ShouldReplaceExistingSource_default;
  AllowCaching _ := AllowCaching_default;
  GetContentSecurityPolicyObjectSrc _ := GetContentSecurityPolicyObjectSrc_default;
  ShouldDenyXFrameOptions _ := ShouldDenyXFrameOptions_default;
  ShouldServiceRequest url _ := ShouldServiceRequest_default url;
|}.

#[export] Instance shared_small `{!SmallResources} : SmallAnswers SharedResourcesDataSourceIOS.
Proof.
  constructor. intros path s s' data Hrun. simpl in Hrun. unfold Shared_StartDataRequest in Hrun.
  run_all Hrun; [apply small_css | by eapply small_resource].
Qed.

(** ** Facts *)
Lemma PathToIDR_first path idr :
  PathToIDR path = idr -> idr <> -1 ->
  exists before after, kWebuiResources = before ++ (path, idr) :: after /\ path ∉ before.*1.
Proof.
  unfold PathToIDR. destruct (find_index _ _) as [i |] eqn:Hi; [| congruence].
  apply find_index_Some in Hi as [([name id] & Hlook & Heq) Hmin]. rewrite Hlook. simpl in *.
  intros <- _. apply String.eqb_eq in Heq as ->.
  exists (take i kWebuiResources), (drop (S i) kWebuiResources). split.
  - by rewrite take_drop_middle.
  - intros ([name' id'] & -> & Hin)%list_elem_of_fmap.
    apply list_elem_of_lookup in Hin as (k & Hk). apply lookup_take_Some in Hk as [Hk Hlt].
    specialize (Hmin k _ Hlt Hk). simpl in Hmin. by rewrite String.eqb_refl in Hmin.
Qed.

(** A source built by its setters answers each path with the resource last
    added for it, the strings at the JSON path. *)
Lemma WebUI_answers path s :
  (path <> json_path_ s \/ json_path_ s = "") ->
  forall idr, idr <> -1 ->
  (path_to_idr_map_ s !! path = Some idr \/
   path_to_idr_map_ s !! path = None /\ default_resource_ s = idr) ->
  WebUI_StartDataRequest path s = Ok (s, RunNow (GetDataResourceBytes idr)).
Proof.
  intros Hjson idr Hidr Hfound. unfold WebUI_StartDataRequest.
  assert (Htest : negb (String.eqb (json_path_ s) "") && String.eqb path (json_path_ s) = false).
  { destruct (String.eqb_spec path (json_path_ s)) as [Heq |]; [| apply andb_false_r].
    destruct Hjson as [? | ->]; [congruence | done]. }
  assert (Hid : default (default_resource_ s) (path_to_idr_map_ s !! path) = idr)
    by (destruct Hfound as [-> | [-> <-]]; done).
  rewrite Htest, Hid. by destruct (Z.eqb_spec idr (-1)).
Qed.
End webui.
