(* ===== verification/URLDataManagerIOS.v ===== *)
(** * The data of the pages of the browser itself

    [web/webui/url_data_manager_ios_backend.mm], [url_data_manager_ios.cc] and
    [url_data_source_ios_impl.cc]: a request for a chrome: URL is a job on the
    IO thread, which asks a source on the UI thread, which answers when it
    can.

    A world has the objects of both threads: the wrappers of the sources with
    their reference counts, the jobs, the backend of the one browser state and
    the tasks posted to each thread.  A task runs to its end before another
    one of its thread; the threads share the list of sources to delete, which
    is only used under its lock.  What the network stack is told by a job is a
    log in the job; the logs of the world are for the statements only. *)
From S2P Require Import Prelude External Values URLDataSource.
From Stdlib Require Import Init.Byte.
#[local] Open Scope Z_scope.

(** ** Parts of a URL, and the embedder *)
Class WebUiUrls `{GurlApi} := {
  host : GURL -> string;
  scheme : GURL -> string;
  possibly_invalid_spec : GURL -> string;
(** [parsed_for_possibly_invalid_spec().CountCharactersBefore(PATH, false)] *)
CharactersBeforePath : GURL -> Z;
AdditionalWebUISchemes : list string;
}.

(** ** [URLRequestChromeJob] *)
Inductive read_result :=
| ERR_IO_PENDING
| ERR_FAILED
| Copied (count : Z) (data : bytes).

(** What the job tells [net::URLRequestJob], and what a read returns. *)
Inductive note :=
| NotifyStartError
| NotifyHeadersComplete
| ReadReturns (rv : read_result)
| ReadRawDataComplete (rv : read_result).

Section job.
Context `{GurlApi}.

Record URLRequestChromeJob := {
  url : GURL;
  is_incognito_ : bool;
  job_backend_ : bool;
  weak_factory_ : bool;
  data_ : option bytes;
  data_offset_ : Z;
  pending_buf_ : option Z;
  mime_type_ : string;
  allow_caching_ : bool;
  add_content_security_policy_ : bool;
  content_security_policy_object_source_ : string;
  content_security_policy_frame_source_ : string;
  job_deny_xframe_options_ : bool;
  send_content_type_header_ : bool;
  notes : list note;
}.

#[export] Instance job_fields : Fields URLRequestChromeJob := fun j =>
  {| url := url j; is_incognito_ := is_incognito_ j; job_backend_ := job_backend_ j;
     weak_factory_ := weak_factory_ j; data_ := data_ j; data_offset_ := data_offset_ j;
     pending_buf_ := pending_buf_ j; mime_type_ := mime_type_ j;
     allow_caching_ := allow_caching_ j;
     add_content_security_policy_ := add_content_security_policy_ j;
     content_security_policy_object_source_ := content_security_policy_object_source_ j;
     content_security_policy_frame_source_ := content_security_policy_frame_source_ j;
     job_deny_xframe_options_ := job_deny_xframe_options_ j;
     send_content_type_header_ := send_content_type_header_ j; notes := notes j |}.

Implicit Types (j : URLRequestChromeJob) (buf_size : Z).

(** [MaybeCreateJob] *)
Definition URLRequestChromeJob_new (request_url : GURL) (is_incognito : bool) : URLRequestChromeJob :=
  {| url := request_url; is_incognito_ := is_incognito; job_backend_ := false;
     weak_factory_ := true; data_ := None; data_offset_ := 0; pending_buf_ := None;
     mime_type_ := ""; allow_caching_ := true; add_content_security_policy_ := true;
     content_security_policy_object_source_ := "object-src 'none';";
     content_security_policy_frame_source_ := "frame-src 'none';";
     job_deny_xframe_options_ := true; send_content_type_header_ := false; notes := [] |}.

Definition notify (n : note) j : URLRequestChromeJob := j <| notes := notes j ++ [n] |>.

(** It returns true when the type is not empty. *)
Definition Job_GetMimeType j : string * bool := (mime_type_ j, negb (String.eqb (mime_type_ j) "")).

Definition kChromeURLContentSecurityPolicyHeaderBase : string :=
  "Content-Security-Policy: script-src chrome://resources 'self' 'unsafe-eval'; ".

Definition kChromeURLXFrameOptionsHeader : string := "X-Frame-Options: DENY".

(** The status line and the header lines of the answer; [headers] tells
    whether the response has some before. *)
Definition GetResponseInfo (headers : bool) j : chk (list string) :=
  _ ← dcheck (negb headers);
  let lines := ["HTTP/1.1 200 OK"] in
  let lines :=
    if add_content_security_policy_ j then
      lines ++ [kChromeURLContentSecurityPolicyHeaderBase +:+
                content_security_policy_object_source_ j +:+
                content_security_policy_frame_source_ j]
    else lines in
  let lines :=
    if job_deny_xframe_options_ j then lines ++ [kChromeURLXFrameOptionsHeader] else lines in
  let lines := if negb (allow_caching_ j) then lines ++ ["Cache-Control: no-cache"] else lines in
  let lines :=
    if send_content_type_header_ j && negb (String.eqb (mime_type_ j) "") then
      lines ++ ["Content-Type:" +:+ mime_type_ j]
    else lines in
  mret lines.

Definition Job_MimeTypeAvailable (mime_type : string) j : URLRequestChromeJob :=
  notify NotifyHeadersComplete (j <| mime_type_ := mime_type |>).

Definition CompleteRead buf_size j : chk (URLRequestChromeJob * read_result) :=
  data ← deref (data_ j);
  let remaining := wrap32 (Z.of_nat (length data) - data_offset_ j) in
  let buf_size := if remaining <? buf_size then remaining else buf_size in
  if 0 <? buf_size then
    mret (j <| data_offset_ := data_offset_ j + buf_size |>,
          Copied buf_size (take (Z.to_nat buf_size) (drop (Z.to_nat (data_offset_ j)) data)))
  else mret (j, Copied buf_size []).

Definition ReadRawData buf_size j : chk (URLRequestChromeJob * read_result) :=
  match data_ j with
  | None =>
      _ ← dcheck (match pending_buf_ j with None => true | Some _ => false end);
      mret (j <| pending_buf_ := Some buf_size |>, ERR_IO_PENDING)
  | Some _ => CompleteRead buf_size j
  end.

Definition Job_DataAvailable (data : option bytes) j : chk URLRequestChromeJob :=
  match data with
  | Some data =>
      let j := j <| data_ := Some data |> in
      match pending_buf_ j with
      | Some buf_size =>
          '(j, rv) ← CompleteRead buf_size j;
          mret (notify (ReadRawDataComplete rv) (j <| pending_buf_ := None |>))
      | None => mret j
      end
  | None => mret (notify (ReadRawDataComplete ERR_FAILED) j)
  end.
End job.

(** ** The world *)
Inductive thread := UI | IO.

Inductive ui_task :=
| GetMimeTypeOnUI (source : nat) (path : string) (job : nat)
| CallStartRequest (source : nat) (path : string) (request_id : Z)
| DeleteDataSourcesTask.

Inductive io_task :=
| MimeTypeAvailable (job : nat) (mime_type : string)
| SendResponseOnIOThread (source : nat) (request_id : Z) (data : option bytes)
| AddDataSourceOnIOThread (source : nat).

Section manager.
Context `{WebClientApi} {urls : WebUiUrls} {T : Type} `{!URLDataSourceIOS T}.

(** Only the IO thread uses [backend_]: it is the backend or null. *)
Record URLDataSourceIOSImpl := {
  source_name_ : string;
  backend_ : bool;
  source_ : T;
  ref_count : nat;
}.

#[export] Instance impl_fields : Fields URLDataSourceIOSImpl := fun i =>
  {| source_name_ := source_name_ i; backend_ := backend_ i; source_ := source_ i;
     ref_count := ref_count i |}.

(** [to_delete] is the static [data_sources_] of the manager.  A callback is
    the source and the number of the request it belongs to. *)
Record World := {
  impls : gmap nat URLDataSourceIOSImpl;
  next_impl : nat;
  to_delete : list nat;
  data_sources_ : gmap string nat;
  pending_requests_ : gmap Z nat;
  next_request_id_ : Z;
  backend_alive : bool;
  jobs : gmap nat URLRequestChromeJob;
  next_job : nat;
  ui : list ui_task;
  io : list io_task;
  callbacks : list (nat * Z);
  started : list (Z * nat * nat);
  answered : list (Z * option bytes);
  dropped : list Z;
}.

#[export] Instance world_fields : Fields World := fun w =>
  {| impls := impls w; next_impl := next_impl w; to_delete := to_delete w;
     data_sources_ := data_sources_ w; pending_requests_ := pending_requests_ w;
     next_request_id_ := next_request_id_ w; backend_alive := backend_alive w;
     jobs := jobs w; next_job := next_job w; ui := ui w; io := io w; callbacks := callbacks w;
     started := started w; answered := answered w; dropped := dropped w |}.

Implicit Types (w : World) (i : URLDataSourceIOSImpl) (s job : nat) (id : Z) (t : thread)
  (j : URLRequestChromeJob).

Definition with_impl s (f : URLDataSourceIOSImpl -> URLDataSourceIOSImpl) w : chk World :=
  i ← deref (impls w !! s);
  mret (w <| impls := <[s := f i]> (impls w) |>).

Definition with_job job (f : URLRequestChromeJob -> URLRequestChromeJob) w : chk World :=
  j ← deref (jobs w !! job);
  mret (w <| jobs := <[job := f j]> (jobs w) |>).

Definition post_ui (task : ui_task) w : World := w <| ui := ui w ++ [task] |>.
Definition post_io (task : io_task) w : World := w <| io := io w ++ [task] |>.

(** *** Reference counts and deletion *)
Definition AddRef s w : chk World := with_impl s (fun i => i <| ref_count := S (ref_count i) |>) w.

(** [delete data_source] *)
Definition delete_impl s w : chk World :=
  _ ← deref (impls w !! s);
  mret (w <| impls := delete s (impls w) |>).

Fixpoint delete_impls (sources : list nat) w : chk World :=
  match sources with
  | [] => mret w
  | s :: sources => w ← delete_impl s w; delete_impls sources w
  end.

Definition DeleteDataSources w : chk World :=
  delete_impls (to_delete w) (w <| to_delete := [] |>).

Definition DeleteDataSource t s w : chk World :=
  match t with
  | UI => delete_impl s w
  | IO =>
      let schedule_delete := bool_decide (to_delete w = []) in
      let w := w <| to_delete := to_delete w ++ [s] |> in
      mret (if schedule_delete then post_ui DeleteDataSourcesTask w else w)
  end.

Definition IsScheduledForDeletion s w : bool := bool_decide (s ∈ to_delete w).

(** The count reaches zero once: a release without a reference is a [Fault]. *)
Definition Release t s w : chk World :=
  i ← deref (impls w !! s);
  match ref_count i with
  | O => Fault
  | S n =>
      let w := w <| impls := <[s := i <| ref_count := n |>]> (impls w) |> in
      if (n =? 0)%nat then DeleteDataSource t s w else mret w
  end.

(** *** [URLDataSourceIOSImpl] *)
Definition SendResponse s id (data : option bytes) w : chk World :=
  if IsScheduledForDeletion s w then mret w
  else
    w ← AddRef s w;
    mret (post_io (SendResponseOnIOThread s id data)
            (w <| answered := answered w ++ [(id, data)] |>)).

(** *** [URLDataManagerIOSBackend] *)
Definition AddDataSource s w : chk World :=
  i ← deref (impls w !! s);
  let name := source_name_ i in
  match data_sources_ w !! name with
  | Some old =>
      if negb (ShouldReplaceExistingSource (source_ i)) then mret w
      else
        w ← with_impl old (fun i => i <| backend_ := false |>) w;
        w ← AddRef s w;
        w ← Release IO old (w <| data_sources_ := <[name := s]> (data_sources_ w) |>);
        with_impl s (fun i => i <| backend_ := true |>) w
  | None =>
      w ← AddRef s w;
      with_impl s (fun i => i <| backend_ := true |>)
        (w <| data_sources_ := <[name := s]> (data_sources_ w) |>)
  end.

Definition HasPendingJob job w : bool :=
  existsb (fun e => (e.2 =? job)%nat) (map_to_list (pending_requests_ w)).

(** The requests of a job; the loop over the map finds the least one first. *)
Definition requests_of job w : list Z :=
  fst <$> filter (fun e => e.2 = job) (map_to_list (pending_requests_ w)).

Definition RemoveRequest job w : World :=
  match requests_of job w with
  | [] => w
  | id :: ids => w <| pending_requests_ := delete (foldr Z.min id ids) (pending_requests_ w) |>
  end.

Definition GetDataSourceFromURL (u : GURL) w : option nat :=
  match data_sources_ w !! host u with
  | Some s => Some s
  | None => data_sources_ w !! (scheme u +:+ "://")
  end.

Definition SchemeIsInSchemes (scheme : string) (schemes : list string) : bool :=
  bool_decide (scheme ∈ schemes).

Definition CheckURLIsValid (u : GURL) : chk bool :=
  _ ← dcheck (IsAppSpecificURL u || SchemeIsInSchemes (scheme u) AdditionalWebUISchemes);
  if negb (is_valid u) then _ ← dcheck false; mret false else mret true.

Definition URLToRequestPath (u : GURL) : string :=
  let spec := possibly_invalid_spec u in
  let offset := CharactersBeforePath u + 1 in
  if offset <? Z.of_nat (String.length spec) then
    String.substring (Z.to_nat offset) (String.length spec - Z.to_nat offset) spec
  else "".

Definition configure (source : T) j : URLRequestChromeJob :=
  j <| allow_caching_ := AllowCaching source |>
    <| add_content_security_policy_ := true |>
    <| content_security_policy_object_source_ := GetContentSecurityPolicyObjectSrc source |>
    <| content_security_policy_frame_source_ := "frame-src 'none';" |>
    <| job_deny_xframe_options_ := ShouldDenyXFrameOptions source |>
    <| send_content_type_header_ := false |>.

(** [pending_requests_.insert] keeps an entry that is there. *)
Definition save_request job s w : World * Z :=
  let id := next_request_id_ w in
  let pending :=
    match pending_requests_ w !! id with
    | Some _ => pending_requests_ w
    | None => <[id := job]> (pending_requests_ w)
    end in
  (w <| next_request_id_ := wrap32 (id + 1) |> <| pending_requests_ := pending |>
     <| started := started w ++ [(id, job, s)] |>, id).

Definition StartRequest job w : chk (World * bool) :=
  j ← deref (jobs w !! job);
  valid ← CheckURLIsValid (url j);
  if negb valid then mret (w, false)
  else
    match GetDataSourceFromURL (url j) w with
    | None => mret (w, false)
    | Some s =>
        i ← deref (impls w !! s);
        if negb (ShouldServiceRequest (url j) (source_ i)) then mret (w, false)
        else
          let path := URLToRequestPath (url j) in
          let '(w, id) := save_request job s w in
          w ← with_job job (configure (source_ i)) w;
          w ← AddRef s w;
          w ← AddRef s (post_ui (GetMimeTypeOnUI s path job) w);
          mret (post_ui (CallStartRequest s path id) w, true)
    end.

Definition DataAvailable id (data : option bytes) w : chk World :=
  match pending_requests_ w !! id with
  | None => mret w
  | Some job =>
      let w := w <| pending_requests_ := delete id (pending_requests_ w) |> in
      j ← deref (jobs w !! job);
      j ← Job_DataAvailable data j;
      mret (w <| jobs := <[job := j]> (jobs w) |>)
  end.

(** *** The methods of a job that use the backend *)
Definition Start (has_request : bool) job w : chk World :=
  if negb has_request then mret w
  else
    w ← with_job job (fun j => j <| job_backend_ := true |>) w;
    '(w, ok) ← StartRequest job w;
    if ok : bool then mret w else with_job job (notify NotifyStartError) w.

Definition Kill job w : chk World :=
  w ← with_job job (fun j => j <| weak_factory_ := false |>) w;
  j ← deref (jobs w !! job);
  mret (if job_backend_ j then RemoveRequest job w else w).

(** The destructor. *)
Definition destroy_job job w : chk World :=
  j ← deref (jobs w !! job);
  _ ← dcheck (negb (job_backend_ j) || negb (HasPendingJob job w));
  mret (w <| jobs := delete job (jobs w) |>).

Definition read_job buf_size job w : chk World :=
  j ← deref (jobs w !! job);
  '(j, rv) ← ReadRawData buf_size j;
  mret (w <| jobs := <[job := notify (ReadReturns rv) j]> (jobs w) |>).

(** *** Tasks

    A task holds a reference to its source until it has run. *)
Definition run_GetMimeTypeOnUI s path job w : chk World :=
  i ← deref (impls w !! s);
  Release UI s (post_io (MimeTypeAvailable job (GetMimeType path (source_ i))) w).

Definition run_CallStartRequest s path id w : chk World :=
  w ← AddRef s w;
  i ← deref (impls w !! s);
  '(source, use) ← StartDataRequest path (source_ i);
  w ← with_impl s (fun i => i <| source_ := source |>) w;
  w ← match use with
      | RunNow data => w ← SendResponse s id data w; Release UI s w
      | RunLater => mret (w <| callbacks := callbacks w ++ [(s, id)] |>)
      end;
  Release UI s w.

Definition run_ui_task (task : ui_task) w : chk World :=
  match task with
  | GetMimeTypeOnUI s path job => run_GetMimeTypeOnUI s path job w
  | CallStartRequest s path id => run_CallStartRequest s path id w
  | DeleteDataSourcesTask => DeleteDataSources w
  end.

(** The job of [MimeTypeAvailable] is a weak pointer. *)
Definition run_MimeTypeAvailable job (mime_type : string) w : World :=
  match jobs w !! job with
  | Some j =>
      if weak_factory_ j then w <| jobs := <[job := Job_MimeTypeAvailable mime_type j]> (jobs w) |>
      else w
  | None => w
  end.

Definition run_io_task (task : io_task) w : chk World :=
  match task with
  | MimeTypeAvailable job mime_type => mret (run_MimeTypeAvailable job mime_type w)
  | SendResponseOnIOThread s id data =>
      i ← deref (impls w !! s);
      w ← if backend_ i then DataAvailable id data w else mret w;
      Release IO s w
  | AddDataSourceOnIOThread s =>
      _ ← dcheck (backend_alive w);
      w ← AddDataSource s w;
      Release IO s w
  end.

Definition run_ui w : chk World :=
  match ui w with [] => mret w | task :: tasks => run_ui_task task (w <| ui := tasks |>) end.

Definition run_io w : chk World :=
  match io w with [] => mret w | task :: tasks => run_io_task task (w <| io := tasks |>) end.

(** *** Calls from outside *)
Definition new_impl (source : T) w : World * nat :=
  (w <| impls := <[next_impl w :=
          {| source_name_ := GetSource source; backend_ := false; source_ := source;
             ref_count := 0 |}]> (impls w) |>
     <| next_impl := S (next_impl w) |>, next_impl w).

(** [URLDataManagerIOS::AddDataSource(browser_state, source)] *)
Definition Manager_AddDataSource (source : T) w : chk World :=
  let '(w, s) := new_impl source w in
  w ← AddRef s w;
  mret (post_io (AddDataSourceOnIOThread s) w).

Definition run_callback (k : nat) (data : option bytes) w : chk World :=
  match callbacks w !! k with
  | None => mret w
  | Some (s, id) => SendResponse s id data w
  end.

(** The source destroys a callback, on any thread. *)
Definition drop_callback t (k : nat) w : chk World :=
  match callbacks w !! k with
  | None => mret w
  | Some (s, id) =>
      Release t s (w <| callbacks := delete k (callbacks w) |> <| dropped := dropped w ++ [id] |>)
  end.

(** [~URLDataManagerIOSBackend] *)
Fixpoint detach_all (sources : list nat) w : chk World :=
  match sources with
  | [] => mret w
  | s :: sources => w ← with_impl s (fun i => i <| backend_ := false |>) w; detach_all sources w
  end.

Fixpoint release_all (sources : list nat) w : chk World :=
  match sources with
  | [] => mret w
  | s :: sources => w ← Release IO s w; release_all sources w
  end.

Definition destroy_backend w : chk World :=
  let sources := snd <$> map_to_list (data_sources_ w) in
  w ← detach_all sources w;
  release_all sources (w <| data_sources_ := ∅ |> <| backend_alive := false |>).

Definition empty_world : World :=
  {| impls := ∅; next_impl := 0; to_delete := []; data_sources_ := ∅; pending_requests_ := ∅;
     next_request_id_ := 0; backend_alive := true; jobs := ∅; next_job := 0; ui := []; io := [];
     callbacks := []; started := []; answered := []; dropped := [] |}.

(** [URLDataManagerIOSBackend()] adds the shared resources. *)
Definition URLDataManagerIOSBackend_new (shared : T) : chk World :=
  let '(w, s) := new_impl shared empty_world in AddDataSource s w.

(** *** Histories *)
Inductive event :=
| EAddDataSource (source : T)
| ERunUI
| ERunIO
| ERunCallback (k : nat) (data : option bytes)
| EDropCallback (t : thread) (k : nat)
| EDeleteDataSources
| ECreateJob (u : GURL) (is_incognito : bool)
| EStart (has_request : bool) (job : nat)
| ERead (buf_size : Z) (job : nat)
| EKill (job : nat)
| EDestroyJob (job : nat)
| EDestroyBackend.

Definition handle (e : event) w : chk World :=
  match e with
  | EAddDataSource source => Manager_AddDataSource source w
  | ERunUI => run_ui w
  | ERunIO => run_io w
  | ERunCallback k data => run_callback k data w
  | EDropCallback t k => drop_callback t k w
  | EDeleteDataSources => DeleteDataSources w
  | ECreateJob u is_incognito =>
      mret (w <| jobs := <[next_job w := URLRequestChromeJob_new u is_incognito]> (jobs w) |>
              <| next_job := S (next_job w) |>)
  | EStart has_request job => Start has_request job w
  | ERead buf_size job => read_job buf_size job w
  | EKill job => Kill job w
  | EDestroyJob job => destroy_job job w
  | EDestroyBackend => destroy_backend w
  end.

(** *** What may happen

    The network stack starts a job once, before it is killed, reads when the
    headers are complete and no read is under way, and kills a job before it
    destroys it; the browser state outlives the jobs and the sources that are
    to be added; one process makes less than [INT_MAX] requests. *)
Inductive stage := Fresh | Refused | Idle | Waiting | Failed | Unasked | Stuck | OutOfOrder.

#[export] Instance stage_eq : EqDecision stage.
Proof. solve_decision. Defined.

(** [Unasked]: a failure was reported when nobody was reading. *)
Definition follow (st : stage) (n : note) : stage :=
  match st, n with
  | Fresh, NotifyStartError => Refused
  | Fresh, NotifyHeadersComplete => Idle
  | Idle, ReadReturns (Copied _ _) => Idle
  | Idle, ReadReturns ERR_IO_PENDING => Waiting
  | Waiting, ReadRawDataComplete (Copied _ _) => Idle
  | Waiting, ReadRawDataComplete ERR_FAILED => Failed
  | Idle, ReadRawDataComplete ERR_FAILED => Unasked
  | Unasked, ReadReturns ERR_IO_PENDING => Stuck
  | _, _ => OutOfOrder
  end.

Definition stage_of j : stage := fold_left follow (notes j) Fresh.

(** What was copied to the readers. *)
Definition piece (n : note) : bytes :=
  match n with
  | ReadReturns (Copied _ data) | ReadRawDataComplete (Copied _ data) => data
  | _ => []
  end.

Definition received j : bytes := concat (piece <$> notes j).

Definition served_url (u : GURL) : bool :=
  (IsAppSpecificURL u || SchemeIsInSchemes (scheme u) AdditionalWebUISchemes) && is_valid u.

Definition small (data : option bytes) : bool :=
  match data with Some data => Z.of_nat (length data) <=? INT_MAX | None => true end.

Definition is_add (task : io_task) : bool :=
  match task with AddDataSourceOnIOThread _ => true | _ => false end.

Definition enabled (e : event) w : bool :=
  match e with
  | EAddDataSource _ => backend_alive w
  | ERunUI | ERunIO | EDropCallback _ _ | EDeleteDataSources => true
  | ERunCallback _ data => small data
  | ECreateJob u _ => backend_alive w && served_url u
  | EStart _ job =>
      match jobs w !! job with
      | Some j => negb (job_backend_ j) && weak_factory_ j && (next_request_id_ w <? INT_MAX)
      | None => false
      end
  | ERead buf_size job =>
      match jobs w !! job with
      | Some j =>
          weak_factory_ j && (0 <? buf_size) && (buf_size <=? INT_MAX) &&
          bool_decide (stage_of j = Idle \/ stage_of j = Unasked)
      | None => false
      end
  | EKill job => bool_decide (is_Some (jobs w !! job))
  | EDestroyJob job =>
      match jobs w !! job with
      | Some j => negb (weak_factory_ j) || negb (job_backend_ j)
      | None => false
      end
  | EDestroyBackend =>
      backend_alive w && bool_decide (jobs w = ∅) && negb (existsb is_add (io w))
  end.

(** The shared resources are those of [URLDataManagerIOSBackend_new]. *)
Inductive reachable (shared : T) : World -> Prop :=
| reach_new w : URLDataManagerIOSBackend_new shared = Ok w -> reachable shared w
| reach_step w e w' :
    reachable shared w -> enabled e w = true -> handle e w = Ok w' -> reachable shared w'.

(** The one check that is not of this code: a source that is asked for a path
    it does not have. *)
Definition source_refuses (e : event) w : Prop :=
  exists s path id tasks i,
    e = ERunUI /\ ui w = CallStartRequest s path id :: tasks /\ impls w !! s = Some i /\
    StartDataRequest path (source_ i) = Fault.

(** ** The references

    [extra] are the references of the code that runs. *)
Definition ui_source (task : ui_task) : option nat :=
  match task with
  | GetMimeTypeOnUI s _ _ | CallStartRequest s _ _ => Some s
  | DeleteDataSourcesTask => None
  end.

Definition io_source (task : io_task) : option nat :=
  match task with
  | MimeTypeAvailable _ _ => None
  | SendResponseOnIOThread s _ _ | AddDataSourceOnIOThread s => Some s
  end.

Definition holders w : list nat :=
  omap ui_source (ui w) ++ omap io_source (io w) ++ (callbacks w).*1.

Definition occ s (l : list nat) : nat := count_occ Nat.eq_dec l s.
#[global] Arguments occ : simpl never.

Definition in_map i s w : nat := if decide (data_sources_ w !! source_name_ i = Some s) then 1 else 0.

Record refs_ok (extra : list nat) w : Prop := {
  refs_counted s i :
    impls w !! s = Some i ->
    ref_count i = (occ s extra + occ s (holders w) + in_map i s w)%nat;
  refs_alive s : s ∈ extra ++ holders w -> is_Some (impls w !! s);
  refs_map n s :
    data_sources_ w !! n = Some s -> exists i, impls w !! s = Some i /\ source_name_ i = n;
  refs_scheduled s :
    s ∈ to_delete w <-> exists i, impls w !! s = Some i /\ ref_count i = 0%nat;
  refs_nodup : NoDup (to_delete w);
  refs_task : to_delete w <> [] -> DeleteDataSourcesTask ∈ ui w;
  refs_fresh s : (next_impl w <= s)%nat -> impls w !! s = None;
}.

(** Only the IO thread's view of [backend_]. *)
Definition flags_ok w : Prop :=
  forall s i, impls w !! s = Some i ->
  backend_ i = bool_decide (data_sources_ w !! source_name_ i = Some s).

(** ** The traffic of requests *)
Record Traffic := {
  v_jobs : gmap nat URLRequestChromeJob;
  v_next_job : nat;
  v_pending : gmap Z nat;
  v_next_id : Z;
  v_sources : gmap string nat;
  v_next_impl : nat;
  v_alive : bool;
  v_work : list ui_task;
  v_io : list io_task;
  v_callbacks : list (nat * Z);
  v_started : list (Z * nat * nat);
  v_answered : list (Z * option bytes);
  v_dropped : list Z;
}.

Definition is_work (task : ui_task) : bool :=
  match task with DeleteDataSourcesTask => false | _ => true end.

Definition view w : Traffic :=
  {| v_jobs := jobs w; v_next_job := next_job w; v_pending := pending_requests_ w;
     v_next_id := next_request_id_ w; v_sources := data_sources_ w; v_next_impl := next_impl w;
     v_alive := backend_alive w; v_work := filter (fun task => is_work task = true) (ui w);
     v_io := io w; v_callbacks := callbacks w; v_started := started w;
     v_answered := answered w; v_dropped := dropped w |}.

#[export] Instance traffic_fields : Fields Traffic := fun v =>
  {| v_jobs := v_jobs v; v_next_job := v_next_job v; v_pending := v_pending v;
     v_next_id := v_next_id v; v_sources := v_sources v; v_next_impl := v_next_impl v;
     v_alive := v_alive v; v_work := v_work v; v_io := v_io v; v_callbacks := v_callbacks v;
     v_started := v_started v; v_answered := v_answered v; v_dropped := v_dropped v |}.

(** *** Runs that succeed *)
Definition run_to {A} (m : chk A) (P : A -> Prop) : Prop := exists a, m = Ok a /\ P a.

Lemma run_to_ret {A} (a : A) (P : A -> Prop) : P a -> run_to (mret a) P.
Proof. intros. by exists a. Qed.

Lemma run_to_bind {A B} (m : chk A) (f : A -> chk B) (P : A -> Prop) (Q : B -> Prop) :
  run_to m P -> (forall a, P a -> run_to (f a) Q) -> run_to (m ≫= f) Q.
Proof. intros (a & -> & Ha) Hf. exact (Hf a Ha). Qed.

Lemma run_to_weaken {A} (m : chk A) (P Q : A -> Prop) :
  run_to m P -> (forall a, P a -> Q a) -> run_to m Q.
Proof. intros (a & -> & Ha) HPQ. exists a. auto. Qed.

Lemma occ_app s l1 l2 : occ s (l1 ++ l2) = (occ s l1 + occ s l2)%nat.
Proof. apply count_occ_app. Qed.

Lemma occ_cons s x l : occ s (x :: l) = ((if decide (x = s) then 1 else 0) + occ s l)%nat.
Proof. unfold occ. simpl. destruct (Nat.eq_dec x s), (decide (x = s)); try done. Qed.

Lemma occ_zero s l : occ s l = 0%nat <-> s ∉ l.
Proof. unfold occ. rewrite <- count_occ_not_In, list_elem_of_In. done. Qed.

Lemma occ_delete s (l : list nat) k x :
  l !! k = Some x -> occ s l = ((if decide (x = s) then 1 else 0) + occ s (delete k l))%nat.
Proof.
  intros Hk. rewrite <- occ_cons. apply Permutation_count_occ. by apply delete_Permutation.
Qed.

(** *** References *)
(** The sources of [w'] are sources of [w]; only their counts differ. *)
Definition keeps w w' : Prop :=
  forall s i', impls w' !! s = Some i' ->
  exists i, impls w !! s = Some i /\ source_name_ i' = source_name_ i /\
    backend_ i' = backend_ i /\ source_ i' = source_ i.

Definition framed w w' : Prop := view w' = view w /\ keeps w w'.

Lemma keeps_refl w : keeps w w.
Proof. intros s i Hi. by exists i. Qed.

Lemma jobs_keep_trans w1 w2 w3 : keeps w1 w2 -> keeps w2 w3 -> keeps w1 w3.
Proof.
  intros H12 H23 s i3 (i2 & Hi2 & -> & -> & ->)%H23. by apply H12.
Qed.

Lemma framed_trans w1 w2 w3 : framed w1 w2 -> framed w2 w3 -> framed w1 w3.
Proof.
  intros [Hv Hk] [Hv' Hk']. split; [congruence | by eapply jobs_keep_trans].
Qed.

Lemma refs_ok_ext extra extra' w w' :
  refs_ok extra w ->
  impls w' = impls w -> data_sources_ w' = data_sources_ w -> to_delete w' = to_delete w ->
  next_impl w' = next_impl w ->
  (forall s, occ s (extra' ++ holders w') = occ s (extra ++ holders w)) ->
  (to_delete w <> [] -> DeleteDataSourcesTask ∈ ui w -> DeleteDataSourcesTask ∈ ui w') ->
  refs_ok extra' w'.
Proof.
  intros [Hc Ha Hm Hs Hn Ht Hf] Hi Hd Hl Hx Hocc Hui. split; rewrite ?Hi, ?Hd, ?Hl, ?Hx; auto.
  - intros s i Hs'. rewrite (Hc s i Hs'). specialize (Hocc s). rewrite !occ_app in Hocc.
    unfold in_map. rewrite Hd. lia.
  - intros s Hin. apply Ha. destruct (decide (s ∈ extra ++ holders w)) as [| Hno]; [done |].
    apply occ_zero in Hno. rewrite <- Hocc in Hno. by apply occ_zero in Hno.
Qed.

Lemma refs_ok_alive extra w s : refs_ok extra w -> s ∈ extra -> is_Some (impls w !! s).
Proof. intros Hr Hs. apply (refs_alive _ _ Hr), elem_of_app. by left. Qed.

Lemma refs_ok_positive extra w s i :
  refs_ok extra w -> impls w !! s = Some i ->
  s ∈ extra ++ holders w \/ data_sources_ w !! source_name_ i = Some s -> (0 < ref_count i)%nat.
Proof.
  intros Hr Hi Hin. rewrite (refs_counted _ _ Hr s i Hi), <- occ_app.
  destruct Hin as [Hin | Hin].
  - destruct (occ s (extra ++ holders w)) eqn:Ho; [by apply occ_zero in Ho | lia].
  - unfold in_map. rewrite decide_True by done. lia.
Qed.

(** A source is replaced by one with its name. *)
Lemma insert_alive (m : gmap nat URLDataSourceIOSImpl) s i s' :
  is_Some (m !! s') -> is_Some (<[s := i]> m !! s').
Proof. intros ?. apply lookup_insert_is_Some'. by right. Qed.

Lemma insert_named (m : gmap nat URLDataSourceIOSImpl) s i i' s' n :
  m !! s = Some i -> source_name_ i' = source_name_ i ->
  (exists k, m !! s' = Some k /\ source_name_ k = n) ->
  exists k, <[s := i']> m !! s' = Some k /\ source_name_ k = n.
Proof.
  intros Hi Hname (k & Hk & Hn). destruct (decide (s' = s)) as [-> | Hne].
  - rewrite lookup_insert_eq. eexists. split; [done |]. congruence.
  - rewrite lookup_insert_ne by done. by exists k.
Qed.

Lemma insert_fresh (m : gmap nat URLDataSourceIOSImpl) s i i' s' :
  m !! s = Some i -> m !! s' = None -> <[s := i']> m !! s' = None.
Proof. intros Hi Hs'. apply lookup_insert_None. split; [done |]. congruence. Qed.

Lemma insert_keeps s i i' w w' :
  impls w !! s = Some i -> impls w' = <[s := i']> (impls w) ->
  source_name_ i' = source_name_ i -> backend_ i' = backend_ i -> source_ i' = source_ i ->
  keeps w w'.
Proof.
  intros Hi Hw Hn Hb Hs s' k. rewrite Hw. destruct (decide (s' = s)) as [-> | Hne].
  - rewrite lookup_insert_eq. intros [= <-]. by exists i.
  - rewrite lookup_insert_ne by done. intros ?. by exists k.
Qed.

Lemma AddRef_ok extra s i w :
  refs_ok extra w -> impls w !! s = Some i -> (0 < ref_count i)%nat ->
  run_to (AddRef s w) (fun w' => refs_ok (s :: extra) w' /\ framed w w' /\ ui w' = ui w /\
    is_Some (impls w' !! s)).
Proof.
  intros [Hc Ha Hm Hs Hn Ht Hf] Hi Hpos. unfold AddRef, with_impl. rewrite Hi. apply run_to_ret.
  split; [| split; [split; [done |] | split; [done |]]].
  - split; simpl; auto.
    + intros s' i'. destruct (decide (s' = s)) as [-> | Hne].
      * rewrite lookup_insert_eq. intros [= <-]. simpl. rewrite (Hc s i Hi), occ_cons, decide_True by done.
        unfold holders, in_map. simpl. lia.
      * rewrite lookup_insert_ne by done. intros Hi'. rewrite (Hc s' i' Hi'), occ_cons, decide_False by done.
        done.
    + intros s' [-> | Hin]%elem_of_cons; [by rewrite lookup_insert_eq; eexists |].
      by apply insert_alive, Ha.
    + intros n s' Hs'. eapply insert_named; [done | done | by apply Hm].
    + intros s'. rewrite Hs. destruct (decide (s' = s)) as [-> | Hne].
      * rewrite lookup_insert_eq. split; intros (i' & Hi' & Hz); [| injection Hi' as <-; done].
        assert (i' = i) as -> by congruence. lia.
      * by rewrite lookup_insert_ne.
    + intros s' Hle. eapply insert_fresh; [done | by apply Hf].
  - by eapply insert_keeps.
  - simpl. rewrite lookup_insert_eq. by eexists.
Qed.

(** A reference is dropped: the source may die, on the UI thread at once. *)
Lemma deleted_ok extra s i w :
  refs_ok (s :: extra) w -> impls w !! s = Some i -> ref_count i = 1%nat ->
  ~ (s ∈ extra) /\ ~ (s ∈ holders w) /\ data_sources_ w !! source_name_ i <> Some s /\
  ~ (s ∈ to_delete w).
Proof.
  intros Hr Hi Hone. pose proof (refs_counted _ _ Hr s i Hi) as Hc.
  rewrite occ_cons, decide_True in Hc by done. unfold in_map in Hc.
  destruct (decide (data_sources_ w !! source_name_ i = Some s)) as [| Hmap]; [lia |].
  split; [apply occ_zero; lia | split; [apply occ_zero; lia | split; [done |]]].
  intros (i' & Hi' & Hz)%(refs_scheduled _ _ Hr). assert (i' = i) as -> by congruence. lia.
Qed.

(** The other references of a source are kept. *)
Lemma refs_dropped extra s w s' i' :
  refs_ok (s :: extra) w -> s' <> s -> impls w !! s' = Some i' ->
  ref_count i' = (occ s' extra + occ s' (holders w) + in_map i' s' w)%nat.
Proof. intros Hr Hne Hi'. by rewrite (refs_counted _ _ Hr s' i' Hi'), occ_cons, decide_False. Qed.

Lemma refs_drop extra s i n w :
  refs_ok (s :: extra) w -> impls w !! s = Some i -> ref_count i = S n -> n <> 0%nat ->
  refs_ok extra (w <| impls := <[s := i <| ref_count := n |>]> (impls w) |>).
Proof.
  intros Hr Hi Hn Hpos. pose proof (fun s' i' => refs_dropped extra s w s' i' Hr) as Hsame.
  destruct Hr as [Hc Ha Hm Hs Hnd Ht Hf]. split; simpl; auto.
  - intros s' i'. destruct (decide (s' = s)) as [-> | Hne].
    + rewrite lookup_insert_eq. intros [= <-]. simpl. specialize (Hc s i Hi).
      rewrite occ_cons, decide_True, Hn in Hc by done. unfold holders, in_map in *. simpl. lia.
    + rewrite lookup_insert_ne by done. by apply Hsame.
  - intros s' Hin. apply insert_alive, Ha. set_solver.
  - intros m s' Hs'. eapply insert_named; [done | done | by apply Hm].
  - intros s'. rewrite Hs. destruct (decide (s' = s)) as [-> | Hne]; [| by rewrite lookup_insert_ne].
    rewrite lookup_insert_eq. split; intros (i' & Hi' & Hz); [congruence |].
    injection Hi' as <-. simpl in Hz. congruence.
  - intros s' Hle. eapply insert_fresh; [done | by apply Hf].
Qed.

Lemma refs_delete extra s i w :
  refs_ok (s :: extra) w -> impls w !! s = Some i -> ref_count i = 1%nat ->
  refs_ok extra (w <| impls := delete s (impls w) |>).
Proof.
  intros Hr Hi Hone. destruct (deleted_ok _ _ _ _ Hr Hi Hone) as (Hne & Hnh & Hnm & Hnd).
  pose proof (fun s' i' => refs_dropped extra s w s' i' Hr) as Hsame. destruct Hr as [Hc Ha Hm Hs Hn Ht Hf].
  split; simpl; auto.
  - intros s' i' [? ?]%lookup_delete_Some. by apply Hsame.
  - intros s' Hin. rewrite lookup_delete_ne by set_solver. apply Ha. set_solver.
  - intros m s' Hms. destruct (Hm m s' Hms) as (i' & Hi' & Hname). exists i'. split; [| done].
    rewrite lookup_delete_ne; [done |]. intros ->. congruence.
  - intros s'. rewrite Hs. split; intros (i' & Hi' & Hz).
    + exists i'. rewrite lookup_delete_ne; [done |]. intros ->. congruence.
    + apply lookup_delete_Some in Hi' as [? ?]. by exists i'.
  - intros s' Hle. apply lookup_delete_None. right. by apply Hf.
Qed.

Lemma refs_schedule extra s i task w :
  refs_ok (s :: extra) w -> impls w !! s = Some i -> ref_count i = 1%nat ->
  omap ui_source task = [] -> (to_delete w = [] -> DeleteDataSourcesTask ∈ task) ->
  refs_ok extra (w <| impls := <[s := i <| ref_count := 0%nat |>]> (impls w) |>
                   <| to_delete := to_delete w ++ [s] |> <| ui := ui w ++ task |>).
Proof.
  intros Hr Hi Hone Hno Htask. destruct (deleted_ok _ _ _ _ Hr Hi Hone) as (Hne & Hnh & Hnm & Hnd).
  pose proof (fun s' i' => refs_dropped extra s w s' i' Hr) as Hsame. destruct Hr as [Hc Ha Hm Hs Hn Ht Hf].
  set (w' := w <| impls := _ |> <| to_delete := _ |> <| ui := _ |>).
  assert (Hh : holders w' = holders w)
    by (unfold holders, w'; simpl; by rewrite omap_app, Hno, app_nil_r).
  split; rewrite ?Hh; simpl; auto.
  - intros s' i'. destruct (decide (s' = s)) as [-> | Hne'].
    + rewrite lookup_insert_eq. intros [= <-]. simpl. unfold in_map. simpl.
      rewrite decide_False by done. apply occ_zero in Hne, Hnh. lia.
    + rewrite lookup_insert_ne by done. by apply Hsame.
  - intros s' Hin. apply insert_alive, Ha. set_solver.
  - intros m s' Hs'. eapply insert_named; [done | done | by apply Hm].
  - intros s'. rewrite elem_of_app, list_elem_of_singleton, Hs.
    destruct (decide (s' = s)) as [-> | Hne'].
    + rewrite lookup_insert_eq. split; [intros _; by eexists | by right].
    + rewrite lookup_insert_ne by done. naive_solver.
  - apply NoDup_app. split; [done |]. split; [| apply NoDup_singleton]. set_solver.
  - intros _. apply elem_of_app. destruct (decide (to_delete w = [])); [right | left]; auto.
  - intros s' Hle. eapply insert_fresh; [done | by apply Hf].
Qed.

Lemma Release_ok extra t s w :
  refs_ok (s :: extra) w ->
  run_to (Release t s w) (fun w' => refs_ok extra w' /\ framed w w').
Proof.
  intros Hr. destruct (refs_ok_alive _ _ s Hr (list_elem_of_here _ _)) as [i Hi].
  pose proof (refs_ok_positive _ _ s i Hr Hi (or_introl (list_elem_of_here _ _))) as Hpos.
  unfold Release. rewrite Hi. simpl. destruct (ref_count i) as [| n] eqn:Hn; [lia |].
  destruct (Nat.eqb_spec n 0) as [-> | Hpos'].
  - destruct t; simpl.
    + unfold delete_impl. simpl. rewrite lookup_insert_eq. apply run_to_ret. simpl.
      rewrite delete_insert_eq. split; [exact (refs_delete _ _ _ _ Hr Hi Hn) |]. split; [done |].
      intros s' i'. simpl. intros [? ?]%lookup_delete_Some. by exists i'.
    + apply run_to_ret. set (task := if bool_decide (to_delete w = []) then [DeleteDataSourcesTask] else []).
      assert (Hw : forall w1, (if bool_decide (to_delete w = []) then post_ui DeleteDataSourcesTask w1 else w1)
                   = w1 <| ui := ui w1 ++ task |>).
      { intros w1. unfold task, post_ui. destruct (bool_decide _); [done |].
        rewrite app_nil_r. by destruct w1. }
      rewrite Hw. split; [| split].
      * refine (refs_schedule _ _ _ task _ Hr Hi Hn _ _); unfold task.
        -- by destruct (bool_decide _).
        -- intros Hnil. rewrite bool_decide_true by done. left.
      * unfold view. simpl. rewrite filter_app. unfold task.
        destruct (bool_decide _); simpl; by rewrite app_nil_r.
      * by eapply insert_keeps.
  - apply run_to_ret. split; [by eapply refs_drop |]. split; [done |]. by eapply insert_keeps.
Qed.

(** *** Sources come and go *)
Lemma flags_framed w w' : framed w w' -> flags_ok w -> flags_ok w'.
Proof.
  intros [Hv Hk] Hf s i' (i & Hi & Hn & Hb & _)%Hk. rewrite Hn, Hb, (Hf s i Hi).
  apply (f_equal v_sources) in Hv. simpl in Hv. by rewrite Hv.
Qed.

Lemma insert_impl_ok extra s i i' w :
  refs_ok extra w -> impls w !! s = Some i ->
  source_name_ i' = source_name_ i -> ref_count i' = ref_count i ->
  refs_ok extra (w <| impls := <[s := i']> (impls w) |>).
Proof.
  intros [Hc Ha Hm Hs Hn Ht Hf] Hi Hname Href. split; simpl; auto.
  - intros s' k. destruct (decide (s' = s)) as [-> | Hne].
    + rewrite lookup_insert_eq. intros [= <-]. rewrite Href, (Hc s i Hi).
      unfold in_map, holders. simpl. by rewrite Hname.
    + rewrite lookup_insert_ne by done. apply Hc.
  - intros s' Hin. by apply insert_alive, Ha.
  - intros n s' Hs'. eapply insert_named; [done | done | by apply Hm].
  - intros s'. rewrite Hs. destruct (decide (s' = s)) as [-> | Hne].
    + rewrite lookup_insert_eq. split; intros (k & Hk & Hz).
      * exists i'. split; [done | congruence].
      * exists i. split; [done | congruence].
    + by rewrite lookup_insert_ne.
  - intros s' Hle. eapply insert_fresh; [done | by apply Hf].
Qed.

(** The map takes over a reference to the new source, and gives up one to the
    old source of the name. *)
Lemma map_insert_ok extra s i w :
  refs_ok (s :: extra) w -> impls w !! s = Some i ->
  data_sources_ w !! source_name_ i <> Some s ->
  refs_ok (option_list (data_sources_ w !! source_name_ i) ++ extra)
    (w <| data_sources_ := <[source_name_ i := s]> (data_sources_ w) |>).
Proof.
  intros [Hc Ha Hm Hs Hn Ht Hf] Hi Hmap. split; simpl; auto.
  - intros s' i' Hi'. rewrite (Hc s' i' Hi'). unfold in_map, holders. simpl.
    rewrite (occ_cons s' s extra), (occ_app s' (option_list _) extra).
    assert (Hold : occ s' (option_list (data_sources_ w !! source_name_ i)) =
                   if decide (data_sources_ w !! source_name_ i = Some s') then 1%nat else 0%nat).
    { destruct (data_sources_ w !! source_name_ i) as [old |]; [| done].
      change (option_list (Some old)) with [old]. rewrite occ_cons.
      destruct (decide (old = s')) as [-> |]; [by rewrite decide_True |].
      by rewrite decide_False by congruence. }
    rewrite Hold. destruct (decide (source_name_ i' = source_name_ i)) as [Heq | Hne].
    + rewrite Heq, lookup_insert_eq. destruct (decide (s = s')) as [<- | Hne'].
      * rewrite (decide_False (P := _ = Some s)), (decide_True (P := Some s = Some s)) by done. lia.
      * rewrite (decide_False (P := Some s = Some s')) by congruence.
        destruct (decide _); lia.
    + rewrite lookup_insert_ne by done.
      assert (Hs' : s <> s') by congruence. rewrite (decide_False (P := s = s')) by done.
      rewrite (decide_False (P := data_sources_ w !! source_name_ i = Some s')); [lia |].
      intros (k & Hk & Hkn)%Hm. congruence.
  - intros s'. rewrite !elem_of_app. intros [[Hin | Hin] | Hin].
    + destruct (data_sources_ w !! source_name_ i) as [old |] eqn:Hold; [| by apply not_elem_of_nil in Hin].
      apply list_elem_of_singleton in Hin as ->. destruct (Hm _ _ Hold) as (k & Hk & _). by exists k.
    + apply Ha. set_solver.
    + apply Ha. set_solver.
  - intros n s'. destruct (decide (n = source_name_ i)) as [-> | Hne].
    + rewrite lookup_insert_eq. intros [= <-]. by exists i.
    + rewrite lookup_insert_ne by done. apply Hm.
Qed.

Lemma run_with_impl s f w i :
  impls w !! s = Some i -> with_impl s f w = Ok (w <| impls := <[s := f i]> (impls w) |>).
Proof. intros Hi. unfold with_impl. by rewrite Hi. Qed.

(** The map has [s] under one more name. *)
Definition attached extra s w w' : Prop :=
  refs_ok extra w' /\ flags_ok w' /\
  exists n, view w' = view w <| v_sources := <[n := s]> (data_sources_ w) |>.

Lemma replace_source extra s i old w :
  refs_ok extra w -> flags_ok w -> s ∈ extra -> impls w !! s = Some i ->
  data_sources_ w !! source_name_ i = Some old -> old <> s ->
  run_to
    (w ← with_impl old (fun i => i <| backend_ := false |>) w;
     w ← AddRef s w;
     w ← Release IO old (w <| data_sources_ := <[source_name_ i := s]> (data_sources_ w) |>);
     with_impl s (fun i => i <| backend_ := true |>) w)
    (attached extra s w).
Proof.
  intros Hr Hfl Hin Hi Hold Hne.
  assert (Hpos : (0 < ref_count i)%nat).
  { eapply refs_ok_positive; [done | done | left]. set_solver. }
  destruct (refs_map _ _ Hr _ _ Hold) as (o & Hio & Hname).
  rewrite (run_with_impl _ _ _ _ Hio), bind_Ok.
  set (w1 := w <| impls := _ |>).
  assert (Hr1 : refs_ok extra w1) by (by eapply insert_impl_ok).
  assert (Hi1 : impls w1 !! s = Some i) by (unfold w1; simpl; by rewrite lookup_insert_ne).
  eapply run_to_bind; [by eapply AddRef_ok |]. intros w2 (Hr2 & [Hv2 Hk2] & _ & [i2 Hi2]).
  destruct (Hk2 s i2 Hi2) as (i1 & Hi1' & Hn2 & Hb2 & Hs2).
  assert (Hn : source_name_ i2 = source_name_ i) by congruence.
  assert (Hd2 : data_sources_ w2 = data_sources_ w) by (by apply (f_equal v_sources) in Hv2).
  pose proof (map_insert_ok extra s i2 w2 Hr2 Hi2) as Hr3. rewrite Hn, Hd2, Hold in Hr3.
  specialize (Hr3 ltac:(congruence)). rewrite <- Hd2 in Hr3.
  eapply run_to_bind; [apply (Release_ok _ IO _ _ Hr3) |]. intros w4 (Hr4 & [Hv4 Hk4]).
  destruct (refs_ok_alive _ _ s Hr4 Hin) as [i4 Hi4].
  rewrite (run_with_impl _ _ _ _ Hi4). apply run_to_ret. split; [by eapply insert_impl_ok |].
  assert (Hd4 : data_sources_ w4 = <[source_name_ i := s]> (data_sources_ w)).
  { apply (f_equal v_sources) in Hv4. simpl in Hv4. by rewrite Hv4, Hd2. }
  split.
  - intros s' k. simpl. rewrite Hd4. destruct (decide (s' = s)) as [-> | Hne'].
    + rewrite lookup_insert_eq. intros [= <-]. simpl.
      destruct (Hk4 s i4 Hi4) as (k & Hk & -> & _). simpl in Hk.
      assert (k = i2) as -> by congruence. rewrite Hn, lookup_insert_eq. by rewrite bool_decide_true.
    + rewrite lookup_insert_ne by done. intros Hk.
      destruct (Hk4 s' k Hk) as (k2 & Hk2' & -> & -> & _). simpl in Hk2'.
      destruct (Hk2 s' k2 Hk2') as (k1 & Hk1 & -> & -> & _). unfold w1 in Hk1. simpl in Hk1.
      destruct (decide (s' = old)) as [-> | Hno].
      * rewrite lookup_insert_eq in Hk1. injection Hk1 as <-. simpl. rewrite Hname, lookup_insert_eq.
         rewrite bool_decide_false; [done | congruence].
      * rewrite lookup_insert_ne in Hk1 by done. rewrite (Hfl s' k1 Hk1).
         destruct (decide (source_name_ k1 = source_name_ i)) as [Hkn | Hkn].
         -- rewrite Hkn, lookup_insert_eq, Hold, !bool_decide_false by congruence. done.
         -- by rewrite lookup_insert_ne.
  - exists (source_name_ i). unfold view at 1. simpl. unfold view in Hv4, Hv2. simpl in Hv4, Hv2.
    injection Hv4 as -> -> -> -> -> -> -> -> -> -> -> -> ->.
    injection Hv2 as -> -> -> -> -> -> -> -> -> -> -> -> ->. done.
Qed.

Lemma add_source extra s i w :
  refs_ok extra w -> flags_ok w -> s ∈ extra -> impls w !! s = Some i ->
  data_sources_ w !! source_name_ i = None ->
  run_to
    (w ← AddRef s w;
     with_impl s (fun i => i <| backend_ := true |>)
       (w <| data_sources_ := <[source_name_ i := s]> (data_sources_ w) |>))
    (attached extra s w).
Proof.
  intros Hr Hfl Hin Hi Hold.
  assert (Hpos : (0 < ref_count i)%nat).
  { eapply refs_ok_positive; [done | done | left]. set_solver. }
  eapply run_to_bind; [by eapply AddRef_ok |]. intros w2 (Hr2 & [Hv2 Hk2] & _ & [i2 Hi2]).
  destruct (Hk2 s i2 Hi2) as (i1 & Hi1' & Hn2 & Hb2 & Hs2).
  assert (Hn : source_name_ i2 = source_name_ i) by congruence.
  assert (Hd2 : data_sources_ w2 = data_sources_ w) by (by apply (f_equal v_sources) in Hv2).
  pose proof (map_insert_ok extra s i2 w2 Hr2 Hi2) as Hr3. rewrite Hn, Hd2, Hold in Hr3.
  specialize (Hr3 ltac:(congruence)). rewrite <- Hd2 in Hr3. simpl in Hr3.
  unfold with_impl. simpl. rewrite Hi2. apply run_to_ret.
  split; [by apply (insert_impl_ok extra s i2 _ _ Hr3 Hi2) |]. split.
  - intros s' k. simpl. rewrite Hd2. destruct (decide (s' = s)) as [-> | Hne'].
    + rewrite lookup_insert_eq. intros [= <-]. simpl. rewrite Hn, lookup_insert_eq.
      by rewrite bool_decide_true.
    + rewrite lookup_insert_ne by done. intros Hk.
      destruct (Hk2 s' k Hk) as (k1 & Hk1 & -> & -> & _). rewrite (Hfl s' k1 Hk1).
      destruct (decide (source_name_ k1 = source_name_ i)) as [Hkn | Hkn].
      * rewrite Hkn, lookup_insert_eq, Hold, !bool_decide_false by congruence. done.
      * by rewrite lookup_insert_ne.
  - exists (source_name_ i). unfold view at 1. simpl. unfold view in Hv2. simpl in Hv2.
    injection Hv2 as -> -> -> -> -> -> -> -> -> -> -> -> ->. done.
Qed.

Lemma run_AddDataSource extra s w :
  refs_ok extra w -> flags_ok w -> s ∈ extra -> (forall n, data_sources_ w !! n <> Some s) ->
  run_to (AddDataSource s w) (fun w' => refs_ok extra w' /\ flags_ok w' /\
    (view w' = view w \/
     exists n, view w' = view w <| v_sources := <[n := s]> (data_sources_ w) |>)).
Proof.
  intros Hr Hfl Hin Hdet. destruct (refs_ok_alive _ _ s Hr Hin) as [i Hi].
  unfold AddDataSource. rewrite Hi. simpl.
  destruct (data_sources_ w !! source_name_ i) as [old |] eqn:Hold.
  - destruct (negb _); [by apply run_to_ret; auto |].
    assert (Hne : old <> s) by (intros ->; by apply Hdet in Hold).
    eapply run_to_weaken; [by eapply replace_source |].
    intros w' (? & ? & ?). split; [done |]. split; [done | by right].
  - eapply run_to_weaken; [by eapply add_source |].
    intros w' (? & ? & ?). split; [done |]. split; [done | by right].
Qed.

(** *** A job *)
Definition at_rest (st : stage) : Prop := st = Fresh \/ st = Refused \/ st = Idle \/ st = Unasked.
Definition at_read (st : stage) : Prop := st = Waiting \/ st = Failed \/ st = Stuck.
Definition gave_up (st : stage) : Prop := st = Failed \/ st = Unasked \/ st = Stuck.

(** A read has returned that there is no more. *)
Definition ended j : Prop :=
  exists data, ReadReturns (Copied 0 data) ∈ notes j \/ ReadRawDataComplete (Copied 0 data) ∈ notes j.

Record job_ok j : Prop := {
  job_offset : data_offset_ j = Z.of_nat (length (received j));
  job_data : match data_ j with
    | Some data =>
        small (Some data) = true /\ pending_buf_ j = None /\ stage_of j = Idle /\
        received j `prefix_of` data
    | None => received j = [] /\
        (at_rest (stage_of j) /\ pending_buf_ j = None \/
         at_read (stage_of j) /\ exists n, pending_buf_ j = Some n /\ 0 < n <= INT_MAX)
    end;
  job_ended : ended j -> data_ j = Some (received j);
}.

Definition awaiting j : Prop :=
  data_ j = None /\ (stage_of j = Fresh \/ stage_of j = Idle \/ stage_of j = Waiting).

Lemma stage_notify n j : stage_of (notify n j) = follow (stage_of j) n.
Proof. unfold stage_of, notify. simpl. by rewrite fold_left_app. Qed.

Lemma received_notify n j : received (notify n j) = received j ++ piece n.
Proof. unfold received, notify. simpl. rewrite fmap_app, concat_app. simpl. by rewrite app_nil_r. Qed.

Lemma ended_notify n j :
  ended (notify n j) ->
  ended j \/ exists data, n = ReadReturns (Copied 0 data) \/ n = ReadRawDataComplete (Copied 0 data).
Proof.
  intros (data & Hin). unfold notify in Hin. simpl in Hin.
  destruct Hin as [Hin | Hin]; apply elem_of_app in Hin as [Hin | Hin%list_elem_of_singleton];
    first [left; by exists data; auto | right; exists data; auto].
Qed.

Lemma new_job_ok u incognito : job_ok (URLRequestChromeJob_new u incognito).
Proof.
  split; simpl; [done | |].
  - split; [done |]. left. split; [by left | done].
  - by intros (data & [?%not_elem_of_nil | ?%not_elem_of_nil]).
Qed.

(** Changes of the other fields. *)
Lemma same_job_ok j j' :
  notes j' = notes j -> data_ j' = data_ j -> data_offset_ j' = data_offset_ j ->
  pending_buf_ j' = pending_buf_ j -> job_ok j -> job_ok j'.
Proof.
  intros Hn Hd Ho Hp [H1 H2 H3]. split; unfold received, stage_of, ended in *;
    rewrite Hn, ?Hd, ?Ho, ?Hp; done.
Qed.

Lemma quiet_notify_ok n j :
  job_ok j -> data_ j = None -> pending_buf_ j = None -> piece n = [] ->
  (forall data, n <> ReadReturns (Copied 0 data) /\ n <> ReadRawDataComplete (Copied 0 data)) ->
  at_rest (follow (stage_of j) n) -> job_ok (notify n j).
Proof.
  intros [H1 H2 H3] Hd Hp Hpiece Hn Hst. rewrite Hd in H2. destruct H2 as [Hrec _].
  split; rewrite ?received_notify, ?Hpiece, ?app_nil_r, ?stage_notify.
  - done.
  - simpl. rewrite Hd, Hp. split; [done |]. by left.
  - intros [Hend | (data & Hend)]%ended_notify; [by auto |]. destruct (Hn data). naive_solver.
Qed.

Lemma mime_available_ok m j :
  job_ok j -> stage_of j = Fresh ->
  job_ok (Job_MimeTypeAvailable m j) /\ stage_of (Job_MimeTypeAvailable m j) = Idle.
Proof.
  intros Hj Hst. unfold Job_MimeTypeAvailable.
  assert (Hj' : job_ok (j <| mime_type_ := m |>)) by (by apply (same_job_ok j)).
  assert (Hst' : stage_of (j <| mime_type_ := m |>) = Fresh) by done.
  pose proof (job_data _ Hj) as Hd. destruct (data_ j) as [d |] eqn:Hdata.
  { destruct Hd as (_ & _ & Hd & _). congruence. }
  assert (Hp : pending_buf_ j = None).
  { destruct Hd as [_ [[_ ?] | [[? | [? | ?]] _]]]; [done | congruence..]. }
  split; [| by rewrite stage_notify, Hst'].
  apply quiet_notify_ok; try done. rewrite Hst'. right. right. by left.
Qed.

(** The copy of a read. *)
Lemma run_CompleteRead buf_size d j :
  data_ j = Some d -> small (Some d) = true -> received j `prefix_of` d ->
  data_offset_ j = Z.of_nat (length (received j)) -> 0 < buf_size ->
  exists k more, CompleteRead buf_size j =
      Ok (j <| data_offset_ := data_offset_ j + Z.of_nat (length more) |>, Copied k more) /\
    k = Z.of_nat (length more) /\ (received j ++ more) `prefix_of` d /\
    (k = 0 -> received j = d).
Proof.
  intros Hd Hsmall [rest ->] Hoff Hpos. apply Z.leb_le in Hsmall.
  set (got := received j) in *. rewrite length_app in Hsmall.
  unfold CompleteRead. rewrite Hd. simpl. rewrite Hoff, length_app.
  assert (Hrem : wrap32 (Z.of_nat (length got + length rest) - Z.of_nat (length got)) =
                 Z.of_nat (length rest)).
  { replace (_ - _) with (Z.of_nat (length rest)) by lia. apply wrap32_small.
    unfold INT_MIN, INT_MAX in *. lia. }
  rewrite Hrem. set (n := if _ <? buf_size then _ else buf_size).
  assert (Hn : 0 <= n <= Z.of_nat (length rest) /\ (n = 0 -> rest = [])).
  { unfold n. destruct (Z.ltb_spec (Z.of_nat (length rest)) buf_size).
    - split; [lia |]. intros ?. apply nil_length_inv. lia.
    - split; [lia |]. lia. }
  destruct Hn as [Hn Hzero]. rewrite Nat2Z.id, drop_app_length.
  exists n, (take (Z.to_nat n) rest).
  assert (Hlen : Z.of_nat (length (take (Z.to_nat n) rest)) = n) by (rewrite length_take; lia).
  rewrite Hlen. split; [| split; [done | split]].
  - destruct (Z.ltb_spec 0 n) as [| Hle]; [done |]. replace n with 0 by lia. simpl.
    rewrite take_0. rewrite Z.add_0_r, <- Hoff. by destruct j.
  - apply prefix_app. exists (drop (Z.to_nat n) rest). by rewrite take_drop.
  - intros ->. by rewrite Hzero, app_nil_r.
Qed.

(** A read that copies, told of in either way. *)
Lemma copied_ok (tell : read_result -> note) buf_size d j :
  (forall k more, piece (tell (Copied k more)) = more) ->
  follow (stage_of j) (tell (Copied 0 [])) = Idle ->
  (forall k more, follow (stage_of j) (tell (Copied k more)) = follow (stage_of j) (tell (Copied 0 []))) ->
  data_ j = Some d -> small (Some d) = true -> received j `prefix_of` d ->
  data_offset_ j = Z.of_nat (length (received j)) -> 0 < buf_size ->
  (ended j -> received j = d) ->
  (forall k more data, tell (Copied k more) = ReadReturns (Copied 0 data) \/
     tell (Copied k more) = ReadRawDataComplete (Copied 0 data) -> k = 0) ->
  exists j' rv, CompleteRead buf_size j = Ok (j', rv) /\
    notes j' = notes j /\ weak_factory_ j' = weak_factory_ j /\
    job_backend_ j' = job_backend_ j /\ data_ j' = Some d /\
    job_ok (notify (tell rv) (j' <| pending_buf_ := None |>)).
Proof.
  intros Hpiece Hidle Hsame Hd Hsmall Hpre Hoff Hpos Hend Hzero.
  destruct (run_CompleteRead buf_size d j Hd Hsmall Hpre Hoff Hpos)
    as (k & more & Hrun & Hk & Hpre' & Hdone).
  rewrite Hrun. do 2 eexists. split; [done |]. do 4 (split; [done |]).
  set (j1 := j <| data_offset_ := _ |> <| pending_buf_ := None |>).
  assert (Hst : stage_of j1 = stage_of j) by done.
  assert (Hrec : received j1 = received j) by done.
  split; rewrite ?received_notify, ?Hpiece, ?stage_notify, ?Hst, ?Hrec.
  - simpl. rewrite Hoff, length_app. lia.
  - simpl. rewrite Hd. split; [done |]. split; [done |]. split; [| done].
    by rewrite Hsame, Hidle.
  - simpl. rewrite Hd. intros [He | (data & Heq)]%ended_notify.
    + assert (Hall : received j = d) by (by apply Hend). rewrite Hall in Hpre'.
      destruct Hpre' as [rest Hrest]. rewrite Hall.
      assert (more = []) as ->; [| by rewrite app_nil_r].
      apply (f_equal length) in Hrest. rewrite !length_app in Hrest. apply nil_length_inv. lia.
    + assert (k = 0) as -> by (by eapply Hzero).
      rewrite (Hdone eq_refl). assert (more = []) as -> by (apply nil_length_inv; lia).
      by rewrite app_nil_r.
Qed.

Lemma read_ok buf_size j :
  job_ok j -> stage_of j = Idle \/ stage_of j = Unasked -> 0 < buf_size <= INT_MAX ->
  exists j' rv, ReadRawData buf_size j = Ok (j', rv) /\
    notes j' = notes j /\ weak_factory_ j' = weak_factory_ j /\
    job_backend_ j' = job_backend_ j /\ data_ j' = data_ j /\
    (data_ j = None -> rv = ERR_IO_PENDING) /\
    job_ok (notify (ReadReturns rv) j').
Proof.
  intros Hj Hst Hn. unfold ReadRawData. pose proof (job_data _ Hj) as Hd.
  destruct (data_ j) as [d |] eqn:Hdata.
  - destruct Hd as (Hsmall & Hp & Hidle & Hpre).
    destruct (copied_ok ReadReturns buf_size d j) as (j' & rv & Hrun & ? & ? & ? & ? & Hok); try done.
    + by rewrite Hidle.
    + apply (job_offset _ Hj).
    + lia.
    + intros He. pose proof (job_ended _ Hj He). congruence.
    + intros k more data [[= -> _] | [=]]. done.
    + exists j', rv. rewrite Hrun. do 5 (split; [done |]). split; [done |].
      assert (Hp' : pending_buf_ j' = None).
      { revert Hrun. unfold CompleteRead. rewrite Hdata. simpl.
        destruct (0 <? _); intros [= <- _]; done. }
      by apply (same_job_ok (notify (ReadReturns rv) (j' <| pending_buf_ := None |>))).
  - destruct Hd as [Hrec [[_ Hp] | [[Hr | [Hr | Hr]] _]]]; [| destruct Hst; congruence..].
    rewrite Hp. simpl. do 2 eexists. split; [done |]. do 4 (split; [done |]). split; [done |].
    set (j1 := j <| pending_buf_ := Some buf_size |>).
    assert (Hst1 : stage_of j1 = stage_of j) by done.
    assert (Hrec1 : received j1 = received j) by done.
    split; rewrite ?received_notify, ?stage_notify, ?Hst1, ?Hrec1; simpl.
    + rewrite app_nil_r. apply (job_offset _ Hj).
    + rewrite Hdata, app_nil_r. split; [done |]. right. split; [| by exists buf_size].
      unfold at_read. destruct Hst as [-> | ->]; simpl; auto.
    + intros [He | (data & [[=] | [=]])]%ended_notify. rewrite app_nil_r. by apply (job_ended _ Hj).
Qed.

Lemma data_available_ok data j :
  job_ok j -> data_ j = None -> stage_of j = Idle \/ stage_of j = Waiting -> small data = true ->
  exists j', Job_DataAvailable data j = Ok j' /\ job_ok j' /\
    weak_factory_ j' = weak_factory_ j /\ job_backend_ j' = job_backend_ j /\
    match data with
    | Some _ => data_ j' = data /\ stage_of j' = Idle
    | None => data_ j' = None /\ gave_up (stage_of j')
    end.
Proof.
  intros Hj Hnone Hst Hsmall. pose proof (job_data _ Hj) as Hd. rewrite Hnone in Hd.
  destruct Hd as [Hrec Hbuf]. assert (Hend : ~ ended j) by (intros He%(job_ended _ Hj); congruence).
  unfold Job_DataAvailable. destruct data as [d |].
  - set (j1 := j <| data_ := Some d |>). destruct Hst as [Hst | Hst].
    + assert (Hp : pending_buf_ j = None).
      { destruct Hbuf as [[_ ?] | [[? | [? | ?]] _]]; [done | congruence..]. }
      change (pending_buf_ j1) with (pending_buf_ j). rewrite Hp. exists j1. split; [done |].
      split; [| done]. split.
      * apply (job_offset _ Hj).
      * split; [done |]. split; [done |]. split; [done |]. change (received j1) with (received j).
        rewrite Hrec. apply prefix_nil.
      * by intros He.
    + destruct Hbuf as [[[? | [? | [? | ?]]] _] | [_ (n & Hp & Hn)]]; try congruence.
      change (pending_buf_ j1) with (pending_buf_ j). rewrite Hp.
      destruct (copied_ok ReadRawDataComplete n d j1) as (j' & rv & Hrun & Hn' & Hw & Hb & Hd' & Hok); try done.
      * by change (stage_of j1) with (stage_of j); rewrite Hst.
      * change (received j1) with (received j). rewrite Hrec. apply prefix_nil.
      * apply (job_offset _ Hj).
      * lia.
      * intros k more data [[=] | [= -> _]]. done.
      * rewrite Hrun. simpl. eexists. split; [done |]. split; [done |]. split; [done |].
        split; [done |]. split; [done |]. pose proof (job_data _ Hok) as Hdd. simpl in Hdd.
        rewrite Hd' in Hdd. by destruct Hdd as (_ & _ & ? & _).
  - eexists. split; [done |]. rewrite stage_notify. simpl.
    assert (Hst' : gave_up (follow (stage_of j) (ReadRawDataComplete ERR_FAILED)))
      by (unfold gave_up; destruct Hst as [-> | ->]; simpl; auto).
    split; [| done]. split; rewrite ?received_notify, ?stage_notify; simpl.
    + rewrite app_nil_r. apply (job_offset _ Hj).
    + rewrite Hnone, app_nil_r. split; [done |].
      destruct Hst as [Hst | Hst]; rewrite Hst in *; simpl.
      * destruct Hbuf as [[_ ?] | [[? | [? | ?]] _]]; [| congruence..]. left. split; [| done].
        right. right. by right.
      * destruct Hbuf as [[[? | [? | [? | ?]]] _] | [_ ?]]; try congruence. right. split; [| done].
        right. by left.
    + intros [He | (data & [[=] | [=]])]%ended_notify. by destruct Hend.
Qed.

(** *** The invariant of the traffic *)
Definition mime_ui (task : ui_task) : option nat :=
  match task with GetMimeTypeOnUI _ _ job => Some job | _ => None end.
Definition mime_io (task : io_task) : option nat :=
  match task with MimeTypeAvailable job _ => Some job | _ => None end.
Definition add_io (task : io_task) : option nat :=
  match task with AddDataSourceOnIOThread s => Some s | _ => None end.

(** The jobs whose type is on its way. *)
Definition mimes (v : Traffic) : list nat := omap mime_ui (v_work v) ++ omap mime_io (v_io v).

Definition detached s (v : Traffic) : Prop := forall n, v_sources v !! n <> Some s.

(** The type of the job of a request comes before its data. *)
Definition typed_ui id job (work : list ui_task) (calls : list (nat * Z)) (tasks : list io_task) : Prop :=
  (exists l1 l2 s p, work = l1 ++ GetMimeTypeOnUI s p job :: l2 /\
    forall s' p', ~ (CallStartRequest s' p' id ∈ l1)) /\
  (forall s', ~ ((s', id) ∈ calls)) /\
  (forall s' d, ~ (SendResponseOnIOThread s' id d ∈ tasks)).

Definition typed_io id job (tasks : list io_task) : Prop :=
  exists l1 l2 m, tasks = l1 ++ MimeTypeAvailable job m :: l2 /\
    forall s' d, ~ (SendResponseOnIOThread s' id d ∈ l1).

Definition before_data id job (v : Traffic) : Prop :=
  typed_ui id job (v_work v) (v_callbacks v) (v_io v) \/ typed_io id job (v_io v).

(** The source of a request has it, or has answered it. *)
Definition coming s id (v : Traffic) : Prop :=
  (exists p, CallStartRequest s p id ∈ v_work v) \/ (s, id) ∈ v_callbacks v \/
  (exists d, SendResponseOnIOThread s id d ∈ v_io v).

(** It will not be answered: the source destroyed the callback, or another
    source took its name before the answer was passed on. *)
Definition lost s id (v : Traffic) : Prop :=
  id ∈ v_dropped v \/ detached s v /\ exists d, (id, d) ∈ v_answered v.

Definition is_started job (v : Traffic) : Prop := exists id s, (id, job, s) ∈ v_started v.

Record traffic_ok (v : Traffic) : Prop := {
  t_range : 0 <= v_next_id v <= INT_MAX;
  t_started id job s :
    (id, job, s) ∈ v_started v ->
    0 <= id < v_next_id v /\ (job < v_next_job v)%nat /\ (s < v_next_impl v)%nat;
  t_ids : NoDup ((fun e => e.1.1) <$> v_started v);
  t_start_jobs : NoDup ((fun e => e.1.2) <$> v_started v);
  t_pending id job :
    v_pending v !! id = Some job ->
    exists s j, (id, job, s) ∈ v_started v /\ v_jobs v !! job = Some j /\
      weak_factory_ j = true /\ job_backend_ j = true /\ awaiting j;
  t_jobs job j :
    v_jobs v !! job = Some j ->
    (job < v_next_job v)%nat /\ job_ok j /\ (job_backend_ j = false -> stage_of j = Fresh);
  t_unstarted job j :
    v_jobs v !! job = Some j -> ~ is_started job v ->
    data_ j = None /\ (stage_of j = Fresh \/ stage_of j = Refused);
  t_backend job j : v_jobs v !! job = Some j -> is_started job v -> job_backend_ j = true;
  t_fresh id job s j :
    (id, job, s) ∈ v_started v -> v_jobs v !! job = Some j -> weak_factory_ j = true ->
    stage_of j = Fresh -> before_data id job v;
  t_mimes : NoDup (mimes v);
  t_mime job :
    job ∈ mimes v -> is_started job v /\
    forall j, v_jobs v !! job = Some j -> weak_factory_ j = true -> stage_of j = Fresh;
  t_calls s p id : CallStartRequest s p id ∈ v_work v -> exists job, (id, job, s) ∈ v_started v;
  t_callbacks s id : (s, id) ∈ v_callbacks v -> exists job, (id, job, s) ∈ v_started v;
  t_responses s id d :
    SendResponseOnIOThread s id d ∈ v_io v ->
    (exists job, (id, job, s) ∈ v_started v) /\ (id, d) ∈ v_answered v /\ small d = true;
  t_reply id job s :
    v_pending v !! id = Some job -> (id, job, s) ∈ v_started v -> coming s id v \/ lost s id v;
  t_adds : NoDup (omap add_io (v_io v));
  t_add s :
    AddDataSourceOnIOThread s ∈ v_io v ->
    (s < v_next_impl v)%nat /\ detached s v /\ forall id job, ~ ((id, job, s) ∈ v_started v);
  t_sources n s : v_sources v !! n = Some s -> (s < v_next_impl v)%nat;
  t_data id job s j :
    (id, job, s) ∈ v_started v -> v_jobs v !! job = Some j ->
    (forall d, data_ j = Some d -> (id, Some d) ∈ v_answered v) /\
    (gave_up (stage_of j) -> (id, None) ∈ v_answered v);
  t_done id job s j :
    (id, job, s) ∈ v_started v -> v_jobs v !! job = Some j -> weak_factory_ j = true ->
    v_pending v !! id = Some job \/ is_Some (data_ j) \/ gave_up (stage_of j);
}.

(** *** How the traffic moves *)
Definition with_v_job job j (v : Traffic) : Traffic := v <| v_jobs := <[job := j]> (v_jobs v) |>.

Inductive moves (v : Traffic) : Traffic -> Prop :=
| move_none : moves v v
| move_source task v' :
    v_alive v = true -> add_io task = Some (v_next_impl v) ->
    v' = v <| v_io := v_io v ++ [task] |> <| v_next_impl := S (v_next_impl v) |> -> moves v v'
| move_add s tasks v' :
    v_io v = AddDataSourceOnIOThread s :: tasks ->
    v' = v <| v_io := tasks |> \/
    (exists n, v' = v <| v_io := tasks |> <| v_sources := <[n := s]> (v_sources v) |>) -> moves v v'
| move_mime_ui s p job m work v' :
    v_work v = GetMimeTypeOnUI s p job :: work ->
    v' = v <| v_work := work |> <| v_io := v_io v ++ [MimeTypeAvailable job m] |> -> moves v v'
| move_mime_io job m tasks v' :
    v_io v = MimeTypeAvailable job m :: tasks ->
    v' = match v_jobs v !! job with
         | Some j => if weak_factory_ j then with_v_job job (Job_MimeTypeAvailable m j) (v <| v_io := tasks |>)
                     else v <| v_io := tasks |>
         | None => v <| v_io := tasks |>
         end -> moves v v'
| move_answer s p id d work v' :
    v_work v = CallStartRequest s p id :: work -> small d = true ->
    v' = v <| v_work := work |> <| v_io := v_io v ++ [SendResponseOnIOThread s id d] |>
           <| v_answered := v_answered v ++ [(id, d)] |> -> moves v v'
| move_keep s p id work v' :
    v_work v = CallStartRequest s p id :: work ->
    v' = v <| v_work := work |> <| v_callbacks := v_callbacks v ++ [(s, id)] |> -> moves v v'
| move_callback s id d v' :
    (s, id) ∈ v_callbacks v -> small d = true ->
    v' = v <| v_io := v_io v ++ [SendResponseOnIOThread s id d] |>
           <| v_answered := v_answered v ++ [(id, d)] |> -> moves v v'
| move_drop k s id v' :
    v_callbacks v !! k = Some (s, id) ->
    v' = v <| v_callbacks := delete k (v_callbacks v) |> <| v_dropped := v_dropped v ++ [id] |> -> moves v v'
| move_ignored s id d tasks v' :
    v_io v = SendResponseOnIOThread s id d :: tasks -> v_pending v !! id = None \/ detached s v ->
    v' = v <| v_io := tasks |> -> moves v v'
| move_data s id d tasks job j j' v' :
    v_io v = SendResponseOnIOThread s id d :: tasks -> v_pending v !! id = Some job ->
    v_jobs v !! job = Some j -> Job_DataAvailable d j = Ok j' ->
    v' = with_v_job job j' (v <| v_io := tasks |> <| v_pending := delete id (v_pending v) |>) -> moves v v'
| move_create u incognito v' :
    served_url u = true ->
    v' = with_v_job (v_next_job v) (URLRequestChromeJob_new u incognito) v
           <| v_next_job := S (v_next_job v) |> -> moves v v'
| move_refused job j j' v' :
    v_jobs v !! job = Some j -> job_backend_ j = false -> ~ is_started job v ->
    j' = notify NotifyStartError (j <| job_backend_ := true |>) -> v' = with_v_job job j' v -> moves v v'
| move_start job j s p n source v' :
    v_jobs v !! job = Some j -> job_backend_ j = false -> weak_factory_ j = true ->
    v_sources v !! n = Some s -> v_next_id v < INT_MAX ->
    v' = with_v_job job (configure source (j <| job_backend_ := true |>))
           (v <| v_pending := <[v_next_id v := job]> (v_pending v) |>)
           <| v_next_id := v_next_id v + 1 |>
           <| v_started := v_started v ++ [(v_next_id v, job, s)] |>
           <| v_work := v_work v ++ [GetMimeTypeOnUI s p job; CallStartRequest s p (v_next_id v)] |> ->
    moves v v'
| move_read n job j j' rv v' :
    v_jobs v !! job = Some j -> 0 < n <= INT_MAX -> stage_of j = Idle \/ stage_of j = Unasked ->
    ReadRawData n j = Ok (j', rv) -> v' = with_v_job job (notify (ReadReturns rv) j') v -> moves v v'
| move_kill job j v' :
    v_jobs v !! job = Some j ->
    v' = with_v_job job (j <| weak_factory_ := false |>) v
           <| v_pending := filter (fun e => e.2 <> job) (v_pending v) |> -> moves v v'
| move_destroy job j v' :
    v_jobs v !! job = Some j -> weak_factory_ j = false \/ job_backend_ j = false ->
    v' = v <| v_jobs := delete job (v_jobs v) |> -> moves v v'
| move_close v' :
    v_jobs v = ∅ -> (forall task, task ∈ v_io v -> add_io task = None) ->
    v' = v <| v_sources := ∅ |> <| v_alive := false |> -> moves v v'.

(** *** The order of the type and the data *)
Lemma typed_io_app id job tasks more : typed_io id job tasks -> typed_io id job (tasks ++ more).
Proof.
  intros (l1 & l2 & m & -> & Hl1). exists l1, (l2 ++ more), m. split; [| done].
  by rewrite <- app_assoc.
Qed.

Lemma typed_io_tail id job task tasks :
  mime_io task <> Some job -> typed_io id job (task :: tasks) -> typed_io id job tasks.
Proof.
  intros Hne (l1 & l2 & m & Heq & Hl1). destruct l1 as [| t l1]; simplify_eq/=.
  exists l1, l2, m. split; [done |]. intros s' d Hin. apply (Hl1 s' d). by right.
Qed.

Lemma typed_ui_tail id job task work calls tasks :
  mime_ui task <> Some job -> typed_ui id job (task :: work) calls tasks ->
  typed_ui id job work calls tasks.
Proof.
  intros Hne [(l1 & l2 & s & p & Heq & Hl1) [Hc Hs]]. split; [| done].
  destruct l1 as [| t l1]; simplify_eq/=. exists l1, l2, s, p. split; [done |].
  intros s' p' Hin. apply (Hl1 s' p'). by right.
Qed.

Lemma typed_ui_app id job work more calls tasks :
  typed_ui id job work calls tasks -> typed_ui id job (work ++ more) calls tasks.
Proof.
  intros [(l1 & l2 & s & p & -> & Hl1) Hrest]. split; [| done].
  exists l1, (l2 ++ more), s, p. split; [| done]. by rewrite <- app_assoc.
Qed.

(** Fewer callbacks and answers. *)
Lemma typed_ui_fewer id job work calls calls' tasks tasks' :
  (forall c, c ∈ calls' -> c ∈ calls \/ c.2 <> id) ->
  (forall s d, SendResponseOnIOThread s id d ∈ tasks' -> SendResponseOnIOThread s id d ∈ tasks) ->
  typed_ui id job work calls tasks -> typed_ui id job work calls' tasks'.
Proof.
  intros Hc Ht (Hw & Hcalls & Htasks). split; [done |]. split.
  - intros s' Hin. destruct (Hc _ Hin) as [Hin' |]; [by apply (Hcalls s') | done].
  - intros s' d Hin. by apply (Htasks s' d), Ht.
Qed.

(** The source is asked first, or has a callback: the type is on its way. *)
Lemma asked_is_typed id job s p work calls tasks :
  typed_ui id job (CallStartRequest s p id :: work) calls tasks \/ typed_io id job tasks ->
  typed_io id job tasks.
Proof.
  intros [[(l1 & l2 & s' & p' & Heq & Hl1) _] | ?]; [| done].
  destruct l1 as [| t l1]; simplify_eq/=. destruct (Hl1 s p). by left.
Qed.

Lemma called_is_typed id job s work calls tasks :
  (s, id) ∈ calls -> typed_ui id job work calls tasks \/ typed_io id job tasks -> typed_io id job tasks.
Proof. intros Hin [[_ [Hc _]] | ?]; [by destruct (Hc s) | done]. Qed.

(** An answer that is next is not ahead of the type. *)
Lemma answer_is_typed id job s d work calls tasks :
  ~ (typed_ui id job work calls (SendResponseOnIOThread s id d :: tasks) \/
     typed_io id job (SendResponseOnIOThread s id d :: tasks)).
Proof.
  intros [[_ [_ Ht]] | (l1 & l2 & m & Heq & Hl1)].
  - apply (Ht s d). by left.
  - destruct l1 as [| t l1]; simplify_eq/=. apply (Hl1 s d). by left.
Qed.

(** *** The moves keep the invariant *)
Lemma not_in_app_add (P : io_task -> option nat) tasks task :
  P task = None -> omap P (tasks ++ [task]) = omap P tasks.
Proof. intros HP. rewrite omap_app. simpl. by rewrite HP, app_nil_r. Qed.

Lemma ok_source v task :
  traffic_ok v -> add_io task = Some (v_next_impl v) ->
  traffic_ok (v <| v_io := v_io v ++ [task] |> <| v_next_impl := S (v_next_impl v) |>).
Proof.
  intros Hok Hadd. destruct task as [| | s]; simplify_eq/=. destruct Hok. split; simpl; auto.
  - intros id job s Hin. destruct (t_started0 _ _ _ Hin) as (? & ? & ?). repeat split; try done; lia.
  - intros id job s j Hin Hj Hw Hf. destruct (t_fresh0 _ _ _ _ Hin Hj Hw Hf) as [Hui | Hio].
    + left. eapply typed_ui_fewer; [| | exact Hui]; [by left |]. intros s' d. simpl.
      intros [? | ?%list_elem_of_singleton]%elem_of_app; done.
    + right. by apply typed_io_app.
  - unfold mimes. simpl. by rewrite not_in_app_add.
  - unfold mimes. simpl. by rewrite not_in_app_add.
  - intros s id d [? | ?%list_elem_of_singleton]%elem_of_app; [eauto | done].
  - intros id job s Hp Hs. destruct (t_reply0 _ _ _ Hp Hs) as [[? | [? | (d & ?)]] | ?]; [left.. | by right].
    + by left.
    + right. by left.
    + right. right. exists d. simpl. apply elem_of_app. by left.
  - rewrite omap_app. simpl. apply NoDup_app. split; [done |]. split; [| apply NoDup_singleton].
    intros s (t & Hin & Ht)%list_elem_of_omap. destruct t; simplify_eq/=.
    rewrite list_elem_of_singleton. intros ->. apply t_add0 in Hin as [? _]. lia.
  - intros s [Hin | [= ->]%list_elem_of_singleton]%elem_of_app.
    + destruct (t_add0 s Hin) as (? & ? & ?). repeat split; try done. lia.
    + split; [lia |]. split.
      * intros n Hn. apply t_sources0 in Hn. lia.
      * intros id job Hin. apply t_started0 in Hin. lia.
  - intros n s Hn. apply t_sources0 in Hn. lia.
Qed.

Lemma detached_insert s s' n (v : Traffic) :
  s' <> s -> detached s' v -> detached s' (v <| v_sources := <[n := s]> (v_sources v) |>).
Proof.
  intros Hne Hd m. simpl. destruct (decide (m = n)) as [-> | Hm].
  - rewrite lookup_insert_eq. congruence.
  - by rewrite lookup_insert_ne.
Qed.

(** A task of the IO thread that carries neither a type nor an answer is
    taken from its queue. *)
Lemma ok_add v s io :
  traffic_ok v -> v_io v = AddDataSourceOnIOThread s :: io ->
  traffic_ok (v <| v_io := io |>) /\ detached s v /\ (s < v_next_impl v)%nat /\
  (forall id job, ~ ((id, job, s) ∈ v_started v)) /\ ~ (AddDataSourceOnIOThread s ∈ io).
Proof.
  intros Hok Hio. destruct Hok.
  assert (Hin : AddDataSourceOnIOThread s ∈ v_io v) by (rewrite Hio; left).
  destruct (t_add0 s Hin) as (Hlt & Hdet & Hnot).
  split; [| split; [done | split; [done | split; [done |]]]].
  - split; simpl; auto.
    + intros id job s' j Hs Hj Hw Hf. destruct (t_fresh0 _ _ _ _ Hs Hj Hw Hf) as [Hui | Htio].
      * left. eapply typed_ui_fewer; [| | exact Hui]; [by left |]. intros s'' d. simpl.
        rewrite Hio. by right.
      * right. simpl. rewrite Hio in Htio. by eapply typed_io_tail; [| exact Htio].
    + unfold mimes in *. simpl. by rewrite Hio in t_mimes0.
    + intros job. unfold mimes in *. simpl. rewrite Hio in t_mime0. apply t_mime0.
    + intros s' id d Hin'. apply t_responses0. rewrite Hio. by right.
    + intros id job s' Hp Hs. destruct (t_reply0 _ _ _ Hp Hs) as [[? | [? | (d & Hd)]] | ?]; [left.. | by right].
      * by left.
      * right. by left.
      * right. right. exists d. simpl. rewrite Hio in Hd. apply elem_of_cons in Hd as [? | ?]; done.
    + rewrite Hio in t_adds0. simpl in t_adds0. by apply NoDup_cons in t_adds0 as [_ ?].
    + intros s' Hin'. apply t_add0. rewrite Hio. by right.
  - intros Hin'. rewrite Hio in t_adds0. simpl in t_adds0. apply NoDup_cons in t_adds0 as [Hn _].
    apply Hn, list_elem_of_omap. by exists (AddDataSourceOnIOThread s).
Qed.

Lemma ok_attach v s n :
  traffic_ok v -> (s < v_next_impl v)%nat -> (forall id job, ~ ((id, job, s) ∈ v_started v)) ->
  ~ (AddDataSourceOnIOThread s ∈ v_io v) ->
  traffic_ok (v <| v_sources := <[n := s]> (v_sources v) |>).
Proof.
  intros Hok Hlt Hnot Hadd. destruct Hok. split; simpl; auto.
  - intros id job s' Hp Hs. destruct (t_reply0 _ _ _ Hp Hs) as [? | [? | [Hd ?]]]; [by left | right..].
    + by left.
    + right. split; [| done]. apply detached_insert; [| done]. intros ->. by destruct (Hnot id job).
  - intros s' Hin. destruct (t_add0 _ Hin) as (? & ? & ?). split; [done |]. split; [| done].
    apply detached_insert; [| done]. by intros ->.
  - intros m s'. destruct (decide (m = n)) as [-> | Hm].
    + rewrite lookup_insert_eq. by intros [= <-].
    + rewrite lookup_insert_ne by done. apply t_sources0.
Qed.

Lemma coming_more s id (v v' : Traffic) :
  (forall p, CallStartRequest s p id ∈ v_work v -> coming s id v') ->
  (forall c, c ∈ v_callbacks v -> c.2 = id -> coming c.1 id v') ->
  (forall task, task ∈ v_io v -> task ∈ v_io v') -> coming s id v -> coming s id v'.
Proof.
  intros Hw Hc Ht [(p & Hp) | [Hin | (d & Hd)]]; [by eapply Hw | by apply (Hc (s, id)) |].
  right. right. exists d. by apply Ht.
Qed.

Lemma ok_mime_ui v s p job m work :
  traffic_ok v -> v_work v = GetMimeTypeOnUI s p job :: work ->
  traffic_ok (v <| v_work := work |> <| v_io := v_io v ++ [MimeTypeAvailable job m] |>).
Proof.
  intros Hok Hwork. destruct Hok.
  assert (Hperm : mimes (v <| v_work := work |> <| v_io := v_io v ++ [MimeTypeAvailable job m] |>)
                  ≡ₚ mimes v).
  { unfold mimes. simpl. rewrite Hwork, omap_app. simpl.
    rewrite (Permutation_app_comm (omap mime_io (v_io v))). simpl. by rewrite <- Permutation_middle. }
  split; simpl; auto.
  - intros id job' s' j Hs Hj Hw Hf. destruct (t_fresh0 _ _ _ _ Hs Hj Hw Hf) as [Hui | Hio].
    + destruct (decide (job' = job)) as [-> | Hne].
      * right. simpl. destruct Hui as (_ & _ & Hn). exists (v_io v), [], m. split; [done |].
        intros s'' d Hin. by apply (Hn s'' d).
      * left. simpl. rewrite Hwork in Hui. eapply typed_ui_tail in Hui; [| simpl; congruence].
        eapply typed_ui_fewer; [| | exact Hui]; [by left |]. intros s'' d.
        intros [? | ?%list_elem_of_singleton]%elem_of_app; done.
    + right. by apply typed_io_app.
  - by rewrite Hperm.
  - intros job'. rewrite Hperm. apply t_mime0.
  - intros s' p' id Hin. apply (t_calls0 s' p' id). rewrite Hwork. by right.
  - intros s' id d [? | ?%list_elem_of_singleton]%elem_of_app; [eauto | done].
  - intros id job' s' Hp Hs. destruct (t_reply0 _ _ _ Hp Hs) as [Hc | ?]; [left | by right].
    eapply coming_more; [.. | exact Hc]; simpl.
    + intros p'. rewrite Hwork. intros [? | Hin]%elem_of_cons; [done |]. left. by exists p'.
    + intros [s'' id'] Hin <-. right. by left.
    + intros t Ht. apply elem_of_app. by left.
  - by rewrite not_in_app_add.
  - intros s' [? | ?%list_elem_of_singleton]%elem_of_app; [by apply t_add0 | done].
Qed.

(** An answer is posted; the source may be asked no more. *)
Lemma ok_respond v s id d work :
  traffic_ok v -> small d = true ->
  (exists job, (id, job, s) ∈ v_started v) ->
  (forall job, before_data id job v -> typed_io id job (v_io v)) ->
  (v_work v = work \/ exists p, v_work v = CallStartRequest s p id :: work) ->
  traffic_ok (v <| v_work := work |> <| v_io := v_io v ++ [SendResponseOnIOThread s id d] |>
                <| v_answered := v_answered v ++ [(id, d)] |>).
Proof.
  intros Hok Hsmall Hstarted Hfirst Hwork.
  assert (Hmimes : omap mime_ui work = omap mime_ui (v_work v))
    by (destruct Hwork as [<- | (p & ->)]; done).
  assert (Hsub : forall task, task ∈ work -> task ∈ v_work v)
    by (intros task; destruct Hwork as [<- | (p & ->)]; [done | by right]).
  destruct Hok. split; simpl; auto.
  - intros id' job' s' j Hs Hj Hw Hf. destruct (decide (id' = id)) as [-> | Hne].
    + right. simpl. by apply typed_io_app, Hfirst, (t_fresh0 _ _ _ _ Hs Hj Hw Hf).
    + destruct (t_fresh0 _ _ _ _ Hs Hj Hw Hf) as [Hui | Hio]; [| right; by apply typed_io_app].
      left. simpl. assert (Hui' : typed_ui id' job' work (v_callbacks v) (v_io v)).
      { destruct Hwork as [<- | (p & Heq)]; [done |]. rewrite Heq in Hui. by eapply typed_ui_tail in Hui. }
      eapply typed_ui_fewer; [| | exact Hui']; [by left |]. intros s'' d'.
      intros [? | [= ? ? ?]%list_elem_of_singleton]%elem_of_app; congruence.
  - unfold mimes in *. simpl. by rewrite Hmimes, not_in_app_add.
  - unfold mimes in *. simpl. by rewrite Hmimes, not_in_app_add.
  - intros s' p' id' Hin. by eapply t_calls0, Hsub.
  - intros s' id' d' [Hin | [= -> -> ->]%list_elem_of_singleton]%elem_of_app.
    + destruct (t_responses0 _ _ _ Hin) as (? & ? & ?). repeat split; try done. set_solver.
    + repeat split; try done. set_solver.
  - intros id' job' s' Hp Hs. destruct (t_reply0 _ _ _ Hp Hs) as [Hc | [? | [Hd (d' & ?)]]].
    + left. eapply coming_more; [.. | exact Hc]; simpl.
      * intros p' Hin. destruct Hwork as [<- | (p & Heq)]; [left; by exists p' |].
        rewrite Heq in Hin. apply elem_of_cons in Hin as [[= -> -> ->] | Hin]; [| left; by exists p'].
        right. right. exists d. set_solver.
      * intros [s'' id''] Hin <-. right. by left.
      * intros t Ht. apply elem_of_app. by left.
    + right. by left.
    + right. right. split; [done |]. exists d'. set_solver.
  - by rewrite not_in_app_add.
  - intros s' [? | ?%list_elem_of_singleton]%elem_of_app; [by apply t_add0 | done].
  - intros id' job' s' j Hs Hj. destruct (t_data0 _ _ _ _ Hs Hj) as [H1 H2]. set_solver.
Qed.

Lemma ok_answer v s p id d work :
  traffic_ok v -> v_work v = CallStartRequest s p id :: work -> small d = true ->
  traffic_ok (v <| v_work := work |> <| v_io := v_io v ++ [SendResponseOnIOThread s id d] |>
                <| v_answered := v_answered v ++ [(id, d)] |>).
Proof.
  intros Hok Hwork Hsmall. apply ok_respond; try done.
  - apply (t_calls _ Hok s p id). rewrite Hwork. left.
  - intros job Hb. unfold before_data in Hb. rewrite Hwork in Hb. by eapply asked_is_typed.
  - right. by exists p.
Qed.

Lemma ok_callback v s id d :
  traffic_ok v -> (s, id) ∈ v_callbacks v -> small d = true ->
  traffic_ok (v <| v_io := v_io v ++ [SendResponseOnIOThread s id d] |>
                <| v_answered := v_answered v ++ [(id, d)] |>).
Proof.
  intros Hok Hin Hsmall. apply (ok_respond v s id d (v_work v)); try done.
  - by apply (t_callbacks _ Hok).
  - intros job Hb. by eapply called_is_typed.
  - by left.
Qed.

Lemma ok_keep v s p id work :
  traffic_ok v -> v_work v = CallStartRequest s p id :: work ->
  traffic_ok (v <| v_work := work |> <| v_callbacks := v_callbacks v ++ [(s, id)] |>).
Proof.
  intros Hok Hwork. destruct Hok. split; simpl; auto.
  - intros id' job' s' j Hs Hj Hw Hf. pose proof (t_fresh0 _ _ _ _ Hs Hj Hw Hf) as Hb.
    unfold before_data in *. simpl. rewrite Hwork in Hb. destruct (decide (id' = id)) as [-> | Hne].
    + right. by eapply asked_is_typed.
    + destruct Hb as [Hui | ?]; [left | by right]. apply typed_ui_tail in Hui; [| done].
      eapply typed_ui_fewer; [| | exact Hui]; [| done].
      intros c [? | ->%list_elem_of_singleton]%elem_of_app; [by left | by right].
  - unfold mimes in *. simpl. by rewrite Hwork in t_mimes0.
  - unfold mimes in *. simpl. by rewrite Hwork in t_mime0.
  - intros s' p' id' Hin. apply (t_calls0 s' p' id'). rewrite Hwork. by right.
  - intros s' id' [? | [= -> ->]%list_elem_of_singleton]%elem_of_app; [eauto |].
    apply (t_calls0 s p id). rewrite Hwork. left.
  - intros id' job' s' Hp Hs. destruct (t_reply0 _ _ _ Hp Hs) as [Hc | ?]; [left | by right].
    eapply coming_more; [.. | exact Hc]; simpl.
    + intros p'. rewrite Hwork. intros [[= -> -> ->] | Hin]%elem_of_cons; [| left; by exists p'].
      right. left. simpl. set_solver.
    + intros [s'' id''] Hin <-. right. left. simpl. set_solver.
    + done.
Qed.

Lemma ok_drop v k s id :
  traffic_ok v -> v_callbacks v !! k = Some (s, id) ->
  traffic_ok (v <| v_callbacks := delete k (v_callbacks v) |> <| v_dropped := v_dropped v ++ [id] |>).
Proof.
  intros Hok Hk. destruct Hok.
  assert (Hfew : forall c, c ∈ delete k (v_callbacks v) -> c ∈ v_callbacks v).
  { intros c Hc. rewrite (delete_Permutation _ _ _ Hk). by right. }
  split; simpl; auto.
  - intros id' job' s' j Hs Hj Hw Hf. destruct (t_fresh0 _ _ _ _ Hs Hj Hw Hf) as [Hui | ?]; [left | by right].
    eapply typed_ui_fewer; [| | exact Hui]; simpl; auto.
  - intros id' job' s' Hp Hs. destruct (decide (id' = id)) as [-> | Hne].
    { right. left. simpl. set_solver. }
    destruct (t_reply0 _ _ _ Hp Hs) as [[? | [Hin | ?]] | [? | ?]].
    + left. by left.
    + left. right. left. simpl. rewrite (delete_Permutation _ _ _ Hk) in Hin.
      apply elem_of_cons in Hin as [[= -> ->] | ?]; done.
    + left. right. by right.
    + right. left. simpl. set_solver.
    + right. by right.
Qed.

(** A task of the IO thread that does nothing. *)
Lemma ok_ignored v s id d io :
  traffic_ok v -> v_io v = SendResponseOnIOThread s id d :: io ->
  v_pending v !! id = None \/ detached s v ->
  traffic_ok (v <| v_io := io |>).
Proof.
  intros Hok Hio Hno. destruct Hok.
  assert (Hin : SendResponseOnIOThread s id d ∈ v_io v) by (rewrite Hio; left).
  destruct (t_responses0 _ _ _ Hin) as ((job0 & Hs0) & Hans & _).
  split; simpl; auto.
  - intros id' job' s' j Hs Hj Hw Hf. pose proof (t_fresh0 _ _ _ _ Hs Hj Hw Hf) as Hb.
    unfold before_data in *. simpl. rewrite Hio in Hb. destruct Hb as [Hui | Htio].
    + left. eapply typed_ui_fewer; [| | exact Hui]; [by left |]. by right.
    + right. by eapply typed_io_tail; [| exact Htio].
  - unfold mimes in *. simpl. by rewrite Hio in t_mimes0.
  - unfold mimes in *. simpl. by rewrite Hio in t_mime0.
  - intros s' id' d' Hin'. apply t_responses0. rewrite Hio. by right.
  - intros id' job' s' Hp Hs. destruct (t_reply0 _ _ _ Hp Hs) as [[? | [? | (d' & Hd')]] | ?].
    + left. by left.
    + left. right. by left.
    + rewrite Hio in Hd'. apply elem_of_cons in Hd' as [[= -> -> ->] | Hd'].
      * destruct Hno as [? | Hno]; [congruence |]. right. right. split; [done |]. by exists d.
      * left. right. right. by exists d'.
    + by right.
  - by rewrite Hio in t_adds0.
  - intros s' Hin'. apply t_add0. rewrite Hio. by right.
Qed.

Lemma ok_close v :
  traffic_ok v -> v_jobs v = ∅ -> (forall task, task ∈ v_io v -> add_io task = None) ->
  traffic_ok (v <| v_sources := ∅ |> <| v_alive := false |>).
Proof.
  intros Hok Hjobs Hadds. destruct Hok. split; simpl; auto.
  - intros id job s (s' & j & _ & Hj & _)%t_pending0. by rewrite Hjobs in Hj.
  - by intros s [=]%Hadds.
  - done.
Qed.

(** *** Moves of a job *)
Lemma with_v_job_lookup job job' j j' v :
  v_jobs (with_v_job job j v) !! job' = Some j' ->
  job' = job /\ j' = j \/ job' <> job /\ v_jobs v !! job' = Some j'.
Proof. simpl. intros [[-> ->] | [? ?]]%lookup_insert_Some; [by left | right; auto]. Qed.

(** A request has one job, a job one request. *)
Lemma same_request v id job job' s s' :
  traffic_ok v -> (id, job, s) ∈ v_started v -> (id, job', s') ∈ v_started v -> job = job' /\ s = s'.
Proof.
  intros Hok H1 H2. apply list_elem_of_lookup in H1 as (k1 & H1), H2 as (k2 & H2).
  pose proof (t_ids _ Hok) as Hnd. rewrite NoDup_alt in Hnd.
  assert (k1 = k2) as <- by (apply (Hnd _ _ id); rewrite list_lookup_fmap, ?H1, ?H2; done).
  by simplify_eq.
Qed.

Lemma same_job v id id' job s s' :
  traffic_ok v -> (id, job, s) ∈ v_started v -> (id', job, s') ∈ v_started v -> id = id' /\ s = s'.
Proof.
  intros Hok H1 H2. apply list_elem_of_lookup in H1 as (k1 & H1), H2 as (k2 & H2).
  pose proof (t_start_jobs _ Hok) as Hnd. rewrite NoDup_alt in Hnd.
  assert (k1 = k2) as <- by (apply (Hnd _ _ job); rewrite list_lookup_fmap, ?H1, ?H2; done).
  by simplify_eq.
Qed.

(** A job changes and keeps what the traffic needs of it. *)
Record replaces (j j' : URLRequestChromeJob) : Prop := {
  rep_ok : job_ok j';
  rep_backend : job_backend_ j' = job_backend_ j;
  rep_weak : weak_factory_ j' = true -> weak_factory_ j = true;
  rep_fresh : stage_of j' = Fresh <-> stage_of j = Fresh;
  rep_data : data_ j' = data_ j;
  rep_gave_up : gave_up (stage_of j') <-> gave_up (stage_of j);
  rep_refused : stage_of j' = Refused <-> stage_of j = Refused;
}.

Lemma ok_replace v job j j' :
  traffic_ok v -> v_jobs v !! job = Some j -> replaces j j' ->
  (forall id, v_pending v !! id = Some job -> weak_factory_ j' = true /\ awaiting j') ->
  traffic_ok (with_v_job job j' v).
Proof.
  intros Hok Hj [R1 R2 R3 R4 R5 R6 R7] Hpend. destruct Hok. split; auto.
  - intros id job' Hp. destruct (t_pending0 _ _ Hp) as (s & k & Hs & Hk & Hw & Hb & Ha).
    exists s. destruct (decide (job' = job)) as [-> | Hne].
    + exists j'. simpl. rewrite lookup_insert_eq. destruct (Hpend _ Hp).
      assert (k = j) as -> by congruence. do 3 (split; [done |]). split; [congruence | done].
    + exists k. simpl. rewrite lookup_insert_ne by done. done.
  - intros job' k [[-> ->] | [_ Hk]]%with_v_job_lookup; [| by apply t_jobs0].
    destruct (t_jobs0 _ _ Hj) as (? & ? & Hst). split; [done |]. split; [done |].
    rewrite R2, R4. exact Hst.
  - intros job' k [[-> ->] | [_ Hk]]%with_v_job_lookup Hn; [| by eapply t_unstarted0].
    destruct (t_unstarted0 _ _ Hj Hn) as [? ?]. rewrite R4, R5, R7. done.
  - intros job' k [[-> ->] | [_ Hk]]%with_v_job_lookup Hs; [| by eapply t_backend0].
    rewrite R2. by eapply t_backend0.
  - intros id job' s k Hs [[-> ->] | [_ Hk]]%with_v_job_lookup Hw Hf; [| by eapply t_fresh0].
    apply (t_fresh0 id job s j); auto. by apply R4.
  - intros job' Hin. destruct (t_mime0 _ Hin) as [Hs Hf]. split; [done |].
    intros k [[-> ->] | [_ Hk]]%with_v_job_lookup Hw; [| by eapply Hf]. apply R4. eapply Hf; auto.
  - intros id job' s k Hs [[-> ->] | [_ Hk]]%with_v_job_lookup; [| by eapply t_data0].
    rewrite R5, R6. by eapply t_data0.
  - intros id job' s k Hs [[-> ->] | [_ Hk]]%with_v_job_lookup Hw; [| by eapply t_done0].
    rewrite R5, R6. by apply (t_done0 id job s j); auto.
Qed.

Lemma ok_read v n job j j' rv :
  traffic_ok v -> v_jobs v !! job = Some j -> 0 < n <= INT_MAX ->
  stage_of j = Idle \/ stage_of j = Unasked -> ReadRawData n j = Ok (j', rv) ->
  traffic_ok (with_v_job job (notify (ReadReturns rv) j') v).
Proof.
  intros Hok Hj Hn Hst Hrun. destruct (t_jobs _ Hok _ _ Hj) as (_ & Hjok & _).
  destruct (read_ok n j Hjok Hst Hn) as (j1 & rv1 & Hrun' & Hnotes & Hw & Hb & Hd & Hrv & Hok1).
  rewrite Hrun in Hrun'. injection Hrun' as <- <-.
  assert (Hst' : stage_of j' = stage_of j) by (unfold stage_of; by rewrite Hnotes).
  assert (Hnext : stage_of (notify (ReadReturns rv) j') =
                  match stage_of j with
                  | Idle => match data_ j with Some _ => Idle | None => Waiting end
                  | _ => Stuck
                  end).
  { rewrite stage_notify, Hst'. pose proof (job_data _ Hjok) as Hdd.
    destruct (data_ j) as [d |] eqn:Hdata.
    - destruct Hdd as (_ & _ & -> & _). pose proof (job_data _ Hok1) as Hdd'. simpl in Hdd'.
      rewrite Hd in Hdd'. destruct Hdd' as (_ & _ & Hidle & _). rewrite stage_notify, Hst' in Hidle.
      destruct Hst as [Hst | Hst]; rewrite Hst in Hidle; by destruct rv.
    - rewrite (Hrv eq_refl). by destruct Hst as [-> | ->]. }
  eapply ok_replace; [done | exact Hj | |].
  - split; simpl; try done; rewrite ?Hnext.
    + by rewrite Hw.
    + destruct Hst as [-> | ->]; [by destruct (data_ j) | done].
    + unfold gave_up. destruct Hst as [-> | ->]; [destruct (data_ j) | ]; naive_solver.
    + destruct Hst as [-> | ->]; [by destruct (data_ j) | done].
  - intros id Hp. destruct (t_pending _ Hok _ _ Hp) as (s & k & Hs & Hk & Hwk & Hbk & Hnone & Hsk).
    assert (k = j) as -> by congruence. simpl. rewrite Hw. split; [done |]. split.
    + simpl. by rewrite Hd.
    + rewrite Hnext, Hnone. destruct Hst as [-> | Hst]; [by auto |]. rewrite Hst in Hsk. naive_solver.
Qed.

(** The task of a type leaves the queue; other jobs do not depend on it. *)
Lemma mime_popped v job m io :
  traffic_ok v -> v_io v = MimeTypeAvailable job m :: io ->
  mimes v ≡ₚ job :: mimes (v <| v_io := io |>) /\
  forall id job' s j, (id, job', s) ∈ v_started v -> v_jobs v !! job' = Some j ->
    weak_factory_ j = true -> stage_of j = Fresh -> job' <> job ->
    before_data id job' (v <| v_io := io |>).
Proof.
  intros Hok Hio. split.
  - unfold mimes. simpl. rewrite Hio. simpl. by rewrite <- Permutation_middle.
  - intros id job' s j Hs Hj Hw Hf Hne. pose proof (t_fresh _ Hok _ _ _ _ Hs Hj Hw Hf) as Hb.
    unfold before_data in *. simpl. rewrite Hio in Hb. destruct Hb as [Hui | Htio].
    + left. eapply typed_ui_fewer; [| | exact Hui]; [by left |]. by right.
    + right. eapply typed_io_tail; [| exact Htio]. simpl. congruence.
Qed.

(** The queue without the task of a type: answers and additions are left. *)
Lemma mime_popped_queue v job m io :
  traffic_ok v -> v_io v = MimeTypeAvailable job m :: io ->
  (forall s id d, SendResponseOnIOThread s id d ∈ io ->
     (exists job, (id, job, s) ∈ v_started v) /\ (id, d) ∈ v_answered v /\ small d = true) /\
  (forall id job s, v_pending v !! id = Some job -> (id, job, s) ∈ v_started v ->
     coming s id (v <| v_io := io |>) \/ lost s id (v <| v_io := io |>)) /\
  NoDup (omap add_io io) /\
  (forall s, AddDataSourceOnIOThread s ∈ io ->
     (s < v_next_impl v)%nat /\ detached s v /\ forall id job, ~ ((id, job, s) ∈ v_started v)).
Proof.
  intros Hok Hio. destruct Hok. split; [| split; [| split]].
  - intros s id d Hin. apply t_responses0. rewrite Hio. by right.
  - intros id job' s Hp Hs. destruct (t_reply0 _ _ _ Hp Hs) as [Hc | ?]; [left | by right].
    destruct Hc as [? | [? | (d & Hd)]]; [by left | by right; left |]. right. right. exists d.
    rewrite Hio in Hd. apply elem_of_cons in Hd as [? | ?]; done.
  - by rewrite Hio in t_adds0.
  - intros s Hin. apply t_add0. rewrite Hio. by right.
Qed.

(** The job of the type is gone, or was killed. *)
Lemma ok_mime_ignored v job m io :
  traffic_ok v -> v_io v = MimeTypeAvailable job m :: io ->
  (forall j, v_jobs v !! job = Some j -> weak_factory_ j = true -> stage_of j <> Fresh) ->
  traffic_ok (v <| v_io := io |>).
Proof.
  intros Hok Hio Hgone. destruct (mime_popped _ _ _ _ Hok Hio) as [Hmimes Hfirst].
  destruct (mime_popped_queue _ _ _ _ Hok Hio) as (Hr & Hp & Ha & Hadd).
  pose proof (t_mimes _ Hok) as Hnd. rewrite Hmimes in Hnd. apply NoDup_cons in Hnd as [Hnin Hnd].
  destruct Hok. split; simpl; auto.
  - intros id job' s j Hs Hj Hw Hf. eapply Hfirst; try done. intros ->. by eapply Hgone.
  - intros job' Hin. apply t_mime0. rewrite Hmimes. by right.
Qed.

Lemma ok_mime_told v job m io j :
  traffic_ok v -> v_io v = MimeTypeAvailable job m :: io -> v_jobs v !! job = Some j ->
  weak_factory_ j = true ->
  traffic_ok (with_v_job job (Job_MimeTypeAvailable m j) (v <| v_io := io |>)).
Proof.
  intros Hok Hio Hj Hw. destruct (mime_popped _ _ _ _ Hok Hio) as [Hmimes Hfirst].
  destruct (mime_popped_queue _ _ _ _ Hok Hio) as (Hr & Hp & Ha & Hadd).
  pose proof (t_mimes _ Hok) as Hnd. rewrite Hmimes in Hnd. apply NoDup_cons in Hnd as [Hnin Hnd].
  destruct (t_mime _ Hok job) as [Hst Hfr]; [rewrite Hmimes; left |].
  specialize (Hfr j Hj Hw). destruct (t_jobs _ Hok _ _ Hj) as (Hlt & Hjok & _).
  destruct (mime_available_ok m j Hjok Hfr) as [Hjok' Hidle].
  assert (Hback : job_backend_ j = true) by (by eapply t_backend).
  assert (Hnone : data_ j = None).
  { pose proof (job_data _ Hjok) as Hd. destruct (data_ j); [| done].
    destruct Hd as (_ & _ & Hd & _). congruence. }
  destruct Hok. split; auto.
  - intros id job' Hp'. destruct (t_pending0 _ _ Hp') as (s & k & Hs & Hk & Hwk & Hb & Ha').
    exists s. simpl. destruct (decide (job' = job)) as [-> | Hne]; [| exists k; by rewrite lookup_insert_ne].
    rewrite lookup_insert_eq. eexists. do 4 (split; [done |]). split; [done |]. rewrite Hidle. auto.
  - intros job' k [[-> ->] | [_ Hk]]%with_v_job_lookup; [| by apply t_jobs0].
    split; [done |]. split; [done |]. simpl. congruence.
  - intros job' k [[-> ->] | [_ Hk]]%with_v_job_lookup Hn; [| by eapply t_unstarted0]. by destruct Hn.
  - intros job' k [[-> ->] | [_ Hk]]%with_v_job_lookup Hs; [done | by eapply t_backend0].
  - intros id job' s k Hs [[-> ->] | [Hne Hk]]%with_v_job_lookup Hwk Hf; [congruence |].
    by eapply Hfirst.
  - intros job' Hin. destruct (t_mime0 job') as [? Hf]; [rewrite Hmimes; by right |].
    split; [done |]. intros k [[-> ->] | [_ Hk]]%with_v_job_lookup Hwk; [| by eapply Hf]. done.
  - intros id job' s k Hs [[-> ->] | [_ Hk]]%with_v_job_lookup; [| by eapply t_data0].
    rewrite Hidle. split; [simpl; congruence |]. unfold gave_up. naive_solver.
  - intros id job' s k Hs [[-> ->] | [_ Hk]]%with_v_job_lookup Hwk; [| by eapply t_done0].
    destruct (t_done0 id job s j Hs Hj Hw) as [? | [[d Hd] | Hg]]; [by left | congruence |].
    rewrite Hfr in Hg. unfold gave_up in Hg. naive_solver.
Qed.

Lemma ok_mime_io v job m io :
  traffic_ok v -> v_io v = MimeTypeAvailable job m :: io ->
  traffic_ok (match v_jobs v !! job with
              | Some j => if weak_factory_ j then with_v_job job (Job_MimeTypeAvailable m j) (v <| v_io := io |>)
                          else v <| v_io := io |>
              | None => v <| v_io := io |>
              end).
Proof.
  intros Hok Hio. destruct (v_jobs v !! job) as [j |] eqn:Hj.
  - destruct (weak_factory_ j) eqn:Hw; [by eapply ok_mime_told |].
    eapply ok_mime_ignored; [done | exact Hio |]. congruence.
  - eapply ok_mime_ignored; [done | exact Hio |]. congruence.
Qed.

(** The job of an answer was told the type, and takes the data. *)
Lemma data_delivered v s id d io job j :
  traffic_ok v -> v_io v = SendResponseOnIOThread s id d :: io -> v_pending v !! id = Some job ->
  v_jobs v !! job = Some j ->
  (id, job, s) ∈ v_started v /\ (id, d) ∈ v_answered v /\ weak_factory_ j = true /\
  job_backend_ j = true /\ stage_of j <> Fresh /\
  exists j', Job_DataAvailable d j = Ok j' /\ job_ok j' /\
    weak_factory_ j' = true /\ job_backend_ j' = true /\
    stage_of j' <> Fresh /\ stage_of j' <> Refused /\ (is_Some (data_ j') \/ gave_up (stage_of j')) /\
    (forall d', data_ j' = Some d' -> d = Some d') /\ (gave_up (stage_of j') -> d = None).
Proof.
  intros Hok Hio Hp Hj.
  assert (Hin : SendResponseOnIOThread s id d ∈ v_io v) by (rewrite Hio; left).
  destruct (t_responses _ Hok _ _ _ Hin) as ((job0 & Hs0) & Hans & Hsmall).
  destruct (t_pending _ Hok _ _ Hp) as (s1 & k & Hs1 & Hk & Hw & Hb & Hnone & Hst).
  assert (k = j) as -> by congruence. destruct (same_request _ _ _ _ _ _ Hok Hs1 Hs0) as [<- ->].
  assert (Hfresh : stage_of j <> Fresh).
  { intros Hf. pose proof (t_fresh _ Hok _ _ _ _ Hs1 Hj Hw Hf) as Hbd. unfold before_data in Hbd.
    rewrite Hio in Hbd. by eapply answer_is_typed. }
  do 5 (split; [done |]). destruct (t_jobs _ Hok _ _ Hj) as (Hlt & Hjok & _).
  destruct (data_available_ok d j Hjok Hnone) as (j' & Hrun & Hjok' & Hw' & Hb' & Hres);
    [naive_solver | done |].
  exists j'. split; [done |]. split; [done |]. split; [congruence |]. split; [congruence |].
  destruct d as [d |].
  - destruct Hres as [Hd ->]. do 2 (split; [done |]). split; [left; rewrite Hd; by eexists |].
    split; [congruence |]. by intros [? | [? | ?]].
  - destruct Hres as [Hd Hg]. split; [by destruct Hg as [-> | [-> | ->]] |].
    split; [by destruct Hg as [-> | [-> | ->]] |]. split; [by right |]. split; [congruence | done].
Qed.

Lemma ok_data v s id d io job j j' :
  traffic_ok v -> v_io v = SendResponseOnIOThread s id d :: io -> v_pending v !! id = Some job ->
  v_jobs v !! job = Some j -> Job_DataAvailable d j = Ok j' ->
  traffic_ok (with_v_job job j' (v <| v_io := io |> <| v_pending := delete id (v_pending v) |>)).
Proof.
  intros Hok Hio Hp Hj Hrun. destruct (data_delivered _ _ _ _ _ _ _ Hok Hio Hp Hj)
    as (Hs1 & Hans & Hw & Hb & Hfresh & j1 & Hrun1 & Hjok1 & Hw1 & Hb1 & Hnf & Hnr & Hend & Hdata & Hgave).
  rewrite Hrun in Hrun1. injection Hrun1 as <-. destruct (t_jobs _ Hok _ _ Hj) as (Hlt & _ & _).
  destruct Hok. split; auto.
  - intros id' job' Hp'. simpl in Hp'. apply lookup_delete_Some in Hp' as [Hne Hp'].
    destruct (t_pending0 _ _ Hp') as (s' & k & Hs' & Hk' & Hrest). exists s', k. simpl.
    rewrite lookup_insert_ne; [done |]. intros <-.
    destruct (same_job v id id' job s s') as [? _]; [by constructor | done..].
  - intros job' k [[-> ->] | [_ Hk']]%with_v_job_lookup; [| by apply t_jobs0].
    split; [done |]. split; [done |]. congruence.
  - intros job' k [[-> ->] | [_ Hk']]%with_v_job_lookup Hn; [| by eapply t_unstarted0].
    destruct Hn. by exists id, s.
  - intros job' k [[-> ->] | [_ Hk']]%with_v_job_lookup Hs; [congruence | by eapply t_backend0].
  - intros id' job' s' k Hs [[-> ->] | [_ Hk']]%with_v_job_lookup Hwk Hf; [done |].
    pose proof (t_fresh0 _ _ _ _ Hs Hk' Hwk Hf) as Hbd. unfold before_data in *. simpl.
    rewrite Hio in Hbd. destruct Hbd as [Hui | Htio].
    + left. eapply typed_ui_fewer; [| | exact Hui]; [by left |]. by right.
    + right. by eapply typed_io_tail; [| exact Htio].
  - unfold mimes in *. simpl. by rewrite Hio in t_mimes0.
  - intros job' Hin'. assert (Hin'' : job' ∈ mimes v) by (unfold mimes in *; simpl in *; by rewrite Hio).
    destruct (t_mime0 _ Hin'') as [? Hf]. split; [done |].
    intros k [[-> ->] | [_ Hk']]%with_v_job_lookup Hwk; [| by eapply Hf].
    destruct Hfresh. by apply Hf.
  - intros s' id' d' Hin'. apply t_responses0. rewrite Hio. by right.
  - intros id' job' s' Hp' Hs. simpl in Hp'. apply lookup_delete_Some in Hp' as [Hne Hp'].
    destruct (t_reply0 _ _ _ Hp' Hs) as [[? | [? | (d' & Hd)]] | ?]; [left.. | by right].
    + by left.
    + right. by left.
    + right. right. exists d'. simpl. rewrite Hio in Hd.
      apply elem_of_cons in Hd as [[= -> -> ->] | ?]; done.
  - simpl. by rewrite Hio in t_adds0.
  - intros s' Hin'. apply t_add0. rewrite Hio. by right.
  - intros id' job' s' k Hs [[-> ->] | [_ Hk']]%with_v_job_lookup; [| by eapply t_data0].
    destruct (same_job v id id' job s s') as [<- <-]; [by constructor | done..|].
    split; [intros d' Hd'; by rewrite <- (Hdata _ Hd') | intros Hg; by rewrite <- (Hgave Hg)].
  - intros id' job' s' k Hs [[-> ->] | [Hne Hk']]%with_v_job_lookup Hwk; [by right |].
    destruct (t_done0 _ _ _ _ Hs Hk' Hwk) as [Hp' | ?]; [| by right]. left. simpl.
    rewrite lookup_delete_ne; [done |]. intros <-. congruence.
Qed.

Lemma ok_create v u incognito :
  traffic_ok v ->
  traffic_ok (with_v_job (v_next_job v) (URLRequestChromeJob_new u incognito) v
                <| v_next_job := S (v_next_job v) |>).
Proof.
  intros Hok. assert (Hnew : forall job, is_started job v -> job <> v_next_job v).
  { intros job (id & s & Hs) ->. apply (t_started _ Hok) in Hs. lia. }
  destruct Hok. split; simpl; auto.
  - intros id job s Hs. destruct (t_started0 _ _ _ Hs) as (? & ? & ?). repeat split; try done; lia.
  - intros id job Hp. destruct (t_pending0 _ _ Hp) as (s & k & Hs & Hk & Hrest). exists s, k.
    rewrite lookup_insert_ne; [done |]. intros <-. by apply (Hnew (v_next_job v)); [exists id, s |].
  - intros job k [[<- <-] | [_ Hk]]%lookup_insert_Some.
    + split; [lia |]. split; [apply new_job_ok | done].
    + destruct (t_jobs0 _ _ Hk) as (? & ? & ?). split; [lia | done].
  - intros job k [[<- <-] | [_ Hk]]%lookup_insert_Some Hn; [| by eapply t_unstarted0].
    split; [done | by left].
  - intros job k [[<- <-] | [_ Hk]]%lookup_insert_Some Hs; [by apply Hnew in Hs | by eapply t_backend0].
  - intros id job s k Hs [[<- <-] | [_ Hk]]%lookup_insert_Some; [| by eapply t_fresh0].
    destruct (Hnew (v_next_job v)); [by exists id, s | done].
  - intros job Hin. destruct (t_mime0 _ Hin) as [Hs Hf]. split; [done |].
    intros k [[<- <-] | [_ Hk]]%lookup_insert_Some; [by apply Hnew in Hs | by apply Hf].
  - intros id job s k Hs [[<- <-] | [_ Hk]]%lookup_insert_Some; [| by eapply t_data0].
    destruct (Hnew (v_next_job v)); [by exists id, s | done].
  - intros id job s k Hs [[<- <-] | [_ Hk]]%lookup_insert_Some; [| by eapply t_done0].
    destruct (Hnew (v_next_job v)); [by exists id, s | done].
Qed.

Lemma ok_refused v job j :
  traffic_ok v -> v_jobs v !! job = Some j -> job_backend_ j = false -> ~ is_started job v ->
  traffic_ok (with_v_job job (notify NotifyStartError (j <| job_backend_ := true |>)) v).
Proof.
  intros Hok Hj Hb Hn. destruct (t_jobs _ Hok _ _ Hj) as (Hlt & Hjok & Hfresh).
  specialize (Hfresh Hb). destruct (t_unstarted _ Hok _ _ Hj Hn) as [Hnone _].
  set (j1 := j <| job_backend_ := true |>). set (j' := notify _ j1).
  assert (Hst1 : stage_of j1 = Fresh) by done.
  assert (Hst : stage_of j' = Refused) by (unfold j'; by rewrite stage_notify, Hst1).
  assert (Hok' : job_ok j').
  { apply quiet_notify_ok; try done.
    - by apply (same_job_ok j).
    - pose proof (job_data _ Hjok) as Hd. rewrite Hnone in Hd.
      destruct Hd as [_ [[_ ?] | [[? | [? | ?]] _]]]; [done | congruence..].
    - rewrite Hst1. right. by left. }
  assert (Hno : forall id s, ~ ((id, job, s) ∈ v_started v)) by (intros id s Hs; apply Hn; by exists id, s).
  destruct Hok. split; auto.
  - intros id job' Hp. destruct (t_pending0 _ _ Hp) as (s & k & Hs & Hk & Hrest). exists s, k. simpl.
    rewrite lookup_insert_ne; [done |]. intros <-. by apply Hno in Hs.
  - intros job' k [[-> ->] | [_ Hk]]%with_v_job_lookup; [| by apply t_jobs0]. done.
  - intros job' k [[-> ->] | [_ Hk]]%with_v_job_lookup Hn'; [| by eapply t_unstarted0].
    split; [done | by right].
  - intros job' k [[-> ->] | [_ Hk]]%with_v_job_lookup Hs; [done | by eapply t_backend0].
  - intros id job' s k Hs [[-> ->] | [_ Hk]]%with_v_job_lookup; [by apply Hno in Hs | by eapply t_fresh0].
  - intros job' Hin. destruct (t_mime0 _ Hin) as [Hs Hf]. split; [done |].
    intros k [[-> ->] | [_ Hk]]%with_v_job_lookup; [by apply Hn in Hs | by apply Hf].
  - intros id job' s k Hs [[-> ->] | [_ Hk]]%with_v_job_lookup; [by apply Hno in Hs | by eapply t_data0].
  - intros id job' s k Hs [[-> ->] | [_ Hk]]%with_v_job_lookup; [by apply Hno in Hs | by eapply t_done0].
Qed.

Lemma ok_kill v job j :
  traffic_ok v -> v_jobs v !! job = Some j ->
  traffic_ok (with_v_job job (j <| weak_factory_ := false |>) v
                <| v_pending := filter (fun e => e.2 <> job) (v_pending v) |>).
Proof.
  intros Hok Hj.
  assert (Hkept : forall id job', filter (fun e : Z * nat => e.2 <> job) (v_pending v) !! id = Some job' <->
    v_pending v !! id = Some job' /\ job' <> job) by (intros; apply map_lookup_filter_Some).
  set (j' := j <| weak_factory_ := false |>).
  destruct Hok. split; simpl; auto.
  - intros id job' [Hp Hne]%Hkept. destruct (t_pending0 _ _ Hp) as (s & k & Hs & Hk & Hrest).
    exists s, k. by rewrite lookup_insert_ne.
  - intros job' k [[<- <-] | [_ Hk]]%lookup_insert_Some; [| by apply t_jobs0].
    destruct (t_jobs0 _ _ Hj) as (? & ? & ?). split; [done |]. split; [by apply (same_job_ok j) | done].
  - intros job' k [[<- <-] | [_ Hk]]%lookup_insert_Some Hn; [| by eapply t_unstarted0].
    by apply (t_unstarted0 job j).
  - intros job' k [[<- <-] | [_ Hk]]%lookup_insert_Some Hs; [| by eapply t_backend0].
    by apply (t_backend0 job j).
  - intros id job' s k Hs [[<- <-] | [_ Hk]]%lookup_insert_Some Hw; [done | by eapply t_fresh0].
  - intros job' Hin. destruct (t_mime0 _ Hin) as [Hs Hf]. split; [done |].
    intros k [[<- <-] | [_ Hk]]%lookup_insert_Some Hw; [done | by apply Hf].
  - intros id job' s [Hp Hne]%Hkept. by apply t_reply0.
  - intros id job' s k Hs [[<- <-] | [_ Hk]]%lookup_insert_Some; [| by eapply t_data0].
    by apply (t_data0 id job s j).
  - intros id job' s k Hs [[<- <-] | [Hne Hk]]%lookup_insert_Some Hw; [done |].
    destruct (t_done0 _ _ _ _ Hs Hk Hw) as [Hp | ?]; [left | by right]. apply Hkept. auto.
Qed.

Lemma ok_destroy v job j :
  traffic_ok v -> v_jobs v !! job = Some j -> weak_factory_ j = false \/ job_backend_ j = false ->
  traffic_ok (v <| v_jobs := delete job (v_jobs v) |>).
Proof.
  intros Hok Hj Hgone. destruct Hok. split; simpl; auto.
  - intros id job' Hp. destruct (t_pending0 _ _ Hp) as (s & k & Hs & Hk & Hw & Hb & Ha). exists s, k.
    rewrite lookup_delete_ne; [done |]. intros <-. destruct Hgone; congruence.
  - intros job' k [_ Hk]%lookup_delete_Some. by apply t_jobs0.
  - intros job' k [_ Hk]%lookup_delete_Some. by apply t_unstarted0.
  - intros job' k [_ Hk]%lookup_delete_Some. by apply t_backend0.
  - intros id job' s k Hs [_ Hk]%lookup_delete_Some. by apply (t_fresh0 id job' s k).
  - intros job' Hin. destruct (t_mime0 _ Hin) as [Hs Hf]. split; [done |].
    intros k [_ Hk]%lookup_delete_Some. by apply Hf.
  - intros id job' s k Hs [_ Hk]%lookup_delete_Some. by apply (t_data0 id job' s k).
  - intros id job' s k Hs [_ Hk]%lookup_delete_Some. by apply (t_done0 id job' s k).
Qed.

(** The next number is unknown to everybody. *)
Lemma number_unused v :
  traffic_ok v ->
  (forall job s, ~ ((v_next_id v, job, s) ∈ v_started v)) /\
  (forall s, ~ ((s, v_next_id v) ∈ v_callbacks v)) /\
  (forall s d, ~ (SendResponseOnIOThread s (v_next_id v) d ∈ v_io v)) /\
  (forall s p, ~ (CallStartRequest s p (v_next_id v) ∈ v_work v)).
Proof.
  intros Hok. assert (Hnew : forall job s, ~ ((v_next_id v, job, s) ∈ v_started v))
    by (intros job s Hs; apply (t_started _ Hok) in Hs; lia).
  split; [done |]. split; [| split].
  - intros s Hin. destruct (t_callbacks _ Hok _ _ Hin) as [job Hs]. by apply Hnew in Hs.
  - intros s d Hin. destruct (t_responses _ Hok _ _ _ Hin) as ((job & Hs) & _). by apply Hnew in Hs.
  - intros s p Hin. destruct (t_calls _ Hok _ _ _ Hin) as [job Hs]. by apply Hnew in Hs.
Qed.

Lemma start_distinct v job s :
  traffic_ok v -> ~ is_started job v ->
  NoDup ((fun e => e.1.1) <$> v_started v ++ [(v_next_id v, job, s)]) /\
  NoDup ((fun e => e.1.2) <$> v_started v ++ [(v_next_id v, job, s)]).
Proof.
  intros Hok Hnot. destruct (number_unused v Hok) as (Hnew & _).
  rewrite !fmap_app, !NoDup_app. split.
  - split; [by apply t_ids |]. split; [| apply NoDup_singleton].
    intros id ([[id' job'] s'] & -> & Hs)%list_elem_of_fmap. simpl.
    rewrite list_elem_of_singleton. intros ->. by apply Hnew in Hs.
  - split; [by apply t_start_jobs |]. split; [| apply NoDup_singleton].
    intros job1 ([[id' job'] s'] & -> & Hs)%list_elem_of_fmap. simpl.
    rewrite list_elem_of_singleton. intros ->. apply Hnot. by exists id', s'.
Qed.

(** The traffic when a request was started. *)
Definition started_traffic v job j s p source : Traffic :=
  with_v_job job (configure source (j <| job_backend_ := true |>))
    (v <| v_pending := <[v_next_id v := job]> (v_pending v) |>)
    <| v_next_id := v_next_id v + 1 |>
    <| v_started := v_started v ++ [(v_next_id v, job, s)] |>
    <| v_work := v_work v ++ [GetMimeTypeOnUI s p job; CallStartRequest s p (v_next_id v)] |>.

Lemma started_cases v job j s p source id job' s' :
  (id, job', s') ∈ v_started (started_traffic v job j s p source) ->
  (id, job', s') ∈ v_started v \/ id = v_next_id v /\ job' = job /\ s' = s.
Proof. simpl. intros [? | [= -> -> ->]%list_elem_of_singleton]%elem_of_app; auto. Qed.

(** The tasks that carry the type. *)
Lemma start_mimes v job j s p source :
  mimes (started_traffic v job j s p source) ≡ₚ job :: mimes v.
Proof.
  unfold mimes. simpl. rewrite omap_app. simpl. rewrite <- app_assoc. simpl.
  by rewrite <- Permutation_middle.
Qed.

(** The answer of every request is still to come, the new one's included. *)
Lemma start_replies v job j s p source id job' s' :
  traffic_ok v ->
  v_pending (started_traffic v job j s p source) !! id = Some job' ->
  (id, job', s') ∈ v_started (started_traffic v job j s p source) ->
  coming s' id (started_traffic v job j s p source) \/ lost s' id (started_traffic v job j s p source).
Proof.
  intros Hok Hp [Hs | (-> & -> & ->)]%started_cases.
  - simpl in Hp. apply lookup_insert_Some in Hp as [[<- _] | [_ Hp]].
    { by apply (proj1 (number_unused v Hok)) in Hs. }
    destruct (t_reply _ Hok _ _ _ Hp Hs) as [[(p' & ?) | [? | ?]] | ?]; [left.. | by right].
    + left. exists p'. simpl. set_solver.
    + right. by left.
    + right. by right.
  - left. left. exists p. simpl. set_solver.
Qed.

Lemma start_asks v job j s p source s' p' id :
  traffic_ok v -> CallStartRequest s' p' id ∈ v_work (started_traffic v job j s p source) ->
  exists job', (id, job', s') ∈ v_started (started_traffic v job j s p source).
Proof.
  simpl. intros Hok [Hin | Hin]%elem_of_app.
  - destruct (t_calls _ Hok _ _ _ Hin) as [job' ?]. exists job'. set_solver.
  - exists job. apply elem_of_cons in Hin as [? | [= -> -> ->]%list_elem_of_singleton]; [done | set_solver].
Qed.

(** The request gets the next number, and its two tasks are posted in order. *)
Lemma ok_start v job j s p n source :
  traffic_ok v -> v_jobs v !! job = Some j -> job_backend_ j = false -> weak_factory_ j = true ->
  v_sources v !! n = Some s -> v_next_id v < INT_MAX ->
  traffic_ok (started_traffic v job j s p source).
Proof.
  intros Hok Hj Hb Hw Hn Hlt. set (j' := configure source (j <| job_backend_ := true |>)).
  assert (Hnot : ~ is_started job v) by (intros Hs; by rewrite (t_backend _ Hok _ _ Hj Hs) in Hb).
  destruct (t_jobs _ Hok _ _ Hj) as (Hjlt & Hjok & Hf). specialize (Hf Hb).
  destruct (t_unstarted _ Hok _ _ Hj Hnot) as [Hnone _].
  assert (Hjok' : job_ok j') by (by apply (same_job_ok j)).
  assert (Hst' : stage_of j' = Fresh) by done.
  assert (Hmim : ~ (job ∈ mimes v)) by (intros Hin; by destruct (t_mime _ Hok _ Hin)).
  destruct (number_unused v Hok) as (Hnew & Hcalls & Hresp & Hask).
  destruct (start_distinct v job s Hok Hnot) as [Hids Hjobs].
  pose proof (started_cases v job j s p source) as Hlist.
  pose proof (start_mimes v job j s p source) as Hperm.
  pose proof (fun id job' s' => start_replies v job j s p source id job' s' Hok) as Hreply.
  pose proof (fun s' p' id => start_asks v job j s p source s' p' id Hok) as Hasks.
  assert (Hold : forall id job' s' (P : Prop), (id, job', s') ∈ v_started v -> job' = job -> P)
    by (intros id job' s' P Hs ->; destruct Hnot; by exists id, s').
  assert (Hcase : forall job' k, v_jobs (started_traffic v job j s p source) !! job' = Some k ->
    job' = job /\ k = j' \/ job' <> job /\ v_jobs v !! job' = Some k)
    by (intros job' k Hk; by apply (with_v_job_lookup job job' j' k v)).
  destruct Hok. split; auto.
  - simpl. lia.
  - intros id job' s' [Hs | (-> & -> & ->)]%Hlist; simpl.
    + destruct (t_started0 _ _ _ Hs) as (? & ? & ?). repeat split; try done; lia.
    + split; [lia |]. split; [done |]. by apply t_sources0 in Hn.
  - simpl. intros id job' [[<- <-] | [_ Hp]]%lookup_insert_Some.
    + exists s, j'. rewrite lookup_insert_eq. split; [set_solver |]. do 3 (split; [done |]).
      split; [done | by left].
    + destruct (t_pending0 _ _ Hp) as (s' & k & Hs & Hk & Hrest). exists s', k.
      rewrite lookup_insert_ne; [split; [set_solver | done] |]. intros <-. by eapply Hold.
  - intros job' k [[-> ->] | [_ Hk]]%Hcase; [done | by apply t_jobs0].
  - intros job' k [[-> ->] | [_ Hk]]%Hcase Hno.
    + destruct Hno. exists (v_next_id v), s. simpl. set_solver.
    + apply (t_unstarted0 job' k Hk). intros (id & s' & Hs). apply Hno. exists id, s'. simpl. set_solver.
  - intros job' k [[-> ->] | [Hne Hk]]%Hcase; [done |].
    intros (id & s' & [Hs | (-> & -> & ->)]%Hlist); [| done]. apply (t_backend0 job' k Hk). by exists id, s'.
  - intros id job' s' k [Hs | (-> & -> & ->)]%Hlist [[Hj' ->] | [Hne Hk]]%Hcase Hwk Hfk; try done.
    + by eapply Hold.
    + destruct (t_fresh0 _ _ _ _ Hs Hk Hwk Hfk) as [? | ?]; [left | by right]. by apply typed_ui_app.
    + left. split; [| done]. exists (v_work v), [CallStartRequest s p (v_next_id v)], s, p. done.
  - rewrite Hperm. by apply NoDup_cons.
  - intros job'. rewrite Hperm. intros [-> | Hin]%elem_of_cons.
    + split; [exists (v_next_id v), s; simpl; set_solver |]. by intros k [[_ ->] | [? _]]%Hcase.
    + destruct (t_mime0 _ Hin) as [(id & s' & Hs) Hfr]. split; [exists id, s'; simpl; set_solver |].
      intros k [[-> ->] | [_ Hk]]%Hcase; [done | by apply Hfr].
  - intros s' id Hin. destruct (t_callbacks0 _ _ Hin) as [job' ?]. exists job'. simpl. set_solver.
  - intros s' id d Hin. destruct (t_responses0 _ _ _ Hin) as ((job' & ?) & ?).
    split; [exists job'; simpl; set_solver | done].
  - intros s' Hin. destruct (t_add0 _ Hin) as (? & Hd & Hno). split; [done |]. split; [done |].
    intros id job' [Hs | (-> & -> & ->)]%Hlist; [by eapply Hno |]. by apply (Hd n).
  - intros id job' s' k [Hs | (-> & -> & ->)]%Hlist [[Hj' ->] | [Hne Hk]]%Hcase; try done.
    + by eapply Hold.
    + by apply (t_data0 _ _ _ _ Hs Hk).
    + split; [intros d Hd; simpl in Hd; congruence |]. intros [Hg | [Hg | Hg]]; congruence.
  - intros id job' s' k [Hs | (-> & -> & ->)]%Hlist [[Hj' ->] | [Hne Hk]]%Hcase Hwk; try done.
    + by eapply Hold.
    + destruct (t_done0 _ _ _ _ Hs Hk Hwk) as [Hp | ?]; [left | by right]. simpl.
      rewrite lookup_insert_ne; [done |]. intros <-. by apply Hnew in Hs.
    + left. simpl. by rewrite lookup_insert_eq.
Qed.

Lemma moves_ok v v' : traffic_ok v -> moves v v' -> traffic_ok v'.
Proof.
  intros Hok Hm. destruct Hm; subst; try done.
  - by eapply ok_source.
  - destruct (ok_add _ _ _ Hok H1) as (Hok1 & ? & ? & ? & ?). destruct H2 as [-> | (n & ->)]; [done |].
    exact (ok_attach (v <| v_io := tasks |>) s n Hok1 H4 H5 H6).
  - by eapply ok_mime_ui.
  - by eapply ok_mime_io.
  - by eapply ok_answer.
  - by eapply ok_keep.
  - by eapply ok_callback.
  - by eapply ok_drop.
  - by eapply ok_ignored.
  - by eapply ok_data.
  - by eapply ok_create.
  - by eapply ok_refused.
  - by eapply ok_start.
  - by eapply ok_read.
  - by eapply ok_kill.
  - by eapply ok_destroy.
  - by eapply ok_close.
Qed.

(** A dead backend gets no sources, and jobs are made for certain URLs only. *)
Definition alive_ok (v : Traffic) : Prop :=
  v_alive v = false -> forall task, task ∈ v_io v -> add_io task = None.

Definition urls_ok (v : Traffic) : Prop :=
  forall job j, v_jobs v !! job = Some j -> served_url (url j) = true.

Lemma data_keeps_url d j j' : Job_DataAvailable d j = Ok j' -> url j' = url j.
Proof.
  unfold Job_DataAvailable, CompleteRead. destruct d as [d |]; [| by intros [= <-]].
  simpl. destruct (pending_buf_ j); [| by intros [= <-]]. simpl.
  destruct (0 <? _); by intros [= <-].
Qed.

Lemma read_keeps_url n j j' rv : ReadRawData n j = Ok (j', rv) -> url j' = url j.
Proof.
  unfold ReadRawData, CompleteRead. destruct (data_ j) as [d |]; simpl.
  - destruct (0 <? _); by intros [= <- _].
  - destruct (pending_buf_ j); [done |]. by intros [= <- _].
Qed.

Lemma alive_app (v : Traffic) task :
  alive_ok v -> add_io task = None ->
  v_alive v = false -> forall task', task' ∈ v_io v ++ [task] -> add_io task' = None.
Proof. intros Ha Ht Hv task' [? | ->%list_elem_of_singleton]%elem_of_app; [by apply Ha | done]. Qed.

Lemma alive_tail (v : Traffic) task tasks :
  alive_ok v -> v_io v = task :: tasks ->
  v_alive v = false -> forall task', task' ∈ tasks -> add_io task' = None.
Proof. intros Ha Hio Hv task' Hin. apply Ha; [done |]. rewrite Hio. by right. Qed.

Lemma moves_alive v v' : alive_ok v -> moves v v' -> alive_ok v'.
Proof.
  intros Ha Hm. destruct Hm; subst; unfold alive_ok; simpl; try done;
    try (by apply alive_app); try (by eapply alive_tail).
  - congruence.
  - destruct H2 as [-> | (n & ->)]; exact (alive_tail v _ _ Ha H1).
  - destruct (v_jobs v !! job) as [j |]; [destruct (weak_factory_ j) |]; exact (alive_tail v _ _ Ha H1).
Qed.

Lemma urls_insert (v : Traffic) job j job' j' :
  urls_ok v -> v_jobs v !! job = Some j -> url j' = url j ->
  forall k, <[job := j']> (v_jobs v) !! job' = Some k -> served_url (url k) = true.
Proof.
  intros Hu Hj Heq k [[_ <-] | [_ Hk]]%lookup_insert_Some; [| by eapply Hu].
  rewrite Heq. by eapply Hu.
Qed.

Lemma moves_urls v v' : urls_ok v -> moves v v' -> urls_ok v'.
Proof.
  intros Hu Hm. destruct Hm; subst; unfold urls_ok; simpl; try done;
    try (intros job'; by eapply urls_insert).
  - by destruct H2 as [-> | (n & ->)].
  - destruct (v_jobs v !! job) as [j |] eqn:Hj; [| done]. destruct (weak_factory_ j); [| done].
    intros job'. by eapply urls_insert.
  - intros job'. eapply urls_insert; [done | done |]. by eapply data_keeps_url.
  - intros job' j [[_ <-] | [_ Hk]]%lookup_insert_Some; [done | by eapply Hu].
  - intros job'. eapply urls_insert; [done | done |]. simpl. by eapply read_keeps_url.
  - intros job' k [_ Hk]%lookup_delete_Some. by eapply Hu.
Qed.

(** ** The world moves as the traffic does *)
Lemma occ_nil s : occ s [] = 0%nat.
Proof. done. Qed.

(** Counts the references held by queues and callbacks. *)
Ltac count_refs :=
  intros ?; unfold holders; simpl; rewrite ?omap_app, ?fmap_app; simpl;
  repeat rewrite ?occ_app, ?occ_cons, ?occ_nil; lia.

Record world_ok w : Prop := {
  w_refs : refs_ok [] w;
  w_flags : flags_ok w;
  w_traffic : traffic_ok (view w);
  w_alive : alive_ok (view w);
  w_urls : urls_ok (view w);
}.

(** What a run makes of the references, given what it makes of the traffic. *)
Definition becomes (extra : list nat) (v : Traffic) w' : Prop :=
  refs_ok extra w' /\ flags_ok w' /\ view w' = v.

Lemma flags_ext w w' :
  flags_ok w -> impls w' = impls w -> data_sources_ w' = data_sources_ w -> flags_ok w'.
Proof. intros Hf Hi Hd s i. rewrite Hi, Hd. apply Hf. Qed.

Lemma flags_insert s i i' w :
  flags_ok w -> impls w !! s = Some i -> source_name_ i' = source_name_ i -> backend_ i' = backend_ i ->
  flags_ok (w <| impls := <[s := i']> (impls w) |>).
Proof.
  intros Hf Hi Hn Hb s' k. simpl. intros [[<- <-] | [_ Hk]]%lookup_insert_Some; [| by apply Hf].
  rewrite Hb, Hn. by apply Hf.
Qed.

Lemma release_becomes extra t s v w :
  becomes (s :: extra) v w -> run_to (Release t s w) (becomes extra v).
Proof.
  intros (Hr & Hf & Hv). eapply run_to_weaken; [by apply Release_ok |].
  intros w' (Hr' & Hfr). split; [done |]. split; [by eapply flags_framed |].
  destruct Hfr as [-> _]. done.
Qed.

Lemma addref_becomes extra s i v w :
  becomes extra v w -> impls w !! s = Some i -> (0 < ref_count i)%nat ->
  run_to (AddRef s w) (becomes (s :: extra) v).
Proof.
  intros (Hr & Hf & Hv) Hi Hpos. eapply run_to_weaken; [by eapply AddRef_ok |].
  intros w' (Hr' & Hfr & _). split; [done |]. split; [by eapply flags_framed |].
  destruct Hfr as [-> _]. done.
Qed.

(** A referenced source is there, and is not to be deleted. *)
Lemma becomes_alive extra v w s :
  becomes extra v w -> s ∈ extra ++ holders w ->
  exists i, impls w !! s = Some i /\ (0 < ref_count i)%nat /\ IsScheduledForDeletion s w = false.
Proof.
  intros (Hr & _) Hin. destruct (refs_alive _ _ Hr s Hin) as [i Hi]. exists i.
  assert (Hpos : (0 < ref_count i)%nat) by (eapply refs_ok_positive; [done | done | by left]).
  split; [done |]. split; [done |]. apply bool_decide_eq_false. intros Hs.
  apply (refs_scheduled _ _ Hr) in Hs as (i' & Hi' & Hz). assert (i' = i) as -> by congruence. lia.
Qed.

Lemma head_alive extra v w s :
  becomes (s :: extra) v w ->
  exists i, impls w !! s = Some i /\ (0 < ref_count i)%nat /\ IsScheduledForDeletion s w = false.
Proof. intros Hb. apply (becomes_alive _ _ _ _ Hb). left. Qed.

(** The tasks and callbacks of [w'] take over the references of the code. *)
Lemma becomes_ext extra extra' v v' w w' :
  becomes extra v w ->
  impls w' = impls w -> data_sources_ w' = data_sources_ w -> to_delete w' = to_delete w ->
  next_impl w' = next_impl w ->
  (forall s, occ s (extra' ++ holders w') = occ s (extra ++ holders w)) ->
  (to_delete w <> [] -> DeleteDataSourcesTask ∈ ui w -> DeleteDataSourcesTask ∈ ui w') ->
  view w' = v' -> becomes extra' v' w'.
Proof.
  intros (Hr & Hf & _) Hi Hd Hl Hn Ho Hu Hv. split; [by eapply refs_ok_ext |].
  split; [by eapply flags_ext | done].
Qed.

Lemma send_becomes extra s id data w :
  becomes (s :: extra) (view w) w ->
  run_to (SendResponse s id data w)
    (becomes (s :: extra) (view w <| v_io := v_io (view w) ++ [SendResponseOnIOThread s id data] |>
                    <| v_answered := v_answered (view w) ++ [(id, data)] |>)).
Proof.
  intros Hb. destruct (head_alive _ _ _ _ Hb) as (i & Hi & Hpos & Hsch).
  unfold SendResponse. rewrite Hsch.
  eapply run_to_bind; [by eapply addref_becomes |]. intros w1 Hb1. apply run_to_ret.
  assert (Hv : view w1 = view w) by apply Hb1. rewrite <- Hv.
  eapply becomes_ext; [exact Hb1 | done..| | done | done].
  count_refs.
Qed.

Lemma omap_cons_app {A} (P : A -> option nat) x l : omap P (x :: l) = option_list (P x) ++ omap P l.
Proof. simpl. by destruct (P x). Qed.

(** A task that is not the deletion leaves its queue, and the code that runs
    holds its reference. *)
Lemma pop_ui w task tasks :
  refs_ok [] w -> flags_ok w -> ui w = task :: tasks -> is_work task = true ->
  becomes (option_list (ui_source task))
    (view w <| v_work := filter (fun task => is_work task = true) tasks |>) (w <| ui := tasks |>) /\
  v_work (view w) = task :: filter (fun task => is_work task = true) tasks.
Proof.
  intros Hr Hf Hui Hwork. split; [| simpl; rewrite Hui; by rewrite filter_cons_True].
  eapply becomes_ext; [by split; [exact Hr | split; [exact Hf | reflexivity]] | done.. | | | done].
  - intros s. unfold holders. simpl. rewrite Hui, omap_cons_app, !occ_app. lia.
  - simpl. rewrite Hui. intros _ [<- | ?]%elem_of_cons; done.
Qed.

Lemma pop_io w task tasks :
  refs_ok [] w -> flags_ok w -> io w = task :: tasks ->
  becomes (option_list (io_source task)) (view w <| v_io := tasks |>) (w <| io := tasks |>).
Proof.
  intros Hr Hf Hio.
  eapply becomes_ext; [by split; [exact Hr | split; [exact Hf | reflexivity]] | done.. | | done | done].
  intros s. unfold holders. simpl. rewrite Hio, omap_cons_app, !occ_app. lia.
Qed.

Definition steps w (m : chk World) : Prop :=
  run_to m (fun w' => refs_ok [] w' /\ flags_ok w' /\ moves (view w) (view w')).

Lemma becomes_steps w v m :
  run_to m (becomes [] v) -> moves (view w) v -> steps w m.
Proof.
  intros Hm Hv. eapply run_to_weaken; [exact Hm |]. intros w' (Hr & Hf & Hv').
  split; [done |]. split; [done |]. by rewrite Hv'.
Qed.

Lemma GetMimeTypeOnUI_steps w s path job tasks :
  refs_ok [] w -> flags_ok w -> ui w = GetMimeTypeOnUI s path job :: tasks ->
  steps w (run_ui w).
Proof.
  intros Hr Hf Hui. unfold run_ui. rewrite Hui. simpl.
  destruct (pop_ui _ _ _ Hr Hf Hui eq_refl) as [Hb Hw]. simpl in Hb.
  unfold run_GetMimeTypeOnUI. destruct (head_alive _ _ _ _ Hb) as (i & Hi & _). rewrite Hi. simpl.
  eapply becomes_steps.
  - apply release_becomes. eapply becomes_ext; [exact Hb | done.. | | done | reflexivity]. count_refs.
  - by eapply move_mime_ui.
Qed.

Lemma CallStartRequest_steps `{!SmallAnswers T} w s path id tasks :
  refs_ok [] w -> flags_ok w -> ui w = CallStartRequest s path id :: tasks ->
  steps w (run_ui w) \/ source_refuses ERunUI w.
Proof.
  intros Hr Hf Hui. destruct (pop_ui _ _ _ Hr Hf Hui eq_refl) as [Hb Hw]. simpl in Hb.
  destruct (head_alive _ _ _ _ Hb) as (i & Hi & Hpos & _). unfold run_ui. rewrite Hui. simpl.
  destruct (StartDataRequest path (source_ i)) as [[source use] |] eqn:Hstart;
    [left | by right; exists s, path, id, tasks, i].
  unfold run_CallStartRequest.
  destruct (addref_becomes _ _ _ _ _ Hb Hi Hpos) as (w1 & Hrun1 & Hb1).
  assert (Hi1 : exists i1, impls w1 !! s = Some i1 /\ source_ i1 = source_ i).
  { unfold AddRef, with_impl in Hrun1. rewrite Hi in Hrun1. injection Hrun1 as <-. simpl.
    rewrite lookup_insert_eq. by eexists. }
  destruct Hi1 as (i1 & Hi1 & Hs1). rewrite Hrun1. simpl. rewrite Hi1. simpl. rewrite Hs1, Hstart. simpl.
  rewrite (run_with_impl _ _ _ _ Hi1). simpl. set (w2 := w1 <| impls := _ |>).
  assert (Hb2 : becomes [s; s] (view w2) w2).
  { destruct Hb1 as (Hr1 & Hf1 & Hv1). split; [by eapply insert_impl_ok |].
    split; [by eapply flags_insert | done]. }
  assert (Hv2 : view w2 = view (w <| ui := tasks |>)) by apply Hb1.
  destruct use as [data |]; simpl.
  - eapply becomes_steps.
    + eapply run_to_bind; [eapply run_to_bind; [by apply send_becomes | intros; by apply release_becomes] |].
      intros; by apply release_becomes.
    + rewrite Hv2. eapply move_answer; [exact Hw | | reflexivity].
      destruct data as [data |]; [| done]. apply Z.leb_le. by eapply small_answers.
  - eapply becomes_steps.
    + eapply release_becomes, becomes_ext; [exact Hb2 | done.. | | done | reflexivity]. count_refs.
    + simpl. unfold w2. simpl. eapply move_keep; [exact Hw |].
      unfold view at 1. simpl. unfold view in Hv2. simpl in Hv2. by injection Hv2 as -> -> -> -> -> -> -> -> -> -> -> -> ->.
Qed.

Lemma delete_impls_run (l : list nat) w :
  NoDup l -> (forall s, s ∈ l -> is_Some (impls w !! s)) ->
  exists m, delete_impls l w = Ok (w <| impls := m |>) /\
    forall s, m !! s = if decide (s ∈ l) then None else impls w !! s.
Proof.
  revert w. induction l as [| x l IH]; intros w Hnd Hall; simpl.
  - exists (impls w). split; [by destruct w |]. done.
  - apply NoDup_cons in Hnd as [Hx Hnd]. destruct (Hall x) as [i Hix]; [left |].
    unfold delete_impl. rewrite Hix. simpl.
    destruct (IH (w <| impls := delete x (impls w) |>) Hnd) as (m & Hm & Hlook).
    { intros s Hs. simpl. rewrite lookup_delete_ne by (by intros ->). apply Hall. by right. }
    exists m. split; [exact Hm |]. intros s. rewrite Hlook. simpl.
    destruct (decide (s ∈ l)) as [Hin | Hin]; [by rewrite decide_True by (by right) |].
    destruct (decide (s = x)) as [-> | Hne].
    + rewrite lookup_delete_eq, decide_True; [done | left].
    + rewrite lookup_delete_ne by done. rewrite decide_False; [done |]. set_solver.
Qed.

Lemma DeleteDataSources_ok extra w w0 :
  refs_ok extra w0 -> impls w = impls w0 -> data_sources_ w = data_sources_ w0 ->
  to_delete w = to_delete w0 -> next_impl w = next_impl w0 -> holders w = holders w0 ->
  run_to (DeleteDataSources w)
    (fun w' => refs_ok extra w' /\ view w' = view w /\ keeps w w').
Proof.
  intros Hr Hi Hd Hl Hn Hh. unfold DeleteDataSources.
  destruct (delete_impls_run (to_delete w) (w <| to_delete := [] |>)) as (m & -> & Hm).
  { rewrite Hl. apply (refs_nodup _ _ Hr). }
  { intros s. rewrite Hl. intros (i & Hs & _)%(refs_scheduled _ _ Hr). simpl. rewrite Hi. by exists i. }
  simpl in Hm. apply run_to_ret.
  assert (Hsub : forall s i, m !! s = Some i -> impls w !! s = Some i /\ ref_count i <> 0%nat).
  { intros s i. rewrite Hm. destruct (decide (s ∈ to_delete w)) as [| Hno]; [done |].
    intros Hs. split; [done |]. intros Hz. apply Hno. rewrite Hl. apply (refs_scheduled _ _ Hr).
    exists i. by rewrite <- Hi. }
  assert (Hkeep : forall s i, impls w !! s = Some i -> ref_count i <> 0%nat -> m !! s = Some i).
  { intros s i Hs Hz. rewrite Hm. rewrite decide_False; [done |]. rewrite Hl.
    intros (i' & Hs' & Hz')%(refs_scheduled _ _ Hr). rewrite <- Hi in Hs'. congruence. }
  split; [| split; [done |]].
  - destruct Hr as [Hc Ha Hmap Hs Hnd Ht Hf]. split; simpl; rewrite ?Hd, ?Hn; auto.
    + intros s i [Hs' _]%Hsub. rewrite Hi in Hs'. rewrite (Hc s i Hs').
      unfold in_map. simpl. rewrite Hd. f_equal. f_equal. unfold holders in *. simpl. by rewrite Hh.
    + intros s Hin. assert (Hin' : s ∈ extra ++ holders w0).
      { rewrite <- Hh. exact Hin. }
      destruct (Ha s Hin') as [i Hsi]. exists i. apply Hkeep; [by rewrite Hi |].
      assert (0 < ref_count i)%nat; [| lia]. rewrite (Hc s i Hsi).
      destruct (occ s (extra ++ holders w0)) eqn:Ho; [by apply occ_zero in Ho |].
      rewrite occ_app in Ho. lia.
    + intros n s Hns. destruct (Hmap n s Hns) as (i & Hsi & Hname). exists i. split; [| done].
      apply Hkeep; [by rewrite Hi |]. rewrite (Hc s i Hsi). unfold in_map.
      rewrite decide_True by congruence. lia.
    + intros s. split; [by intros ?%not_elem_of_nil |]. intros (i & Hsi & Hz). by apply Hsub in Hsi as [_ ?].
    + apply NoDup_nil_2.
    + done.
    + intros s Hle. destruct (m !! s) as [i |] eqn:Hsi; [| done]. apply Hsub in Hsi as [Hsi _].
      rewrite Hi, Hf in Hsi; done.
  - intros s i Hsi. simpl in Hsi. apply Hsub in Hsi as [Hsi _]. by exists i.
Qed.

Lemma DeleteDataSources_steps w : refs_ok [] w -> flags_ok w -> steps w (DeleteDataSources w).
Proof.
  intros Hr Hf. eapply run_to_weaken; [by eapply DeleteDataSources_ok |].
  intros w' (Hr' & Hv & Hk). split; [done |]. split; [by eapply flags_framed |].
  rewrite Hv. apply move_none.
Qed.

Lemma delete_task_steps w tasks :
  refs_ok [] w -> flags_ok w -> ui w = DeleteDataSourcesTask :: tasks -> steps w (run_ui w).
Proof.
  intros Hr Hf Hui. unfold run_ui. rewrite Hui. simpl. set (w1 := w <| ui := tasks |>).
  assert (Hv : view w1 = view w) by (unfold view, w1; simpl; by rewrite Hui, filter_cons_False).
  eapply run_to_weaken.
  - eapply (DeleteDataSources_ok [] w1 w); try done. unfold holders, w1. simpl. by rewrite Hui.
  - intros w' (Hr' & Hv' & Hk). split; [done |]. split.
    + eapply flags_framed; [split; [exact Hv' | done] |]. by eapply flags_ext.
    + rewrite Hv', Hv. apply move_none.
Qed.

(** An answer that is next finds its job ready. *)
Lemma data_runs v s id d tasks job :
  traffic_ok v -> v_io v = SendResponseOnIOThread s id d :: tasks -> v_pending v !! id = Some job ->
  exists j j', v_jobs v !! job = Some j /\ Job_DataAvailable d j = Ok j'.
Proof.
  intros Hok Hio Hp. destruct (t_pending _ Hok _ _ Hp) as (s1 & j & _ & Hj & _).
  destruct (data_delivered _ _ _ _ _ _ _ Hok Hio Hp Hj) as (_ & _ & _ & _ & _ & j' & Hrun & _).
  by exists j, j'.
Qed.

(** Everything but the sources changes. *)
Lemma becomes_traffic extra v v' w w' :
  becomes extra v w -> impls w' = impls w -> data_sources_ w' = data_sources_ w ->
  to_delete w' = to_delete w -> next_impl w' = next_impl w -> holders w' = holders w ->
  ui w' = ui w -> view w' = v' -> becomes extra v' w'.
Proof.
  intros Hb Hi Hd Hl Hn Hh Hu Hv. eapply becomes_ext; [exact Hb | done.. | | | done].
  - intros s. by rewrite Hh.
  - by rewrite Hu.
Qed.

Lemma SendResponseOnIOThread_steps w s id d tasks :
  refs_ok [] w -> flags_ok w -> traffic_ok (view w) ->
  io w = SendResponseOnIOThread s id d :: tasks -> steps w (run_io w).
Proof.
  intros Hr Hf Hok Hio. unfold run_io. rewrite Hio. simpl.
  pose proof (pop_io _ _ _ Hr Hf Hio) as Hb. simpl in Hb. set (w1 := w <| io := tasks |>) in *.
  destruct (head_alive _ _ _ _ Hb) as (i & Hi & _). change (impls w !! s = Some i) in Hi.
  simpl. rewrite Hi. simpl. pose proof (Hf s i Hi) as Hback. destruct (backend_ i).
  - unfold DataAvailable. change (pending_requests_ w1) with (v_pending (view w)).
    destruct (v_pending (view w) !! id) as [job |] eqn:Hp.
    + destruct (data_runs _ _ _ _ _ _ Hok Hio Hp) as (j & j' & Hj & Hrun).
      simpl in Hj. simpl. rewrite Hj. simpl. rewrite Hrun. simpl. eapply becomes_steps.
      * apply release_becomes. eapply becomes_traffic; [exact Hb | done..].
      * by eapply move_data.
    + simpl. eapply becomes_steps; [apply release_becomes; exact Hb |].
      eapply move_ignored; [exact Hio | by left | done].
  - simpl. eapply becomes_steps; [apply release_becomes; exact Hb |].
    eapply move_ignored; [exact Hio | right | done]. intros n Hn. simpl in Hn.
    destruct (refs_map _ _ Hr _ _ Hn) as (i' & Hi' & Hname). simpl in Hi.
    assert (i' = i) as -> by congruence. rewrite Hname in Hback.
    by rewrite bool_decide_true in Hback.
Qed.

Lemma MimeTypeAvailable_steps w job m tasks :
  refs_ok [] w -> flags_ok w -> io w = MimeTypeAvailable job m :: tasks -> steps w (run_io w).
Proof.
  intros Hr Hf Hio. unfold run_io. rewrite Hio. simpl.
  pose proof (pop_io _ _ _ Hr Hf Hio) as Hb. simpl in Hb.
  apply (becomes_steps w (view (run_MimeTypeAvailable job m (w <| io := tasks |>)))).
  - apply run_to_ret. unfold run_MimeTypeAvailable. simpl.
    destruct (jobs w !! job) as [j |]; [destruct (weak_factory_ j) |];
      (eapply becomes_traffic; [exact Hb | done..]).
  - eapply move_mime_io; [exact Hio |]. unfold run_MimeTypeAvailable. simpl.
    destruct (jobs w !! job) as [j |]; [by destruct (weak_factory_ j) | done].
Qed.

Lemma AddDataSourceOnIOThread_steps w s tasks :
  world_ok w -> io w = AddDataSourceOnIOThread s :: tasks -> steps w (run_io w).
Proof.
  intros [Hr Hf Hok Halive _] Hio. unfold run_io. rewrite Hio. simpl.
  pose proof (pop_io _ _ _ Hr Hf Hio) as Hb. simpl in Hb. set (w1 := w <| io := tasks |>) in *.
  destruct (backend_alive w) eqn:Hal.
  2: { assert (Hin : AddDataSourceOnIOThread s ∈ io w) by (rewrite Hio; left).
       by specialize (Halive Hal _ Hin). }
  simpl. destruct Hb as (Hr1 & Hf1 & Hv1).
  destruct (t_add _ Hok s) as (_ & Hdet & _); [simpl; rewrite Hio; left |].
  destruct (run_AddDataSource [s] s w1 Hr1 Hf1) as (w2 & Hrun & Hr2 & Hf2 & Hv2); [left | exact Hdet |].
  rewrite Hrun. simpl. eapply becomes_steps.
  - apply release_becomes. by split; [exact Hr2 | split; [exact Hf2 | reflexivity]].
  - eapply move_add; [exact Hio |]. destruct Hv2 as [-> | (n & ->)]; [by left |]. right. by exists n.
Qed.

Lemma Manager_AddDataSource_steps w source :
  refs_ok [] w -> flags_ok w -> backend_alive w = true -> steps w (Manager_AddDataSource source w).
Proof.
  intros [Hc Ha Hm Hs Hn Ht Hfr] Hf Halive. unfold Manager_AddDataSource, new_impl, AddRef, with_impl. simpl.
  rewrite lookup_insert_eq. simpl. rewrite insert_insert_eq. apply run_to_ret.
  assert (Hnew : impls w !! next_impl w = None) by (by apply Hfr).
  assert (Hno : ~ (next_impl w ∈ holders w)).
  { intros Hin. destruct (Ha (next_impl w)) as [i Hi]; [done | congruence]. }
  assert (Hmap : forall n, data_sources_ w !! n <> Some (next_impl w)).
  { intros n Hl. destruct (Hm _ _ Hl) as (i & Hi & _). congruence. }
  split; [| split].
  - split; simpl; auto.
    + intros s i. intros [[<- <-] | [Hne Hi]]%lookup_insert_Some; simpl; unfold holders; simpl;
        rewrite omap_app, !occ_app; simpl; rewrite occ_cons, !occ_nil.
      * apply occ_zero in Hno. unfold holders in Hno. rewrite !occ_app in Hno.
        rewrite decide_True by done. unfold in_map. simpl. rewrite decide_False by done. lia.
      * rewrite decide_False by done. rewrite (Hc s i Hi). unfold holders, in_map. simpl.
        rewrite !occ_app, ?occ_nil. lia.
    + intros s Hin. destruct (decide (s = next_impl w)) as [-> | Hne].
      * rewrite lookup_insert_eq. by eexists.
      * apply insert_alive, Ha. unfold holders in *. simpl in *. rewrite omap_app in Hin. simpl in Hin. set_solver.
    + intros n s Hl. destruct (Hm _ _ Hl) as (i & Hi & Hname). exists i.
      rewrite lookup_insert_ne; [done | congruence].
    + intros s. rewrite Hs. split; intros (i & Hi & Hz).
      * exists i. rewrite lookup_insert_ne; [done | congruence].
      * apply lookup_insert_Some in Hi as [[<- <-] | [_ Hi]]; [done | by exists i].
    + intros s Hle. rewrite lookup_insert_ne by lia. apply Hfr. lia.
  - intros s i. simpl. intros [[<- <-] | [_ Hi]]%lookup_insert_Some; [| by apply Hf]. simpl.
    by rewrite bool_decide_false.
  - by eapply (move_source _ (AddDataSourceOnIOThread (next_impl w))).
Qed.

Lemma run_callback_steps w k d :
  refs_ok [] w -> flags_ok w -> small d = true -> steps w (run_callback k d w).
Proof.
  intros Hr Hf Hsmall. unfold run_callback.
  destruct (callbacks w !! k) as [[s id] |] eqn:Hk.
  2: { apply run_to_ret. split; [done |]. split; [done | apply move_none]. }
  assert (Hin : (s, id) ∈ callbacks w) by (by eapply list_elem_of_lookup_2).
  assert (Hb : becomes [] (view w) w) by done.
  destruct (becomes_alive _ _ _ s Hb) as (i & Hi & Hpos & Hsch).
  { unfold holders. apply elem_of_app. right. apply elem_of_app. right. apply elem_of_app. right.
    apply list_elem_of_fmap. by exists (s, id). }
  unfold SendResponse. rewrite Hsch. eapply becomes_steps.
  - eapply run_to_bind; [by eapply addref_becomes |]. intros w1 Hb1. apply run_to_ret.
    eapply becomes_ext; [exact Hb1 | done.. | | done |].
    + count_refs.
    + unfold view at 1. simpl. destruct Hb1 as (_ & _ & Hv). unfold view in Hv.
      injection Hv as -> -> -> -> -> -> -> -> -> -> -> -> ->. reflexivity.
  - eapply (move_callback (view w) s id d); [exact Hin | done | reflexivity].
Qed.

Lemma drop_callback_steps w t k : refs_ok [] w -> flags_ok w -> steps w (drop_callback t k w).
Proof.
  intros Hr Hf. unfold drop_callback.
  destruct (callbacks w !! k) as [[s id] |] eqn:Hk.
  2: { apply run_to_ret. split; [done |]. split; [done | apply move_none]. }
  eapply becomes_steps.
  - apply release_becomes. eapply becomes_ext;
      [by split; [exact Hr | split; [exact Hf | reflexivity]] | done.. | | done | reflexivity].
    intros s'. unfold holders. simpl. rewrite occ_cons, !occ_app.
    assert (Hcb : (callbacks w).*1 !! k = Some s) by (rewrite list_lookup_fmap, Hk; done).
    rewrite (occ_delete s' _ _ _ Hcb), list_fmap_delete. change (occ s' []) with 0%nat. lia.
  - by eapply move_drop.
Qed.

(** *** Calls of the network stack *)
Lemma steps_traffic w w' :
  refs_ok [] w -> flags_ok w -> impls w' = impls w -> data_sources_ w' = data_sources_ w ->
  to_delete w' = to_delete w -> next_impl w' = next_impl w -> holders w' = holders w ->
  ui w' = ui w -> moves (view w) (view w') -> steps w (mret w').
Proof.
  intros Hr Hf Hi Hd Hl Hn Hh Hu Hm. eapply becomes_steps; [| exact Hm]. apply run_to_ret.
  eapply becomes_traffic; [by split; [exact Hr | split; [exact Hf | reflexivity]] | done..].
Qed.

Lemma requests_of_spec job w id :
  id ∈ requests_of job w <-> pending_requests_ w !! id = Some job.
Proof.
  unfold requests_of. rewrite list_elem_of_fmap. split.
  - intros ([id' job'] & -> & [Hj Hin]%list_elem_of_filter). simpl in *. subst job'.
    by apply elem_of_map_to_list.
  - intros Hp. exists (id, job). split; [done |]. apply list_elem_of_filter. split; [done |].
    by apply elem_of_map_to_list.
Qed.

(** Of the at most one request of a job the least is that one. *)
Lemma RemoveRequest_spec job w :
  (forall id id', pending_requests_ w !! id = Some job -> pending_requests_ w !! id' = Some job -> id = id') ->
  RemoveRequest job w =
  w <| pending_requests_ := filter (fun e => e.2 <> job) (pending_requests_ w) |>.
Proof.
  intros Hunique. unfold RemoveRequest.
  assert (Hall : forall id, id ∈ requests_of job w -> pending_requests_ w !! id = Some job)
    by (intros id; apply requests_of_spec).
  destruct (requests_of job w) as [| id ids] eqn:Hreq.
  - assert (Heq : filter (fun e : Z * nat => e.2 <> job) (pending_requests_ w) = pending_requests_ w).
    { apply map_filter_id. intros id job' Hp. simpl. intros ->.
      apply requests_of_spec in Hp. rewrite Hreq in Hp. by apply not_elem_of_nil in Hp. }
    rewrite Heq. by destruct w.
  - assert (Hid : pending_requests_ w !! id = Some job) by (apply Hall; left).
    assert (Hmin : foldr Z.min id ids = id).
    { assert (Hsame : forall x, x ∈ ids -> x = id) by (intros x Hx; apply Hunique; [apply Hall; by right | done]).
      clear Hreq Hall. induction ids as [| x ids IH]; [done |]. simpl.
      rewrite IH by (intros y Hy; apply Hsame; by right). rewrite (Hsame x); [lia | left]. }
    rewrite Hmin. f_equal.
    assert (Heq : delete id (pending_requests_ w) =
                  filter (fun e : Z * nat => e.2 <> job) (pending_requests_ w)); [| by rewrite Heq].
    apply map_eq. intros k. apply option_eq. intros x.
    rewrite lookup_delete_Some, map_lookup_filter_Some. simpl. split.
    + intros [Hne Hx]. split; [done |]. intros ->. apply Hne. by apply Hunique.
    + intros [Hx Hne]. split; [| done]. intros <-. congruence.
Qed.

Lemma pending_unique v id id' job :
  traffic_ok v -> v_pending v !! id = Some job -> v_pending v !! id' = Some job -> id = id'.
Proof.
  intros Hok H1 H2. destruct (t_pending _ Hok _ _ H1) as (s & _ & Hs & _).
  destruct (t_pending _ Hok _ _ H2) as (s' & _ & Hs' & _). by eapply same_job.
Qed.

Lemma HasPendingJob_false job w :
  (forall id, pending_requests_ w !! id <> Some job) -> HasPendingJob job w = false.
Proof.
  intros Hno. unfold HasPendingJob. apply not_true_iff_false.
  intros ([id job'] & Hin & Heq)%existsb_exists. simpl in Heq. apply Nat.eqb_eq in Heq as ->.
  apply list_elem_of_In, elem_of_map_to_list in Hin. by apply (Hno id).
Qed.

Lemma Kill_steps w job :
  refs_ok [] w -> flags_ok w -> traffic_ok (view w) -> is_Some (jobs w !! job) -> steps w (Kill job w).
Proof.
  intros Hr Hf Hok [j Hj]. unfold Kill, with_job. rewrite Hj. simpl. rewrite lookup_insert_eq. simpl.
  set (w1 := w <| jobs := _ |>).
  assert (Heq : (if job_backend_ j then RemoveRequest job w1 else w1) =
    w1 <| pending_requests_ := filter (fun e => e.2 <> job) (pending_requests_ w) |>).
  { destruct (job_backend_ j) eqn:Hb.
    - apply (RemoveRequest_spec job w1). intros id id'. by apply (pending_unique (view w)).
    - assert (Hid : filter (fun e : Z * nat => e.2 <> job) (pending_requests_ w) = pending_requests_ w);
        [| by rewrite Hid].
      apply map_filter_id. intros id job' Hp. simpl. intros ->.
      destruct (t_pending _ Hok id job Hp) as (s & k & _ & Hk & _ & Hbk & _). simpl in Hk. congruence. }
  rewrite Heq. apply steps_traffic; try done. by eapply move_kill.
Qed.

Lemma destroy_job_steps w job j :
  refs_ok [] w -> flags_ok w -> traffic_ok (view w) -> jobs w !! job = Some j ->
  weak_factory_ j = false \/ job_backend_ j = false -> steps w (destroy_job job w).
Proof.
  intros Hr Hf Hok Hj Hgone. unfold destroy_job. rewrite Hj. simpl.
  assert (Hno : HasPendingJob job w = false).
  { apply HasPendingJob_false. intros id Hp.
    destruct (t_pending _ Hok id job Hp) as (s & k & _ & Hk & Hwk & Hbk & _). simpl in Hk.
    destruct Hgone; congruence. }
  rewrite Hno, orb_true_r. simpl. apply steps_traffic; try done. by eapply move_destroy.
Qed.

Lemma read_job_steps w n job j :
  refs_ok [] w -> flags_ok w -> traffic_ok (view w) -> jobs w !! job = Some j ->
  0 < n <= INT_MAX -> stage_of j = Idle \/ stage_of j = Unasked -> steps w (read_job n job w).
Proof.
  intros Hr Hf Hok Hj Hn Hst. unfold read_job. rewrite Hj. simpl.
  destruct (t_jobs _ Hok job j Hj) as (_ & Hjok & _).
  destruct (read_ok n j Hjok Hst Hn) as (j' & rv & Hrun & _). rewrite Hrun. simpl.
  apply steps_traffic; try done. by eapply move_read.
Qed.

(** The two tasks of a request are posted. *)
Lemma post_request_becomes s path job id i w :
  becomes [] (view w) w -> impls w !! s = Some i -> (0 < ref_count i)%nat ->
  run_to (w ← AddRef s w; w ← AddRef s (post_ui (GetMimeTypeOnUI s path job) w);
          mret (post_ui (CallStartRequest s path id) w, true))
    (fun p => p.2 = true /\
       becomes [] (view w <| v_work := v_work (view w) ++
                     [GetMimeTypeOnUI s path job; CallStartRequest s path id] |>) p.1).
Proof.
  intros Hb Hi Hpos. eapply run_to_bind; [by eapply addref_becomes |]. intros w3 Hb3.
  destruct (head_alive _ _ _ _ Hb3) as (i3 & Hi3 & Hpos3 & _).
  eapply run_to_bind.
  - eapply (addref_becomes [] s i3); [| exact Hi3 | done].
    eapply becomes_ext; [exact Hb3 | done.. | | | reflexivity]; [count_refs |].
    intros _ ?. apply elem_of_app. by left.
  - intros w4 Hb4. apply run_to_ret. split; [done |].
    eapply becomes_ext; [exact Hb4 | done.. | | |].
    + count_refs.
    + intros _ ?. apply elem_of_app. by left.
    + destruct Hb3 as (_ & _ & Hv3), Hb4 as (_ & _ & Hv4). unfold view in *. simpl in *.
      rewrite filter_app in Hv4. rewrite filter_app.
      injection Hv4 as -> -> -> -> -> -> -> -> -> -> -> -> ->.
      injection Hv3 as -> -> -> -> -> -> -> -> -> -> -> -> ->. simpl.
      by rewrite <- app_assoc.
Qed.

Lemma Start_steps w has_request job j :
  world_ok w -> jobs w !! job = Some j -> job_backend_ j = false -> weak_factory_ j = true ->
  next_request_id_ w < INT_MAX -> served_url (url j) = true -> steps w (Start has_request job w).
Proof.
  intros [Hr Hf Hok _ _] Hj Hb Hw Hlt Hurl. unfold Start. destruct has_request; simpl.
  2: { apply steps_traffic; try done. apply move_none. }
  unfold with_job. rewrite Hj. simpl. set (j1 := j <| job_backend_ := true |>).
  set (w1 := w <| jobs := <[job := j1]> (jobs w) |>).
  assert (Hnot : ~ is_started job (view w)) by (intros Hs; by rewrite (t_backend _ Hok _ _ Hj Hs) in Hb).
  assert (Hj1 : jobs w1 !! job = Some j1) by apply lookup_insert_eq.
  assert (Hrefuse : steps w (j' ← deref (jobs w1 !! job);
    mret (w1 <| jobs := <[job := notify NotifyStartError j']> (jobs w1) |>))).
  { rewrite Hj1. simpl. rewrite insert_insert_eq. apply steps_traffic; try done. by eapply move_refused. }
  unfold StartRequest. rewrite Hj1. simpl. unfold CheckURLIsValid.
  change (url j1) with (url j). apply andb_true_iff in Hurl as [Hserved Hvalid].
  rewrite Hserved, Hvalid. simpl.
  destruct (GetDataSourceFromURL (url j) w1) as [s |] eqn:Hsrc; [| exact Hrefuse].
  assert (Hn : exists n, data_sources_ w !! n = Some s).
  { unfold GetDataSourceFromURL in Hsrc. change (data_sources_ w1) with (data_sources_ w) in Hsrc.
    destruct (data_sources_ w !! host (url j)) eqn:Hh; [exists (host (url j)); congruence | by eexists]. }
  destruct Hn as [n Hn]. destruct (refs_map _ _ Hr _ _ Hn) as (i & Hi & Hname).
  rewrite Hi. simpl. destruct (ShouldServiceRequest _ _); [| exact Hrefuse]. simpl.
  unfold with_job. simpl. rewrite lookup_insert_eq. simpl.
  assert (Hfresh : pending_requests_ w !! next_request_id_ w = None).
  { destruct (pending_requests_ w !! next_request_id_ w) as [job' |] eqn:Hp; [| done].
    destruct (t_pending _ Hok _ _ Hp) as (s' & _ & Hs' & _). apply (t_started _ Hok) in Hs'. simpl in Hs'. lia. }
  rewrite Hfresh. rewrite insert_insert_eq. pose proof (t_range _ Hok) as Hrange. simpl in Hrange.
  rewrite wrap32_small by (unfold INT_MIN in *; lia).
  match goal with |- context [AddRef s ?x] => set (w2 := x) end.
  assert (Hb2 : becomes [] (view w2) w2).
  { eapply becomes_traffic; [by split; [exact Hr | split; [exact Hf | reflexivity]] | done..]. }
  assert (Hpos : (0 < ref_count i)%nat).
  { eapply refs_ok_positive; [exact Hr | exact Hi | right]. by rewrite Hname. }
  eapply becomes_steps.
  - eapply run_to_bind; [by eapply post_request_becomes |]. intros [w5 ok] [Hok5 Hb5].
    simpl in Hok5. subst ok. apply run_to_ret. exact Hb5.
  - eapply (move_start (view w) job j s (URLToRequestPath (url j)) n (source_ i)); try done.
Qed.

(** *** The backend begins and ends *)
Definition detach i : URLDataSourceIOSImpl := i <| backend_ := false |>.

Lemma detach_all_run (l : list nat) w :
  (forall s, s ∈ l -> is_Some (impls w !! s)) ->
  exists m, detach_all l w = Ok (w <| impls := m |>) /\
    forall s, m !! s = (if decide (s ∈ l) then detach else id) <$> impls w !! s.
Proof.
  revert w. induction l as [| x l IH]; intros w Hall; simpl.
  - exists (impls w). split; [by destruct w |]. intros s. by destruct (impls w !! s).
  - destruct (Hall x) as [i Hi]; [left |]. rewrite (run_with_impl _ _ _ _ Hi). simpl.
    destruct (IH (w <| impls := <[x := detach i]> (impls w) |>)) as (m & Hrun & Hm).
    { intros s Hs. apply insert_alive, Hall. by right. }
    exists m. split; [exact Hrun |]. intros s. rewrite Hm. simpl.
    destruct (decide (s = x)) as [-> | Hne].
    + rewrite lookup_insert_eq, Hi, (decide_True (P := x ∈ x :: l)) by left. simpl.
      by destruct (decide (x ∈ l)).
    + rewrite lookup_insert_ne by done. destruct (decide (s ∈ l)) as [Hin | Hin].
      * by rewrite decide_True by (by right).
      * rewrite decide_False; [done |]. set_solver.
Qed.

Lemma release_all_becomes (l : list nat) extra v w :
  becomes (l ++ extra) v w -> run_to (release_all l w) (becomes extra v).
Proof.
  revert w. induction l as [| x l IH]; intros w Hb; simpl; [by apply run_to_ret |].
  eapply run_to_bind; [by apply release_becomes |]. intros w1 Hb1. by apply IH.
Qed.

(** The map holds one reference to each of its sources. *)
Lemma map_references extra w s i :
  refs_ok extra w -> impls w !! s = Some i ->
  occ s (snd <$> map_to_list (data_sources_ w)) = in_map i s w.
Proof.
  intros Hr Hi. assert (Hval : forall n s', (n, s') ∈ map_to_list (data_sources_ w) <->
    data_sources_ w !! n = Some s') by (intros; apply elem_of_map_to_list).
  assert (Hnd : NoDup (snd <$> map_to_list (data_sources_ w))).
  { apply NoDup_fmap_2_strong; [| apply NoDup_map_to_list]. intros [n s1] [n' s2] H1 H2. simpl. intros ->.
    apply Hval in H1, H2. destruct (refs_map _ _ Hr _ _ H1) as (i1 & Hi1 & Hn1).
    destruct (refs_map _ _ Hr _ _ H2) as (i2 & Hi2 & Hn2). congruence. }
  unfold in_map. destruct (decide _) as [Hin | Hno].
  - assert (Hs : s ∈ snd <$> map_to_list (data_sources_ w)).
    { apply list_elem_of_fmap. exists (source_name_ i, s). split; [done |]. by apply Hval. }
    apply list_elem_of_split in Hs as (l1 & l2 & Heq). rewrite Heq in Hnd. rewrite Heq.
    apply NoDup_app in Hnd as (_ & Hd1 & Hnd2). apply NoDup_cons in Hnd2 as [Hd2 _].
    rewrite occ_app, occ_cons, decide_True by done.
    assert (H1 : occ s l1 = 0%nat) by (apply occ_zero; intros Hin'; apply (Hd1 s Hin'); left).
    assert (H2 : occ s l2 = 0%nat) by (by apply occ_zero). lia.
  - apply occ_zero. intros ([n s'] & Heq & Hin)%list_elem_of_fmap. simpl in Heq. subst s'.
    apply Hval in Hin. destruct (refs_map _ _ Hr _ _ Hin) as (i' & Hi' & Hn). congruence.
Qed.

Lemma destroy_backend_steps w :
  refs_ok [] w -> flags_ok w -> jobs w = ∅ -> (forall task, task ∈ io w -> add_io task = None) ->
  steps w (destroy_backend w).
Proof.
  intros Hr Hf Hj Ha. unfold destroy_backend. set (l := snd <$> map_to_list (data_sources_ w)).
  assert (Hl : forall s, s ∈ l <-> exists n, data_sources_ w !! n = Some s).
  { intros s. unfold l. rewrite list_elem_of_fmap. split.
    - intros ([n s'] & -> & Hin%elem_of_map_to_list). by exists n.
    - intros (n & Hin). exists (n, s). split; [done |]. by apply elem_of_map_to_list. }
  destruct (detach_all_run l w) as (m & -> & Hm).
  { intros s (n & Hn)%Hl. destruct (refs_map _ _ Hr _ _ Hn) as (i & Hi & _). by exists i. }
  simpl. set (w1 := w <| impls := m |> <| data_sources_ := ∅ |> <| backend_alive := false |>).
  assert (Hlook : forall s i, m !! s = Some i -> exists i0, impls w !! s = Some i0 /\
    ref_count i = ref_count i0 /\ (i = detach i0 \/ i = i0 /\ ~ (s ∈ l))).
  { intros s i. rewrite Hm. destruct (impls w !! s) as [i0 |]; [| done]. simpl.
    destruct (decide (s ∈ l)); intros [= <-]; exists i0; auto. }
  assert (Halive : forall s, is_Some (impls w !! s) -> is_Some (m !! s)).
  { intros s [i Hi]. rewrite Hm, Hi. by eexists. }
  eapply (becomes_steps w (view w1)).
  - apply (release_all_becomes l []). rewrite app_nil_r. split; [| split; [| done]].
    + pose proof (map_references [] w) as Hmr. destruct Hr as [Hc Hal Hmap Hs Hn Ht Hfr].
      split; simpl; auto.
      * intros s i (i0 & Hi0 & -> & _)%Hlook. rewrite (Hc s i0 Hi0).
        unfold l. rewrite (Hmr s i0) by (by try constructor).
        assert (Hz : in_map i s w1 = 0%nat).
        { unfold in_map. destruct (decide _) as [Hd |]; [| done]. simpl in Hd. by rewrite lookup_empty in Hd. }
        rewrite Hz. unfold holders. simpl. change (occ s []) with 0%nat. lia.
      * intros s [(n & Hn')%Hl | Hin]%elem_of_app; apply Halive.
        -- destruct (Hmap _ _ Hn') as (i & Hi & _). by exists i.
        -- by apply Hal.
      * intros n s. by rewrite lookup_empty.
      * intros s. rewrite Hs. split; intros (i & Hi & Hz).
        -- destruct (Halive s) as [i' Hi']; [by exists i |]. exists i'. split; [done |].
           apply Hlook in Hi' as (i0 & Hi0 & -> & _). congruence.
        -- apply Hlook in Hi as (i0 & Hi0 & Heq & _). exists i0. split; [done | congruence].
      * intros s Hle. destruct (m !! s) as [i |] eqn:Hi; [| done].
        apply Hlook in Hi as (i0 & Hi0 & _). by rewrite Hfr in Hi0.
    + intros s i (i0 & Hi0 & _ & [-> | [-> Hno]])%Hlook; simpl; rewrite lookup_empty.
      * by rewrite bool_decide_false.
      * rewrite (Hf s i0 Hi0), !bool_decide_false; [done | done |]. intros Hin. apply Hno, Hl. by eexists.
  - by eapply move_close.
Qed.

Lemma new_world_ok shared :
  exists w, URLDataManagerIOSBackend_new shared = Ok w /\ world_ok w.
Proof.
  unfold URLDataManagerIOSBackend_new, new_impl, AddDataSource. simpl. rewrite lookup_insert_eq. simpl.
  rewrite lookup_empty. unfold AddRef, with_impl. simpl. rewrite lookup_insert_eq. simpl.
  rewrite !insert_insert_eq, lookup_insert_eq. simpl. rewrite insert_insert_eq. eexists. split; [done |].
  match goal with |- context [insert (M := gmap nat URLDataSourceIOSImpl) 0%nat ?x ∅] => set (i0 := x) end.
  assert (Hone : forall s i, <[0%nat := i0]> (∅ : gmap nat URLDataSourceIOSImpl) !! s = Some i -> s = 0%nat /\ i = i0)
    by (intros s i [[<- <-] | [_ Hi]]%lookup_insert_Some; [done | by rewrite lookup_empty in Hi]).
  split.
  - split; simpl.
    + intros s i [-> ->]%Hone. unfold in_map. simpl. rewrite lookup_insert_eq. by rewrite decide_True.
    + intros s Hin. by apply not_elem_of_nil in Hin.
    + intros n s [[<- <-] | [_ Hn]]%lookup_insert_Some; [| by rewrite lookup_empty in Hn].
      exists i0. by rewrite lookup_insert_eq.
    + intros s. split; [by intros ?%not_elem_of_nil |]. by intros (i & [-> ->]%Hone & Hz).
    + apply NoDup_nil_2.
    + done.
    + intros s Hle. rewrite lookup_insert_ne by lia. apply lookup_empty.
  - intros s i [-> ->]%Hone. simpl. rewrite lookup_insert_eq. by rewrite bool_decide_true.
  - split; simpl; try (by intros *; rewrite ?lookup_empty; try intros ?%not_elem_of_nil);
      try apply NoDup_nil_2.
    intros n s [[<- <-] | [_ Hn]]%lookup_insert_Some; [lia | by rewrite lookup_empty in Hn].
  - done.
  - intros job j. simpl. by rewrite lookup_empty.
Qed.

(** *** Every history *)
Lemma handle_steps `{!SmallAnswers T} e w :
  world_ok w -> enabled e w = true -> steps w (handle e w) \/ source_refuses e w.
Proof.
  intros Hw Hen. pose proof Hw as [Hr Hf Hok Halive Hurls]. destruct e; simpl in *.
  - left. by apply Manager_AddDataSource_steps.
  - destruct (ui w) as [| task tasks] eqn:Hui.
    + left. unfold run_ui. rewrite Hui. apply steps_traffic; try done. apply move_none.
    + destruct task as [s p job | s p id |].
      * left. by eapply GetMimeTypeOnUI_steps.
      * by eapply CallStartRequest_steps.
      * left. by eapply delete_task_steps.
  - left. destruct (io w) as [| task tasks] eqn:Hio.
    + unfold run_io. rewrite Hio. apply steps_traffic; try done. apply move_none.
    + destruct task as [job m | s id d | s].
      * by eapply MimeTypeAvailable_steps.
      * by eapply SendResponseOnIOThread_steps.
      * by eapply AddDataSourceOnIOThread_steps.
  - left. by apply run_callback_steps.
  - left. by apply drop_callback_steps.
  - left. by apply DeleteDataSources_steps.
  - left. apply andb_true_iff in Hen as [_ Hu]. apply steps_traffic; try done. by eapply move_create.
  - left. destruct (jobs w !! job) as [j |] eqn:Hj; [| done].
    apply andb_true_iff in Hen as [[Hb Hweak]%andb_true_iff Hlt%Z.ltb_lt].
    apply negb_true_iff in Hb. eapply Start_steps; try done. by eapply Hurls.
  - left. destruct (jobs w !! job) as [j |] eqn:Hj; [| done].
    apply andb_true_iff in Hen as [[[_ Hpos%Z.ltb_lt]%andb_true_iff Hmax%Z.leb_le]%andb_true_iff
      Hst%bool_decide_eq_true].
    by eapply read_job_steps.
  - left. apply bool_decide_eq_true in Hen. by apply Kill_steps.
  - left. destruct (jobs w !! job) as [j |] eqn:Hj; [| done].
    eapply destroy_job_steps; try done.
    destruct (weak_factory_ j), (job_backend_ j); auto.
  - left. apply andb_true_iff in Hen as [[_ Hj%bool_decide_eq_true]%andb_true_iff Hadd%negb_true_iff].
    apply destroy_backend_steps; try done. intros task Hin. destruct task; [done | done |].
    apply not_true_iff_false in Hadd. destruct Hadd. apply existsb_exists.
    eexists. split; [by apply list_elem_of_In |]. done.
Qed.

Lemma web_ui_steps_ok w w' e :
  world_ok w -> steps w (handle e w) -> handle e w = Ok w' -> world_ok w'.
Proof.
  intros [Hr Hf Hok Halive Hurls] (w1 & Hrun & Hr' & Hf' & Hm) Heq.
  assert (w1 = w') as -> by congruence. split; try done.
  - by eapply moves_ok.
  - by eapply moves_alive.
  - by eapply moves_urls.
Qed.

Lemma refused_faults e w : source_refuses e w -> handle e w = Fault.
Proof.
  intros (s & path & id & tasks & i & -> & Hui & Hi & Hstart). simpl.
  unfold run_ui. rewrite Hui. simpl. unfold run_CallStartRequest, AddRef, with_impl. simpl.
  rewrite Hi. simpl. rewrite lookup_insert_eq. simpl. by rewrite Hstart.
Qed.

Lemma web_ui_reachable_ok `{!SmallAnswers T} shared w : reachable shared w -> world_ok w.
Proof.
  induction 1 as [w Hnew | w e w' _ IH Hen Hrun].
  - destruct (new_world_ok shared) as (w' & Hnew' & Hok). congruence.
  - destruct (handle_steps e w IH Hen) as [Hs | Href]; [by eapply web_ui_steps_ok |].
    apply refused_faults in Href. congruence.
Qed.

(** *** Tasks end *)
Definition ui_load (task : ui_task) : nat :=
  match task with
  | GetMimeTypeOnUI _ _ _ => 2
  | CallStartRequest _ _ _ => 3
  | DeleteDataSourcesTask => 1
  end.

Definition io_load (task : io_task) : nat :=
  match task with
  | MimeTypeAvailable _ _ => 1
  | SendResponseOnIOThread _ _ _ => 2
  | AddDataSourceOnIOThread _ => 3
  end.

(** A bound of the tasks that are to run. *)
Definition load w : nat := (sum_list (ui_load <$> ui w) + sum_list (io_load <$> io w))%nat.

Definition quiet w : Prop := ui w = [] /\ io w = [].

(** Runs the tasks of the UI thread, then those of the IO thread. *)
Fixpoint settle (fuel : nat) w : chk World :=
  match fuel, ui w, io w with
  | S fuel, _ :: _, _ => w ← run_ui w; settle fuel w
  | S fuel, [], _ :: _ => w ← run_io w; settle fuel w
  | _, _, _ => mret w
  end.

Lemma same_load w w' : ui w' = ui w -> io w' = io w -> load w' = load w.
Proof. intros Hu Hi. unfold load. by rewrite Hu, Hi. Qed.

Lemma sum_list_snoc (l : list nat) n : sum_list (l ++ [n]) = (sum_list l + n)%nat.
Proof. induction l as [| x l IH]; simpl; [lia |]. rewrite IH. lia. Qed.

Lemma post_ui_load task w : load (post_ui task w) = (load w + ui_load task)%nat.
Proof. unfold load, post_ui. simpl. rewrite fmap_app. simpl. rewrite sum_list_snoc. lia. Qed.

Lemma post_io_load task w : load (post_io task w) = (load w + io_load task)%nat.
Proof. unfold load, post_io. simpl. rewrite fmap_app. simpl. rewrite sum_list_snoc. lia. Qed.

Lemma with_impl_load s f w w' : with_impl s f w = Ok w' -> load w' = load w.
Proof. intros Hrun. unfold with_impl in Hrun. run_all Hrun. done. Qed.

Lemma delete_impls_load l w w' : delete_impls l w = Ok w' -> load w' = load w.
Proof.
  revert w. induction l as [| s l IH]; intros w Hrun; [by injection Hrun as <- |].
  simpl in Hrun. apply bind_Ok_inv in Hrun as (w1 & Hrun1 & Hrun). apply IH in Hrun.
  unfold delete_impl in Hrun1. run_all Hrun1. done.
Qed.

Lemma Release_load t s w w' :
  Release t s w = Ok w' -> (load w' <= load w + match t with UI => 0 | IO => 1 end)%nat.
Proof.
  intros Hrun. unfold Release in Hrun. apply bind_Ok_inv in Hrun as (i & _ & Hrun).
  destruct (ref_count i) as [| n]; [done |]. cbv zeta in Hrun. set (w1 := w <| impls := _ |>) in Hrun.
  assert (H1 : load w1 = load w) by done.
  destruct (n =? 0)%nat; [| injection Hrun as <-; lia]. destruct t; simpl in Hrun.
  - unfold delete_impl in Hrun. run_all Hrun. unfold load in *. simpl in *. lia.
  - injection Hrun as <-. destruct (bool_decide _); [rewrite post_ui_load |];
      unfold load in *; simpl in *; lia.
Qed.

Lemma SendResponse_load s id d w w' : SendResponse s id d w = Ok w' -> (load w' <= load w + 2)%nat.
Proof.
  intros Hrun. unfold SendResponse in Hrun. destruct (IsScheduledForDeletion s w).
  - injection Hrun as <-. lia.
  - apply bind_Ok_inv in Hrun as (w1 & Hrun1 & Hrun). apply with_impl_load in Hrun1.
    injection Hrun as <-. rewrite post_io_load. simpl.
    change (load (w1 <| answered := answered w1 ++ [(id, d)] |>)) with (load w1). lia.
Qed.

Lemma AddDataSource_load s w w' : AddDataSource s w = Ok w' -> (load w' <= load w + 1)%nat.
Proof.
  intros Hrun. unfold AddDataSource in Hrun. apply bind_Ok_inv in Hrun as (i & _ & Hrun). cbv zeta in Hrun.
  destruct (data_sources_ w !! _) as [old |].
  - destruct (negb _); [injection Hrun as <-; lia |].
    apply bind_Ok_inv in Hrun as (w1 & H1%with_impl_load & Hrun).
    apply bind_Ok_inv in Hrun as (w2 & H2%with_impl_load & Hrun).
    apply bind_Ok_inv in Hrun as (w3 & H3%Release_load & Hrun).
    apply with_impl_load in Hrun. unfold load in *. simpl in *. lia.
  - apply bind_Ok_inv in Hrun as (w1 & H1%with_impl_load & Hrun). apply with_impl_load in Hrun.
    unfold load in *. simpl in *. lia.
Qed.

Lemma DataAvailable_load id d w w' : DataAvailable id d w = Ok w' -> load w' = load w.
Proof.
  intros Hrun. unfold DataAvailable in Hrun. destruct (pending_requests_ w !! id) as [job |].
  - cbv zeta in Hrun. apply bind_Ok_inv in Hrun as (j & _ & Hrun).
    apply bind_Ok_inv in Hrun as (j' & _ & Hrun). by injection Hrun as <-.
  - by injection Hrun as <-.
Qed.

Lemma CallStartRequest_load s path id w w' :
  run_CallStartRequest s path id w = Ok w' -> (load w' <= load w + 2)%nat.
Proof.
  intros Hrun. unfold run_CallStartRequest in Hrun.
  apply bind_Ok_inv in Hrun as (w1 & H1%with_impl_load & Hrun).
  apply bind_Ok_inv in Hrun as (i & _ & Hrun).
  apply bind_Ok_inv in Hrun as ([source use] & _ & Hrun).
  apply bind_Ok_inv in Hrun as (w2 & H2%with_impl_load & Hrun).
  apply bind_Ok_inv in Hrun as (w3 & H3 & Hrun%Release_load). simpl in Hrun. destruct use as [d |].
  - apply bind_Ok_inv in H3 as (w4 & H4%SendResponse_load & H3%Release_load). simpl in H3. lia.
  - injection H3 as <-. unfold load in *. simpl in *. lia.
Qed.

Lemma run_ui_load w w' : ui w <> [] -> run_ui w = Ok w' -> (load w' < load w)%nat.
Proof.
  intros Hne Hrun. unfold run_ui in Hrun. destruct (ui w) as [| task tasks] eqn:Hui; [done |].
  assert (Hpop : load w = (ui_load task + load (w <| ui := tasks |>))%nat)
    by (unfold load; rewrite Hui, fmap_cons; exact (eq_sym (Nat.add_assoc _ _ _))).
  rewrite Hpop. destruct task as [s p job | s p id |]; simpl in Hrun; simpl ui_load.
  - unfold run_GetMimeTypeOnUI in Hrun. apply bind_Ok_inv in Hrun as (i & _ & Hrun%Release_load).
    rewrite post_io_load in Hrun. simpl io_load in Hrun. lia.
  - apply CallStartRequest_load in Hrun. lia.
  - apply delete_impls_load in Hrun.
    change (load (w <| ui := tasks |> <| to_delete := [] |>)) with (load (w <| ui := tasks |>)) in Hrun. lia.
Qed.

Lemma run_io_load w w' : io w <> [] -> run_io w = Ok w' -> (load w' < load w)%nat.
Proof.
  intros Hne Hrun. unfold run_io in Hrun. destruct (io w) as [| task tasks] eqn:Hio; [done |].
  assert (Hpop : load w = (io_load task + load (w <| io := tasks |>))%nat)
    by (unfold load; rewrite Hio, fmap_cons; exact (Nat.add_shuffle3 _ _ _)).
  rewrite Hpop. destruct task as [job m | s id d | s]; simpl in Hrun; simpl io_load.
  - injection Hrun as <-. unfold run_MimeTypeAvailable.
    destruct (jobs _ !! job) as [j |]; [destruct (weak_factory_ j) |]; unfold load; simpl; lia.
  - apply bind_Ok_inv in Hrun as (i & _ & Hrun). apply bind_Ok_inv in Hrun as (w1 & H1 & Hrun%Release_load).
    assert (Hl : load w1 = load (w <| io := tasks |>)).
    { destruct (backend_ i); [by apply DataAvailable_load in H1 | by injection H1 as <-]. }
    lia.
  - apply bind_Ok_inv in Hrun as (u & _ & Hrun).
    apply bind_Ok_inv in Hrun as (w1 & H1%AddDataSource_load & Hrun%Release_load). lia.
Qed.

Lemma settle_ends `{!SmallAnswers T} shared fuel w :
  reachable shared w -> (load w <= fuel)%nat ->
  (exists w', settle fuel w = Ok w' /\ reachable shared w' /\ quiet w') \/
  (exists w', reachable shared w' /\ source_refuses ERunUI w').
Proof.
  revert w. induction fuel as [| fuel IH]; intros w Hw Hload.
  - left. exists w. assert (Hq : quiet w).
    { unfold load in Hload. split.
      - destruct (ui w) as [| [] ?]; [done | simpl in Hload; lia..].
      - destruct (io w) as [| [] ?]; [done | simpl in Hload; lia..]. }
    split; [| done]. simpl. by destruct (ui w).
  - simpl. pose proof (web_ui_reachable_ok shared w Hw) as Hok.
    destruct (ui w) as [| task tasks] eqn:Hui; [destruct (io w) as [| task tasks] eqn:Hio |].
    + left. by exists w.
    + destruct (handle_steps ERunIO w Hok eq_refl) as [(w1 & Hrun & _) | Href].
      * simpl in Hrun. rewrite Hrun. simpl. apply IH; [by eapply (reach_step _ w ERunIO) |].
        apply run_io_load in Hrun; [lia | by rewrite Hio].
      * by destruct Href as (? & ? & ? & ? & ? & [=] & _).
    + destruct (handle_steps ERunUI w Hok eq_refl) as [(w1 & Hrun & _) | Href].
      * simpl in Hrun. rewrite Hrun. simpl. apply IH; [by eapply (reach_step _ w ERunUI) |].
        apply run_ui_load in Hrun; [lia | by rewrite Hui].
      * right. by exists w.
Qed.

(** *** The thread of the deletions *)
Definition on_io (e : event) : bool :=
  match e with
  | ERunIO | EDropCallback IO _ | EStart _ _ | ERead _ _ | EKill _ | EDestroyJob _ | EDestroyBackend => true
  | _ => false
  end.

(** The sources of [w] are there in [w']. *)
Definition none_deleted w w' : Prop := forall s, is_Some (impls w !! s) -> is_Some (impls w' !! s).

Lemma none_deleted_refl w : none_deleted w w.
Proof. by intros s. Qed.
#[local] Hint Resolve none_deleted_refl : core.

Lemma none_deleted_trans w1 w2 w3 : none_deleted w1 w2 -> none_deleted w2 w3 -> none_deleted w1 w3.
Proof. intros H12 H23 s Hs. by apply H23, H12. Qed.

Lemma with_impl_keeps s f w w' : with_impl s f w = Ok w' -> none_deleted w w'.
Proof. intros Hrun. unfold with_impl in Hrun. run_all Hrun. intros s' Hs. by apply insert_alive. Qed.

Lemma Release_keeps s w w' : Release IO s w = Ok w' -> none_deleted w w'.
Proof.
  intros Hrun. unfold Release in Hrun. apply bind_Ok_inv in Hrun as (i & _ & Hrun).
  destruct (ref_count i) as [| n]; [done |]. cbv zeta in Hrun. intros s' Hs.
  destruct (n =? 0)%nat; [simpl in Hrun |]; injection Hrun as <-;
    [destruct (bool_decide _) |]; simpl; by apply insert_alive.
Qed.

Lemma AddDataSource_keeps s w w' : AddDataSource s w = Ok w' -> none_deleted w w'.
Proof.
  intros Hrun. unfold AddDataSource in Hrun. apply bind_Ok_inv in Hrun as (i & _ & Hrun). cbv zeta in Hrun.
  destruct (data_sources_ w !! _) as [old |].
  - destruct (negb _); [by injection Hrun as <- |].
    apply bind_Ok_inv in Hrun as (w1 & H1%with_impl_keeps & Hrun).
    apply bind_Ok_inv in Hrun as (w2 & H2%with_impl_keeps & Hrun).
    apply bind_Ok_inv in Hrun as (w3 & H3%Release_keeps & Hrun%with_impl_keeps).
    intros s' Hs. exact (Hrun s' (H3 s' (H2 s' (H1 s' Hs)))).
  - apply bind_Ok_inv in Hrun as (w1 & H1%with_impl_keeps & Hrun%with_impl_keeps).
    intros s' Hs. exact (Hrun s' (H1 s' Hs)).
Qed.

Lemma detach_all_keeps l w w' : detach_all l w = Ok w' -> none_deleted w w'.
Proof.
  revert w. induction l as [| s l IH]; intros w Hrun; [by injection Hrun as <- |]. simpl in Hrun.
  apply bind_Ok_inv in Hrun as (w1 & H1%with_impl_keeps & Hrun%IH). by eapply none_deleted_trans.
Qed.

Lemma release_all_keeps l w w' : release_all l w = Ok w' -> none_deleted w w'.
Proof.
  revert w. induction l as [| s l IH]; intros w Hrun; [by injection Hrun as <- |]. simpl in Hrun.
  apply bind_Ok_inv in Hrun as (w1 & H1%Release_keeps & Hrun%IH). by eapply none_deleted_trans.
Qed.

Lemma StartRequest_keeps job w p : StartRequest job w = Ok p -> none_deleted w p.1.
Proof.
  intros Hrun. unfold StartRequest in Hrun. apply bind_Ok_inv in Hrun as (j & _ & Hrun).
  apply bind_Ok_inv in Hrun as (valid & _ & Hrun). destruct (negb valid); [by injection Hrun as <- |].
  destruct (GetDataSourceFromURL _ _) as [s |]; [| by injection Hrun as <-].
  apply bind_Ok_inv in Hrun as (i & _ & Hrun).
  destruct (negb _); [by injection Hrun as <- |]. cbv zeta in Hrun. simpl in Hrun.
  apply bind_Ok_inv in Hrun as (w1 & H1 & Hrun). unfold with_job in H1. run_all H1.
  apply bind_Ok_inv in Hrun as (w2 & H2%with_impl_keeps & Hrun).
  apply bind_Ok_inv in Hrun as (w3 & H3%with_impl_keeps & Hrun).
  injection Hrun as <-. intros s' Hs. exact (H3 s' (H2 s' Hs)).
Qed.

Lemma io_deletes_nothing e w w' : on_io e = true -> handle e w = Ok w' -> none_deleted w w'.
Proof.
  intros Hio Hrun. destruct e as [| | | | [] k | | | has_request job | n job | job | job |];
    try done; simpl in Hrun.
  - unfold run_io in Hrun. destruct (io w) as [| task tasks]; [by injection Hrun as <- |].
    destruct task as [job m | s id d | s]; simpl in Hrun.
    + injection Hrun as <-. unfold run_MimeTypeAvailable.
      by destruct (jobs _ !! job) as [j |]; [destruct (weak_factory_ j) |]; intros s.
    + apply bind_Ok_inv in Hrun as (i & _ & Hrun). apply bind_Ok_inv in Hrun as (w1 & H1 & Hrun%Release_keeps).
      intros s' Hs. apply Hrun. destruct (backend_ i); [| injection H1 as <-; exact Hs].
      unfold DataAvailable in H1. run_all H1; exact Hs.
    + apply bind_Ok_inv in Hrun as (u & _ & Hrun).
      apply bind_Ok_inv in Hrun as (w1 & H1%AddDataSource_keeps & Hrun%Release_keeps).
      intros s' Hs. exact (Hrun s' (H1 s' Hs)).
  - unfold drop_callback in Hrun. destruct (callbacks w !! k) as [[s id] |]; [| by injection Hrun as <-].
    by apply Release_keeps in Hrun.
  - unfold Start in Hrun. destruct (negb has_request); [by injection Hrun as <- |].
    apply bind_Ok_inv in Hrun as (w1 & H1 & Hrun). unfold with_job in H1. run_all H1.
    apply bind_Ok_inv in Hrun as ([w2 ok] & H2%StartRequest_keeps & Hrun). destruct ok.
    + injection Hrun as <-. exact H2.
    + unfold with_job in Hrun. run_all Hrun. exact H2.
  - unfold read_job in Hrun. apply bind_Ok_inv in Hrun as (j & _ & Hrun).
    apply bind_Ok_inv in Hrun as ([j' rv] & _ & Hrun). injection Hrun as <-. by intros s.
  - unfold Kill, with_job in Hrun. run_all Hrun. unfold RemoveRequest. intros s Hs.
    destruct (job_backend_ _); [| done]. by destruct (requests_of _ _).
  - unfold destroy_job in Hrun. run_all Hrun. by intros s.
  - unfold destroy_backend in Hrun.
    apply bind_Ok_inv in Hrun as (w1 & H1%detach_all_keeps & Hrun%release_all_keeps).
    intros s Hs. exact (Hrun s (H1 s Hs)).
Qed.

(** C15. In every history of the web UI no check of this code fails (only a
    source can refuse a path it does not have), two requests never share a
    number, a job is told the type before any data and of every read once,
    and what its reader gets is what the source of the request answered, from
    the beginning, and all of it when a read returns 0. *)
Theorem web_ui_serves_answers `{!SmallAnswers T} shared w :
  reachable shared w ->
  (forall e, enabled e w = true -> is_ok (handle e w) \/ source_refuses e w) /\
  NoDup ((fun e => e.1.1) <$> started w) /\
  forall job j, jobs w !! job = Some j ->
    stage_of j <> OutOfOrder /\
    (received j = [] /\ ~ ended j \/
     exists id s data, (id, job, s) ∈ started w /\ (id, Some data) ∈ answered w /\
       received j `prefix_of` data /\ (ended j -> received j = data)).
Proof.
  intros Hw. pose proof (web_ui_reachable_ok _ _ Hw) as Hok. split; [| split].
  - intros e He. destruct (handle_steps e w Hok He) as [(w' & Hrun & _) | ?]; [left | by right].
    by exists w'.
  - apply (t_ids _ (w_traffic _ Hok)).
  - intros job j Hj. pose proof (w_traffic _ Hok) as Ht. destruct (t_jobs _ Ht _ _ Hj) as (_ & Hjok & _).
    pose proof (job_data _ Hjok) as Hd. pose proof (job_ended _ Hjok) as He.
    destruct (data_ j) as [data |] eqn:Hdata.
    + destruct Hd as (_ & _ & Hst & Hpre). split; [by rewrite Hst |]. right.
      destruct (decide (Exists (fun e => e.1.2 = job) (started w))) as [Hs | Hs].
      * apply Exists_exists in Hs as ([[id job'] s] & Hs & Hj'). simpl in Hj'. subst job'.
        exists id, s, data. split; [done |]. split; [by apply (t_data _ Ht _ _ _ _ Hs Hj) |].
        split; [done |]. intros Hend%He. by injection Hend.
      * destruct (t_unstarted _ Ht _ _ Hj) as [Hnone _]; [| congruence].
        intros (id & s & Hin). apply Hs, Exists_exists. by eexists.
    + destruct Hd as [Hrec Hst]. split.
      * destruct Hst as [[[-> | [-> | [-> | ->]]] _] | [[-> | [-> | ->]] _]]; done.
      * left. split; [done |]. by intros Hend%He.
Qed.

(** C16. The tasks of both threads always run out, unless a source refuses a
    path, and when none waits every request that is not killed was answered,
    or its source still has the callback, has destroyed it without answering,
    or has lost its name to another source before the answer arrived. *)
Theorem every_web_ui_request_ends `{!SmallAnswers T} shared w :
  reachable shared w ->
  ((exists w', settle (load w) w = Ok w' /\ reachable shared w' /\ quiet w') \/
   (exists w', reachable shared w' /\ source_refuses ERunUI w')) /\
  (quiet w -> forall id job s j,
     (id, job, s) ∈ started w -> jobs w !! job = Some j -> weak_factory_ j = true ->
     is_Some (data_ j) \/ gave_up (stage_of j) \/ (s, id) ∈ callbacks w \/ id ∈ dropped w \/
     (exists d, (id, d) ∈ answered w) /\ forall n, data_sources_ w !! n <> Some s).
Proof.
  intros Hw. split; [by apply settle_ends |]. intros [Hui Hio] id job s j Hs Hj Hweak.
  pose proof (w_traffic _ (web_ui_reachable_ok _ _ Hw)) as Ht.
  destruct (t_done _ Ht id job s j Hs Hj Hweak) as [Hp | [? | ?]]; [| by left | by right; left].
  destruct (t_reply _ Ht id job s Hp Hs) as [[(p & Hin) | [Hin | (d & Hin)]] | [? | [Hdet Ha]]].
  - simpl in Hin. rewrite Hui in Hin. by apply not_elem_of_nil in Hin.
  - do 2 right. by left.
  - simpl in Hin. rewrite Hio in Hin. by apply not_elem_of_nil in Hin.
  - do 3 right. by left.
  - do 4 right. done.
Qed.

(** C17. A source lives exactly as long as a task, a callback or the map refers
    to it; then it is deleted once, by a task of the UI thread that waits, and
    never by what runs on the IO thread. *)
Theorem sources_die_on_ui_thread `{!SmallAnswers T} shared w :
  reachable shared w ->
  (forall s, s ∈ holders w \/ (exists n, data_sources_ w !! n = Some s) -> is_Some (impls w !! s)) /\
  (forall s i, impls w !! s = Some i ->
     s ∈ holders w \/ data_sources_ w !! source_name_ i = Some s \/
     (s ∈ to_delete w /\ DeleteDataSourcesTask ∈ ui w)) /\
  (forall s, s ∈ to_delete w -> ~ (s ∈ holders w) /\ forall n, data_sources_ w !! n <> Some s) /\
  NoDup (to_delete w) /\
  (forall e w', on_io e = true -> handle e w = Ok w' -> none_deleted w w').
Proof.
  intros Hw. destruct (web_ui_reachable_ok _ _ Hw) as [Hr _ _ _ _].
  assert (Hzero : forall s i, impls w !! s = Some i ->
    s ∈ holders w \/ data_sources_ w !! source_name_ i = Some s -> ref_count i <> 0%nat).
  { intros s i Hi Hin. assert (0 < ref_count i)%nat; [| lia]. by eapply (refs_ok_positive [] w). }
  split; [| split; [| split; [| split]]].
  - intros s [Hin | (n & Hn)]; [by apply (refs_alive _ _ Hr) |].
    destruct (refs_map _ _ Hr _ _ Hn) as (i & Hi & _). by exists i.
  - intros s i Hi. destruct (ref_count i) as [| n] eqn:Hc.
    + do 2 right. assert (Hs : s ∈ to_delete w) by (apply (refs_scheduled _ _ Hr); by exists i).
      split; [done |]. apply (refs_task _ _ Hr). intros Heq. rewrite Heq in Hs. by apply not_elem_of_nil in Hs.
    + rewrite (refs_counted _ _ Hr s i Hi) in Hc. change (occ s []) with 0%nat in Hc.
      destruct (decide (s ∈ holders w)) as [| Hno%occ_zero]; [by left |]. right. left.
      unfold in_map in Hc. destruct (decide _); [done | lia].
  - intros s (i & Hi & Hz)%(refs_scheduled _ _ Hr). split.
    + intros Hin. by apply (Hzero s i Hi); [left |].
    + intros n Hn. destruct (refs_map _ _ Hr _ _ Hn) as (i' & Hi' & Hname).
      assert (i' = i) as -> by congruence. apply (Hzero s i Hi); [right; by rewrite Hname | done].
  - apply (refs_nodup _ _ Hr).
  - intros e w' He Hrun. by eapply io_deletes_nothing.
Qed.
End manager.

(** ** A small web UI *)
Section play.
Context `{WebClientApi} {urls : WebUiUrls} {T : Type} `{!URLDataSourceIOS T}.

Fixpoint play (es : list (event (T := T))) (w : World) : chk World :=
  match es with
  | [] => mret w
  | e :: es => if enabled e w then w ← handle e w; play es w else Fault
  end.

Definition play_new (shared : T) (es : list event) : chk World :=
  w ← URLDataManagerIOSBackend_new shared; play es w.

Lemma web_ui_play_reachable shared es w w' : reachable shared w -> play es w = Ok w' -> reachable shared w'.
Proof.
  revert w. induction es as [| e es IH]; intros w Hw Hrun; [by injection Hrun as <- |].
  simpl in Hrun. destruct (enabled e w) eqn:He; [| done].
  apply bind_Ok_inv in Hrun as (w1 & Hrun1 & Hrun). eapply IH; [| exact Hrun]. by eapply reach_step.
Qed.

Lemma play_new_reachable shared es w : play_new shared es = Ok w -> reachable shared w.
Proof.
  intros Hrun. apply bind_Ok_inv in Hrun as (w0 & Hnew & Hrun).
  eapply web_ui_play_reachable; [by apply reach_new, Hnew | exact Hrun].
Qed.
End play.

Module ConcreteWebUi.
Import ConcreteUrl ConcreteValues.

#[export] Instance urls : WebUiUrls := {|
  URLDataManagerIOS.host := host;
  URLDataManagerIOS.scheme := scheme;
  possibly_invalid_spec u := scheme u +:+ "://" +:+ host u +:+ path u;
  CharactersBeforePath u := Z.of_nat (String.length (scheme u) + 3 + String.length (host u));
  AdditionalWebUISchemes := [];
|}.

(** One resource; files have no known types. *)
#[export] Instance resources : WebUiResources := {|
  GetLocalizedString _ := "text";
  GetDataResourceBytes idr := if idr =? 1 then Some [x61; x62; x63] else None;
  GetApplicationLocale := "en";
  SetLoadTimeDataDefaults _ d := d;
  JsonJS _ := "";
  GetWebUiCssTextDefaults := "";
  kWebuiResources := [("js/util.js", 1)];
  IDR_WEBUI_CSS_TEXT_DEFAULTS := 2;
EndsWith s suffix :=
  String.eqb suffix (String.substring (String.length s - String.length suffix) (String.length suffix) s);
MimeTypeOfFile _ := "";
|}.

#[export] Instance resources_small : SmallResources.
Proof.
  constructor.
  - intros idr data. simpl. destruct (idr =? 1); [| done]. intros [= <-]. vm_compute. discriminate.
  - intros d. vm_compute. discriminate.
  - vm_compute. discriminate.
Qed.

Abbreviation source := (SharedResourcesDataSourceIOS + WebUIIOSDataSourceImpl)%type.

Definition shared : source := inl SharedResources.

Definition page (resource : Z) : source :=
  inr (SetDefaultResource resource (WebUIIOSDataSourceImpl_new "version")).

Definition page_url : GURL := mk_url "chrome" "version" "/index.html" None.

Definition after (es : list event) : World :=
  from_ok empty_world (play_new shared es).

Lemma after_reachable es : okb (play_new shared es) = true -> reachable shared (after es).
Proof. intros Hok. eapply play_new_reachable. by apply okb_run. Qed.

Definition first_job (w : World (T := source)) : URLRequestChromeJob :=
  default (URLRequestChromeJob_new page_url false) (jobs w !! 0%nat).

(** A page is read in pieces, the first of which is waited for. *)
Definition load_page : list event :=
  [EAddDataSource (page 1); ERunIO; ECreateJob page_url false; EStart true 0; ERunUI; ERunUI;
   ERunIO; ERead 2 0; ERunIO; ERead 5 0; ERead 5 0].

Example page_is_read :
  let j := first_job (after load_page) in
  received j = [x61; x62; x63] /\ mime_type_ j = "text/html" /\
  notes j = [NotifyHeadersComplete; ReadReturns ERR_IO_PENDING;
             ReadRawDataComplete (Copied 2 [x61; x62]); ReadReturns (Copied 1 [x63]);
             ReadReturns (Copied 0 [])] /\
  GetResponseInfo false j = Ok ["HTTP/1.1 200 OK";
    "Content-Security-Policy: script-src chrome://resources 'self' 'unsafe-eval'; object-src 'none';frame-src 'none';";
    "X-Frame-Options: DENY"; "Cache-Control: no-cache"].
Proof. vm_compute. done. Qed.

(** The source is replaced between the request and its answer: the answer is
    dropped and the reader waits for ever. *)
Definition replace_source : list event :=
  [EAddDataSource (page 1); ERunIO; ECreateJob page_url false; EStart true 0;
   EAddDataSource (page 1); ERunUI; ERunUI; ERunIO; ERunIO; ERead 2 0; ERunIO; ERunUI].

Example replaced_source_answers_nobody :
  let w := after replace_source in
  ui w = [] /\ io w = [] /\ stage_of (first_job w) = Waiting /\ weak_factory_ (first_job w) = true /\
  answered w = [(0, Some [x61; x62; x63])].
Proof. vm_compute. done. Qed.

(** A source that has no data says so before anybody reads: the reader waits
    for ever. *)
Definition fail_early : list event :=
  [EAddDataSource (page 7); ERunIO; ECreateJob page_url false; EStart true 0; ERunUI; ERunUI;
   ERunIO; ERunIO; ERead 2 0].

Example early_failure_is_lost :
  let w := after fail_early in
  ui w = [] /\ io w = [] /\ stage_of (first_job w) = Stuck /\
  notes (first_job w) = [NotifyHeadersComplete; ReadRawDataComplete ERR_FAILED; ReadReturns ERR_IO_PENDING].
Proof. vm_compute. done. Qed.

(** A path that the shared resources do not have fails their check. *)
Example unknown_resource_refused :
  source_refuses (T := source) ERunUI
    (after [ECreateJob (mk_url "chrome" "resources" "/none.js" None) false; EStart true 0; ERunUI]).
Proof.
  exists 0%nat, "none.js", 0, [], {| source_name_ := "resources"; backend_ := true; source_ := shared; ref_count := 2 |}.
  split; [done |]. vm_compute. done.
Qed.

Lemma web_ui_serves_answers_witness :
  reachable shared (after load_page) /\
  forall e, enabled e (after load_page) = true ->
    is_ok (handle e (after load_page)) \/ source_refuses e (after load_page).
Proof.
  assert (Hw : reachable shared (after load_page))
    by (apply after_reachable; vm_cast_no_check (@eq_refl bool true)).
  split; [exact Hw |]. exact (proj1 (web_ui_serves_answers shared (after load_page) Hw)).
Defined.

Lemma every_web_ui_request_ends_witness :
  reachable shared (after replace_source) /\
  ((exists w', settle (load (after replace_source)) (after replace_source) = Ok w' /\
     reachable shared w' /\ quiet w') \/
   (exists w', reachable shared w' /\ source_refuses ERunUI w')).
Proof.
  assert (Hw : reachable shared (after replace_source))
    by (apply after_reachable; vm_cast_no_check (@eq_refl bool true)).
  split; [exact Hw |]. exact (proj1 (every_web_ui_request_ends shared (after replace_source) Hw)).
Defined.

Lemma sources_die_on_ui_thread_witness :
  reachable shared (after replace_source) /\ NoDup (to_delete (after replace_source)).
Proof.
  assert (Hw : reachable shared (after replace_source))
    by (apply after_reachable; vm_cast_no_check (@eq_refl bool true)).
  split; [exact Hw |].
  exact (proj1 (proj2 (proj2 (proj2 (sources_die_on_ui_thread shared (after replace_source) Hw))))).
Defined.
End ConcreteWebUi.
